(* ===== verification/_CoqProject ===== *)
-Q . S2P
Prelude.v
Pdu.v
PduParse.v
PduDump.v
Queue.v
Bag.v
Sql.v
SqlFacts.v
RtrQuery.v
RtrQueryFacts.v
RtrUpdate.v
RtrUpdateFacts.v
RtrSync.v
CacheState.v
Connection.v
ConnectionFacts.v
ConnectionSpec.v
ConnectionThm.v
DbThread.v
DbSystem.v
DbProtocol.v
DbInv.v
DbThm.v
CasnTime.v
CasnTimeFacts.v
CasnNum.v
CasnObjid.v
RpkiObject.v
CmsValidate.v
CmsThm.v
RoaValidate.v
RoaRange.v
RoaThm.v
Manifest.v
RoaValidate2.v
Ghostbusters.v
RoaFile.v
RoaFileThm.v
RpkiDb.v
RpkiDbFacts.v
RpkiDbChain.v
RpkiDbRevoke.v
RpkiDbThm.v
RpkiVerify.v
RpkiVerifyThm.v
RpkiAdd.v
RpkiAddThm.v
CertExt.v
CertProfile.v
CertFacts.v
CertChecks.v
CertDecoded.v
CertKey.v
CertThm.v
CrlProfile.v
CrlThm.v
RpkiMft.v
RpkiMftThm.v
CertFields.v
CertFieldsThm.v
RpkiDelete.v
RpkiDeleteThm.v
RpkiHandlers.v
RpkiHandlersThm.v
ConfigLoad.v
ConfigThm.v
ConnControl.v
ConnControlFacts.v
ConnControlThm.v
DaemonMain.v
DaemonMainFacts.v
DaemonMainThm.v
