(* ===== verification/Prelude.v ===== *)
(** * RPSTIR: validation of signed objects and the rpki-rtr server, verified

    RPSTIR collects and validates RPKI objects and serves the result to routers
    over the rpki-rtr protocol (RFC 6810). This library models the profile checks
    of certificates and CRLs, the validation of ROAs and manifests, the database
    of objects with the searches and propagations over it, the serving half and
    the code it is built on, from the SQL statements to the bytes on the wire:

      - [lib/casn] reads and writes ASN.1 values; [lib/rpki/cms] validates
        decoded CMS messages, ROAs and manifests and extracts the AS number and
        the prefixes that are stored for a ROA; [lib/rpki/myssl.c] checks
        certificates and CRLs against their profiles;
      - [lib/rpki/sqhl.c] and [sqcon.c] keep the objects in a database: an object
        is verified up to a trust anchor through the rows of its parents, and
        what is revoked, expired or loses its parent is taken away with all that
        is below it;
      - [lib/configlib] loads the options of all the programs;
      - [rtr-update] turns the validated ROAs in the database into a new serial
        number: a full set and the changes since the previous one;
      - the database client ([lib/db]) answers reset and serial queries from
        these tables in batches of PDUs;
      - [rpki-rtr-daemon] has one thread per router ([connection.c]) and a pool
        of database threads ([db.c]); they meet in a queue of requests, a bag of
        unfinished requests and one queue of responses per connection, and wake
        each other with semaphores;
      - [lib/rpki-rtr/pdu.c] reads and writes PDUs; [lib/util] has the queue and
        the bag.

    ** Files

    - [Prelude] (this file): generic lemmas, the state-and-exit monad [ESt] in
      which stateful code is written ([let*], [;;;]), its triples, bytes and
      fixed-width integers.
    - [Pdu], [PduParse], [PduDump]: [src/lib/rpki-rtr/pdu.c]. [parse_pdu] is a
      parser over a buffer and an offset, [dump_pdu] writes into a buffer of the
      caller; the wire format [pdu_bytes] and the predicate [wf_pdu] are the
      specification both are proved against.
    - [Queue]: [src/lib/util/queue.c] as a heap of linked entries; refines a
      list.
    - [Bag]: [src/lib/util/bag.c], slots and bitmap; the specification is the
      list of slots.
    - [Sql], [SqlFacts]: the tables, every rpki-rtr statement of
      [src/lib/db/prep-stmt.c] as a function on them, execution with a lost
      connection ([src/lib/db/util.c], [connect.c]).
    - [RtrQuery], [RtrQueryFacts]: the queries of [src/lib/db/clients/rtr.c];
      [RtrUpdate], [RtrUpdateFacts]: its update operations and
      [src/bin/rpki-rtr/rtr-update.c]; [RtrSync]: both together, seen by a
      router that applies what it receives.
    - [CacheState]: [src/bin/rpki-rtr/cache_state.c].
    - [Connection]: [src/bin/rpki-rtr/connection.c]. [ConnectionFacts] has the
      abstract monitor of a connection's trace and the invariant,
      [ConnectionSpec] what the monitor means and runs in which calls succeed,
      [ConnectionThm] the claims.
    - [DbThread]: [src/bin/rpki-rtr/db.c]. [DbSystem]: all threads and
      connections interleaved, and [served], the specification of one request;
      [DbProtocol]: the automaton a thread follows, and that the code follows
      it; [DbInv]: the invariant of the system; [DbThm] the claims.
    - [ConnControl]: [src/bin/rpki-rtr/connection_control.c] and the semaphores of
      [src/lib/util/semaphore_compat.c], over the heap, descriptors and threads of
      the process; [ConnControlFacts] (a rule for each call), [ConnControlThm].
      [DaemonMain]: [main.c] and [signals.c], over what the process holds and which
      thread uses it; [DaemonMainFacts] (the invariant and the start-up),
      [DaemonMainThm] (the shutdown).
    - [CasnTime], [CasnTimeFacts]: [src/lib/casn/casn_time.c] and the calendar it
      is compared with. [CasnNum]: [casn_num.c]. [CasnObjid]: [casn_objid.c] and
      [_write_objid] of [casn.c]. An ASN.1 value is its content bytes.
    - [RpkiObject]: decoded certificates, CMS messages, ROAs and manifests
      ([src/lib/rpki-asn1]), and the helpers of
      [src/lib/rpki-object/certificate.c].
    - [CmsValidate], [CmsThm]: [cmsValidate] of
      [src/lib/rpki/cms/roa_validate.c]; [Manifest]: [manifestValidate];
      [RoaValidate]: [roaValidate], and [roaGetPrefixes] and [roaAS_ID] of
      [roa_general.c]; [RoaRange] reads the byte arrays of ranges as numbers and
      has the sweep over sorted ranges, [RoaThm] the claims; [RoaValidate2]:
      [roaValidate2] and its agreement with [roaValidate]; [Ghostbusters]:
      [ghostbustersValidate] with the decoding of UTF-8. [RoaFile], [RoaFileThm]:
      ROA files as DER and as armored Base64 ([roa_serialize.c]). Hashes and
      [check_sig] (cryptlib) are parameters.
    - [RpkiDb]: the tables of objects, the access functions of
      [src/lib/rpki/sqcon.c] and the revocation, expiry and invalidation of
      [src/lib/rpki/sqhl.c]; [RpkiDbFacts] (the searches as functions on the
      tables), [RpkiDbChain] (the worklist and its invariant), [RpkiDbRevoke] and
      [RpkiDbThm] (the claims). [RpkiVerify], [RpkiVerifyThm]: the search for
      parents and [verify_cert], [verify_crl] and [verify_roa] of [sqhl.c].
      [RpkiAdd], [RpkiAddThm]: the inserts of rows. [RpkiMft], [RpkiMftThm]:
      manifests and the objects they list. [RpkiDelete], [RpkiDeleteThm]:
      [delete_object] and [add_crl]. [RpkiHandlers], [RpkiHandlersThm]:
      [add_object] with the handlers of certificates, ROAs, manifests and
      ghostbusters records, and the propagation of a certificate that has become
      valid. OpenSSL, the decoders and the file system are the fields of two
      records ([env], [henv]).
    - [ConfigLoad], [ConfigThm]: [src/lib/configlib]: the parser of configuration
      files, includes, option values and defaults.
    - [CertExt]: the checks of [src/lib/rpki/myssl.c] on OpenSSL's view of a
      certificate; [CertProfile]: those on the program's own decoding, and
      [rescert_profile_chk]; [CertFacts], [CertChecks], [CertDecoded] and
      [CertKey] say for each check when it succeeds, [CertThm] has the claim.
      [CrlProfile], [CrlThm]: [crl_profile_chk] and the dates for the database.
      [CertFields], [CertFieldsThm]: [cert2fields] and [crl2fields], which make the
      rows of certificates and CRLs.

    ** How the code is represented

    A C function is a Rocq function with the same name. Machine integers are
    integers with their wrap-around written out ([u32], [wrap]); buffers are
    lists of their declared length; NULL is [None]. A call whose outcome the
    code does not decide (allocation, locks, sockets, the clock, MySQL) takes its
    outcome from an argument: a flag, a [stmt_env] per SQL statement (which also
    holds what other processes do to the tables before it), or, in a connection
    thread, the next element of a list of [answer]s. Undefined behaviour is an
    exit of the monad of its own, so its absence is part of the statements.
    [connection.c] leaves a trace of events. [db.c] is a tree of calls ([Prog]):
    a thread is a program whose head call is executed atomically on the shared
    state, which gives every interleaving of threads at the granularity of the
    library calls, with the bag's lock held across its iteration as in the code.

    ** What the theorems say

    - PDUs: the parser accepts exactly encodings of well-formed PDUs, and dumping
      and parsing are inverse; the constructor functions build well-formed PDUs
      (of arguments in range).
    - Containers: as long as unlocking succeeds the queue is the one [queue.h]
      describes; adding to and erasing from a bag do what they say under every
      allocation failure.
    - Tables: a run of [rtr-update], however it ends, leaves tables from which
      routers get the right sets; a successful one publishes the set of ROAs that
      pass the configured tests.
    - Queries: the batches of a query are one response with every row once;
      a router that applies it has the newest set; each batch keeps the contract
      of [rtr.h] whichever statements fail, while the connection to the server is
      kept, but that a serial query may return an empty batch between two updates.
    - Connections: for all inputs, a thread's trace is one the monitor accepts:
      whole well-formed PDUs, one request at a time, notifications a minute
      apart, a cache state that only moves forward; no undefined behaviour until
      clean-up. When calls succeed, queries are found in the byte stream however
      it is cut, responses arrive whole, and clean-up waits for the database; the
      two states in which clean-up is undefined are part of its theorem.
    - The process: the connection control thread and the main thread release
      whatever they acquired exactly once, after the threads that use it have been
      joined, whenever they are stopped and whichever calls fail; descriptors too
      large for an [fd_set] are the one way into undefined behaviour.
    - Database threads: every request is served as if by one thread alone (a post
      may come after its request is gone, [DbThm.db_post_race]), no wake-up is lost
      while posts and locks succeed, at most four responses are buffered, and through any
      number of threads routers get the newest set.
    - ASN.1 values: times are those of the calendar (with the exceptions the code
      has); integers and object identifiers round-trip.
    - Validation: what an accepted message, ROA or manifest is guaranteed to be;
      for canonical resources the two ROA validations decide exactly whether the
      ROA lies inside of its certificate, and the stored prefixes are those of
      the ROA with all their addresses in the certificate. A ROA file in armored
      Base64 carries the bytes of the one in DER, except where writing overflows its
      buffer.
    - Profiles: [rescert_profile_chk] and [crl_profile_chk] accept exactly the
      certificates and CRLs that meet a declarative profile, each check having
      its own clause; the theorems say where it departs from the comments of the
      code and, for dates, from RFC 5280. The header of a file says which parts of
      OpenSSL are parameters. A serial number is stored in the same way for a certificate and
      in a CRL.
    - Object database: when no statement fails, revocation, expiry and CRL
      processing terminate, keep the promise that whatever is not marked NOCHAIN
      has a validated certificate above it ([chain_inv]), and mark nothing that
      still has one; a certificate that is added met its profile, is on no
      validated CRL and is marked as validated only with a verified chain of rows
      to a trust anchor, and as without a chain only if the rows above it end
      before one; a CRL takes away what it lists and nothing else; a
      manifest marks the objects whose hash is the listed one and removes those whose
      hash is another; deleting an object
      removes its rows and its end-entity certificate's; a ROA is stored with all
      of its prefixes or not at all, unless the statement that undoes it fails too,
      and is what [rtr-update] will publish. Where the code
      falls short of this there are lemmas ([child_unchecked], [undo_keeps],
      [man_files_abort], [short_file_overflows]).
    - Configuration: a configuration written in the quoted form loads to the
      values that were written.

    ** Bounds and fuel

    The loops of [connection.c] that read or write until done take as fuel one
    more than the number of answers that are left, and each round uses one, so
    running out means that a call has not returned yet ([OutOfAnswers]). The loop
    over the waiting queries gets one more than their number, the search through
    the bag one more than the number of elements; that neither runs out is part
    of the invariants. The bitmap and array loops of the bag, the SQL page
    queries and the batches of a query have fuel bounds in their theorems. The
    sweep over ranges gets one more than the number of entries of the certificate
    (each round uses one), the loops of [casn_num.c] and [casn_objid.c] the number
    of bytes or digits a 64-bit value can have. The invalidation of children is a
    worklist; that it ends is a theorem (some fuel is enough, and more changes
    nothing). The loop that inserts the prefixes of a ROA gets twice their number,
    which is proved enough. The loop up the parents of a certificate need not end
    on a cyclic database ([RpkiVerifyThm.cycle_loops]), so its theorems speak of
    the runs that do. The loops over the connections and over the database threads
    of the daemon get the number of elements of the bag; that they do not run out
    is part of the theorems, since running out counts as undefined. The endless
    loops of the two threads are taken for any number of rounds. The configuration
    parser gets one more than the number of
    assignments, the scan for leading zero bits of a byte 9.

    ** Not modelled

    Of the parts above: log texts, socket options, freeing of memory that is not
    used again (but for the two threads of the process) and failures of pthread
    mutex operations inside the queue. Of the ASN.1 runtime: the tree of decoded values
    (decoding, encoding, copying), so that validation starts from a decoded
    object. Of the object database: the texts of SQL statements (a statement is
    its effect on the tables) and the calls of ODBC. Of the configuration library:
    the types of options that only call the C library. The rest of RPSTIR is not modelled: the ASN.1
    compiler, the local trust anchor tools, the rsync tools, the chaser, object
    creation and the test client. *)

From stdpp Require Export base tactics numbers list gmap.
From Stdlib Require Export ZArith Lia.

#[global] Open Scope Z_scope.

(** ** Machine integers

    C's fixed-width unsigned integers are [Z] values; the wrap-around of an
    operation is written out with [wrap w]. *)
Definition wrap (w x : Z) : Z := x mod 2 ^ w.
Definition u8 (x : Z) : Z := wrap 8 x.
Definition u16 (x : Z) : Z := wrap 16 x.
Definition u32 (x : Z) : Z := wrap 32 x.

(** [size_t] and [uint_fast32_t] are 64 bits wide (LP64). *)
Definition size_t (x : Z) : Z := wrap 64 x.

Definition uint_ok (w x : Z) : Prop := 0 <= x < 2 ^ w.
Definition byte_ok (b : Z) : Prop := uint_ok 8 b.
Definition bytes_ok (l : list Z) : Prop := Forall byte_ok l.

(** [switch] labels: is [x] one of the listed constants? *)
Definition zin (x : Z) (l : list Z) : bool := existsb (Z.eqb x) l.

(** ** Byte buffers *)

(** The [n] bytes at offset [off]. *)
Definition slice (off n : nat) (l : list Z) : list Z := take n (drop off l).

(** [memcpy(buf + off, bs, length bs)]. *)
Definition blit (off : nat) (bs l : list Z) : list Z :=
  take off l ++ bs ++ drop (off + length bs) l.

(** Network (big-endian) byte order: the [n] bytes of [x], and back. *)
Fixpoint be_bytes (n : nat) (x : Z) : list Z :=
  match n with
  | O => []
  | S n' => be_bytes n' (x / 256) ++ [x mod 256]
  end.

Definition be_val (l : list Z) : Z := foldl (fun acc b => acc * 256 + b) 0 l.

(** The sign of [memcmp(l, k, n)] for arrays of at least [n] bytes. *)
Fixpoint memcmp (n : nat) (l k : list Z) : Z :=
  match n, l, k with
  | S n, x :: l, y :: k => if x <? y then -1 else if y <? x then 1 else memcmp n l k
  | _, _, _ => 0
  end.

(** ** Early-exit state monad

    A C function that threads mutable state [S] and may leave early with a
    value of [E] (a [return] in the middle, [pthread_exit], [goto done]). *)
Definition ESt (S E A : Type) : Type := S -> S * (E + A).

Definition est_ret {S E A} (a : A) : ESt S E A := fun s => (s, inr a).
Definition est_bind {S E A B} (f : A -> ESt S E B) (m : ESt S E A) : ESt S E B :=
  fun s => match m s with
           | (s', inl e) => (s', inl e)
           | (s', inr a) => f a s'
           end.
Definition est_exit {S E A} (e : E) : ESt S E A := fun s => (s, inl e).
Definition est_get {S E} : ESt S E S := fun s => (s, inr s).
Definition est_gets {S E A} (f : S -> A) : ESt S E A := fun s => (s, inr (f s)).
Definition est_put {S E} (s : S) : ESt S E unit := fun _ => (s, inr tt).
Definition est_modify {S E} (f : S -> S) : ESt S E unit := fun s => (f s, inr tt).
Definition est_when {S E} (b : bool) (m : ESt S E unit) : ESt S E unit :=
  if b then m else est_ret tt.

Declare Scope est_scope.
Delimit Scope est_scope with est.
Notation "'let*' x ':=' m 'in' k" := (est_bind (fun x => k) m)
  (at level 10, x binder, m at level 200, k at level 200) : est_scope.
Notation "m ;;; k" := (est_bind (fun _ => k) m)
  (at level 100, k at level 200, right associativity) : est_scope.

(** Partial-correctness triple: [Q] describes a normal result, [R] an early
    exit. Runs are total functions, so a triple always speaks of an outcome. *)
Definition triple {S E A} (P : S -> Prop) (m : ESt S E A)
    (Q : A -> S -> Prop) (R : E -> S -> Prop) : Prop :=
  forall s, P s -> match m s with
                   | (s', inr a) => Q a s'
                   | (s', inl e) => R e s'
                   end.

(** ** Automation *)

Create HintDb rpstir.

(** Turn boolean comparisons in the context and goal into propositions. *)
Ltac bprop :=
  repeat match goal with
  | H : (_ =? _) = true |- _ => apply Z.eqb_eq in H
  | H : (_ =? _) = false |- _ => apply Z.eqb_neq in H
  | H : (_ <? _) = true |- _ => apply Z.ltb_lt in H
  | H : (_ <? _) = false |- _ => apply Z.ltb_ge in H
  | H : (_ <=? _) = true |- _ => apply Z.leb_le in H
  | H : (_ <=? _) = false |- _ => apply Z.leb_gt in H
  | H : (_ && _) = true |- _ => apply andb_prop in H as [? ?]
  | H : negb _ = true |- _ => apply negb_true_iff in H
  | H : negb _ = false |- _ => apply negb_false_iff in H
  | H : (_ || _) = false |- _ => apply orb_false_elim in H as [? ?]
  end.

(** Split on the scrutinee of the first [if]/[match] found, keeping an
    equation. *)
Ltac break_match :=
  match goal with
  | |- context [match ?x with _ => _ end] =>
      lazymatch x with
      | context [match _ with _ => _ end] => fail
      | _ => destruct x eqn:?
      end
  | H : context [match ?x with _ => _ end] |- _ =>
      lazymatch x with
      | context [match _ with _ => _ end] => fail
      | _ => destruct x eqn:?
      end
  end.

(** ** Lemmas: integers *)

Lemma wrap_small w x : uint_ok w x -> wrap w x = x.
Proof. intros H. apply Z.mod_small. exact H. Qed.

Lemma wrap_ok w x : 0 <= w -> uint_ok w (wrap w x).
Proof. intros Hw. apply Z.mod_pos_bound. lia. Qed.

Lemma zin_In x l : zin x l = true <-> x ∈ l.
Proof.
  unfold zin. rewrite existsb_exists, list_elem_of_In. split.
  - intros (y & Hy & E). apply Z.eqb_eq in E as ->. done.
  - intros Hx. exists x. split; [done | apply Z.eqb_refl].
Qed.

Lemma zin_notIn x l : zin x l = false <-> x ∉ l.
Proof. rewrite <- zin_In. destruct (zin x l); naive_solver. Qed.

(** ** Lemmas: lists and buffers *)

Lemma length_slice off n l : (off + n <= length l)%nat -> length (slice off n l) = n.
Proof. intros H. unfold slice. rewrite length_take, length_drop. lia. Qed.

Lemma length_blit off bs l :
  (off + length bs <= length l)%nat -> length (blit off bs l) = length l.
Proof.
  intros H. unfold blit. rewrite !length_app, length_take, length_drop. lia.
Qed.

Lemma slice_prefix bs l n : n = length bs -> slice 0 n (bs ++ l) = bs.
Proof. intros ->. unfold slice. rewrite drop_0. apply take_app_length. Qed.

Lemma bytes_ok_app l k : bytes_ok (l ++ k) <-> bytes_ok l /\ bytes_ok k.
Proof. apply Forall_app. Qed.

Lemma bytes_ok_take n l : bytes_ok l -> bytes_ok (take n l).
Proof. apply Forall_take. Qed.

Lemma bytes_ok_drop n l : bytes_ok l -> bytes_ok (drop n l).
Proof. apply Forall_drop. Qed.

(** ** Lemmas: byte order *)

Lemma length_be_bytes n x : length (be_bytes n x) = n.
Proof.
  revert x. induction n as [|n IH]; intros x; simpl; [done|].
  rewrite length_app, IH. simpl. lia.
Qed.

Lemma be_bytes_ok n x : bytes_ok (be_bytes n x).
Proof.
  revert x. induction n as [|n IH]; intros x; simpl; [constructor|].
  apply bytes_ok_app. split; [apply IH|].
  repeat constructor; apply Z.mod_pos_bound; lia.
Qed.

Lemma be_val_snoc l b : be_val (l ++ [b]) = be_val l * 256 + b.
Proof. unfold be_val. by rewrite foldl_app. Qed.

Lemma pow256_S n : 256 ^ Z.of_nat (S n) = 256 * 256 ^ Z.of_nat n.
Proof. rewrite Nat2Z.inj_succ, Z.pow_succ_r by lia. done. Qed.

Lemma be_val_be_bytes n x :
  0 <= x < 256 ^ Z.of_nat n -> be_val (be_bytes n x) = x.
Proof.
  revert x. induction n as [|n IH]; intros x Hx; cbn [be_bytes].
  - change (256 ^ Z.of_nat 0) with 1 in Hx. cbn. lia.
  - rewrite pow256_S in Hx. rewrite be_val_snoc, IH.
    + pose proof (Z.div_mod x 256). lia.
    + split; [apply Z.div_pos; lia|]. apply Z.div_lt_upper_bound; lia.
Qed.

Lemma be_bytes_be_val l : bytes_ok l -> be_bytes (length l) (be_val l) = l.
Proof.
  induction l as [|b l IH] using rev_ind; intros Hl; [done|].
  apply bytes_ok_app in Hl as [Hl Hb]. inversion Hb as [|? ? Hb1 _]; subst.
  change (2 ^ 8) with 256 in Hb1.
  rewrite length_app, Nat.add_1_r, be_val_snoc. cbn [be_bytes].
  assert (0 <= b < 256) by exact Hb1.
  rewrite Z.div_add_l, (Z.div_small b), Z.add_0_r, IH by (done || lia).
  rewrite Z.add_comm, Z_mod_plus_full, Z.mod_small by lia. done.
Qed.

Lemma be_val_bound l : bytes_ok l -> 0 <= be_val l < 256 ^ Z.of_nat (length l).
Proof.
  induction l as [|b l IH] using rev_ind; intros Hl; [done|].
  apply bytes_ok_app in Hl as [Hl Hb]. inversion Hb as [|? ? Hb1 _]; subst.
  assert (0 <= b < 256) by exact Hb1.
  rewrite length_app, Nat.add_1_r, be_val_snoc, pow256_S.
  specialize (IH Hl). lia.
Qed.

Lemma be_val_cons x l : be_val (x :: l) = x * 256 ^ Z.of_nat (length l) + be_val l.
Proof.
  induction l as [|y l IH] using rev_ind; [cbn; lia|].
  rewrite app_comm_cons, !be_val_snoc, IH, length_app, Nat.add_1_r, pow256_S. lia.
Qed.

Lemma be_val_first x l :
  byte_ok x -> bytes_ok l ->
  x * 256 ^ Z.of_nat (length l) <= be_val (x :: l) < (x + 1) * 256 ^ Z.of_nat (length l).
Proof. intros Hx Hl. rewrite be_val_cons. pose proof (be_val_bound l Hl). lia. Qed.

(** Comparing arrays is comparing the numbers they encode. *)
Lemma memcmp_be_val n l k :
  length l = n -> length k = n -> bytes_ok l -> bytes_ok k ->
  memcmp n l k = (if be_val l <? be_val k then -1 else if be_val k <? be_val l then 1 else 0).
Proof.
  revert l k. induction n as [|n IH]; intros [|x l] [|y k] Hl Hk Ol Ok; try done.
  inversion Ol as [|? ? Hx Ol']; inversion Ok as [|? ? Hy Ok']; subst.
  injection Hl as Hl. injection Hk as Hk.
  pose proof (be_val_first x l Hx Ol') as B1. pose proof (be_val_first y k Hy Ok') as B2.
  pose proof (be_val_cons x l) as E1. pose proof (be_val_cons y k) as E2.
  cbn [memcmp]. rewrite (IH l k) by done. rewrite Hl in *. rewrite Hk in *.
  assert (0 < 256 ^ Z.of_nat n) by (apply Z.pow_pos_nonneg; lia).
  destruct (Z.ltb_spec x y), (Z.ltb_spec y x);
    repeat match goal with |- context [?a <? ?b] => destruct (Z.ltb_spec a b) end; nia || done.
Qed.

Lemma memcmp_eq n l k :
  (n <= length l)%nat -> (n <= length k)%nat -> memcmp n l k = 0 <-> take n l = take n k.
Proof.
  revert l k. induction n as [|n IH]; intros [|x l] [|y k] Hl Hk; simpl in *; try lia; try done.
  destruct (Z.ltb_spec x y), (Z.ltb_spec y x); try (split; [done|]; intros E; injection E; lia).
  assert (x = y) as -> by lia. rewrite IH by lia. split; [by intros -> | by intros [= ->]].
Qed.

#[export] Hint Resolve be_bytes_ok bytes_ok_take bytes_ok_drop : rpstir.

(** ** Lemmas: the monad's proof rules *)
Section triples.
Context {S E : Type}.
Implicit Types (P : S -> Prop) (R : E -> S -> Prop).

Lemma triple_ret {A} P (a : A) (Q : A -> S -> Prop) R :
  (forall s, P s -> Q a s) -> triple P (est_ret a) Q R.
Proof. intros H s Hs. apply H, Hs. Qed.

Lemma triple_exit {A} P (e : E) (Q : A -> S -> Prop) R :
  (forall s, P s -> R e s) -> triple P (est_exit e) Q R.
Proof. intros H s Hs. apply H, Hs. Qed.

Lemma bind_val {A B} (m : ESt S E A) (k : A -> ESt S E B) s s' a :
  m s = (s', inr a) -> est_bind k m s = k a s'.
Proof. unfold est_bind. by intros ->. Qed.

Lemma triple_bind {A B} P (m : ESt S E A) (f : A -> ESt S E B)
    (Q : A -> S -> Prop) (Q' : B -> S -> Prop) R :
  triple P m Q R -> (forall a, triple (Q a) (f a) Q' R) ->
  triple P (est_bind f m) Q' R.
Proof.
  intros Hm Hf s Hs. specialize (Hm s Hs). unfold est_bind.
  destruct (m s) as [s' [e|a]]; [done|]. by apply Hf.
Qed.

Lemma triple_get P (Q : S -> S -> Prop) R :
  (forall s, P s -> Q s s) -> triple P est_get Q R.
Proof. intros H s Hs. apply H, Hs. Qed.

Lemma triple_gets {A} P (f : S -> A) (Q : A -> S -> Prop) R :
  (forall s, P s -> Q (f s) s) -> triple P (est_gets f) Q R.
Proof. intros H s Hs. apply H, Hs. Qed.

Lemma triple_modify P (f : S -> S) (Q : unit -> S -> Prop) R :
  (forall s, P s -> Q tt (f s)) -> triple P (est_modify f) Q R.
Proof. intros H s Hs. apply H, Hs. Qed.

Lemma triple_conseq {A} P P' (m : ESt S E A) (Q Q' : A -> S -> Prop) R R' :
  triple P' m Q' R' ->
  (forall s, P s -> P' s) -> (forall a s, Q' a s -> Q a s) ->
  (forall e s, R' e s -> R e s) -> triple P m Q R.
Proof.
  intros Hm HP HQ HR s Hs. specialize (Hm s (HP s Hs)).
  destruct (m s) as [s' [e|a]]; auto.
Qed.

Lemma triple_if {A} P (b : bool) (m1 m2 : ESt S E A) Q R :
  (b = true -> triple P m1 Q R) -> (b = false -> triple P m2 Q R) ->
  triple P (if b then m1 else m2) Q R.
Proof. destruct b; auto. Qed.
End triples.
