(* ===== verification/Pdu.v ===== *)
(** * The rpki-rtr PDU codec ([src/lib/rpki-rtr/pdu.c], [pdu.h])

    Serial number arithmetic, [parse_pdu], [dump_pdu], the [fill_pdu_*]
    constructors and [pdu_deepcopy]. Bytes are [Z] values below 256; a
    [(buffer, buflen)] pair read by [parse_pdu] is the list of its bytes. *)

From S2P Require Import Prelude.
Local Open Scope est_scope.

(** ** Constants of [pdu.h] *)
Definition PDU_SERIAL_NOTIFY : Z := 0.
Definition PDU_SERIAL_QUERY : Z := 1.
Definition PDU_RESET_QUERY : Z := 2.
Definition PDU_CACHE_RESPONSE : Z := 3.
Definition PDU_IPV4_PREFIX : Z := 4.
Definition PDU_IPV6_PREFIX : Z := 6.
Definition PDU_END_OF_DATA : Z := 7.
Definition PDU_CACHE_RESET : Z := 8.
Definition PDU_ERROR_REPORT : Z := 10.

Definition RTR_PROTOCOL_VERSION : Z := 0.
Definition FLAG_WITHDRAW_ANNOUNCE : Z := 1.
(** [0x2 | 0x4 | ... | 0x80]. *)
Definition FLAGS_RESERVED : Z := 254.

Definition ERR_CORRUPT_DATA : Z := 0.
Definition ERR_INTERNAL_ERROR : Z := 1.
Definition ERR_NO_DATA : Z := 2.
Definition ERR_INVALID_REQUEST : Z := 3.
Definition ERR_UNSUPPORTED_VERSION : Z := 4.
Definition ERR_UNSUPPORTED_TYPE : Z := 5.
Definition ERR_UNKNOWN_WITHDRAW : Z := 6.
Definition ERR_DUPLICATE_ANNOUNCE : Z := 7.
Definition ERR_IS_FATAL (code : Z) : bool := negb (code =? ERR_NO_DATA).

(** [offsetof(PDU, serialNumber)] of the packed struct, and the two 32-bit
    length fields of an error report. *)
Definition PDU_HEADER_LENGTH : Z := 8.
Definition PDU_ERROR_HEADERS_LENGTH : Z := 8.
Definition sizeof_serial : Z := 4.
Definition sizeof_IP4PrefixData : Z := 12.
Definition sizeof_IP6PrefixData : Z := 24.

Definition PDU_GOOD : Z := 0.
Definition PDU_TRUNCATED : Z := -1.
Definition PDU_WARNING : Z := -2.
Definition PDU_CORRUPT_DATA : Z := -3.
Definition PDU_INTERNAL_ERROR : Z := -4.
Definition PDU_UNSUPPORTED_PROTOCOL_VERSION : Z := -5.
Definition PDU_UNSUPPORTED_PDU_TYPE : Z := -6.
Definition PDU_INVALID_VALUE : Z := -7.
Definition PDU_IS_ERROR (retval : Z) : bool := retval <=? PDU_CORRUPT_DATA.

(** ** The PDU structure *)

Record IP4PrefixData := mkIP4 {
  ip4_flags : Z;
  ip4_prefixLength : Z;
  ip4_maxLength : Z;
  ip4_reserved : Z;
  prefix4 : list Z;                 (* struct in_addr: 4 bytes, network order *)
  ip4_asNumber : Z }.

Record IP6PrefixData := mkIP6 {
  ip6_flags : Z;
  ip6_prefixLength : Z;
  ip6_maxLength : Z;
  ip6_reserved : Z;
  prefix6 : list Z;                 (* struct in6_addr: 16 bytes *)
  ip6_asNumber : Z }.

(** A [uint8_t *]: NULL, or the bytes it points at. *)
Definition data_ptr : Type := option (list Z).

Record ErrorData := mkErr {
  encapsulatedPDULength : Z;
  encapsulatedPDU : data_ptr;
  errorTextLength : Z;
  errorText : data_ptr }.

(** The anonymous union at the end of [struct _PDU], with its active member;
    [BNone] is a union that was never written. *)
Inductive pdu_body :=
| BNone
| BSerial (serialNumber : Z)
| BIP4 (d : IP4PrefixData)
| BIP6 (d : IP6PrefixData)
| BError (d : ErrorData).

(** [sessionId], [reserved] and [errorCode] are the three names of one
    [uint16_t] (an anonymous union): one field here. *)
Record PDU := mkPDU {
  protocolVersion : Z;
  pduType : Z;
  sessionId : Z;
  length_ : Z;
  body : pdu_body }.

Definition set_protocolVersion (v : Z) (p : PDU) : PDU :=
  mkPDU v (pduType p) (sessionId p) (length_ p) (body p).
Definition set_pduType (v : Z) (p : PDU) : PDU :=
  mkPDU (protocolVersion p) v (sessionId p) (length_ p) (body p).
Definition set_sessionId (v : Z) (p : PDU) : PDU :=
  mkPDU (protocolVersion p) (pduType p) v (length_ p) (body p).
Definition set_length (v : Z) (p : PDU) : PDU :=
  mkPDU (protocolVersion p) (pduType p) (sessionId p) v (body p).
Definition set_body (b : pdu_body) (p : PDU) : PDU :=
  mkPDU (protocolVersion p) (pduType p) (sessionId p) (length_ p) b.

(** Access to a union member. The bytes of a member that is not the active
    one are never looked at by the code; they read as zeros here. *)
Definition ip4_of (b : pdu_body) : IP4PrefixData :=
  match b with BIP4 d => d | _ => mkIP4 0 0 0 0 [0;0;0;0] 0 end.
Definition ip6_of (b : pdu_body) : IP6PrefixData :=
  match b with BIP6 d => d | _ => mkIP6 0 0 0 0 (replicate 16 0) 0 end.
Definition err_of (b : pdu_body) : ErrorData :=
  match b with BError d => d | _ => mkErr 0 None 0 None end.
Definition serial_of (b : pdu_body) : Z :=
  match b with BSerial n => n | _ => 0 end.

Definition serialNumber (p : PDU) : Z := serial_of (body p).
Definition errorData (p : PDU) : ErrorData := err_of (body p).
Definition ip4PrefixData (p : PDU) : IP4PrefixData := ip4_of (body p).
Definition ip6PrefixData (p : PDU) : IP6PrefixData := ip6_of (body p).

(** ** Serial number arithmetic *)

(** All operands are [uint32_t], so the subtractions wrap at 32 bits. *)
Definition serial_number_greater (s1 s2 : Z) : bool :=
  if s1 =? s2 then false
  else ((s1 <? s2) && (2 ^ 31 <? u32 (s2 - s1)))
       || ((s2 <? s1) && (u32 (s1 - s2) <? 2 ^ 31)).

(** ** Parsing *)

(** [ret |= (uint_fast32_t) buffer[i] << (8 * (length - 1 - i))]. *)
Fixpoint extract_uint_loop (rest : list Z) (ret : Z) : Z :=
  match rest with
  | [] => ret
  | b :: rest' =>
      extract_uint_loop rest'
        (Z.lor ret (Z.shiftl b (8 * Z.of_nat (length rest'))))
  end.
Definition extract_uint (buffer : list Z) : Z := extract_uint_loop buffer 0.

(** The locals of [parse_pdu]: [offset] and the structure being filled in.
    An early exit carries the return value. *)
Record parse_state := mkPS { ps_offset : nat; ps_pdu : PDU }.
Definition parser (A : Type) : Type := ESt parse_state Z A.

Definition upd_pdu (f : PDU -> PDU) : parser unit :=
  est_modify (fun s => mkPS (ps_offset s) (f (ps_pdu s))).

(** The part common to [EXTRACT_FIELD] and [EXTRACT_BIN_FIELD]: the next
    [size] bytes, or [return PDU_TRUNCATED]. *)
Definition extract_bin_field (buffer : list Z) (size : nat) : parser (list Z) :=
  fun s =>
    if (ps_offset s + size <=? length buffer)%nat
    then (mkPS (ps_offset s + size) (ps_pdu s),
          inr (slice (ps_offset s) size buffer))
    else (s, inl PDU_TRUNCATED).

Definition extract_field (buffer : list Z) (size : nat) : parser Z :=
  let* bs := extract_bin_field buffer size in est_ret (extract_uint bs).

(** Protocol version, type and the 16-bit field after them; the result is the
    value of [ret] so far. *)
Definition parse_type_fields (buffer : list Z) : parser Z :=
  let* v := extract_field buffer 1 in
  upd_pdu (set_protocolVersion v) ;;;
  if negb (v =? RTR_PROTOCOL_VERSION)
  then est_exit PDU_UNSUPPORTED_PROTOCOL_VERSION
  else
  let* t := extract_field buffer 1 in
  upd_pdu (set_pduType t) ;;;
  if zin t [PDU_SERIAL_NOTIFY; PDU_SERIAL_QUERY; PDU_CACHE_RESPONSE; PDU_END_OF_DATA]
  then
    let* x := extract_field buffer 2 in
    upd_pdu (set_sessionId x) ;;;
    est_ret PDU_GOOD
  else if zin t [PDU_RESET_QUERY; PDU_IPV4_PREFIX; PDU_IPV6_PREFIX; PDU_CACHE_RESET]
  then
    let* x := extract_field buffer 2 in
    upd_pdu (set_sessionId x) ;;;
    est_ret (if negb (x =? 0) then PDU_WARNING else PDU_GOOD)
  else if t =? PDU_ERROR_REPORT
  then
    let* x := extract_field buffer 2 in
    upd_pdu (set_sessionId x) ;;;
    est_ret (if negb (zin x [ERR_CORRUPT_DATA; ERR_INTERNAL_ERROR; ERR_NO_DATA;
                             ERR_INVALID_REQUEST; ERR_UNSUPPORTED_VERSION;
                             ERR_UNSUPPORTED_TYPE; ERR_UNKNOWN_WITHDRAW;
                             ERR_DUPLICATE_ANNOUNCE])
             then PDU_WARNING else PDU_GOOD)
  else est_exit PDU_UNSUPPORTED_PDU_TYPE.

Definition upd_ip4 (f : IP4PrefixData -> IP4PrefixData) : parser unit :=
  upd_pdu (fun p => set_body (BIP4 (f (ip4PrefixData p))) p).
Definition upd_ip6 (f : IP6PrefixData -> IP6PrefixData) : parser unit :=
  upd_pdu (fun p => set_body (BIP6 (f (ip6PrefixData p))) p).
Definition upd_err (f : ErrorData -> ErrorData) : parser unit :=
  upd_pdu (fun p => set_body (BError (f (errorData p))) p).

(** [case PDU_IPV4_PREFIX] of the second switch. *)
Definition parse_ip4_body (buffer : list Z) (ret : Z) : parser Z :=
  let* flags := extract_field buffer 1 in
  upd_ip4 (fun d => mkIP4 flags (ip4_prefixLength d) (ip4_maxLength d)
                      (ip4_reserved d) (prefix4 d) (ip4_asNumber d)) ;;;
  let ret := if negb (Z.land flags FLAGS_RESERVED =? 0) then PDU_WARNING else ret in
  let* plen := extract_field buffer 1 in
  upd_ip4 (fun d => mkIP4 (ip4_flags d) plen (ip4_maxLength d)
                      (ip4_reserved d) (prefix4 d) (ip4_asNumber d)) ;;;
  if 32 <? plen then est_exit PDU_INVALID_VALUE else
  let* mlen := extract_field buffer 1 in
  upd_ip4 (fun d => mkIP4 (ip4_flags d) (ip4_prefixLength d) mlen
                      (ip4_reserved d) (prefix4 d) (ip4_asNumber d)) ;;;
  if 32 <? mlen then est_exit PDU_INVALID_VALUE else
  let ret := if mlen <? plen then PDU_WARNING else ret in
  let* res := extract_field buffer 1 in
  upd_ip4 (fun d => mkIP4 (ip4_flags d) (ip4_prefixLength d) (ip4_maxLength d)
                      res (prefix4 d) (ip4_asNumber d)) ;;;
  let ret := if negb (res =? 0) then PDU_WARNING else ret in
  let* addr := extract_bin_field buffer 4 in
  upd_ip4 (fun d => mkIP4 (ip4_flags d) (ip4_prefixLength d) (ip4_maxLength d)
                      (ip4_reserved d) addr (ip4_asNumber d)) ;;;
  let* asn := extract_field buffer 4 in
  upd_ip4 (fun d => mkIP4 (ip4_flags d) (ip4_prefixLength d) (ip4_maxLength d)
                      (ip4_reserved d) (prefix4 d) asn) ;;;
  est_ret ret.

(** [case PDU_IPV6_PREFIX]. *)
Definition parse_ip6_body (buffer : list Z) (ret : Z) : parser Z :=
  let* flags := extract_field buffer 1 in
  upd_ip6 (fun d => mkIP6 flags (ip6_prefixLength d) (ip6_maxLength d)
                      (ip6_reserved d) (prefix6 d) (ip6_asNumber d)) ;;;
  let ret := if negb (Z.land flags FLAGS_RESERVED =? 0) then PDU_WARNING else ret in
  let* plen := extract_field buffer 1 in
  upd_ip6 (fun d => mkIP6 (ip6_flags d) plen (ip6_maxLength d)
                      (ip6_reserved d) (prefix6 d) (ip6_asNumber d)) ;;;
  if 128 <? plen then est_exit PDU_INVALID_VALUE else
  let* mlen := extract_field buffer 1 in
  upd_ip6 (fun d => mkIP6 (ip6_flags d) (ip6_prefixLength d) mlen
                      (ip6_reserved d) (prefix6 d) (ip6_asNumber d)) ;;;
  if 128 <? mlen then est_exit PDU_INVALID_VALUE else
  let ret := if mlen <? plen then PDU_WARNING else ret in
  let* res := extract_field buffer 1 in
  upd_ip6 (fun d => mkIP6 (ip6_flags d) (ip6_prefixLength d) (ip6_maxLength d)
                      res (prefix6 d) (ip6_asNumber d)) ;;;
  let ret := if negb (res =? 0) then PDU_WARNING else ret in
  let* addr := extract_bin_field buffer 16 in
  upd_ip6 (fun d => mkIP6 (ip6_flags d) (ip6_prefixLength d) (ip6_maxLength d)
                      (ip6_reserved d) addr (ip6_asNumber d)) ;;;
  let* asn := extract_field buffer 4 in
  upd_ip6 (fun d => mkIP6 (ip6_flags d) (ip6_prefixLength d) (ip6_maxLength d)
                      (ip6_reserved d) (prefix6 d) asn) ;;;
  est_ret ret.

(** The [buflen < offset + n] test, then a pointer into the buffer. *)
Definition extract_ptr (buffer : list Z) (n : Z) : parser (list Z) :=
  fun s =>
    if Z.of_nat (length buffer) <? Z.of_nat (ps_offset s) + n
    then (s, inl PDU_TRUNCATED)
    else (mkPS (ps_offset s + Z.to_nat n) (ps_pdu s),
          inr (slice (ps_offset s) (Z.to_nat n) buffer)).

(** [case PDU_ERROR_REPORT]. The sums are [size_t] values below 2^34, so they
    are exact. *)
Definition parse_error_body (buffer : list Z) (ret : Z) (len : Z) : parser Z :=
  if len <? PDU_HEADER_LENGTH + PDU_ERROR_HEADERS_LENGTH
  then est_exit PDU_CORRUPT_DATA else
  let* elen := extract_field buffer 4 in
  upd_err (fun d => mkErr elen (encapsulatedPDU d) (errorTextLength d) (errorText d)) ;;;
  if len <? PDU_HEADER_LENGTH + PDU_ERROR_HEADERS_LENGTH + elen
  then est_exit PDU_CORRUPT_DATA else
  let* eptr := extract_ptr buffer elen in
  upd_err (fun d => mkErr (encapsulatedPDULength d) (Some eptr)
                      (errorTextLength d) (errorText d)) ;;;
  let* tlen := extract_field buffer 4 in
  upd_err (fun d => mkErr (encapsulatedPDULength d) (encapsulatedPDU d) tlen (errorText d)) ;;;
  if negb (len =? PDU_HEADER_LENGTH + PDU_ERROR_HEADERS_LENGTH + elen + tlen)
  then est_exit PDU_CORRUPT_DATA else
  let* tptr := extract_ptr buffer tlen in
  upd_err (fun d => mkErr (encapsulatedPDULength d) (encapsulatedPDU d)
                      (errorTextLength d) (Some tptr)) ;;;
  est_ret ret.

(** [EXTRACT_FIELD(pdu->length)] and the second switch. *)
Definition parse_body (buffer : list Z) (ret : Z) : parser Z :=
  let* len := extract_field buffer 4 in
  upd_pdu (set_length len) ;;;
  let* t := est_gets (fun s => pduType (ps_pdu s)) in
  if zin t [PDU_SERIAL_NOTIFY; PDU_SERIAL_QUERY; PDU_END_OF_DATA] then
    if negb (len =? PDU_HEADER_LENGTH + sizeof_serial)
    then est_exit PDU_CORRUPT_DATA
    else
      let* n := extract_field buffer 4 in
      upd_pdu (set_body (BSerial n)) ;;;
      est_ret ret
  else if zin t [PDU_RESET_QUERY; PDU_CACHE_RESPONSE; PDU_CACHE_RESET] then
    if negb (len =? PDU_HEADER_LENGTH)
    then est_exit PDU_CORRUPT_DATA
    else est_ret ret
  else if t =? PDU_IPV4_PREFIX then
    if negb (len =? PDU_HEADER_LENGTH + sizeof_IP4PrefixData)
    then est_exit PDU_CORRUPT_DATA
    else parse_ip4_body buffer ret
  else if t =? PDU_IPV6_PREFIX then
    if negb (len =? PDU_HEADER_LENGTH + sizeof_IP6PrefixData)
    then est_exit PDU_CORRUPT_DATA
    else parse_ip6_body buffer ret
  else if t =? PDU_ERROR_REPORT then parse_error_body buffer ret len
  else est_exit PDU_INTERNAL_ERROR.

(** [int parse_pdu(buffer, buflen, pdu)]: the return value and the structure
    as it is left, which on an early return holds the fields parsed so far.
    [None] is a NULL pointer. *)
Definition parse_pdu (buffer : option (list Z)) (pdu : option PDU)
    : Z * option PDU :=
  match buffer, pdu with
  | Some buf, Some p0 =>
      match (let* ret := parse_type_fields buf in parse_body buf ret)
              (mkPS 0 p0) with
      | (s, inl ret) => (ret, Some (ps_pdu s))
      | (s, inr ret) => (ret, Some (ps_pdu s))
      end
  | _, _ => (PDU_INTERNAL_ERROR, pdu)
  end.

(** ** Dumping *)

(** Byte order of the host. [htonl] stored through a [uint32_t *] leaves the
    network order in memory on either host. *)
Inductive endian := LittleEndian | BigEndian.

Definition host_u32 (e : endian) (n : Z) : list Z :=
  match e with LittleEndian => rev (be_bytes 4 n) | BigEndian => be_bytes 4 n end.

(** The effect of [htonl] on the four bytes of a [uint32_t] in memory. *)
Definition htonl_bytes (e : endian) (bs : list Z) : list Z :=
  match e with LittleEndian => rev bs | BigEndian => bs end.

(** Memory image of the union, as [(void * )pdu + PDU_HEADER_LENGTH] sees it.
    Bytes outside the active member are indeterminate, so the image stops at
    its end; an [ErrorData] holds pointers and has no image. *)
Definition body_mem (e : endian) (b : pdu_body) : list Z :=
  match b with
  | BNone | BError _ => []
  | BSerial n => host_u32 e n
  | BIP4 d => [ip4_flags d; ip4_prefixLength d; ip4_maxLength d; ip4_reserved d]
              ++ prefix4 d ++ host_u32 e (ip4_asNumber d)
  | BIP6 d => [ip6_flags d; ip6_prefixLength d; ip6_maxLength d; ip6_reserved d]
              ++ prefix6 d ++ host_u32 e (ip6_asNumber d)
  end.

(** How [dump_pdu] is left early: a [return], or an access outside an object
    (undefined behaviour). *)
Inductive dump_exit := DReturn (ret : Z) | DUndefined.

Record dump_state := mkDS { ds_offset : Z; ds_buf : list Z }.
Definition dumper (A : Type) : Type := ESt dump_state dump_exit A.

(** [INCR_OFFSET]: the sum is a [size_t]. *)
Definition incr_offset (buflen num_bytes : Z) : dumper unit :=
  fun s =>
    let o := size_t (ds_offset s + num_bytes) in
    if buflen <? o then (s, inl (DReturn (-1)))
    else (mkDS o (ds_buf s), inr tt).

(** Store [bs] at [buffer + off]. *)
Definition write_at (off : Z) (bs : list Z) : dumper unit :=
  fun s =>
    if (0 <=? off) && (off + Z.of_nat (length bs) <=? Z.of_nat (length (ds_buf s)))
    then (mkDS (ds_offset s) (blit (Z.to_nat off) bs (ds_buf s)), inr tt)
    else (s, inl DUndefined).

(** [n] bytes from a pointer; copying none is a no-op whatever the pointer. *)
Definition read_ptr (p : data_ptr) (n : Z) : dumper (list Z) :=
  if n =? 0 then est_ret []
  else match p with
       | Some bs => if n <=? Z.of_nat (length bs)
                    then est_ret (take (Z.to_nat n) bs) else est_exit DUndefined
       | None => est_exit DUndefined
       end.

(** [n] bytes of the union. *)
Definition read_body (e : endian) (b : pdu_body) (n : Z) : dumper (list Z) :=
  if n <=? Z.of_nat (length (body_mem e b))
  then est_ret (take (Z.to_nat n) (body_mem e b)) else est_exit DUndefined.

(** [*(uint32_t * )(buffer + off) = htonl( *(uint32_t * )(buffer + off))]. *)
Definition htonl_at (e : endian) (off : Z) : dumper unit :=
  let* bs := est_gets (fun s => slice (Z.to_nat off) 4 (ds_buf s)) in
  write_at off (htonl_bytes e bs).

Definition dump_header (buflen : Z) (pdu : PDU) : dumper unit :=
  incr_offset buflen 2 ;;;
  write_at 0 [protocolVersion pdu; pduType pdu] ;;;
  incr_offset buflen 2 ;;;
  let* o := est_gets ds_offset in
  write_at (o - 2) (be_bytes 2 (sessionId pdu)) ;;;
  incr_offset buflen 4 ;;;
  let* o := est_gets ds_offset in
  write_at (o - 4) (be_bytes 4 (length_ pdu)).

Definition dump_error_body (buflen : Z) (d : ErrorData) : dumper unit :=
  incr_offset buflen 4 ;;;
  let* o := est_gets ds_offset in
  write_at (o - 4) (be_bytes 4 (encapsulatedPDULength d)) ;;;
  incr_offset buflen (encapsulatedPDULength d) ;;;
  let* o := est_gets ds_offset in
  let* bs := read_ptr (encapsulatedPDU d) (encapsulatedPDULength d) in
  write_at (o - encapsulatedPDULength d) bs ;;;
  incr_offset buflen 4 ;;;
  let* o := est_gets ds_offset in
  write_at (o - 4) (be_bytes 4 (errorTextLength d)) ;;;
  incr_offset buflen (errorTextLength d) ;;;
  let* o := est_gets ds_offset in
  if 0 <? errorTextLength d then
    let* bs := read_ptr (errorText d) (errorTextLength d) in
    write_at (o - errorTextLength d) bs
  else est_ret tt.

Definition dump_plain_body (e : endian) (buflen : Z) (pdu : PDU) : dumper unit :=
  let n := size_t (length_ pdu - PDU_HEADER_LENGTH) in
  incr_offset buflen n ;;;
  let* bs := read_body e (body pdu) n in
  write_at PDU_HEADER_LENGTH bs ;;;
  if zin (pduType pdu) [PDU_IPV4_PREFIX; PDU_IPV6_PREFIX] then
    let* o := est_gets ds_offset in htonl_at e (o - 4)
  else if zin (pduType pdu) [PDU_SERIAL_NOTIFY; PDU_SERIAL_QUERY; PDU_END_OF_DATA] then
    htonl_at e PDU_HEADER_LENGTH
  else est_ret tt.

Definition dump_rest (e : endian) (buflen : Z) (p : PDU) : dumper unit :=
  if pduType p =? PDU_ERROR_REPORT
  then dump_error_body buflen (errorData p)
  else dump_plain_body e buflen p.

(** [ssize_t dump_pdu(buffer, buflen, pdu)]: the return value with the buffer
    as it is left, or undefined behaviour. *)
Inductive dump_result :=
| DumpRet (ret : Z) (buffer : option (list Z))
| DumpUndefined.

Definition dump_pdu (e : endian) (buffer : option (list Z)) (buflen : Z)
    (pdu : option PDU) : dump_result :=
  match buffer, pdu with
  | None, _ => DumpRet (-1) None
  | Some buf, None => DumpRet 0 (Some buf)
  | Some buf, Some p =>
      match (dump_header buflen p ;;; dump_rest e buflen p) (mkDS 0 buf) with
      | (s, inr _) => DumpRet (ds_offset s) (Some (ds_buf s))
      | (s, inl (DReturn r)) => DumpRet r (Some (ds_buf s))
      | (_, inl DUndefined) => DumpUndefined
      end
  end.

(** ** Constructors *)

Definition fill_pdu_common (pdu : PDU) (type length : Z) : PDU :=
  set_length (u32 length) (set_pduType type
    (set_protocolVersion RTR_PROTOCOL_VERSION pdu)).

Definition fill_pdu_with_serial_number (pdu : PDU) (type session_or_zero serial : Z) : PDU :=
  set_body (BSerial serial) (set_sessionId session_or_zero
    (fill_pdu_common pdu type (PDU_HEADER_LENGTH + sizeof_serial))).

Definition fill_pdu_header_only (pdu : PDU) (type session_or_zero : Z) : PDU :=
  set_sessionId session_or_zero (fill_pdu_common pdu type PDU_HEADER_LENGTH).

Definition fill_pdu_serial_notify (pdu : PDU) (session serial : Z) : PDU :=
  fill_pdu_with_serial_number pdu PDU_SERIAL_NOTIFY session serial.

Definition fill_pdu_serial_query (pdu : PDU) (session serial : Z) : PDU :=
  fill_pdu_with_serial_number pdu PDU_SERIAL_QUERY session serial.

Definition fill_pdu_reset_query (pdu : PDU) : PDU :=
  fill_pdu_header_only pdu PDU_RESET_QUERY 0.

Definition fill_pdu_cache_response (pdu : PDU) (session : Z) : PDU :=
  fill_pdu_header_only pdu PDU_CACHE_RESPONSE session.

Definition fill_pdu_ipv4_prefix (pdu : PDU) (flags prefix_length max_length : Z)
    (prefix : list Z) (asn : Z) : PDU :=
  set_body (BIP4 (mkIP4 flags prefix_length max_length 0 prefix asn))
    (set_sessionId 0 (fill_pdu_common pdu PDU_IPV4_PREFIX
       (PDU_HEADER_LENGTH + sizeof_IP4PrefixData))).

Definition fill_pdu_ipv6_prefix (pdu : PDU) (flags prefix_length max_length : Z)
    (prefix : list Z) (asn : Z) : PDU :=
  set_body (BIP6 (mkIP6 flags prefix_length max_length 0 prefix asn))
    (set_sessionId 0 (fill_pdu_common pdu PDU_IPV6_PREFIX
       (PDU_HEADER_LENGTH + sizeof_IP6PrefixData))).

Definition fill_pdu_end_of_data (pdu : PDU) (session serial : Z) : PDU :=
  fill_pdu_with_serial_number pdu PDU_END_OF_DATA session serial.

Definition fill_pdu_cache_reset (pdu : PDU) : PDU :=
  fill_pdu_header_only pdu PDU_CACHE_RESET 0.

Definition fill_pdu_error_report (pdu : PDU) (code encapsulated_pdu_length : Z)
    (encapsulated_pdu : data_ptr) (error_text_length : Z) (error_text : data_ptr) : PDU :=
  set_body (BError (mkErr encapsulated_pdu_length encapsulated_pdu
                      error_text_length error_text))
    (set_sessionId code (fill_pdu_common pdu PDU_ERROR_REPORT
       (PDU_HEADER_LENGTH + PDU_ERROR_HEADERS_LENGTH
        + encapsulated_pdu_length + error_text_length))).

(** ** Deep copy

    [mallocs] tells for each [malloc] in program order whether it succeeds;
    [None] is the NULL result. Copying more bytes than the source object has
    is undefined: [Undef]. *)
Inductive copy_result := Copied (p : PDU) | NoMemory | CopyUndef.

Definition copy_data (p : data_ptr) (n : Z) (k : data_ptr -> copy_result)
    (malloc_ok : bool) : copy_result :=
  match p with
  | None => k None
  | Some bs =>
      if malloc_ok then
        if n <=? Z.of_nat (length bs) then k (Some (take (Z.to_nat n) bs))
        else CopyUndef
      else NoMemory
  end.

Definition pdu_deepcopy (malloc_pdu malloc_enc malloc_text : bool) (pdu : PDU)
    : copy_result :=
  if negb malloc_pdu then NoMemory
  else if pduType pdu =? PDU_ERROR_REPORT then
    let d := errorData pdu in
    copy_data (encapsulatedPDU d) (encapsulatedPDULength d)
      (fun enc =>
         copy_data (errorText d) (errorTextLength d)
           (fun text =>
              Copied (set_body (BError (mkErr (encapsulatedPDULength d) enc
                                          (errorTextLength d) text)) pdu))
           malloc_text)
      malloc_enc
  else Copied pdu.

(** ** Specification: well-formed PDUs and their wire format *)

Definition header_only_type (t : Z) : bool :=
  zin t [PDU_RESET_QUERY; PDU_CACHE_RESPONSE; PDU_CACHE_RESET].
Definition serial_type (t : Z) : bool :=
  zin t [PDU_SERIAL_NOTIFY; PDU_SERIAL_QUERY; PDU_END_OF_DATA].

(** What a pointer/length pair holds. *)
Definition ptr_ok (n : Z) (p : data_ptr) : Prop :=
  uint_ok 32 n /\
  match p with
  | None => n = 0
  | Some bs => Z.of_nat (length bs) = n /\ bytes_ok bs
  end.

Definition ptr_bytes (p : data_ptr) : list Z := default [] p.

(** The body an admissible PDU of type [t] has, with its length in bytes. *)
Definition body_ok (t : Z) (b : pdu_body) (n : Z) : Prop :=
  if header_only_type t then n = 0
  else match b with
  | BSerial s => serial_type t = true /\ uint_ok 32 s /\ n = 4
  | BIP4 d => t = PDU_IPV4_PREFIX /\ n = 12 /\
      byte_ok (ip4_flags d) /\ 0 <= ip4_prefixLength d <= 32 /\
      0 <= ip4_maxLength d <= 32 /\ byte_ok (ip4_reserved d) /\
      length (prefix4 d) = 4%nat /\ bytes_ok (prefix4 d) /\
      uint_ok 32 (ip4_asNumber d)
  | BIP6 d => t = PDU_IPV6_PREFIX /\ n = 24 /\
      byte_ok (ip6_flags d) /\ 0 <= ip6_prefixLength d <= 128 /\
      0 <= ip6_maxLength d <= 128 /\ byte_ok (ip6_reserved d) /\
      length (prefix6 d) = 16%nat /\ bytes_ok (prefix6 d) /\
      uint_ok 32 (ip6_asNumber d)
  | BError d => t = PDU_ERROR_REPORT /\
      ptr_ok (encapsulatedPDULength d) (encapsulatedPDU d) /\
      ptr_ok (errorTextLength d) (errorText d) /\
      n = 8 + encapsulatedPDULength d + errorTextLength d
  | BNone => False
  end.

Definition pdu_types : list Z :=
  [PDU_SERIAL_NOTIFY; PDU_SERIAL_QUERY; PDU_RESET_QUERY; PDU_CACHE_RESPONSE;
   PDU_IPV4_PREFIX; PDU_IPV6_PREFIX; PDU_END_OF_DATA; PDU_CACHE_RESET;
   PDU_ERROR_REPORT].

Definition wf_pdu (p : PDU) : Prop :=
  protocolVersion p = RTR_PROTOCOL_VERSION /\
  uint_ok 16 (sessionId p) /\
  uint_ok 32 (length_ p) /\
  pduType p ∈ pdu_types /\
  body_ok (pduType p) (body p) (length_ p - PDU_HEADER_LENGTH).

(** The wire format of RFC 6810, every multi-byte field in network order. *)
Definition body_bytes (t : Z) (b : pdu_body) : list Z :=
  if header_only_type t then []
  else match b with
  | BNone => []
  | BSerial s => be_bytes 4 s
  | BIP4 d => [ip4_flags d] ++ [ip4_prefixLength d] ++ [ip4_maxLength d]
              ++ [ip4_reserved d] ++ prefix4 d ++ be_bytes 4 (ip4_asNumber d)
  | BIP6 d => [ip6_flags d] ++ [ip6_prefixLength d] ++ [ip6_maxLength d]
              ++ [ip6_reserved d] ++ prefix6 d ++ be_bytes 4 (ip6_asNumber d)
  | BError d => be_bytes 4 (encapsulatedPDULength d) ++ ptr_bytes (encapsulatedPDU d)
                ++ be_bytes 4 (errorTextLength d) ++ ptr_bytes (errorText d)
  end.

Definition pdu_bytes (p : PDU) : list Z :=
  [protocolVersion p] ++ [pduType p] ++ be_bytes 2 (sessionId p)
  ++ be_bytes 4 (length_ p) ++ body_bytes (pduType p) (body p).

(** Which admissible PDUs carry something a receiver must warn about. *)
Definition header_warns (t x : Z) : bool :=
  if zin t [PDU_RESET_QUERY; PDU_IPV4_PREFIX; PDU_IPV6_PREFIX; PDU_CACHE_RESET]
  then negb (x =? 0)
  else if t =? PDU_ERROR_REPORT
  then negb (zin x [ERR_CORRUPT_DATA; ERR_INTERNAL_ERROR; ERR_NO_DATA;
                    ERR_INVALID_REQUEST; ERR_UNSUPPORTED_VERSION;
                    ERR_UNSUPPORTED_TYPE; ERR_UNKNOWN_WITHDRAW;
                    ERR_DUPLICATE_ANNOUNCE])
  else false.

Definition body_warns (t : Z) (b : pdu_body) : bool :=
  if header_only_type t then false
  else match b with
  | BIP4 d => negb (Z.land (ip4_flags d) FLAGS_RESERVED =? 0)
              || (ip4_maxLength d <? ip4_prefixLength d)
              || negb (ip4_reserved d =? 0)
  | BIP6 d => negb (Z.land (ip6_flags d) FLAGS_RESERVED =? 0)
              || (ip6_maxLength d <? ip6_prefixLength d)
              || negb (ip6_reserved d =? 0)
  | _ => false
  end.

Definition pdu_status (p : PDU) : Z :=
  if header_warns (pduType p) (sessionId p) || body_warns (pduType p) (body p)
  then PDU_WARNING else PDU_GOOD.

(** Two PDUs are the same message: they agree on the header and on the union,
    where NULL and a pointer to no bytes are the same, and a PDU of header
    only has no union to compare. *)
Definition norm_ptr (p : data_ptr) : data_ptr := Some (ptr_bytes p).
Definition norm_body (t : Z) (b : pdu_body) : pdu_body :=
  if header_only_type t then BNone
  else match b with
  | BError d => BError (mkErr (encapsulatedPDULength d) (norm_ptr (encapsulatedPDU d))
                          (errorTextLength d) (norm_ptr (errorText d)))
  | b => b
  end.
Definition norm_pdu (p : PDU) : PDU := set_body (norm_body (pduType p) (body p)) p.
Definition pdu_eqv (p q : PDU) : Prop := norm_pdu p = norm_pdu q.

(** Sample PDUs: an IPv4 announcement and an error report. *)
Definition sample_ip4 : PDU :=
  mkPDU 0 PDU_IPV4_PREFIX 0 20 (BIP4 (mkIP4 1 24 24 0 [192;0;2;0] 64496)).
Definition sample_error : PDU :=
  mkPDU 0 PDU_ERROR_REPORT ERR_INVALID_REQUEST 21
    (BError (mkErr 3 (Some [1;2;3]) 2 (Some [104;105]))).

Definition blank_pdu : PDU := mkPDU 0 0 0 0 BNone.

(** ** Serial number arithmetic is RFC 1982's *)

Lemma serial_greater_iff s1 s2 :
  uint_ok 32 s1 -> uint_ok 32 s2 ->
  serial_number_greater s1 s2 = true <-> 0 < (s1 - s2) mod 2 ^ 32 < 2 ^ 31.
Proof.
  unfold uint_ok, serial_number_greater, u32, wrap.
  change (2 ^ 32) with 4294967296. change (2 ^ 31) with 2147483648.
  intros H1 H2. destruct (Z.eqb_spec s1 s2) as [->|Hne].
  - rewrite Z.sub_diag. rewrite Z.mod_0_l by lia. split; [done|]. intros [Hbad _]. inversion Hbad.
  - rewrite orb_true_iff, !andb_true_iff, !Z.ltb_lt. Z.to_euclidean_division_equations. lia.
Qed.

(** [Serial_number_greater] is the order of RFC 1982 on 32-bit serial
    numbers: [s1] is greater when it is ahead of [s2] by less than half of the
    number space, counting modulo 2^32. *)
Lemma serial_number_greater_spec s1 s2 :
  uint_ok 32 s1 -> uint_ok 32 s2 ->
  serial_number_greater s1 s2 = true <-> 0 < (s1 - s2) mod 2 ^ 32 < 2 ^ 31.
Proof. apply serial_greater_iff. Qed.

Lemma serial_number_greater_spec_witness :
  serial_number_greater 0 (2 ^ 32 - 1) = true <-> 0 < (0 - (2 ^ 32 - 1)) mod 2 ^ 32 < 2 ^ 31.
Proof. apply serial_number_greater_spec; split; reflexivity || lia. Defined.

(** Adding between 1 and 2^31 - 1 to a serial number, with wrap-around,
    gives a greater one, and the comparison is asymmetric. *)
Lemma serial_number_add_greater s n :
  uint_ok 32 s -> 0 < n < 2 ^ 31 ->
  serial_number_greater (u32 (s + n)) s = true
  /\ serial_number_greater s (u32 (s + n)) = false.
Proof.
  intros Hs Hn. assert (Hu : uint_ok 32 (u32 (s + n))) by (apply wrap_ok; lia).
  split; [apply serial_greater_iff; [done..|]|].
  - unfold u32, wrap. rewrite Zminus_mod_idemp_l. replace (s + n - s) with n by lia.
    rewrite Z.mod_small; lia.
  - apply not_true_iff_false. rewrite serial_greater_iff by done. unfold u32, wrap.
    rewrite Zminus_mod_idemp_r. replace (s - (s + n)) with (- n) by lia.
    rewrite Z_mod_nz_opp_full; rewrite Z.mod_small by lia; lia.
Qed.

Lemma serial_number_add_greater_witness :
  serial_number_greater (u32 (4294967295 + 1)) 4294967295 = true
  /\ serial_number_greater 4294967295 (u32 (4294967295 + 1)) = false.
Proof. apply serial_number_add_greater; [split|]; lia. Defined.
