(* ===== verification/PduParse.v ===== *)
(** * Correctness of [parse_pdu] ([src/lib/rpki-rtr/pdu.c])

    The parser accepts exactly the encodings of well-formed PDUs (soundness
    and completeness against [pdu_bytes]), reports "truncated" exactly while
    bytes are missing, and its other verdicts do not depend on what follows
    in the buffer. *)

From S2P Require Import Prelude Pdu.
Local Open Scope est_scope.

(** What a body parser may do from offset [off], with [n] bytes to read. *)
Definition body_outcome (buf : list Z) (t : Z) (off : nat) (n : Z) (ret : Z) (p : PDU)
    (r : parse_state * (Z + Z)) : Prop :=
  (exists b, r = (mkPS (off + Z.to_nat n) (set_body b p),
                  inr (if body_warns t b then PDU_WARNING else ret))
     /\ drop off buf = body_bytes t b ++ drop (off + Z.to_nat n) buf
     /\ body_ok t b n)
  \/ (exists o b, r = (mkPS o (set_body b p), inl PDU_TRUNCATED)
     /\ Z.of_nat (length buf) < Z.of_nat off + n)
  \/ (exists o b c, r = (mkPS o (set_body b p), inl c) /\ PDU_IS_ERROR c = true).

(** What [parse_pdu] can report about a buffer. *)
Definition parse_outcome (buf : list Z) (c : Z) (q : PDU) : Prop :=
  (wf_pdu q /\ c = pdu_status q
   /\ buf = pdu_bytes q ++ drop (Z.to_nat (length_ q)) buf)
  \/ (c = PDU_TRUNCATED /\ ((length buf < 8)%nat
      \/ (length_ q = be_val (slice 4 4 buf) /\ Z.of_nat (length buf) < length_ q)))
  \/ PDU_IS_ERROR c = true.

(** A parser whose verdict, unless it is "truncated", does not change when
    more input arrives. *)
Definition mono {A} (m : list Z -> parser A) : Prop :=
  forall buf rest s s' r,
    m buf s = (s', r) -> r <> inl PDU_TRUNCATED -> m (buf ++ rest) s = (s', r).

Lemma lor_shift_byte a b k :
  byte_ok b -> 0 <= k ->
  Z.lor (Z.shiftl a (k + 8)) (Z.shiftl b k) = Z.shiftl (a * 256 + b) k.
Proof.
  intros Hb Hk. rewrite (Z.add_comm k 8), <- Z.shiftl_shiftl, <- Z.shiftl_lor by lia.
  f_equal. assert (Hl : Z.land (Z.shiftl a 8) b = 0).
  { apply Z.bits_inj'. intros i Hi. rewrite Z.land_spec, Z.bits_0.
    destruct (decide (i < 8)).
    - rewrite Z.shiftl_spec_low by lia. done.
    - rewrite <- (Z.mod_small b (2 ^ 8)) by exact Hb.
      rewrite Z.mod_pow2_bits_high by lia. apply andb_false_r. }
  rewrite <- Z.lxor_lor, <- Z.add_nocarry_lxor, Z.shiftl_mul_pow2 by (done || lia).
  reflexivity.
Qed.

Lemma extract_uint_loop_spec rest : forall a,
  bytes_ok rest ->
  extract_uint_loop rest (Z.shiftl a (8 * Z.of_nat (length rest)))
  = foldl (fun acc b => acc * 256 + b) a rest.
Proof.
  induction rest as [|b rest IH]; intros a Hok; cbn [extract_uint_loop length foldl].
  - rewrite Z.shiftl_0_r. done.
  - inversion Hok as [|? ? Hb Hrest]; subst.
    rewrite <- IH by done. f_equal.
    rewrite Nat2Z.inj_succ.
    replace (8 * Z.succ (Z.of_nat (length rest))) with
      (8 * Z.of_nat (length rest) + 8) by lia.
    apply lor_shift_byte; [done|lia].
Qed.

Lemma extract_uint_be_val l : bytes_ok l -> extract_uint l = be_val l.
Proof.
  intros H. unfold extract_uint, be_val. rewrite <- extract_uint_loop_spec by done.
  by rewrite Z.shiftl_0_l.
Qed.

Lemma extract_field_cases buf n off p {A} (k : Z -> parser A) :
  bytes_ok buf ->
  (exists x, drop off buf = be_bytes n x ++ drop (off + n) buf
      /\ 0 <= x < 256 ^ Z.of_nat n /\ (off + n <= length buf)%nat
      /\ x = be_val (slice off n buf)
      /\ (let* x := extract_field buf n in k x) (mkPS off p) = k x (mkPS (off + n) p))
  \/ ((length buf < off + n)%nat
      /\ (let* x := extract_field buf n in k x) (mkPS off p)
         = (mkPS off p, inl PDU_TRUNCATED)).
Proof.
  intros Hok. unfold extract_field, extract_bin_field, est_bind, est_ret.
  cbn [ps_offset ps_pdu]. destruct (Nat.leb_spec (off + n) (length buf)) as [Hle|Hgt].
  - left. assert (Hs : bytes_ok (slice off n buf)) by (unfold slice; auto with rpstir).
    exists (be_val (slice off n buf)). split_and!.
    + pose proof (be_bytes_be_val _ Hs) as E. rewrite length_slice in E by done.
      rewrite E. unfold slice. rewrite <- drop_drop, take_drop. done.
    + by apply be_val_bound.
    + pose proof (be_val_bound _ Hs) as B. rewrite length_slice in B by done. lia.
    + lia.
    + done.
    + by rewrite extract_uint_be_val.
  - right. split; [lia|done].
Qed.

Lemma drop_app_bound {A} off (buf bs rest : list A) :
  drop off buf = bs ++ rest -> (0 < length bs)%nat -> (off + length bs <= length buf)%nat.
Proof.
  intros H Hb. apply (f_equal length) in H. rewrite length_drop, length_app in H. lia.
Qed.

Lemma drop_app_next {A} off (buf bs rest : list A) :
  drop off buf = bs ++ rest -> drop (off + length bs) buf = rest.
Proof. intros H. rewrite <- drop_drop, H. apply drop_app_length. Qed.

Lemma run_bin buf bs off p rest n {A} (k : list Z -> parser A) :
  drop off buf = bs ++ rest -> n = length bs -> (0 < n)%nat ->
  (let* x := extract_bin_field buf n in k x) (mkPS off p) = k bs (mkPS (off + n) p)
  /\ drop (off + n) buf = rest.
Proof.
  intros H -> Hn. split; [|by apply drop_app_next].
  unfold extract_bin_field, est_bind. cbn [ps_offset ps_pdu].
  rewrite (proj2 (Nat.leb_le _ _) (drop_app_bound _ _ _ _ H Hn)).
  unfold slice. rewrite H, take_app_length. done.
Qed.

Lemma run_field buf n x off p rest {A} (k : Z -> parser A) :
  drop off buf = be_bytes n x ++ rest -> 0 <= x < 256 ^ Z.of_nat n -> (0 < n)%nat ->
  (let* x := extract_field buf n in k x) (mkPS off p) = k x (mkPS (off + n) p)
  /\ drop (off + n) buf = rest.
Proof.
  intros H Hx Hn.
  destruct (run_bin buf (be_bytes n x) off p rest n (fun bs => k (extract_uint bs)))
    as [E1 E2]; [done|by rewrite length_be_bytes|done|].
  split; [|done]. rewrite <- (be_val_be_bytes n x Hx), <- extract_uint_be_val,
    <- E1 by apply be_bytes_ok.
  unfold extract_field, est_bind, est_ret.
  by destruct (extract_bin_field buf n _) as [? [|]].
Qed.

Lemma run_byte buf x off p rest {A} (k : Z -> parser A) :
  drop off buf = [x] ++ rest -> byte_ok x ->
  (let* x := extract_field buf 1 in k x) (mkPS off p) = k x (mkPS (off + 1) p)
  /\ drop (off + 1) buf = rest.
Proof.
  intros H Hx. apply run_field; [|exact Hx|lia].
  unfold byte_ok, uint_ok in Hx. cbn [be_bytes app]. by rewrite Z.mod_small.
Qed.

Lemma run_ptr buf bs off p rest n {A} (k : list Z -> parser A) :
  drop off buf = bs ++ rest -> n = Z.of_nat (length bs) -> (off <= length buf)%nat ->
  (let* x := extract_ptr buf n in k x) (mkPS off p)
  = k bs (mkPS (off + Z.to_nat n) p)
  /\ drop (off + Z.to_nat n) buf = rest /\ (off + Z.to_nat n <= length buf)%nat.
Proof.
  intros H -> Hoff. rewrite Nat2Z.id. 
  assert (off + length bs <= length buf)%nat.
  { apply (f_equal length) in H. rewrite length_drop, length_app in H. lia. }
  split_and!; [|by apply drop_app_next|done].
  unfold extract_ptr, est_bind. cbn [ps_offset ps_pdu].
  destruct (Z.ltb_spec (Z.of_nat (length buf)) (Z.of_nat off + Z.of_nat (length bs))); [lia|].
  rewrite Nat2Z.id. unfold slice. by rewrite H, take_app_length.
Qed.

Lemma run_upd f o p {A} (k : parser A) :
  (upd_pdu f ;;; k) (mkPS o p) = k (mkPS o (f p)).
Proof. done. Qed.

(** One step of a parse whose remaining input is known. *)
Ltac run_extract :=
  lazymatch goal with
  | H : drop ?off ?buf = _ |- context [est_bind ?k (extract_field ?buf 1) (mkPS ?off ?p)] =>
      let E := fresh in let H' := fresh in
      destruct (run_byte buf _ off p _ k H) as [E H'];
      [first [done | unfold byte_ok, uint_ok in *; lia]|]; rewrite E; clear E H; rename H' into H
  | H : drop ?off ?buf = _ |- context [est_bind ?k (extract_field ?buf ?n) (mkPS ?off ?p)] =>
      let E := fresh in let H' := fresh in
      destruct (run_field buf n _ off p _ k H) as [E H'];
      [first [done | unfold uint_ok in *; lia]|lia|]; rewrite E; clear E H; rename H' into H
  | H : drop ?off ?buf = _ |- context [est_bind ?k (extract_bin_field ?buf ?n) (mkPS ?off ?p)] =>
      let E := fresh in let H' := fresh in
      destruct (run_bin buf _ off p _ n k H) as [E H'];
      [by symmetry|lia|]; rewrite E; clear E H; rename H' into H
  end; unfold upd_ip4, upd_ip6, upd_err; rewrite ?run_upd.

Ltac run_if b :=
  match goal with |- context [if ?c then _ else _] =>
    replace c with b by (symmetry; first [apply Z.ltb_ge; lia | apply Z.ltb_lt; lia | done
       | apply negb_false_iff; apply Z.eqb_eq; lia ]) end.


Lemma body_bytes_ip4 d : body_bytes PDU_IPV4_PREFIX (BIP4 d) =
  [ip4_flags d] ++ [ip4_prefixLength d] ++ [ip4_maxLength d]
  ++ [ip4_reserved d] ++ prefix4 d ++ be_bytes 4 (ip4_asNumber d).
Proof. done. Qed.

Lemma body_bytes_ip6 d : body_bytes PDU_IPV6_PREFIX (BIP6 d) =
  [ip6_flags d] ++ [ip6_prefixLength d] ++ [ip6_maxLength d]
  ++ [ip6_reserved d] ++ prefix6 d ++ be_bytes 4 (ip6_asNumber d).
Proof. done. Qed.

Lemma body_bytes_err d : body_bytes PDU_ERROR_REPORT (BError d) =
  be_bytes 4 (encapsulatedPDULength d) ++ ptr_bytes (encapsulatedPDU d)
  ++ be_bytes 4 (errorTextLength d) ++ ptr_bytes (errorText d).
Proof. done. Qed.

Lemma parse_ip4_complete buf d off p rest ret n :
  drop off buf = body_bytes PDU_IPV4_PREFIX (BIP4 d) ++ rest ->
  body_ok PDU_IPV4_PREFIX (BIP4 d) n ->
  parse_ip4_body buf ret (mkPS off p) =
  (mkPS (off + 12) (set_body (BIP4 d) p),
   inr (if body_warns PDU_IPV4_PREFIX (BIP4 d) then PDU_WARNING else ret)).
Proof.
  rewrite body_bytes_ip4, <- !app_assoc.
  intros H (_ & _ & Hf & Hp & Hm & Hr & Hlen & Hpre & Hasn). unfold parse_ip4_body.
  run_extract. run_extract. run_if false. run_extract. run_if false.
  run_extract. run_extract. run_extract.
  unfold est_ret. f_equal; [f_equal|].
  - lia.
  - destruct d, p; done.
  - cbn [body_warns header_only_type zin existsb]. cbn.
    destruct (negb (ip4_reserved d =? 0)), (ip4_maxLength d <? ip4_prefixLength d),
      (negb (Z.land _ _ =? 0)); done.
Qed.

Lemma parse_ip6_complete buf d off p rest ret n :
  drop off buf = body_bytes PDU_IPV6_PREFIX (BIP6 d) ++ rest ->
  body_ok PDU_IPV6_PREFIX (BIP6 d) n ->
  parse_ip6_body buf ret (mkPS off p) =
  (mkPS (off + 24) (set_body (BIP6 d) p),
   inr (if body_warns PDU_IPV6_PREFIX (BIP6 d) then PDU_WARNING else ret)).
Proof.
  rewrite body_bytes_ip6, <- !app_assoc.
  intros H (_ & _ & Hf & Hp & Hm & Hr & Hlen & Hpre & Hasn). unfold parse_ip6_body.
  run_extract. run_extract. run_if false. run_extract. run_if false.
  run_extract. run_extract. run_extract.
  unfold est_ret. f_equal; [f_equal|].
  - lia.
  - destruct d, p; done.
  - cbn.
    destruct (negb (ip6_reserved d =? 0)), (ip6_maxLength d <? ip6_prefixLength d),
      (negb (Z.land _ _ =? 0)); done.
Qed.

Lemma ptr_ok_len n p : ptr_ok n p -> n = Z.of_nat (length (ptr_bytes p)) /\ uint_ok 32 n.
Proof. intros [Hn H]. destruct p; cbn; [destruct H; split; [lia|done]|by subst]. Qed.

Lemma parse_err_complete buf d off p rest ret len :
  drop off buf = body_bytes PDU_ERROR_REPORT (BError d) ++ rest ->
  body_ok PDU_ERROR_REPORT (BError d) (len - PDU_HEADER_LENGTH) ->
  exists off',
  parse_error_body buf ret len (mkPS off p) =
  (mkPS off' (set_body (norm_body PDU_ERROR_REPORT (BError d)) p), inr ret).
Proof.
  rewrite body_bytes_err, <- !app_assoc.
  intros H (_ & [He Heu]%ptr_ok_len & [Ht Htu]%ptr_ok_len & Hlen). unfold parse_error_body.
  unfold PDU_HEADER_LENGTH, PDU_ERROR_HEADERS_LENGTH in *.
  assert (0 <= encapsulatedPDULength d /\ 0 <= errorTextLength d) as [] by
    (unfold uint_ok in *; lia).
  run_if false. assert (Hb := drop_app_bound _ _ _ _ H). rewrite length_be_bytes in Hb.
  run_extract. run_if false.
  match goal with |- context [est_bind ?k (extract_ptr ?buf ?n) (mkPS ?off ?p)] =>
    destruct (run_ptr buf _ off p _ n k H) as (E & H' & Hb'); [done|lia|] end.
  rewrite E, run_upd; clear E H Hb. assert (Hb := drop_app_bound _ _ _ _ H').
  rewrite length_be_bytes in Hb.
  run_extract. run_if false.
  match goal with |- context [est_bind ?k (extract_ptr ?buf ?n) (mkPS ?off ?p)] =>
    destruct (run_ptr buf _ off p _ n k H') as (E & H'' & Hb''); [done|lia|] end.
  rewrite E, run_upd; clear E. eexists. unfold est_ret. do 2 f_equal.
Qed.

Ltac elem_cases H :=
  repeat (apply elem_of_cons in H as [H|H]; [|]);
  [..|by apply not_elem_of_nil in H].

(** Decide the closed tests of the goal by computation. *)
Ltac red_if :=
  repeat match goal with
  | |- context [if ?c then _ else _] =>
      let c' := eval vm_compute in c in
      lazymatch c' with
      | true => change c with true
      | false => change c with false
      end; cbn iota
  end.

Lemma pdu_type_byte t : t ∈ pdu_types -> byte_ok t.
Proof. unfold pdu_types. intros Ht. elem_cases Ht; subst t; split; done. Qed.

Lemma parse_type_fields_complete buf t x rest p0 :
  drop 0 buf = [RTR_PROTOCOL_VERSION] ++ [t] ++ be_bytes 2 x ++ rest ->
  t ∈ pdu_types -> uint_ok 16 x ->
  parse_type_fields buf (mkPS 0 p0)
  = (mkPS 4 (mkPDU RTR_PROTOCOL_VERSION t x (length_ p0) (body p0)),
     inr (if header_warns t x then PDU_WARNING else PDU_GOOD))
  /\ drop 4 buf = rest.
Proof.
  intros H Ht Hx. unfold parse_type_fields. pose proof (pdu_type_byte t Ht).
  run_extract. red_if. run_extract. unfold pdu_types in Ht.
  elem_cases Ht; subst t; unfold header_warns; red_if; run_extract; done.
Qed.

Lemma run_gets {A B} (f : parse_state -> A) (k : A -> parser B) s :
  (let* x := est_gets f in k x) s = k (f s) s.
Proof. done. Qed.

Lemma norm_body_idem t b : norm_body t (norm_body t b) = norm_body t b.
Proof. unfold norm_body. destruct (header_only_type t), b; done. Qed.

Lemma body_ok_serial t b n :
  body_ok t b n -> serial_type t = true ->
  exists s, b = BSerial s /\ uint_ok 32 s /\ n = 4 /\ body_bytes t b = be_bytes 4 s.
Proof.
  unfold serial_type, body_ok. intros Hb Hs%zin_In. elem_cases Hs; subst t;
    destruct b; cbn in Hb; naive_solver.
Qed.

Lemma body_ok_header t b n :
  body_ok t b n -> header_only_type t = true -> n = 0 /\ body_bytes t b = [].
Proof. unfold body_ok, body_bytes. intros H E. by rewrite E in *. Qed.

Lemma body_ok_ip4 b n : body_ok PDU_IPV4_PREFIX b n -> n = 12 /\ exists d, b = BIP4 d.
Proof. destruct b; cbn; naive_solver. Qed.

Lemma body_ok_ip6 b n : body_ok PDU_IPV6_PREFIX b n -> n = 24 /\ exists d, b = BIP6 d.
Proof. destruct b; cbn; naive_solver. Qed.

Lemma body_ok_err b n : body_ok PDU_ERROR_REPORT b n -> exists d, b = BError d.
Proof. destruct b; cbn; naive_solver. Qed.

Lemma parse_body_complete buf ret rest p q :
  drop 4 buf = be_bytes 4 (length_ p) ++ body_bytes (pduType p) (body p) ++ rest ->
  wf_pdu p -> pduType q = pduType p -> protocolVersion q = protocolVersion p ->
  sessionId q = sessionId p ->
  exists off' q',
  parse_body buf ret (mkPS 4 q)
  = (mkPS off' q', inr (if body_warns (pduType p) (body p) then PDU_WARNING else ret))
  /\ pdu_eqv q' p.
Proof.
  intros H (Hv & Hx & Hlen & Ht & Hb) Eq Ev Es. unfold parse_body.
  run_extract. rewrite run_gets. cbn [ps_pdu pduType set_length]. rewrite Eq.
  destruct p as [v t x len b], q as [v' t' x' len' b'];
    cbn [protocolVersion pduType sessionId length_ body] in *. subst v' t' x'.
  unfold PDU_HEADER_LENGTH in *. unfold pdu_types in Ht.
  elem_cases Ht; subst t; red_if;
  lazymatch type of Hb with
  | body_ok PDU_IPV4_PREFIX _ _ =>
      destruct (body_ok_ip4 _ _ Hb) as (E & d & ->)
  | body_ok PDU_IPV6_PREFIX _ _ =>
      destruct (body_ok_ip6 _ _ Hb) as (E & d & ->)
  | body_ok PDU_ERROR_REPORT _ _ => destruct (body_ok_err _ _ Hb) as (d & ->)
  | _ => first [ destruct (body_ok_serial _ _ _ Hb eq_refl) as (s & -> & Hs & E & Ebs);
                 rewrite Ebs in H
               | destruct (body_ok_header _ _ _ Hb eq_refl) as (E & _) ]
  end; try (assert (len = 8 + (len - 8)) as -> by lia; rewrite E; red_if).
  1,2,7: run_extract; do 2 eexists; split; done.
  1,2,5: do 2 eexists; split; done.
  1: rewrite (parse_ip4_complete _ _ _ _ _ _ _ H Hb); do 2 eexists; split; done.
  1: rewrite (parse_ip6_complete _ _ _ _ _ _ _ H Hb); do 2 eexists; split; done.
  destruct (parse_err_complete _ _ _ (mkPDU v PDU_ERROR_REPORT x len b') _ ret _ H Hb)
    as [off' E].
  cbn [set_length protocolVersion pduType sessionId length_ body].
  exists off'. eexists. split; [exact E|]. destruct d. done.
Qed.

Lemma parse_pdu_complete p p0 rest :
  wf_pdu p ->
  exists q, parse_pdu (Some (pdu_bytes p ++ rest)) (Some p0) = (pdu_status p, Some q)
            /\ pdu_eqv q p.
Proof.
  intros Hwf. pose proof Hwf as (Hv & Hx & Hlen & Ht & Hb).
  set (buf := pdu_bytes p ++ rest).
  destruct (parse_type_fields_complete buf (pduType p) (sessionId p)
    (be_bytes 4 (length_ p) ++ body_bytes (pduType p) (body p) ++ rest) p0) as [E1 H].
  { unfold buf, pdu_bytes. rewrite Hv, drop_0, <- !app_assoc. done. }
  1,2: done.
  unfold parse_pdu. unfold est_bind at 1. rewrite E1.
  match goal with |- context [parse_body buf ?r (mkPS 4 ?q)] =>
    destruct (parse_body_complete buf r rest p q H Hwf) as (off' & q' & E2 & Hq);
      [done..|] end.
  rewrite E2. exists q'. split; [|done]. unfold pdu_status.
  destruct (header_warns _ _), (body_warns _ _); done.
Qed.

Lemma extract_bin_cases buf n off p {A} (k : list Z -> parser A) :
  bytes_ok buf ->
  (exists bs, drop off buf = bs ++ drop (off + n) buf
      /\ length bs = n /\ bytes_ok bs /\ (off + n <= length buf)%nat
      /\ (let* x := extract_bin_field buf n in k x) (mkPS off p) = k bs (mkPS (off + n) p))
  \/ ((length buf < off + n)%nat
      /\ (let* x := extract_bin_field buf n in k x) (mkPS off p)
         = (mkPS off p, inl PDU_TRUNCATED)).
Proof.
  intros Hok. unfold extract_bin_field, est_bind.
  cbn [ps_offset ps_pdu]. destruct (Nat.leb_spec (off + n) (length buf)) as [Hle|Hgt].
  - left. exists (slice off n buf). split_and!; [|by apply length_slice| | lia|done].
    + unfold slice. by rewrite <- drop_drop, take_drop.
    + unfold slice; auto with rpstir.
  - right. split; [lia|done].
Qed.

Lemma extract_ptr_cases buf n off p {A} (k : list Z -> parser A) :
  bytes_ok buf -> 0 <= n -> (off <= length buf)%nat ->
  (exists bs, drop off buf = bs ++ drop (off + Z.to_nat n) buf
      /\ Z.of_nat (length bs) = n /\ bytes_ok bs /\ (off + Z.to_nat n <= length buf)%nat
      /\ (let* x := extract_ptr buf n in k x) (mkPS off p)
         = k bs (mkPS (off + Z.to_nat n) p))
  \/ (Z.of_nat (length buf) < Z.of_nat off + n
      /\ (let* x := extract_ptr buf n in k x) (mkPS off p)
         = (mkPS off p, inl PDU_TRUNCATED)).
Proof.
  intros Hok Hn Hoff. unfold extract_ptr, est_bind. cbn [ps_offset ps_pdu].
  destruct (Z.ltb_spec (Z.of_nat (length buf)) (Z.of_nat off + n)) as [Hlt|Hge].
  - right. split; [lia|done].
  - left. exists (slice off (Z.to_nat n) buf). split_and!; [| | |lia|done].
    + unfold slice. by rewrite <- drop_drop, take_drop.
    + rewrite length_slice; lia.
    + unfold slice; auto with rpstir.
Qed.

(** Case split on the next extraction of the goal. *)
Ltac case_extract :=
  lazymatch goal with
  | Hok : bytes_ok ?buf |- context [est_bind ?k (extract_field ?buf ?n) (mkPS ?off ?p)] =>
      let x := fresh "x" in let Hd := fresh "Hd" in let Hx := fresh "Hx" in
      let Hle := fresh "Hle" in let Hv := fresh "Hv" in let E := fresh "E" in
      destruct (extract_field_cases buf n off p k Hok) as
        [(x & Hd & Hx & Hle & Hv & E)|(Hle & E)]; rewrite E; clear E
  | Hok : bytes_ok ?buf |- context [est_bind ?k (extract_bin_field ?buf ?n) (mkPS ?off ?p)] =>
      let x := fresh "bs" in let Hd := fresh "Hd" in let Hx := fresh "Hx" in
      let Hle := fresh "Hle" in let Hv := fresh "Hok" in let E := fresh "E" in
      destruct (extract_bin_cases buf n off p k Hok) as
        [(x & Hd & Hx & Hv & Hle & E)|(Hle & E)]; rewrite E; clear E
  | Hok : bytes_ok ?buf |- context [est_bind ?k (extract_ptr ?buf ?n) (mkPS ?off ?p)] =>
      let x := fresh "bs" in let Hd := fresh "Hd" in let Hx := fresh "Hx" in
      let Hle := fresh "Hle" in let Hv := fresh "Hok" in let E := fresh "E" in
      destruct (extract_ptr_cases buf n off p k Hok) as
        [(x & Hd & Hx & Hv & Hle & E)|(Hle & E)]; [lia|lia|rewrite E; clear E..]
  end; unfold upd_ip4, upd_ip6, upd_err; rewrite ?run_upd.


Lemma be_bytes_1 x : byte_ok x -> be_bytes 1 x = [x].
Proof. intros H. cbn. by rewrite Z.mod_small by exact H. Qed.

Ltac body_trunc := right; left; do 2 eexists; split; [reflexivity|lia].
Ltac body_err := right; right; do 3 eexists; split; reflexivity.

Lemma set_body_id p : set_body (body p) p = p.
Proof. by destruct p. Qed.

Lemma parse_ip4_outcome buf ret off p :
  bytes_ok buf ->
  body_outcome buf PDU_IPV4_PREFIX off 12 ret p (parse_ip4_body buf ret (mkPS off p)).
Proof.
  intros Hok. unfold parse_ip4_body, body_outcome.
  case_extract; [|right; left; exists off, (body p); rewrite set_body_id; split; [done|lia]].
  case_extract; [|body_trunc].
  destruct (Z.ltb_spec 32 x0); [body_err|].
  case_extract; [|body_trunc].
  destruct (Z.ltb_spec 32 x1); [body_err|].
  case_extract; [|body_trunc].
  case_extract; [|body_trunc].
  case_extract; [|body_trunc].
  left. exists (BIP4 (mkIP4 x x0 x1 x2 bs x3)). split_and!.
  - unfold est_ret. apply (f_equal2 pair); [apply (f_equal2 mkPS); [lia|done]|]. f_equal. cbn.
    destruct (negb (x2 =? 0)), (x1 <? x0), (negb (Z.land x _ =? 0)); done.
  - rewrite body_bytes_ip4, <- !app_assoc. cbn [ip4_flags ip4_prefixLength ip4_maxLength
      ip4_reserved prefix4 ip4_asNumber].
    rewrite Hd, Hd0, Hd1, Hd2, Hd3, Hd4, !be_bytes_1 by done.
    rewrite <- ?Nat.add_assoc. done.
  - cbn. unfold uint_ok, byte_ok, uint_ok. split_and!; (done || lia).
Qed.

Lemma parse_ip6_outcome buf ret off p :
  bytes_ok buf ->
  body_outcome buf PDU_IPV6_PREFIX off 24 ret p (parse_ip6_body buf ret (mkPS off p)).
Proof.
  intros Hok. unfold parse_ip6_body, body_outcome.
  case_extract; [|right; left; exists off, (body p); rewrite set_body_id; split; [done|lia]].
  case_extract; [|body_trunc].
  destruct (Z.ltb_spec 128 x0); [body_err|].
  case_extract; [|body_trunc].
  destruct (Z.ltb_spec 128 x1); [body_err|].
  case_extract; [|body_trunc].
  case_extract; [|body_trunc].
  case_extract; [|body_trunc].
  left. exists (BIP6 (mkIP6 x x0 x1 x2 bs x3)). split_and!.
  - unfold est_ret. apply (f_equal2 pair); [apply (f_equal2 mkPS); [lia|done]|]. f_equal. cbn.
    destruct (negb (x2 =? 0)), (x1 <? x0), (negb (Z.land x _ =? 0)); done.
  - rewrite body_bytes_ip6, <- !app_assoc. cbn [ip6_flags ip6_prefixLength ip6_maxLength
      ip6_reserved prefix6 ip6_asNumber].
    rewrite Hd, Hd0, Hd1, Hd2, Hd3, Hd4, !be_bytes_1 by done.
    rewrite <- ?Nat.add_assoc. done.
  - cbn. unfold uint_ok, byte_ok, uint_ok. split_and!; (done || lia).
Qed.

Lemma parse_err_outcome buf ret off p len :
  bytes_ok buf -> (off <= length buf)%nat ->
  body_outcome buf PDU_ERROR_REPORT off (len - 8) ret p
    (parse_error_body buf ret len (mkPS off p)).
Proof.
  intros Hok Hoff. unfold parse_error_body, body_outcome.
  unfold PDU_HEADER_LENGTH, PDU_ERROR_HEADERS_LENGTH.
  assert (Hp : mkPS off p = mkPS off (set_body (body p) p)) by (by rewrite set_body_id).
  destruct (Z.ltb_spec len (8 + 8)); [rewrite Hp; body_err|].
  case_extract; [|rewrite Hp; body_trunc].
  destruct (Z.ltb_spec len (8 + 8 + x)); [body_err|].
  case_extract; [|body_trunc].
  case_extract; [|body_trunc].
  destruct (Z.eqb_spec len (8 + 8 + x + x0)); [cbn [negb]|body_err].
  case_extract; [|body_trunc].
  left. exists (BError (mkErr x (Some bs) x0 (Some bs0))). split_and!.
  - unfold est_ret. apply (f_equal2 pair); [apply (f_equal2 mkPS); [lia|done]|done].
  - rewrite body_bytes_err, <- !app_assoc. cbn [encapsulatedPDULength encapsulatedPDU
      errorTextLength errorText ptr_bytes default].
    rewrite Hd, Hd0, Hd1, Hd2. rewrite <- ?Nat.add_assoc. 
    do 5 f_equal. cbn. f_equal. lia.
  - cbn. unfold ptr_ok, uint_ok. split_and!; (done || lia).
Qed.


Lemma parse_type_fields_outcome buf p0 :
  bytes_ok buf ->
  (exists t x, parse_type_fields buf (mkPS 0 p0)
     = (mkPS 4 (mkPDU RTR_PROTOCOL_VERSION t x (length_ p0) (body p0)),
        inr (if header_warns t x then PDU_WARNING else PDU_GOOD))
     /\ t ∈ pdu_types /\ uint_ok 16 x /\ (4 <= length buf)%nat
     /\ buf = [RTR_PROTOCOL_VERSION] ++ [t] ++ be_bytes 2 x ++ drop 4 buf)
  \/ (exists s, parse_type_fields buf (mkPS 0 p0) = (s, inl PDU_TRUNCATED)
      /\ (length buf < 4)%nat)
  \/ (exists s c, parse_type_fields buf (mkPS 0 p0) = (s, inl c) /\ PDU_IS_ERROR c = true).
Proof.
  intros Hok. unfold parse_type_fields.
  case_extract; [|right; left; eexists; split; [done|lia]].
  destruct (Z.eqb_spec x RTR_PROTOCOL_VERSION) as [Ex|]; cbn [negb];
    [|right; right; do 2 eexists; done].
  case_extract; [|right; left; eexists; split; [done|lia]].
  assert (Hbuf : forall y, drop (0 + 1 + 1) buf = be_bytes 2 y ++ drop (0 + 1 + 1 + 2) buf ->
     buf = [RTR_PROTOCOL_VERSION] ++ [x0] ++ be_bytes 2 y ++ drop 4 buf).
  { intros y Hy. rewrite <- (drop_0 buf) at 1. 
    rewrite Hd, Hd0, Hy, !be_bytes_1 by done. by rewrite Ex. }
  destruct (zin x0 [PDU_SERIAL_NOTIFY; _; _; _]) eqn:Et1;
  [|destruct (zin x0 [PDU_RESET_QUERY; _; _; _]) eqn:Et2;
  [|destruct (Z.eqb_spec x0 PDU_ERROR_REPORT) as [Et3|];
  [|right; right; do 2 eexists; done]]].
  all: case_extract; [left|right; left; eexists; split; [done|lia]].
  - apply zin_In in Et1. exists x0, x1. split_and!; [|set_solver|done|lia|by apply Hbuf].
    rewrite Ex. elem_cases Et1; rewrite Et1; done.
  - apply zin_In in Et2. exists x0, x1. split_and!; [|set_solver|done|lia|by apply Hbuf].
    rewrite Ex. elem_cases Et2; rewrite Et2; done.
  - exists x0, x1. split_and!; [|set_solver|done|lia|by apply Hbuf].
    rewrite Ex, Et3. done.
Qed.

Lemma parse_body_outcome buf ret p t :
  bytes_ok buf -> (4 <= length buf)%nat -> pduType p = t -> t ∈ pdu_types ->
  (exists len, uint_ok 32 len /\ drop 4 buf = be_bytes 4 len ++ drop 8 buf
     /\ len = be_val (slice 4 4 buf) /\ (8 <= length buf)%nat
     /\ body_outcome buf t 8 (len - 8) ret (set_length len p)
          (parse_body buf ret (mkPS 4 p)))
  \/ (exists s, parse_body buf ret (mkPS 4 p) = (s, inl PDU_TRUNCATED)
      /\ (length buf < 8)%nat).
Proof.
  intros Hok Hlen Et Ht. unfold parse_body. case_extract; [|right; eexists; split; [done|lia]].
  left. exists x. split_and!; [done|done|done|lia|].
  rewrite run_gets. cbn [ps_pdu pduType set_length]. rewrite Et.
  unfold PDU_HEADER_LENGTH, sizeof_serial, sizeof_IP4PrefixData, sizeof_IP6PrefixData.
  rename p into q. set (p := set_length x q).
  assert (Hp : forall o, mkPS o p = mkPS o (set_body (body p) p)) by (intro; by rewrite set_body_id).
  change (4 + 4)%nat with 8%nat. 
  unfold pdu_types in Ht. elem_cases Ht; subst t; rewrite Ht; red_if;
  lazymatch goal with
  | |- context [parse_error_body] => by apply parse_err_outcome
  | |- context [if negb (x =? ?n) then _ else _] =>
     destruct (Z.eqb_spec x n) as [->|]; cbn [negb];
       [|right; right; exists 8%nat, (body p); eexists; split; [by rewrite set_body_id|done] ]
  end.
  all: try (by apply parse_ip4_outcome); try (by apply parse_ip6_outcome).
  all: lazymatch goal with
  | |- context [BSerial] =>
      case_extract;
      [left; match goal with |- context [BSerial ?n] => exists (BSerial n) end; done
      |right; left; exists 8%nat, (body p); rewrite set_body_id; split; [done|lia]]
  | _ => left; exists (body p); rewrite set_body_id; done
  end.
Qed.

Lemma body_ok_nonneg t b n : body_ok t b n -> 0 <= n.
Proof.
  unfold body_ok, ptr_ok, uint_ok. destruct (header_only_type t); [lia|].
  destruct b; intros; destruct_and?; lia.
Qed.

Lemma parse_pdu_outcome buf p0 :
  bytes_ok buf ->
  exists c q, parse_pdu (Some buf) (Some p0) = (c, Some q) /\ parse_outcome buf c q.
Proof.
  intros Hok. unfold parse_pdu, parse_outcome. unfold est_bind at 1.
  destruct (parse_type_fields_outcome buf p0 Hok) as
    [(t & x & -> & Ht & Hx & Hlen & Hbuf)|[(s & -> & Hlt)|(s & c & -> & Hc)]].
  2: do 2 eexists; split; [done|]; right; left; split; [done|left; lia].
  2: do 2 eexists; split; [done|]; by right; right.
  set (ret := if header_warns t x then _ else _).
  match goal with |- context [parse_body buf ret (mkPS 4 ?p)] =>
    destruct (parse_body_outcome buf ret p t Hok Hlen eq_refl Ht)
      as [(len & Hl & Hd & Hv & H8 & Hout)|(s & -> & Hlt)] end.
  2: do 2 eexists; split; [done|]; right; left; split; [done|left; lia].
  destruct Hout as [(b & -> & Hdb & Hb)|[(o & b & -> & Hlt)|(o & b & c & -> & Hc)]].
  - do 2 eexists; split; [done|]. left. cbn [ps_pdu].
    split_and!; [| |].
    + repeat split; try done; apply Hx || apply Hl.
    + unfold pdu_status. cbn [set_body set_length pduType sessionId body].
      unfold ret. destruct (body_warns t b), (header_warns t x); done.
    + unfold pdu_bytes. cbn [set_body set_length protocolVersion pduType sessionId length_ body].
      rewrite <- !app_assoc. rewrite Hbuf at 1. rewrite Hd, Hdb. 
      pose proof (body_ok_nonneg _ _ _ Hb).
      replace (8 + Z.to_nat (len - 8))%nat with (Z.to_nat len) by lia. done.
  - do 2 eexists; split; [done|]. right; left. split; [done|right].
    cbn [ps_pdu set_body set_length length_]. split; [done|lia].
  - do 2 eexists; split; [done|]. by right; right.
Qed.

Lemma pdu_bytes_length p : wf_pdu p -> Z.of_nat (length (pdu_bytes p)) = length_ p.
Proof.
  intros (Hv & Hx & Hl & Ht & Hb). unfold pdu_bytes.
  rewrite !length_app, !length_be_bytes. cbn [length].
  enough (Z.of_nat (length (body_bytes (pduType p) (body p))) = length_ p - PDU_HEADER_LENGTH)
    by (unfold PDU_HEADER_LENGTH in *; lia).
  revert Hb. generalize (length_ p - PDU_HEADER_LENGTH). intros n.
  unfold body_ok, body_bytes. destruct (header_only_type _); [by intros ->|].
  destruct (body p); try done.
  - intros (_ & _ & ->). by rewrite length_be_bytes.
  - intros (_ & -> & _ & _ & _ & _ & Hlen & _).
    rewrite !length_app, Hlen, length_be_bytes. done.
  - intros (_ & -> & _ & _ & _ & _ & Hlen & _).
    rewrite !length_app, Hlen, length_be_bytes. done.
  - intros (_ & [He _]%ptr_ok_len & [Htx _]%ptr_ok_len & ->).
    rewrite !length_app, !length_be_bytes. lia.
Qed.

Lemma pdu_bytes_ok p : wf_pdu p -> bytes_ok (pdu_bytes p).
Proof.
  intros (Hv & Hx & Hl & Ht & Hb). unfold pdu_bytes. rewrite Hv.
  rewrite !bytes_ok_app. split_and!; try apply be_bytes_ok.
  - repeat constructor; done.
  - apply Forall_singleton; by apply pdu_type_byte.
  - revert Hb. generalize (length_ p - PDU_HEADER_LENGTH). intros n.
    unfold body_ok, body_bytes. destruct (header_only_type _); [by constructor|].
    assert (H1 : forall x, byte_ok x -> bytes_ok [x]) by (intros; by apply Forall_singleton).
    destruct (body p) as [| |d|d|d]; try done; intros; destruct_and?.
    + apply be_bytes_ok.
    + rewrite !bytes_ok_app. split_and!; try apply be_bytes_ok; try apply H1; try done;
        unfold byte_ok, uint_ok; lia.
    + rewrite !bytes_ok_app. split_and!; try apply be_bytes_ok; try apply H1; try done;
        unfold byte_ok, uint_ok; lia.
    + rewrite !bytes_ok_app. unfold ptr_ok, ptr_bytes in *. split_and!; try apply be_bytes_ok.
      * destruct (encapsulatedPDU d); cbn; [tauto|constructor].
      * destruct (errorText d); cbn; [tauto|constructor].
Qed.

Lemma slice_app_l off n buf rest :
  (off + n <= length buf)%nat -> slice off n (buf ++ rest) = slice off n buf.
Proof.
  intros H. unfold slice. rewrite drop_app_le by lia.
  apply take_app_le. rewrite length_drop. lia.
Qed.

Lemma mono_bin n : mono (fun buf => extract_bin_field buf n).
Proof.
  intros buf rest s s' r. unfold extract_bin_field. rewrite length_app.
  destruct (Nat.leb_spec (ps_offset s + n) (length buf)) as [Hle|].
  - intros [= <- <-] _. destruct (Nat.leb_spec (ps_offset s + n) (length buf + length rest)); [|lia].
    by rewrite slice_app_l.
  - intros [= <- <-]. done.
Qed.

Lemma mono_ptr n : mono (fun buf => extract_ptr buf n).
Proof.
  intros buf rest s s' r. unfold extract_ptr. rewrite length_app.
  destruct (Z.ltb_spec (Z.of_nat (length buf)) (Z.of_nat (ps_offset s) + n)) as [|Hle].
  - intros [= <- <-]. done.
  - intros [= <- <-] _.
    destruct (Z.ltb_spec (Z.of_nat (length buf + length rest)) (Z.of_nat (ps_offset s) + n)); [lia|].
    destruct (decide (0 <= n)).
    + rewrite slice_app_l; [done|lia].
    + replace (Z.to_nat n) with 0%nat by lia. done.
Qed.

Lemma mono_const {A} (m : parser A) : mono (fun _ => m).
Proof. by intros buf rest s s' r. Qed.

Lemma mono_bind {A B} (m : list Z -> parser A) (k : list Z -> A -> parser B) :
  mono m -> (forall a, mono (fun buf => k buf a)) ->
  mono (fun buf => let* a := m buf in k buf a).
Proof.
  intros Hm Hk buf rest s s' r. unfold est_bind.
  destruct (m buf s) as [s1 [e|a]] eqn:E.
  - intros [= <- <-] Hr. by rewrite (Hm _ rest _ _ _ E) by congruence.
  - intros H Hr. rewrite (Hm _ rest _ _ _ E) by done. by apply Hk.
Qed.

Lemma mono_if {A} (c : bool) (m1 m2 : list Z -> parser A) :
  mono m1 -> mono m2 -> mono (fun buf => if c then m1 buf else m2 buf).
Proof. by destruct c. Qed.

Lemma mono_field n : mono (fun buf => extract_field buf n).
Proof. apply mono_bind; [apply mono_bin|intros; apply mono_const]. Qed.

Create HintDb mono.
#[local] Hint Resolve mono_bin mono_ptr mono_field mono_const : mono.
#[local] Hint Extern 2 (mono _) =>
  first [ apply mono_bind; [|intros] | apply mono_if ] : mono.

Lemma mono_parse : mono (fun buf => let* ret := parse_type_fields buf in parse_body buf ret).
Proof.
  unfold parse_type_fields, parse_body, parse_ip4_body, parse_ip6_body, parse_error_body.
  auto 100 with mono.
Qed.

Lemma parse_monotone buf rest p0 c q :
  parse_pdu (Some buf) (Some p0) = (c, q) -> c <> PDU_TRUNCATED ->
  parse_pdu (Some (buf ++ rest)) (Some p0) = (c, q).
Proof.
  unfold parse_pdu. intros H Hc.
  match type of H with context [match ?m with _ => _ end] => destruct m as [s r] eqn:E end.
  rewrite (mono_parse buf rest _ _ _ E); [done|]. intros ->. by injection H as <- <-.
Qed.

Lemma parse_outcome_of buf p0 c q :
  bytes_ok buf -> parse_pdu (Some buf) (Some p0) = (c, Some q) -> parse_outcome buf c q.
Proof.
  intros Hok E. destruct (parse_pdu_outcome buf p0 Hok) as (c' & q' & E' & Ho).
  rewrite E in E'. by injection E' as <- <-.
Qed.

Lemma pdu_status_not_error p : PDU_IS_ERROR (pdu_status p) = false.
Proof. unfold pdu_status. by destruct (_ || _). Qed.

Lemma sample_ip4_wf : wf_pdu sample_ip4.
Proof.
  unfold wf_pdu, sample_ip4, uint_ok. cbn. split_and!; try done.
  - unfold pdu_types. rewrite !elem_of_cons. naive_solver.
  - repeat constructor; done.
Qed.

Lemma sample_error_wf : wf_pdu sample_error.
Proof.
  unfold wf_pdu, sample_error, uint_ok. cbn. split_and!; try done.
  - unfold pdu_types. rewrite !elem_of_cons. naive_solver.
  - repeat constructor; done.
  - repeat constructor; done.
Qed.

(** C28: soundness of [parse_pdu]. When it reports [PDU_GOOD] or [PDU_WARNING],
    the structure it filled in is a well-formed PDU, the status is the one
    the PDU's reserved fields and lengths call for, and the buffer starts
    with exactly the wire encoding of that PDU. *)
Theorem parse_pdu_sound buf p0 c q :
  bytes_ok buf ->
  parse_pdu (Some buf) (Some p0) = (c, Some q) -> c = PDU_GOOD \/ c = PDU_WARNING ->
  wf_pdu q /\ c = pdu_status q /\ buf = pdu_bytes q ++ drop (Z.to_nat (length_ q)) buf.
Proof.
  intros Hok E Hc. destruct (parse_outcome_of _ _ _ _ Hok E) as [H|[[-> _]|H]]; [done| |];
    destruct Hc; by subst.
Qed.

Lemma parse_pdu_sound_witness :
  exists q, wf_pdu q /\ PDU_GOOD = pdu_status q
            /\ pdu_bytes sample_ip4 = pdu_bytes q ++ drop (Z.to_nat (length_ q)) (pdu_bytes sample_ip4).
Proof.
  exists sample_ip4. apply (parse_pdu_sound (pdu_bytes sample_ip4) blank_pdu PDU_GOOD sample_ip4).
  - repeat constructor; done.
  - vm_compute. reflexivity.
  - by left.
Defined.

(** Completeness of [parse_pdu]. On the encoding of any well-formed PDU,
    followed by arbitrary further bytes, it succeeds with that PDU (up to
    NULL against empty data) and the status the PDU calls for. *)
Lemma parse_pdu_accepts p p0 rest :
  wf_pdu p ->
  exists q, parse_pdu (Some (pdu_bytes p ++ rest)) (Some p0) = (pdu_status p, Some q)
            /\ pdu_eqv q p.
Proof. apply parse_pdu_complete. Qed.

Lemma parse_pdu_accepts_witness :
  exists q, parse_pdu (Some (pdu_bytes sample_error ++ [7])) (Some blank_pdu)
            = (pdu_status sample_error, Some q) /\ pdu_eqv q sample_error.
Proof. apply parse_pdu_accepts. apply sample_error_wf. Defined.

(** A verdict other than "truncated" is final: bytes that arrive after
    the ones already examined change neither the verdict nor the PDU. *)
Lemma parse_pdu_monotone buf rest p0 c q :
  parse_pdu (Some buf) (Some p0) = (c, q) -> c <> PDU_TRUNCATED ->
  parse_pdu (Some (buf ++ rest)) (Some p0) = (c, q).
Proof. apply parse_monotone. Qed.

Lemma parse_pdu_monotone_witness :
  parse_pdu (Some ([0; 9] ++ [0; 0])) (Some blank_pdu)
  = (PDU_UNSUPPORTED_PDU_TYPE, Some (mkPDU 0 9 0 0 BNone)).
Proof. apply (parse_pdu_monotone [0; 9] [0; 0]); done. Defined.

(** Every strict prefix of a well-formed PDU's encoding is reported as
    truncated, never as an error and never as a shorter PDU, so a reader may
    wait for more bytes. *)
Lemma parse_pdu_prefix p p0 k :
  wf_pdu p -> (k < length (pdu_bytes p))%nat ->
  exists q, parse_pdu (Some (take k (pdu_bytes p))) (Some p0) = (PDU_TRUNCATED, Some q).
Proof.
  intros Hwf Hk.
  assert (Hok : bytes_ok (take k (pdu_bytes p))) by (apply bytes_ok_take, pdu_bytes_ok, Hwf).
  destruct (parse_pdu_complete p p0 [] Hwf) as (q1 & E1 & Hq1). rewrite app_nil_r in E1.
  destruct (parse_pdu_outcome _ p0 Hok) as (c & q & E & Ho).
  destruct (decide (c = PDU_TRUNCATED)) as [->|Hc]; [by exists q|exfalso].
  pose proof (parse_monotone _ (drop k (pdu_bytes p)) _ _ _ E Hc) as E2.
  rewrite take_drop, E1 in E2. injection E2 as E3 E4; subst c q1.
  destruct Ho as [(Hwf' & _ & Hb)|[[? _]|Hb]]; [|done|].
  - apply (f_equal length) in Hb. rewrite length_app, length_take in Hb.
    pose proof (pdu_bytes_length p Hwf). pose proof (pdu_bytes_length q Hwf').
    assert (length_ q = length_ p) by (apply (f_equal length_) in Hq1; done). lia.
  - by rewrite pdu_status_not_error in Hb.
Qed.

Lemma parse_pdu_prefix_witness :
  exists q, parse_pdu (Some (take 19 (pdu_bytes sample_ip4))) (Some blank_pdu)
            = (PDU_TRUNCATED, Some q).
Proof. apply parse_pdu_prefix; [apply sample_ip4_wf | vm_compute; lia]. Defined.

(** "truncated" is reported only while bytes are missing: once the buffer
    holds a header and as many bytes as its length field announces, the
    verdict is never [PDU_TRUNCATED]. *)
Lemma parse_pdu_not_truncated buf p0 c q :
  bytes_ok buf -> (8 <= length buf)%nat -> be_val (slice 4 4 buf) <= Z.of_nat (length buf) ->
  parse_pdu (Some buf) (Some p0) = (c, Some q) -> c <> PDU_TRUNCATED.
Proof.
  intros Hok H8 Hlen E.
  destruct (parse_outcome_of _ _ _ _ Hok E) as [(_ & -> & _)|[(_ & [?|[]])|H]];
    [|lia|lia|by intros ->].
  intros Hs. pose proof (pdu_status_not_error q). unfold pdu_status in Hs. by destruct (_ || _).
Qed.

Lemma parse_pdu_not_truncated_witness :
  fst (parse_pdu (Some [0;10;0;0;0;0;0;9;0]) (Some blank_pdu)) <> PDU_TRUNCATED.
Proof.
  destruct (parse_pdu (Some [0;10;0;0;0;0;0;9;0]) (Some blank_pdu)) as [c [q|]] eqn:E;
    [|by vm_compute in E].
  apply (parse_pdu_not_truncated [0;10;0;0;0;0;0;9;0] blank_pdu c q);
    [repeat constructor; done|cbn; lia|vm_compute; done|exact E].
Defined.
