(* ===== verification/PduDump.v ===== *)
(** * Correctness of [dump_pdu], the constructors and the deep copy
    ([src/lib/rpki-rtr/pdu.c])

    [dump_pdu] writes exactly the wire format of a well-formed PDU on hosts of
    either byte order and stays inside the buffer; parsing and dumping are
    inverse to each other; what the [fill_pdu_*] functions build is well
    formed. *)

From S2P Require Import Prelude Pdu PduParse.
Local Open Scope est_scope.

(** The dumper has written [pre] and its offset is at its end. *)
Definition dumped (pre post : list Z) : dump_state :=
  mkDS (Z.of_nat (length pre)) (pre ++ post).

(** The bytes of the union before the final [htonl]. *)
Definition body_pre (b : pdu_body) : list Z :=
  match b with
  | BIP4 d => [ip4_flags d; ip4_prefixLength d; ip4_maxLength d; ip4_reserved d] ++ prefix4 d
  | BIP6 d => [ip6_flags d; ip6_prefixLength d; ip6_maxLength d; ip6_reserved d] ++ prefix6 d
  | _ => []
  end.
Definition body_last (b : pdu_body) : Z :=
  match b with BIP4 d => ip4_asNumber d | BIP6 d => ip6_asNumber d | BSerial n => n | _ => 0 end.

(** A buffer that is too small: [INCR_OFFSET] returns -1, nothing undefined
    happens first and the rest of the buffer is not touched. *)
Definition stopped (r : dump_state * (dump_exit + unit)) : Prop :=
  exists o b, r = (mkDS o b, inl (DReturn (-1))).

Lemma bind_run {S E A B} (m : ESt S E A) (k : A -> ESt S E B) s s' a :
  m s = (s', inr a) -> (let* x := m in k x) s = k a s'.
Proof. intros H. unfold est_bind. by rewrite H. Qed.

Lemma bind_stop {S E A B} (m : ESt S E A) (k : A -> ESt S E B) s s' e :
  m s = (s', inl e) -> (let* x := m in k x) s = (s', inl e).
Proof. intros H. unfold est_bind. by rewrite H. Qed.


Lemma run_incr buflen n pre post :
  0 <= n -> Z.of_nat (length pre) + n <= buflen -> buflen < 2 ^ 64 ->
  incr_offset buflen n (dumped pre post)
  = (mkDS (Z.of_nat (length pre) + n) (pre ++ post), inr tt).
Proof.
  intros Hn Hle Hb. unfold incr_offset, dumped. cbn [ds_offset ds_buf].
  unfold size_t. rewrite wrap_small by (unfold uint_ok; lia).
  destruct (Z.ltb_spec buflen (Z.of_nat (length pre) + n)); [lia|done].
Qed.

Lemma run_incr_full buflen n pre post :
  0 <= n -> buflen < Z.of_nat (length pre) + n < 2 ^ 64 ->
  incr_offset buflen n (dumped pre post) = (dumped pre post, inl (DReturn (-1))).
Proof.
  intros Hn Hlt. unfold incr_offset, dumped. cbn [ds_offset ds_buf].
  unfold size_t. rewrite wrap_small by (unfold uint_ok; lia).
  destruct (Z.ltb_spec buflen (Z.of_nat (length pre) + n)); [done|lia].
Qed.

Lemma run_write off o pre bs post :
  off = Z.of_nat (length pre) -> (length bs <= length post)%nat ->
  o = off + Z.of_nat (length bs) ->
  write_at off bs (mkDS o (pre ++ post))
  = (dumped (pre ++ bs) (drop (length bs) post), inr tt).
Proof.
  intros -> Hle ->. unfold write_at, dumped. cbn [ds_offset ds_buf].
  rewrite length_app.
  rewrite (proj2 (Z.leb_le 0 _)), (proj2 (Z.leb_le (_ + _) _)) by lia. cbn [andb].
  f_equal. f_equal; [rewrite length_app; lia|].
  unfold blit. rewrite Nat2Z.id, take_app_length, <- app_assoc. do 2 f_equal.
  by rewrite <- drop_drop, drop_app_length.
Qed.

Lemma run_read_ptr n p s :
  ptr_ok n p -> read_ptr p n s = (s, inr (ptr_bytes p)).
Proof.
  intros [Hn Hp]. unfold read_ptr. destruct (Z.eqb_spec n 0) as [->|Hne].
  - destruct p as [bs|]; [|done]. destruct Hp as [Hl _]. by destruct bs.
  - destruct p as [bs|]; [|done]. destruct Hp as [Hl _].
    rewrite (proj2 (Z.leb_le _ _)) by lia. cbn. by rewrite <- Hl, Nat2Z.id, firstn_all.
Qed.

(** Side conditions on offsets and lengths. *)
Ltac len := rewrite ?length_app, ?length_drop, ?length_be_bytes in *; cbn [length app] in *; lia.

Lemma dump_header_run buflen p post :
  8 <= buflen < 2 ^ 64 -> (8 <= length post)%nat ->
  dump_header buflen p (dumped [] post)
  = (dumped ([protocolVersion p] ++ [pduType p] ++ be_bytes 2 (sessionId p)
             ++ be_bytes 4 (length_ p)) (drop 8 post), inr tt).
Proof.
  intros Hb Hp. unfold dump_header.
  erewrite bind_run by (apply run_incr; len).
  erewrite bind_run by (apply run_write; len).
  erewrite bind_run by (apply run_incr; len).
  erewrite bind_run by reflexivity. cbn [ds_offset].
  erewrite bind_run by (apply run_write; len).
  erewrite bind_run by (apply run_incr; len).
  erewrite bind_run by reflexivity. cbn [ds_offset].
  rewrite run_write by len. rewrite !drop_drop. done.
Qed.

Lemma dump_error_run buflen d n pre post :
  body_ok PDU_ERROR_REPORT (BError d) n ->
  Z.of_nat (length pre) + n <= buflen -> buflen < 2 ^ 64 -> n <= Z.of_nat (length post) ->
  dump_error_body buflen d (dumped pre post)
  = (dumped (pre ++ body_bytes PDU_ERROR_REPORT (BError d)) (drop (Z.to_nat n) post), inr tt).
Proof.
  intros (_ & He & Ht & ->) Hb Hb' Hp. unfold dump_error_body.
  pose proof (ptr_ok_len _ _ He) as [Hel Heu]. pose proof (ptr_ok_len _ _ Ht) as [Htl Htu].
  unfold uint_ok in *. rewrite body_bytes_err.
  erewrite bind_run by (apply run_incr; len).
  erewrite bind_run by reflexivity. cbn [ds_offset].
  erewrite bind_run by (apply run_write; len).
  erewrite bind_run by (apply run_incr; len).
  erewrite bind_run by reflexivity. cbn [ds_offset].
  erewrite bind_run by (by apply run_read_ptr).
  erewrite bind_run by (apply run_write; len).
  erewrite bind_run by (apply run_incr; len).
  erewrite bind_run by reflexivity. cbn [ds_offset].
  erewrite bind_run by (apply run_write; len).
  erewrite bind_run by (apply run_incr; len).
  erewrite bind_run by reflexivity. cbn [ds_offset].
  rewrite !drop_drop, <- !app_assoc.
  assert (Hd : forall m, m = Z.to_nat (8 + encapsulatedPDULength d + errorTextLength d) ->
     drop m post = drop (Z.to_nat (8 + encapsulatedPDULength d + errorTextLength d)) post)
     by (by intros ? ->).
  destruct (Z.ltb_spec 0 (errorTextLength d)).
  - erewrite bind_run by (by apply run_read_ptr).
    rewrite !app_assoc. rewrite run_write by len.
    rewrite drop_drop, <- !app_assoc, Hd; [done|len].
  - assert (Hnil : ptr_bytes (errorText d) = []) by (apply nil_length_inv; lia).
    unfold est_ret, dumped. rewrite Hnil, app_nil_r, !app_assoc. 
    f_equal. f_equal; [len|]. f_equal. apply Hd. len.
Qed.

Lemma htonl_host e n : htonl_bytes e (host_u32 e n) = be_bytes 4 n.
Proof. destruct e; [apply rev_involutive|done]. Qed.

Lemma length_host e n : length (host_u32 e n) = 4%nat.
Proof. destruct e; unfold host_u32; rewrite ?length_rev; apply length_be_bytes. Qed.

Lemma htonl_at_run e off o pre mid n post :
  off = Z.of_nat (length (pre ++ mid)) ->
  htonl_at e off (mkDS o (pre ++ mid ++ host_u32 e n ++ post))
  = (mkDS o (pre ++ mid ++ be_bytes 4 n ++ post), inr tt).
Proof.
  intros ->. unfold htonl_at, est_bind, est_gets. cbn [ds_buf ds_offset].
  rewrite Nat2Z.id, !app_assoc, <- app_assoc.
  assert (Hs : slice (length (pre ++ mid)) 4 ((pre ++ mid) ++ host_u32 e n ++ post) = host_u32 e n).
  { unfold slice. rewrite drop_app_length. rewrite <- (length_host e n). apply take_app_length. }
  rewrite Hs, htonl_host. unfold write_at. cbn [ds_buf ds_offset].
  rewrite !length_app, length_be_bytes, length_host.
  rewrite (proj2 (Z.leb_le 0 _)), (proj2 (Z.leb_le (_ + _) _)) by lia. cbn [andb].
  do 2 f_equal. unfold blit.
  rewrite Nat2Z.id, length_be_bytes, <- length_app, take_app_length, <- drop_drop, drop_app_length.
  rewrite <- (length_host e n), drop_app_length. by rewrite <- !app_assoc.
Qed.

Lemma run_read_body e b n s :
  Z.of_nat (length (body_mem e b)) = n ->
  read_body e b n s = (s, inr (body_mem e b)).
Proof.
  intros <-. unfold read_body. rewrite Z.leb_refl, Nat2Z.id, firstn_all. done.
Qed.


Lemma dump_plain_run e buflen p pre post :
  wf_pdu p -> pduType p <> PDU_ERROR_REPORT -> length pre = 8%nat ->
  length_ p <= buflen -> buflen < 2 ^ 64 -> length_ p <= 8 + Z.of_nat (length post) ->
  dump_plain_body e buflen p (dumped pre post)
  = (dumped (pre ++ body_bytes (pduType p) (body p))
       (drop (Z.to_nat (length_ p - 8)) post), inr tt).
Proof.
  intros (Hv & Hx & Hl & Ht & Hb) Hne Hpre Hle Hlt Hpost.
  unfold dump_plain_body, PDU_HEADER_LENGTH in *.
  pose proof (body_ok_nonneg _ _ _ Hb) as Hn. unfold uint_ok in *.
  unfold size_t. rewrite wrap_small by (unfold uint_ok; lia).
  erewrite bind_run by (apply run_incr; len).
  set (n := length_ p - 8) in *.
  assert (Hmem : header_only_type (pduType p) = true /\ n = 0 /\ body_bytes (pduType p) (body p) = []
    \/ header_only_type (pduType p) = false /\
       body_mem e (body p) = body_pre (body p) ++ host_u32 e (body_last (body p))
       /\ body_bytes (pduType p) (body p) = body_pre (body p) ++ be_bytes 4 (body_last (body p))
       /\ Z.of_nat (length (body_mem e (body p))) = n
       /\ (zin (pduType p) [PDU_IPV4_PREFIX; PDU_IPV6_PREFIX] = true
           \/ zin (pduType p) [PDU_IPV4_PREFIX; PDU_IPV6_PREFIX] = false
              /\ serial_type (pduType p) = true /\ body_pre (body p) = [])).
  { revert Hb Ht Hne. unfold n. destruct (body p) as [|sn|d|d|d]; unfold body_ok, body_bytes;
      intros Hb Ht Hne; destruct (header_only_type (pduType p)) eqn:Hh; try (left; done); right;
      try done; cbn [body_pre body_mem body_last].
    - destruct Hb as (Hs & Hu & ->). split_and!; try done.
      + by rewrite length_host.
      + right. split_and!; [|done|done].
        apply zin_In in Hs. by elem_cases Hs; rewrite Hs.
    - destruct Hb as (-> & -> & _ & _ & _ & _ & Hp4 & _). split_and!; try done; [|by left].
      rewrite !length_app, length_host, Hp4. done.
    - destruct Hb as (-> & -> & _ & _ & _ & _ & Hp4 & _). split_and!; try done; [|by left].
      rewrite !length_app, length_host, Hp4. done.
    - destruct Hb as [E _]. by destruct (Hne E). }
  destruct Hmem as [(Hh & E & ->)|(Hh & Em & -> & En & Hty)].
  - rewrite E.
    assert (Hr : read_body e (body p) 0 (mkDS (Z.of_nat (length pre) + 0) (pre ++ post))
            = (mkDS (Z.of_nat (length pre) + 0) (pre ++ post), inr [])).
    { unfold read_body. by rewrite (proj2 (Z.leb_le 0 _)) by lia. }
    erewrite bind_run by exact Hr.
    erewrite bind_run by (apply run_write; len).
    apply zin_In in Hh. elem_cases Hh; rewrite Hh; red_if; by rewrite !app_nil_r.
  - erewrite bind_run by (by apply run_read_body).
    erewrite bind_run by (apply run_write; len).
    rewrite Em in *. rewrite length_app, length_host in En.
    assert (Hdrop : drop (length (body_pre (body p) ++ host_u32 e (body_last (body p)))) post
                    = drop (Z.to_nat n) post).
    { f_equal. rewrite length_app, length_host. lia. }
    rewrite Hdrop. unfold dumped. rewrite !length_app, length_host, length_be_bytes.
    unfold serial_type in Hty. destruct Hty as [->|(-> & -> & Hnil)].
    + erewrite bind_run by reflexivity. cbn [ds_offset].
      rewrite <- !app_assoc, htonl_at_run; [done|]. rewrite length_app. lia.
    + rewrite Hnil. cbn [app length].
      rewrite <- !app_assoc.
      etrans; [apply (htonl_at_run e _ _ pre [] (body_last (body p))); rewrite app_nil_r; unfold PDU_HEADER_LENGTH; lia|done].
Qed.

Lemma pdu_bytes_eq p : pdu_bytes p =
  ([protocolVersion p] ++ [pduType p] ++ be_bytes 2 (sessionId p) ++ be_bytes 4 (length_ p))
  ++ body_bytes (pduType p) (body p).
Proof. done. Qed.

Lemma wf_pdu_length p : wf_pdu p -> 8 <= length_ p < 2 ^ 32.
Proof.
  intros (_ & _ & Hl & _ & Hb). pose proof (body_ok_nonneg _ _ _ Hb).
  unfold uint_ok, PDU_HEADER_LENGTH in *. lia.
Qed.

Lemma dump_rest_run e buflen p pre post :
  wf_pdu p -> length pre = 8%nat ->
  length_ p <= buflen < 2 ^ 64 -> length_ p <= 8 + Z.of_nat (length post) ->
  dump_rest e buflen p (dumped pre post)
  = (dumped (pre ++ body_bytes (pduType p) (body p))
       (drop (Z.to_nat (length_ p - 8)) post), inr tt).
Proof.
  intros Hwf Hpre Hb Hpost. unfold dump_rest.
  destruct (Z.eqb_spec (pduType p) PDU_ERROR_REPORT) as [E|E].
  - destruct Hwf as (_ & _ & Hl & _ & Hok). rewrite E in *.
    destruct (body_ok_err _ _ Hok) as (d & Eb). unfold errorData. rewrite Eb in *. cbn [err_of].
    unfold PDU_HEADER_LENGTH in Hok. apply dump_error_run; [done|lia..].
  - apply dump_plain_run; [done..|lia|lia|lia].
Qed.

Lemma dump_pdu_complete e buf buflen p :
  wf_pdu p -> length_ p <= buflen <= Z.of_nat (length buf) -> buflen < 2 ^ 64 ->
  dump_pdu e (Some buf) buflen (Some p)
  = DumpRet (length_ p) (Some (pdu_bytes p ++ drop (Z.to_nat (length_ p)) buf)).
Proof.
  intros Hwf Hb Hb'. pose proof (wf_pdu_length _ Hwf) as Hl.
  pose proof (pdu_bytes_length _ Hwf) as Hlen.
  unfold dump_pdu. change (mkDS 0 buf) with (dumped [] buf).
  erewrite bind_run by (apply dump_header_run; lia).
  rewrite dump_rest_run by (try done; len). rewrite <- pdu_bytes_eq. cbn [dumped ds_offset ds_buf].
  rewrite drop_drop, Hlen.
  do 3 f_equal. f_equal. lia.
Qed.


Lemma incr_or_stop buflen n pre post (k : dumper unit) :
  0 <= n -> Z.of_nat (length pre) + n < 2 ^ 64 -> buflen < 2 ^ 64 ->
  (Z.of_nat (length pre) + n <= buflen ->
   stopped (k (mkDS (Z.of_nat (length pre) + n) (pre ++ post)))) ->
  stopped ((incr_offset buflen n ;;; k) (dumped pre post)).
Proof.
  intros Hn Hu Hb Hk. destruct (Z.le_gt_cases (Z.of_nat (length pre) + n) buflen).
  - erewrite bind_run by (apply run_incr; lia). by apply Hk.
  - erewrite bind_stop by (apply run_incr_full; lia). by do 2 eexists.
Qed.

Ltac dump_step :=
  first [ apply incr_or_stop; [len|len|lia|intros ?]
        | erewrite bind_run by (apply run_write; len)
        | erewrite bind_run by (by apply run_read_ptr)
        | erewrite bind_run by reflexivity; cbn [ds_offset] ].

Lemma dump_error_stop buflen d n pre post :
  body_ok PDU_ERROR_REPORT (BError d) n -> n < 2 ^ 32 -> Z.of_nat (length pre) < 2 ^ 32 ->
  Z.of_nat (length pre) + n > buflen -> buflen < 2 ^ 64 ->
  buflen <= Z.of_nat (length pre + length post) ->
  stopped (dump_error_body buflen d (dumped pre post)).
Proof.
  intros (_ & He & Ht & ->) Hn Hp Hb Hb' Hpost. unfold dump_error_body.
  pose proof (ptr_ok_len _ _ He) as [Hel Heu]. pose proof (ptr_ok_len _ _ Ht) as [Htl Htu].
  unfold uint_ok in *. repeat dump_step. len.
Qed.

Lemma dump_rest_stop e buflen p pre post :
  wf_pdu p -> length pre = 8%nat -> buflen < length_ p -> buflen < 2 ^ 64 ->
  buflen <= 8 + Z.of_nat (length post) ->
  stopped (dump_rest e buflen p (dumped pre post)).
Proof.
  intros Hwf Hpre Hb Hb' Hpost. unfold dump_rest.
  pose proof (wf_pdu_length _ Hwf) as Hl.
  destruct (Z.eqb_spec (pduType p) PDU_ERROR_REPORT) as [E|E].
  - destruct Hwf as (_ & _ & _ & _ & Hok). rewrite E in *.
    destruct (body_ok_err _ _ Hok) as (d & Eb). unfold errorData. rewrite Eb in *. cbn [err_of].
    unfold PDU_HEADER_LENGTH in Hok. eapply dump_error_stop; [done|lia..].
  - unfold dump_plain_body, PDU_HEADER_LENGTH, size_t. rewrite wrap_small by (unfold uint_ok; lia).
    apply incr_or_stop; [lia..|]. intros. lia.
Qed.

Lemma dump_pdu_short e buf buflen p :
  wf_pdu p -> 0 <= buflen <= Z.of_nat (length buf) -> buflen < length_ p -> buflen < 2 ^ 64 ->
  exists buf', dump_pdu e (Some buf) buflen (Some p) = DumpRet (-1) (Some buf').
Proof.
  intros Hwf Hb Hs Hb'. unfold dump_pdu.
  enough (stopped ((dump_header buflen p ;;; dump_rest e buflen p) (mkDS 0 buf))) as (o & b & ->)
    by (by exists b).
  change (mkDS 0 buf) with (dumped [] buf).
  destruct (Z.le_gt_cases 8 buflen).
  - erewrite bind_run by (apply dump_header_run; lia).
    apply dump_rest_stop; [done|len..].
  - assert (Hst : stopped (dump_header buflen p (dumped [] buf))).
    { unfold dump_header. repeat dump_step. len. }
    destruct Hst as (o & b & E). erewrite bind_stop by exact E. by do 2 eexists.
Qed.

(** Whatever it is given, [dump_pdu] leaves the size of the buffer alone. *)
Definition keeps_length {A} (m : dumper A) : Prop :=
  forall s, length (ds_buf (fst (m s))) = length (ds_buf s).

Lemma dlen_bind {A B} (m : dumper A) (k : A -> dumper B) :
  keeps_length m -> (forall a, keeps_length (k a)) -> keeps_length (let* a := m in k a).
Proof.
  intros Hm Hk s. unfold est_bind. specialize (Hm s). destruct (m s) as [s' [x|a]]; [done|].
  rewrite Hk. done.
Qed.

Lemma dlen_write off bs : keeps_length (write_at off bs).
Proof.
  intros s. unfold write_at. destruct (_ && _) eqn:E; [|done]. bprop. cbn. apply length_blit. lia.
Qed.

Lemma dlen_incr buflen n : keeps_length (incr_offset buflen n).
Proof. intros s. unfold incr_offset. by destruct (_ <? _). Qed.

Lemma dlen_read_ptr p n : keeps_length (read_ptr p n).
Proof. intros s. unfold read_ptr. destruct (_ =? _); [done|]. destruct p; [by destruct (_ <=? _)|done]. Qed.

Lemma dlen_read_body e b n : keeps_length (read_body e b n).
Proof. intros s. unfold read_body. by destruct (_ <=? _). Qed.

Lemma dlen_gets {A} (f : dump_state -> A) : keeps_length (est_gets f).
Proof. done. Qed.

Lemma dlen_ret {A} (a : A) : keeps_length (est_ret a).
Proof. done. Qed.

Lemma dlen_if {A} (b : bool) (m1 m2 : dumper A) :
  keeps_length m1 -> keeps_length m2 -> keeps_length (if b then m1 else m2).
Proof. by destruct b. Qed.

#[local] Hint Resolve dlen_write dlen_incr dlen_read_ptr dlen_read_body dlen_gets dlen_ret : dump.
#[local] Hint Extern 2 (keeps_length _) => first [ apply dlen_bind; [|intros] | apply dlen_if ] : dump.

Lemma dump_pdu_keeps_length e buf buflen p r buf' :
  dump_pdu e (Some buf) buflen (Some p) = DumpRet r (Some buf') -> length buf' = length buf.
Proof.
  unfold dump_pdu. intros E.
  assert (H : keeps_length (dump_header buflen p ;;; dump_rest e buflen p)).
  { unfold dump_header, dump_rest, dump_error_body, dump_plain_body, htonl_at. auto 40 with dump. }
  specialize (H (mkDS 0 buf)).
  destruct ((dump_header buflen p ;;; dump_rest e buflen p) (mkDS 0 buf)) as [s [[x|]|u]];
    [injection E as _ <-|done|injection E as _ <-]; exact H.
Qed.

(** [Dump_pdu] of a well-formed PDU. With room for it, the call returns
    the PDU's length, the buffer starts with its wire format and every byte
    after it is untouched; without, it returns -1. In no case does it read or
    write outside the buffer, the structure or the data it points at, and the
    result does not depend on the byte order of the host. *)
Lemma dump_pdu_spec e buf buflen p :
  wf_pdu p -> 0 <= buflen <= Z.of_nat (length buf) -> buflen < 2 ^ 64 ->
  if length_ p <=? buflen
  then dump_pdu e (Some buf) buflen (Some p)
       = DumpRet (length_ p) (Some (pdu_bytes p ++ drop (Z.to_nat (length_ p)) buf))
  else exists buf', dump_pdu e (Some buf) buflen (Some p) = DumpRet (-1) (Some buf').
Proof.
  intros Hwf Hb Hu. destruct (Z.leb_spec (length_ p) buflen).
  - by apply dump_pdu_complete; [| lia |].
  - by apply dump_pdu_short.
Qed.

Lemma dump_pdu_spec_witness :
  (if length_ sample_ip4 <=? 24
   then dump_pdu LittleEndian (Some (replicate 24 0)) 24 (Some sample_ip4)
        = DumpRet (length_ sample_ip4)
            (Some (pdu_bytes sample_ip4 ++ drop (Z.to_nat (length_ sample_ip4)) (replicate 24 0)))
   else exists buf', dump_pdu LittleEndian (Some (replicate 24 0)) 24 (Some sample_ip4)
                     = DumpRet (-1) (Some buf')).
Proof. apply dump_pdu_spec; [apply sample_ip4_wf | cbn; lia | lia]. Defined.

(** C32: round trip, from a structure to bytes and back: parsing what
    [dump_pdu] wrote gives the same PDU back, whatever bytes follow it. *)
Theorem dump_parse_roundtrip e buf buflen p p0 :
  wf_pdu p -> length_ p <= buflen <= Z.of_nat (length buf) -> buflen < 2 ^ 64 ->
  exists buf' q,
    dump_pdu e (Some buf) buflen (Some p) = DumpRet (length_ p) (Some buf')
    /\ length buf' = length buf
    /\ parse_pdu (Some buf') (Some p0) = (pdu_status p, Some q)
    /\ pdu_eqv q p.
Proof.
  intros Hwf Hb Hu.
  destruct (parse_pdu_complete p p0 (drop (Z.to_nat (length_ p)) buf) Hwf) as (q & E & Hq).
  exists (pdu_bytes p ++ drop (Z.to_nat (length_ p)) buf), q.
  split_and!; [by apply dump_pdu_complete | | done..].
  pose proof (pdu_bytes_length p Hwf). len.
Qed.

Lemma dump_parse_roundtrip_witness :
  exists buf' q,
    dump_pdu BigEndian (Some (replicate 30 9)) 25 (Some sample_error)
    = DumpRet (length_ sample_error) (Some buf')
    /\ length buf' = length (replicate 30 9)
    /\ parse_pdu (Some buf') (Some blank_pdu) = (pdu_status sample_error, Some q)
    /\ pdu_eqv q sample_error.
Proof. apply dump_parse_roundtrip; [apply sample_error_wf | cbn; lia | lia]. Defined.

(** Round trip, from bytes to a structure and back: dumping a PDU that was
    parsed without error reproduces the bytes it was parsed from. *)
Lemma parse_dump_roundtrip e buf p0 c q out outlen :
  bytes_ok buf ->
  parse_pdu (Some buf) (Some p0) = (c, Some q) -> c = PDU_GOOD \/ c = PDU_WARNING ->
  length_ q <= outlen <= Z.of_nat (length out) -> outlen < 2 ^ 64 ->
  exists out', dump_pdu e (Some out) outlen (Some q) = DumpRet (length_ q) (Some out')
    /\ take (Z.to_nat (length_ q)) out' = take (Z.to_nat (length_ q)) buf.
Proof.
  intros Hok E Hc Hb Hu.
  assert (Ho : wf_pdu q /\ buf = pdu_bytes q ++ drop (Z.to_nat (length_ q)) buf).
  { destruct (parse_outcome_of _ _ _ _ Hok E) as [(? & _ & ?)|[[-> _]|H]]; [done| |];
      destruct Hc; by subst. }
  destruct Ho as [Hwf Hbuf]. pose proof (pdu_bytes_length q Hwf) as Hl.
  eexists. split; [by apply dump_pdu_complete|].
  replace (Z.to_nat (length_ q)) with (length (pdu_bytes q)) in * by lia.
  rewrite take_app_length, Hbuf. by rewrite take_app_length.
Qed.

Lemma parse_dump_roundtrip_witness :
  exists out', dump_pdu LittleEndian (Some (replicate 20 0)) 20 (Some sample_ip4)
               = DumpRet (length_ sample_ip4) (Some out')
    /\ take (Z.to_nat (length_ sample_ip4)) out'
       = take (Z.to_nat (length_ sample_ip4)) (pdu_bytes sample_ip4).
Proof.
  apply (parse_dump_roundtrip LittleEndian (pdu_bytes sample_ip4) blank_pdu PDU_GOOD);
    [repeat constructor; done | vm_compute; reflexivity | by left | cbn; lia | lia].
Defined.

Lemma fill_serial_wf pdu t session serial :
  serial_type t = true -> uint_ok 16 session -> uint_ok 32 serial ->
  wf_pdu (fill_pdu_with_serial_number pdu t session serial).
Proof.
  intros Ht Hs Hn. unfold wf_pdu. cbn. split_and!; try done.
  - apply zin_In in Ht. unfold pdu_types. elem_cases Ht; subst t; rewrite !elem_of_cons; naive_solver.
  - apply zin_In in Ht. elem_cases Ht; subst t; done.
Qed.

Lemma fill_header_wf pdu t session :
  header_only_type t = true -> uint_ok 16 session ->
  wf_pdu (fill_pdu_header_only pdu t session).
Proof.
  intros Ht Hs. unfold wf_pdu. cbn. unfold body_ok. rewrite Ht. split_and!; try done.
  apply zin_In in Ht. unfold pdu_types. elem_cases Ht; subst t; rewrite !elem_of_cons; naive_solver.
Qed.

(** Every PDU the cache builds is well formed, so it can be dumped and is
    accepted by a peer's parser: the [fill_pdu_*] functions set the length,
    type and union member consistently for all in-range arguments. *)
Lemma fill_pdus_wf pdu session serial flags plen mlen p4 p6 asn code enc text :
  uint_ok 16 session -> uint_ok 32 serial -> uint_ok 32 asn -> byte_ok flags ->
  length p4 = 4%nat -> bytes_ok p4 -> length p6 = 16%nat -> bytes_ok p6 ->
  0 <= plen <= 32 -> 0 <= mlen <= 32 -> uint_ok 16 code ->
  bytes_ok (ptr_bytes enc) -> bytes_ok (ptr_bytes text) ->
  Z.of_nat (length (ptr_bytes enc)) + Z.of_nat (length (ptr_bytes text)) + 16 < 2 ^ 32 ->
  wf_pdu (fill_pdu_serial_notify pdu session serial)
  /\ wf_pdu (fill_pdu_serial_query pdu session serial)
  /\ wf_pdu (fill_pdu_reset_query pdu)
  /\ wf_pdu (fill_pdu_cache_response pdu session)
  /\ wf_pdu (fill_pdu_ipv4_prefix pdu flags plen mlen p4 asn)
  /\ wf_pdu (fill_pdu_ipv6_prefix pdu flags (4 * plen) (4 * mlen) p6 asn)
  /\ wf_pdu (fill_pdu_end_of_data pdu session serial)
  /\ wf_pdu (fill_pdu_cache_reset pdu)
  /\ wf_pdu (fill_pdu_error_report pdu code (Z.of_nat (length (ptr_bytes enc))) enc
               (Z.of_nat (length (ptr_bytes text))) text).
Proof.
  intros Hs Hn Ha Hf L4 B4 L6 B6 Hp Hm Hc Be Bt Hlen.
  split_and!; try (by apply fill_serial_wf); try (by apply fill_header_wf).
  - unfold wf_pdu, uint_ok. cbn. split_and!; try done; try lia.
    unfold pdu_types; rewrite !elem_of_cons; naive_solver.
  - unfold wf_pdu, uint_ok. cbn -[Z.mul]. split_and!; try done; try lia.
    unfold pdu_types; rewrite !elem_of_cons; naive_solver.
  - assert (Hu : forall q, bytes_ok (ptr_bytes q) ->
        Z.of_nat (length (ptr_bytes q)) < 2 ^ 32 -> ptr_ok (Z.of_nat (length (ptr_bytes q))) q).
    { intros q Hq Hb. unfold ptr_ok, uint_ok. split; [lia|]. by destruct q. }
    unfold fill_pdu_error_report, wf_pdu. cbn [set_body protocolVersion set_sessionId
      fill_pdu_common set_length set_pduType set_protocolVersion sessionId pduType length_ body].
    unfold PDU_HEADER_LENGTH, PDU_ERROR_HEADERS_LENGTH, u32. rewrite wrap_small by (unfold uint_ok; lia).
    split_and!; try done; [unfold uint_ok; lia| |].
    + unfold pdu_types; rewrite !elem_of_cons; naive_solver.
    + cbn. split_and!; [done|apply Hu; [done|lia]..|lia].
Qed.

Lemma fill_pdus_wf_witness :
  wf_pdu (fill_pdu_serial_notify blank_pdu 5 7)
  /\ wf_pdu (fill_pdu_serial_query blank_pdu 5 7)
  /\ wf_pdu (fill_pdu_reset_query blank_pdu)
  /\ wf_pdu (fill_pdu_cache_response blank_pdu 5)
  /\ wf_pdu (fill_pdu_ipv4_prefix blank_pdu 1 8 16 [10;0;0;0] 64500)
  /\ wf_pdu (fill_pdu_ipv6_prefix blank_pdu 1 (4 * 8) (4 * 16) (replicate 16 0) 64500)
  /\ wf_pdu (fill_pdu_end_of_data blank_pdu 5 7)
  /\ wf_pdu (fill_pdu_cache_reset blank_pdu)
  /\ wf_pdu (fill_pdu_error_report blank_pdu 0 (Z.of_nat (length (ptr_bytes (Some [1;2]))))
               (Some [1;2]) (Z.of_nat (length (ptr_bytes None))) None).
Proof.
  apply fill_pdus_wf; unfold uint_ok, byte_ok; cbn; try lia; repeat constructor; done.
Qed.

(** [pdu_deepcopy] of a well-formed PDU returns NULL exactly when one of
    the [malloc] calls it makes fails, and otherwise a copy equal to the
    original, both data blocks included; it never reads past them. *)
Lemma pdu_deepcopy_spec m1 m2 m3 p :
  wf_pdu p ->
  pdu_deepcopy m1 m2 m3 p = Copied p
  \/ pdu_deepcopy m1 m2 m3 p = NoMemory
     /\ (m1 = false
         \/ pduType p = PDU_ERROR_REPORT
            /\ ((m2 = false /\ encapsulatedPDU (errorData p) <> None)
                \/ (m3 = false /\ errorText (errorData p) <> None))).
Proof.
  intros (_ & _ & _ & _ & Hb). unfold pdu_deepcopy.
  destruct m1; cbn [negb]; [|naive_solver].
  destruct (Z.eqb_spec (pduType p) PDU_ERROR_REPORT) as [Et|]; [|by left].
  rewrite Et in *. destruct (body_ok_err _ _ Hb) as [d Ed]. unfold errorData. rewrite Ed in *.
  destruct Hb as (_ & He & Ht & _). cbn [err_of].
  assert (Hcopy : forall q n k m, ptr_ok n q ->
    copy_data q n k m = k q \/ copy_data q n k m = NoMemory /\ m = false /\ q <> None).
  { intros [bs|] n k m [_ Hq]; [|by left]. cbn. destruct m; [left|right; done].
    destruct Hq as [<- _]. rewrite Z.leb_refl, Nat2Z.id, firstn_all. done. }
  destruct (Hcopy _ _ (fun enc => copy_data (errorText d) (errorTextLength d)
     (fun text => Copied (set_body (BError (mkErr (encapsulatedPDULength d) enc
        (errorTextLength d) text)) p)) m3) m2 He) as [->|(-> & ? & ?)]; [|naive_solver].
  destruct (Hcopy _ _ (fun text => Copied (set_body (BError (mkErr (encapsulatedPDULength d)
     (encapsulatedPDU d) (errorTextLength d) text)) p)) m3 Ht) as [->|(-> & ? & ?)]; [|naive_solver].
  left. f_equal. destruct p; cbn in *. subst. by destruct d.
Qed.

Lemma pdu_deepcopy_spec_witness :
  pdu_deepcopy true false true sample_error = Copied sample_error
  \/ pdu_deepcopy true false true sample_error = NoMemory
     /\ (true = false
         \/ pduType sample_error = PDU_ERROR_REPORT
            /\ ((false = false /\ encapsulatedPDU (errorData sample_error) <> None)
                \/ (true = false /\ errorText (errorData sample_error) <> None))).
Proof. apply pdu_deepcopy_spec. apply sample_error_wf. Defined.
