(* ===== verification/Queue.v ===== *)
(** * The thread-safe queue ([src/lib/util/queue.c])

    A doubly linked list on a heap of entries. Results of [malloc] and of the
    mutex calls are arguments of the operations; an access to an entry that
    is not allocated gives [None] (undefined behaviour). The abstract queue
    is a list, oldest element first. *)

From S2P Require Import Prelude.

Section queue.
Context {A : Type}.

(** ** Data *)

(** A [struct _Queue_Entry *]; [None] is NULL. *)
Definition entry_ptr : Type := option positive.

Record Queue_Entry := mkEntry {
  prev : entry_ptr;
  next : entry_ptr;
  data : A }.

Record Queue := mkQueue {
  thread_safe : bool;
  size : Z;
  first : entry_ptr;
  last : entry_ptr }.

(** A queue together with the entries that are allocated for it. *)
Record qmem := mkMem { heap : gmap positive Queue_Entry; queue : Queue }.

Definition set_prev (p : entry_ptr) (e : Queue_Entry) : Queue_Entry :=
  mkEntry p (next e) (data e).
Definition set_next (p : entry_ptr) (e : Queue_Entry) : Queue_Entry :=
  mkEntry (prev e) p (data e).

Definition load (h : gmap positive Queue_Entry) (p : entry_ptr) : option Queue_Entry :=
  a ← p; h !! a.

(** [p->field = v], with [f] the update of the entry. *)
Definition store (f : Queue_Entry -> Queue_Entry) (p : entry_ptr)
    (h : gmap positive Queue_Entry) : option (gmap positive Queue_Entry) :=
  a ← p; e ← h !! a; Some (<[a := f e]> h).

Definition free_entry (p : entry_ptr) (h : gmap positive Queue_Entry)
    : option (gmap positive Queue_Entry) :=
  a ← p; _ ← h !! a; Some (delete a h).

(** ** Operations *)

(** [malloc_ok], [init_ok]: whether [malloc] and [pthread_mutex_init] succeed. *)
Definition Queue_new (malloc_ok init_ok ts : bool) : option qmem :=
  if negb malloc_ok then None
  else if ts && negb init_ok then None
  else Some (mkMem ∅ (mkQueue ts 0 None None)).

(** [ok] is the outcome of the mutex call, made only on thread-safe queues. *)
Definition Queue_lock (ok : bool) (q : Queue) : bool :=
  if thread_safe q then ok else true.
Definition Queue_unlock (ok : bool) (q : Queue) : bool :=
  if thread_safe q then ok else true.

(** The result is the new memory with [*data], or [None] in its second
    component when the function returns [false]. *)
Definition Queue_trypop (lock_ok unlock_ok : bool) (m : qmem)
    : option (qmem * option A) :=
  let q := queue m in
  if negb (Queue_lock lock_ok q) then Some (m, None)
  else
    let entry := first q in
    match entry with
    | None => let _ := Queue_unlock unlock_ok q in Some (m, None)
    | Some _ =>
        e ← load (heap m) entry;
        let first' := next e in
        lh ← match first' with
             | None => Some (None, heap m)
             | Some _ => h ← store (set_prev None) first' (heap m); Some (last q, h)
             end;
        let q' := mkQueue (thread_safe q) (size_t (size q - 1)) first' (fst lh) in
        let _ := Queue_unlock unlock_ok q' in
        e' ← load (snd lh) entry;
        h ← free_entry entry (snd lh);
        Some (mkMem h q', Some (data e'))
    end.

(** [entry] is the result of [malloc]. The new entry's [prev] is set only once
    the lock is held; until then it reads as NULL here and nothing looks at it. *)
Definition Queue_push (entry : entry_ptr) (lock_ok unlock_ok : bool) (d : A)
    (m : qmem) : option (qmem * bool) :=
  match entry with
  | None => Some (m, false)
  | Some a =>
      let h := <[a := mkEntry None None d]> (heap m) in
      let q := queue m in
      if negb (Queue_lock lock_ok q) then
        h ← free_entry entry h; Some (mkMem h q, false)
      else
        h ← store (set_prev (last q)) entry h;
        fh ← match last q with
             | None => Some (entry, h)
             | Some _ => h ← store (set_next entry) (last q) h; Some (first q, h)
             end;
        let q' := mkQueue (thread_safe q) (size_t (size q + 1)) (fst fh) entry in
        Some (mkMem (snd fh) q', Queue_unlock unlock_ok q')
  end.

(** The results of the lock calls are ignored. *)
Definition Queue_size (lock_ok unlock_ok : bool) (m : qmem) : Z :=
  let _ := Queue_lock lock_ok (queue m) in
  let s := size (queue m) in
  let _ := Queue_unlock unlock_ok (queue m) in s.

(** The checks of [QUEUE_INVARIANTS], which debug builds assert. *)
Definition QUEUE_INVARIANTS (m : qmem) : Prop :=
  if size (queue m) =? 0
  then first (queue m) = None /\ last (queue m) = None
  else exists ef el, load (heap m) (first (queue m)) = Some ef
       /\ load (heap m) (last (queue m)) = Some el
       /\ prev ef = None /\ next el = None.

(** ** Abstraction: the entries in order, with their addresses *)

Definition prev_of (nodes : list (positive * A)) (i : nat) : entry_ptr :=
  match i with O => None | S j => fst <$> nodes !! j end.
Definition next_of (nodes : list (positive * A)) (i : nat) : entry_ptr :=
  fst <$> nodes !! S i.

(** Exactly the entries of the list are allocated (so nothing leaks), and each
    points at its neighbours. *)
Record chain (h : gmap positive Queue_Entry) (nodes : list (positive * A)) : Prop := {
  chain_nodup : NoDup nodes.*1;
  chain_dom : forall a, is_Some (h !! a) <-> a ∈ nodes.*1;
  chain_links : forall i a x, nodes !! i = Some (a, x) ->
    h !! a = Some (mkEntry (prev_of nodes i) (next_of nodes i) x) }.

Definition queue_rep (m : qmem) (l : list A) : Prop :=
  exists nodes, l = nodes.*2 /\ chain (heap m) nodes
    /\ first (queue m) = fst <$> head nodes
    /\ last (queue m) = fst <$> list.last nodes
    /\ size (queue m) = Z.of_nat (length nodes) /\ uint_ok 64 (size (queue m)).

(** The calls clients make, each with the outcomes of its system calls. *)
Inductive queue_op :=
| OpPush (entry : entry_ptr) (lock_ok unlock_ok : bool) (d : A)
| OpPop (lock_ok unlock_ok : bool)
| OpSize (lock_ok unlock_ok : bool).

Inductive queue_res := RBool (b : bool) | RPop (x : option A) | RSize (n : Z).

Definition queue_step (op : queue_op) (m : qmem) : option (qmem * queue_res) :=
  match op with
  | OpPush e lo uo d => '(m', b) ← Queue_push e lo uo d m; Some (m', RBool b)
  | OpPop lo uo => '(m', x) ← Queue_trypop lo uo m; Some (m', RPop x)
  | OpSize lo uo => Some (m, RSize (Queue_size lo uo m))
  end.

(** The same calls on the abstract list, as the code has them: when the unlock
    fails, a push has taken effect and returns [false]. *)
Definition call_effect (ts : bool) (op : queue_op) (l : list A) : list A * queue_res :=
  match op with
  | OpPush None _ _ _ => (l, RBool false)
  | OpPush (Some _) lo uo d =>
      if ts && negb lo then (l, RBool false) else (l ++ [d], RBool (negb ts || uo))
  | OpPop lo _ =>
      if ts && negb lo then (l, RPop None)
      else (tail l, RPop (head l))
  | OpSize _ _ => (l, RSize (Z.of_nat (length l)))
  end.

Fixpoint effect_run (ts : bool) (ops : list queue_op) (l : list A)
    : list A * list queue_res :=
  match ops with
  | [] => (l, [])
  | op :: ops' =>
      let '(l', r) := call_effect ts op l in
      let '(l'', rs) := effect_run ts ops' l' in (l'', r :: rs)
  end.

(** The contract of [queue.h]: a FIFO on which a call takes effect ([ok]) or
    fails; the result of a push tells which. *)
Definition fifo_step (ok : bool) (op : queue_op) (l : list A) : list A * queue_res :=
  match op with
  | OpPush _ _ _ d => if ok then (l ++ [d], RBool true) else (l, RBool false)
  | OpPop _ _ => if ok then (tail l, RPop (head l)) else (l, RPop None)
  | OpSize _ _ => (l, RSize (Z.of_nat (length l)))
  end.

(** A call fails just if there is no memory or the lock cannot be taken. *)
Definition takes_effect (ts : bool) (op : queue_op) : bool :=
  match op with
  | OpPush e lo _ _ => bool_decide (is_Some e) && (negb ts || lo)
  | OpPop lo _ | OpSize lo _ => negb ts || lo
  end.

Fixpoint fifo_run (ts : bool) (ops : list queue_op) (l : list A) : list A * list queue_res :=
  match ops with
  | [] => (l, [])
  | op :: ops' =>
      let '(l', r) := fifo_step (takes_effect ts op) op l in
      let '(l'', rs) := fifo_run ts ops' l' in (l'', r :: rs)
  end.

(** The mutex is released: POSIX has no error for a thread that holds it. *)
Definition unlocks (op : queue_op) : bool :=
  match op with OpPush _ _ uo _ | OpPop _ uo | OpSize _ uo => uo end.

Fixpoint queue_run (ops : list queue_op) (m : qmem) : option (qmem * list queue_res) :=
  match ops with
  | [] => Some (m, [])
  | op :: ops' =>
      '(m', r) ← queue_step op m;
      '(m'', rs) ← queue_run ops' m'; Some (m'', r :: rs)
  end.

(** What [malloc] guarantees, and a queue that does not fill the address
    space: each entry it returns is not in use, and the size stays below
    [SIZE_MAX]. *)
Definition op_fresh (op : queue_op) (m : qmem) : Prop :=
  match op with
  | OpPush (Some a) _ _ _ => heap m !! a = None /\ size (queue m) < 2 ^ 64 - 1
  | _ => True
  end.

Fixpoint ops_fresh (ops : list queue_op) (m : qmem) : Prop :=
  match ops with
  | [] => True
  | op :: ops' => op_fresh op m /\
      forall m' r, queue_step op m = Some (m', r) -> ops_fresh ops' m'
  end.

(** ** Lemmas on chains *)

Lemma chain_empty : chain ∅ [].
Proof.
  split; [constructor| |done]. intros a. rewrite lookup_empty. split.
  - intros [? ?]. done.
  - intros H. by apply not_elem_of_nil in H.
Qed.

Lemma prev_of_app nodes k i :
  (i <= length nodes)%nat -> prev_of (nodes ++ k) i = prev_of nodes i.
Proof. destruct i as [|j]; intros H; [done|]. cbn. by rewrite lookup_app_l by lia. Qed.

Lemma last_next nodes i :
  i = (length nodes - 1)%nat -> next_of nodes i = None.
Proof. intros ->. unfold next_of. by rewrite lookup_ge_None_2 by lia. Qed.

Lemma chain_addr h nodes i a x : chain h nodes -> nodes !! i = Some (a, x) -> a ∈ nodes.*1.
Proof.
  intros _ H. apply list_elem_of_lookup. exists i. by rewrite list_lookup_fmap, H.
Qed.

Lemma chain_inj h nodes i j a x y :
  chain h nodes -> nodes !! i = Some (a, x) -> nodes !! j = Some (a, y) -> i = j.
Proof.
  intros Hc Hi Hj. eapply (NoDup_lookup nodes.*1); [apply Hc| |];
    rewrite list_lookup_fmap, ?Hi, ?Hj; done.
Qed.

(** Removing the head. *)
Lemma chain_pop h a x nodes :
  chain h ((a, x) :: nodes) ->
  exists h', match nodes with
             | [] => h' = h
             | (b, _) :: _ => store (set_prev None) (Some b) h = Some h'
             end
    /\ h' !! a = Some (mkEntry None (fst <$> head nodes) x)
    /\ chain (delete a h') nodes.
Proof.
  intros Hc. pose proof (chain_links _ _ Hc 0 a x eq_refl) as Ha. cbn in Ha.
  pose proof (chain_nodup _ _ Hc) as Hnd. cbn in Hnd. apply NoDup_cons in Hnd as [Hna Hnd].
  destruct nodes as [|[b y] nodes].
  - exists h. split; [done|]. split; [exact Ha|]. split; [constructor| |done].
    intros c. destruct (decide (c = a)) as [->|Hne].
    + rewrite lookup_delete_eq. split; [by intros []|done].
    + rewrite lookup_delete_ne by done. rewrite (chain_dom _ _ Hc). cbn.
      rewrite elem_of_cons. naive_solver.
  - pose proof (chain_links _ _ Hc 1 b y eq_refl) as Hb. cbn in Hb.
    assert (a <> b) by (intros ->; apply Hna; cbn; apply elem_of_cons; by left).
    unfold store. cbn. rewrite Hb. cbn. eexists. split; [done|].
    split; [by rewrite lookup_insert_ne|]. split; [done| |].
    + intros c. destruct (decide (c = a)) as [->|Hca]; [rewrite lookup_delete_eq; split; [by intros []|done]|].
      rewrite lookup_delete_ne by done. destruct (decide (c = b)) as [->|Hcb].
      * rewrite lookup_insert_eq. cbn. rewrite elem_of_cons. naive_solver.
      * rewrite lookup_insert_ne by done. rewrite (chain_dom _ _ Hc). cbn.
        rewrite !elem_of_cons. naive_solver.
    + intros i c z Hi. pose proof (chain_links _ _ Hc (S i) c z Hi) as Hl.
      assert (c <> a).
      { intros ->. apply Hna. apply list_elem_of_lookup. exists i. by rewrite list_lookup_fmap, Hi. }
      rewrite lookup_delete_ne by done. destruct i as [|i].
      * cbn in Hi. injection Hi as <- <-. rewrite lookup_insert_eq. done.
      * rewrite lookup_insert_ne; [exact Hl|]. intros <-.
        pose proof (chain_inj _ _ 1%nat (S (S i)) b y z Hc eq_refl Hi). lia.
Qed.

(** Appending a fresh entry: the link from the old last entry, if any. *)
Definition relink (nodes : list (positive * A)) (a : positive)
    (h : gmap positive Queue_Entry) : option (gmap positive Queue_Entry) :=
  match list.last nodes with
  | None => Some h
  | Some (b, _) => store (set_next (Some a)) (Some b) h
  end.

Lemma last_lookup' (nodes : list (positive * A)) b y :
  list.last nodes = Some (b, y) -> exists k, nodes = k ++ [(b, y)].
Proof. apply last_Some. Qed.

Lemma chain_fresh h nodes a : chain h nodes -> h !! a = None -> a ∉ nodes.*1.
Proof. intros Hc Ha Hin. apply (chain_dom _ _ Hc) in Hin. rewrite Ha in Hin. by destruct Hin. Qed.

Lemma chain_push h nodes a d :
  chain h nodes -> h !! a = None ->
  exists h', relink nodes a (<[a := mkEntry (fst <$> list.last nodes) None d]> h) = Some h'
    /\ chain h' (nodes ++ [(a, d)]).
Proof.
  intros Hc Ha. pose proof (chain_fresh _ _ _ Hc Ha) as Hf. unfold relink.
  assert (Hnd : NoDup (nodes ++ [(a, d)]).*1).
  { rewrite fmap_app. apply NoDup_app. split; [apply Hc|]. split; [|apply NoDup_singleton].
    intros b Hb Hb'. cbn in Hb'. apply list_elem_of_singleton in Hb'. by subst. }
  assert (Hdom : forall h' : gmap positive Queue_Entry,
    (forall c, is_Some (h' !! c) <-> c = a \/ is_Some (h !! c)) ->
    forall c, is_Some (h' !! c) <-> c ∈ (nodes ++ [(a, d)]).*1).
  { intros h' E c. rewrite E, (chain_dom _ _ Hc), fmap_app, elem_of_app. cbn.
    rewrite list_elem_of_singleton. tauto. }
  destruct (list.last nodes) as [[b y]|] eqn:El; cbn.
  - apply last_lookup' in El as [k ->].
    pose proof (chain_links _ _ Hc (length k) b y) as Hb.
    rewrite lookup_app_r, Nat.sub_diag in Hb by lia. specialize (Hb eq_refl).
    rewrite last_next in Hb by (rewrite length_app; cbn; lia).
    assert (Hab : a <> b) by (intros ->; congruence).
    rewrite lookup_insert_ne, Hb by done. cbn. eexists. split; [done|]. split; [done| |].
    + apply Hdom. intros c. rewrite !lookup_insert_is_Some'.
      assert (b = c -> is_Some (h !! c)) by (intros <-; rewrite Hb; eauto).
      intuition congruence.
    + intros i c z Hi. destruct (decide (i = length (k ++ [(b, y)]))) as [->|Hne].
      * rewrite lookup_app_r, Nat.sub_diag in Hi by lia. injection Hi as <- <-.
        rewrite lookup_insert_ne, lookup_insert_eq by done. do 2 f_equal.
        -- rewrite length_app, Nat.add_1_r. cbn.
           rewrite <- app_assoc, lookup_app_r, Nat.sub_diag by lia. done.
        -- symmetry. apply last_next. rewrite !length_app. cbn. lia.
      * assert (Hlt : (i < length (k ++ [(b, y)]))%nat).
        { apply lookup_lt_Some in Hi. rewrite length_app in Hi. cbn in Hi. lia. }
        rewrite lookup_app_l in Hi by done.
        pose proof (chain_links _ _ Hc _ _ _ Hi) as Hl.
        destruct (decide (c = b)) as [->|Hcb].
        -- rewrite lookup_insert_eq. rewrite Hb in Hl. injection Hl as E1 E2 <-.
           assert (i = length k) as ->.
           { eapply (chain_inj _ _ _ _ b); [exact Hc|exact Hi|].
             rewrite lookup_app_r, Nat.sub_diag by lia. done. }
           unfold set_next. cbn [prev next data]. do 2 f_equal; [by rewrite (prev_of_app (k ++ _)) by lia|].
           unfold next_of. rewrite <- app_assoc, lookup_app_r by lia.
           replace (S (length k) - length k)%nat with 1%nat by lia. done.
        -- assert (c <> a) by (intros ->; congruence).
           rewrite !lookup_insert_ne by done. rewrite Hl.
           do 2 f_equal; [by rewrite (prev_of_app (k ++ _)) by lia|]. unfold next_of.
           assert (i <> length k).
           { intros ->. rewrite lookup_app_r, Nat.sub_diag in Hi by lia. by injection Hi as <- _. }
           rewrite (lookup_app_l (k ++ _)); [done|]. rewrite length_app in *. cbn in *. lia.
  - apply last_None in El as ->. cbn. eexists. split; [done|]. split; [done| |].
    + apply Hdom. intros c. rewrite lookup_insert_is_Some'. intuition congruence.
    + intros [|i] c z Hi; [|by destruct i]. cbn in Hi. injection Hi as <- <-.
      by rewrite lookup_insert_eq.
Qed.

(** ** Each call refines its list counterpart *)

Lemma lock_fails ok q : negb (Queue_lock ok q) = thread_safe q && negb ok.
Proof. unfold Queue_lock. by destruct (thread_safe q). Qed.

Lemma trypop_refines lo uo m l :
  queue_rep m l ->
  exists m', queue_step (OpPop lo uo) m
             = Some (m', snd (call_effect (thread_safe (queue m)) (OpPop lo uo) l))
    /\ queue_rep m' (fst (call_effect (thread_safe (queue m)) (OpPop lo uo) l))
    /\ thread_safe (queue m') = thread_safe (queue m).
Proof.
  intros Hrep. pose proof Hrep as (nodes & -> & Hc & Hf & Hl & Hs & Hu).
  unfold queue_step, Queue_trypop, call_effect. rewrite lock_fails.
  destruct (thread_safe (queue m) && negb lo); [by exists m|].
  destruct nodes as [|[a x] nodes]; cbn in Hf; rewrite Hf; [by exists m|].
  destruct (chain_pop _ _ _ _ Hc) as (h' & Hst & Ha & Hc').
  pose proof (chain_links _ _ Hc 0%nat a x eq_refl) as Ha0. unfold load. cbn -[store] in Ha0 |- *.
  rewrite Ha0. cbn -[store].
  assert (Hn : size_t (size (queue m) - 1) = Z.of_nat (length nodes)).
  { unfold size_t. rewrite wrap_small; unfold uint_ok in *; cbn [length] in Hs; lia. }
  assert (Hu' : uint_ok 64 (Z.of_nat (length nodes))) by (unfold uint_ok in *; cbn [length] in Hs; lia).
  destruct nodes as [|[b y] nodes]; cbn -[store].
  - subst h'. rewrite Ha. cbn. eexists. split; [done|]. split; [|done].
    exists []. rewrite Hn. done.
  - rewrite Hst. cbn. rewrite Ha. cbn. eexists. split; [done|]. split; [|done].
    exists ((b, y) :: nodes). cbn. rewrite Hn. split_and!; done.
Qed.

Lemma push_refines e lo uo d m l :
  queue_rep m l -> op_fresh (OpPush e lo uo d) m ->
  exists m', queue_step (OpPush e lo uo d) m
             = Some (m', snd (call_effect (thread_safe (queue m)) (OpPush e lo uo d) l))
    /\ queue_rep m' (fst (call_effect (thread_safe (queue m)) (OpPush e lo uo d) l))
    /\ thread_safe (queue m') = thread_safe (queue m).
Proof.
  intros Hrep Hfr. destruct e as [a|]; [|by exists m]. destruct Hfr as [Ha Hmax].
  pose proof Hrep as (nodes & -> & Hc & Hf & Hl & Hs & Hu).
  unfold queue_step, Queue_push, call_effect. rewrite lock_fails.
  destruct (thread_safe (queue m) && negb lo).
  { cbn. rewrite lookup_insert_eq. cbn. eexists. split; [done|].
    rewrite delete_insert_id by done. by destruct m. }
  destruct (chain_push _ _ _ d Hc Ha) as (h' & Hst & Hc').
  assert (Est : store (set_prev (last (queue m))) (Some a) (<[a:=mkEntry None None d]> (heap m))
    = Some (<[a := mkEntry (last (queue m)) None d]> (heap m))).
  { cbn. rewrite lookup_insert_eq. cbn. by rewrite insert_insert_eq. }
  rewrite Est. cbn -[store]. rewrite Hl in *. unfold relink in Hst.
  assert (Hn : size_t (size (queue m) + 1) = Z.of_nat (length (nodes ++ [(a, d)]))).
  { rewrite length_app. cbn. unfold size_t. rewrite wrap_small; unfold uint_ok in *; lia. }
  assert (Hlast : list.last (nodes ++ [(a, d)]) = Some (a, d)) by apply last_snoc.
  assert (Hm2 : (nodes ++ [(a, d)]).*2 = nodes.*2 ++ [d]) by (by rewrite fmap_app).
  assert (Hu' : uint_ok 64 (Z.of_nat (length (nodes ++ [(a, d)]))))
    by (unfold uint_ok in *; rewrite length_app; cbn; lia).
  assert (Hun : forall q, Queue_unlock uo q = negb (thread_safe q) || uo)
    by (intros q; unfold Queue_unlock; by destruct (thread_safe q)).
  destruct (list.last nodes) as [[b y]|] eqn:El; cbn -[store] in *.
  - rewrite Hst. cbn. rewrite Hun. eexists. split; [done|]. split; [|done].
    exists (nodes ++ [(a, d)]). cbn. rewrite Hlast, Hn, Hm2, Hf. split_and!; try done.
    by destruct nodes.
  - rewrite Hun. injection Hst as <-. eexists. split; [done|]. split; [|done].
    apply last_None in El as ->. exists [(a, d)]. cbn in *. rewrite Hn. split_and!; done.
Qed.

Lemma queue_step_refines op m l :
  queue_rep m l -> op_fresh op m ->
  exists m', queue_step op m = Some (m', snd (call_effect (thread_safe (queue m)) op l))
    /\ queue_rep m' (fst (call_effect (thread_safe (queue m)) op l))
    /\ thread_safe (queue m') = thread_safe (queue m).
Proof.
  intros Hrep Hfr. destruct op.
  - by apply push_refines.
  - by apply trypop_refines.
  - exists m. split; [|done]. destruct Hrep as (nodes & -> & _ & _ & _ & Hs & _).
    cbn. unfold Queue_size. by rewrite Hs, length_fmap.
Qed.

Lemma queue_rep_invariants m l : queue_rep m l -> QUEUE_INVARIANTS m.
Proof.
  intros (nodes & -> & Hc & Hf & Hl & Hs & _). unfold QUEUE_INVARIANTS.
  destruct (Z.eqb_spec (size (queue m)) 0) as [E|E].
  - assert (nodes = []) as -> by (apply nil_length_inv; lia). done.
  - destruct nodes as [|[a x] nodes] using rev_ind; [done|clear IHnodes].
    rewrite last_snoc in Hl. rewrite Hl.
    pose proof (chain_links _ _ Hc (length nodes) a x) as Ha.
    rewrite lookup_app_r, Nat.sub_diag in Ha by lia. specialize (Ha eq_refl).
    rewrite last_next in Ha by (rewrite length_app; cbn; lia).
    destruct (nodes ++ [(a, x)]) as [|[b y] k] eqn:El; [by destruct nodes|].
    pose proof (chain_links _ _ Hc 0%nat b y eq_refl) as Hb. cbn in Hf. rewrite Hf.
    unfold load. cbn. rewrite Hb, Ha. by do 2 eexists.
Qed.
Lemma queue_run_effect ops : forall m l,
  queue_rep m l -> ops_fresh ops m ->
  exists m', queue_run ops m = Some (m', snd (effect_run (thread_safe (queue m)) ops l))
    /\ queue_rep m' (fst (effect_run (thread_safe (queue m)) ops l)).
Proof.
  induction ops as [|op ops IH]; intros m l Hrep Hfr; [by exists m|].
  destruct Hfr as [Hop Hrest].
  destruct (queue_step_refines op m l Hrep Hop) as (m1 & E1 & Hrep1 & Hts).
  destruct (IH m1 _ Hrep1 (Hrest _ _ E1)) as (m2 & E2 & Hrep2). rewrite Hts in *.
  cbn [queue_run effect_run]. destruct (call_effect (thread_safe (queue m)) op l) as [l' r]. cbn in *.
  rewrite E1. cbn. rewrite E2. cbn. destruct (effect_run _ ops l') as [l'' rs]. by exists m2.
Qed.

Lemma queue_new_rep mo io ts m : Queue_new mo io ts = Some m -> queue_rep m [] /\ thread_safe (queue m) = ts.
Proof.
  unfold Queue_new. destruct mo, ts, io; cbn; intros [= <-]; (split; [|done]);
    exists []; cbn; repeat split; try done; apply chain_empty.
Qed.

Lemma effect_is_fifo ts ops : forall l, forallb unlocks ops = true -> effect_run ts ops l = fifo_run ts ops l.
Proof.
  induction ops as [|op ops IH]; intros l H; [done|]. cbn in H. apply andb_prop in H as [Hu H].
  cbn [effect_run fifo_run]. assert (E : call_effect ts op l = fifo_step (takes_effect ts op) op l).
  { destruct op as [[a|] lo uo d|lo uo|lo uo]; cbn in *; subst; destruct ts, lo; done. }
  rewrite E. destruct (fifo_step _ op l) as [l' r]. by rewrite IH.
Qed.

(** C33: the queue is the FIFO that [queue.h] describes. From a freshly created
    queue, every sequence of calls, with any combination of failing [malloc]s
    and locks and with unlocks that succeed, runs without touching memory that
    is not allocated, returns exactly what the same calls return on a list, where
    a push says whether it took effect and a call fails just if there is no
    memory or no lock, and leaves allocated exactly the entries still queued,
    with [QUEUE_INVARIANTS] true. *)
Theorem queue_refines_fifo mo io ts m ops :
  Queue_new mo io ts = Some m -> ops_fresh ops m -> forallb unlocks ops = true ->
  exists m', queue_run ops m = Some (m', snd (fifo_run ts ops []))
    /\ queue_rep m' (fst (fifo_run ts ops []))
    /\ QUEUE_INVARIANTS m'.
Proof.
  intros Hnew Hfr Hu. destruct (queue_new_rep _ _ _ _ Hnew) as [Hrep <-].
  destruct (queue_run_effect ops m [] Hrep Hfr) as (m' & E & Hrep'). rewrite effect_is_fifo in E, Hrep' by done.
  exists m'. split_and!; [done..|by eapply queue_rep_invariants].
Qed.
End queue.

Arguments entry_ptr : clear implicits.
Arguments Queue_Entry A : clear implicits.
Arguments queue_op A : clear implicits.
Arguments queue_res A : clear implicits.
Arguments qmem A : clear implicits.

(** Three pushes, the second without the lock, and three pops. *)
Definition sample_ops : list (queue_op Z) :=
  [OpPush (Some 1%positive) true true 10; OpPush (Some 2%positive) false true 11;
   OpPush (Some 2%positive) true true 12; OpPop true true; OpPop true true; OpPop true true].

Lemma queue_refines_fifo_witness :
  exists m', queue_run sample_ops (mkMem ∅ (mkQueue true 0 None None))
             = Some (m', snd (fifo_run true sample_ops []))
    /\ queue_rep m' (fst (fifo_run true sample_ops []))
    /\ QUEUE_INVARIANTS m'.
Proof.
  apply (queue_refines_fifo true true); [done| |done].
  unfold sample_ops.
  repeat (split; [first [exact I | split; vm_compute; reflexivity]|
    let E := fresh in intros ? ? E; vm_compute in E; injection E as <- <-]). exact I.
Defined.

(** When the unlock fails the element is in the queue and the push returns
    [false], against [queue.h]. *)
Example push_unlock_fails :
  snd <$> queue_run [OpPush (Some 1%positive) true false 10; OpPop true true] (mkMem ∅ (mkQueue true 0 None None))
  = Some [RBool false; RPop (Some 10)].
Proof. reflexivity. Qed.
