(* ===== verification/Bag.v ===== *)
(** * The sparse-array bag ([src/lib/util/bag.c])

    An array of pointers with a bitmap of the positions in use, which grows
    and shrinks. Results of allocation and lock calls are arguments. [None]
    as the result of an operation is undefined behaviour (an access outside
    an array) or, in [grow_loop], a loop that does not end. The abstract bag
    is the list of its elements in iteration order. *)

From S2P Require Import Prelude.

Section bag.
Context {A : Type}.

(** ** Data *)

Definition BAG_ALLOC_START : Z := 16.
Definition sizeof_ptr : Z := 8.

(** [uint_fast8_t] is one byte wide. An element of [entries] is [None] when it
    is NULL or indeterminate. *)
Record Bag := mkBag {
  bag_thread_safe : bool;
  entries : list (option A);
  used : list Z;
  last_realloc_automatic : bool;
  allocated_size : Z;
  bag_size : Z }.

Definition set_entries (es : list (option A)) (b : Bag) : Bag :=
  mkBag (bag_thread_safe b) es (used b) (last_realloc_automatic b) (allocated_size b) (bag_size b).

(** ** Bitmap *)

Definition bitmap_size (num_entries : Z) : Z :=
  num_entries / 8 + (if num_entries mod 8 =? 0 then 0 else 1).
Definition _bitmap_index (index : nat) : nat := (index / 8)%nat.
Definition _bitmap_mask (index : nat) : Z :=
  u8 (Z.shiftl 1 (Z.of_nat (index mod 8)%nat)).

Definition bitmap_get (bitmap : list Z) (index : nat) : option bool :=
  e ← bitmap !! _bitmap_index index;
  Some (negb (Z.land e (_bitmap_mask index) =? 0)).
Definition bitmap_set (bitmap : list Z) (index : nat) : option (list Z) :=
  e ← bitmap !! _bitmap_index index;
  Some (<[_bitmap_index index := Z.lor e (_bitmap_mask index)]> bitmap).
Definition bitmap_clear (bitmap : list Z) (index : nat) : option (list Z) :=
  e ← bitmap !! _bitmap_index index;
  Some (<[_bitmap_index index := Z.land e (Z.lnot (_bitmap_mask index))]> bitmap).

(** ** Creation and locks *)

(** Outcomes of the three [calloc]s and of [pthread_rwlock_init]. *)
Definition Bag_new (m1 m2 m3 init_ok ts : bool) : option Bag :=
  if negb m1 then None
  else if negb m2 then None
  else if negb m3 then None
  else if ts && negb init_ok then None
  else Some (mkBag ts (replicate (Z.to_nat BAG_ALLOC_START) None)
               (replicate (Z.to_nat (bitmap_size BAG_ALLOC_START)) 0)
               true BAG_ALLOC_START 0).

Definition Bag_wrlock (ok : bool) (b : Bag) : bool :=
  if bag_thread_safe b then ok else true.
Definition Bag_rdlock (ok : bool) (b : Bag) : bool :=
  if bag_thread_safe b then ok else true.
Definition Bag_unlock (ok : bool) (b : Bag) : bool :=
  if bag_thread_safe b then ok else true.

Definition Bag_size (rd_ok un_ok : bool) (b : Bag) : Z :=
  let _ := Bag_rdlock rd_ok b in
  let s := bag_size b in
  let _ := Bag_unlock un_ok b in s.

(** ** Reallocation *)

(** [array[i] = e], undefined outside of the array. *)
Definition array_store {B} (i : nat) (e : B) (l : list B) : option (list B) :=
  _ ← l !! i; Some (<[i := e]> l).

(** The copy loop of the shrinking branch, from [index] on with [count]
    positions to go. *)
Fixpoint shrink_loop (b : Bag) (count index new_index : nat)
    (new_entries : list (option A)) (new_used : list Z) (track_index : option nat)
    : option (list (option A) * list Z * option nat) :=
  match count with
  | O => Some (new_entries, new_used, track_index)
  | S count' =>
      u ← bitmap_get (used b) index;
      if u : bool then
        let track' := match track_index with
                      | Some t => if decide (t = index) then Some new_index else track_index
                      | None => None
                      end in
        e ← entries b !! index;
        es ← array_store new_index e new_entries;
        us ← bitmap_set new_used new_index;
        shrink_loop b count' (S index) (S new_index) es us track'
      else shrink_loop b count' (S index) new_index new_entries new_used track_index
  end.

(** [while (grow_to < num_entries) grow_to *= 2;], a [size_t]. *)
Fixpoint grow_loop (fuel : nat) (grow_to num_entries : Z) : option Z :=
  if grow_to <? num_entries then
    match fuel with
    | O => None
    | S fuel' => grow_loop fuel' (size_t (grow_to * 2)) num_entries
    end
  else Some grow_to.

(** Doubling at most 64 times leaves the range of [size_t] (or stays at 0). *)
Definition GROW_FUEL : nat := 64.

(** [realloc] to room for [n] elements; new ones are [fill]. *)
Definition realloc_list {B} (fill : B) (n : nat) (l : list B) : list B :=
  take n l ++ replicate (n - length l) fill.

(** Elements that fit in [n * sizeof(void * )] bytes, a [size_t] product. *)
Definition ptr_capacity (n : Z) : nat := Z.to_nat (size_t (n * sizeof_ptr) / sizeof_ptr).

(** [m1], [m2]: whether the first and the second allocation succeed. The
    result is the bag, [*track_index] and the return value. *)
Definition Bag_realloc (m1 m2 : bool) (b : Bag) (num_entries : Z) (automatic : bool)
    (track_index : option nat) : option (Bag * option nat * bool) :=
  if negb (last_realloc_automatic b) && (num_entries <=? allocated_size b)
  then Some (b, track_index, true)
  else if (num_entries <? allocated_size b / 4) && (BAG_ALLOC_START <? allocated_size b) then
    let half := allocated_size b / 2 in
    let shrink_to := if half <? BAG_ALLOC_START then BAG_ALLOC_START else half in
    if negb m1 then Some (b, track_index, false)
    else if negb m2 then Some (b, track_index, false)
    else
      '(es, us, track') ←
         shrink_loop b (Z.to_nat (allocated_size b)) 0 0
           (replicate (ptr_capacity shrink_to) None)
           (replicate (Z.to_nat (bitmap_size shrink_to)) 0) track_index;
      Some (mkBag (bag_thread_safe b) es us automatic shrink_to (bag_size b), track', true)
  else if allocated_size b <? num_entries then
    grow_to ← grow_loop GROW_FUEL (allocated_size b) num_entries;
    if negb m1 then Some (b, track_index, false)
    else
      let b1 := set_entries (realloc_list None (ptr_capacity grow_to) (entries b)) b in
      if bitmap_size (allocated_size b) <? bitmap_size grow_to then
        if negb m2 then Some (b1, track_index, false)
        else
          let keep := Z.to_nat (bitmap_size (allocated_size b)) in
          let us := take keep (realloc_list 0 (Z.to_nat (bitmap_size grow_to)) (used b))
                    ++ replicate (Z.to_nat (bitmap_size grow_to) - keep) 0 in
          Some (mkBag (bag_thread_safe b) (entries b1) us automatic grow_to (bag_size b),
                track_index, true)
      else Some (mkBag (bag_thread_safe b) (entries b1) (used b) automatic grow_to (bag_size b),
                 track_index, true)
  else Some (b, track_index, true).

Definition Bag_reserve (wr_ok m1 m2 un_ok : bool) (b : Bag) (num_entries : Z)
    : option (Bag * bool) :=
  if negb (Bag_wrlock wr_ok b) then Some (b, false)
  else if num_entries <=? allocated_size b then Some (b, Bag_unlock un_ok b)
  else
    '(b', _, ret) ← Bag_realloc m1 m2 b num_entries false None;
    Some (b', Bag_unlock un_ok b' && ret).

(** ** Adding *)

(** First position from [index] on, among [count], whose bit is [v]. *)
Fixpoint find_bit (v : bool) (us : list Z) (count index : nat) : option (option nat) :=
  match count with
  | O => Some None
  | S count' =>
      u ← bitmap_get us index;
      if Bool.eqb u v then Some (Some index) else find_bit v us count' (S index)
  end.

Definition Bag_add (wr_ok m1 m2 un_ok : bool) (b : Bag) (data : A) : option (Bag * bool) :=
  if negb (Bag_wrlock wr_ok b) then Some (b, false)
  else
    '(b1, _, ok) ← Bag_realloc m1 m2 b (size_t (bag_size b + 1)) true None;
    if negb ok then Some (b1, false)
    else
      i ← find_bit false (used b1) (Z.to_nat (allocated_size b1)) 0;
      match i with
      | Some i =>
          us ← bitmap_set (used b1) i;
          es ← array_store i (Some data) (entries b1);
          let b2 := mkBag (bag_thread_safe b1) es us (last_realloc_automatic b1)
                      (allocated_size b1) (size_t (bag_size b1 + 1)) in
          Some (b2, Bag_unlock un_ok b2)
      | None => Some (b1, false)
      end.

(** ** Iteration. An iterator is NULL or a pointer into [entries], here the
    index it has there. *)

Definition Bag_begin (b : Bag) : option (option nat) :=
  find_bit true (used b) (Z.to_nat (allocated_size b)) 0.

Definition Bag_iterator_next (b : Bag) (iterator : option nat) : option (option nat) :=
  match iterator with
  | None => Some None
  | Some i => find_bit true (used b) (Z.to_nat (allocated_size b) - S i) (S i)
  end.

(** Dereferencing NULL or an indeterminate entry is undefined. *)
Definition Bag_get (b : Bag) (iterator : option nat) : option A :=
  i ← iterator; e ← entries b !! i; e.

Definition Bag_erase (m1 m2 : bool) (b : Bag) (iterator : option nat)
    : option (Bag * option nat) :=
  match iterator with
  | None => Some (b, None)
  | Some index =>
      us ← bitmap_clear (used b) index;
      let b1 := mkBag (bag_thread_safe b) (entries b) us (last_realloc_automatic b)
                  (allocated_size b) (size_t (bag_size b - 1)) in
      i ← find_bit true us (Z.to_nat (allocated_size b) - index) index;
      '(b2, track, _) ← Bag_realloc m1 m2 b1 (bag_size b1) true i;
      Some (b2, track)
  end.

(** ** Abstraction *)

(** [slots] is the array with the positions not in use blanked out. *)
Record bag_rep (b : Bag) (slots : list (option A)) : Prop := {
  rep_alloc : allocated_size b = Z.of_nat (length slots);
  rep_pow : exists k, 0 <= k <= 56 /\ allocated_size b = BAG_ALLOC_START * 2 ^ k;
  rep_entries : (length slots <= length (entries b))%nat;
  rep_used_len : length (used b) = Z.to_nat (bitmap_size (allocated_size b));
  rep_bits : forall i x, slots !! i = Some x -> bitmap_get (used b) i = Some (bool_decide (is_Some x));
  rep_data : forall i x, slots !! i = Some (Some x) -> entries b !! i = Some (Some x);
  rep_size : bag_size b = Z.of_nat (length (omap id slots)) }.

(** The elements in iteration order. *)
Definition contents (slots : list (option A)) : list A := omap id slots.

(** [it] stands between the elements [pre] and [post]: it is at the first of
    [post], or NULL when there is none. *)
Definition at_iter (slots : list (option A)) (it : option nat) (pre post : list A) : Prop :=
  match it with
  | None => pre = contents slots /\ post = []
  | Some i => is_Some (slots !! i ≫= id) /\ pre = contents (take i slots)
              /\ post = contents (drop i slots)
  end.

(** The loop clients write: [for (it = Bag_begin(b); it; it = next) ... Bag_get]. *)
Fixpoint iterate_from (fuel : nat) (b : Bag) (it : option nat) : option (list A) :=
  match it with
  | None => Some []
  | Some _ =>
      match fuel with
      | O => None
      | S fuel' => x ← Bag_get b it; it' ← Bag_iterator_next b it;
                   xs ← iterate_from fuel' b it'; Some (x :: xs)
      end
  end.
Definition iterate (b : Bag) : option (list A) :=
  it ← Bag_begin b; iterate_from (S (Z.to_nat (bag_size b))) b it.

(** The loop that removes the elements [p] selects while it iterates; [ms]
    gives the outcomes of the allocations. *)
Fixpoint remove_from (fuel : nat) (ms : nat -> bool * bool) (p : A -> bool) (b : Bag)
    (it : option nat) : option Bag :=
  match it with
  | None => Some b
  | Some _ =>
      match fuel with
      | O => None
      | S fuel' =>
          x ← Bag_get b it;
          if p x then
            '(b', it') ← Bag_erase (fst (ms fuel')) (snd (ms fuel')) b it;
            remove_from fuel' ms p b' it'
          else it' ← Bag_iterator_next b it; remove_from fuel' ms p b it'
      end
  end.

(** ** Bitmap lemmas *)

Lemma mask_pow i : _bitmap_mask i = 2 ^ Z.of_nat (i mod 8).
Proof.
  unfold _bitmap_mask, u8. rewrite Z.shiftl_1_l, wrap_small; [done|].
  pose proof (Nat.mod_upper_bound i 8). split; [lia|]. apply Z.pow_lt_mono_r; lia.
Qed.

Lemma land_pow_testbit e k : 0 <= k -> negb (Z.land e (2 ^ k) =? 0) = Z.testbit e k.
Proof.
  intros Hk. destruct (Z.testbit e k) eqn:E.
  - apply negb_true_iff, Z.eqb_neq. intros H. apply (f_equal (fun z => Z.testbit z k)) in H.
    by rewrite Z.land_spec, E, Z.pow2_bits_true, Z.bits_0 in H.
  - apply negb_false_iff, Z.eqb_eq, Z.bits_inj'. intros j Hj. rewrite Z.land_spec, Z.bits_0.
    destruct (decide (j = k)) as [->|Hne]; [by rewrite E|].
    by rewrite Z.pow2_bits_false, andb_false_r by lia.
Qed.

Lemma bitmap_get_bit us i :
  bitmap_get us i = (fun e => Z.testbit e (Z.of_nat (i mod 8))) <$> us !! (i / 8)%nat.
Proof.
  unfold bitmap_get, _bitmap_index. destruct (us !! _) as [e|]; [|done]. cbn.
  by rewrite mask_pow, land_pow_testbit by lia.
Qed.

Lemma same_cell i j : (i / 8 = j / 8)%nat -> (i mod 8 = j mod 8)%nat -> i = j.
Proof. intros Hd Hm. rewrite (Nat.div_mod i 8), (Nat.div_mod j 8) by lia. lia. Qed.

Lemma bitmap_set_spec us i b0 :
  bitmap_get us i = Some b0 ->
  exists us', bitmap_set us i = Some us' /\ length us' = length us
    /\ forall j, bitmap_get us' j = if decide (j = i) then Some true else bitmap_get us j.
Proof.
  rewrite bitmap_get_bit. unfold bitmap_set, _bitmap_index. intros H.
  destruct (us !! (i / 8)%nat) as [e|] eqn:Ee; [|done]. cbn. eexists. split; [done|].
  split; [apply length_insert|]. intros j. rewrite !bitmap_get_bit, mask_pow.
  pose proof (lookup_lt_Some _ _ _ Ee).
  destruct (decide (i / 8 = j / 8)%nat) as [Hc|Hc].
  - rewrite <- Hc, list_lookup_insert_eq, Ee by done. cbn. rewrite Z.lor_spec.
    destruct (decide (j = i)) as [->|Hne].
    + by rewrite Z.pow2_bits_true, orb_true_r by lia.
    + rewrite Z.pow2_bits_false, orb_false_r; [done|]. intros E. apply Hne, same_cell; [done|].
      by apply Nat2Z.inj.
  - rewrite list_lookup_insert_ne by done. by rewrite decide_False by (by intros ->).
Qed.

Lemma bitmap_clear_spec us i b0 :
  bitmap_get us i = Some b0 ->
  exists us', bitmap_clear us i = Some us' /\ length us' = length us
    /\ forall j, bitmap_get us' j = if decide (j = i) then Some false else bitmap_get us j.
Proof.
  rewrite bitmap_get_bit. unfold bitmap_clear, _bitmap_index. intros H.
  destruct (us !! (i / 8)%nat) as [e|] eqn:Ee; [|done]. cbn. eexists. split; [done|].
  split; [apply length_insert|]. intros j. rewrite !bitmap_get_bit, mask_pow.
  pose proof (lookup_lt_Some _ _ _ Ee).
  destruct (decide (i / 8 = j / 8)%nat) as [Hc|Hc].
  - rewrite <- Hc, list_lookup_insert_eq, Ee by done. cbn. rewrite Z.land_spec, Z.lnot_spec by lia.
    destruct (decide (j = i)) as [->|Hne].
    + by rewrite Z.pow2_bits_true, andb_false_r by lia.
    + rewrite Z.pow2_bits_false, andb_true_r; [done|]. intros E. apply Hne, same_cell; [done|].
      by apply Nat2Z.inj.
  - rewrite list_lookup_insert_ne by done. by rewrite decide_False by (by intros ->).
Qed.

Lemma bitmap_get_zero n i : (i < 8 * n)%nat -> bitmap_get (replicate n 0) i = Some false.
Proof.
  intros H. rewrite bitmap_get_bit, lookup_replicate_2; [by cbn; rewrite Z.bits_0|].
  apply Nat.Div0.div_lt_upper_bound. lia.
Qed.

Lemma bitmap_get_app us vs i :
  (i < 8 * length us)%nat -> bitmap_get (us ++ vs) i = bitmap_get us i.
Proof.
  intros H. rewrite !bitmap_get_bit, lookup_app_l; [done|].
  apply Nat.Div0.div_lt_upper_bound. lia.
Qed.

Lemma bitmap_get_app_zero us n i :
  (8 * length us <= i < 8 * (length us + n))%nat ->
  bitmap_get (us ++ replicate n 0) i = Some false.
Proof.
  intros H. assert (length us <= i / 8)%nat by (apply Nat.div_le_lower_bound; lia).
  rewrite bitmap_get_bit, lookup_app_r, lookup_replicate_2; [by cbn; rewrite Z.bits_0| |done].
  assert (i / 8 < length us + n)%nat by (apply Nat.Div0.div_lt_upper_bound; lia). lia.
Qed.

(** ** Facts of a represented bag *)

Lemma pow16_facts k : 0 <= k ->
  let a := BAG_ALLOC_START * 2 ^ k in
  16 <= a /\ a mod 8 = 0 /\ bitmap_size a * 8 = a.
Proof.
  intros Hk a. subst a. unfold BAG_ALLOC_START, bitmap_size. pose proof (Z.pow_pos_nonneg 2 k).
  assert (E : (16 * 2 ^ k) mod 8 = 0).
  { replace (16 * 2 ^ k) with (2 * 2 ^ k * 8) by lia. apply Z.mod_mul. lia. }
  rewrite E. split_and!; [lia|done|]. cbn.
  replace (16 * 2 ^ k) with (2 * 2 ^ k * 8) by lia. rewrite Z.div_mul; lia.
Qed.

Lemma rep_bitmap_cap b slots : bag_rep b slots -> (8 * length (used b) = length slots)%nat.
Proof.
  intros H. destruct (rep_pow _ _ H) as (k & Hk & E). rewrite (rep_used_len _ _ H).
  pose proof (rep_alloc _ _ H). destruct (pow16_facts k) as (H1 & _ & H2); [lia|]. rewrite <- E in *. lia.
Qed.

Lemma rep_alloc_bound b slots : bag_rep b slots -> 16 <= allocated_size b <= 2 ^ 60.
Proof.
  intros H. destruct (rep_pow _ _ H) as (k & Hk & E). unfold BAG_ALLOC_START in E.
  pose proof (Z.pow_pos_nonneg 2 k). pose proof (Z.pow_le_mono_r 2 k 56). lia.
Qed.

Lemma contents_app s1 s2 : contents (s1 ++ s2) = contents s1 ++ contents s2.
Proof. apply omap_app. Qed.

Lemma contents_none n : contents (replicate n None) = [].
Proof. by induction n. Qed.

Lemma contents_le s : (length (contents s) <= length s)%nat.
Proof. induction s as [|[x|] s IH]; cbn; unfold contents in *; lia. Qed.

Lemma contents_split s i x :
  s !! i = Some x -> contents s = contents (take i s) ++ option_list x ++ contents (drop (S i) s).
Proof.
  intros H. rewrite <- (take_drop_middle s i x H) at 1. rewrite contents_app. by destruct x.
Qed.

Lemma contents_drop s i x :
  s !! i = Some x -> contents (drop i s) = option_list x ++ contents (drop (S i) s).
Proof. intros H. rewrite (drop_S _ _ _ H). by destruct x. Qed.

Lemma contents_take s i x :
  s !! i = Some x -> contents (take (S i) s) = contents (take i s) ++ option_list x.
Proof. intros H. rewrite (take_S_r _ _ _ H), contents_app. by destruct x. Qed.

(** ** Searching the bitmap *)

Definition bits (us : list Z) (slots : list (option A)) : Prop :=
  forall i x, slots !! i = Some x -> bitmap_get us i = Some (bool_decide (is_Some x)).

Lemma find_used_spec us slots count : forall i,
  bits us slots -> (i + count = length slots)%nat ->
  exists it, find_bit true us count i = Some it
    /\ at_iter slots it (contents (take i slots)) (contents (drop i slots)).
Proof.
  induction count as [|count IH]; intros i Hb Hi; cbn [find_bit].
  - exists None. rewrite take_ge, drop_ge by lia. done.
  - destruct (lookup_lt_is_Some_2 slots i) as [x Hx]; [lia|].
    rewrite (Hb _ _ Hx). cbn. destruct x as [x|]; cbn.
    + exists (Some i). split; [done|]. cbn. rewrite Hx. by split; [exists x|].
    + destruct (IH (S i) Hb) as (it & E & Hit); [lia|]. exists it. split; [exact E|].
      rewrite (contents_take _ _ _ Hx), app_nil_r in Hit. by rewrite (contents_drop _ _ _ Hx).
Qed.

Lemma find_free_spec us slots count : forall i,
  bits us slots -> (i + count = length slots)%nat ->
  (exists j, find_bit false us count i = Some (Some j) /\ slots !! j = Some None)
  \/ (find_bit false us count i = Some None /\ length (contents (drop i slots)) = count).
Proof.
  induction count as [|count IH]; intros i Hb Hi; cbn [find_bit].
  - right. by rewrite drop_ge by lia.
  - destruct (lookup_lt_is_Some_2 slots i) as [x Hx]; [lia|].
    rewrite (Hb _ _ Hx). cbn. destruct x as [x|]; cbn; [|left; by exists i].
    rewrite (contents_drop _ _ _ Hx). cbn.
    destruct (IH (S i) Hb) as [(j & E & Hj)|[E Hl]]; [lia|left; by exists j|right; split; [done|lia]].
Qed.

(** ** Reallocation *)

Lemma grow_loop_spec fuel : forall k n,
  0 <= k <= 56 -> 56 - k <= Z.of_nat fuel -> n <= 2 ^ 60 ->
  exists k', k <= k' <= 56 /\ grow_loop fuel (BAG_ALLOC_START * 2 ^ k) n = Some (BAG_ALLOC_START * 2 ^ k')
    /\ n <= BAG_ALLOC_START * 2 ^ k'.
Proof.
  unfold BAG_ALLOC_START.
  induction fuel as [|fuel IH]; intros k n Hk Hf Hn; cbn [grow_loop];
    destruct (Z.ltb_spec (16 * 2 ^ k) n) as [Hlt|Hge].
  - assert (k = 56) as -> by lia. lia.
  - exists k. split_and!; [lia..|done|done].
  - assert (k <> 56) by (intros ->; lia).
    assert (E : size_t (16 * 2 ^ k * 2) = 16 * 2 ^ (k + 1)).
    { unfold size_t. pose proof (Z.pow_le_mono_r 2 k 56). pose proof (Z.pow_pos_nonneg 2 k).
      rewrite wrap_small; [rewrite Z.pow_add_r by lia; lia|unfold uint_ok; lia]. }
    rewrite E. destruct (IH (k + 1) n) as (k' & Hk' & Hg & Hle); [lia..|].
    exists k'. split_and!; [lia..|done|done].
  - exists k. split_and!; [lia..|done|done].
Qed.

Lemma ptr_capacity_id n : 0 <= n <= 2 ^ 60 -> ptr_capacity n = Z.to_nat n.
Proof.
  intros H. unfold ptr_capacity, size_t, sizeof_ptr. rewrite wrap_small by (unfold uint_ok; lia).
  rewrite Z.div_mul by lia. done.
Qed.

(** Where [*track_index] stands once the loop is at [index]. *)
Definition track_at (slots : list (option A)) (t : option nat) (index : nat) : option nat :=
  i ← t; if decide (index <= i)%nat then Some i else Some (length (contents (take i slots))).

Lemma contents_take_le slots i : (length (contents (take i slots)) <= length (contents slots))%nat.
Proof. rewrite <- (take_drop i slots) at 2. rewrite contents_app, length_app. lia. Qed.

Lemma track_at_used slots t i x :
  slots !! i = Some (Some x) ->
  match track_at slots t i with
  | Some t0 => if decide (t0 = i) then Some (length (contents (take i slots)))
               else track_at slots t i
  | None => None
  end = track_at slots t (S i).
Proof.
  intros Hx. unfold track_at. destruct t as [t|]; [|done]. cbn.
  destruct (decide (i <= t)%nat), (decide (S i <= t)%nat); try lia.
  - by rewrite decide_False by lia.
  - assert (t = i) as -> by lia. by rewrite decide_True.
  - assert (length (contents (take t slots)) <= t)%nat.
    { etrans; [apply contents_le|]. rewrite length_take. lia. }
    by rewrite decide_False by lia.
Qed.

Lemma track_at_unused slots t i :
  slots !! i = Some None -> (forall j, t = Some j -> is_Some (slots !! j ≫= id)) ->
  track_at slots t i = track_at slots t (S i).
Proof.
  intros Hx Ht. unfold track_at. destruct t as [t|]; [|done]. cbn.
  destruct (decide (i <= t)%nat), (decide (S i <= t)%nat); try done; try lia.
  assert (t = i) as -> by lia. destruct (Ht i eq_refl) as [y Hy]. by rewrite Hx in Hy.
Qed.

Lemma shrink_loop_spec b slots t cap :
  bits (used b) slots ->
  (forall i x, slots !! i = Some (Some x) -> entries b !! i = Some (Some x)) ->
  (forall j, t = Some j -> is_Some (slots !! j ≫= id)) ->
  (length (contents slots) <= cap)%nat ->
  forall count i ne nu,
  (i + count = length slots)%nat -> length ne = cap ->
  (forall j x, contents (take i slots) !! j = Some x -> ne !! j = Some (Some x)) ->
  (forall j, (j < cap)%nat -> bitmap_get nu j = Some (bool_decide (j < length (contents (take i slots)))%nat)) ->
  exists es us, shrink_loop b count i (length (contents (take i slots))) ne nu (track_at slots t i)
      = Some (es, us, track_at slots t (length slots))
    /\ length es = cap /\ length us = length nu
    /\ (forall j x, contents slots !! j = Some x -> es !! j = Some (Some x))
    /\ (forall j, (j < cap)%nat -> bitmap_get us j = Some (bool_decide (j < length (contents slots))%nat)).
Proof.
  intros Hb Hd Ht Hcap count. induction count as [|count IH]; intros i ne nu Hi Hne Hes Hus.
  - assert (i = length slots) as -> by lia. rewrite firstn_all in *. by exists ne, nu.
  - destruct (lookup_lt_is_Some_2 slots i) as [[x|] Hx]; [lia| |]; cbn [shrink_loop];
      rewrite (Hb _ _ Hx); cbn.
    + rewrite (track_at_used _ _ _ _ Hx), (Hd _ _ Hx). cbn.
      pose proof (contents_take _ _ _ Hx) as Hct. cbn in Hct.
      pose proof (contents_take_le slots (S i)) as Hle. rewrite Hct, length_app in Hle. cbn in Hle.
      set (n := length (contents (take i slots))) in *.
      unfold array_store. destruct (lookup_lt_is_Some_2 ne n) as [y Hy]; [lia|]. rewrite Hy. cbn.
      destruct (bitmap_set_spec nu n false) as (us & -> & Hlu & Hgu).
      { rewrite Hus by lia. by rewrite bool_decide_false by lia. }
      cbn.
      destruct (IH (S i) (<[n:=Some x]> ne) us) as (es' & us' & E & H1 & H2 & H3 & H4).
      * lia.
      * by rewrite length_insert.
      * intros j z. rewrite Hct. intros Hj. apply lookup_snoc_Some in Hj as [[Hj Hz]|[-> <-]].
        -- rewrite list_lookup_insert_ne by (fold n in Hj; lia). by apply Hes.
        -- fold n. by rewrite list_lookup_insert_eq by lia.
      * intros j Hj. rewrite Hgu, Hct, length_app. cbn. fold n.
        destruct (decide (j = n)) as [->|]; [by rewrite bool_decide_true by lia|].
        rewrite Hus by done. fold n. f_equal. apply bool_decide_ext. lia.
      * rewrite Hct, length_app, Nat.add_1_r in E. exists es', us'. fold n in E.
        split_and!; [exact E|done|lia|done|done].
    + pose proof (contents_take _ _ _ Hx) as Hct. rewrite app_nil_r in Hct.
      rewrite (track_at_unused _ _ _ Hx Ht), <- Hct.
      apply IH; rewrite ?Hct; [lia|done..].
Qed.

Lemma contents_some l : contents (Some <$> l) = l.
Proof. induction l as [|x l IH]; [done|]. cbn. f_equal. exact IH. Qed.

(** The array after a shrink: the elements moved to the front. *)
Definition packed (n : nat) (slots : list (option A)) : list (option A) :=
  (Some <$> contents slots) ++ replicate (n - length (contents slots)) None.

Lemma contents_packed n slots : contents (packed n slots) = contents slots.
Proof. unfold packed. by rewrite contents_app, contents_some, contents_none, app_nil_r. Qed.

Lemma packed_lookup n slots i x :
  packed n slots !! i = Some x ->
  (exists y, x = Some y /\ contents slots !! i = Some y /\ (i < length (contents slots))%nat)
  \/ (x = None /\ (length (contents slots) <= i < n)%nat).
Proof.
  unfold packed. intros H. apply lookup_app_Some in H as [H|[Hge H]].
  - left. rewrite list_lookup_fmap in H. destruct (contents slots !! i) as [y|] eqn:E; [|done].
    injection H as <-. exists y. split_and!; [done..|by eapply lookup_lt_Some].
  - rewrite length_fmap in *. apply lookup_replicate in H as [-> Hlt]. right. split; [done|lia].
Qed.

Lemma at_iter_used slots it pre post :
  at_iter slots it pre post -> forall j, it = Some j -> is_Some (slots !! j ≫= id).
Proof. destruct it; [|done]. intros (H & _) j [= <-]. done. Qed.

Lemma at_iter_contents slots it pre post : at_iter slots it pre post -> contents slots = pre ++ post.
Proof.
  destruct it as [i|]; cbn.
  - intros (_ & -> & ->). by rewrite <- contents_app, take_drop.
  - intros (-> & ->). by rewrite app_nil_r.
Qed.

Lemma at_iter_post slots i pre post : at_iter slots (Some i) pre post -> post <> [].
Proof.
  intros ([x Hx] & _ & ->). destruct (slots !! i) as [[y|]|] eqn:E; try done.
  by rewrite (contents_drop _ _ _ E).
Qed.

Lemma at_iter_packed n slots it pre post :
  at_iter slots it pre post ->
  at_iter (packed n slots) (track_at slots it (length slots)) pre post.
Proof.
  intros H. pose proof (at_iter_contents _ _ _ _ H) as Hc. unfold track_at.
  destruct it as [i|]; cbn; [|by rewrite contents_packed].
  pose proof (at_iter_post _ _ _ _ H) as Hne. destruct H as ([x Hx] & -> & Hp).
  assert (Hi : (i < length slots)%nat).
  { destruct (slots !! i) eqn:E; [|done]. by eapply lookup_lt_Some. }
  rewrite decide_False by lia. cbn. unfold packed. rewrite Hc, fmap_app, <- app_assoc.
  set (pre := contents (take i slots)) in *.
  assert (Hl : length pre = length (Some <$> pre)) by (by rewrite length_fmap).
  rewrite take_app_length', drop_app_length', lookup_app_r by lia.
  replace (length pre - length (Some <$> pre))%nat with 0%nat by lia.
  rewrite contents_app, !contents_some, contents_none, app_nil_r.
  split_and!; [|done..]. destruct post as [|y post]; [done|]. by exists y.
Qed.

Definition realloc_ok (b : Bag) (slots : list (option A)) (num_entries : Z) (tr : option nat)
    (r : option (Bag * option nat * bool)) : Prop :=
  exists b' tr' ret slots', r = Some (b', tr', ret) /\ bag_rep b' slots'
    /\ contents slots' = contents slots
    /\ (forall pre post, at_iter slots tr pre post -> at_iter slots' tr' pre post)
    /\ (ret = true -> num_entries <= Z.of_nat (length slots'))
    /\ bag_thread_safe b' = bag_thread_safe b.

Lemma realloc_same b slots n tr ret :
  bag_rep b slots -> (ret = true -> n <= Z.of_nat (length slots)) ->
  realloc_ok b slots n tr (Some (b, tr, ret)).
Proof. intros Hr Hn. by exists b, tr, ret, slots. Qed.

Lemma half_pow a k : a = BAG_ALLOC_START * 2 ^ k -> 0 <= k -> BAG_ALLOC_START < a ->
  exists k', k = k' + 1 /\ 0 <= k' /\ a / 2 = BAG_ALLOC_START * 2 ^ k'.
Proof.
  unfold BAG_ALLOC_START. intros -> Hk Hlt. exists (k - 1).
  assert (k <> 0) by (intros ->; cbn in Hlt; lia).
  assert (E : 2 ^ k = 2 * 2 ^ (k - 1)) by (rewrite <- Z.pow_succ_r by lia; f_equal; lia).
  split_and!; [lia..|]. rewrite E. replace (16 * (2 * 2 ^ (k - 1))) with (16 * 2 ^ (k - 1) * 2) by lia.
  apply Z.div_mul. lia.
Qed.

Lemma shrink_rep b slots n auto tr (H : bag_rep b slots) (pre post : list A) :
  bag_size b <= n -> n < allocated_size b / 4 -> BAG_ALLOC_START < allocated_size b ->
  (forall j, tr = Some j -> is_Some (slots !! j ≫= id)) ->
  exists es us, shrink_loop b (Z.to_nat (allocated_size b)) 0 0
         (replicate (ptr_capacity (allocated_size b / 2)) None)
         (replicate (Z.to_nat (bitmap_size (allocated_size b / 2))) 0) tr
       = Some (es, us, track_at slots tr (length slots))
    /\ bag_rep (mkBag (bag_thread_safe b) es us auto (allocated_size b / 2) (bag_size b))
         (packed (Z.to_nat (allocated_size b / 2)) slots).
Proof.
  intros Hsz Hn Ha Htr. pose proof (rep_alloc_bound _ _ H) as Hab.
  destruct (rep_pow _ _ H) as (k & Hk & Ek). destruct (half_pow _ _ Ek) as (k' & -> & Hk' & Eh); [lia|done|].
  destruct (pow16_facts k' Hk') as (H16 & _ & Hbm). rewrite <- Eh in *.
  set (half := allocated_size b / 2) in *.
  pose proof (rep_size _ _ H) as Hsize. fold (contents slots) in Hsize.
  assert (Hhalf : allocated_size b / 4 <= half <= allocated_size b)
    by (unfold half; Z.to_euclidean_division_equations; lia).
  rewrite ptr_capacity_id by lia.
  destruct (shrink_loop_spec b slots tr (Z.to_nat half) (rep_bits _ _ H) (rep_data _ _ H) Htr
     ltac:(lia) (Z.to_nat (allocated_size b)) 0%nat (replicate (Z.to_nat half) None)
     (replicate (Z.to_nat (bitmap_size half)) 0)) as (es & us & E & Hes & Hus & Hd & Hb).
  - rewrite (rep_alloc _ _ H). lia.
  - apply length_replicate.
  - done.
  - intros j Hj. rewrite bitmap_get_zero by lia. done.
  - assert (Et : track_at slots tr 0 = tr) by (unfold track_at; by destruct tr).
    rewrite Et in E. cbn [take contents length omap] in E. exists es, us. split; [exact E|].
    assert (Hlp : length (packed (Z.to_nat half) slots) = Z.to_nat half)
      by (unfold packed; rewrite length_app, length_fmap, length_replicate; lia).
    split; cbn.
    + lia.
    + exists k'. split; [lia|done].
    + lia.
    + by rewrite Hus, length_replicate.
    + intros i x Hx. apply packed_lookup in Hx as [(y & -> & Hy & Hlt)|(-> & Hlt)];
        rewrite Hb by lia.
      * by rewrite !bool_decide_true by done.
      * rewrite !bool_decide_false; [done| by intros []|lia].
    + intros i x Hx. apply packed_lookup in Hx as [(y & [= <-] & Hy & _)|(? & _)]; [by apply Hd|done].
    + rewrite Hsize. by rewrite <- (contents_packed (Z.to_nat half) slots).
Qed.

Lemma grow_rep b slots auto g k' (H : bag_rep b slots) :
  g = BAG_ALLOC_START * 2 ^ k' -> k' <= 56 -> allocated_size b < g ->
  bag_rep (mkBag (bag_thread_safe b) (realloc_list None (ptr_capacity g) (entries b))
     (take (Z.to_nat (bitmap_size (allocated_size b)))
        (realloc_list 0 (Z.to_nat (bitmap_size g)) (used b))
      ++ replicate (Z.to_nat (bitmap_size g) - Z.to_nat (bitmap_size (allocated_size b))) 0)
     auto g (bag_size b))
   (slots ++ replicate (Z.to_nat g - length slots) None).
Proof.
  intros Eg Hk Hlt. destruct (rep_pow _ _ H) as (k & Hk0 & Ek).
  destruct (pow16_facts k) as (H1 & _ & H2); [lia|]. rewrite <- Ek in *.
  assert (Hk' : 0 <= k').
  { destruct (Z.neg_nonneg_cases k'); [|done]. rewrite Z.pow_neg_r in Eg by done.
    unfold BAG_ALLOC_START in Eg. lia. }
  destruct (pow16_facts k') as (H3 & _ & H4); [lia|]. rewrite <- Eg in *.
  pose proof (rep_used_len _ _ H) as Hul. pose proof (rep_alloc _ _ H) as Ha.
  pose proof (rep_bitmap_cap _ _ H) as Hcap.
  assert (Hg : g <= 2 ^ 60).
  { rewrite Eg. unfold BAG_ALLOC_START. pose proof (Z.pow_le_mono_r 2 k' 56). lia. }
  assert (Hused : take (Z.to_nat (bitmap_size (allocated_size b)))
        (realloc_list 0 (Z.to_nat (bitmap_size g)) (used b)) = used b).
  { unfold realloc_list. rewrite <- Hul. rewrite (take_ge (used b)) by lia. apply take_app_length. }
  rewrite Hused. rewrite ptr_capacity_id by lia. split; cbn.
  - rewrite length_app, length_replicate. lia.
  - exists k'. split; [lia|done].
  - unfold realloc_list. rewrite !length_app, !length_replicate, length_take. lia.
  - rewrite length_app, length_replicate. lia.
  - intros i x Hx. apply lookup_app_Some in Hx as [Hx|[Hge Hx]].
    + pose proof (lookup_lt_Some _ _ _ Hx). rewrite bitmap_get_app by lia. by apply (rep_bits _ _ H).
    + apply lookup_replicate in Hx as [-> Hx]. rewrite bitmap_get_app_zero by lia. done.
  - intros i x Hx. apply lookup_app_Some in Hx as [Hx|[_ Hx]]; [|by apply lookup_replicate in Hx as [? _]].
    pose proof (lookup_lt_Some _ _ _ Hx). unfold realloc_list.
    pose proof (rep_data _ _ H _ _ Hx) as Hd. pose proof (lookup_lt_Some _ _ _ Hd).
    rewrite lookup_app_l by (rewrite length_take; lia). rewrite lookup_take_lt by lia. done.
  - rewrite (rep_size _ _ H). change (omap id (slots ++ ?r)) with (contents (slots ++ r)).
    by rewrite contents_app, contents_none, app_nil_r.
Qed.

Lemma set_entries_rep b slots g :
  bag_rep b slots -> (length slots <= g)%nat ->
  bag_rep (set_entries (realloc_list None g (entries b)) b) slots.
Proof.
  intros H Hg. destruct H as [H1 H2 H3 H4 H5 H6 H7]. split; cbn; try done.
  - unfold realloc_list. rewrite length_app, length_replicate, length_take. lia.
  - intros i x Hx. pose proof (lookup_lt_Some _ _ _ Hx). specialize (H6 _ _ Hx).
    pose proof (lookup_lt_Some _ _ _ H6). unfold realloc_list.
    rewrite lookup_app_l by (rewrite length_take; lia). by rewrite lookup_take_lt by lia.
Qed.

Lemma bitmap_size_mono k g b slots :
  bag_rep b slots -> 0 <= k -> g = BAG_ALLOC_START * 2 ^ k -> allocated_size b < g ->
  bitmap_size (allocated_size b) < bitmap_size g.
Proof.
  intros H Hk -> Hlt. destruct (rep_pow _ _ H) as (k0 & Hk0 & Ek).
  destruct (pow16_facts k Hk) as (_ & _ & E1). destruct (pow16_facts k0) as (_ & _ & E2); [lia|].
  rewrite <- Ek in *. lia.
Qed.

Lemma realloc_spec m1 m2 b slots n auto tr :
  bag_rep b slots -> bag_size b <= n <= 2 ^ 60 ->
  (forall j, tr = Some j -> is_Some (slots !! j ≫= id)) ->
  realloc_ok b slots n tr (Bag_realloc m1 m2 b n auto tr)
  /\ (m1 = true -> m2 = true -> exists b' tr', Bag_realloc m1 m2 b n auto tr = Some (b', tr', true)).
Proof.
  intros H Hn Htr. unfold Bag_realloc. pose proof (rep_alloc _ _ H) as Ha.
  destruct (negb (last_realloc_automatic b) && (n <=? allocated_size b)) eqn:E1.
  { bprop. split; [apply realloc_same; [done|lia]|eauto]. }
  destruct ((n <? allocated_size b / 4) && (BAG_ALLOC_START <? allocated_size b)) eqn:E2.
  - bprop. destruct (rep_pow _ _ H) as (k & Hk & Ek).
    destruct (half_pow _ _ Ek) as (k' & -> & Hk' & Eh); [lia|done|].
    destruct (pow16_facts k' Hk') as (H16 & _ & _). rewrite <- Eh in H16.
    destruct (Z.ltb_spec (allocated_size b / 2) BAG_ALLOC_START); [unfold BAG_ALLOC_START in *; lia|].
    destruct m1; cbn [negb]; [|split; [by apply realloc_same|done]].
    destruct m2; cbn [negb]; [|split; [by apply realloc_same|done]].
    destruct (shrink_rep b slots n auto tr H [] []) as (es & us & -> & Hrep); [lia|done..|].
    cbn. split; [|eauto]. do 4 eexists. split; [done|]. split; [exact Hrep|].
    split_and!; [apply contents_packed|intros; by apply at_iter_packed| |done].
    intros _. pose proof (rep_alloc _ _ Hrep) as Ha'. cbn in Ha'. rewrite <- Ha'.
    Z.to_euclidean_division_equations. lia.
  - destruct (Z.ltb_spec (allocated_size b) n) as [Hlt|Hge];
      [|split; [apply realloc_same; [done|lia]|eauto]].
    destruct (rep_pow _ _ H) as (k & Hk & Ek). rewrite Ek.
    destruct (grow_loop_spec GROW_FUEL k n) as (k' & Hk' & Eg & Hle); [lia|unfold GROW_FUEL; lia|lia|].
    rewrite Eg. cbn. rewrite <- Ek.
    set (g := BAG_ALLOC_START * 2 ^ k') in *.
    destruct m1; cbn [negb]; [|split; [by apply realloc_same|done]].
    rewrite (proj2 (Z.ltb_lt _ _)) by (eapply bitmap_size_mono; [done| |reflexivity|fold g; lia]; lia).
    pose proof (Z.pow_le_mono_r 2 k' 56). assert (Hg : g <= 2 ^ 60) by (unfold g, BAG_ALLOC_START; lia).
    destruct m2; cbn [negb].
    + split; [|eauto]. do 4 eexists. split; [done|].
      split; [eapply grow_rep; [done|reflexivity|lia|fold g; lia]|].
      split_and!; [by rewrite contents_app, contents_none, app_nil_r| | |done].
      * intros pre post Hit. destruct tr as [i|]; cbn in *.
        -- destruct Hit as ([x Hx] & -> & ->).
           assert (Hi : (i < length slots)%nat).
           { destruct (slots !! i) eqn:E; [|done]. by eapply lookup_lt_Some. }
           rewrite lookup_app_l, take_app_le, drop_app_le by lia.
           rewrite contents_app, contents_none, app_nil_r. by split; [exists x|].
        -- destruct Hit as [-> ->]. by rewrite contents_app, contents_none, app_nil_r.
      * intros _. rewrite length_app, length_replicate. fold g. lia.
    + split; [|done]. do 4 eexists. split; [done|].
      split; [apply set_entries_rep; [done|]; rewrite ptr_capacity_id by lia; lia|]. done.
Qed.

(** ** Operations *)

Lemma contents_insert_some slots i x :
  slots !! i = Some None -> contents (<[i := Some x]> slots) ≡ₚ x :: contents slots.
Proof.
  intros Hi. pose proof (lookup_lt_Some _ _ _ Hi).
  rewrite (contents_split (<[i := Some x]> slots) i (Some x)) by (by apply list_lookup_insert_eq).
  rewrite (contents_split slots i None Hi), take_insert_ge, drop_insert_lt by lia.
  cbn. by rewrite <- Permutation_middle.
Qed.

Lemma contents_insert_none slots i x :
  slots !! i = Some (Some x) ->
  contents (<[i := None]> slots) = contents (take i slots) ++ contents (drop (S i) slots).
Proof.
  intros Hi. pose proof (lookup_lt_Some _ _ _ Hi).
  rewrite (contents_split (<[i := None]> slots) i None) by (by apply list_lookup_insert_eq).
  by rewrite take_insert_ge, drop_insert_lt by lia.
Qed.

Lemma store_rep b slots i x us es :
  bag_rep b slots -> slots !! i = Some None -> bag_size b < 2 ^ 60 ->
  bitmap_set (used b) i = Some us -> es = <[i := Some x]> (entries b) ->
  bag_rep (mkBag (bag_thread_safe b) es us (last_realloc_automatic b) (allocated_size b)
             (size_t (bag_size b + 1))) (<[i := Some x]> slots).
Proof.
  intros H Hi Hs Hus ->. pose proof (lookup_lt_Some _ _ _ Hi) as Hlt.
  destruct (bitmap_set_spec (used b) i false) as (us' & E & Hl & Hg); [by rewrite (rep_bits _ _ H _ _ Hi)|].
  rewrite Hus in E. injection E as <-. pose proof (rep_size _ _ H) as Hsz.
  destruct H as [H1 H2 H3 H4 H5 H6 H7]. split; cbn; rewrite ?length_insert; try done.
  - by rewrite Hl.
  - intros j y Hj. rewrite Hg. destruct (decide (j = i)) as [->|Hne].
    + rewrite list_lookup_insert_eq in Hj by done. injection Hj as <-. done.
    + rewrite list_lookup_insert_ne in Hj by done. by apply H5.
  - intros j y Hj. destruct (decide (j = i)) as [->|Hne].
    + rewrite list_lookup_insert_eq in Hj by done. injection Hj as <-.
      by rewrite list_lookup_insert_eq by lia.
    + rewrite list_lookup_insert_ne in * by done. by apply H6.
  - fold (contents (<[i:=Some x]> slots)). rewrite (contents_insert_some _ _ _ Hi). cbn.
    fold (contents slots) in *. unfold size_t. rewrite wrap_small; unfold uint_ok; lia.
Qed.

Lemma erase_rep b slots i x us :
  bag_rep b slots -> slots !! i = Some (Some x) -> bitmap_clear (used b) i = Some us ->
  bag_rep (mkBag (bag_thread_safe b) (entries b) us (last_realloc_automatic b) (allocated_size b)
             (size_t (bag_size b - 1))) (<[i := None]> slots).
Proof.
  intros H Hi Hus. pose proof (lookup_lt_Some _ _ _ Hi) as Hlt.
  destruct (bitmap_clear_spec (used b) i true) as (us' & E & Hl & Hg); [by rewrite (rep_bits _ _ H _ _ Hi)|].
  rewrite Hus in E. injection E as <-. pose proof (rep_alloc_bound _ _ H).
  destruct H as [H1 H2 H3 H4 H5 H6 H7]. split; cbn; rewrite ?length_insert; try done.
  - by rewrite Hl.
  - intros j y Hj. rewrite Hg. destruct (decide (j = i)) as [->|Hne].
    + rewrite list_lookup_insert_eq in Hj by done. injection Hj as <-. done.
    + rewrite list_lookup_insert_ne in Hj by done. by apply H5.
  - intros j y Hj. destruct (decide (j = i)) as [->|Hne].
    + by rewrite list_lookup_insert_eq in Hj by done.
    + rewrite list_lookup_insert_ne in Hj by done. by apply H6.
  - fold (contents (<[i:=None]> slots)). rewrite (contents_insert_none _ _ _ Hi).
    fold (contents slots) in *. pose proof (contents_le slots).
    rewrite (contents_split _ _ _ Hi) in *. cbn in *. rewrite !length_app in *. cbn in *.
    unfold size_t. rewrite wrap_small; unfold uint_ok; lia.
Qed.

Lemma iter_next b slots it x pre post :
  bag_rep b slots -> at_iter slots it pre (x :: post) ->
  Bag_get b it = Some x /\
  exists it', Bag_iterator_next b it = Some it' /\ at_iter slots it' (pre ++ [x]) post.
Proof.
  intros H Hit. destruct it as [i|]; [|by destruct Hit].
  destruct Hit as ([y Hy] & -> & Hp).
  destruct (slots !! i) as [[z|]|] eqn:Hi; [|done..]. cbn in Hy. injection Hy as ->.
  rewrite (contents_drop _ _ _ Hi) in Hp. injection Hp as <- ->.
  split; [cbn; by rewrite (rep_data _ _ H _ _ Hi)|]. cbn.
  pose proof (lookup_lt_Some _ _ _ Hi).
  rewrite (rep_alloc _ _ H), Nat2Z.id.
  destruct (find_used_spec (used b) slots (length slots - S i) (S i) (rep_bits _ _ H)) as (it & -> & Hit); [lia|].
  exists it. split; [done|]. by rewrite (contents_take _ _ _ Hi) in Hit.
Qed.

Lemma iter_begin b slots :
  bag_rep b slots -> exists it, Bag_begin b = Some it /\ at_iter slots it [] (contents slots).
Proof.
  intros H. unfold Bag_begin. rewrite (rep_alloc _ _ H), Nat2Z.id.
  destruct (find_used_spec (used b) slots (length slots) 0 (rep_bits _ _ H)) as (it & -> & Hit); [lia|].
  by exists it.
Qed.

Lemma erase_ok m1 m2 b slots it x pre post :
  bag_rep b slots -> at_iter slots it pre (x :: post) ->
  exists b' it' slots', Bag_erase m1 m2 b it = Some (b', it') /\ bag_rep b' slots'
    /\ at_iter slots' it' pre post.
Proof.
  intros H Hit. destruct it as [i|]; [|by destruct Hit].
  destruct Hit as ([y Hy] & -> & Hp).
  destruct (slots !! i) as [[z|]|] eqn:Hi; [|done..]. cbn in Hy. injection Hy as ->.
  rewrite (contents_drop _ _ _ Hi) in Hp. injection Hp as <- ->.
  pose proof (lookup_lt_Some _ _ _ Hi) as Hlt.
  destruct (bitmap_clear_spec (used b) i true) as (us & Hus & _); [by rewrite (rep_bits _ _ H _ _ Hi)|].
  pose proof (erase_rep _ _ _ _ _ H Hi Hus) as H1. unfold Bag_erase. rewrite Hus. cbn.
  set (b1 := mkBag _ _ _ _ _ _) in *. pose proof (rep_alloc _ _ H) as Ha.
  rewrite Ha, Nat2Z.id.
  destruct (find_used_spec us (<[i := None]> slots) (length slots - i) i (rep_bits _ _ H1))
    as (it & -> & Hit); [rewrite length_insert; lia|]. cbn.
  rewrite take_insert_ge in Hit by lia.
  rewrite (contents_drop _ _ _ (list_lookup_insert_eq slots i None Hlt)), drop_insert_lt in Hit by lia.
  assert (Hsz : bag_size b1 <= bag_size b1 <= 2 ^ 60).
  { pose proof (rep_alloc_bound _ _ H1). rewrite (rep_size _ _ H1).
    pose proof (contents_le (<[i := None]> slots)). unfold contents in *.
    pose proof (rep_alloc _ _ H1). lia. }
  destruct (realloc_spec m1 m2 b1 _ (bag_size b1) true it H1 Hsz (at_iter_used _ _ _ _ Hit))
    as [(b' & tr' & ret & slots' & E & Hrep & _ & Htr & _) _].
  change (size_t (bag_size b - 1)) with (bag_size b1). rewrite E. cbn.
  exists b', tr', slots'. split_and!; [done..|by apply Htr].
Qed.

Lemma realloc_thread_safe m1 m2 b n auto tr b' tr' ret :
  Bag_realloc m1 m2 b n auto tr = Some (b', tr', ret) -> bag_thread_safe b' = bag_thread_safe b.
Proof.
  unfold Bag_realloc. destruct (_ && _); [by intros [= <- _ _]|].
  destruct (_ && _).
  { destruct m1, m2; cbn [negb]; [|by intros [= <- _ _]..].
    destruct (shrink_loop _ _ _ _ _ _ _) as [[[? ?] ?]|]; [|done]. by intros [= <- _ _]. }
  destruct (_ <? _); [|by intros [= <- _ _]].
  destruct (grow_loop _ _ _); [|done]. cbn [mbind option_bind].
  destruct m1; cbn [negb]; [|by intros [= <- _ _]].
  destruct (_ <? _); [|by intros [= <- _ _]]. destruct m2; by intros [= <- _ _].
Qed.

Lemma erase_thread_safe m1 m2 b it b' it' :
  Bag_erase m1 m2 b it = Some (b', it') -> bag_thread_safe b' = bag_thread_safe b.
Proof.
  unfold Bag_erase. destruct it as [i|]; [|by intros [= <- _]].
  destruct (bitmap_clear _ _); [|done]. cbn [mbind option_bind].
  destruct (find_bit _ _ _ _); [|done]. cbn [mbind option_bind].
  destruct (Bag_realloc _ _ _ _ _ _) as [[[b2 ?] ?]|] eqn:E; [|done].
  apply realloc_thread_safe in E. by intros [= <- _].
Qed.

Lemma add_thread_safe wr m1 m2 un b x b' ret :
  Bag_add wr m1 m2 un b x = Some (b', ret) -> bag_thread_safe b' = bag_thread_safe b.
Proof.
  unfold Bag_add. destruct (negb _); [by intros [= <- _]|].
  destruct (Bag_realloc _ _ _ _ _ _) as [[[b1 ?] ok]|] eqn:E; [|done]. cbn [mbind option_bind].
  apply realloc_thread_safe in E. destruct ok; cbn [negb]; [|by intros [= <- _]].
  destruct (find_bit _ _ _ _) as [[i|]|]; [| |done]; cbn [mbind option_bind]; [|by intros [= <- _]].
  destruct (bitmap_set _ _); [|done]. cbn [mbind option_bind].
  destruct (array_store _ _ _); [|done]. by intros [= <- _].
Qed.

Lemma remove_from_ok ms p fuel : forall b slots it pre post,
  bag_rep b slots -> at_iter slots it pre post -> (length post <= fuel)%nat ->
  exists b' slots', remove_from fuel ms p b it = Some b' /\ bag_rep b' slots'
    /\ contents slots' = pre ++ filter (fun x => p x = false) post.
Proof.
  induction fuel as [|fuel IH]; intros b slots it pre post H Hit Hf.
  - destruct post; [|cbn in Hf; lia]. destruct it as [i|]; [by destruct (at_iter_post _ _ _ _ Hit)|].
    exists b, slots. split_and!; [done..|]. apply (at_iter_contents _ _ _ _ Hit).
  - destruct post as [|x post].
    { destruct it as [i|]; [by destruct (at_iter_post _ _ _ _ Hit)|].
      exists b, slots. split_and!; [done..|]. apply (at_iter_contents _ _ _ _ Hit). }
    destruct (iter_next _ _ _ _ _ _ H Hit) as (Hg & it' & Hn & Hit').
    destruct it as [i|]; [|by destruct Hit]. cbn [remove_from]. rewrite Hg. cbn -[Bag_erase Bag_iterator_next].
    destruct (p x) eqn:Ep.
    + destruct (erase_ok (fst (ms fuel)) (snd (ms fuel)) _ _ _ _ _ _ H Hit)
        as (b1 & it1 & slots1 & -> & H1 & Hit1).
      cbn. destruct (IH b1 slots1 it1 pre post H1 Hit1) as (b' & slots' & E & Hr & Hc); [cbn in Hf; lia|].
      exists b', slots'. split_and!; [done..|]. by rewrite Hc.
    + rewrite Hn. cbn. destruct (IH b slots it' _ post H Hit') as (b' & slots' & E & Hr & Hc); [cbn in Hf; lia|].
      exists b', slots'. split_and!; [done..|]. by rewrite Hc, <- app_assoc.
Qed.

Lemma iterate_from_ok fuel : forall b slots it pre post,
  bag_rep b slots -> at_iter slots it pre post -> (length post <= fuel)%nat ->
  iterate_from fuel b it = Some post.
Proof.
  induction fuel as [|fuel IH]; intros b slots it pre post H Hit Hf.
  - destruct post; [|cbn in Hf; lia]. destruct it as [i|]; [by destruct (at_iter_post _ _ _ _ Hit)|done].
  - destruct post as [|x post].
    { destruct it as [i|]; [by destruct (at_iter_post _ _ _ _ Hit)|done]. }
    destruct (iter_next _ _ _ _ _ _ H Hit) as (Hg & it' & Hn & Hit').
    destruct it as [i|]; [|by destruct Hit]. cbn [iterate_from]. rewrite Hg. cbn -[Bag_iterator_next].
    rewrite Hn. cbn. rewrite (IH b slots it' _ post H Hit'); [done|cbn in Hf; lia].
Qed.

Lemma bag_new_rep m1 m2 m3 io ts b :
  Bag_new m1 m2 m3 io ts = Some b -> bag_rep b (replicate 16 None).
Proof.
  unfold Bag_new. destruct m1, m2, m3; cbn; try done. destruct (ts && negb io); [done|].
  intros [= <-]. split; cbn; try done.
  - exists 0. split; [lia|done].
  - intros i x Hx. apply (lookup_replicate 16) in Hx as [-> Hi].
    change [0; 0] with (replicate 2 0). by rewrite bitmap_get_zero by lia.
Qed.

(** [Bag_add]. Whatever the lock and allocation calls do, the call stays
    inside its arrays, terminates and keeps the bag consistent. It either
    stores the element (exactly one more occurrence of it, and the result is
    that of the unlock) or returns [false] with the contents unchanged, and
    it does store when no call fails. *)
Lemma Bag_add_spec wr_ok m1 m2 un_ok b slots x :
  bag_rep b slots -> bag_size b < 2 ^ 60 ->
  exists b' slots' ret, Bag_add wr_ok m1 m2 un_ok b x = Some (b', ret) /\ bag_rep b' slots'
    /\ (contents slots' ≡ₚ x :: contents slots /\ ret = Bag_unlock un_ok b
        \/ contents slots' = contents slots /\ ret = false
           /\ (wr_ok = false \/ m1 = false \/ m2 = false)).
Proof.
  intros H Hs. unfold Bag_add.
  destruct (negb (Bag_wrlock wr_ok b)) eqn:El.
  { exists b, slots, false. split_and!; [done..|]. right. split_and!; [done..|].
    unfold Bag_wrlock in El. destruct (bag_thread_safe b), wr_ok; cbn in El; auto. }
  assert (Hsz : size_t (bag_size b + 1) = bag_size b + 1).
  { pose proof (rep_size _ _ H). unfold size_t. rewrite wrap_small; unfold uint_ok; lia. }
  rewrite Hsz.
  destruct (realloc_spec m1 m2 b slots (bag_size b + 1) true None H) as [Hr Hgood]; [lia|done|].
  destruct Hr as (b1 & tr & ret & s1 & E & H1 & Hc & _ & Hret & Hts). rewrite E in *. cbn.
  destruct ret; cbn.
  2: { exists b1, s1, false. split_and!; [done..|]. right. split_and!; [done..|].
       destruct m1; [|auto]. destruct m2; [|auto]. by destruct Hgood as (? & ? & ?). }
  pose proof (rep_size _ _ H1) as Hsize. pose proof (rep_size _ _ H) as Hsize0.
  fold (contents s1) in Hsize. fold (contents slots) in Hsize0. rewrite Hc in Hsize.
  rewrite (rep_alloc _ _ H1), Nat2Z.id.
  destruct (find_free_spec (used b1) s1 (length s1) 0 (rep_bits _ _ H1))
    as [(j & -> & Hj)|[_ Hfull]]; [lia| |].
  2: { rewrite drop_0, Hc in Hfull. specialize (Hret eq_refl). lia. }
  cbn. destruct (bitmap_set_spec (used b1) j false) as (us & Hus & _);
    [by rewrite (rep_bits _ _ H1 _ _ Hj)|]. rewrite Hus. cbn.
  pose proof (lookup_lt_Some _ _ _ Hj). pose proof (rep_entries _ _ H1).
  unfold array_store. destruct (lookup_lt_is_Some_2 (entries b1) j) as [y ->]; [lia|]. cbn.
  do 3 eexists. split; [done|]. rewrite <- (rep_alloc _ _ H1).
  split; [eapply store_rep; [done..|lia|done|done]|]. left.
  rewrite (contents_insert_some _ _ _ Hj), Hc. split; [done|].
  unfold Bag_unlock. cbn. by rewrite Hts.
Qed.

(** [Bag_erase] through a valid iterator removes exactly that element,
    keeps the others in order and returns an iterator to the element that
    came next, also when it shrank the array and moved everything, and when
    that shrink failed for lack of memory. *)
Lemma Bag_erase_spec m1 m2 b slots it x pre post :
  bag_rep b slots -> at_iter slots it pre (x :: post) ->
  exists b' it' slots', Bag_erase m1 m2 b it = Some (b', it') /\ bag_rep b' slots'
    /\ contents slots' = pre ++ post /\ at_iter slots' it' pre post.
Proof.
  intros H Hit. destruct (erase_ok m1 m2 _ _ _ _ _ _ H Hit) as (b' & it' & slots' & E & Hr & Ht).
  exists b', it', slots'. split_and!; [done..|by apply at_iter_contents in Ht|done].
Qed.

(** Iterating from [Bag_begin] with [Bag_iterator_next] visits each
    element of the bag exactly once, ends, and visits as many elements as
    [Bag_size] reports. *)
Lemma Bag_iteration b slots rd_ok un_ok :
  bag_rep b slots ->
  iterate b = Some (contents slots)
  /\ Bag_size rd_ok un_ok b = Z.of_nat (length (contents slots)).
Proof.
  intros H. split; [|by apply rep_size]. unfold iterate.
  destruct (iter_begin _ _ H) as (it & -> & Hit). cbn -[iterate_from].
  eapply iterate_from_ok; [done..|]. rewrite (rep_size _ _ H). unfold contents. lia.
Qed.

(** The loop that erases selected elements while it iterates, as the
    server does with finished connections, ends with exactly the elements
    that were not selected, in their order, whatever the allocations of the
    intermediate shrinks do. *)
Lemma Bag_remove_loop ms p b slots :
  bag_rep b slots ->
  exists it b' slots', Bag_begin b = Some it
    /\ remove_from (Z.to_nat (bag_size b)) ms p b it = Some b' /\ bag_rep b' slots'
    /\ contents slots' = filter (fun x => p x = false) (contents slots).
Proof.
  intros H. destruct (iter_begin _ _ H) as (it & E & Hit). exists it.
  destruct (remove_from_ok ms p (Z.to_nat (bag_size b)) _ _ _ _ _ H Hit) as (b' & slots' & ? & ? & ?).
  { rewrite (rep_size _ _ H). unfold contents. lia. }
  by exists b', slots'.
Qed.
End bag.

Arguments Bag A : clear implicits.

(** A bag of eight elements in an array of 32: erasing one of them shrinks it. *)
Definition sample_slots : list (option Z) :=
  (Some <$> [0; 1; 2; 3; 4; 5; 6; 7]) ++ replicate 24 None.
Definition sample_bag : Bag Z := mkBag false sample_slots [255; 0; 0; 0] true 32 8.

Lemma sample_bag_rep : bag_rep sample_bag sample_slots.
Proof.
  split; try done.
  - exists 1. split; [lia|done].
  - intros i x Hx. do 32 (destruct i as [|i]; [by injection Hx as <-|]). done.
Qed.

Lemma Bag_add_spec_witness :
  exists b' slots' ret, Bag_add true true true true sample_bag 9 = Some (b', ret) /\ bag_rep b' slots'
    /\ (contents slots' ≡ₚ 9 :: contents sample_slots /\ ret = Bag_unlock true sample_bag
        \/ contents slots' = contents sample_slots /\ ret = false
           /\ (true = false \/ true = false \/ true = false)).
Proof. apply Bag_add_spec; [apply sample_bag_rep|cbn; lia]. Qed.

Lemma Bag_erase_spec_witness :
  exists b' it' slots', Bag_erase true true sample_bag (Some 2%nat) = Some (b', it') /\ bag_rep b' slots'
    /\ contents slots' = [0; 1] ++ [3; 4; 5; 6; 7] /\ at_iter slots' it' [0; 1] [3; 4; 5; 6; 7].
Proof.
  apply (Bag_erase_spec true true sample_bag sample_slots _ 2); [apply sample_bag_rep|].
  split; [by exists 2|done].
Defined.

Lemma Bag_iteration_witness :
  iterate sample_bag = Some (contents sample_slots)
  /\ Bag_size true true sample_bag = Z.of_nat (length (contents sample_slots)).
Proof. apply Bag_iteration. apply sample_bag_rep. Defined.

Lemma Bag_remove_loop_witness :
  exists it b' slots', Bag_begin sample_bag = Some it
    /\ remove_from (Z.to_nat (bag_size sample_bag)) (fun _ => (true, true)) Z.odd sample_bag it = Some b'
    /\ bag_rep b' slots'
    /\ contents slots' = filter (fun x => Z.odd x = false) (contents sample_slots).
Proof. apply Bag_remove_loop. apply sample_bag_rep. Defined.
