(* ===== verification/Sql.v ===== *)
(** * The rpki-rtr database and its statements
    ([src/lib/db/prep-stmt.c], [src/lib/db/util.c], [src/lib/db/connect.c],
    the table definitions of [src/lib/rpki/scmmain.h])

    Tables are lists of rows; each prepared statement of [_queries_rtr] is a
    function of the tables that says what its SQL text says. Every call into
    the MySQL client library can fail: a [stmt_env] holds the outcomes of the
    calls one C function makes, and what other processes did to the tables
    before its statement ran. *)

From S2P Require Import Prelude.
Local Open Scope est_scope.

(** ** Tables *)

(** Columns [asn, prefix, prefix_length, prefix_max_length]. *)
Record roa_row := mkRow {
  asn : Z;
  prefix : list Z;
  prefix_length : Z;
  prefix_max_length : Z }.

Record update_row := mkUpd {
  serial_num : Z;
  prev_serial_num : option Z;
  create_time : Z;
  has_full : bool }.
Record full_row := mkFull { full_serial : Z; full_roa : roa_row }.
Record inc_row := mkInc { inc_serial : Z; is_announce : bool; inc_roa : roa_row }.
Record rpki_roa_row := mkRoa { local_id : Z; roa_asn : Z; roa_flags : Z }.
Record roa_prefix_row := mkRoaPrefix {
  roa_local_id : Z; rp_prefix : list Z; rp_length : Z; rp_max_length : Z }.

Record db := mkDb {
  rtr_session : list Z;
  rtr_update : list update_row;
  rtr_full : list full_row;
  rtr_incremental : list inc_row;
  rpki_roa : list rpki_roa_row;
  rpki_roa_prefix : list roa_prefix_row;
  now : Z }.

#[export] Instance roa_row_eq_dec : EqDecision roa_row.
Proof. solve_decision. Defined.
#[export] Instance full_row_eq_dec : EqDecision full_row.
Proof. solve_decision. Defined.

Definition set_update (l : list update_row) (d : db) : db :=
  mkDb (rtr_session d) l (rtr_full d) (rtr_incremental d) (rpki_roa d) (rpki_roa_prefix d) (now d).
Definition set_full (l : list full_row) (d : db) : db :=
  mkDb (rtr_session d) (rtr_update d) l (rtr_incremental d) (rpki_roa d) (rpki_roa_prefix d) (now d).
Definition set_incremental (l : list inc_row) (d : db) : db :=
  mkDb (rtr_session d) (rtr_update d) (rtr_full d) l (rpki_roa d) (rpki_roa_prefix d) (now d).

(** ** Row order: [order by asn, prefix, prefix_length, prefix_max_length] *)

(** VARBINARY values compare byte by byte, a proper prefix first. *)
Fixpoint bytes_cmp (a b : list Z) : comparison :=
  match a, b with
  | [], [] => Eq
  | [], _ :: _ => Lt
  | _ :: _, [] => Gt
  | x :: a', y :: b' => match x ?= y with Eq => bytes_cmp a' b' | c => c end
  end.

Definition row_cmp (r1 r2 : roa_row) : comparison :=
  match asn r1 ?= asn r2 with
  | Eq => match bytes_cmp (prefix r1) (prefix r2) with
          | Eq => match prefix_length r1 ?= prefix_length r2 with
                  | Eq => prefix_max_length r1 ?= prefix_max_length r2
                  | c => c
                  end
          | c => c
          end
  | c => c
  end.
Definition row_ltb (r1 r2 : roa_row) : bool :=
  match row_cmp r1 r2 with Lt => true | _ => false end.

(** [order by]: insertion sort on the key. *)
Fixpoint insert_by {A} (key : A -> roa_row) (x : A) (l : list A) : list A :=
  match l with
  | [] => [x]
  | y :: l' => if row_ltb (key y) (key x) then y :: insert_by key x l' else x :: l
  end.
Definition sort_by {A} (key : A -> roa_row) (l : list A) : list A :=
  foldr (insert_by key) [] l.

(** [where ... and (? or (columns) > (?, ?, ?, ?)) order by columns limit ?] *)
Definition select_page {A} (key : A -> roa_row) (first_time : bool) (last : roa_row)
    (limit : nat) (l : list A) : list A :=
  take limit (sort_by key (List.filter (fun x => first_time || row_ltb last (key x)) l)).

(** ** Queries *)

(** DB_PSTMT_RTR_GET_SESSION *)
Definition q_get_session (limit : nat) (d : db) : list Z := take limit (rtr_session d).

(** DB_PSTMT_RTR_GET_LATEST_SERNUM: [order by create_time desc limit 1]. Which
    of several rows of one [create_time] comes first is not specified; this
    takes the first of them in table order. *)
Fixpoint latest_update (l : list update_row) : option update_row :=
  match l with
  | [] => None
  | u :: l' => match latest_update l' with
               | Some v => if create_time u <? create_time v then Some v else Some u
               | None => Some u
               end
  end.
Definition q_latest_sernum (d : db) : list Z :=
  option_list (serial_num <$> latest_update (rtr_update d)).

(** DB_PSTMT_RTR_HAS_ROWS_RTR_UPDATE *)
Definition q_has_rows (d : db) : list bool :=
  [negb (Nat.eqb (length (rtr_update d)) 0)].

Definition opt_eqb (o : option Z) (s : Z) : bool :=
  match o with Some p => p =? s | None => false end.

(** DB_PSTMT_RTR_READ_SER_NUM_AS_PREV *)
Definition q_read_as_prev (p : Z) (d : db) : list Z :=
  serial_num <$> List.filter (fun u => opt_eqb (prev_serial_num u) p) (rtr_update d).

(** DB_PSTMT_RTR_READ_SER_NUM_AS_CURRENT *)
Definition q_read_as_current (s : Z) (d : db) : list (option Z * bool) :=
  (fun u => (prev_serial_num u, has_full u))
    <$> List.filter (fun u => serial_num u =? s) (rtr_update d).

Definition full_rows (s : Z) (d : db) : list roa_row :=
  full_roa <$> List.filter (fun f => full_serial f =? s) (rtr_full d).
Definition inc_rows (s : Z) (d : db) : list (bool * roa_row) :=
  (fun i => (is_announce i, inc_roa i)) <$> List.filter (fun i => inc_serial i =? s) (rtr_incremental d).

(** DB_PSTMT_RTR_SERIAL_QRY_GET_NEXT *)
Definition q_serial_next (s : Z) (first_time : bool) (last : roa_row) (limit : nat) (d : db)
    : list (bool * roa_row) :=
  select_page snd first_time last limit (inc_rows s d).

(** DB_PSTMT_RTR_RESET_QRY_GET_NEXT *)
Definition q_reset_next (s : Z) (first_time : bool) (last : roa_row) (limit : nat) (d : db)
    : list roa_row :=
  select_page id first_time last limit (full_rows s d).

(** DB_PSTMT_RTR_COUNT_SESSION *)
Definition q_count_session (d : db) : list Z := [Z.of_nat (length (rtr_session d))].

(** DB_PSTMT_RTR_DETECT_INCONSISTENT_STATE *)
Definition q_inconsistent (current current' previous : Z) (d : db) : list bool :=
  [existsb (fun u => (serial_num u =? current) || opt_eqb (prev_serial_num u) current'
                     || opt_eqb (prev_serial_num u) previous) (rtr_update d)].

(** DB_PSTMT_RTR_HAS_CHANGES *)
Definition q_has_changes (s : Z) (d : db) : list bool :=
  [negb (Nat.eqb (length (inc_rows s d)) 0)].

(** ** Statements that change tables; [None] is an SQL error (a key violation)
    and leaves the tables alone. *)

Definition in_update (s : Z) (d : db) : bool :=
  existsb (fun u => serial_num u =? s) (rtr_update d).

(** DB_PSTMT_RTR_DELETE_INCOMPLETE_INCREMENTAL *)
Definition s_delete_incomplete_incremental (d : db) : option db :=
  Some (set_incremental (List.filter (fun i => in_update (inc_serial i) d) (rtr_incremental d)) d).

(** DB_PSTMT_RTR_DELETE_INCOMPLETE_FULL *)
Definition s_delete_incomplete_full (d : db) : option db :=
  Some (set_full (List.filter (fun f => in_update (full_serial f) d) (rtr_full d)) d).

(** The rows [DB_PSTMT_RTR_INSERT_FULL] selects: the join of ROAs that pass
    the flag tests with their prefixes. *)
Definition valid_roas (mask result : Z) (d : db) : list roa_row :=
  concat (map (fun r =>
    map (fun p => mkRow (roa_asn r) (rp_prefix p) (rp_length p) (rp_max_length p))
        (List.filter (fun p => roa_local_id p =? local_id r) (rpki_roa_prefix d)))
    (List.filter (fun r => Z.land (roa_flags r) mask =? result) (rpki_roa d))).

(** [insert ignore]: a row whose key is present already is skipped. *)
Definition insert_ignore (l : list full_row) (x : full_row) : list full_row :=
  if bool_decide (x ∈ l) then l else l ++ [x].

(** DB_PSTMT_RTR_INSERT_FULL *)
Definition s_insert_full (s mask result : Z) (d : db) : option db :=
  Some (set_full (foldl insert_ignore (rtr_full d) (mkFull s <$> valid_roas mask result d)) d).

(** The rows [DB_PSTMT_RTR_INSERT_INCREMENTAL] selects: those of [t1] with no
    equal row of [t2]. *)
Definition diff_rows (t1 t2 : Z) (d : db) : list roa_row :=
  List.filter (fun r => negb (bool_decide (r ∈ full_rows t2 d))) (full_rows t1 d).

(** DB_PSTMT_RTR_INSERT_INCREMENTAL, under the primary key (serial_num, columns). *)
Definition s_insert_incremental (s : Z) (announce : bool) (t2 t1 : Z) (d : db) : option db :=
  let new := diff_rows t1 t2 d in
  if bool_decide (NoDup new) &&
     forallb (fun r => negb (bool_decide (r ∈ (snd <$> inc_rows s d)))) new
  then Some (set_incremental (rtr_incremental d ++ (mkInc s announce <$> new)) d)
  else None.

(** DB_PSTMT_RTR_INSERT_UPDATE, under the primary key [serial_num] and the
    unique key [prev_serial_num]. *)
Definition s_insert_update (s : Z) (prev : option Z) (d : db) : option db :=
  if in_update s d ||
     match prev with
     | Some p => existsb (fun u => opt_eqb (prev_serial_num u) p) (rtr_update d)
     | None => false
     end
  then None
  else Some (set_update (rtr_update d ++ [mkUpd s prev (now d) true]) d).

(** DB_PSTMT_RTR_DELETE_USELESS_FULL *)
Definition s_delete_full (s : Z) (d : db) : option db :=
  Some (set_full (List.filter (fun f => negb (full_serial f =? s)) (rtr_full d)) d).

(** DB_PSTMT_RTR_IGNORE_OLD_FULL *)
Definition s_ignore_old_full (s1 s2 : Z) (d : db) : option db :=
  Some (set_update (map (fun u =>
    if negb (serial_num u =? s1) && negb (serial_num u =? s2)
    then mkUpd (serial_num u) (prev_serial_num u) (create_time u) false else u) (rtr_update d)) d).

(** DB_PSTMT_RTR_DELETE_OLD_FULL *)
Definition s_delete_old_full (s1 s2 : Z) (d : db) : option db :=
  Some (set_full (List.filter (fun f =>
    negb (negb (full_serial f =? s1) && negb (full_serial f =? s2))) (rtr_full d)) d).

(** DB_PSTMT_RTR_DELETE_OLD_UPDATE; times are in seconds. *)
Definition s_delete_old_update (hours s1 s2 : Z) (d : db) : option db :=
  Some (set_update (List.filter (fun u =>
    negb ((create_time u <? now d - hours * 3600)
          && negb (serial_num u =? s1) && negb (serial_num u =? s2))) (rtr_update d)) d).

(** DB_PSTMT_RTR_IGNORE_OLD_INCREMENTAL *)
Definition s_ignore_old_incremental (d : db) : option db :=
  Some (set_update (map (fun u =>
    match prev_serial_num u with
    | Some p => if in_update p d then u
                else mkUpd (serial_num u) None (create_time u) (has_full u)
    | None => u
    end) (rtr_update d)) d).

(** DB_PSTMT_RTR_DELETE_OLD_INCREMENTAL *)
Definition s_delete_old_incremental (d : db) : option db :=
  Some (set_incremental (List.filter (fun i =>
    existsb (fun u => (serial_num u =? inc_serial i)
                      && bool_decide (is_Some (prev_serial_num u))) (rtr_update d))
    (rtr_incremental d)) d).

(** ** Flag tests ([src/lib/db/util.c]) *)

Record flag_tests := mkFlagTests { ft_mask : Z; ft_result : Z }.
Definition SCM_FLAG_VALIDATED : Z := 4.
Definition SCM_FLAG_NOCHAIN : Z := 8.
Definition SCM_FLAG_NOTYET : Z := 16.
Definition SCM_FLAG_STALECRL : Z := 32.
Definition SCM_FLAG_STALEMAN : Z := 64.
Definition SCM_FLAG_ONMAN : Z := 256.

(** The configuration options the tests depend on. *)
Record config := mkConfig {
  allow_stale_validation_chain : bool;
  allow_stale_crl : bool;
  allow_stale_manifest : bool;
  allow_no_manifest : bool;
  allow_not_yet : bool;
  retention_hours : Z }.

Definition flag_tests_empty : flag_tests := mkFlagTests 0 0.
Definition flag_tests_add_tests_by_mask (t : flag_tests) (mask : Z) (isset : bool) : flag_tests :=
  mkFlagTests (Z.lor (ft_mask t) mask)
    (if isset then Z.lor (ft_result t) mask else Z.land (ft_result t) (Z.lnot mask)).
Definition flag_tests_default (c : config) : flag_tests :=
  let add (skip : bool) mask isset t :=
    if skip then t else flag_tests_add_tests_by_mask t mask isset in
  let t := flag_tests_add_tests_by_mask flag_tests_empty SCM_FLAG_VALIDATED true in
  let t := add (allow_stale_validation_chain c) SCM_FLAG_NOCHAIN false t in
  let t := add (allow_stale_crl c) SCM_FLAG_STALECRL false t in
  let t := add (allow_stale_manifest c) SCM_FLAG_STALEMAN false t in
  let t := add (allow_no_manifest c) SCM_FLAG_ONMAN true t in
  add (allow_not_yet c) SCM_FLAG_NOTYET false t.

(** ** Connection and statement execution *)

(** What the server makes of one [mysql_stmt_execute]: it runs the statement,
    refuses it, or the connection is lost before or after it ran. *)
Inductive exec_outcome := ExOk | ExError | ExLost (applied : bool).

Record stmt_env := mkEnv {
  env_other : db -> db;              (* changes by other processes *)
  bind_param_fails : bool;
  exec1 : exec_outcome;
  reconnect_fails : bool;
  exec2 : exec_outcome;
  bind_result_fails : bool;
  store_result_fails : bool;
  fetch_error : option nat }.        (* the fetch that fails, from 0 *)

(** The tables as the server has them, and the connection's prepared
    statements: the generation they belong to, or [None] once they are
    deleted. *)
Record dbconn := mkConn { c_db : db; c_stmts : option nat }.

(** Undefined behaviour: [conn->stmts] is NULL, a closed [MYSQL_STMT] is used,
    or a PDU is written past the end of its array. *)
Inductive undefined := NullStmts | ClosedStmt | PduOverflow.
Definition DB (A : Type) : Type := ESt dbconn undefined A.

(** [conn->stmts[DB_CLIENT_TYPE_RTR][...]]. *)
Definition get_stmt : DB nat :=
  fun c => match c_stmts c with Some h => (c, inr h) | None => (c, inl NullStmts) end.

Inductive exec_result := ROk | RError | RLost.

Definition mysql_stmt_execute (o : exec_outcome) (h : nat) (stmt : db -> option db)
    : DB exec_result :=
  fun c =>
    if decide (c_stmts c = Some h) then
      match o with
      | ExOk => match stmt (c_db c) with
                | Some d => (mkConn d (c_stmts c), inr ROk)
                | None => (c, inr RError)
                end
      | ExError => (c, inr RError)
      | ExLost applied =>
          (mkConn (if applied then default (c_db c) (stmt (c_db c)) else c_db c) (c_stmts c),
           inr RLost)
      end
    else (c, inl ClosedStmt).

(** [stmtDeleteAll], a new connection, [stmtAddAll]. *)
Definition reconnectMysqlCApi (fails : bool) : DB bool :=
  fun c => (mkConn (c_db c) (if fails then None else S <$> c_stmts c), inr fails).

(** The loop runs at most twice: [tried] allows one reconnection. *)
Definition wrap_mysql_stmt_execute (e : stmt_env) (h : nat) (stmt : db -> option db) : DB Z :=
  est_modify (fun c => mkConn (env_other e (c_db c)) (c_stmts c)) ;;;
  let* r := mysql_stmt_execute (exec1 e) h stmt in
  match r with
  | ROk => est_ret 0
  | RError => est_ret 1
  | RLost =>
      let* bad := reconnectMysqlCApi (reconnect_fails e) in
      if bad : bool then est_ret (-1)
      else
        let* r2 := mysql_stmt_execute (exec2 e) h stmt in
        match r2 with
        | ROk => est_ret 0
        | RError => est_ret 1
        | RLost => est_ret (-1)
        end
  end.

(** The steps of a query up to its first fetch: bind parameters (if it has
    any), execute, bind the result columns, store the result (where the code
    does). [None] is the error return of the calling function. *)
Definition run_select {R} (e : stmt_env) (binds stores : bool) (q : db -> list R)
    : DB (option (list R)) :=
  let* h := get_stmt in
  if binds && bind_param_fails e then est_ret None
  else
    let* r := wrap_mysql_stmt_execute e h Some in
    if negb (r =? 0) then est_ret None
    else
      let* rows := est_gets (fun c => q (c_db c)) in
      if bind_result_fails e then est_ret None
      else if stores && store_result_fails e then est_ret None
      else est_ret (Some rows).

(** The steps of a statement that returns no rows; [true] is success. *)
Definition run_update (e : stmt_env) (binds : bool) (stmt : db -> option db) : DB bool :=
  let* h := get_stmt in
  if binds && bind_param_fails e then est_ret false
  else
    let* r := wrap_mysql_stmt_execute e h stmt in
    est_ret (r =? 0).

Inductive fetch_result (R : Type) := FRow (r : R) | FNoData | FError.
Arguments FRow {R}. Arguments FNoData {R}. Arguments FError {R}.

(** [mysql_stmt_fetch] number [k] on a result with the given rows left. *)
Definition mysql_stmt_fetch {R} (e : stmt_env) (k : nat) (rows : list R) : fetch_result R :=
  if decide (fetch_error e = Some k) then FError
  else match rows with r :: _ => FRow r | [] => FNoData end.
