(* ===== verification/SqlFacts.v ===== *)
(** * Facts about row order, pages and the statement layer

    [order by] on the key columns is a strict total order, so paging with
    [(columns) > (last row) ... limit n] walks the sorted table without gaps
    or repetitions; and what [wrap_mysql_stmt_execute] does in each outcome. *)

From S2P Require Import Prelude Sql.
From Stdlib Require Import Sorted.
Local Open Scope est_scope.

Definition row_lt (r1 r2 : roa_row) : Prop := row_cmp r1 r2 = Lt.

(** The table in key order, strictly (its key is unique). *)
Definition sorted_rows {A} (key : A -> roa_row) (l : list A) : Prop :=
  StronglySorted (fun x y => row_lt (key x) (key y)) l.

(** A call into the database in which nothing fails and no other process
    interferes. *)
Definition quiet : stmt_env := mkEnv id false ExOk false ExOk false false None.

(** The connection is not lost during the call. *)
Definition kept (e : stmt_env) : Prop := forall a, exec1 e <> ExLost a.

(** ** The order *)

Lemma bytes_cmp_eq a : forall b, bytes_cmp a b = Eq -> a = b.
Proof.
  induction a as [|x a IH]; intros [|y b]; cbn; try done.
  destruct (x ?= y) eqn:E; try done. apply Z.compare_eq in E as ->. intros H. f_equal. by apply IH.
Qed.

Lemma bytes_cmp_opp a : forall b, bytes_cmp b a = CompOpp (bytes_cmp a b).
Proof.
  induction a as [|x a IH]; intros [|y b]; cbn; try done.
  rewrite (Z.compare_antisym x y). destruct (x ?= y); cbn; [apply IH|done..].
Qed.

Lemma bytes_cmp_refl a : bytes_cmp a a = Eq.
Proof. induction a as [|x a IH]; cbn; [done|]. by rewrite Z.compare_refl. Qed.

Lemma bytes_cmp_trans a : forall b c, bytes_cmp a b = Lt -> bytes_cmp b c = Lt -> bytes_cmp a c = Lt.
Proof.
  induction a as [|x a IH]; intros [|y b] [|z c]; cbn; try done.
  destruct (Z.compare_spec x y), (Z.compare_spec y z); try done; intros H1 H2; subst.
  - rewrite Z.compare_refl. by eapply IH.
  - by destruct (Z.compare_spec y z); try lia.
  - by destruct (Z.compare_spec x z); try lia.
  - by destruct (Z.compare_spec x z); try lia.
Qed.

Lemma row_cmp_eq r1 r2 : row_cmp r1 r2 = Eq -> r1 = r2.
Proof.
  destruct r1, r2. unfold row_cmp. cbn.
  destruct (Z.compare_spec asn asn0); try done.
  destruct (bytes_cmp prefix prefix0) eqn:E; try done. apply bytes_cmp_eq in E.
  destruct (Z.compare_spec prefix_length prefix_length0); try done.
  destruct (Z.compare_spec prefix_max_length prefix_max_length0); try done.
  intros _. by subst.
Qed.

Lemma row_cmp_opp r1 r2 : row_cmp r2 r1 = CompOpp (row_cmp r1 r2).
Proof.
  unfold row_cmp. rewrite (Z.compare_antisym (asn r1)). destruct (asn r1 ?= asn r2); cbn; try done.
  rewrite (bytes_cmp_opp (prefix r1)). destruct (bytes_cmp _ _); cbn; try done.
  rewrite (Z.compare_antisym (prefix_length r1)).
  destruct (prefix_length r1 ?= prefix_length r2); cbn; try done.
  apply Z.compare_antisym.
Qed.

Lemma row_cmp_refl r : row_cmp r r = Eq.
Proof. unfold row_cmp. by rewrite !Z.compare_refl, bytes_cmp_refl. Qed.

(** Lexicographic combination of two transitive comparisons. *)
Lemma lex_trans (c1 c2 c3 d1 d2 d3 : comparison) :
  (c1 = Lt -> c2 = Lt -> c3 = Lt) -> (c1 = Eq -> c3 = c2) -> (c2 = Eq -> c3 = c1) ->
  (d1 = Lt -> d2 = Lt -> d3 = Lt) ->
  match c1 with Eq => d1 | Lt => Lt | Gt => Gt end = Lt -> match c2 with Eq => d2 | Lt => Lt | Gt => Gt end = Lt ->
  match c3 with Eq => d3 | Lt => Lt | Gt => Gt end = Lt.
Proof. intros H1 H2 H3 H4. destruct c1, c2; intros; try done; rewrite ?H2, ?H3, ?H1 by done; auto. Qed.

Lemma Zcmp_trans x y z : (x ?= y) = Lt -> (y ?= z) = Lt -> (x ?= z) = Lt.
Proof. rewrite !Z.compare_lt_iff. lia. Qed.

Lemma row_lt_trans r1 r2 r3 : row_lt r1 r2 -> row_lt r2 r3 -> row_lt r1 r3.
Proof.
  unfold row_lt, row_cmp.
  apply (lex_trans (asn r1 ?= asn r2) (asn r2 ?= asn r3)); [apply Zcmp_trans| | |].
  1,2: intros E; apply Z.compare_eq in E; by rewrite E.
  apply (lex_trans (bytes_cmp (prefix r1) (prefix r2)) (bytes_cmp (prefix r2) (prefix r3)));
    [apply bytes_cmp_trans| | |].
  1,2: intros E; apply bytes_cmp_eq in E; by rewrite E.
  apply (lex_trans (prefix_length r1 ?= prefix_length r2) (prefix_length r2 ?= prefix_length r3));
    [apply Zcmp_trans| | |].
  1,2: intros E; apply Z.compare_eq in E; by rewrite E.
  apply Zcmp_trans.
Qed.

Lemma row_ltb_lt r1 r2 : row_ltb r1 r2 = true <-> row_lt r1 r2.
Proof. unfold row_ltb, row_lt. by destruct (row_cmp r1 r2). Qed.

Lemma row_ltb_asym r1 r2 : row_lt r1 r2 -> row_ltb r2 r1 = false.
Proof. unfold row_ltb, row_lt. intros H. by rewrite (row_cmp_opp r1 r2), H. Qed.

Lemma row_ltb_irrefl r : row_ltb r r = false.
Proof. unfold row_ltb. by rewrite row_cmp_refl. Qed.

Lemma row_ltb_total r1 r2 : r1 <> r2 -> row_ltb r1 r2 = false -> row_lt r2 r1.
Proof.
  unfold row_ltb, row_lt. intros Hne. rewrite (row_cmp_opp r1 r2).
  destruct (row_cmp r1 r2) eqn:E; try done. by apply row_cmp_eq in E.
Qed.

(** ** Sorting *)

Section sorting.
Context {A : Type} (key : A -> roa_row).
Implicit Types l : list A.

Lemma insert_by_perm x l : insert_by key x l ≡ₚ x :: l.
Proof.
  induction l as [|y l IH]; cbn; [done|]. destruct (row_ltb _ _); [|done].
  by rewrite IH, Permutation_swap.
Qed.

Lemma sort_by_perm l : sort_by key l ≡ₚ l.
Proof. induction l as [|x l IH]; cbn; [done|]. unfold sort_by in IH. by rewrite insert_by_perm, IH. Qed.

Lemma insert_by_sorted x l :
  sorted_rows key l -> key x ∉ (key <$> l) -> sorted_rows key (insert_by key x l).
Proof.
  unfold sorted_rows. induction l as [|y l IH]; intros Hs Hx; cbn.
  { repeat constructor. }
  inversion Hs as [|? ? Hs' Hy]; subst. cbn in Hx. apply not_elem_of_cons in Hx as [Hne Hx].
  destruct (row_ltb (key y) (key x)) eqn:E.
  - constructor; [by apply IH|]. rewrite insert_by_perm. constructor; [by apply row_ltb_lt|done].
  - apply row_ltb_total in E; [|done]. constructor; [done|]. constructor; [done|].
    eapply Forall_impl; [exact Hy|]. intros z Hz. by eapply row_lt_trans.
Qed.

Lemma sort_by_sorted l : NoDup (key <$> l) -> sorted_rows key (sort_by key l).
Proof.
  induction l as [|x l IH]; intros Hnd; cbn; [constructor|].
  cbn in Hnd. apply NoDup_cons in Hnd as [Hx Hnd]. apply insert_by_sorted; [by apply IH|].
  fold (sort_by key l). by rewrite sort_by_perm.
Qed.

Lemma insert_by_head x l :
  Forall (fun z => row_ltb (key z) (key x) = false) l -> insert_by key x l = x :: l.
Proof. intros H. destruct l as [|y l]; [done|]. cbn. inversion H as [|? ? Hy]; subst. by rewrite Hy. Qed.

Lemma filter_insert_by (P : A -> bool) x l :
  sorted_rows key l ->
  List.filter P (insert_by key x l)
  = if P x then insert_by key x (List.filter P l) else List.filter P l.
Proof.
  unfold sorted_rows. induction l as [|y l IH]; intros Hs; cbn; [by destruct (P x)|].
  inversion Hs as [|? ? Hs' Hy]; subst. specialize (IH Hs').
  destruct (row_ltb (key y) (key x)) eqn:E; cbn.
  - rewrite IH. destruct (P y), (P x); cbn; rewrite ?E; done.
  - destruct (P x); [|done]. destruct (P y); cbn; rewrite ?E; [done|].
    rewrite insert_by_head; [done|]. apply Forall_forall. intros z Hz.
    apply list_elem_of_In, List.filter_In in Hz as [Hz _]. apply list_elem_of_In in Hz.
    rewrite Forall_forall in Hy. specialize (Hy z Hz).
    destruct (row_ltb (key z) (key x)) eqn:E'; [|done]. exfalso.
    apply row_ltb_lt in E'. pose proof (row_lt_trans _ _ _ Hy E') as Hyx.
    apply row_ltb_lt in Hyx. congruence.
Qed.

Lemma sort_by_filter (P : A -> bool) l :
  NoDup (key <$> l) -> sort_by key (List.filter P l) = List.filter P (sort_by key l).
Proof.
  induction l as [|x l IH]; intros Hnd; cbn; [done|].
  cbn in Hnd. apply NoDup_cons in Hnd as [_ Hnd]. fold (sort_by key l).
  rewrite filter_insert_by by (by apply sort_by_sorted).
  rewrite <- IH by done. by destruct (P x).
Qed.

Lemma filter_all (P : A -> bool) l : Forall (fun x => P x = true) l -> List.filter P l = l.
Proof. induction 1 as [|x l Hx _ IH]; cbn; [done|]. by rewrite Hx, IH. Qed.

Lemma filter_none (P : A -> bool) l : Forall (fun x => P x = false) l -> List.filter P l = [].
Proof. induction 1 as [|x l Hx _ IH]; cbn; [done|]. by rewrite Hx. Qed.

Lemma sorted_after L k x :
  sorted_rows key L -> L !! k = Some x ->
  List.filter (fun y => row_ltb (key x) (key y)) L = drop (S k) L.
Proof.
  unfold sorted_rows. revert k. induction L as [|y L IH]; intros k Hs Hk; [done|].
  inversion Hs as [|? ? Hs' Hy]; subst. rewrite Forall_forall in Hy. destruct k as [|k]; cbn in *.
  - injection Hk as <-. rewrite row_ltb_irrefl, drop_0. apply filter_all.
    apply Forall_forall. intros z Hz. by apply row_ltb_lt, Hy.
  - rewrite row_ltb_asym; [by apply IH|]. apply Hy. by eapply list_elem_of_lookup_2.
Qed.

(** The page after position [k] of the sorted table. *)
Lemma select_page_spec l k first last limit :
  NoDup (key <$> l) ->
  (first = true /\ k = 0%nat
   \/ first = false /\ exists j x, k = S j /\ sort_by key l !! j = Some x /\ key x = last) ->
  select_page key first last limit l = take limit (drop k (sort_by key l)).
Proof.
  intros Hnd Hk. unfold select_page. f_equal. rewrite sort_by_filter by done.
  destruct Hk as [[-> ->]|(-> & j & x & -> & Hx & <-)]; cbn [orb].
  - rewrite drop_0. apply filter_all. by apply Forall_forall.
  - apply sorted_after; [by apply sort_by_sorted|done].
Qed.
End sorting.

(** ** The statement layer *)

Lemma execute_open o h stmt d :
  mysql_stmt_execute o h stmt (mkConn d (Some h)) =
  match o with
  | ExOk => match stmt d with
            | Some d' => (mkConn d' (Some h), inr ROk)
            | None => (mkConn d (Some h), inr RError)
            end
  | ExError => (mkConn d (Some h), inr RError)
  | ExLost applied => (mkConn (if applied then default d (stmt d) else d) (Some h), inr RLost)
  end.
Proof. unfold mysql_stmt_execute. cbn [c_stmts c_db]. by rewrite decide_True. Qed.

Lemma execute_closed o h h' stmt d :
  h <> h' -> mysql_stmt_execute o h stmt (mkConn d (Some h')) = (mkConn d (Some h'), inl ClosedStmt).
Proof.
  intros Hne. unfold mysql_stmt_execute. cbn [c_stmts c_db]. by rewrite decide_False by congruence.
Qed.

Lemma wrap_execute e h stmt d :
  wrap_mysql_stmt_execute e h stmt (mkConn d (Some h)) =
  match exec1 e with
  | ExOk => match stmt (env_other e d) with
            | Some d' => (mkConn d' (Some h), inr 0)
            | None => (mkConn (env_other e d) (Some h), inr 1)
            end
  | ExError => (mkConn (env_other e d) (Some h), inr 1)
  | ExLost applied =>
      let d' := if applied then default (env_other e d) (stmt (env_other e d)) else env_other e d in
      if reconnect_fails e then (mkConn d' None, inr (-1))
      else (mkConn d' (Some (S h)), inl ClosedStmt)
  end.
Proof.
  unfold wrap_mysql_stmt_execute, est_modify. unfold est_bind at 1. cbn [c_db c_stmts].
  unfold est_bind at 1. rewrite execute_open.
  destruct (exec1 e) as [| |applied]; [by destruct (stmt (env_other e d))|done|].
  unfold est_bind at 1, reconnectMysqlCApi. cbn [c_db c_stmts].
  destruct (reconnect_fails e); [done|]. cbn [fmap option_fmap option_map].
  unfold est_bind. by rewrite execute_closed by lia.
Qed.

Lemma run_select_quiet {R} binds stores (q : db -> list R) d h :
  run_select quiet binds stores q (mkConn d (Some h)) = (mkConn d (Some h), inr (Some (q d))).
Proof.
  unfold run_select, get_stmt. unfold est_bind at 1. cbn [c_stmts].
  rewrite andb_false_r. unfold est_bind at 1. rewrite wrap_execute. cbn. by rewrite andb_false_r.
Qed.

(** [Wrap_mysql_stmt_execute]. While the connection is not lost, it runs
    the statement exactly once on the tables the server has: 0 means the
    statement took effect, anything else that the tables are unchanged, and
    the prepared statements stay usable. When the connection is lost and the
    reconnection succeeds, the retry goes through a statement handle that the
    reconnection has closed, so the call never completes: the retry cannot
    work. *)
Lemma wrap_execute_spec e h stmt d :
  wrap_mysql_stmt_execute e h stmt (mkConn d (Some h)) =
  match exec1 e with
  | ExOk => match stmt (env_other e d) with
            | Some d' => (mkConn d' (Some h), inr 0)
            | None => (mkConn (env_other e d) (Some h), inr 1)
            end
  | ExError => (mkConn (env_other e d) (Some h), inr 1)
  | ExLost applied =>
      let d' := if applied then default (env_other e d) (stmt (env_other e d)) else env_other e d in
      if reconnect_fails e then (mkConn d' None, inr (-1))
      else (mkConn d' (Some (S h)), inl ClosedStmt)
  end.
Proof. apply wrap_execute. Qed.

(** ** Flag tests *)

(** The [where] clause [FLAG_TESTS_EXPRESSION] as [valid_roas] uses it. *)
Definition passes (t : flag_tests) (flags : Z) : bool := Z.land flags (ft_mask t) =? ft_result t.

Lemma passes_add t flags k isset :
  0 <= k -> Z.testbit (ft_mask t) k = false -> Z.testbit (ft_result t) k = false ->
  passes (flag_tests_add_tests_by_mask t (2 ^ k) isset) flags
  = passes t flags && Bool.eqb (Z.testbit flags k) isset.
Proof.
  intros Hk Hm Hr. apply eq_true_iff_eq. unfold passes.
  rewrite andb_true_iff, !Z.eqb_eq, eqb_true_iff. cbn [ft_mask ft_result flag_tests_add_tests_by_mask].
  assert (Hbit : forall i, Z.testbit (if isset then Z.lor (ft_result t) (2 ^ k)
                                      else Z.land (ft_result t) (Z.lnot (2 ^ k))) i
                           = if decide (i = k) then isset else Z.testbit (ft_result t) i).
  { intros i. destruct (decide (i < 0)) as [Hi|Hi].
    - rewrite !Z.testbit_neg_r by lia. by destruct (decide _); [lia|].
    - destruct isset; [rewrite Z.lor_spec|rewrite Z.land_spec, Z.lnot_spec by lia];
        rewrite Z.pow2_bits_eqb by lia; destruct (Z.eqb_spec k i), (decide (i = k)); try lia; subst;
        rewrite ?orb_true_r, ?orb_false_r, ?andb_false_r, ?andb_true_r; done. }
  split.
  - intros E. assert (Hi : forall i, Z.testbit flags i && (Z.testbit (ft_mask t) i || (k =? i))
      = if decide (i = k) then isset else Z.testbit (ft_result t) i).
    { intros i. rewrite <- Hbit, <- E, Z.land_spec, Z.lor_spec. f_equal. f_equal.
      destruct (decide (i < 0)); [rewrite Z.testbit_neg_r by lia|by rewrite Z.pow2_bits_eqb].
      destruct (Z.eqb_spec k i); [lia|done]. }
    split.
    + apply Z.bits_inj'. intros i _. rewrite Z.land_spec. specialize (Hi i).
      destruct (decide (i = k)) as [->|]; [by rewrite Hm, Hr, andb_false_r|].
      destruct (Z.eqb_spec k i); [lia|]. by rewrite orb_false_r in Hi.
    + specialize (Hi k). rewrite Z.eqb_refl, orb_true_r, andb_true_r in Hi. by destruct (decide _).
  - intros [E Ek]. apply Z.bits_inj'. intros i Hi0. rewrite Hbit, Z.land_spec, Z.lor_spec, Z.pow2_bits_eqb by lia.
    destruct (decide (i = k)) as [->|Hne]; [by rewrite Z.eqb_refl, orb_true_r, andb_true_r|].
    rewrite (proj2 (Z.eqb_neq k i)), orb_false_r, <- E, Z.land_spec by done. done.
Qed.

(** The flag tests that select the ROAs to publish. A ROA is selected
    exactly when it is validated and, unless the configuration allows it, its
    chain is complete, its CRL and manifest are not stale, it is on a manifest
    and it is not in the future. *)
Lemma flag_tests_default_spec c flags :
  Z.land flags (ft_mask (flag_tests_default c)) = ft_result (flag_tests_default c)
  <-> Z.testbit flags 2 = true
      /\ (allow_stale_validation_chain c = true \/ Z.testbit flags 3 = false)
      /\ (allow_stale_crl c = true \/ Z.testbit flags 5 = false)
      /\ (allow_stale_manifest c = true \/ Z.testbit flags 6 = false)
      /\ (allow_no_manifest c = true \/ Z.testbit flags 8 = true)
      /\ (allow_not_yet c = true \/ Z.testbit flags 4 = false).
Proof.
  rewrite <- Z.eqb_eq. change (_ =? _) with (passes (flag_tests_default c) flags).
  unfold flag_tests_default. change SCM_FLAG_VALIDATED with (2 ^ 2). change SCM_FLAG_NOCHAIN with (2 ^ 3).
  change SCM_FLAG_STALECRL with (2 ^ 5). change SCM_FLAG_STALEMAN with (2 ^ 6).
  change SCM_FLAG_ONMAN with (2 ^ 8). change SCM_FLAG_NOTYET with (2 ^ 4).
  assert (E0 : passes flag_tests_empty flags = true) by (unfold passes; cbn; by rewrite Z.land_0_r).
  destruct c as [[] [] [] [] [] ?];
    cbn [allow_stale_validation_chain allow_stale_crl allow_stale_manifest allow_no_manifest allow_not_yet];
    rewrite !passes_add by (lia || reflexivity); rewrite E0;
    rewrite ?andb_true_iff, ?eqb_true_iff; intuition congruence.
Qed.
