(* ===== verification/RtrQuery.v ===== *)
(** * Serial and reset queries ([src/lib/db/clients/rtr.c], first part)

    The queries that answer a router: each [..._init] sets up a
    [query_state], each [..._get_next] returns the next batch of PDUs. Every
    function takes the outcomes of its database calls ([stmt_env]), one per
    statement it runs. *)

From S2P Require Import Prelude Pdu Sql.
Local Open Scope est_scope.

(** ** Single-row queries *)

(** GET_SERNUM_SUCCESS, GET_SERNUM_ERR and GET_SERNUM_NONE. *)
Inductive sernum_result (R : Type) := GET_SERNUM_SUCCESS (r : R) | GET_SERNUM_ERR | GET_SERNUM_NONE.
Arguments GET_SERNUM_SUCCESS {R}. Arguments GET_SERNUM_ERR {R}. Arguments GET_SERNUM_NONE {R}.

(** 0 with [*session] set, or -1 ([None]). *)
Definition db_rtr_get_session_id (e : stmt_env) : DB (option Z) :=
  let* res := run_select e true true (q_get_session 2) in
  match res with
  | None => est_ret None
  | Some rows =>
      if negb (Nat.eqb (length rows) 1) then est_ret None
      else match mysql_stmt_fetch e 0 rows with
           | FRow s => est_ret (Some s)
           | _ => est_ret None
           end
  end.

(** The shape shared by the serial-number lookups: one fetch of one row. *)
Definition fetch_sernum {R} (e : stmt_env) (binds : bool) (q : db -> list R)
    : DB (sernum_result R) :=
  let* res := run_select e binds true q in
  match res with
  | None => est_ret GET_SERNUM_ERR
  | Some rows => match mysql_stmt_fetch e 0 rows with
                 | FRow r => est_ret (GET_SERNUM_SUCCESS r)
                 | FNoData => est_ret GET_SERNUM_NONE
                 | FError => est_ret GET_SERNUM_ERR
                 end
  end.

Definition db_rtr_get_latest_sernum (e : stmt_env) : DB (sernum_result Z) :=
  fetch_sernum e false q_latest_sernum.

(** -1 ([None]), or whether there are rows. *)
Definition hasRowsRtrUpdate (e : stmt_env) : DB (option bool) :=
  let* res := run_select e false true q_has_rows in
  match res with
  | None => est_ret None
  | Some rows => match mysql_stmt_fetch e 0 rows with
                 | FRow b => est_ret (Some b)
                 | _ => est_ret None
                 end
  end.

(** Every caller asks for [serial_num]. *)
Definition readSerNumAsPrev (e : stmt_env) (ser_num_prev : Z) : DB (sernum_result Z) :=
  fetch_sernum e true (q_read_as_prev ser_num_prev).

(** [prev_serial_num] ([None] when [*prev_was_null]) and [has_full]; the
    callers use the columns they asked for. *)
Definition readSerNumAsCurrent (e : stmt_env) (serial : Z)
    : DB (sernum_result (option Z * bool)) :=
  fetch_sernum e true (q_read_as_current serial).

(** ** PDUs *)

Definition fillPduIpPrefix (pdu : PDU) (r : roa_row) (announce : bool) : option PDU :=
  let flags := if announce then FLAG_WITHDRAW_ANNOUNCE else 0 in
  match length (prefix r) with
  | 4%nat => Some (fill_pdu_ipv4_prefix pdu flags (prefix_length r) (prefix_max_length r)
                     (prefix r) (asn r))
  | 16%nat => Some (fill_pdu_ipv6_prefix pdu flags (prefix_length r) (prefix_max_length r)
                      (prefix r) (asn r))
  | _ => None
  end.

(** The elements of a [calloc]ed array. *)
Definition zero_pdu : PDU := mkPDU 0 0 0 0 BNone.

(** [fill_pdu_...(&pdus[num_pdus++], ...)] in an array of [max_rows]. *)
Definition push_pdu (max_rows : nat) (pdus : list PDU) (p : PDU) : DB (list PDU) :=
  if Nat.ltb (length pdus) max_rows then est_ret (pdus ++ [p]) else est_exit PduOverflow.

(** ** Query state *)

Record query_state := mkQS {
  ser_num : Z;
  first_time : bool;
  last_row : roa_row;
  bad_ser_num : bool;
  data_sent : bool;
  no_new_data : bool;
  not_ready : bool;
  session : Z }.

Definition no_row : roa_row := mkRow 0 [] 0 0.
Definition fresh_state : query_state := mkQS 0 true no_row false false false false 0.

Definition set_ser_num (s : Z) (q : query_state) : query_state :=
  mkQS s (first_time q) (last_row q) (bad_ser_num q) (data_sent q) (no_new_data q) (not_ready q) (session q).
Definition set_last (r : roa_row) (q : query_state) : query_state :=
  mkQS (ser_num q) false r (bad_ser_num q) (data_sent q) (no_new_data q) (not_ready q) (session q).
Definition set_first_time (q : query_state) : query_state :=
  mkQS (ser_num q) true (last_row q) (bad_ser_num q) (data_sent q) (no_new_data q) (not_ready q) (session q).
Definition set_bad_ser_num (q : query_state) : query_state :=
  mkQS (ser_num q) (first_time q) (last_row q) true (data_sent q) (no_new_data q) (not_ready q) (session q).
Definition set_data_sent (q : query_state) : query_state :=
  mkQS (ser_num q) (first_time q) (last_row q) (bad_ser_num q) true (no_new_data q) (not_ready q) (session q).
Definition set_no_new_data (q : query_state) : query_state :=
  mkQS (ser_num q) (first_time q) (last_row q) (bad_ser_num q) (data_sent q) true (not_ready q) (session q).
Definition set_not_ready (q : query_state) : query_state :=
  mkQS (ser_num q) (first_time q) (last_row q) (bad_ser_num q) (data_sent q) (no_new_data q) true (session q).
Definition set_session (s : Z) (q : query_state) : query_state :=
  mkQS (ser_num q) (first_time q) (last_row q) (bad_ser_num q) (data_sent q) (no_new_data q) (not_ready q) s.

(** ** Serial query *)

(** -1 ([None]), or 0 with the new state. *)
Definition db_rtr_serial_query_init (calloc_ok : bool) (e_prev e_cur e_rows : stmt_env)
    (serial : Z) : DB (option query_state) :=
  if negb calloc_ok then est_ret None
  else
    let state := fresh_state in
    let* r := readSerNumAsPrev e_prev serial in
    match r with
    | GET_SERNUM_SUCCESS serial_next => est_ret (Some (set_ser_num serial_next state))
    | GET_SERNUM_ERR => est_ret None
    | GET_SERNUM_NONE =>
        let* r := readSerNumAsCurrent e_cur serial in
        match r with
        | GET_SERNUM_SUCCESS _ => est_ret (Some (set_no_new_data (set_ser_num serial state)))
        | GET_SERNUM_ERR => est_ret None
        | GET_SERNUM_NONE =>
            let* r := hasRowsRtrUpdate e_rows in
            match r with
            | None => est_ret None
            | Some false => est_ret (Some (set_not_ready state))
            | Some true => est_ret (Some (set_bad_ser_num state))
            end
        end
    end.

(** Return value (-1 error, 1 done, 0 go on), state and PDUs so far. *)
Definition serial_query_pre_query (e_session : stmt_env) (state : query_state) (max_rows : nat)
    (pdus : list PDU) : DB (Z * query_state * list PDU) :=
  if Nat.ltb max_rows 2 then est_ret (-1, state, pdus)
  else if not_ready state then
    let* pdus := push_pdu max_rows pdus (fill_pdu_error_report zero_pdu ERR_NO_DATA 0 None 0 None) in
    est_ret (1, state, pdus)
  else if bad_ser_num state then
    let* pdus := push_pdu max_rows pdus (fill_pdu_cache_reset zero_pdu) in
    est_ret (1, state, pdus)
  else
    let* s := db_rtr_get_session_id e_session in
    match s with
    | None => est_ret (-1, state, pdus)
    | Some s =>
        let state := set_session s state in
        if no_new_data state then
          let* pdus := push_pdu max_rows pdus (fill_pdu_cache_response zero_pdu (session state)) in
          let* pdus := push_pdu max_rows pdus
                         (fill_pdu_end_of_data zero_pdu (session state) (ser_num state)) in
          est_ret (1, state, pdus)
        else if negb (data_sent state) then
          let* pdus := push_pdu max_rows pdus (fill_pdu_cache_response zero_pdu (session state)) in
          est_ret (0, set_data_sent state, pdus)
        else est_ret (0, state, pdus)
    end.

(** The fetch loop, at fetch number [k]. *)
Fixpoint fetch_rows (e : stmt_env) (max_rows : nat) (k : nat) (rows : list (bool * roa_row))
    (state : query_state) (pdus : list PDU) : DB (Z * query_state * list PDU) :=
  match mysql_stmt_fetch e k rows, rows with
  | FRow (ann, r), _ :: rows' =>
      match fillPduIpPrefix zero_pdu r ann with
      | None => est_ret (-1, state, pdus)
      | Some p =>
          let* pdus := push_pdu max_rows pdus p in
          fetch_rows e max_rows (S k) rows' (set_last r state) pdus
      end
  | FError, _ => est_ret (-1, state, pdus)
  | _, _ => est_ret (0, state, pdus)
  end.

Definition serial_query_do_query (e : stmt_env) (state : query_state) (max_rows : nat)
    (pdus : list PDU) : DB (Z * query_state * list PDU) :=
  let* res := run_select e true true
    (q_serial_next (ser_num state) (first_time state) (last_row state) (max_rows - length pdus)) in
  match res with
  | None => est_ret (-1, state, pdus)
  | Some rows => fetch_rows e max_rows 0 rows state pdus
  end.

(** Return value, state, PDUs and [*is_done]. *)
Definition serial_query_post_query (e_cur e_prev : stmt_env) (state : query_state) (max_rows : nat)
    (pdus : list PDU) : DB (Z * query_state * list PDU * bool) :=
  let* r := readSerNumAsCurrent e_cur (ser_num state) in
  match r with
  | GET_SERNUM_ERR => est_ret (-1, state, pdus, true)
  | GET_SERNUM_NONE | GET_SERNUM_SUCCESS (None, _) =>
      let* pdus := push_pdu max_rows pdus (fill_pdu_error_report zero_pdu ERR_NO_DATA 0 None 0 None) in
      est_ret (0, state, pdus, true)
  | GET_SERNUM_SUCCESS (Some _, _) =>
      let* r := readSerNumAsPrev e_prev (ser_num state) in
      match r with
      | GET_SERNUM_SUCCESS next_ser_num =>
          est_ret (0, set_first_time (set_ser_num next_ser_num state), pdus, false)
      | _ =>
          let* pdus := push_pdu max_rows pdus
                         (fill_pdu_end_of_data zero_pdu (session state) (ser_num state)) in
          est_ret (0, state, pdus, true)
      end
  end.

(** What a [..._get_next] call gives back: the return value, the array it hands
    to the caller in [*_pdus] (none on error), [*is_done] and the state. *)
Record next_result := mkNext {
  nr_ret : Z;
  nr_pdus : option (list PDU);
  nr_done : bool;
  nr_state : query_state }.

Definition next_error (state : query_state) : next_result := mkNext (-1) None true state.
Definition next_pdus (pdus : list PDU) (done : bool) (state : query_state) : next_result :=
  mkNext (Z.of_nat (length pdus)) (Some pdus) done state.

(** The outcomes of the statements of one [get_next] call. *)
Record next_env := mkNextEnv {
  ne_calloc_ok : bool;
  ne_session : stmt_env;
  ne_query : stmt_env;
  ne_cur : stmt_env;
  ne_prev : stmt_env }.

Definition serial_query_rows (ne : next_env) (state : query_state) (max_rows : nat)
    (pdus : list PDU) : DB next_result :=
  let* '(ret, state, pdus) := serial_query_do_query (ne_query ne) state max_rows pdus in
  if ret =? -1 then est_ret (next_error state)
  else if Nat.eqb (length pdus) max_rows then est_ret (next_pdus pdus false state)
  else
    let* '(ret, state, pdus, is_done) :=
      serial_query_post_query (ne_cur ne) (ne_prev ne) state max_rows pdus in
    if ret =? -1 then est_ret (next_error state)
    else est_ret (next_pdus pdus is_done state).

Definition db_rtr_serial_query_get_next (ne : next_env) (state : query_state) (max_rows : nat)
    : DB next_result :=
  if negb (ne_calloc_ok ne) then est_ret (next_error state)
  else if negb (data_sent state) then
    let* '(ret, state, pdus) := serial_query_pre_query (ne_session ne) state max_rows [] in
    if ret =? -1 then est_ret (next_error state)
    else if negb (ret =? 0) then est_ret (next_pdus pdus true state)
    else serial_query_rows ne state max_rows pdus
  else serial_query_rows ne state max_rows [].

(** ** Reset query *)

Definition db_rtr_reset_query_init (calloc_ok : bool) (e_latest e_cur : stmt_env)
    : DB (option query_state) :=
  if negb calloc_ok then est_ret None
  else
    let state := fresh_state in
    let* r := db_rtr_get_latest_sernum e_latest in
    match r with
    | GET_SERNUM_ERR => est_ret None
    | GET_SERNUM_NONE => est_ret (Some (set_not_ready state))
    | GET_SERNUM_SUCCESS s =>
        let state := set_ser_num s state in
        let* r := readSerNumAsCurrent e_cur s in
        match r with
        | GET_SERNUM_SUCCESS (_, full) =>
            if full : bool then est_ret (Some state) else est_ret (Some (set_not_ready state))
        | _ => est_ret None
        end
    end.

(** From the statement on: the page of [rtr_full] and the End of Data. *)
Definition reset_query_rows (e : stmt_env) (sid : Z) (state : query_state) (max_rows : nat)
    (pdus : list PDU) : DB next_result :=
  let* res := run_select e true true
    (q_reset_next (ser_num state) (first_time state) (last_row state) (max_rows - length pdus)) in
  match res with
  | None => est_ret (next_error state)
  | Some rows =>
      let* '(ret, state, pdus) := fetch_rows e max_rows 0 (pair true <$> rows) state pdus in
      if ret =? -1 then est_ret (next_error state)
      else if Nat.eqb (length pdus) max_rows then est_ret (next_pdus pdus false state)
      else
        let* pdus := push_pdu max_rows pdus (fill_pdu_end_of_data zero_pdu sid (ser_num state)) in
        est_ret (next_pdus pdus true state)
  end.

Definition db_rtr_reset_query_get_next (ne : next_env) (state : query_state) (max_rows : nat)
    : DB next_result :=
  if Nat.ltb max_rows 2 then est_ret (next_error state)
  else if negb (ne_calloc_ok ne) then est_ret (next_error state)
  else if not_ready state then
    let* pdus := push_pdu max_rows [] (fill_pdu_error_report zero_pdu ERR_NO_DATA 0 None 0 None) in
    est_ret (next_pdus pdus true state)
  else
    let* s := db_rtr_get_session_id (ne_session ne) in
    match s with
    | None => est_ret (next_error state)
    | Some sid =>
        if negb (data_sent state) then
          let* pdus := push_pdu max_rows [] (fill_pdu_cache_response zero_pdu sid) in
          reset_query_rows (ne_query ne) sid (set_data_sent state) max_rows pdus
        else reset_query_rows (ne_query ne) sid state max_rows []
    end.

(** ** Specification vocabulary *)

(** The loop of the database thread: ask for PDUs until the query is done. *)
Definition collect_rest (again : query_state -> DB (option (list PDU))) (r : next_result)
    : DB (option (list PDU)) :=
  match nr_pdus r with
  | None => est_ret None
  | Some ps => if nr_done r then est_ret (Some ps)
               else let* rest := again (nr_state r) in est_ret (app ps <$> rest)
  end.
Fixpoint collect (next : query_state -> DB next_result) (fuel : nat) (state : query_state)
    : DB (option (list PDU)) :=
  match fuel with
  | O => est_ret None
  | S fuel' => let* r := next state in collect_rest (collect next fuel') r
  end.

(** The PDU that announces or withdraws a row. *)
Definition row_pdu (x : bool * roa_row) : PDU :=
  default zero_pdu (fillPduIpPrefix zero_pdu (snd x) (fst x)).

(** What the column types and [SCM_CHECKS_PREFIX_MAXLEN] promise of a row. *)
Definition row_valid (r : roa_row) : Prop :=
  uint_ok 32 (asn r) /\ bytes_ok (prefix r) /\
  (length (prefix r) = 4%nat \/ length (prefix r) = 16%nat) /\
  0 <= prefix_length r <= prefix_max_length r /\
  prefix_max_length r <= Z.of_nat (length (prefix r)) * 8.

(** The keys and checks of the table definitions. *)
Record tables_ok (d : db) : Prop := {
  ok_serial : NoDup (serial_num <$> rtr_update d);
  ok_prev : NoDup (omap prev_serial_num (rtr_update d));
  ok_full : NoDup (rtr_full d);
  ok_inc : NoDup ((fun i => (inc_serial i, inc_roa i)) <$> rtr_incremental d);
  ok_full_rows : Forall (fun f => row_valid (full_roa f)) (rtr_full d);
  ok_inc_rows : Forall (fun i => row_valid (inc_roa i)) (rtr_incremental d) }.

(** The updates that follow serial number [s], up to the newest one. *)
Inductive chain (d : db) : Z -> list Z -> Prop :=
| chain_end s : q_read_as_prev s d = [] -> chain d s []
| chain_step s s' l : q_read_as_prev s d = [s'] -> chain d s' l -> chain d s (s' :: l).

(** The rows of one serial number as a query sends them. *)
Definition sorted_full (s : Z) (d : db) : list (bool * roa_row) :=
  pair true <$> sort_by id (full_rows s d).
Definition sorted_inc (s : Z) (d : db) : list (bool * roa_row) := sort_by snd (inc_rows s d).

(** The changes of several updates, in order, and the serial number reached. *)
Definition updates_rows (l : list Z) (d : db) : list (bool * roa_row) :=
  concat (map (fun s => sorted_inc s d) l).
Definition newest (s : Z) (l : list Z) : Z := default s (last l).

(** What [rtr.h] promises about a batch of PDUs. *)
Definition starts_response (ps : list PDU) : Prop :=
  exists p, head ps = Some p /\ pduType p ∈ [PDU_CACHE_RESPONSE; PDU_CACHE_RESET; PDU_ERROR_REPORT].
Definition ends_response (ps : list PDU) : Prop :=
  exists p, last ps = Some p /\ pduType p ∈ [PDU_END_OF_DATA; PDU_CACHE_RESET; PDU_ERROR_REPORT].
Definition batch_contract (st : query_state) (max_rows : nat) (r : next_result) : Prop :=
  match nr_pdus r with
  | None => nr_ret r = -1 /\ nr_done r = true
  | Some ps =>
      nr_ret r = Z.of_nat (length ps) /\ (length ps <= max_rows)%nat
      /\ (data_sent st = false -> starts_response ps)
      /\ (nr_done r = true -> ends_response ps)
      /\ (nr_done r = false -> data_sent (nr_state r) = true)
  end.

(** The whole contract, with its last clause: zero is returned only if
    [is_done] is set. *)
Definition next_contract (st : query_state) (max_rows : nat) (r : next_result) : Prop :=
  batch_contract st max_rows r /\ (nr_ret r = 0 -> nr_done r = true).

(** The one way a serial query departs from the last clause: the response has
    begun, the update it is at has no row left, and the call has done nothing
    but move the state on to the start of the following update. *)
Definition moved_on (st : query_state) (r : next_result) : Prop :=
  data_sent st = true /\ nr_done r = false
  /\ exists s, nr_state r = set_first_time (set_ser_num s st).
Definition serial_contract (st : query_state) (max_rows : nat) (r : next_result) : Prop :=
  batch_contract st max_rows r
  /\ ((0 < max_rows)%nat -> nr_ret r = 0 -> nr_done r = true \/ moved_on st r).

(** A small database: serial numbers 10, 11 and 12 of session 7. *)
Definition row_a : roa_row := mkRow 64496 [192; 0; 2; 0] 24 24.
Definition row_b : roa_row := mkRow 64497 [198; 51; 100; 0] 24 28.
Definition row_c : roa_row := mkRow 64498 ([32; 1; 13; 184] ++ replicate 12 0) 32 48.
Definition sample_db : db :=
  mkDb [7]
    [mkUpd 10 None 100 false; mkUpd 11 (Some 10) 200 true; mkUpd 12 (Some 11) 300 true]
    [mkFull 12 row_c; mkFull 11 row_a; mkFull 12 row_b; mkFull 11 row_b]
    [mkInc 12 true row_c; mkInc 11 true row_b; mkInc 12 false row_a]
    [mkRoa 1 64497 260; mkRoa 2 64498 260]
    [mkRoaPrefix 1 [198; 51; 100; 0] 24 28; mkRoaPrefix 2 ([32; 1; 13; 184] ++ replicate 12 0) 32 48]
    400.
