(* ===== verification/RtrQueryFacts.v ===== *)
(** * Correctness of the serial and reset queries

    On a database nobody else is changing, the batches of a reset query add
    up to Cache Response, every row of the newest full set once, End of Data;
    those of a serial query to the incremental changes of every later update
    in order. Under arbitrary failures and changes by others, each batch keeps
    to the contract of [src/lib/db/clients/rtr.h]. *)

From S2P Require Import Prelude Pdu Sql SqlFacts RtrQuery.
Local Open Scope est_scope.

Definition quiet_next : next_env := mkNextEnv true quiet quiet quiet quiet.

(** The state is at position [k] of the sorted rows [L]. *)
Definition at_pos (L : list (bool * roa_row)) (st : query_state) (k : nat) : Prop :=
  first_time st = true /\ k = 0%nat
  \/ first_time st = false /\ exists j x, k = S j /\ L !! j = Some x /\ snd x = last_row st.

(** The state after sending [rows]. *)
Definition after (rows : list (bool * roa_row)) (st : query_state) : query_state :=
  match last rows with Some x => set_last (snd x) st | None => st end.

(** The prepared statements of generation [h] are usable. *)
Definition opened (h : nat) (c : dbconn) : Prop := c_stmts c = Some h.
Definition never {E S : Type} (e : E) (s : S) : Prop := False.

(** ** Statement by statement *)

Lemma session_quiet d h sid :
  rtr_session d = [sid] ->
  db_rtr_get_session_id quiet (mkConn d (Some h)) = (mkConn d (Some h), inr (Some sid)).
Proof.
  intros Hs. unfold db_rtr_get_session_id. erewrite bind_val by apply run_select_quiet.
  unfold q_get_session. by rewrite Hs.
Qed.

Lemma sernum_quiet {R} binds (q : db -> list R) d h :
  fetch_sernum quiet binds q (mkConn d (Some h))
  = (mkConn d (Some h), inr match q d with r :: _ => GET_SERNUM_SUCCESS r | [] => GET_SERNUM_NONE end).
Proof.
  unfold fetch_sernum. erewrite bind_val by apply run_select_quiet. by destruct (q d).
Qed.

Lemma push_ok max_rows pdus p c :
  (length pdus < max_rows)%nat -> push_pdu max_rows pdus p c = (c, inr (pdus ++ [p])).
Proof. intros H. unfold push_pdu. by rewrite (proj2 (Nat.ltb_lt _ _) H). Qed.

Lemma row_pdu_valid ann r :
  row_valid r -> fillPduIpPrefix zero_pdu r ann = Some (row_pdu (ann, r)).
Proof.
  intros (_ & _ & Hl & _). unfold row_pdu, fillPduIpPrefix. cbn. by destruct Hl as [-> | ->].
Qed.

Lemma after_cons x rows st : after (x :: rows) st = after rows (set_last (snd x) st).
Proof.
  unfold after. destruct rows as [|y rows]; [done|]. change (x :: y :: rows) with ([x] ++ y :: rows).
  rewrite last_app. destruct (last (y :: rows)) eqn:E; [done|]. by apply last_None in E.
Qed.

Lemma fetch_rows_quiet max_rows rows : forall k st pdus c,
  Forall (fun x => row_valid (snd x)) rows -> (length pdus + length rows <= max_rows)%nat ->
  fetch_rows quiet max_rows k rows st pdus c
  = (c, inr (0, after rows st, pdus ++ (row_pdu <$> rows))).
Proof.
  induction rows as [|[ann r] rows IH]; intros k st pdus c Hv Hl; cbn [fetch_rows].
  - cbn. by rewrite app_nil_r.
  - inversion Hv as [|? ? Hr Hv']; subst. cbn in Hr, Hl. unfold mysql_stmt_fetch.
    rewrite decide_False by done. rewrite row_pdu_valid by done.
    erewrite bind_val by (apply push_ok; lia). rewrite IH; [|done|rewrite length_app; cbn; lia].
    rewrite <- app_assoc. by rewrite after_cons.
Qed.

(** ** Tables *)

Lemma NoDup_map_filter {A B} (f : A -> B) (P : A -> bool) l :
  NoDup (f <$> l) -> NoDup (f <$> List.filter P l).
Proof.
  induction l as [|x l IH]; [done|]. cbn. intros [Hx Hnd]%NoDup_cons. destruct (P x); [|by apply IH].
  cbn. apply NoDup_cons. split; [|by apply IH]. intros Hin. apply Hx.
  apply list_elem_of_fmap in Hin as (y & -> & Hy). apply list_elem_of_fmap_2.
  by apply list_elem_of_In, List.filter_In in Hy as [Hy%list_elem_of_In _].
Qed.

Lemma full_rows_nodup s d : tables_ok d -> NoDup (full_rows s d).
Proof.
  intros H. unfold full_rows. apply NoDup_fmap_2_strong.
  - intros x y Hx Hy E. apply list_elem_of_In, List.filter_In in Hx as [_ Hx].
    apply list_elem_of_In, List.filter_In in Hy as [_ Hy]. bprop. destruct x, y; cbn in *. congruence.
  - pose proof (NoDup_map_filter id (fun f => full_serial f =? s) (rtr_full d)) as Hn.
    rewrite !list_fmap_id in Hn. by apply Hn, ok_full.
Qed.

Lemma inc_rows_nodup s d : tables_ok d -> NoDup (snd <$> inc_rows s d).
Proof.
  intros H. unfold inc_rows. rewrite <- list_fmap_compose.
  pose proof (NoDup_map_filter (fun i => (inc_serial i, inc_roa i)) (fun i => inc_serial i =? s)
    _ (ok_inc _ H)) as Hn.
  apply (NoDup_fmap_1 (pair s)). rewrite <- list_fmap_compose.
  erewrite list_fmap_ext; [exact Hn|]. intros i x Hx. cbn.
  apply list_elem_of_lookup_2, list_elem_of_In, List.filter_In in Hx as [_ Hx]. bprop. by subst.
Qed.

Lemma sorted_full_valid s d : tables_ok d -> Forall (fun x => row_valid (snd x)) (sorted_full s d).
Proof.
  intros H. unfold sorted_full. apply Forall_fmap. unfold compose. cbn. rewrite sort_by_perm.
  unfold full_rows. apply Forall_fmap, Forall_forall. intros f Hf.
  apply list_elem_of_In, List.filter_In in Hf as [Hf%list_elem_of_In _].
  pose proof (ok_full_rows _ H) as Hv. rewrite Forall_forall in Hv. by apply Hv.
Qed.

Lemma sorted_inc_valid s d : tables_ok d -> Forall (fun x => row_valid (snd x)) (sorted_inc s d).
Proof.
  intros H. unfold sorted_inc. rewrite sort_by_perm.
  unfold inc_rows. apply Forall_fmap, Forall_forall. intros f Hf. cbn.
  apply list_elem_of_In, List.filter_In in Hf as [Hf%list_elem_of_In _].
  pose proof (ok_inc_rows _ H) as Hv. rewrite Forall_forall in Hv. by apply Hv.
Qed.

(** ** Pages *)

Lemma reset_page s d st k limit :
  tables_ok d -> at_pos (sorted_full s d) st k ->
  pair true <$> q_reset_next s (first_time st) (last_row st) limit d
  = take limit (drop k (sorted_full s d)).
Proof.
  intros H Hp. unfold q_reset_next, sorted_full. rewrite <- fmap_drop, <- fmap_take.
  f_equal. apply select_page_spec.
  - rewrite list_fmap_id. by apply full_rows_nodup.
  - destruct Hp as [?|(? & j & [a x] & -> & Hj & Hl)]; [by left|right]. split; [done|].
    exists j. unfold sorted_full in Hj. rewrite list_lookup_fmap in Hj.
    destruct (sort_by id (full_rows s d) !! j) as [y|]; [|done]. injection Hj as <- <-. by exists y.
Qed.

Lemma serial_page s d st k limit :
  tables_ok d -> at_pos (sorted_inc s d) st k ->
  q_serial_next s (first_time st) (last_row st) limit d = take limit (drop k (sorted_inc s d)).
Proof.
  intros H Hp. unfold q_serial_next, sorted_inc. apply select_page_spec.
  - by apply inc_rows_nodup.
  - destruct Hp as [?|(? & j & x & -> & Hj & Hl)]; [by left|right]. split; [done|]. by exists j, x.
Qed.

Lemma after_fields rows st :
  ser_num (after rows st) = ser_num st /\ data_sent (after rows st) = data_sent st
  /\ session (after rows st) = session st /\ not_ready (after rows st) = not_ready st.
Proof. unfold after. by destruct (last rows). Qed.

Lemma at_pos_after L st k n :
  at_pos L st k -> at_pos L (after (take n (drop k L)) st) (k + length (take n (drop k L))).
Proof.
  intros Hp. unfold after. destruct (last (take n (drop k L))) as [x|] eqn:E.
  - apply last_Some in E as [rows E]. rewrite E, length_app. cbn.
    right. split; [done|]. exists (k + length rows)%nat, x. split; [lia|]. split; [|done].
    assert (Hx : take n (drop k L) !! length rows = Some x)
      by (by rewrite E, lookup_app_r, Nat.sub_diag by lia).
    apply lookup_take_Some in Hx as [Hx _]. by rewrite lookup_drop in Hx.
  - apply last_None in E as ->. cbn. by rewrite Nat.add_0_r.
Qed.

(** ** One batch of a reset query *)

Lemma take_drop_next {A} n k (L : list A) :
  take n (drop k L) ++ drop (k + length (take n (drop k L))) L = drop k L.
Proof.
  rewrite <- (take_drop n (drop k L)) at 3. f_equal. rewrite drop_drop, length_take, length_drop.
  destruct (Nat.le_gt_cases n (length L - k)); [by replace (n `min` (length L - k))%nat with n by lia|].
  by rewrite !drop_ge by lia.
Qed.

(** A page that leaves room in the batch is the last one. *)
Lemma short_page {A} n k (L : list A) :
  (length (take n (drop k L)) < n)%nat -> drop (k + length (take n (drop k L))) L = [].
Proof. intros H. rewrite length_take, length_drop in *. apply drop_ge. lia. Qed.

Lemma reset_rows_quiet d h sid st max_rows pdus k :
  tables_ok d -> at_pos (sorted_full (ser_num st) d) st k -> (length pdus <= max_rows)%nat ->
  let page := take (max_rows - length pdus) (drop k (sorted_full (ser_num st) d)) in
  let out := pdus ++ (row_pdu <$> page) in
  reset_query_rows quiet sid st max_rows pdus (mkConn d (Some h))
  = (mkConn d (Some h), inr
      (if Nat.eqb (length out) max_rows then next_pdus out false (after page st)
       else next_pdus (out ++ [fill_pdu_end_of_data zero_pdu sid (ser_num st)]) true (after page st))).
Proof.
  intros Hok Hp Hl page out. unfold reset_query_rows.
  erewrite bind_val by apply run_select_quiet. cbn beta iota. rewrite reset_page with (k := k) by done.
  fold page.
  assert (Hlen : (length out <= max_rows)%nat).
  { unfold out, page. rewrite length_app, length_fmap, length_take. lia. }
  erewrite bind_val.
  2: { apply fetch_rows_quiet.
       - unfold page. apply Forall_take, Forall_drop. by apply sorted_full_valid.
       - unfold out in Hlen. rewrite length_app, length_fmap in Hlen. done. }
  cbn [Z.eqb]. fold out. destruct (Nat.eqb_spec (length out) max_rows) as [E|E]; [done|].
  erewrite bind_val by (apply push_ok; lia). by rewrite (proj1 (after_fields page st)).
Qed.

Lemma bind_same {A B} (m m' : DB A) (k : A -> DB B) c :
  m c = m' c -> est_bind k m c = est_bind k m' c.
Proof. unfold est_bind. by intros ->. Qed.

Lemma set_data_sent_id st : data_sent st = true -> set_data_sent st = st.
Proof. destruct st. cbn. by intros ->. Qed.

Notation reset_next max_rows := (fun s => db_rtr_reset_query_get_next quiet_next s max_rows).
Notation serial_next max_rows := (fun s => db_rtr_serial_query_get_next quiet_next s max_rows).

Lemma reset_next_rows d h sid st max_rows :
  rtr_session d = [sid] -> (2 <= max_rows)%nat -> not_ready st = false ->
  db_rtr_reset_query_get_next quiet_next st max_rows (mkConn d (Some h))
  = reset_query_rows quiet sid (set_data_sent st) max_rows
      (if data_sent st then [] else [fill_pdu_cache_response zero_pdu sid]) (mkConn d (Some h)).
Proof.
  intros Hs Hm Hn. unfold db_rtr_reset_query_get_next. rewrite (proj2 (Nat.ltb_ge _ _)) by lia.
  rewrite Hn. cbn [ne_calloc_ok quiet_next negb ne_session ne_query].
  erewrite bind_val by (by apply session_quiet).
  destruct (data_sent st) eqn:E; cbn [negb].
  - destruct st; cbn in *; subst; done.
  - erewrite bind_val by (apply push_ok; cbn; lia). done.
Qed.

(** From position [k] on, with [pdus] in the batch already. *)
Lemma reset_batches d h sid max_rows fuel : forall st k pdus,
  tables_ok d -> rtr_session d = [sid] -> (2 <= max_rows)%nat -> (length pdus < max_rows)%nat ->
  data_sent st = true -> not_ready st = false -> at_pos (sorted_full (ser_num st) d) st k ->
  (length (drop k (sorted_full (ser_num st) d)) <= fuel)%nat ->
  (let* r := reset_query_rows quiet sid st max_rows pdus in
   collect_rest (collect (reset_next max_rows) fuel) r) (mkConn d (Some h))
  = (mkConn d (Some h), inr (Some (pdus ++ (row_pdu <$> drop k (sorted_full (ser_num st) d))
       ++ [fill_pdu_end_of_data zero_pdu sid (ser_num st)]))).
Proof.
  induction fuel as [|fuel IH]; intros st k pdus Hok Hs Hm Hlp Hd Hn Hp Hf;
    erewrite bind_val by (apply reset_rows_quiet; [done|exact Hp|lia]);
    set (L := sorted_full (ser_num st) d) in *; set (page := take (max_rows - length pdus) (drop k L));
    pose proof (take_drop_next (max_rows - length pdus) k L) as Hcat; fold page in Hcat;
    destruct (Nat.eqb_spec (length (pdus ++ (row_pdu <$> page))) max_rows) as [E|E].
  2, 4: rewrite length_app, length_fmap in E;
    assert (Hend : drop (k + length page) L = [])
      by (apply short_page; fold page; unfold page in *; rewrite length_take in *; lia);
    rewrite Hend, app_nil_r in Hcat; unfold collect_rest; cbn [nr_pdus nr_done next_pdus];
    rewrite Hcat, <- app_assoc; done.
  all: rewrite length_app, length_fmap in E; rewrite <- Hcat, length_app in Hf.
  { lia. }
  destruct (after_fields page st) as (E1 & E2 & _ & E4).
  assert (Hrest : collect (reset_next max_rows) (S fuel) (after page st) (mkConn d (Some h))
    = (mkConn d (Some h), inr (Some ((row_pdu <$> drop (k + length page) L)
         ++ [fill_pdu_end_of_data zero_pdu sid (ser_num st)])))).
  { cbn [collect]. rewrite (bind_same _ _ _ _ (reset_next_rows d h sid _ max_rows Hs Hm (eq_trans E4 Hn))).
    rewrite E2, Hd, set_data_sent_id by (by rewrite E2).
    rewrite (IH _ (k + length page)%nat []); rewrite ?E1, ?E2, ?E4; try done; try (cbn; lia).
    - fold L. by apply at_pos_after.
    - fold L. lia. }
  unfold collect_rest. cbn [nr_pdus nr_done next_pdus nr_state]. erewrite bind_val by exact Hrest.
  unfold est_ret. cbn [fmap option_fmap option_map]. rewrite <- Hcat, fmap_app, <- !app_assoc. done.
Qed.

(** ** One batch of a serial query *)

Lemma as_current d s u :
  tables_ok d -> u ∈ rtr_update d -> serial_num u = s ->
  q_read_as_current s d = [(prev_serial_num u, has_full u)].
Proof.
  intros H. pose proof (ok_serial _ H) as Hnd. unfold q_read_as_current.
  induction (rtr_update d) as [|v l IH]; intros Hu Hs; [by apply not_elem_of_nil in Hu|].
  cbn in Hnd. apply NoDup_cons in Hnd as [Hv Hnd]. cbn.
  apply elem_of_cons in Hu as [<-|Hu].
  - rewrite Hs, Z.eqb_refl. cbn. f_equal. rewrite filter_none; [done|].
    apply Forall_forall. intros w Hw. apply Z.eqb_neq. intros E. apply Hv.
    rewrite Hs, <- E. by apply list_elem_of_fmap_2.
  - rewrite (proj2 (Z.eqb_neq _ _)); [by apply IH|]. intros E. apply Hv.
    rewrite E, <- Hs. by apply list_elem_of_fmap_2.
Qed.

Lemma as_prev_row d s s' :
  s' ∈ q_read_as_prev s d -> exists u, u ∈ rtr_update d /\ serial_num u = s' /\ prev_serial_num u = Some s.
Proof.
  unfold q_read_as_prev. intros Hin. apply list_elem_of_fmap in Hin as (u & -> & Hu).
  apply list_elem_of_In, List.filter_In in Hu as [Hu%list_elem_of_In E]. exists u.
  split_and!; [done..|]. unfold opt_eqb in E. destruct (prev_serial_num u); [|done]. bprop. by subst.
Qed.

(** Where a serial query continues after the rows of its serial number. *)
Definition serial_end (d : db) (st : query_state) (out : list PDU) : next_result :=
  match q_read_as_prev (ser_num st) d with
  | s' :: _ => next_pdus out false (set_first_time (set_ser_num s' st))
  | [] => next_pdus (out ++ [fill_pdu_end_of_data zero_pdu (session st) (ser_num st)]) true st
  end.

Lemma serial_rows_quiet d h st max_rows pdus k p f :
  tables_ok d -> at_pos (sorted_inc (ser_num st) d) st k -> (length pdus <= max_rows)%nat ->
  q_read_as_current (ser_num st) d = [(Some p, f)] ->
  let page := take (max_rows - length pdus) (drop k (sorted_inc (ser_num st) d)) in
  let out := pdus ++ (row_pdu <$> page) in
  serial_query_rows quiet_next st max_rows pdus (mkConn d (Some h))
  = (mkConn d (Some h), inr
      (if Nat.eqb (length out) max_rows then next_pdus out false (after page st)
       else serial_end d (after page st) out)).
Proof.
  intros Hok Hp Hl Hcur page out. unfold serial_query_rows, serial_query_do_query, quiet_next.
  cbn [ne_query ne_cur ne_prev].
  assert (Hlen : (length out <= max_rows)%nat).
  { unfold out, page. rewrite length_app, length_fmap, length_take. lia. }
  destruct (after_fields page st) as (E1 & E2 & E3 & E4).
  erewrite bind_val.
  2: { erewrite bind_val by apply run_select_quiet. cbn beta iota. rewrite serial_page with (k := k) by done.
       fold page. apply fetch_rows_quiet.
       - unfold page. apply Forall_take, Forall_drop. by apply sorted_inc_valid.
       - unfold out in Hlen. rewrite length_app, length_fmap in Hlen. done. }
  cbn [Z.eqb]. fold out. destruct (Nat.eqb_spec (length out) max_rows) as [E|E]; [done|].
  unfold serial_query_post_query, serial_end, readSerNumAsCurrent, readSerNumAsPrev. rewrite E1.
  unfold est_bind at 1. unfold est_bind at 1. rewrite sernum_quiet, Hcur. cbn beta iota.
  unfold est_bind at 1. rewrite sernum_quiet.
  destruct (q_read_as_prev (ser_num st) d) as [|s' l]; cbn beta iota; [|done].
  unfold est_bind at 1. by rewrite push_ok by lia.
Qed.

Lemma newest_cons s s' l : newest s (s' :: l) = newest s' l.
Proof.
  unfold newest. destruct l as [|x l]; [done|]. change (s' :: x :: l) with ([s'] ++ x :: l).
  rewrite last_app. destruct (last (x :: l)) eqn:E; [done|]. by apply last_None in E.
Qed.

Lemma serial_next_rows d h sid st max_rows :
  rtr_session d = [sid] -> (2 <= max_rows)%nat ->
  not_ready st = false -> bad_ser_num st = false -> no_new_data st = false -> data_sent st = false ->
  db_rtr_serial_query_get_next quiet_next st max_rows (mkConn d (Some h))
  = serial_query_rows quiet_next (set_data_sent (set_session sid st)) max_rows
      [fill_pdu_cache_response zero_pdu sid] (mkConn d (Some h)).
Proof.
  intros Hs Hm Hn Hb Hnd Hds. unfold db_rtr_serial_query_get_next.
  rewrite Hds. cbn [ne_calloc_ok quiet_next negb ne_session].
  assert (E : serial_query_pre_query quiet st max_rows [] (mkConn d (Some h))
    = (mkConn d (Some h), inr (0, set_data_sent (set_session sid st), [fill_pdu_cache_response zero_pdu sid]))).
  { unfold serial_query_pre_query. rewrite (proj2 (Nat.ltb_ge _ _)) by lia. rewrite Hn, Hb.
    erewrite bind_val by (by apply session_quiet). cbn [no_new_data data_sent set_session].
    rewrite Hnd, Hds. cbn [negb]. erewrite bind_val by (apply push_ok; cbn; lia). done. }
  erewrite bind_val by exact E. done.
Qed.

Lemma chain_row d s s1 l :
  tables_ok d -> chain d s (s1 :: l) -> exists f, q_read_as_current s1 d = [(Some s, f)].
Proof.
  intros Hok Hch. inversion Hch as [|? ? ? Hq _ E1 E2]; subst.
  destruct (as_prev_row d s s1) as (u & Hu & Hsu & Hpv); [rewrite Hq; by apply list_elem_of_singleton|].
  exists (has_full u). by rewrite <- Hpv, (as_current d s1 u).
Qed.

(** From position [k] of the current update on, with [pdus] in the batch
    already and the updates [l] to follow. *)
Lemma serial_batches d h max_rows fuel : forall st k p f l pdus,
  tables_ok d -> (2 <= max_rows)%nat -> (length pdus < max_rows)%nat -> data_sent st = true ->
  at_pos (sorted_inc (ser_num st) d) st k ->
  q_read_as_current (ser_num st) d = [(Some p, f)] -> chain d (ser_num st) l ->
  (length (drop k (sorted_inc (ser_num st) d)) + length l + length (updates_rows l d) <= fuel)%nat ->
  (let* r := serial_query_rows quiet_next st max_rows pdus in
   collect_rest (collect (serial_next max_rows) fuel) r) (mkConn d (Some h))
  = (mkConn d (Some h), inr (Some (pdus
       ++ (row_pdu <$> drop k (sorted_inc (ser_num st) d) ++ updates_rows l d)
       ++ [fill_pdu_end_of_data zero_pdu (session st) (newest (ser_num st) l)]))).
Proof.
  induction fuel as [fuel IH] using lt_wf_ind. intros st k p f l pdus Hok Hm Hlp Hd Hp Hcur Hch Hf.
  erewrite bind_val by (eapply serial_rows_quiet; [done|exact Hp|lia|done]).
  set (L := sorted_inc (ser_num st) d) in *. set (page := take (max_rows - length pdus) (drop k L)).
  pose proof (take_drop_next (max_rows - length pdus) k L) as Hcat. fold page in Hcat.
  destruct (after_fields page st) as (E1 & E2 & E3 & _).
  assert (Hagain : forall st' k' p' f' l' n, data_sent st' = true -> session st' = session st ->
    at_pos (sorted_inc (ser_num st') d) st' k' -> q_read_as_current (ser_num st') d = [(Some p', f')] ->
    chain d (ser_num st') l' -> fuel = S n ->
    (length (drop k' (sorted_inc (ser_num st') d)) + length l' + length (updates_rows l' d) <= n)%nat ->
    collect (serial_next max_rows) fuel st' (mkConn d (Some h))
    = (mkConn d (Some h), inr (Some ((row_pdu <$> drop k' (sorted_inc (ser_num st') d) ++ updates_rows l' d)
       ++ [fill_pdu_end_of_data zero_pdu (session st) (newest (ser_num st') l')])))).
  { intros st' k' p' f' l' n Hd' Hs' Hp' Hcur' Hch' -> Hf'. cbn [collect].
    assert (En : db_rtr_serial_query_get_next quiet_next st' max_rows (mkConn d (Some h))
      = serial_query_rows quiet_next st' max_rows [] (mkConn d (Some h)))
      by (unfold db_rtr_serial_query_get_next; by rewrite Hd').
    rewrite (bind_same _ _ _ _ En), (IH n ltac:(lia) st' k' p' f' l' []); try done; try (cbn; lia).
    by rewrite Hs'. }
  destruct (Nat.eqb_spec (length (pdus ++ (row_pdu <$> page))) max_rows) as [E|E];
    rewrite length_app, length_fmap in E; rewrite <- Hcat, length_app in Hf.
  - destruct fuel as [|n]; [lia|].
    unfold collect_rest. cbn [nr_pdus nr_done next_pdus nr_state].
    erewrite bind_val by (apply (Hagain _ (k + length page)%nat p f l n); rewrite ?E1, ?E2, ?E3; try done;
      [by apply at_pos_after | fold L; lia]).
    unfold est_ret. rewrite E1. fold L. cbn [fmap option_fmap option_map].
    by rewrite <- Hcat, !fmap_app, <- !app_assoc.
  - assert (Hend : drop (k + length page) L = [])
      by (apply short_page; fold page; unfold page in *; rewrite length_take in *; lia).
    rewrite Hend, app_nil_r in Hcat. unfold serial_end. rewrite E1, E3. rewrite <- Hcat.
    destruct l as [|s1 l].
    + inversion Hch as [? Hq|]; subst. rewrite Hq. unfold collect_rest. cbn [nr_pdus nr_done next_pdus].
      cbn [updates_rows map concat]. by rewrite app_nil_r, <- app_assoc.
    + destruct (chain_row _ _ _ _ Hok Hch) as [f1 Hcur1].
      inversion Hch as [|? ? ? Hq Hch' Ea Eb]; subst. rewrite Hq.
      unfold collect_rest. cbn [nr_pdus nr_done next_pdus nr_state].
      cbn [updates_rows map concat length] in Hf. rewrite length_app in Hf. destruct fuel as [|n]; [lia|].
      erewrite bind_val by (apply (Hagain _ 0%nat (ser_num st) f1 l n);
        cbn [ser_num data_sent session set_first_time set_ser_num]; rewrite ?E2, ?E3; try done;
        [by left | rewrite drop_0; fold (updates_rows l d) in Hf; lia]).
      unfold est_ret. cbn [ser_num set_first_time set_ser_num fmap option_fmap option_map].
      rewrite drop_0, newest_cons. cbn [updates_rows map concat]. fold (updates_rows l d).
      by rewrite !fmap_app, <- !app_assoc.
Qed.

(** ** Batches under failures and interference *)

Section contract.
Context (h : nat).

Lemma wrap_opened e stmt : kept e ->
  triple (opened h) (wrap_mysql_stmt_execute e h stmt) (fun _ => opened h) never.
Proof.
  intros Hk [d s] Hs. cbn in Hs. unfold opened in Hs. cbn in Hs. subst s. rewrite wrap_execute.
  destruct (exec1 e) as [| |a] eqn:E; [by destruct (stmt _)|done|by destruct (Hk a)].
Qed.

Lemma select_opened {R} e binds stores (q : db -> list R) : kept e ->
  triple (opened h) (run_select e binds stores q)
    (fun res c => opened h c /\ forall rows, res = Some rows -> exists d, rows = q d) never.
Proof.
  intros Hk. unfold run_select. eapply (triple_bind _ _ _ (fun h' c => opened h c /\ h' = h)).
  { intros c Hc. unfold get_stmt. unfold opened in Hc. rewrite Hc. done. }
  intros h'. apply triple_if; intros _; [apply triple_ret; naive_solver|].
  intros c [Hc ->]. revert c Hc.
  eapply triple_bind; [by apply wrap_opened|]. intros r.
  apply triple_if; intros _; [apply triple_ret; naive_solver|].
  eapply (triple_bind _ _ _ (fun rows c => opened h c /\ exists d, rows = q d));
    [apply triple_gets; intros c Hc; split; [done|by eexists]|].
  intros rows. apply triple_if; intros _; [apply triple_ret; naive_solver|].
  apply triple_if; intros _; apply triple_ret; naive_solver.
Qed.

Lemma sernum_opened {R} e binds (q : db -> list R) : kept e ->
  triple (opened h) (fetch_sernum e binds q) (fun _ => opened h) never.
Proof.
  intros Hk. unfold fetch_sernum. eapply triple_bind; [by apply select_opened|].
  intros [rows|]; [|apply triple_ret; naive_solver].
  destruct (mysql_stmt_fetch e 0 rows); apply triple_ret; naive_solver.
Qed.

Lemma session_opened e : kept e ->
  triple (opened h) (db_rtr_get_session_id e) (fun _ => opened h) never.
Proof.
  intros Hk. unfold db_rtr_get_session_id. eapply triple_bind; [by apply select_opened|].
  intros [rows|]; [|apply triple_ret; naive_solver].
  apply triple_if; intros _; [apply triple_ret; naive_solver|].
  destruct (mysql_stmt_fetch e 0 rows); apply triple_ret; naive_solver.
Qed.

Lemma push_opened max_rows pdus p : (length pdus < max_rows)%nat ->
  triple (opened h) (push_pdu max_rows pdus p) (fun l c => opened h c /\ l = pdus ++ [p]) never.
Proof. intros Hl c Hc. by rewrite push_ok. Qed.

(** The fetch loop appends at most as many PDUs as there are rows. *)
Lemma fetch_opened e max_rows rows : forall k st pdus,
  (length pdus + length rows <= max_rows)%nat ->
  triple (opened h) (fetch_rows e max_rows k rows st pdus)
    (fun '(ret, st', ps) c => opened h c /\ (ret = 0 \/ ret = -1) /\ pdus `prefix_of` ps
       /\ (length ps <= max_rows)%nat /\ data_sent st' = data_sent st
       /\ (length ps = length pdus -> st' = st)) never.
Proof.
  induction rows as [|[ann r] rows IH]; intros k st pdus Hl; cbn [fetch_rows]; unfold mysql_stmt_fetch;
    destruct (decide _); try (apply triple_ret; intros; cbn in Hl; split_and!; auto; lia).
  destruct (fillPduIpPrefix zero_pdu r ann) as [p|];
    [|apply triple_ret; intros; cbn in Hl; split_and!; auto; lia].
  cbn in Hl. eapply triple_bind; [apply push_opened; lia|]. intros l c [Hc ->].
  pose proof (IH (S k) (set_last r st) (pdus ++ [p]) ltac:(rewrite length_app; cbn; lia) c Hc) as H.
  destruct (fetch_rows _ _ _ _ _ _ c) as [c' [|[[ret st'] ps]]]; [done|].
  destruct H as (H1 & H2 & H3 & H4 & H5 & _). split_and!; [done..| |done|done|].
  - etrans; [|exact H3]. by apply prefix_app_r.
  - destruct H3 as [k3 ->]. rewrite !length_app. cbn. lia.
Qed.

Lemma page_length {A} (key : A -> roa_row) first last limit l :
  (length (select_page key first last limit l) <= limit)%nat.
Proof. unfold select_page. rewrite length_take. lia. Qed.

Lemma head_prefix (pdus ps : list PDU) :
  pdus `prefix_of` ps -> starts_response pdus -> starts_response ps.
Proof. intros [k ->] (p & Hp & Ht). exists p. split; [|done]. by destruct pdus. Qed.

Lemma contract_done st max_rows pdus p st' :
  (length pdus < max_rows)%nat -> (data_sent st = false -> starts_response (pdus ++ [p])) ->
  pduType p ∈ [PDU_END_OF_DATA; PDU_CACHE_RESET; PDU_ERROR_REPORT] ->
  next_contract st max_rows (next_pdus (pdus ++ [p]) true st').
Proof.
  intros Hl Hs Hp. split; [|done]. unfold batch_contract. cbn. split_and!; [done| |done| |done].
  - rewrite length_app. cbn. lia.
  - intros _. exists p. by rewrite last_snoc.
Qed.

Lemma contract_more st max_rows pdus st' :
  (length pdus <= max_rows)%nat -> (data_sent st = false -> starts_response pdus) ->
  data_sent st' = true -> batch_contract st max_rows (next_pdus pdus false st').
Proof. intros Hl Hs Hd. unfold batch_contract. cbn. by split_and!. Qed.

Lemma contract_error st max_rows st' : next_contract st max_rows (next_error st').
Proof. done. Qed.

(** A full batch is not an empty one. *)
Lemma contract_full st max_rows pdus st' :
  length pdus = max_rows -> (0 < max_rows)%nat -> (data_sent st = false -> starts_response pdus) ->
  data_sent st' = true -> next_contract st max_rows (next_pdus pdus false st').
Proof. intros Hl Hm Hs Hd. split; [apply contract_more; [lia|done..]|cbn; lia]. Qed.

Lemma contract_serial st max_rows r : next_contract st max_rows r -> serial_contract st max_rows r.
Proof. intros [H1 H2]. split; auto. Qed.

Lemma elem_eod : PDU_END_OF_DATA ∈ [PDU_END_OF_DATA; PDU_CACHE_RESET; PDU_ERROR_REPORT].
Proof. rewrite !elem_of_cons. auto. Qed.
Lemma elem_err : PDU_ERROR_REPORT ∈ [PDU_END_OF_DATA; PDU_CACHE_RESET; PDU_ERROR_REPORT].
Proof. rewrite !elem_of_cons. auto. Qed.

Hint Resolve elem_eod elem_err contract_error contract_serial : core.

Lemma reset_rows_contract e sid st0 st max_rows pdus :
  kept e -> (length pdus < max_rows)%nat -> data_sent st = true ->
  (data_sent st0 = false -> starts_response pdus) ->
  triple (opened h) (reset_query_rows e sid st max_rows pdus)
    (fun r c => opened h c /\ next_contract st0 max_rows r) never.
Proof.
  intros Hk Hl Hd Hst. unfold reset_query_rows. eapply triple_bind; [by apply select_opened|].
  intros [rows|]; [|apply triple_ret; naive_solver].
  intros c [Hc Hrows]. destruct (Hrows _ eq_refl) as [d ->]. revert c Hc.
  eapply triple_bind.
  { apply fetch_opened. rewrite length_fmap.
    pose proof (page_length id (first_time st) (last_row st) (max_rows - length pdus)
      (full_rows (ser_num st) d)). unfold q_reset_next. lia. }
  intros [[ret st'] ps] c (Hc & _ & Hpre & Hlen & Hd' & _).
  assert (Hst' : data_sent st0 = false -> starts_response ps) by (intros; eapply head_prefix; eauto).
  revert c Hc. apply triple_if; intros _; [by apply triple_ret|].
  destruct (Nat.eqb_spec (length ps) max_rows) as [E|E].
  - apply triple_ret. intros c Hc. split; [done|]. apply contract_full; [done|lia|done|congruence].
  - eapply triple_bind; [apply push_opened; lia|]. intros l. apply triple_ret. intros c [Hc ->].
    split; [done|]. apply contract_done; [lia| |auto].
    intros H0. eapply head_prefix; [|by apply Hst']. by apply prefix_app_r.
Qed.

Lemma serial_rows_contract ne st0 st max_rows pdus :
  kept (ne_query ne) -> kept (ne_cur ne) -> kept (ne_prev ne) ->
  (length pdus <= max_rows)%nat -> data_sent st = true ->
  (data_sent st0 = false -> starts_response pdus) -> (pdus = [] -> st0 = st) ->
  triple (opened h) (serial_query_rows ne st max_rows pdus)
    (fun r c => opened h c /\ serial_contract st0 max_rows r) never.
Proof.
  intros Hk1 Hk2 Hk3 Hl Hd Hst Hpd. unfold serial_query_rows, serial_query_do_query.
  eapply (triple_bind _ _ _ (fun '(ret, st', ps) c => opened h c /\ (ret = 0 \/ ret = -1)
    /\ pdus `prefix_of` ps /\ (length ps <= max_rows)%nat /\ data_sent st' = data_sent st
    /\ (length ps = length pdus -> st' = st))).
  { eapply triple_bind; [by apply select_opened|].
    intros [rows|]; [|apply triple_ret; intros c [Hc _]; split_and!; auto].
    intros c [Hc Hrows]. destruct (Hrows _ eq_refl) as [d ->]. revert c Hc.
    apply fetch_opened.
    pose proof (page_length snd (first_time st) (last_row st) (max_rows - length pdus)
      (inc_rows (ser_num st) d)). unfold q_serial_next. lia. }
  intros [[ret st'] ps] c (Hc & _ & Hpre & Hlen & Hd' & Hsame).
  assert (Hst' : data_sent st0 = false -> starts_response ps) by (intros; eapply head_prefix; eauto).
  revert c Hc. apply triple_if; intros _; [by apply triple_ret|].
  destruct (Nat.eqb_spec (length ps) max_rows) as [E|E].
  { apply triple_ret. intros c Hc. split; [done|]. split; [apply contract_more; [done..|congruence]|].
    cbn. lia. }
  assert (Happ : forall p, pduType p ∈ [PDU_END_OF_DATA; PDU_CACHE_RESET; PDU_ERROR_REPORT] ->
    triple (opened h)
     (let* '(ret, st2, ps2, is_done) := (let* ps2 := push_pdu max_rows ps p in
        est_ret (0, st', ps2, true)) in
      if ret =? -1 then est_ret (next_error st2) else est_ret (next_pdus ps2 is_done st2))
     (fun r c => opened h c /\ serial_contract st0 max_rows r) never).
  { intros p Hp. eapply (triple_bind _ _ _ (fun x c => opened h c /\ x = (0, st', ps ++ [p], true))).
    - eapply triple_bind; [apply push_opened; lia|]. intros l. apply triple_ret. by intros c [Hc ->].
    - intros x c [Hc ->]. cbn. split; [done|]. apply contract_serial, contract_done; [lia| |done].
      intros H0. eapply head_prefix; [|by apply Hst']. by apply prefix_app_r. }
  unfold serial_query_post_query, readSerNumAsCurrent, readSerNumAsPrev.
  intros c Hc. unfold est_bind at 2.
  pose proof (sernum_opened (ne_cur ne) true (q_read_as_current (ser_num st')) Hk2 c Hc) as H1.
  unfold est_bind at 1. unfold est_bind at 1.
  destruct (fetch_sernum (ne_cur ne) _ _ c) as [c1 [?|r1]]; [done|].
  destruct r1 as [[[p|] f]| |].
  2,4: apply (Happ (fill_pdu_error_report zero_pdu ERR_NO_DATA 0 None 0 None) elem_err c1 H1).
  2: by split.
  pose proof (sernum_opened (ne_prev ne) true (q_read_as_prev (ser_num st')) Hk3 c1 H1) as H2.
  unfold est_bind at 1.
  destruct (fetch_sernum (ne_prev ne) _ _ c1) as [c2 [?|r2]]; [done|].
  destruct r2 as [s2| |].
  2,3: apply (Happ (fill_pdu_end_of_data zero_pdu (session st') (ser_num st')) elem_eod c2 H2).
  cbn. split; [done|]. split; [apply contract_more; [done..|cbn; congruence]|].
  cbn. intros _ Hz. right. destruct ps; [|cbn in Hz; lia].
  apply prefix_nil_inv in Hpre. subst pdus. rewrite (Hpd eq_refl), <- (Hsame eq_refl).
  split_and!; [congruence|done|by exists s2].
Qed.

Lemma serial_next_opened ne st max_rows :
  kept (ne_session ne) -> kept (ne_query ne) -> kept (ne_cur ne) -> kept (ne_prev ne) ->
  triple (opened h) (db_rtr_serial_query_get_next ne st max_rows)
    (fun r c => opened h c /\ serial_contract st max_rows r) never.
Proof.
  intros Hk0 Hk1 Hk2 Hk3. unfold db_rtr_serial_query_get_next.
  apply triple_if; intros _; [by apply triple_ret|].
  destruct (data_sent st) eqn:Ed; cbn [negb].
  { apply serial_rows_contract; try done; [cbn; lia|congruence]. }
  eapply (triple_bind _ _ _ (fun '(ret, st', ps) c => opened h c /\ (length ps <= max_rows)%nat
    /\ (ret = -1 \/ starts_response ps /\ (ret = 1 /\ ends_response ps \/ ret = 0 /\ data_sent st' = true)))).
  { unfold serial_query_pre_query. destruct (Nat.ltb_spec max_rows 2).
    { apply triple_ret. intros c Hc. cbn. split_and!; [done|lia|auto]. }
    destruct (not_ready st).
    { eapply triple_bind; [apply push_opened; cbn; lia|]. intros l. apply triple_ret. intros c [Hc ->].
      cbn. split_and!; [done|lia|]. right. split; [eexists; split; [done|]|left; split; [done|eexists; split; [done|]]];
        cbn; rewrite !elem_of_cons; auto. }
    destruct (bad_ser_num st).
    { eapply triple_bind; [apply push_opened; cbn; lia|]. intros l. apply triple_ret. intros c [Hc ->].
      cbn. split_and!; [done|lia|]. right. split; [eexists; split; [done|]|left; split; [done|eexists; split; [done|]]];
        cbn; rewrite !elem_of_cons; auto. }
    eapply triple_bind; [by apply session_opened|]. intros [sid|].
    2: { apply triple_ret. intros c Hc. cbn. split_and!; [done|lia|auto]. }
    cbn [no_new_data data_sent set_session]. rewrite Ed. cbn [negb].
    destruct (no_new_data st); eapply triple_bind; try (apply push_opened; cbn; lia); intros l c [Hc ->]; revert c Hc.
    - eapply triple_bind; [apply push_opened; cbn; lia|]. intros l. apply triple_ret. intros c [Hc ->].
      cbn. split_and!; [done|lia|]. right. split; [eexists; split; [done|]|left; split; [done|eexists; split; [done|]]];
        cbn; rewrite !elem_of_cons; auto.
    - apply triple_ret. intros c Hc. cbn. split_and!; [done|lia|]. right.
      split; [eexists; split; [done|]; cbn; rewrite !elem_of_cons; auto|auto]. }
  intros [[ret st'] ps] c (Hc & Hlen & Hret). revert c Hc.
  destruct (Z.eqb_spec ret (-1)); [by apply triple_ret|].
  destruct Hret as [?|(Hst & [[-> Hend]|[-> Hd]])]; [done| |].
  - apply triple_ret. intros c Hc. split; [done|]. cbn. split_and!; auto. done.
  - apply serial_rows_contract; [done..|]. intros ->. by destruct Hst as (? & ? & _).
Qed.

Lemma reset_next_opened ne st max_rows :
  kept (ne_session ne) -> kept (ne_query ne) ->
  triple (opened h) (db_rtr_reset_query_get_next ne st max_rows)
    (fun r c => opened h c /\ next_contract st max_rows r) never.
Proof.
  intros Hk0 Hk1. unfold db_rtr_reset_query_get_next.
  destruct (Nat.ltb_spec max_rows 2); [by apply triple_ret|].
  apply triple_if; intros _; [by apply triple_ret|].
  apply triple_if; intros Hn.
  { eapply triple_bind; [apply push_opened; cbn; lia|]. intros l. apply triple_ret. intros c [Hc ->].
    split; [done|]. apply (contract_done st max_rows []); [cbn; lia| |cbn; auto].
    intros _. eexists. split; [done|]. cbn. rewrite !elem_of_cons. auto. }
  eapply triple_bind; [by apply session_opened|]. intros [sid|]; [|by apply triple_ret].
  destruct (data_sent st) eqn:Ed; cbn [negb].
  - apply reset_rows_contract; [done|cbn; lia|done|congruence].
  - eapply triple_bind; [apply push_opened; cbn; lia|]. intros l c [Hc ->]. revert c Hc.
    apply reset_rows_contract; [done|cbn; lia|done|].
    intros _. eexists. split; [done|]. cbn. rewrite !elem_of_cons. auto.
Qed.
End contract.

(** ** Whole responses *)

Lemma latest_in l u : latest_update l = Some u -> u ∈ l.
Proof.
  induction l as [|v l IH]; cbn; [done|]. rewrite elem_of_cons.
  destruct (latest_update l) as [w|]; [destruct (_ <? _)|]; intros [= <-]; auto.
Qed.

(** A reset query on a quiet database. Whatever the batch size (at least
    2), the batches add up to one Cache Response, an announcement for every
    row of the newest full set, each exactly once and in key order, and one
    End of Data with the newest serial number. *)
Lemma reset_query_complete d h sid u max_rows :
  tables_ok d -> rtr_session d = [sid] ->
  latest_update (rtr_update d) = Some u -> has_full u = true ->
  (2 <= max_rows)%nat ->
  exists st, db_rtr_reset_query_init true quiet quiet (mkConn d (Some h)) = (mkConn d (Some h), inr (Some st))
  /\ collect (fun s => db_rtr_reset_query_get_next quiet_next s max_rows)
       (S (length (full_rows (serial_num u) d))) st (mkConn d (Some h))
     = (mkConn d (Some h), inr (Some (fill_pdu_cache_response zero_pdu sid
          :: (row_pdu <$> sorted_full (serial_num u) d)
          ++ [fill_pdu_end_of_data zero_pdu sid (serial_num u)]))).
Proof.
  intros Hok Hs Hlat Hfull Hm. pose proof (latest_in _ _ Hlat) as Hin. exists (set_ser_num (serial_num u) fresh_state). split.
  { unfold db_rtr_reset_query_init, db_rtr_get_latest_sernum, readSerNumAsCurrent. cbn [negb].
    erewrite bind_val by apply sernum_quiet. unfold q_latest_sernum. rewrite Hlat.
    change (option_list (serial_num <$> Some u)) with [serial_num u]. cbn beta iota zeta.
    erewrite bind_val by apply sernum_quiet. rewrite (as_current d _ u) by done. by rewrite Hfull. }
  set (st := set_ser_num (serial_num u) fresh_state). cbn [collect].
  rewrite (bind_same _ _ _ _ (reset_next_rows d h sid st max_rows Hs Hm eq_refl)).
  rewrite (reset_batches d h sid max_rows _ _ 0); try done; try (cbn; lia).
  - by left.
  - change (ser_num (set_data_sent st)) with (serial_num u). unfold sorted_full.
    by rewrite drop_0, length_fmap, sort_by_perm.
Qed.

(** A serial query on a quiet database, for a router that has serial
    number [s] when the updates after [s] are [s1], ..., [sn]. The batches add
    up to one Cache Response, the changes of [s1], ..., [sn] one update after
    the other, each row exactly once, and one End of Data that carries [sn]. *)
Lemma serial_query_complete d h sid s s1 l max_rows :
  tables_ok d -> rtr_session d = [sid] -> chain d s (s1 :: l) -> (2 <= max_rows)%nat ->
  exists st, db_rtr_serial_query_init true quiet quiet quiet s (mkConn d (Some h))
             = (mkConn d (Some h), inr (Some st))
  /\ collect (fun st => db_rtr_serial_query_get_next quiet_next st max_rows)
       (S (length l + length (updates_rows (s1 :: l) d))) st (mkConn d (Some h))
     = (mkConn d (Some h), inr (Some (fill_pdu_cache_response zero_pdu sid
          :: (row_pdu <$> updates_rows (s1 :: l) d)
          ++ [fill_pdu_end_of_data zero_pdu sid (newest s (s1 :: l))]))).
Proof.
  intros Hok Hs Hch Hm. exists (set_ser_num s1 fresh_state).
  destruct (chain_row _ _ _ _ Hok Hch) as [f Hcur]. rewrite newest_cons.
  inversion Hch as [|s0 s' l' Hq Hch' E0 E']; subst. split.
  { unfold db_rtr_serial_query_init, readSerNumAsPrev. cbn [negb].
    erewrite bind_val by apply sernum_quiet. by rewrite Hq. }
  set (st := set_ser_num s1 fresh_state). cbn [collect].
  rewrite (bind_same _ _ _ _ (serial_next_rows d h sid st max_rows Hs Hm eq_refl eq_refl eq_refl eq_refl)).
  rewrite (serial_batches d h max_rows _ _ 0 s f l); try done; try (cbn; lia).
  - by left.
  - change (ser_num (set_data_sent (set_session sid st))) with s1. rewrite drop_0.
    cbn [updates_rows map concat]. fold (updates_rows l d). rewrite length_app. lia.
Qed.

Lemma sample_db_ok : tables_ok sample_db.
Proof.
  assert (Hv : row_valid row_a /\ row_valid row_b /\ row_valid row_c).
  { unfold row_valid, uint_ok, bytes_ok, byte_ok, uint_ok. cbn.
    split_and!; try lia; try (by left); try (by right); repeat constructor; lia. }
  destruct Hv as (Ha & Hb & Hc). split.
  1-4: refine (bool_decide_unpack _ _); vm_compute; exact I.
  - repeat constructor; done.
  - repeat constructor; done.
Qed.

Lemma sample_chain : chain sample_db 10 [11; 12].
Proof. repeat (econstructor; try reflexivity). Qed.

Lemma reset_query_complete_witness :
  exists st, db_rtr_reset_query_init true quiet quiet (mkConn sample_db (Some 0%nat))
             = (mkConn sample_db (Some 0%nat), inr (Some st))
  /\ collect (reset_next 2) (S (length (full_rows 12 sample_db))) st (mkConn sample_db (Some 0%nat))
     = (mkConn sample_db (Some 0%nat), inr (Some (fill_pdu_cache_response zero_pdu 7
          :: (row_pdu <$> sorted_full 12 sample_db) ++ [fill_pdu_end_of_data zero_pdu 7 12]))).
Proof.
  apply (reset_query_complete sample_db 0 7 (mkUpd 12 (Some 11) 300 true) 2);
    [apply sample_db_ok|reflexivity..|lia].
Defined.

Lemma serial_query_complete_witness :
  exists st, db_rtr_serial_query_init true quiet quiet quiet 10 (mkConn sample_db (Some 0%nat))
             = (mkConn sample_db (Some 0%nat), inr (Some st))
  /\ collect (serial_next 2) (S (length [12] + length (updates_rows [11; 12] sample_db)))
       st (mkConn sample_db (Some 0%nat))
     = (mkConn sample_db (Some 0%nat), inr (Some (fill_pdu_cache_response zero_pdu 7
          :: (row_pdu <$> updates_rows [11; 12] sample_db)
          ++ [fill_pdu_end_of_data zero_pdu 7 (newest 10 [11; 12])]))).
Proof.
  apply (serial_query_complete sample_db 0 7 10 11 [12] 2);
    [apply sample_db_ok|reflexivity|apply sample_chain|lia].
Defined.


(** A fetch that fails half way, in a database another process has emptied. *)
Definition rough_next : next_env :=
  mkNextEnv true quiet
    (mkEnv (set_incremental []) false ExOk false ExOk false false (Some 1%nat)) quiet quiet.


(** A batch may be empty although the query is not done: after a batch
    that the rows of one update fill exactly, the next call finds no further
    row of it, moves on to the following update and returns 0 with [is_done]
    false. *)
Lemma serial_next_empty_batch :
  exists st r, data_sent st = true /\ at_pos (sorted_inc 11 sample_db) st 1
    /\ db_rtr_serial_query_get_next quiet_next st 2 (mkConn sample_db (Some 0%nat))
       = (mkConn sample_db (Some 0%nat), inr r)
    /\ nr_ret r = 0 /\ nr_done r = false /\ ser_num (nr_state r) = 12.
Proof.
  exists (set_last row_b (set_data_sent (set_session 7 (set_ser_num 11 fresh_state)))). eexists.
  split; [done|]. split; [right; split; [done|]; by exists 0%nat, (true, row_b)|].
  split; [vm_compute; reflexivity|]. done.
Qed.
