(* ===== verification/RtrUpdate.v ===== *)
(** * The update program ([src/bin/rpki-rtr/rtr-update.c]) and the database
    operations it uses ([src/lib/db/clients/rtr.c], second part)

    [main] computes the next version of the data routers are served: it copies
    the valid ROAs into [rtr_full] under a new serial number, records the
    difference from the previous version in [rtr_incremental], publishes the
    serial number in [rtr_update] and removes what is no longer needed. *)

From S2P Require Import Prelude Pdu Sql RtrQuery.
Local Open Scope est_scope.

(** ** Operations of [rtr.c] *)

Definition db_rtr_has_valid_session (e : stmt_env) : DB bool :=
  let* res := run_select e false true q_count_session in
  match res with
  | None => est_ret false
  | Some rows => match mysql_stmt_fetch e 0 rows with
                 | FRow session_count => est_ret (session_count =? 1)
                 | _ => est_ret false
                 end
  end.

Definition db_rtr_delete_incomplete_updates (e1 e2 : stmt_env) : DB bool :=
  let* ok := run_update e1 false s_delete_incomplete_incremental in
  if ok : bool then run_update e2 false s_delete_incomplete_full else est_ret false.

Definition db_rtr_good_serials (e : stmt_env) (previous current : Z) : DB bool :=
  let* res := run_select e true false (q_inconsistent current current previous) in
  match res with
  | None => est_ret false
  | Some rows => match mysql_stmt_fetch e 0 rows with
                 | FRow is_inconsistent => est_ret (negb is_inconsistent)
                 | _ => est_ret false
                 end
  end.

Definition db_rtr_insert_full (conf : config) (e : stmt_env) (serial : Z) : DB bool :=
  let t := flag_tests_default conf in
  run_update e true (s_insert_full serial (ft_mask t) (ft_result t)).

(** Announcements, then withdrawals. *)
Definition db_rtr_insert_incremental (e1 e2 : stmt_env) (previous_serial current_serial : Z)
    : DB bool :=
  let* ok := run_update e1 true
               (s_insert_incremental current_serial true previous_serial current_serial) in
  if ok : bool then
    run_update e2 true (s_insert_incremental current_serial false current_serial previous_serial)
  else est_ret false.

(** -1 ([None]), or whether there are changes. *)
Definition db_rtr_has_incremental_changes (e : stmt_env) (serial : Z) : DB (option bool) :=
  let* res := run_select e true false (q_has_changes serial) in
  match res with
  | None => est_ret None
  | Some rows => match mysql_stmt_fetch e 0 rows with
                 | FRow b => est_ret (Some b)
                 | _ => est_ret None
                 end
  end.

Definition db_rtr_insert_update (e : stmt_env) (current_serial previous_serial : Z)
    (previous_serial_is_null : bool) : DB bool :=
  run_update e true
    (s_insert_update current_serial
       (if previous_serial_is_null then None else Some previous_serial)).

Definition db_rtr_delete_full (e : stmt_env) (serial : Z) : DB bool :=
  run_update e true (s_delete_full serial).
Definition db_rtr_ignore_old_full (e : stmt_env) (serial1 serial2 : Z) : DB bool :=
  run_update e true (s_ignore_old_full serial1 serial2).
Definition db_rtr_delete_old_full (e : stmt_env) (serial1 serial2 : Z) : DB bool :=
  run_update e true (s_delete_old_full serial1 serial2).
Definition db_rtr_delete_old_update (conf : config) (e : stmt_env) (serial1 serial2 : Z) : DB bool :=
  run_update e true (s_delete_old_update (retention_hours conf) serial1 serial2).
Definition db_rtr_ignore_old_incremental (e : stmt_env) : DB bool :=
  run_update e false s_ignore_old_incremental.
Definition db_rtr_delete_old_incremental (e : stmt_env) : DB bool :=
  run_update e false s_delete_old_incremental.

(** ** The program *)

(** What one run meets: whether it has at most one argument, that argument
    (none; one that is not a number; a number), the outcomes of its set-up calls, the random number drawn the
    first time, and one [stmt_env] per database call. *)
Record update_env := mkUpdateEnv {
  ue_conf : config;
  ue_usage_ok : bool;
  ue_argument : option (option Z);
  ue_config_ok : bool;
  ue_db_init_ok : bool;
  ue_thread_ok : bool;
  ue_connect_ok : bool;
  ue_random : Z;
  ue_session : stmt_env;
  ue_latest : stmt_env;
  ue_incomplete1 : stmt_env;
  ue_incomplete2 : stmt_env;
  ue_good : stmt_env;
  ue_full : stmt_env;
  ue_announce : stmt_env;
  ue_withdraw : stmt_env;
  ue_changes : stmt_env;
  ue_publish : stmt_env;
  ue_useless : stmt_env;
  ue_ignore_full : stmt_env;
  ue_delete_full : stmt_env;
  ue_delete_update : stmt_env;
  ue_ignore_inc : stmt_env;
  ue_delete_inc : stmt_env }.

Definition EXIT_SUCCESS : Z := 0.
Definition EXIT_FAILURE : Z := 1.

(** "clean up all the data no longer needed": stops at the first failure. *)
Definition update_cleanup (ue : update_env) (current_serial previous_serial : Z) : DB Z :=
  let* ok := db_rtr_ignore_old_full (ue_ignore_full ue) current_serial previous_serial in
  if negb ok then est_ret EXIT_FAILURE else
  let* ok := db_rtr_delete_old_full (ue_delete_full ue) current_serial previous_serial in
  if negb ok then est_ret EXIT_FAILURE else
  let* ok := db_rtr_delete_old_update (ue_conf ue) (ue_delete_update ue) current_serial previous_serial in
  if negb ok then est_ret EXIT_FAILURE else
  let* ok := db_rtr_ignore_old_incremental (ue_ignore_inc ue) in
  if negb ok then est_ret EXIT_FAILURE else
  let* ok := db_rtr_delete_old_incremental (ue_delete_inc ue) in
  if negb ok then est_ret EXIT_FAILURE else est_ret EXIT_SUCCESS.

(** Publish the new serial number, or drop the copy when nothing changed. *)
Definition update_publish (ue : update_env) (first_time force_update update_had_changes : bool)
    (current_serial previous_serial : Z) : DB Z :=
  if update_had_changes || force_update then
    let* ok := db_rtr_insert_update (ue_publish ue) current_serial previous_serial first_time in
    if negb ok then est_ret EXIT_FAILURE
    else update_cleanup ue current_serial previous_serial
  else
    let* ok := db_rtr_delete_full (ue_useless ue) current_serial in
    if negb ok then est_ret EXIT_FAILURE
    else update_cleanup ue current_serial previous_serial.

(** Copy the data and compute the changes. *)
Definition update_compute (ue : update_env) (first_time force_update : bool)
    (current_serial previous_serial : Z) : DB Z :=
  let* ok := db_rtr_insert_full (ue_conf ue) (ue_full ue) current_serial in
  if negb ok then est_ret EXIT_FAILURE
  else if first_time then
    update_publish ue first_time force_update true current_serial previous_serial
  else
    let* ok := db_rtr_insert_incremental (ue_announce ue) (ue_withdraw ue)
                 previous_serial current_serial in
    if negb ok then est_ret EXIT_FAILURE
    else
      let* ch := db_rtr_has_incremental_changes (ue_changes ue) current_serial in
      match ch with
      | None => est_ret EXIT_FAILURE
      | Some b => update_publish ue first_time force_update b current_serial previous_serial
      end.

(** From the previous serial number on. *)
Definition update_serials (ue : update_env) (first_time : bool) (previous_serial : Z) : DB Z :=
  let* ok := db_rtr_delete_incomplete_updates (ue_incomplete1 ue) (ue_incomplete2 ue) in
  if negb ok then est_ret EXIT_FAILURE
  else
    match ue_argument ue with
    | Some None => est_ret EXIT_FAILURE
    | arg =>
        let force_update := match arg with Some _ => true | None => false end in
        let current_serial := match arg with
                              | Some (Some n) => n
                              | _ => u32 (previous_serial + 1)
                              end in
        let* good := if first_time then est_ret true
                     else db_rtr_good_serials (ue_good ue) previous_serial current_serial in
        if negb good then est_ret EXIT_FAILURE
        else update_compute ue first_time force_update current_serial previous_serial
    end.

Definition main (ue : update_env) : DB Z :=
  if negb (ue_usage_ok ue) then est_ret EXIT_FAILURE
  else if negb (ue_config_ok ue) then est_ret EXIT_FAILURE
  else if negb (ue_db_init_ok ue) then est_ret EXIT_FAILURE
  else if negb (ue_thread_ok ue) then est_ret EXIT_FAILURE
  else if negb (ue_connect_ok ue) then est_ret EXIT_FAILURE
  else
    let* ok := db_rtr_has_valid_session (ue_session ue) in
    if negb ok then est_ret EXIT_FAILURE
    else
      let* latest := db_rtr_get_latest_sernum (ue_latest ue) in
      match latest with
      | GET_SERNUM_SUCCESS previous_serial => update_serials ue false previous_serial
      | GET_SERNUM_NONE => update_serials ue true (u32 (ue_random ue))
      | GET_SERNUM_ERR => est_ret EXIT_FAILURE
      end.

(** ** Specification: what the tables mean *)

#[export] Instance roa_row_countable : Countable roa_row.
Proof.
  apply (inj_countable' (fun r => (asn r, prefix r, prefix_length r, prefix_max_length r))
    (fun '(a, p, l, m) => mkRow a p l m)). by intros [].
Defined.

Definition roa_set : Type := gset roa_row.

(** [F s] is the set of prefixes that a router at serial number [s] has. The
    tables agree with it: a full set that [rtr_update] offers is that set, the
    changes of an update lead from the previous set to its own, and the
    newest update has its full set. Links to the previous update go back in
    time, and every update but the newest has a successor. *)
Record rtr_inv (F : Z -> roa_set) (d : db) : Prop := {
  inv_ok : tables_ok d;
  inv_full : forall u, u ∈ rtr_update d -> has_full u = true ->
    forall r, r ∈ full_rows (serial_num u) d <-> r ∈ F (serial_num u);
  inv_inc : forall u p, u ∈ rtr_update d -> prev_serial_num u = Some p ->
    forall ann r, (ann, r) ∈ inc_rows (serial_num u) d <->
      (if ann : bool then r ∈ F (serial_num u) /\ r ∉ F p else r ∈ F p /\ r ∉ F (serial_num u));
  inv_latest : forall u, latest_update (rtr_update d) = Some u -> has_full u = true;
  inv_time : forall u v, u ∈ rtr_update d -> v ∈ rtr_update d ->
    prev_serial_num v = Some (serial_num u) -> create_time u < create_time v;
  inv_succ : forall u, u ∈ rtr_update d -> latest_update (rtr_update d) = Some u \/
    exists v, v ∈ rtr_update d /\ prev_serial_num v = Some (serial_num u) }.

(** No update was made in the current second (or later). *)
Definition clock_ok (d : db) : Prop := forall u, u ∈ rtr_update d -> create_time u < now d.

(** The ROA tables respect the checks of their columns. *)
Definition roas_ok (d : db) : Prop :=
  forall mask result, Forall row_valid (valid_roas mask result d).

(** Other processes leave the rpki-rtr tables alone; they may change the ROAs,
    and time goes on. *)
Definition benign (f : db -> db) : Prop := forall d,
  rtr_session (f d) = rtr_session d /\ rtr_update (f d) = rtr_update d
  /\ rtr_full (f d) = rtr_full d /\ rtr_incremental (f d) = rtr_incremental d
  /\ now d <= now (f d) /\ (roas_ok d -> roas_ok (f d)).

Definition benign_env (e : stmt_env) : Prop := benign (env_other e).
Definition benign_update (ue : update_env) : Prop :=
  Forall benign_env [ue_session ue; ue_latest ue; ue_incomplete1 ue; ue_incomplete2 ue; ue_good ue;
    ue_full ue; ue_announce ue; ue_withdraw ue; ue_changes ue; ue_publish ue; ue_useless ue;
    ue_ignore_full ue; ue_delete_full ue; ue_delete_update ue; ue_ignore_inc ue; ue_delete_inc ue].

(** Serial numbers that the tables mention. *)
Definition known (s : Z) (d : db) : Prop :=
  exists u, u ∈ rtr_update d /\ (serial_num u = s \/ prev_serial_num u = Some s).

(** The tables have a meaning that agrees with [F] on the known numbers of [d0]. *)
Definition meaningful (F : Z -> roa_set) (d0 d : db) : Prop :=
  exists F', rtr_inv F' d /\ forall s, known s d0 -> F' s = F s.

(** A router's data set. *)
Definition apply_row (S : roa_set) (x : bool * roa_row) : roa_set :=
  if fst x then {[ snd x ]} ∪ S else S ∖ {[ snd x ]}.
Definition apply_rows (S : roa_set) (l : list (bool * roa_row)) : roa_set := foldl apply_row S l.

(** The change a prefix PDU stands for. *)
Definition pdu_row (p : Pdu.PDU) : option (bool * roa_row) :=
  match Pdu.body p with
  | Pdu.BIP4 x => Some (Z.testbit (Pdu.ip4_flags x) 0,
      mkRow (Pdu.ip4_asNumber x) (Pdu.prefix4 x) (Pdu.ip4_prefixLength x) (Pdu.ip4_maxLength x))
  | Pdu.BIP6 x => Some (Z.testbit (Pdu.ip6_flags x) 0,
      mkRow (Pdu.ip6_asNumber x) (Pdu.prefix6 x) (Pdu.ip6_prefixLength x) (Pdu.ip6_maxLength x))
  | _ => None
  end.

(** A router following RFC 6810: prefix PDUs change its set, End of Data gives
    it the serial number. *)
Record router := mkRouter { r_set : roa_set; r_serial : Z }.
Definition router_step (r : router) (p : Pdu.PDU) : router :=
  if Pdu.pduType p =? Pdu.PDU_END_OF_DATA then mkRouter (r_set r) (Pdu.serialNumber p)
  else match pdu_row p with
       | Some x => mkRouter (apply_row (r_set r) x) (r_serial r)
       | None => r
       end.
Definition router_run (r : router) (ps : list Pdu.PDU) : router := foldl router_step r ps.
