(* ===== verification/RtrUpdateFacts.v ===== *)
(** * Correctness of the update program

    Every statement of [rtr-update] keeps the tables meaningful, so the
    program does too, wherever it stops: at a failed statement, at a lost
    connection, or at its end. *)

From S2P Require Import Prelude Sql SqlFacts RtrQuery RtrQueryFacts RtrUpdate.
Local Open Scope est_scope.

(** Lift a predicate on the tables to connections. *)
Definition on_db (P : db -> Prop) (c : dbconn) : Prop := P (c_db c).
Definition stable (P : db -> Prop) (e : stmt_env) : Prop := forall d, P d -> P (env_other e d).

(** The newest update before the run: none the first time, else [prev]. *)
Definition at_latest (first : bool) (prev : Z) (d : db) : Prop :=
  if first then rtr_update d = []
  else exists u, latest_update (rtr_update d) = Some u /\ serial_num u = prev.

(** [cur] is not in use, and nothing follows [prev]. *)
Definition fresh (prev cur : Z) (d : db) : Prop := forall u, u ∈ rtr_update d ->
  serial_num u <> cur /\ prev_serial_num u <> Some cur /\ prev_serial_num u <> Some prev.

(** Up to the publication: [rtr_update] is as at the start. *)
Record unpublished (F : Z -> roa_set) (d0 d : db) : Prop := {
  un_inv : rtr_inv F d;
  un_upd : rtr_update d = rtr_update d0;
  un_clock : clock_ok d;
  un_roas : roas_ok d }.

(** A successor of an update that clean-up spares is spared. *)
Definition spared_closed (cur prev : Z) (d : db) : Prop := forall u v,
  u ∈ rtr_update d -> v ∈ rtr_update d -> serial_num u = cur \/ serial_num u = prev ->
  prev_serial_num v = Some (serial_num u) -> serial_num v = cur \/ serial_num v = prev.

(** From then on, with the meaning [G]: the newest update is [s], one of the
    two that clean-up spares. *)
Definition published (G : Z -> roa_set) (s cur prev : Z) (d : db) : Prop :=
  (s = cur \/ s = prev) /\ spared_closed cur prev d /\ rtr_inv G d
  /\ exists u, latest_update (rtr_update d) = Some u /\ serial_num u = s.

(** [F] with the rows [l] at serial number [cur]. *)
Definition extend (F : Z -> roa_set) (cur : Z) (l : list roa_row) : Z -> roa_set :=
  fun s => if s =? cur then list_to_set l else F s.

(** ** One statement *)

Lemma wrap_triple e h stmt (P Q W : db -> Prop) :
  stable P e -> (forall d d', P d -> stmt d = Some d' -> Q d') ->
  (forall d, P d -> W d) -> (forall d, Q d -> W d) ->
  triple (on_db P) (wrap_mysql_stmt_execute e h stmt)
    (fun r c => if r =? 0 then Q (c_db c) else W (c_db c)) (fun _ => on_db W).
Proof.
  intros Hst HQ HPW HQW [d s] HP. unfold on_db in *. cbn in HP. apply Hst in HP.
  destruct (decide (s = Some h)) as [->|Hne].
  - rewrite wrap_execute. destruct (exec1 e) as [| |a]; cbn; auto.
    + destruct (stmt (env_other e d)) eqn:E; cbn; eauto.
    + assert (HW : W (if a then default (env_other e d) (stmt (env_other e d)) else env_other e d)).
      { destruct a; [|auto]. destruct (stmt _) eqn:E; cbn; eauto. }
      destruct (reconnect_fails e); cbn; exact HW.
  - unfold wrap_mysql_stmt_execute, est_bind, est_modify, mysql_stmt_execute. cbn.
    destruct (decide _); [done|]. cbn. auto.
Qed.

Lemma run_update_triple e binds stmt (P Q W : db -> Prop) :
  stable P e -> (forall d d', P d -> stmt d = Some d' -> Q d') ->
  (forall d, P d -> W d) -> (forall d, Q d -> W d) ->
  triple (on_db P) (run_update e binds stmt)
    (fun ok c => if ok : bool then Q (c_db c) else W (c_db c)) (fun _ => on_db W).
Proof.
  intros Hst HQ HPW HQW. unfold run_update.
  eapply (triple_bind _ _ _ (fun _ => on_db P)).
  { intros [d s] HP. unfold get_stmt. cbn. destruct s; [done|]. by apply HPW. }
  intros h. apply triple_if; intros _; [apply triple_ret; intros c HP; by apply HPW|].
  eapply triple_bind; [by apply wrap_triple|]. intros r. by apply triple_ret.
Qed.

Lemma run_select_triple {R} e binds stores (q : db -> list R) (P : db -> Prop) :
  stable P e ->
  triple (on_db P) (run_select e binds stores q)
    (fun res c => P (c_db c) /\ forall rows, res = Some rows -> rows = q (c_db c)) (fun _ => on_db P).
Proof.
  intros Hst. unfold run_select. eapply (triple_bind _ _ _ (fun _ => on_db P)).
  { intros [d s] HP. unfold get_stmt. cbn. by destruct s. }
  intros h. apply triple_if; intros _; [apply triple_ret; naive_solver|].
  eapply (triple_bind _ _ _ (fun _ => on_db P)).
  { eapply triple_conseq; [eapply (wrap_triple e h Some P P P)|..]; try done.
    - by intros d d' Hd [= <-].
    - intros r c. unfold on_db. destruct (r =? 0); exact id. }
  intros r. apply triple_if; intros _; [apply triple_ret; naive_solver|].
  eapply (triple_bind _ _ _ (fun rows c => P (c_db c) /\ rows = q (c_db c)));
    [by apply triple_gets|].
  intros rows. apply triple_if; intros _; [apply triple_ret; naive_solver|].
  apply triple_if; intros _; apply triple_ret; naive_solver.
Qed.

(** ** Other processes *)

Lemma benign_rows f d s : benign f ->
  full_rows s (f d) = full_rows s d /\ inc_rows s (f d) = inc_rows s d.
Proof.
  intros Hb. destruct (Hb d) as (_ & _ & Hf & Hi & _). unfold full_rows, inc_rows. by rewrite Hf, Hi.
Qed.

Lemma tables_ok_ext d d' :
  rtr_update d' = rtr_update d -> rtr_full d' = rtr_full d -> rtr_incremental d' = rtr_incremental d ->
  tables_ok d -> tables_ok d'.
Proof. intros Hu Hf Hi []. split; by rewrite ?Hu, ?Hf, ?Hi. Qed.

Lemma rtr_inv_ext F d d' :
  rtr_update d' = rtr_update d -> rtr_full d' = rtr_full d -> rtr_incremental d' = rtr_incremental d ->
  rtr_inv F d -> rtr_inv F d'.
Proof.
  intros Hu Hf Hi []. split; try (by rewrite Hu); [by eapply tables_ok_ext| |]; rewrite Hu.
  - unfold full_rows in *. by rewrite Hf.
  - unfold inc_rows in *. by rewrite Hi.
Qed.

Lemma rtr_inv_benign F f d : benign f -> rtr_inv F d -> rtr_inv F (f d).
Proof. intros Hb. destruct (Hb d) as (_ & ? & ? & ? & _). by apply rtr_inv_ext. Qed.

(** ** Rows of the changed tables *)

Lemma filter_filter {A} (P Q : A -> bool) l :
  List.filter P (List.filter Q l) = List.filter (fun x => Q x && P x) l.
Proof. induction l as [|x l IH]; cbn; [done|]. destruct (Q x); cbn; [destruct (P x); cbn|]; by rewrite IH. Qed.

Lemma filter_ext_in' {A} (P Q : A -> bool) l :
  (forall x, x ∈ l -> P x = Q x) -> List.filter P l = List.filter Q l.
Proof.
  induction l as [|x l IH]; intros H; cbn; [done|]. rewrite H by (apply elem_of_cons; by left).
  rewrite IH; [done|]. intros y Hy. apply H. apply elem_of_cons. by right.
Qed.

Lemma elem_filter {A} (P : A -> bool) l x : x ∈ List.filter P l <-> P x = true /\ x ∈ l.
Proof. rewrite !list_elem_of_In, List.filter_In. tauto. Qed.

Lemma full_rows_filter P s d :
  (forall f, full_serial f = s -> P f = true) ->
  full_rows s (set_full (List.filter P (rtr_full d)) d) = full_rows s d.
Proof.
  intros H. unfold full_rows. cbn. rewrite filter_filter. f_equal. apply filter_ext_in'.
  intros f _. destruct (Z.eqb_spec (full_serial f) s); [by rewrite H|by rewrite andb_false_r].
Qed.

Lemma inc_rows_filter P s d :
  (forall i, inc_serial i = s -> P i = true) ->
  inc_rows s (set_incremental (List.filter P (rtr_incremental d)) d) = inc_rows s d.
Proof.
  intros H. unfold inc_rows. cbn. rewrite filter_filter. f_equal. apply filter_ext_in'.
  intros f _. destruct (Z.eqb_spec (inc_serial f) s); [by rewrite H|by rewrite andb_false_r].
Qed.

Lemma Forall_filter' {A} (R : A -> Prop) (P : A -> bool) l : Forall R l -> Forall R (List.filter P l).
Proof. rewrite !Forall_forall. intros H x Hx. apply elem_filter in Hx as [_ Hx]. by apply H. Qed.

Lemma NoDup_filter' {A} (P : A -> bool) (l : list A) : NoDup l -> NoDup (List.filter P l).
Proof.
  intros H. pose proof (NoDup_map_filter id P l) as Hn. rewrite !list_fmap_id in Hn. by apply Hn.
Qed.

Lemma in_update_iff s d : in_update s d = true <-> exists u, u ∈ rtr_update d /\ serial_num u = s.
Proof.
  unfold in_update. rewrite existsb_exists. split.
  - intros (u & Hu & E). bprop. exists u. by rewrite list_elem_of_In.
  - intros (u & Hu & <-). exists u. rewrite <- list_elem_of_In. by rewrite Z.eqb_refl.
Qed.

Lemma tables_ok_full l d :
  NoDup l -> Forall (fun f => row_valid (full_roa f)) l -> tables_ok d -> tables_ok (set_full l d).
Proof. intros Hn Hv []. split; cbn; done. Qed.

Lemma tables_ok_inc l d :
  NoDup ((fun i => (inc_serial i, inc_roa i)) <$> l) -> Forall (fun i => row_valid (inc_roa i)) l ->
  tables_ok d -> tables_ok (set_incremental l d).
Proof. intros Hn Hv []. split; cbn; done. Qed.

Lemma tables_ok_upd l d :
  NoDup (serial_num <$> l) -> NoDup (omap prev_serial_num l) -> tables_ok d -> tables_ok (set_update l d).
Proof. intros Hn Hv []. split; cbn; done. Qed.

(** A change of [rtr_full] that keeps the rows of the offered full sets. *)
Lemma rtr_inv_full F l d :
  rtr_inv F d -> NoDup l -> Forall (fun f => row_valid (full_roa f)) l ->
  (forall u, u ∈ rtr_update d -> has_full u = true ->
     forall r, r ∈ full_rows (serial_num u) (set_full l d) <-> r ∈ full_rows (serial_num u) d) ->
  rtr_inv F (set_full l d).
Proof.
  intros [H1 H2 H3 H4 H5 H6] Hn Hv He. split; [by apply tables_ok_full| |done..].
  intros u Hu Hf r. rewrite (He u Hu Hf r). by apply H2.
Qed.

(** A change of [rtr_incremental] that keeps the rows of the linked updates. *)
Lemma rtr_inv_inc F l d :
  rtr_inv F d -> NoDup ((fun i => (inc_serial i, inc_roa i)) <$> l) ->
  Forall (fun i => row_valid (inc_roa i)) l ->
  (forall u p, u ∈ rtr_update d -> prev_serial_num u = Some p ->
     inc_rows (serial_num u) (set_incremental l d) = inc_rows (serial_num u) d) ->
  rtr_inv F (set_incremental l d).
Proof.
  intros [H1 H2 H3 H4 H5 H6] Hn Hv He. split; [by apply tables_ok_inc|done| |done..].
  intros u p Hu Hf. rewrite (He u p Hu Hf). by apply H3.
Qed.

Lemma rtr_inv_full_filter F P d :
  rtr_inv F d ->
  (forall f u, u ∈ rtr_update d -> has_full u = true -> full_serial f = serial_num u -> P f = true) ->
  rtr_inv F (set_full (List.filter P (rtr_full d)) d).
Proof.
  intros Hi HP. apply rtr_inv_full; [done| | |].
  - apply NoDup_filter', ok_full, Hi.
  - apply Forall_filter', ok_full_rows, Hi.
  - intros u Hu Hf r. rewrite full_rows_filter; [done|]. intros f Hs. by eapply HP.
Qed.

Lemma rtr_inv_inc_filter F P d :
  rtr_inv F d ->
  (forall i u p, u ∈ rtr_update d -> prev_serial_num u = Some p -> inc_serial i = serial_num u -> P i = true) ->
  rtr_inv F (set_incremental (List.filter P (rtr_incremental d)) d).
Proof.
  intros Hi HP. apply rtr_inv_inc; [done| | |].
  - apply NoDup_map_filter, ok_inc, Hi.
  - apply Forall_filter', ok_inc_rows, Hi.
  - intros u p Hu Hf. apply inc_rows_filter. intros i Hs. by eapply HP.
Qed.

(** ** Before the publication *)

Section update.
Context (F : Z -> roa_set) (d0 : db).
Notation U := (unpublished F d0).

Lemma unpublished_meaningful d : U d -> meaningful F d0 d.
Proof. intros H. exists F. split; [apply H|done]. Qed.

Lemma unpublished_stable e : benign_env e -> stable U e.
Proof.
  intros Hb d [H1 H2 H3 H4]. destruct (Hb d) as (_ & Eu & _ & _ & Hnow & Hr). split.
  - by apply rtr_inv_benign.
  - by rewrite Eu.
  - intros u Hu. rewrite Eu in Hu. specialize (H3 u Hu). lia.
  - by apply Hr.
Qed.

Lemma unpublished_tables d d' :
  U d -> rtr_inv F d' -> rtr_update d' = rtr_update d -> now d' = now d ->
  rpki_roa d' = rpki_roa d -> rpki_roa_prefix d' = rpki_roa_prefix d -> U d'.
Proof.
  intros [H1 H2 H3 H4] Hi Hu Hn Hr Hp. split; [done|by rewrite Hu|..].
  - intros u Hin. rewrite Hu in Hin. rewrite Hn. by apply H3.
  - intros m r. specialize (H4 m r). unfold valid_roas in *. by rewrite Hr, Hp.
Qed.

Definition inc_complete (d : db) : Prop := forall i, i ∈ rtr_incremental d -> in_update (inc_serial i) d = true.
Definition full_complete (d : db) : Prop := forall f, f ∈ rtr_full d -> in_update (full_serial f) d = true.

Lemma delete_incomplete_inc_ok d d' :
  U d -> s_delete_incomplete_incremental d = Some d' -> U d' /\ inc_complete d'.
Proof.
  intros H [= <-]. split.
  - eapply unpublished_tables; [exact H| |done..]. apply rtr_inv_inc_filter; [apply H|].
    intros i u p Hu _ Hs. apply in_update_iff. by exists u.
  - intros i Hi. cbn in Hi. by apply elem_filter in Hi as [Hi _].
Qed.

Lemma delete_incomplete_full_ok d d' :
  U d -> inc_complete d -> s_delete_incomplete_full d = Some d' ->
  U d' /\ inc_complete d' /\ full_complete d'.
Proof.
  intros H Hc [= <-]. split_and!; [|done|].
  - eapply unpublished_tables; [exact H| |done..]. apply rtr_inv_full_filter; [apply H|].
    intros f u Hu _ Hs. apply in_update_iff. by exists u.
  - intros i Hi. cbn in Hi. by apply elem_filter in Hi as [Hi _].
Qed.

Lemma insert_ignore_elem new : forall l x, x ∈ foldl insert_ignore l new <-> x ∈ l \/ x ∈ new.
Proof.
  induction new as [|y new IH]; intros l x; cbn; [rewrite elem_of_nil; tauto|].
  rewrite IH, elem_of_cons. unfold insert_ignore. case_bool_decide.
  - intuition congruence.
  - rewrite elem_of_app, list_elem_of_singleton. tauto.
Qed.

Lemma insert_ignore_nodup new : forall l, NoDup l -> NoDup (foldl insert_ignore l new).
Proof.
  induction new as [|y new IH]; intros l Hl; cbn; [done|]. apply IH. unfold insert_ignore.
  case_bool_decide; [done|]. apply NoDup_app. split_and!; [done| |apply NoDup_singleton].
  intros x Hx ->%list_elem_of_singleton. done.
Qed.

Lemma elem_full_rows s r d : r ∈ full_rows s d <-> mkFull s r ∈ rtr_full d.
Proof.
  unfold full_rows. rewrite list_elem_of_fmap. split.
  - intros (f & -> & Hf). apply elem_filter in Hf as [E Hf]. bprop. subst. by destruct f.
  - intros Hf. exists (mkFull s r). split; [done|]. apply elem_filter. cbn. by rewrite Z.eqb_refl.
Qed.

Lemma elem_inc_rows s a r d : (a, r) ∈ inc_rows s d <-> mkInc s a r ∈ rtr_incremental d.
Proof.
  unfold inc_rows. rewrite list_elem_of_fmap. split.
  - intros (i & [= -> ->] & Hi). apply elem_filter in Hi as [E Hi]. bprop. subst. by destruct i.
  - intros Hi. exists (mkInc s a r). split; [done|]. apply elem_filter. cbn. by rewrite Z.eqb_refl.
Qed.

Lemma complete_no_rows cur prev d :
  U d -> fresh prev cur d0 -> inc_complete d -> inc_rows cur d = [].
Proof.
  intros H Hf Hc. destruct (inc_rows cur d) as [|[a r] l] eqn:E; [done|exfalso].
  assert (Hin : (a, r) ∈ inc_rows cur d) by (rewrite E; apply elem_of_cons; by left).
  apply elem_inc_rows, Hc, in_update_iff in Hin as (u & Hu & Hs). rewrite (un_upd _ _ _ H) in Hu.
  by destruct (Hf u Hu) as [? _].
Qed.

Lemma insert_full_ok prev cur mask result d d' :
  U d -> fresh prev cur d0 -> inc_rows cur d = [] -> full_complete d ->
  s_insert_full cur mask result d = Some d' ->
  U d' /\ inc_rows cur d' = []
  /\ forall r, r ∈ full_rows cur d' <-> r ∈ valid_roas mask result d'.
Proof.
  intros H Hf Hi Hcomp [= <-]. split_and!; [|done|].
  - eapply unpublished_tables; [exact H| |done..]. apply rtr_inv_full; [apply H| | |].
    + apply insert_ignore_nodup, ok_full, inv_ok with F, H.
    + apply Forall_forall. intros f Hin. apply insert_ignore_elem in Hin as [Hin|Hin].
      * pose proof (ok_full_rows _ (inv_ok _ _ (un_inv _ _ _ H))) as Hv. rewrite Forall_forall in Hv. by apply Hv.
      * apply list_elem_of_fmap in Hin as (r & -> & Hr). pose proof (un_roas _ _ _ H mask result) as Hv.
        rewrite Forall_forall in Hv. by apply Hv.
    + intros u Hu _ r. rewrite !elem_full_rows. cbn. rewrite insert_ignore_elem.
      rewrite list_elem_of_fmap. split; [|by left]. intros [?|(r' & [= E _] & _)]; [done|].
      rewrite (un_upd _ _ _ H) in Hu. by destruct (Hf u Hu) as [? _].
  - intros r. rewrite elem_full_rows. cbn. rewrite insert_ignore_elem, list_elem_of_fmap.
    change (valid_roas mask result (set_full _ d)) with (valid_roas mask result d). split.
    + intros [Hin|(r' & [= <-] & Hr)]; [|done]. apply Hcomp, in_update_iff in Hin as (u & Hu & Hs).
      rewrite (un_upd _ _ _ H) in Hu. by destruct (Hf u Hu) as [? _].
    + intros Hr. right. by exists r.
Qed.

Lemma inc_rows_insert s s' ann new d :
  inc_rows s' (set_incremental (rtr_incremental d ++ (mkInc s ann <$> new)) d)
  = inc_rows s' d ++ (if s =? s' then pair ann <$> new else []).
Proof.
  unfold inc_rows. cbn. rewrite List.filter_app, fmap_app. f_equal.
  destruct (Z.eqb_spec s s') as [->|Hne].
  - rewrite filter_all, <- list_fmap_compose; [done|]. apply Forall_fmap, Forall_forall.
    intros r _. apply Z.eqb_refl.
  - rewrite filter_none; [done|]. apply Forall_fmap, Forall_forall. intros r _. by apply Z.eqb_neq.
Qed.

Lemma insert_inc_ok prev cur ann t2 t1 d d' :
  U d -> fresh prev cur d0 -> s_insert_incremental cur ann t2 t1 d = Some d' ->
  U d' /\ inc_rows cur d' = inc_rows cur d ++ (pair ann <$> diff_rows t1 t2 d)
  /\ (forall s, full_rows s d' = full_rows s d).
Proof.
  intros H Hf. unfold s_insert_incremental. case_bool_decide as Hnd; cbn; [|done].
  destruct (forallb _ _) eqn:Hall; [|done]. intros [= <-]. rewrite forallb_forall in Hall.
  split_and!; [|by rewrite inc_rows_insert, Z.eqb_refl|done].
  pose proof (inv_ok _ _ (un_inv _ _ _ H)) as Hok.
  eapply unpublished_tables; [exact H| |done..]. apply rtr_inv_inc; [apply H| | |].
  - rewrite fmap_app, <- list_fmap_compose. apply NoDup_app. split_and!; [apply Hok| |].
    + intros x Hx Hy. apply list_elem_of_fmap in Hy as (r & -> & Hr). cbn in Hx.
      apply list_elem_of_fmap in Hx as (i & [= E1 E2] & Hi).
      apply list_elem_of_In in Hr. specialize (Hall r Hr). apply negb_true_iff, bool_decide_eq_false in Hall.
      apply Hall. apply list_elem_of_fmap. exists (is_announce i, inc_roa i).
      split; [done|]. apply elem_inc_rows. rewrite E1. by destruct i.
    + apply NoDup_fmap_2; [|done]. by intros r1 r2 [= ->].
  - apply Forall_app. split; [apply Hok|]. apply Forall_fmap, Forall_forall. intros r Hr. cbn.
    apply elem_filter in Hr as [_ Hr]. apply elem_full_rows in Hr.
    pose proof (ok_full_rows _ Hok) as Hv. rewrite Forall_forall in Hv. by apply (Hv _ Hr).
  - intros u p Hu _. rewrite inc_rows_insert. rewrite (un_upd _ _ _ H) in Hu.
    rewrite (proj2 (Z.eqb_neq cur (serial_num u))); [by rewrite app_nil_r|].
    intros E. by destruct (Hf u Hu) as [? _].
Qed.

(** ** The publication *)

Lemma latest_snoc l u :
  (forall v, v ∈ l -> create_time v < create_time u) -> latest_update (l ++ [u]) = Some u.
Proof.
  induction l as [|v l IH]; intros H; cbn; [done|]. rewrite IH.
  - rewrite (proj2 (Z.ltb_lt _ _)); [done|]. apply H, elem_of_cons. by left.
  - intros w Hw. apply H, elem_of_cons. by right.
Qed.

Lemma extend_eq cur l r : r ∈ extend F cur l cur <-> r ∈ l.
Proof. unfold extend. rewrite Z.eqb_refl. apply elem_of_list_to_set. Qed.

Lemma extend_ne cur l s : s <> cur -> extend F cur l s = F s.
Proof. intros H. unfold extend. by rewrite (proj2 (Z.eqb_neq _ _)). Qed.

Lemma fresh_known prev cur s : fresh prev cur d0 -> known s d0 -> s <> cur.
Proof. intros Hf (u & Hu & Hs) ->. destruct (Hf u Hu) as (? & ? & _). by destruct Hs. Qed.

Lemma elem_diff t1 t2 r d : r ∈ diff_rows t1 t2 d <-> r ∈ full_rows t1 d /\ r ∉ full_rows t2 d.
Proof.
  clear F. unfold diff_rows. rewrite elem_filter, negb_true_iff, bool_decide_eq_false. tauto.
Qed.

(** The changes recorded for [cur] lead from [prev] to [cur]. *)
Definition changes_recorded (prev cur : Z) (d : db) : Prop := forall ann r,
  (ann, r) ∈ inc_rows cur d <->
  (if ann : bool then r ∈ full_rows cur d /\ r ∉ full_rows prev d
   else r ∈ full_rows prev d /\ r ∉ full_rows cur d).

Lemma latest_full first prev d : U d -> at_latest first prev d0 -> first = false ->
  exists u, u ∈ rtr_update d0 /\ serial_num u = prev /\ latest_update (rtr_update d0) = Some u
    /\ forall r, r ∈ full_rows prev d <-> r ∈ F prev.
Proof.
  intros H Hl ->. destruct Hl as (u & Hlat & <-). exists u.
  pose proof (latest_in _ _ Hlat) as Hin. split_and!; [done..|].
  rewrite <- (un_upd _ _ _ H) in Hin, Hlat.
  apply (inv_full _ _ (un_inv _ _ _ H)); [done|]. by apply (inv_latest _ _ (un_inv _ _ _ H)).
Qed.

Lemma insert_update_ok first prev cur d d' :
  U d -> fresh prev cur d0 -> at_latest first prev d0 ->
  (first = false -> changes_recorded prev cur d) ->
  s_insert_update cur (if first then None else Some prev) d = Some d' ->
  published (extend F cur (full_rows cur d)) cur cur prev d'
  /\ full_rows cur d' = full_rows cur d
  /\ latest_update (rtr_update d') = Some (mkUpd cur (if first then None else Some prev) (now d) true).
Proof.
  intros H Hf Hl Hch. unfold s_insert_update.
  destruct (in_update cur d || _) eqn:Ek; [done|]. intros [= <-].
  set (new := mkUpd cur (if first then None else Some prev) (now d) true).
  apply orb_false_elim in Ek as [Ek1 Ek2].
  pose proof (un_inv _ _ _ H) as Hi. pose proof (un_upd _ _ _ H) as Hu0.
  assert (Hlat : latest_update (rtr_update d ++ [new]) = Some new)
    by (apply latest_snoc; apply (un_clock _ _ _ H)).
  assert (Hold : forall u, u ∈ rtr_update d -> serial_num u <> cur /\ prev_serial_num u <> Some cur
                           /\ prev_serial_num u <> Some prev) by (rewrite Hu0; exact Hf).
  assert (Hpc : first = false -> prev <> cur).
  { intros E. destruct (latest_full first prev d H Hl E) as (u & Hin & <- & _).
    by destruct (Hf u Hin). }
  assert (Hfirst : first = true -> rtr_update d = []) by (intros ->; by rewrite Hu0).
  split_and!; [|done|exact Hlat]. split_and!; [by left| | |by exists new].
  { intros u v Hu Hv Hs Hpv. cbn in Hu, Hv. apply elem_of_app in Hv as [Hv| ->%list_elem_of_singleton]; [|by left].
    destruct (Hold v Hv) as (_ & ? & ?). by destruct Hs as [E|E]; rewrite E in Hpv. }
  split.
  - apply tables_ok_upd; [| |apply Hi].
    + rewrite fmap_app. apply NoDup_app. split_and!; [apply Hi| |apply NoDup_singleton].
      intros s Hs ->%list_elem_of_singleton. apply list_elem_of_fmap in Hs as (u & E & Hu).
      by destruct (Hold u Hu) as [? _].
    + rewrite omap_app. apply NoDup_app. split_and!; [apply Hi| |destruct first; [constructor|apply NoDup_singleton]].
      intros s Hs Hs'. apply list_elem_of_omap in Hs as (u & Hu & E). unfold new in Hs'.
      destruct first; [by apply not_elem_of_nil in Hs'|]. apply list_elem_of_singleton in Hs' as ->.
      by destruct (Hold u Hu) as (_ & _ & ?).
  - intros u Hu Hfu r. cbn in Hu. apply elem_of_app in Hu as [Hu| ->%list_elem_of_singleton].
    + rewrite extend_ne by (by destruct (Hold u Hu)). by apply (inv_full _ _ Hi).
    + cbn. by rewrite extend_eq.
  - intros u p Hu Hp ann r. cbn in Hu. apply elem_of_app in Hu as [Hu| ->%list_elem_of_singleton].
    + destruct (Hold u Hu) as (Hn1 & Hn2 & _). rewrite !extend_ne by congruence. by apply (inv_inc _ _ Hi).
    + cbn in Hp |- *. destruct first; [done|]. injection Hp as <-.
      destruct (latest_full false prev d H Hl eq_refl) as (_ & _ & _ & _ & Hfp).
      rewrite (extend_ne cur _ prev) by (by apply Hpc). rewrite (Hch eq_refl ann r).
      destruct ann; rewrite extend_eq, Hfp; done.
  - cbn. intros u Hu. rewrite Hlat in Hu. by injection Hu as <-.
  - cbn. intros u v Hu Hv Hpv. apply elem_of_app in Hv as [Hv| ->%list_elem_of_singleton];
      apply elem_of_app in Hu as [Hu| ->%list_elem_of_singleton].
    + by apply (inv_time _ _ Hi).
    + by destruct (Hold v Hv) as (_ & ? & _).
    + by apply (un_clock _ _ _ H).
    + cbn in Hpv. destruct first; [done|]. injection Hpv as E. by destruct (Hpc eq_refl).
  - cbn. intros u Hu. rewrite Hlat. apply elem_of_app in Hu as [Hu| ->%list_elem_of_singleton]; [right|by left].
    destruct (inv_succ _ _ Hi u Hu) as [Hul|(v & Hv & Hpv)];
      [|exists v; rewrite elem_of_app; auto].
    exists new. rewrite elem_of_app, list_elem_of_singleton. split; [auto|]. unfold new. cbn.
    destruct first; [rewrite (Hfirst eq_refl) in Hu; by apply not_elem_of_nil in Hu|].
    destruct Hl as (w & Hw & <-). rewrite <- Hu0, Hul in Hw. by injection Hw as <-.
Qed.

Lemma delete_full_ok first prev cur d d' :
  U d -> fresh prev cur d0 -> at_latest first prev d0 -> first = false ->
  s_delete_full cur d = Some d' -> published F prev cur prev d'.
Proof.
  intros H Hf Hl E [= <-]. destruct (latest_full first prev d H Hl E) as (u & Hu & Hs & Hlat & _).
  split_and!; [by right| | |exists u; cbn; rewrite (un_upd _ _ _ H); auto].
  { intros v w Hv Hw Hsv Hpw. cbn in Hv, Hw. rewrite (un_upd _ _ _ H) in Hw.
    destruct (Hf w Hw) as (_ & ? & ?). by destruct Hsv as [E'|E']; rewrite E' in Hpw. }
  apply rtr_inv_full_filter; [apply H|]. intros f v Hv _ Ef. rewrite (un_upd _ _ _ H) in Hv.
  apply negb_true_iff, Z.eqb_neq. rewrite Ef. by destruct (Hf v Hv).
Qed.
End update.

(** ** Clean-up *)

Lemma latest_map f l :
  (forall u, create_time (f u) = create_time u) -> latest_update (map f l) = f <$> latest_update l.
Proof.
  intros Hf. induction l as [|u l IH]; cbn; [done|]. rewrite IH.
  destruct (latest_update l) as [v|]; cbn; [|done]. rewrite !Hf. by destruct (_ <? _).
Qed.

Lemma latest_max l u : latest_update l = Some u -> forall v, v ∈ l -> create_time v <= create_time u.
Proof.
  revert u. induction l as [|w l IH]; cbn; [done|]. intros u Hu v Hv. apply elem_of_cons in Hv.
  destruct (latest_update l) as [x|] eqn:E.
  - specialize (IH x eq_refl). destruct (Z.ltb_spec (create_time w) (create_time x));
      injection Hu as <-; destruct Hv as [->|Hv]; try lia; specialize (IH v Hv); lia.
  - injection Hu as <-. destruct Hv as [->|Hv]; [lia|]. destruct l; [by apply not_elem_of_nil in Hv|].
    cbn in E. destruct (latest_update l); [by destruct (_ <? _)|done].
Qed.

Lemma latest_filter P l u :
  latest_update l = Some u -> P u = true -> latest_update (List.filter P l) = Some u.
Proof.
  revert u. induction l as [|w l IH]; cbn; [done|]. intros u Hu HP.
  destruct (latest_update l) as [x|] eqn:E.
  - destruct (Z.ltb_spec (create_time w) (create_time x)) as [Hlt|Hge]; injection Hu as <-.
    + destruct (P w); cbn; [|by apply IH].
      rewrite (IH _ eq_refl HP). by rewrite (proj2 (Z.ltb_lt _ _)).
    + rewrite HP. cbn. destruct (latest_update (List.filter P l)) as [y|] eqn:Ey; [|done].
      assert (Hy : create_time y <= create_time x).
      { apply (latest_max l); [done|]. apply latest_in, elem_filter in Ey. tauto. }
      by rewrite (proj2 (Z.ltb_ge _ _)) by lia.
  - injection Hu as <-. rewrite HP. cbn.
    assert (l = []) as ->; [|done]. destruct l; [done|]. cbn in E.
    destruct (latest_update l); [by destruct (_ <? _)|done].
Qed.

Lemma NoDup_omap_map (f : update_row -> update_row) l :
  (forall u, prev_serial_num (f u) = prev_serial_num u \/ prev_serial_num (f u) = None) ->
  NoDup (omap prev_serial_num l) -> NoDup (omap prev_serial_num (map f l)).
Proof.
  intros Hf. assert (Hsub : forall l x, x ∈ omap prev_serial_num (map f l) -> x ∈ omap prev_serial_num l).
  { intros l' x Hx. apply list_elem_of_omap in Hx as (v & Hv & E).
    apply list_elem_of_fmap in Hv as (u & -> & Hu). apply list_elem_of_omap. exists u. split; [done|].
    destruct (Hf u); congruence. }
  induction l as [|u l IH]; cbn; [done|]. intros Hn.
  destruct (Hf u) as [->| ->]; destruct (prev_serial_num u) as [p|]; cbn in *; try (by apply IH).
  - apply NoDup_cons in Hn as [Hp Hn]. apply NoDup_cons. split; [|by apply IH].
    intros Hin. by apply Hp, Hsub.
  - apply NoDup_cons in Hn as [_ Hn]. by apply IH.
Qed.

Lemma NoDup_omap_filter P l :
  NoDup (omap prev_serial_num l) -> NoDup (omap prev_serial_num (List.filter P l)).
Proof.
  induction l as [|u l IH]; cbn; [done|]. intros Hn.
  assert (Hn' : NoDup (omap prev_serial_num l))
    by (destruct (prev_serial_num u); [by apply NoDup_cons in Hn as [_ Hn]|done]).
  destruct (P u); cbn; [|by apply IH]. destruct (prev_serial_num u) as [p|]; [|by apply IH].
  apply NoDup_cons in Hn as [Hp _]. apply NoDup_cons. split; [|by apply IH].
  intros Hin. apply Hp. apply list_elem_of_omap in Hin as (v & Hv & E). apply elem_filter in Hv as [_ Hv].
  apply list_elem_of_omap. by exists v.
Qed.

(** Rewriting rows of [rtr_update] so that they offer less. *)
Lemma rtr_inv_upd_map G f d :
  rtr_inv G d ->
  (forall u, serial_num (f u) = serial_num u) -> (forall u, create_time (f u) = create_time u) ->
  (forall u, prev_serial_num (f u) = prev_serial_num u \/ prev_serial_num (f u) = None) ->
  (forall u, has_full (f u) = true -> has_full u = true) ->
  (forall u, latest_update (rtr_update d) = Some u -> has_full (f u) = true) ->
  (forall u p, prev_serial_num u = Some p -> in_update p d = true -> prev_serial_num (f u) = Some p) ->
  rtr_inv G (set_update (map f (rtr_update d)) d).
Proof.
  intros [H1 H2 H3 H4 H5 H6] Hs Ht Hp Hf Hl Hk. split.
  - apply tables_ok_upd; [|by apply NoDup_omap_map, ok_prev|done].
    rewrite <- list_fmap_compose. erewrite list_fmap_ext; [by apply ok_serial|]. intros i u _. apply Hs.
  - cbn. intros v Hv Hfv. apply list_elem_of_fmap in Hv as (u & -> & Hu). rewrite Hs.
    by apply H2; [|apply Hf].
  - cbn. intros v p Hv Hpv. apply list_elem_of_fmap in Hv as (u & -> & Hu). rewrite Hs.
    apply H3; [done|]. destruct (Hp u); congruence.
  - cbn. intros u. rewrite latest_map by done. intros Hu.
    destruct (latest_update (rtr_update d)) as [w|] eqn:E; [|done]. injection Hu as <-. by apply Hl.
  - cbn. intros u v Hu Hv Hpv. apply list_elem_of_fmap in Hu as (u' & -> & Hu).
    apply list_elem_of_fmap in Hv as (v' & -> & Hv). rewrite Hs in Hpv. rewrite !Ht.
    apply H5; [done..|]. destruct (Hp v'); congruence.
  - cbn. intros u Hu. apply list_elem_of_fmap in Hu as (u' & -> & Hu). rewrite Hs, latest_map by done.
    destruct (H6 u' Hu) as [->|(v & Hv & Hpv)]; [by left|right]. exists (f v).
    split; [by apply list_elem_of_fmap_2|]. apply Hk; [done|]. apply in_update_iff. by exists u'.
Qed.

Lemma rtr_inv_upd_filter G P d :
  rtr_inv G d -> (forall u, latest_update (rtr_update d) = Some u -> P u = true) ->
  (rtr_update d = [] \/ exists u, latest_update (rtr_update d) = Some u) ->
  (forall u v, u ∈ rtr_update d -> v ∈ rtr_update d -> P u = true ->
     prev_serial_num v = Some (serial_num u) -> P v = true) ->
  rtr_inv G (set_update (List.filter P (rtr_update d)) d).
Proof.
  intros [H1 H2 H3 H4 H5 H6] HP Hne Hk. split.
  - apply tables_ok_upd; [by apply NoDup_map_filter, ok_serial|by apply NoDup_omap_filter, ok_prev|done].
  - cbn. intros u Hu. apply elem_filter in Hu as [_ Hu]. by apply H2.
  - cbn. intros u p Hu. apply elem_filter in Hu as [_ Hu]. by apply H3.
  - cbn. destruct Hne as [->|[u Hu]]; [done|]. rewrite (latest_filter _ _ u) by auto.
    intros v [= <-]. by apply H4.
  - cbn. intros u v Hu Hv. apply elem_filter in Hu as [_ Hu]. apply elem_filter in Hv as [_ Hv]. by apply H5.
  - cbn. intros u Hu. apply elem_filter in Hu as [HPu Hu].
    destruct (H6 u Hu) as [Hl|(v & Hv & Hpv)]; [left; by apply latest_filter|right].
    exists v. split; [|done]. apply elem_filter. split; [exact (Hk u v Hu Hv HPu Hpv)|done].
Qed.

Section cleanup.
Context (G : Z -> roa_set) (s cur prev : Z).
Notation Pub := (published G s cur prev).

Lemma published_stable e : benign_env e -> stable Pub e.
Proof.
  intros Hb d (H0 & Hc & H1 & H2). destruct (Hb d) as (_ & E & _).
  split_and!; [done| |by apply rtr_inv_benign|by rewrite E]. unfold spared_closed. by rewrite E.
Qed.

Lemma spared_map f d :
  (forall u, serial_num (f u) = serial_num u) ->
  (forall u, prev_serial_num (f u) = prev_serial_num u \/ prev_serial_num (f u) = None) ->
  spared_closed cur prev d -> spared_closed cur prev (set_update (map f (rtr_update d)) d).
Proof.
  intros Hs Hp Hc u v Hu Hv. apply list_elem_of_fmap in Hu as (u' & -> & Hu).
  apply list_elem_of_fmap in Hv as (v' & -> & Hv). rewrite !Hs. intros Hsp E.
  apply (Hc u' v'); [done..|]. destruct (Hp v'); congruence.
Qed.

Lemma spared_filter P d :
  spared_closed cur prev d -> spared_closed cur prev (set_update (List.filter P (rtr_update d)) d).
Proof.
  intros Hc u v Hu Hv. apply elem_filter in Hu as [_ Hu]. apply elem_filter in Hv as [_ Hv]. by apply Hc.
Qed.

(** Is this one of the two spared serial numbers? *)
Lemma spared_false u :
  negb (serial_num u =? cur) && negb (serial_num u =? prev) = false
  <-> serial_num u = cur \/ serial_num u = prev.
Proof. destruct (Z.eqb_spec (serial_num u) cur), (Z.eqb_spec (serial_num u) prev); cbn; intuition congruence. Qed.

(** Only the two spared updates still offer a full set. *)
Definition old_ignored (d : db) : Prop :=
  forall u, u ∈ rtr_update d -> has_full u = true -> serial_num u = cur \/ serial_num u = prev.

Lemma ignore_old_full_ok d d' :
  Pub d -> s_ignore_old_full cur prev d = Some d' -> Pub d' /\ old_ignored d'.
Proof.
  intros (Hsc & Hcl & Hi & u & Hu & Hs) [= <-].
  match goal with |- context [map ?g _] => set (f := g) end.
  assert (H1 : forall v, serial_num (f v) = serial_num v) by (intros v; unfold f; by destruct (_ && _)).
  assert (H2 : forall v, create_time (f v) = create_time v) by (intros v; unfold f; by destruct (_ && _)).
  assert (H3 : forall v, prev_serial_num (f v) = prev_serial_num v) by (intros v; unfold f; by destruct (_ && _)).
  split; [split_and!; [done|apply spared_map; auto| |]|].
  - apply rtr_inv_upd_map; auto.
    + intros v. unfold f. by destruct (_ && _).
    + intros v Hv. rewrite Hu in Hv. injection Hv as <-. unfold f.
      rewrite (proj2 (spared_false u)) by (by rewrite Hs). by apply (inv_latest _ _ Hi).
    + intros v p Hp _. by rewrite H3.
  - cbn. rewrite latest_map, Hu by done. eexists. split; [done|]. by rewrite H1.
  - cbn. intros v Hv Hf. apply list_elem_of_fmap in Hv as (w & -> & Hw). rewrite H1.
    apply spared_false. unfold f in Hf. by destruct (_ && _).
Qed.

Lemma delete_old_full_ok d d' :
  Pub d -> old_ignored d -> s_delete_old_full cur prev d = Some d' -> Pub d'.
Proof.
  intros (Hsc & Hcl & Hi & Hu) Ho [= <-]. split_and!; [done..| |done]. apply rtr_inv_full_filter; [done|].
  intros f u Hin Hf E. rewrite E. apply negb_true_iff, spared_false. by apply Ho.
Qed.

Lemma delete_old_update_ok hours d d' :
  Pub d -> s_delete_old_update hours cur prev d = Some d' -> Pub d'.
Proof.
  intros (Hsc & Hcl & Hi & u & Hu & Hs) [= <-].
  match goal with |- context [List.filter ?g _] => set (P := g) end.
  assert (Hkeep : forall v, P v = true <->
    now d - hours * 3600 <= create_time v \/ serial_num v = cur \/ serial_num v = prev).
  { intros v. unfold P. rewrite negb_true_iff, <- andb_assoc, andb_false_iff, spared_false, Z.ltb_ge. done. }
  assert (HPu : P u = true) by (apply Hkeep; rewrite Hs; auto).
  split_and!; [done|by apply spared_filter| |cbn; exists u; split; [by apply latest_filter|done]].
  apply rtr_inv_upd_filter; [done| |eauto|].
  - intros v Hv. rewrite Hu in Hv. by injection Hv as <-.
  - intros v w Hv Hw HPv Hp. apply Hkeep. apply Hkeep in HPv as [Ht|Hsv].
    + left. pose proof (inv_time _ _ Hi v w Hv Hw Hp). lia.
    + right. by apply (Hcl v w).
Qed.

Lemma ignore_old_incremental_ok d d' : Pub d -> s_ignore_old_incremental d = Some d' -> Pub d'.
Proof.
  intros (Hsc & Hcl & Hi & u & Hu & Hs) [= <-]. 
  match goal with |- context [map ?g _] => set (f := g) end.
  assert (Hf : forall v, f v = v \/ exists p, prev_serial_num v = Some p /\ in_update p d = false
     /\ f v = mkUpd (serial_num v) None (create_time v) (has_full v)).
  { intros v. unfold f. destruct (prev_serial_num v) as [p|]; [|by left].
    destruct (in_update p d) eqn:E; [by left|right]. by exists p. }
  assert (H1 : forall v, serial_num (f v) = serial_num v) by (intros v; destruct (Hf v) as [->|(p & _ & _ & ->)]; done).
  assert (H2 : forall v, create_time (f v) = create_time v) by (intros v; destruct (Hf v) as [->|(p & _ & _ & ->)]; done).
  assert (H3 : forall v, prev_serial_num (f v) = prev_serial_num v \/ prev_serial_num (f v) = None)
    by (intros v; destruct (Hf v) as [->|(p & _ & _ & ->)]; auto).
  assert (H4 : forall v, has_full (f v) = has_full v) by (intros v; destruct (Hf v) as [->|(p & _ & _ & ->)]; done).
  split_and!; [done|by apply spared_map| |].
  - apply rtr_inv_upd_map; auto.
    + intros v. by rewrite H4.
    + intros v Hv. rewrite H4. by apply (inv_latest _ _ Hi).
    + intros v p Hp Hin. destruct (Hf v) as [->|(p' & Hp' & Hn & _)]; [done|]. congruence.
  - cbn. rewrite latest_map, Hu by done. eexists. split; [done|]. by rewrite H1.
Qed.

Lemma delete_old_incremental_ok d d' : Pub d -> s_delete_old_incremental d = Some d' -> Pub d'.
Proof.
  intros (Hsc & Hcl & Hi & Hu) [= <-]. split_and!; [done..| |done]. apply rtr_inv_inc_filter; [done|].
  intros i u p Hin Hp E. apply existsb_exists. exists u. rewrite <- list_elem_of_In. split; [done|].
  rewrite E, Z.eqb_refl, Hp. done.
Qed.
End cleanup.

(** ** The whole program *)

Lemma step_triple e binds stmt (P Q W : db -> Prop) (k : DB Z) :
  stable P e -> (forall d d', P d -> stmt d = Some d' -> Q d') ->
  (forall d, P d -> W d) -> (forall d, Q d -> W d) ->
  triple (on_db Q) k (fun _ => on_db W) (fun _ => on_db W) ->
  triple (on_db P) (let* ok := run_update e binds stmt in
                    if negb ok then est_ret EXIT_FAILURE else k)
    (fun _ => on_db W) (fun _ => on_db W).
Proof.
  intros H1 H2 H3 H4 Hk. eapply triple_bind; [by apply (run_update_triple e binds stmt P Q W)|].
  intros [|]; cbn [negb]; [exact Hk|]. apply triple_ret. auto.
Qed.

Section program.
Context (F : Z -> roa_set) (d0 : db) (ue : update_env).
Context (Hb : benign_update ue).
Notation W := (meaningful F d0).
Notation U := (unpublished F d0).

Lemma env_of e : e ∈ [ue_session ue; ue_latest ue; ue_incomplete1 ue; ue_incomplete2 ue; ue_good ue;
    ue_full ue; ue_announce ue; ue_withdraw ue; ue_changes ue; ue_publish ue; ue_useless ue;
    ue_ignore_full ue; ue_delete_full ue; ue_delete_update ue; ue_ignore_inc ue; ue_delete_inc ue] ->
  benign_env e.
Proof. unfold benign_update in Hb. rewrite Forall_forall in Hb. apply Hb. Qed.

Ltac envs := apply env_of; rewrite !elem_of_cons; tauto.

Lemma cleanup_triple G s cur prev :
  (forall s, known s d0 -> G s = F s) ->
  triple (on_db (published G s cur prev)) (update_cleanup ue cur prev) (fun _ => on_db W) (fun _ => on_db W).
Proof.
  intros Hag. assert (HW : forall d, published G s cur prev d -> W d) by (intros d (_ & _ & Hi & _); by exists G).
  unfold update_cleanup.
  eapply (step_triple _ _ _ _ (fun d => published G s cur prev d /\ old_ignored cur prev d)).
  { apply published_stable. envs. } { apply ignore_old_full_ok. } { done. } { naive_solver. }
  eapply (step_triple _ _ _ _ (published G s cur prev)).
  { intros d [Hd Ho]. split; [apply published_stable; [envs|done]|].
    assert (He : benign_env (ue_delete_full ue)) by envs. destruct (He d) as (_ & E & _).
    unfold old_ignored. by rewrite E. }
  { intros d d' [Hd Ho]. by apply delete_old_full_ok. } { naive_solver. } { done. }
  eapply (step_triple _ _ _ _ (published G s cur prev)).
  { apply published_stable. envs. } { apply delete_old_update_ok. } { done. } { done. }
  eapply (step_triple _ _ _ _ (published G s cur prev)).
  { apply published_stable. envs. } { apply ignore_old_incremental_ok. } { done. } { done. }
  eapply (step_triple _ _ _ _ (published G s cur prev)).
  { apply published_stable. envs. } { apply delete_old_incremental_ok. } { done. } { done. }
  apply triple_ret. intros c Hc. by apply HW.
Qed.

Lemma publish_triple first force changed cur prev :
  fresh prev cur d0 -> at_latest first prev d0 -> (first = true -> changed = true) ->
  triple (on_db (fun d => U d /\ (first = false -> changes_recorded prev cur d)))
    (update_publish ue first force changed cur prev) (fun _ => on_db W) (fun _ => on_db W).
Proof.
  intros Hf Hl Hfc. assert (HU : forall d, U d -> W d) by apply unpublished_meaningful.
  assert (Hst : forall e, benign_env e ->
    stable (fun d => U d /\ (first = false -> changes_recorded prev cur d)) e).
  { intros e He d [Hd Hch]. split; [by apply unpublished_stable|]. intros E ann r.
    destruct (benign_rows (env_other e) d cur He) as [E1 E2].
    destruct (benign_rows (env_other e) d prev He) as [E3 _]. rewrite E1, E2, E3. by apply Hch. }
  assert (Hpub : forall d d', U d /\ (first = false -> changes_recorded prev cur d) ->
     s_insert_update cur (if first then None else Some prev) d = Some d' ->
     exists l, published (extend F cur l) cur cur prev d').
  { intros d d' [Hd Hch] E. destruct (insert_update_ok F d0 first prev cur d d' Hd Hf Hl Hch E) as [Hp _]. eauto. }
  assert (Hag : forall l s, known s d0 -> extend F cur l s = F s).
  { intros l s Hk. apply extend_ne. by eapply fresh_known. }
  unfold update_publish. destruct (changed || force) eqn:Ec.
  - eapply (step_triple _ _ _ _ (fun d => exists l, published (extend F cur l) cur cur prev d)).
    + apply Hst. envs.
    + exact Hpub.
    + intros d [Hd _]. by apply HU.
    + intros d (l & _ & _ & Hi & _). exists (extend F cur l). split; [done|]. apply Hag.
    + intros c (l & Hd). exact (cleanup_triple (extend F cur l) cur cur prev (Hag l) c Hd).
  - assert (first = false) as -> by (destruct first; [|done]; rewrite Hfc in Ec by done; done).
    eapply (step_triple _ _ _ _ (published F prev cur prev)).
    + apply Hst. envs.
    + intros d d' [Hd _]. by eapply delete_full_ok.
    + intros d [Hd _]. by apply HU.
    + intros d (_ & _ & Hi & _). by exists F.
    + by apply cleanup_triple.
Qed.

Lemma diff_rows_ext t1 t2 d d' : (forall s, full_rows s d' = full_rows s d) ->
  diff_rows t1 t2 d' = diff_rows t1 t2 d.
Proof. intros E. unfold diff_rows. by rewrite !E. Qed.

Lemma both_recorded prev cur d d' :
  (forall s, full_rows s d' = full_rows s d) ->
  inc_rows cur d' = (pair true <$> diff_rows cur prev d) ++ (pair false <$> diff_rows prev cur d) ->
  changes_recorded prev cur d'.
Proof.
  intros Ef E ann r. rewrite E, elem_of_app, !list_elem_of_fmap, !Ef. split.
  - intros [(r' & [= -> ->] & Hr)|(r' & [= -> ->] & Hr)]; by apply elem_diff in Hr.
  - intros Hr. destruct ann; [left|right]; exists r; (split; [done|]); by apply elem_diff.
Qed.

Lemma incremental_triple prev cur (k : DB Z) :
  fresh prev cur d0 ->
  triple (on_db (fun d => U d /\ changes_recorded prev cur d)) k (fun _ => on_db W) (fun _ => on_db W) ->
  triple (on_db (fun d => U d /\ inc_rows cur d = []))
    (let* ok := db_rtr_insert_incremental (ue_announce ue) (ue_withdraw ue) prev cur in
     if negb ok then est_ret EXIT_FAILURE else k) (fun _ => on_db W) (fun _ => on_db W).
Proof.
  intros Hf Hk. assert (HU : forall d, U d -> W d) by apply unpublished_meaningful.
  eapply (triple_bind _ _ _ (fun ok c => if ok : bool then U (c_db c) /\ changes_recorded prev cur (c_db c)
                                         else W (c_db c))).
  2: { intros [|]; cbn [negb]; [exact Hk|]. by apply triple_ret. }
  unfold db_rtr_insert_incremental.
  eapply triple_bind.
  { apply (run_update_triple _ _ _ _
      (fun d => U d /\ inc_rows cur d = pair true <$> diff_rows cur prev d) W).
    - intros d [Hd Hi]. assert (He : benign_env (ue_announce ue)) by envs.
      split; [by apply unpublished_stable|]. by rewrite (proj2 (benign_rows _ d cur He)).
    - intros d d' [Hd Hi] E. destruct (insert_inc_ok F d0 prev cur _ _ _ _ _ Hd Hf E) as (H1 & H2 & H3).
      split; [done|]. rewrite H2, Hi. cbn. by rewrite (diff_rows_ext cur prev d d').
    - naive_solver.
    - naive_solver. }
  intros [|]; [|by apply triple_ret].
  apply (run_update_triple _ _ _ (fun d => U d /\ inc_rows cur d = pair true <$> diff_rows cur prev d)
    (fun d => U d /\ changes_recorded prev cur d) W).
  - intros d [Hd Hi]. assert (He : benign_env (ue_withdraw ue)) by envs.
    split; [by apply unpublished_stable|]. rewrite (proj2 (benign_rows _ d cur He)), Hi.
    unfold diff_rows. by rewrite (proj1 (benign_rows _ d cur He)), (proj1 (benign_rows _ d prev He)).
  - intros d d' [Hd Hi] E. destruct (insert_inc_ok F d0 prev cur _ _ _ _ _ Hd Hf E) as (H1 & H2 & H3).
    split; [done|]. apply (both_recorded prev cur d d' H3). by rewrite H2, Hi.
  - naive_solver.
  - naive_solver.
Qed.

Lemma compute_triple first force cur prev :
  fresh prev cur d0 -> at_latest first prev d0 ->
  triple (on_db (fun d => U d /\ inc_complete d /\ full_complete d))
    (update_compute ue first force cur prev) (fun _ => on_db W) (fun _ => on_db W).
Proof.
  intros Hf Hl. assert (HU : forall d, U d -> W d) by apply unpublished_meaningful.
  unfold update_compute, db_rtr_insert_full.
  eapply (step_triple _ _ _ _ (fun d => U d /\ inc_rows cur d = [])).
  - intros d (Hd & Hi & Hc). assert (He : benign_env (ue_full ue)) by envs.
    split; [by apply unpublished_stable|].
    destruct (He d) as (_ & E1 & E2 & E3 & _). unfold inc_complete, full_complete, in_update.
    by rewrite E1, E2, E3.
  - intros d d' (Hd & Hi & Hc) E. pose proof (complete_no_rows F d0 cur prev d Hd Hf Hi) as Hn.
    destruct (insert_full_ok F d0 prev cur _ _ d d' Hd Hf Hn Hc E) as (H1 & H2 & _). done.
  - naive_solver.
  - naive_solver.
  - destruct first.
    + eapply triple_conseq; [by apply (publish_triple true force true cur prev)|..]; try done.
      intros c [Hd _]. split; [done|by intros].
    + apply incremental_triple; [done|].
      unfold db_rtr_has_incremental_changes.
      eapply (triple_bind _ _ _ (fun _ => on_db (fun d => U d /\ changes_recorded prev cur d))).
      * eapply triple_bind.
        { eapply triple_conseq; [apply (run_select_triple (ue_changes ue) true false (q_has_changes cur)
            (fun d => U d /\ changes_recorded prev cur d))|done|intros a c [Ha _]; exact Ha|intros e c [Hd _]; by apply HU].
          intros d [Hd Hch]. assert (He : benign_env (ue_changes ue)) by envs.
          split; [by apply unpublished_stable|]. intros ann r.
          destruct (benign_rows _ d cur He) as [E1 E2]. destruct (benign_rows _ d prev He) as [E3 _].
          rewrite E1, E2, E3. apply Hch. }
        intros [rows|]; [|by apply triple_ret]. by destruct (mysql_stmt_fetch _ _ _); apply triple_ret.
      * intros [b|]; [|apply triple_ret; intros c [Hd _]; by apply HU].
        eapply triple_conseq; [by apply (publish_triple false force b cur prev)|..]; try done.
        intros c [Hd Hch]. by split.
Qed.

Lemma inconsistent_fresh prev cur d :
  q_inconsistent cur cur prev d = [false] -> fresh prev cur d.
Proof.
  unfold q_inconsistent, fresh. intros [= E] u Hu.
  assert (H : ((serial_num u =? cur) || opt_eqb (prev_serial_num u) cur || opt_eqb (prev_serial_num u) prev) = false).
  { apply not_true_iff_false. intros Ht. apply not_true_iff_false in E. apply E.
    apply existsb_exists. exists u. rewrite <- list_elem_of_In. done. }
  apply orb_false_elim in H as [H H3]. apply orb_false_elim in H as [H1 H2]. bprop.
  split_and!; [done|intros E'; rewrite E' in H2..]; [|rewrite E' in H3]; cbn in *; bprop; done.
Qed.

Lemma good_serials_triple prev cur :
  triple (on_db (fun d => U d /\ inc_complete d /\ full_complete d))
    (db_rtr_good_serials (ue_good ue) prev cur)
    (fun ok c => (U (c_db c) /\ inc_complete (c_db c) /\ full_complete (c_db c))
                 /\ (ok = true -> fresh prev cur d0)) (fun _ => on_db W).
Proof.
  unfold db_rtr_good_serials. eapply triple_bind.
  { eapply triple_conseq; [apply (run_select_triple (ue_good ue) true false (q_inconsistent cur cur prev)
      (fun d => U d /\ inc_complete d /\ full_complete d))|done|intros a c Ha; exact Ha
      |intros e c [Hd _]; by apply unpublished_meaningful].
    intros d (Hd & Hi & Hc). assert (He : benign_env (ue_good ue)) by envs.
    split; [by apply unpublished_stable|].
    destruct (He d) as (_ & E1 & E2 & E3 & _). unfold inc_complete, full_complete, in_update.
    by rewrite E1, E2, E3. }
  intros [rows|]; [|apply triple_ret; intros c [Hc _]; by split].
  intros c [Hc Hrows]. specialize (Hrows rows eq_refl).
  destruct (mysql_stmt_fetch (ue_good ue) 0 rows) as [b| |] eqn:Ef; cbn; [|by split..].
  split; [done|]. intros E. apply negb_true_iff in E. subst b.
  assert (Hq : q_inconsistent cur cur prev (c_db c) = [false]).
  { rewrite <- Hrows. unfold mysql_stmt_fetch in Ef. destruct (decide _); [done|].
    destruct rows as [|b l]; [done|]. injection Ef as ->. unfold q_inconsistent in Hrows. by injection Hrows as _ ->. }
  apply inconsistent_fresh in Hq. unfold fresh in *. by rewrite <- (un_upd _ _ _ (proj1 Hc)).
Qed.

Lemma serials_triple first prev :
  at_latest first prev d0 ->
  triple (on_db U) (update_serials ue first prev) (fun _ => on_db W) (fun _ => on_db W).
Proof.
  intros Hl. assert (HU : forall d, U d -> W d) by apply unpublished_meaningful.
  unfold update_serials, db_rtr_delete_incomplete_updates.
  eapply (triple_bind _ _ _ (fun ok c => if ok : bool
    then U (c_db c) /\ inc_complete (c_db c) /\ full_complete (c_db c) else W (c_db c))).
  { eapply triple_bind.
    - apply (run_update_triple _ _ _ U (fun d => U d /\ inc_complete d) W);
        [apply unpublished_stable; envs|apply delete_incomplete_inc_ok|done|naive_solver].
    - intros [|]; [|by apply triple_ret].
      apply (run_update_triple _ _ _ (fun d => U d /\ inc_complete d)
        (fun d => U d /\ inc_complete d /\ full_complete d) W).
      + intros d (Hd & Hi). assert (He : benign_env (ue_incomplete2 ue)) by envs.
        split; [by apply unpublished_stable|].
        destruct (He d) as (_ & E1 & E2 & E3 & _). unfold inc_complete, in_update. by rewrite E1, E3.
      + intros d d' [Hd Hi]. by apply delete_incomplete_full_ok.
      + naive_solver.
      + naive_solver. }
  intros [|]; cbn [negb]; [|by apply triple_ret].
  assert (Hmain : forall force cur, triple (on_db (fun d => U d /\ inc_complete d /\ full_complete d))
    (let* good := if first then est_ret true else db_rtr_good_serials (ue_good ue) prev cur in
     if negb good then est_ret EXIT_FAILURE else update_compute ue first force cur prev)
    (fun _ => on_db W) (fun _ => on_db W)).
  { intros force cur. destruct first.
    - apply (compute_triple true force cur prev); [|done]. intros u Hu. cbn in Hl. rewrite Hl in Hu.
      by apply not_elem_of_nil in Hu.
    - eapply triple_bind; [apply good_serials_triple|]. intros [|]; cbn [negb].
      + intros c [Hc Hf]. exact (compute_triple false force cur prev (Hf eq_refl) Hl c Hc).
      + apply triple_ret. intros c [[Hc _] _]. by apply HU. }
  destruct (ue_argument ue) as [[n|]|]; [apply Hmain| |apply Hmain].
  apply triple_ret. intros c [Hc _]. by apply HU.
Qed.

Lemma main_triple : triple (on_db U) (main ue) (fun _ => on_db W) (fun _ => on_db W).
Proof.
  assert (HU : forall d, U d -> W d) by apply unpublished_meaningful.
  assert (HUc : forall c, on_db U c -> on_db W c) by (intros c; apply HU).
  unfold main. do 5 (apply triple_if; intros _; [by apply triple_ret|]).
  eapply (triple_bind _ _ _ (fun _ => on_db U)).
  { unfold db_rtr_has_valid_session. eapply triple_bind.
    - eapply triple_conseq; [apply (run_select_triple (ue_session ue) false true q_count_session U)
        |done|intros a c [Ha _]; exact Ha|intros e c; apply HU].
      apply unpublished_stable. envs.
    - intros [rows|]; [|by apply triple_ret]. by destruct (mysql_stmt_fetch _ _ _); apply triple_ret. }
  intros ok. apply triple_if; intros _; [by apply triple_ret|].
  eapply (triple_bind _ _ _ (fun r c => U (c_db c) /\ match r with
     | GET_SERNUM_SUCCESS p => at_latest false p d0
     | GET_SERNUM_NONE => rtr_update d0 = []
     | GET_SERNUM_ERR => True end)).
  { unfold db_rtr_get_latest_sernum, fetch_sernum. eapply triple_bind.
    - eapply triple_conseq; [apply (run_select_triple (ue_latest ue) false true q_latest_sernum U)
        |done|intros a c Ha; exact Ha|intros e c; apply HU].
      apply unpublished_stable. envs.
    - intros [rows|]; [|apply triple_ret; by intros c [Hc _]]. intros c [Hc Hrows].
      specialize (Hrows rows eq_refl). unfold q_latest_sernum in Hrows. rewrite (un_upd _ _ _ Hc) in Hrows.
      unfold mysql_stmt_fetch. destruct (decide _); [by split|].
      destruct (latest_update (rtr_update d0)) as [u|] eqn:Eu; cbn in Hrows; subst rows; cbn.
      + split; [done|]. by exists u.
      + split; [done|]. destruct (rtr_update d0) as [|u l]; [done|]. cbn in Eu.
        by destruct (latest_update l); [destruct (_ <? _)|]. }
  intros [p| |] c [Hc Hr].
  - by apply (serials_triple false p Hr c).
  - by apply HU.
  - by apply (serials_triple true _ Hr c).
Qed.
End program.
