(* ===== verification/RtrSync.v ===== *)
(** * Synchronisation: what routers end up with

    [rtr-update] publishes the valid ROAs; a router that applies the answer to
    a reset query has exactly the newest published set, and one that applies
    the answer to a serial query goes from the set of its serial number to
    the newest one. *)

From S2P Require Import Prelude Pdu Sql SqlFacts RtrQuery RtrQueryFacts RtrUpdate RtrUpdateFacts.
Local Open Scope est_scope.

(** A run without argument in which no call fails and no one interferes. *)
Definition quiet_update (conf : config) (rnd : Z) : update_env :=
  mkUpdateEnv conf true None true true true true rnd quiet quiet quiet quiet quiet quiet quiet quiet
    quiet quiet quiet quiet quiet quiet quiet quiet.

(** The ROAs that pass the configured tests. *)
Definition valid_set (conf : config) (d : db) : roa_set :=
  list_to_set (valid_roas (ft_mask (flag_tests_default conf)) (ft_result (flag_tests_default conf)) d).

(** ** A run of the update program *)

Lemma run_update_quiet binds stmt d d' h :
  stmt d = Some d' ->
  run_update quiet binds stmt (mkConn d (Some h)) = (mkConn d' (Some h), inr true).
Proof.
  intros E. unfold run_update, get_stmt. unfold est_bind at 1. cbn [c_stmts].
  rewrite andb_false_r. unfold est_bind. rewrite wrap_execute. cbn. by rewrite E.
Qed.

Lemma cleanup_quiet conf rnd G s cur prev d h :
  published G s cur prev d ->
  exists d', update_cleanup (quiet_update conf rnd) cur prev (mkConn d (Some h))
             = (mkConn d' (Some h), inr EXIT_SUCCESS) /\ published G s cur prev d'.
Proof.
  intros H. unfold update_cleanup, quiet_update.
  cbn [ue_conf ue_ignore_full ue_delete_full ue_delete_update ue_ignore_inc ue_delete_inc].
  destruct (ignore_old_full_ok _ _ _ _ _ _ H eq_refl) as [H1 Ho].
  pose proof (delete_old_full_ok _ _ _ _ _ _ H1 Ho eq_refl) as H2.
  pose proof (delete_old_update_ok _ _ _ _ (retention_hours conf) _ _ H2 eq_refl) as H3.
  pose proof (ignore_old_incremental_ok _ _ _ _ _ _ H3 eq_refl) as H4.
  pose proof (delete_old_incremental_ok _ _ _ _ _ _ H4 eq_refl) as H5.
  eexists. split; [|exact H5].
  unfold db_rtr_ignore_old_full, db_rtr_delete_old_full, db_rtr_delete_old_update,
    db_rtr_ignore_old_incremental, db_rtr_delete_old_incremental.
  do 5 (erewrite bind_val by (by apply run_update_quiet); cbn [negb]). done.
Qed.

Section run.
Context (F : Z -> roa_set) (conf : config) (rnd : Z) (d : db) (h : nat).
Context (Hinv : rtr_inv F d) (Hclock : clock_ok d) (Hroas : roas_ok d).
Notation U := (unpublished F d).
Notation ue := (quiet_update conf rnd).
Notation run m d1 d2 r := (m (mkConn d1 (Some h)) = (mkConn d2 (Some h), inr r)).

(** What a run leaves behind. *)
Definition run_result (cur prev : Z) (d' : db) : Prop :=
  exists G s, published G s cur prev d' /\ (forall s, known s d -> G s = F s)
    /\ G s = valid_set conf d.

Lemma finish G s cur prev d1 :
  published G s cur prev d1 -> (forall s, known s d -> G s = F s) -> G s = valid_set conf d ->
  exists d', run (update_cleanup ue cur prev) d1 d' EXIT_SUCCESS /\ run_result cur prev d'.
Proof.
  intros Hp Hag HG. destruct (cleanup_quiet conf rnd _ _ _ _ _ h Hp) as (d' & E & Hp').
  exists d'. split; [exact E|]. by exists G, s.
Qed.

Lemma insert_update_succeeds first prev cur d1 :
  U d1 -> fresh prev cur d ->
  exists d2, s_insert_update cur (if first : bool then None else Some prev) d1 = Some d2.
Proof.
  intros H Hf. unfold s_insert_update.
  destruct (in_update cur d1 || _) eqn:E; [exfalso|eauto].
  apply orb_prop in E as [E|E].
  - apply in_update_iff in E as (u & Hu & Hs). rewrite (un_upd _ _ _ H) in Hu. by destruct (Hf u Hu).
  - destruct first; [done|]. apply existsb_exists in E as (u & Hu%list_elem_of_In & E).
    rewrite (un_upd _ _ _ H) in Hu. destruct (Hf u Hu) as (_ & _ & Hp).
    unfold opt_eqb in E. destruct (prev_serial_num u); [|done]. bprop. by subst.
Qed.

Lemma publish_quiet first changed prev cur d1 :
  U d1 -> fresh prev cur d -> at_latest first prev d ->
  (first = false -> changes_recorded prev cur d1) ->
  (forall r, r ∈ full_rows cur d1 <-> r ∈ valid_set conf d) ->
  (changed = false -> first = false /\ valid_set conf d = F prev) ->
  exists d', run (update_publish ue first false changed cur prev) d1 d' EXIT_SUCCESS
    /\ run_result cur prev d'.
Proof.
  intros H Hf Hl Hch Hv Hno. unfold update_publish. rewrite orb_false_r. destruct changed.
  - destruct (insert_update_succeeds first prev cur d1 H Hf) as [d2 E].
    destruct (insert_update_ok F d first prev cur d1 d2 H Hf Hl Hch E) as (Hp & _ & _).
    destruct (finish _ _ _ _ _ Hp) as (d' & Er & Hres).
    + intros s Hs. apply extend_ne. by eapply fresh_known.
    + apply set_eq. intros r. by rewrite extend_eq, Hv.
    + exists d'. split; [|done]. unfold db_rtr_insert_update.
      erewrite bind_val by (apply run_update_quiet; exact E). exact Er.
  - destruct (Hno eq_refl) as [-> HF].
    pose proof (delete_full_ok F d false prev cur d1 _ H Hf Hl eq_refl eq_refl) as Hp.
    destruct (finish _ _ _ _ _ Hp) as (d' & Er & Hres); [done..|].
    exists d'. split; [|done]. unfold db_rtr_delete_full.
    erewrite bind_val by (by apply run_update_quiet). exact Er.
Qed.

Lemma NoDup_diff t1 t2 d1 : tables_ok d1 -> NoDup (diff_rows t1 t2 d1).
Proof. intros H. unfold diff_rows. by apply NoDup_filter', full_rows_nodup. Qed.

Lemma insert_inc_succeeds s ann t2 t1 d1 :
  tables_ok d1 -> (forall a r, (a, r) ∈ inc_rows s d1 -> r ∉ diff_rows t1 t2 d1) ->
  exists d2, s_insert_incremental s ann t2 t1 d1 = Some d2.
Proof.
  intros Hok Hd. unfold s_insert_incremental. rewrite bool_decide_true by (by apply NoDup_diff).
  assert (forallb (fun r => negb (bool_decide (r ∈ (snd <$> inc_rows s d1)))) (diff_rows t1 t2 d1) = true)
    as ->; [|eauto].
  apply forallb_forall. intros r Hr%list_elem_of_In. apply negb_true_iff, bool_decide_eq_false.
  intros Hin. apply list_elem_of_fmap in Hin as ([a r'] & -> & Hin). by apply (Hd a r').
Qed.

(** The changes are computed without a key violation. *)
Lemma incremental_quiet prev cur d1 :
  U d1 -> fresh prev cur d -> inc_rows cur d1 = [] ->
  exists d2, run (db_rtr_insert_incremental quiet quiet prev cur) d1 d2 true
    /\ U d2 /\ changes_recorded prev cur d2 /\ (forall s, full_rows s d2 = full_rows s d1).
Proof.
  intros H Hf Hn.
  destruct (insert_inc_succeeds cur true prev cur d1) as [d2 E2]; [apply H|by rewrite Hn; intros a r ?%not_elem_of_nil|].
  destruct (insert_inc_ok F d prev cur _ _ _ _ _ H Hf E2) as (H2 & Hi2 & Hf2). rewrite Hn in Hi2. cbn in Hi2.
  destruct (insert_inc_succeeds cur false cur prev d2) as [d3 E3]; [apply H2| |].
  { intros a r Hin Hr. rewrite Hi2 in Hin. apply list_elem_of_fmap in Hin as (r' & [= _ ->] & Hr').
    apply elem_diff in Hr as [_ Hr]. apply elem_diff in Hr' as [Hr' _]. rewrite Hf2 in Hr. by destruct (Hr Hr'). }
  destruct (insert_inc_ok F d prev cur _ _ _ _ _ H2 Hf E3) as (H3 & Hi3 & Hf3).
  exists d3. split_and!; [|done| |intros s; by rewrite Hf3].
  - unfold db_rtr_insert_incremental. erewrite bind_val by (apply run_update_quiet; exact E2).
    by apply run_update_quiet.
  - apply (both_recorded prev cur d2 d3 Hf3). rewrite Hi3, Hi2. by rewrite (diff_rows_ext cur prev d1 d2 Hf2).
Qed.

Lemma changes_quiet cur d1 :
  run (db_rtr_has_incremental_changes quiet cur) d1 d1 (Some (negb (Nat.eqb (length (inc_rows cur d1)) 0))).
Proof. unfold db_rtr_has_incremental_changes. erewrite bind_val by apply run_select_quiet. done. Qed.

Lemma no_changes_same first prev cur d1 :
  U d1 -> at_latest first prev d -> first = false -> changes_recorded prev cur d1 ->
  (forall r, r ∈ full_rows cur d1 <-> r ∈ valid_set conf d) -> inc_rows cur d1 = [] ->
  valid_set conf d = F prev.
Proof.
  intros H Hl E Hch Hv Hn. destruct (latest_full F d first prev d1 H Hl E) as (_ & _ & _ & _ & Hp).
  apply set_eq. intros r. rewrite <- Hv, <- Hp.
  pose proof (Hch true r) as H1. pose proof (Hch false r) as H2. rewrite Hn, elem_of_nil in H1, H2.
  destruct (decide (r ∈ full_rows cur d1)), (decide (r ∈ full_rows prev d1)); tauto.
Qed.

Lemma compute_quiet first prev cur d1 :
  U d1 -> inc_complete d1 -> full_complete d1 -> valid_set conf d1 = valid_set conf d ->
  fresh prev cur d -> at_latest first prev d ->
  exists d', run (update_compute ue first false cur prev) d1 d' EXIT_SUCCESS /\ run_result cur prev d'.
Proof.
  intros H Hi Hc Hvd Hf Hl. pose proof (complete_no_rows F d cur prev d1 H Hf Hi) as Hn.
  unfold update_compute, db_rtr_insert_full, quiet_update. cbn [ue_conf ue_full ue_announce ue_withdraw ue_changes].
  set (t := flag_tests_default conf).
  destruct (insert_full_ok F d prev cur (ft_mask t) (ft_result t) d1 _ H Hf Hn Hc eq_refl) as (H2 & Hn2 & Hv2).
  erewrite bind_val by (apply run_update_quiet; reflexivity). cbn [negb].
  set (d2 := set_full _ d1) in *.
  assert (Hv : forall r, r ∈ full_rows cur d2 <-> r ∈ valid_set conf d).
  { intros r. rewrite Hv2, <- Hvd. unfold valid_set. by rewrite elem_of_list_to_set. }
  destruct first; [by apply publish_quiet|].
  destruct (incremental_quiet prev cur d2 H2 Hf Hn2) as (d3 & E3 & H3 & Hch & Hf3).
  erewrite bind_val by exact E3. cbn [negb]. erewrite bind_val by apply changes_quiet.
  assert (Hv3 : forall r, r ∈ full_rows cur d3 <-> r ∈ valid_set conf d) by (intros r; by rewrite Hf3).
  apply publish_quiet; try done. intros E. split; [done|].
  apply (no_changes_same false prev cur d3); try done.
  apply negb_false_iff, Nat.eqb_eq in E. by apply nil_length_inv.
Qed.

Lemma unpublished_start : U d.
Proof. by split. Qed.

Lemma latest_fresh u cur :
  latest_update (rtr_update d) = Some u -> ~ known cur d -> fresh (serial_num u) cur d.
Proof.
  intros Hl Hk v Hv. split_and!.
  - intros E. apply Hk. exists v. auto.
  - intros E. apply Hk. exists v. auto.
  - intros E. pose proof (latest_max _ _ Hl v Hv). pose proof (latest_in _ _ Hl) as Hu.
    pose proof (inv_time _ _ Hinv u v Hu Hv E). lia.
Qed.

Lemma good_quiet prev cur d1 :
  rtr_update d1 = rtr_update d -> fresh prev cur d ->
  run (db_rtr_good_serials quiet prev cur) d1 d1 true.
Proof.
  intros Eu Hf. unfold db_rtr_good_serials. erewrite bind_val by apply run_select_quiet.
  assert (E : q_inconsistent cur cur prev d1 = [false]); [|by rewrite E].
  unfold q_inconsistent. f_equal. apply not_true_iff_false. intros Ht.
  apply existsb_exists in Ht as (u & Hu%list_elem_of_In & Ht). rewrite Eu in Hu.
  destruct (Hf u Hu) as (H1 & H2 & H3). unfold opt_eqb in Ht.
  apply orb_prop in Ht as [Ht|Ht]; [apply orb_prop in Ht as [Ht|Ht]|];
    try (destruct (prev_serial_num u); [|done]); bprop; subst; done.
Qed.

Lemma serials_quiet first prev :
  at_latest first prev d -> (first = false -> fresh prev (u32 (prev + 1)) d) ->
  exists d', run (update_serials ue first prev) d d' EXIT_SUCCESS
    /\ run_result (u32 (prev + 1)) prev d'.
Proof.
  intros Hl Hf. unfold update_serials, db_rtr_delete_incomplete_updates, quiet_update.
  cbn [ue_incomplete1 ue_incomplete2 ue_argument ue_good].
  destruct (delete_incomplete_inc_ok F d d _ unpublished_start eq_refl) as [H1 Hi1].
  destruct (delete_incomplete_full_ok F d _ _ H1 Hi1 eq_refl) as (H2 & Hi2 & Hc2).
  erewrite bind_val by (erewrite bind_val by (by apply run_update_quiet); by apply run_update_quiet).
  cbn [negb]. set (d2 := set_full _ _) in *.
  assert (Hfr : fresh prev (u32 (prev + 1)) d).
  { destruct first; [|by apply Hf]. intros u Hu. cbn in Hl. rewrite Hl in Hu. by apply not_elem_of_nil in Hu. }
  assert (Hgood : run (if first then est_ret true else db_rtr_good_serials quiet prev (u32 (prev + 1))) d2 d2 true).
  { destruct first; [done|]. apply good_quiet; [apply (un_upd _ _ _ H2)|done]. }
  erewrite bind_val by exact Hgood. cbn [negb]. by apply compute_quiet.
Qed.

Lemma main_quiet sid :
  rtr_session d = [sid] ->
  (forall u, latest_update (rtr_update d) = Some u -> ~ known (u32 (serial_num u + 1)) d) ->
  exists d' prev, run (main ue) d d' EXIT_SUCCESS /\ run_result (u32 (prev + 1)) prev d'.
Proof.
  intros Hs Hk. unfold main.
  cbn [ue_usage_ok ue_config_ok ue_db_init_ok ue_thread_ok ue_connect_ok negb ue_session ue_latest quiet_update].
  assert (E1 : run (db_rtr_has_valid_session quiet) d d true).
  { unfold db_rtr_has_valid_session. erewrite bind_val by apply run_select_quiet.
    unfold q_count_session. by rewrite Hs. }
  erewrite bind_val by exact E1. cbn [negb]. unfold db_rtr_get_latest_sernum.
  erewrite bind_val by apply sernum_quiet. unfold q_latest_sernum.
  destruct (latest_update (rtr_update d)) as [u|] eqn:El; cbn [option_list fmap option_fmap option_map].
  - destruct (serials_quiet false (serial_num u)) as (d' & E & Hr); [by exists u| |].
    + intros _. apply latest_fresh; [done|]. by apply Hk.
    + by exists d', (serial_num u).
  - destruct (serials_quiet true (u32 (ue_random ue))) as (d' & E & Hr); [|done|by eexists _, _].
    cbn. destruct (rtr_update d) as [|u l]; [done|]. cbn in El.
    by destruct (latest_update l); [destruct (_ <? _)|].
Qed.
End run.

(** ** Routers *)

Lemma row_pdu_row ann r : row_valid r -> pdu_row (row_pdu (ann, r)) = Some (ann, r).
Proof.
  intros (_ & _ & Hl & _). unfold row_pdu, fillPduIpPrefix. cbn [fst snd].
  destruct Hl as [->| ->]; destruct ann, r; done.
Qed.

Lemma row_pdu_type x : row_valid (snd x) -> pduType (row_pdu x) =? PDU_END_OF_DATA = false.
Proof.
  destruct x as [ann r]. intros (_ & _ & Hl & _). unfold row_pdu, fillPduIpPrefix. cbn [fst snd] in *.
  by destruct Hl as [->| ->].
Qed.

Lemma router_rows l : forall R, Forall (fun x => row_valid (snd x)) l ->
  router_run R (row_pdu <$> l) = mkRouter (apply_rows (r_set R) l) (r_serial R).
Proof.
  induction l as [|[ann r] l IH]; intros R Hv; cbn; [by destruct R|].
  inversion Hv as [|? ? Hr Hv']; subst. unfold router_step at 2.
  rewrite row_pdu_type, row_pdu_row by done. unfold router_run in IH. rewrite IH by done. done.
Qed.

Lemma router_response sid s l R :
  Forall (fun x => row_valid (snd x)) l ->
  router_run R (fill_pdu_cache_response zero_pdu sid :: (row_pdu <$> l)
                ++ [fill_pdu_end_of_data zero_pdu sid s])
  = mkRouter (apply_rows (r_set R) l) s.
Proof.
  intros Hv. unfold router_run. cbn [foldl]. rewrite foldl_app.
  change (router_step R (fill_pdu_cache_response zero_pdu sid)) with R.
  pose proof (router_rows l R Hv) as E. unfold router_run in E. rewrite E. done.
Qed.

(** Rows of one update: each key occurs once, so their order does not matter. *)
Lemma apply_rows_elem l : forall S r, NoDup (snd <$> l) ->
  r ∈ apply_rows S l <-> (true, r) ∈ l \/ (r ∈ S /\ (false, r) ∉ l).
Proof.
  induction l as [|[a x] l IH]; intros S r Hn; cbn.
  { rewrite !elem_of_nil. tauto. }
  cbn in Hn. apply NoDup_cons in Hn as [Hx Hn]. fold (apply_rows (apply_row S (a, x)) l).
  rewrite IH by done. rewrite !elem_of_cons.
  assert (Hnot : forall b, (b, x) ∉ l) by (intros b Hb; apply Hx; by apply (list_elem_of_fmap_2 snd l (b, x))).
  destruct (decide (r = x)) as [->|Hne].
  - pose proof (Hnot true). pose proof (Hnot false). unfold apply_row. destruct a; cbn; set_solver.
  - unfold apply_row. destruct a; cbn; set_solver.
Qed.

Lemma sorted_inc_perm s d : sorted_inc s d ≡ₚ inc_rows s d.
Proof. apply sort_by_perm. Qed.

(** One update takes [F p] to [F s]. *)
Lemma apply_update F d u p :
  rtr_inv F d -> u ∈ rtr_update d -> prev_serial_num u = Some p ->
  apply_rows (F p) (sorted_inc (serial_num u) d) = F (serial_num u).
Proof.
  intros Hi Hu Hp. apply set_eq. intros r. rewrite apply_rows_elem.
  - rewrite !sorted_inc_perm. rewrite !(inv_inc _ _ Hi u p Hu Hp).
    destruct (decide (r ∈ F (serial_num u))), (decide (r ∈ F p)); tauto.
  - rewrite sorted_inc_perm. apply inc_rows_nodup, Hi.
Qed.

Lemma apply_chain F d s l :
  rtr_inv F d -> chain d s l -> apply_rows (F s) (updates_rows l d) = F (newest s l).
Proof.
  intros Hi Hch. induction Hch as [s Hq|s s' l Hq Hch IH]; [done|].
  rewrite newest_cons, <- IH. cbn [updates_rows map concat]. fold (updates_rows l d).
  unfold apply_rows at 1. rewrite foldl_app. unfold apply_rows. f_equal.
  destruct (as_prev_row d s s') as (u & Hu & <- & Hp); [rewrite Hq; by apply list_elem_of_singleton|].
  by apply (apply_update F d u s).
Qed.

Lemma apply_full F d u :
  rtr_inv F d -> u ∈ rtr_update d -> has_full u = true ->
  apply_rows ∅ (sorted_full (serial_num u) d) = F (serial_num u).
Proof.
  intros Hi Hu Hf. apply set_eq. intros r. rewrite apply_rows_elem.
  - rewrite <- (inv_full _ _ Hi u Hu Hf). unfold sorted_full. rewrite !list_elem_of_fmap.
    split.
    + intros [(r' & [= ->] & Hr)|[H _]]; [by rewrite sort_by_perm in Hr|set_solver].
    + intros Hr. left. exists r. split; [done|]. by rewrite sort_by_perm.
  - unfold sorted_full. rewrite <- list_fmap_compose. cbn. rewrite list_fmap_id, sort_by_perm.
    apply full_rows_nodup, Hi.
Qed.

Lemma updates_rows_valid l d : tables_ok d -> Forall (fun x => row_valid (snd x)) (updates_rows l d).
Proof.
  intros H. induction l as [|s l IH]; cbn; [constructor|]. apply Forall_app. split; [by apply sorted_inc_valid|done].
Qed.

(** ** Chains of updates *)

Lemma read_as_prev_nil s d :
  q_read_as_prev s d = [] <-> forall u, u ∈ rtr_update d -> prev_serial_num u <> Some s.
Proof.
  unfold q_read_as_prev. split.
  - intros E u Hu Hp. apply fmap_nil_inv in E.
    assert (Hin : u ∈ List.filter (fun u => opt_eqb (prev_serial_num u) s) (rtr_update d))
      by (apply elem_filter; rewrite Hp; cbn; by rewrite Z.eqb_refl).
    rewrite E in Hin. by apply not_elem_of_nil in Hin.
  - intros H. destruct (List.filter _ _) as [|u l] eqn:E; [done|exfalso].
    assert (Hin : u ∈ List.filter (fun u => opt_eqb (prev_serial_num u) s) (rtr_update d))
      by (rewrite E; by left).
    apply elem_filter in Hin as [Hp Hu]. apply (H u Hu). unfold opt_eqb in Hp.
    destruct (prev_serial_num u); [|done]. bprop. by subst.
Qed.

Lemma filter_prev_short p l :
  NoDup (omap prev_serial_num l) ->
  (length (List.filter (fun u => opt_eqb (prev_serial_num u) p) l) <= 1)%nat.
Proof.
  induction l as [|u l IH]; cbn; [lia|]. unfold opt_eqb at 1.
  destruct (prev_serial_num u) as [q|]; [|exact IH]. intros Hn. apply NoDup_cons in Hn as [Hq Hn].
  specialize (IH Hn). destruct (Z.eqb_spec q p) as [->|]; [|done]. cbn.
  destruct (List.filter _ l) as [|v k] eqn:E; [done|exfalso]. apply Hq.
  assert (Hin : v ∈ List.filter (fun u => opt_eqb (prev_serial_num u) p) l) by (rewrite E; by left).
  apply elem_filter in Hin as [Hp Hv]. apply list_elem_of_omap. exists v. split; [done|].
  unfold opt_eqb in Hp. destruct (prev_serial_num v); [|done]. bprop. by subst.
Qed.

(** At most one update follows a serial number. *)
Lemma read_as_prev_cases s d : tables_ok d ->
  q_read_as_prev s d = [] \/
  exists v, v ∈ rtr_update d /\ prev_serial_num v = Some s /\ q_read_as_prev s d = [serial_num v].
Proof.
  intros Hok. pose proof (filter_prev_short s _ (ok_prev _ Hok)) as Hlen.
  destruct (q_read_as_prev s d) as [|s' l] eqn:E; [by left|right].
  assert (l = []) as ->.
  { pose proof (f_equal length E) as El. unfold q_read_as_prev in El. rewrite length_fmap in El.
    cbn in El. destruct l; [done|]. cbn in El. lia. }
  destruct (as_prev_row d s s') as (v & Hv & <- & Hp); [rewrite E; by left|]. by exists v.
Qed.

(** The number of updates that are later than [t]. *)
Definition later (t : Z) (d : db) : nat := length (List.filter (fun u => t <? create_time u) (rtr_update d)).

Lemma later_lt u v d : v ∈ rtr_update d -> create_time u < create_time v ->
  (later (create_time v) d < later (create_time u) d)%nat.
Proof.
  unfold later. generalize (rtr_update d) as l. intros l Hv Hlt. induction l as [|w l IH].
  { by apply not_elem_of_nil in Hv. }
  assert (Hle : (length (List.filter (fun x => (create_time v <? create_time x)%Z) l)
                 <= length (List.filter (fun x => (create_time u <? create_time x)%Z) l))%nat).
  { clear IH Hv. induction l as [|x l IH]; cbn; [done|].
    destruct (Z.ltb_spec (create_time v) (create_time x)), (Z.ltb_spec (create_time u) (create_time x)); cbn; lia. }
  apply elem_of_cons in Hv as [->|Hv]; cbn.
  - rewrite Z.ltb_irrefl, (proj2 (Z.ltb_lt _ _)) by done. cbn. lia.
  - specialize (IH Hv).
    destruct (Z.ltb_spec (create_time v) (create_time w)), (Z.ltb_spec (create_time u) (create_time w)); cbn; lia.
Qed.

(** Following the updates from any row ends, and it ends at the newest one. *)
Lemma chain_from_row F d w : rtr_inv F d -> latest_update (rtr_update d) = Some w ->
  forall n u, (later (create_time u) d < n)%nat -> u ∈ rtr_update d ->
  exists l, chain d (serial_num u) l /\ newest (serial_num u) l = serial_num w.
Proof.
  intros Hi Hw. induction n as [|n IH]; intros u Hn Hu; [lia|].
  destruct (read_as_prev_cases (serial_num u) d (inv_ok _ _ Hi)) as [E|(v & Hv & Hp & E)].
  - exists []. split; [by constructor|]. cbn.
    destruct (inv_succ _ _ Hi u Hu) as [Hl|(v & Hv & Hp)]; [congruence|].
    by destruct (proj1 (read_as_prev_nil _ _) E v Hv).
  - pose proof (inv_time _ _ Hi u v Hu Hv Hp) as Ht. pose proof (later_lt u v d Hv Ht).
    destruct (IH v) as (l & Hch & Hnew); [lia|done|].
    exists (serial_num v :: l). split; [by econstructor|]. by rewrite newest_cons.
Qed.

Lemma chain_known F d w s : rtr_inv F d -> latest_update (rtr_update d) = Some w -> known s d ->
  exists l, chain d s l /\ newest s l = serial_num w.
Proof.
  intros Hi Hw (u & Hu & [<-|Hp]);
    [exact (chain_from_row F d w Hi Hw _ u (Nat.lt_succ_diag_r _) Hu)|].
  destruct (read_as_prev_cases s d (inv_ok _ _ Hi)) as [E|(v & Hv & Hp' & E)].
  { by destruct (proj1 (read_as_prev_nil _ _) E u Hu). }
  destruct (chain_from_row F d w Hi Hw _ v (Nat.lt_succ_diag_r _) Hv) as (l & Hch & Hnew).
  exists (serial_num v :: l). split; [by econstructor|]. by rewrite newest_cons.
Qed.

(** ** Answers on a quiet database *)

(** The PDUs a reset (serial) query for a router sends in all, in batches of
    at most [max_rows]. *)
Definition reset_answer (d : db) (h max_rows : nat) (ps : list PDU) : Prop :=
  exists st fuel,
    db_rtr_reset_query_init true quiet quiet (mkConn d (Some h)) = (mkConn d (Some h), inr (Some st))
    /\ collect (fun st => db_rtr_reset_query_get_next quiet_next st max_rows) fuel st (mkConn d (Some h))
       = (mkConn d (Some h), inr (Some ps)).
Definition serial_answer (d : db) (h max_rows : nat) (s : Z) (ps : list PDU) : Prop :=
  exists st fuel,
    db_rtr_serial_query_init true quiet quiet quiet s (mkConn d (Some h))
      = (mkConn d (Some h), inr (Some st))
    /\ collect (fun st => db_rtr_serial_query_get_next quiet_next st max_rows) fuel st (mkConn d (Some h))
       = (mkConn d (Some h), inr (Some ps)).

Lemma serial_init_current d h u : tables_ok d -> u ∈ rtr_update d ->
  q_read_as_prev (serial_num u) d = [] ->
  db_rtr_serial_query_init true quiet quiet quiet (serial_num u) (mkConn d (Some h))
  = (mkConn d (Some h), inr (Some (set_no_new_data (set_ser_num (serial_num u) fresh_state)))).
Proof.
  intros Hok Hu E. unfold db_rtr_serial_query_init, readSerNumAsPrev, readSerNumAsCurrent. cbn [negb].
  erewrite bind_val by apply sernum_quiet. rewrite E.
  erewrite bind_val by apply sernum_quiet. by rewrite (as_current d _ u).
Qed.

(** A first batch that is the whole answer. *)
Lemma first_batch_done max_rows st c ps st' :
  data_sent st = false ->
  serial_query_pre_query quiet st max_rows [] c = (c, inr (1, st', ps)) ->
  collect (fun st => db_rtr_serial_query_get_next quiet_next st max_rows) 1 st c = (c, inr (Some ps)).
Proof.
  intros Hd E. cbn [collect]. unfold db_rtr_serial_query_get_next. cbn [ne_calloc_ok quiet_next negb ne_session].
  rewrite Hd. cbn [negb]. erewrite bind_val; [|erewrite bind_val by exact E; reflexivity]. done.
Qed.

Lemma pre_query_current d h sid max_rows s : rtr_session d = [sid] -> (2 <= max_rows)%nat ->
  serial_query_pre_query quiet (set_no_new_data (set_ser_num s fresh_state)) max_rows [] (mkConn d (Some h))
  = (mkConn d (Some h), inr (1, set_session sid (set_no_new_data (set_ser_num s fresh_state)),
       [fill_pdu_cache_response zero_pdu sid; fill_pdu_end_of_data zero_pdu sid s])).
Proof.
  intros Hs Hm. unfold serial_query_pre_query. rewrite (proj2 (Nat.ltb_ge _ _) Hm).
  cbn [not_ready bad_ser_num set_no_new_data set_ser_num fresh_state].
  erewrite bind_val by (by apply session_quiet). cbn [no_new_data set_session set_no_new_data].
  erewrite bind_val by (apply push_ok; cbn; lia). erewrite bind_val by (apply push_ok; cbn; lia). done.
Qed.

Lemma pre_query_unknown (empty : bool) max_rows c : (2 <= max_rows)%nat ->
  exists st', serial_query_pre_query quiet
    (if empty then set_not_ready fresh_state else set_bad_ser_num fresh_state) max_rows [] c
  = (c, inr (1, st', [if empty then fill_pdu_error_report zero_pdu ERR_NO_DATA 0 None 0 None
                      else fill_pdu_cache_reset zero_pdu])).
Proof.
  intros Hm. unfold serial_query_pre_query. rewrite (proj2 (Nat.ltb_ge _ _) Hm).
  destruct empty; eexists; cbn [not_ready bad_ser_num set_not_ready set_bad_ser_num fresh_state];
    erewrite bind_val by (apply push_ok; cbn; lia); reflexivity.
Qed.

Lemma serial_init_unknown d h s : ~ known s d ->
  db_rtr_serial_query_init true quiet quiet quiet s (mkConn d (Some h))
  = (mkConn d (Some h), inr (Some (if decide (rtr_update d = []) then set_not_ready fresh_state
                                   else set_bad_ser_num fresh_state))).
Proof.
  intros Hk. unfold db_rtr_serial_query_init, readSerNumAsPrev, readSerNumAsCurrent, hasRowsRtrUpdate. cbn [negb].
  erewrite bind_val by apply sernum_quiet.
  rewrite (proj2 (read_as_prev_nil s d)) by (intros u Hu Hp; apply Hk; exists u; auto).
  erewrite bind_val by apply sernum_quiet.
  assert (q_read_as_current s d = []) as ->.
  { unfold q_read_as_current. destruct (List.filter _ _) as [|u l] eqn:E; [done|exfalso].
    assert (Hin : u ∈ List.filter (fun u => serial_num u =? s) (rtr_update d)) by (rewrite E; by left).
    apply elem_filter in Hin as [Hp Hu]. bprop. apply Hk. exists u. auto. }
  erewrite bind_val; [|erewrite bind_val by apply run_select_quiet; reflexivity].
  by destruct (rtr_update d).
Qed.

(** ** Theorems *)

(** A router that asks for everything. *)
Lemma reset_router F d h sid w max_rows R :
  rtr_inv F d -> rtr_session d = [sid] -> latest_update (rtr_update d) = Some w -> (2 <= max_rows)%nat ->
  exists ps, reset_answer d h max_rows ps
    /\ router_run (mkRouter ∅ R) ps = mkRouter (F (serial_num w)) (serial_num w).
Proof.
  intros Hi Hs Hw Hm. pose proof (inv_latest _ _ Hi w Hw) as Hf. pose proof (latest_in _ _ Hw) as Hin.
  destruct (reset_query_complete d h sid w max_rows (inv_ok _ _ Hi) Hs Hw Hf Hm) as (st & E1 & E2).
  eexists. split; [exists st; eexists; split; [exact E1|exact E2]|].
  rewrite router_response by apply sorted_full_valid, (inv_ok _ _ Hi). cbn [r_set].
  by rewrite (apply_full F d w).
Qed.

(** A router that asks for the changes since a serial number it knows. *)
Lemma serial_router F d h sid w max_rows s :
  rtr_inv F d -> rtr_session d = [sid] -> latest_update (rtr_update d) = Some w -> known s d ->
  (2 <= max_rows)%nat ->
  exists ps, serial_answer d h max_rows s ps
    /\ router_run (mkRouter (F s) s) ps = mkRouter (F (serial_num w)) (serial_num w).
Proof.
  intros Hi Hs Hw Hk Hm. pose proof (inv_ok _ _ Hi) as Hok.
  destruct (chain_known F d w s Hi Hw Hk) as (l & Hch & Hnew).
  destruct l as [|s1 l].
  - inversion Hch as [s0 Hq E0 E1|]; subst. cbn in Hnew. subst s. pose proof (latest_in _ _ Hw) as Hin.
    eexists. split; [eexists _, 1%nat; split; [by apply serial_init_current|]|].
    + eapply first_batch_done; [done|]. by apply pre_query_current.
    + done.
  - destruct (serial_query_complete d h sid s s1 l max_rows Hok Hs Hch Hm) as (st & E1 & E2).
    eexists. split; [exists st; eexists; split; [exact E1|exact E2]|].
    rewrite router_response by (by apply updates_rows_valid). cbn [r_set].
    by rewrite (apply_chain F d s), Hnew.
Qed.

(** ** What a run does not touch *)

Ltac unfold_head m := lazymatch m with ?f _ => unfold_head f | _ => unfold m end.

(** [m] keeps [P], however it ends. *)
Definition keeps {A} (P : db -> Prop) (m : DB A) : Prop :=
  triple (on_db P) m (fun _ => on_db P) (fun _ => on_db P).

Lemma keeps_ret {A} P (a : A) : keeps P (est_ret a).
Proof. by apply triple_ret. Qed.

Lemma keeps_bind {A B} P (m : DB A) (k : A -> DB B) :
  keeps P m -> (forall a, keeps P (k a)) -> keeps P (est_bind k m).
Proof. apply triple_bind. Qed.

Lemma keeps_if {A} P (b : bool) (m1 m2 : DB A) : keeps P m1 -> keeps P m2 -> keeps P (if b then m1 else m2).
Proof. by destruct b. Qed.

Lemma keeps_select {R} P e binds stores (q : db -> list R) : stable P e -> keeps P (run_select e binds stores q).
Proof. intros H. eapply triple_conseq; [by apply (run_select_triple e binds stores q P)|done|by intros ? ? []|done]. Qed.

Lemma keeps_update P e binds stmt :
  stable P e -> (forall d d', P d -> stmt d = Some d' -> P d') -> keeps P (run_update e binds stmt).
Proof.
  intros H1 H2. eapply triple_conseq; [by apply (run_update_triple e binds stmt P P P)|done| |done].
  by intros [] c.
Qed.

(** [d'] has the session, the clock and every recent update of [d]. *)
Definition keeps_recent (conf : config) (d d' : db) : Prop :=
  rtr_session d' = rtr_session d /\ now d' = now d
  /\ forall u, u ∈ rtr_update d -> now d - retention_hours conf * 3600 <= create_time u ->
     exists v, v ∈ rtr_update d' /\ serial_num v = serial_num u /\ create_time v = create_time u.

Section keeping.
Context (conf : config) (rnd : Z) (d0 : db).
Notation P := (keeps_recent conf d0).

Lemma recent_same d d' : P d -> rtr_session d' = rtr_session d -> now d' = now d ->
  rtr_update d' = rtr_update d -> P d'.
Proof. unfold keeps_recent. by intros H -> -> ->. Qed.

Lemma recent_map d f : P d -> (forall u, serial_num (f u) = serial_num u) ->
  (forall u, create_time (f u) = create_time u) -> P (set_update (map f (rtr_update d)) d).
Proof.
  intros (H1 & H2 & H3) Hs Ht. split_and!; [done..|]. intros u Hu Hr.
  destruct (H3 u Hu Hr) as (v & Hv & E1 & E2). exists (f v).
  split; [by apply list_elem_of_fmap_2|]. by rewrite Hs, Ht.
Qed.

Lemma recent_insert_update d d' s p : P d -> s_insert_update s p d = Some d' -> P d'.
Proof.
  intros (H1 & H2 & H3). unfold s_insert_update. destruct (_ || _); [done|]. intros [= <-].
  split_and!; [done..|]. intros u Hu Hr. destruct (H3 u Hu Hr) as (v & Hv & E).
  exists v. split; [cbn; apply elem_of_app; auto|done].
Qed.

Lemma recent_delete_update d s1 s2 d' : P d ->
  s_delete_old_update (retention_hours conf) s1 s2 d = Some d' -> P d'.
Proof.
  intros (H1 & H2 & H3) [= <-]. split_and!; [done..|]. intros u Hu Hr.
  destruct (H3 u Hu Hr) as (v & Hv & E1 & E2). exists v. split; [|done]. cbn. apply elem_filter.
  split; [|done]. rewrite H2, E2, (proj2 (Z.ltb_ge _ _)) by lia. done.
Qed.

Lemma recent_insert_inc d d' s ann t2 t1 : P d -> s_insert_incremental s ann t2 t1 d = Some d' -> P d'.
Proof.
  unfold s_insert_incremental. intros H. destruct (_ && _); [|done]. intros [= <-]. by eapply recent_same.
Qed.

Lemma main_keeps_recent : keeps P (main (quiet_update conf rnd)).
Proof.
  assert (Hq : stable P quiet) by (intros d Hd; exact Hd).
  unfold main, update_serials, update_compute, update_publish, update_cleanup.
  cbn [ue_usage_ok ue_config_ok ue_db_init_ok ue_thread_ok ue_connect_ok negb quiet_update ue_argument ue_session
    ue_latest ue_incomplete1 ue_incomplete2 ue_good ue_full ue_announce ue_withdraw ue_changes ue_publish
    ue_useless ue_ignore_full ue_delete_full ue_delete_update ue_ignore_inc ue_delete_inc ue_conf].
  repeat match goal with
  | |- forall _, _ => intros ?
  | |- keeps _ (est_ret _) => apply keeps_ret
  | |- keeps _ (est_bind _ _) => apply keeps_bind
  | |- keeps _ (if _ then _ else _) => apply keeps_if
  | |- keeps _ (match ?x with _ => _ end) => destruct x
  | |- keeps _ (run_select _ _ _ _) => by apply keeps_select
  | |- keeps _ (run_update _ _ _) => apply keeps_update; [done|]
  | |- keeps _ ?m => unfold_head m
  end.
  all: match goal with
  | E : s_insert_update _ _ _ = _ |- _ => by eapply recent_insert_update
  | E : s_delete_old_update _ _ _ _ = _ |- _ => by eapply recent_delete_update
  | E : s_insert_incremental _ _ _ _ _ = _ |- _ => by eapply recent_insert_inc
  | E : s_ignore_old_full _ _ _ = _ |- _ => injection E as <-; apply recent_map; [done| |]; intros ?; by destruct (_ && _)
  | E : s_ignore_old_incremental _ = _ |- _ => injection E as <-; apply recent_map; [done| |]; intros [? [?|] ? ?]; cbn;
      by try destruct (in_update _ _)
  | E : _ = Some _ |- _ => injection E as <-; by eapply recent_same
  end.
Qed.
End keeping.

(** ** The claims *)

(** C5: whatever happens during a run of [rtr-update] (any call to the
    database fails, the connection is lost before or after any statement ran,
    undefined behaviour is reached, ROAs change meanwhile, any serial number is
    forced), the tables it leaves still have a meaning: every set and every
    list of changes that routers can be served is the right one, and the sets
    of the serial numbers known before the run are what they were. *)
Theorem update_keeps_tables F ue c :
  rtr_inv F (c_db c) -> clock_ok (c_db c) -> roas_ok (c_db c) -> benign_update ue ->
  meaningful F (c_db c) (c_db (fst (main ue c))).
Proof.
  intros Hi Hc Hr Hb. pose proof (main_triple F (c_db c) ue Hb c) as H.
  destruct (main ue c) as [c' [e|a]]; apply H; by split.
Qed.

(** A reset query, end to end. A router that starts from nothing and
    applies the PDUs of the whole answer, whatever the batch size, has exactly
    the newest set and its serial number. *)
Lemma reset_sync F d h sid w max_rows R :
  rtr_inv F d -> rtr_session d = [sid] -> latest_update (rtr_update d) = Some w -> (2 <= max_rows)%nat ->
  exists ps, reset_answer d h max_rows ps
    /\ router_run (mkRouter ∅ R) ps = mkRouter (F (serial_num w)) (serial_num w).
Proof. apply reset_router. Qed.

(** C6: a serial query, end to end. A router that has the set of any serial
    number the tables know and applies the PDUs of the whole answer goes to
    the newest set and its serial number; following the updates always ends. *)
Theorem serial_sync F d h sid w max_rows s :
  rtr_inv F d -> rtr_session d = [sid] -> latest_update (rtr_update d) = Some w -> known s d ->
  (2 <= max_rows)%nat ->
  exists ps, serial_answer d h max_rows s ps
    /\ router_run (mkRouter (F s) s) ps = mkRouter (F (serial_num w)) (serial_num w).
Proof. apply serial_router. Qed.

(** A serial query for a serial number the tables do not know is answered
    with one PDU: No Data Available when there are no updates at all, else
    Cache Reset. *)
Lemma serial_unknown d h max_rows s :
  ~ known s d -> (2 <= max_rows)%nat ->
  serial_answer d h max_rows s
    [if decide (rtr_update d = []) then fill_pdu_error_report zero_pdu ERR_NO_DATA 0 None 0 None
     else fill_pdu_cache_reset zero_pdu].
Proof.
  intros Hk Hm. pose proof (serial_init_unknown d h s Hk) as E.
  eexists _, 1%nat. split; [exact E|]. destruct (decide (rtr_update d = [])).
  - destruct (pre_query_unknown true max_rows (mkConn d (Some h)) Hm) as (st' & E').
    by eapply first_batch_done; [|exact E'].
  - destruct (pre_query_unknown false max_rows (mkConn d (Some h)) Hm) as (st' & E').
    by eapply first_batch_done; [|exact E'].
Qed.

(** C1: the system as a whole. When nothing fails, [rtr-update] ends with
    success; afterwards a router that asks for everything has exactly the ROAs
    that pass the configured tests, and so does every router that had the set
    of a serial number of before and asks for the changes, if the tables still
    know that number; they know at least those of the updates that are within
    the retention time. *)
Theorem update_then_sync F conf rnd d h sid max_rows :
  rtr_inv F d -> clock_ok d -> roas_ok d -> rtr_session d = [sid] ->
  (forall u, latest_update (rtr_update d) = Some u -> ~ known (u32 (serial_num u + 1)) d) ->
  (2 <= max_rows)%nat ->
  exists d' w, main (quiet_update conf rnd) (mkConn d (Some h)) = (mkConn d' (Some h), inr EXIT_SUCCESS)
    /\ latest_update (rtr_update d') = Some w
    /\ (exists ps, reset_answer d' h max_rows ps
         /\ router_run (mkRouter ∅ 0) ps = mkRouter (valid_set conf d) (serial_num w))
    /\ (forall s, known s d -> known s d' -> exists ps, serial_answer d' h max_rows s ps
         /\ router_run (mkRouter (F s) s) ps = mkRouter (valid_set conf d) (serial_num w))
    /\ (forall u, u ∈ rtr_update d -> now d - retention_hours conf * 3600 <= create_time u ->
         known (serial_num u) d').
Proof.
  intros Hi Hc Hr Hs Hk Hm.
  destruct (main_quiet F conf rnd d h Hi Hc Hr sid Hs Hk) as (d' & prev & E & G & s & Hp & Hag & HG).
  destruct Hp as (_ & _ & Hi' & w & Hw & Hws).
  assert (Hkeep : keeps_recent conf d d').
  { assert (H0 : keeps_recent conf d d) by (split_and!; [done..|]; eauto).
    pose proof (main_keeps_recent conf rnd d (mkConn d (Some h)) H0) as H. by rewrite E in H. }
  destruct Hkeep as (Hs' & _ & Hrec). rewrite Hs in Hs'. rewrite <- HG, <- Hws.
  exists d', w. split_and!; [done|done|by eapply reset_router| |].
  - intros s' Hk1 Hk2. rewrite <- (Hag s' Hk1). by eapply serial_router.
  - intros u Hu Ht. destruct (Hrec u Hu Ht) as (v & Hv & Ev & _). exists v. auto.
Qed.

(** ** Witnesses *)

Definition sample_sets (s : Z) : roa_set :=
  if s =? 10 then {[ row_a ]} else if s =? 11 then {[ row_a; row_b ]} else {[ row_b; row_c ]}.

(** The tables of [sample_db], with the ROA of [row_b] no longer valid. *)
Definition sample_new : db :=
  mkDb (rtr_session sample_db) (rtr_update sample_db) (rtr_full sample_db) (rtr_incremental sample_db)
    [mkRoa 1 64497 256; mkRoa 2 64498 260] (rpki_roa_prefix sample_db) (now sample_db).

Definition sample_conf : config := mkConfig false false false false false 24.

Lemma sample_rows_ne : row_a <> row_b /\ row_a <> row_c /\ row_b <> row_c.
Proof. split_and!; intros [=]. Qed.

Lemma sample_inv : rtr_inv sample_sets sample_db.
Proof.
  destruct sample_rows_ne as (Hab & Hac & Hbc).
  assert (Hcases : forall u, u ∈ rtr_update sample_db ->
    u = mkUpd 10 None 100 false \/ u = mkUpd 11 (Some 10) 200 true \/ u = mkUpd 12 (Some 11) 300 true).
  { intros u Hu. repeat (apply elem_of_cons in Hu as [->|Hu]; [auto|]). by apply not_elem_of_nil in Hu. }
  split; [apply sample_db_ok|..].
  - intros u Hu Hf r. destruct (Hcases u Hu) as [->|[->| ->]]; [done|..]; cbn [serial_num].
    + change (full_rows 11 sample_db) with [row_a; row_b]. change (sample_sets 11) with ({[row_a; row_b]} : roa_set). set_solver.
    + change (full_rows 12 sample_db) with [row_c; row_b]. change (sample_sets 12) with ({[row_b; row_c]} : roa_set). set_solver.
  - intros u p Hu Hp ann r. destruct (Hcases u Hu) as [->|[->| ->]]; [done|..]; injection Hp as <-; cbn [serial_num].
    + change (inc_rows 11 sample_db) with [(true, row_b)]. change (sample_sets 11) with ({[row_a; row_b]} : roa_set).
      change (sample_sets 10) with ({[row_a]} : roa_set). destruct ann; set_solver.
    + change (inc_rows 12 sample_db) with [(true, row_c); (false, row_a)].
      change (sample_sets 11) with ({[row_a; row_b]} : roa_set).
      change (sample_sets 12) with ({[row_b; row_c]} : roa_set). destruct ann; set_solver.
  - intros u Hu. by injection Hu as <-.
  - intros u v Hu Hv E. destruct (Hcases u Hu) as [->|[->| ->]], (Hcases v Hv) as [->|[->| ->]]; done.
  - intros u Hu. destruct (Hcases u Hu) as [->|[->| ->]]; [right..|by left];
      [exists (mkUpd 11 (Some 10) 200 true)|exists (mkUpd 12 (Some 11) 300 true)];
      (split; [cbn; rewrite !elem_of_cons; auto|done]).
Qed.

Lemma sample_new_inv : rtr_inv sample_sets sample_new.
Proof. destruct sample_inv as [H ? ? ? ? ?]. split; try done. destruct H. by split. Qed.

Lemma sample_clock : clock_ok sample_new.
Proof. intros u Hu. repeat (apply elem_of_cons in Hu as [->|Hu]; [done|]). by apply not_elem_of_nil in Hu. Qed.

Lemma sample_valid : roas_ok sample_new.
Proof.
  assert (Hv : row_valid row_b /\ row_valid row_c).
  { unfold row_valid, uint_ok, bytes_ok, byte_ok, uint_ok. cbn.
    split_and!; try lia; try (by left); try (by right); repeat constructor; lia. }
  destruct Hv as [Hb Hc]. intros mask result. unfold valid_roas. cbn.
  repeat match goal with |- context [if ?b then _ else _] => destruct b end; cbn; repeat constructor; done.
Qed.

Lemma sample_fresh u :
  latest_update (rtr_update sample_new) = Some u -> ~ known (u32 (serial_num u + 1)) sample_new.
Proof.
  intros [= <-] (v & Hv & Hs). change (u32 _) with 13 in Hs. cbn in Hv.
  repeat (apply elem_of_cons in Hv as [->|Hv]; [by destruct Hs|]). by apply not_elem_of_nil in Hv.
Qed.

(** A run that loses its connection after publishing the new serial number. *)
Definition sample_crash : update_env :=
  let lost := mkEnv id false (ExLost true) true ExOk false false None in
  mkUpdateEnv sample_conf true None true true true true 0 quiet quiet quiet quiet quiet quiet quiet quiet
    quiet lost quiet quiet quiet quiet quiet quiet.

Lemma update_keeps_tables_witness :
  snd (main sample_crash (mkConn sample_new (Some 0%nat))) = inr EXIT_FAILURE
  /\ meaningful sample_sets sample_new (c_db (fst (main sample_crash (mkConn sample_new (Some 0%nat))))).
Proof.
  split; [vm_compute; reflexivity|].
  apply (update_keeps_tables sample_sets sample_crash (mkConn sample_new (Some 0%nat)));
    [apply sample_new_inv|apply sample_clock|apply sample_valid|].
  unfold benign_update. rewrite !Forall_cons. split_and!; try (apply Forall_nil_2);
    intros d; split_and!; (reflexivity || (cbn; lia) || exact (fun H => H)).
Defined.

Lemma reset_sync_witness :
  exists ps, reset_answer sample_db 0 2 ps
    /\ router_run (mkRouter ∅ 0) ps = mkRouter (sample_sets 12) 12.
Proof.
  apply (reset_sync sample_sets sample_db 0 7 (mkUpd 12 (Some 11) 300 true) 2 0);
    [apply sample_inv|reflexivity|reflexivity|lia].
Defined.

Lemma serial_sync_witness :
  exists ps, serial_answer sample_db 0 2 10 ps
    /\ router_run (mkRouter (sample_sets 10) 10) ps = mkRouter (sample_sets 12) 12.
Proof.
  apply (serial_sync sample_sets sample_db 0 7 (mkUpd 12 (Some 11) 300 true) 2 10);
    [apply sample_inv|reflexivity|reflexivity| |lia].
  exists (mkUpd 10 None 100 false). split; [left|left; reflexivity].
Defined.

Lemma serial_unknown_witness :
  serial_answer sample_db 0 2 99 [fill_pdu_cache_reset zero_pdu].
Proof.
  apply (serial_unknown sample_db 0 2 99); [|lia].
  intros (u & Hu & Hs). cbn in Hu.
  repeat (apply elem_of_cons in Hu as [->|Hu]; [by destruct Hs|]). by apply not_elem_of_nil in Hu.
Defined.

Lemma update_then_sync_witness :
  valid_set sample_conf sample_new = {[ row_c ]} /\
  exists d' w, main (quiet_update sample_conf 5) (mkConn sample_new (Some 0%nat))
      = (mkConn d' (Some 0%nat), inr EXIT_SUCCESS)
    /\ latest_update (rtr_update d') = Some w
    /\ (exists ps, reset_answer d' 0 2 ps
         /\ router_run (mkRouter ∅ 0) ps = mkRouter (valid_set sample_conf sample_new) (serial_num w))
    /\ (forall s, known s sample_new -> known s d' -> exists ps, serial_answer d' 0 2 s ps
         /\ router_run (mkRouter (sample_sets s) s) ps
            = mkRouter (valid_set sample_conf sample_new) (serial_num w))
    /\ (forall u, u ∈ rtr_update sample_new ->
         now sample_new - retention_hours sample_conf * 3600 <= create_time u -> known (serial_num u) d').
Proof.
  split; [refine (bool_decide_unpack _ _); vm_compute; exact I|].
  apply (update_then_sync sample_sets sample_conf 5 sample_new 0 7 2);
    [apply sample_new_inv|apply sample_clock|apply sample_valid|reflexivity|apply sample_fresh|lia].
Defined.
