(* ===== verification/CacheState.v ===== *)
(** * The daemon's view of the cache ([src/bin/rpki-rtr/cache_state.c])

    The main thread reads the session and the newest serial number from the
    database into a global structure that the connection threads copy. *)

From S2P Require Import Prelude Pdu Sql SqlFacts RtrQuery RtrQueryFacts.
Local Open Scope est_scope.

(** [struct cache_state]. *)
Record cache_state := mkCache {
  data_available : bool;
  cs_session : Z;
  cs_serial_number : Z }.

(** Fills in [*state], whose contents were [old]; the return value and what
    [*state] holds afterwards. *)
Definition get_cache_state (e_session e_latest : stmt_env) (old : cache_state)
    : DB (bool * cache_state) :=
  let* s := db_rtr_get_session_id e_session in
  match s with
  | None => est_ret (false, old)
  | Some s =>
      let state := mkCache (data_available old) s (cs_serial_number old) in
      let* r := db_rtr_get_latest_sernum e_latest in
      match r with
      | GET_SERNUM_SUCCESS n => est_ret (true, mkCache true (cs_session state) n)
      | GET_SERNUM_NONE => est_ret (true, mkCache false (cs_session state) (cs_serial_number state))
      | GET_SERNUM_ERR => est_ret (false, state)
      end
  end.

(** [None] is a NULL pointer; [lock_ok] is the outcome of the lock's
    initialisation. *)
Definition initialize_global_cache_state (e_session e_latest : stmt_env) (lock_ok : bool)
    (state : option cache_state) : DB (bool * option cache_state) :=
  match state with
  | None => est_ret (false, None)
  | Some old =>
      let* '(ok, new) := get_cache_state e_session e_latest old in
      if negb ok then est_ret (false, Some new)
      else est_ret (lock_ok, Some new)
  end.

(** [tmp] is what [tmp_cache_state] holds before it is filled in. *)
Definition update_global_cache_state (e_session e_latest : stmt_env) (wrlock_ok unlock_ok : bool)
    (tmp : cache_state) (state : option cache_state) : DB (bool * option cache_state) :=
  match state with
  | None => est_ret (false, None)
  | Some cur =>
      if negb wrlock_ok then est_ret (false, Some cur)
      else
        let* '(ret, new) := get_cache_state e_session e_latest tmp in
        let cur := if ret : bool then new else cur in
        if negb unlock_ok then est_ret (false, Some cur)
        else est_ret (ret, Some cur)
  end.

(** ** Facts *)

(** The state the tables call for; the serial number means nothing when there
    is no data. *)
Definition cache_of (d : db) (old : cache_state) (sid : Z) : cache_state :=
  match latest_update (rtr_update d) with
  | Some u => mkCache true sid (serial_num u)
  | None => mkCache false sid (cs_serial_number old)
  end.

Lemma get_cache_quiet d h sid old :
  rtr_session d = [sid] ->
  get_cache_state quiet quiet old (mkConn d (Some h))
  = (mkConn d (Some h), inr (true, cache_of d old sid)).
Proof.
  intros Hs. unfold get_cache_state, db_rtr_get_latest_sernum.
  erewrite bind_val by (by apply session_quiet). cbn beta iota zeta. erewrite bind_val by apply sernum_quiet.
  unfold q_latest_sernum, cache_of. by destruct (latest_update (rtr_update d)).
Qed.

(** Refreshing the cache state. When the database calls succeed, the
    global state becomes the session and the newest serial number of the
    tables; when one of them fails, whichever it is and whatever else happens,
    the call reports failure and leaves the state as it was. *)
Lemma update_cache_state_spec d h sid tmp cur :
  rtr_session d = [sid] ->
  update_global_cache_state quiet quiet true true tmp (Some cur) (mkConn d (Some h))
  = (mkConn d (Some h), inr (true, Some (cache_of d tmp sid)))
  /\ forall es el wr un c c' st,
       update_global_cache_state es el wr un tmp (Some cur) c = (c', inr (false, st)) ->
       un = true -> st = Some cur.
Proof.
  intros Hs. split.
  - unfold update_global_cache_state. cbn [negb]. by erewrite bind_val by (by apply get_cache_quiet).
  - intros es el wr un c c' st E ->. unfold update_global_cache_state in E.
    destruct wr; cbn [negb] in E; [|by injection E as <- <-].
    unfold est_bind in E. destruct (get_cache_state es el tmp c) as [c1 [?|[[] new]]]; [done..|].
    by injection E as <- <-.
Qed.

Lemma update_cache_state_spec_witness :
  update_global_cache_state quiet quiet true true (mkCache false 0 0) (Some (mkCache true 7 11))
    (mkConn sample_db (Some 0%nat))
  = (mkConn sample_db (Some 0%nat), inr (true, Some (mkCache true 7 12)))
  /\ forall es el wr un c c' st,
       update_global_cache_state es el wr un (mkCache false 0 0) (Some (mkCache true 7 11)) c
       = (c', inr (false, st)) ->
       un = true -> st = Some (mkCache true 7 11).
Proof.
  apply (update_cache_state_spec sample_db 0 7 (mkCache false 0 0) (mkCache true 7 11)). reflexivity.
Defined.
