(* ===== verification/Connection.v ===== *)
(** * A connection thread of the daemon ([src/bin/rpki-rtr/connection.c])

    One thread serves one router: it reads queries, hands them to the database
    threads, writes their responses and sends notifications. Every call into
    the system or into an object shared with another thread takes its outcome
    from a list of [answer]s, and what the thread does to the outside is
    recorded as a trace of [event]s. A run on a finite list of answers is a
    finite prefix of the thread's execution: it ends in [OutOfAnswers] when
    the next call has not returned yet. *)

From S2P Require Import Prelude Pdu Sql RtrQuery CacheState.
Local Open Scope est_scope.

(** ** Constants of [config.h] *)

Definition MAX_PDU_SIZE : Z := 1024.
Definition CXN_NOTIFY_INTERVAL : Z := 60.
Definition CXN_CACHE_STATE_INTERVAL : Z := 10.
Definition MAX_QUERY_PDU_LENGTH : Z := PDU_HEADER_LENGTH + sizeof_serial.

(** ** Requests and responses ([src/bin/rpki-rtr/db.h]) *)

Inductive db_query := SERIAL_QUERY (serial : Z) | RESET_QUERY.
Record db_response := mkResponse { resp_PDUs : list PDU; resp_is_done : bool }.

(** ** State *)

Inductive cxn_status := READY | RESPONDING.

(** [struct run_state]. NULL pointers are [None]. [borrowed] is the index of
    the PDU of [response] whose [encapsulatedPDU] points at
    [pdu_request_buffer], if there is one. *)
Record run_state := mkRun {
  local_cache_state : cache_state;
  status : cxn_status;
  to_process_queue : option (list PDU);
  pdu_recv_buffer : list Z;
  pdu_recv_buffer_length : Z;
  pdu_send_buffer : list Z;
  pdu_send_buffer_length : Z;
  recv_pdu : PDU;
  send_pdu_ : PDU;
  pdup_ : option PDU;
  response : option db_response;
  borrowed : option nat;
  request_query : db_query;
  cancel_request : bool;
  pdu_request_buffer : list Z;
  pdu_request_buffer_length : Z;
  next_cache_state_check_time : Z }.

(** What a call returned; each call looks at the part it is about. *)
Record answer := mkAnswer {
  a_ok : bool;                               (* success *)
  a_num : nat;                               (* bytes transferred; a size *)
  a_time : Z;                                (* time(NULL) *)
  a_cache : cache_state;                     (* the global cache state *)
  a_response : option (option db_response) } (* Queue_trypop of the response queue *).

Inductive event :=
| EvSend (p : PDU)                           (* a PDU is about to be written *)
| EvWrite (bs : list Z)                      (* bytes accepted by write() *)
| EvTime (t : Z)                             (* the clock was read *)
| EvRequest (q : db_query)                   (* Queue_push(db_request_queue) *)
| EvPost                                     (* sem_post(db_semaphore) *)
| EvPop (r : option db_response).            (* taken from the response queue *)

(** [sock]: the bytes the router sends from here on, before it closes. *)
Record world := mkWorld {
  rs : run_state;
  sock : list Z;
  answers : list answer;
  trace : list event }.

(** [pthread_exit], undefined behaviour, or a call that has not returned. *)
Inductive cxn_exit := PthreadExit | CxnUndefined | OutOfAnswers.
Definition CX (A : Type) : Type := ESt world cxn_exit A.

Definition set_rs (f : run_state -> run_state) : CX unit :=
  est_modify (fun w => mkWorld (f (rs w)) (sock w) (answers w) (trace w)).
Definition get_rs {A} (f : run_state -> A) : CX A := est_gets (fun w => f (rs w)).
Definition emit (e : event) : CX unit :=
  est_modify (fun w => mkWorld (rs w) (sock w) (answers w) (trace w ++ [e])).
Definition pthread_exit {A} : CX A := est_exit PthreadExit.

(** The outcome of the next call. *)
Definition syscall : CX answer :=
  fun w => match answers w with
           | [] => (w, inl OutOfAnswers)
           | a :: l => (mkWorld (rs w) (sock w) l (trace w), inr a)
           end.

Definition set_local (c : cache_state) (r : run_state) : run_state :=
  mkRun c (status r) (to_process_queue r) (pdu_recv_buffer r) (pdu_recv_buffer_length r)
    (pdu_send_buffer r) (pdu_send_buffer_length r) (recv_pdu r) (send_pdu_ r) (pdup_ r) (response r)
    (borrowed r) (request_query r) (cancel_request r) (pdu_request_buffer r)
    (pdu_request_buffer_length r) (next_cache_state_check_time r).
Definition set_status (s : cxn_status) (r : run_state) : run_state :=
  mkRun (local_cache_state r) s (to_process_queue r) (pdu_recv_buffer r) (pdu_recv_buffer_length r)
    (pdu_send_buffer r) (pdu_send_buffer_length r) (recv_pdu r) (send_pdu_ r) (pdup_ r) (response r)
    (borrowed r) (request_query r) (cancel_request r) (pdu_request_buffer r)
    (pdu_request_buffer_length r) (next_cache_state_check_time r).
Definition set_to_process (q : option (list PDU)) (r : run_state) : run_state :=
  mkRun (local_cache_state r) (status r) q (pdu_recv_buffer r) (pdu_recv_buffer_length r)
    (pdu_send_buffer r) (pdu_send_buffer_length r) (recv_pdu r) (send_pdu_ r) (pdup_ r) (response r)
    (borrowed r) (request_query r) (cancel_request r) (pdu_request_buffer r)
    (pdu_request_buffer_length r) (next_cache_state_check_time r).
Definition set_recv (buf : list Z) (n : Z) (r : run_state) : run_state :=
  mkRun (local_cache_state r) (status r) (to_process_queue r) buf n
    (pdu_send_buffer r) (pdu_send_buffer_length r) (recv_pdu r) (send_pdu_ r) (pdup_ r) (response r)
    (borrowed r) (request_query r) (cancel_request r) (pdu_request_buffer r)
    (pdu_request_buffer_length r) (next_cache_state_check_time r).
Definition set_recv_length (n : Z) (r : run_state) : run_state := set_recv (pdu_recv_buffer r) n r.
Definition set_send (buf : list Z) (n : Z) (r : run_state) : run_state :=
  mkRun (local_cache_state r) (status r) (to_process_queue r) (pdu_recv_buffer r)
    (pdu_recv_buffer_length r) buf n (recv_pdu r) (send_pdu_ r) (pdup_ r) (response r)
    (borrowed r) (request_query r) (cancel_request r) (pdu_request_buffer r)
    (pdu_request_buffer_length r) (next_cache_state_check_time r).
Definition set_recv_pdu (p : PDU) (r : run_state) : run_state :=
  mkRun (local_cache_state r) (status r) (to_process_queue r) (pdu_recv_buffer r)
    (pdu_recv_buffer_length r) (pdu_send_buffer r) (pdu_send_buffer_length r) p (send_pdu_ r)
    (pdup_ r) (response r) (borrowed r) (request_query r) (cancel_request r) (pdu_request_buffer r)
    (pdu_request_buffer_length r) (next_cache_state_check_time r).
Definition set_send_pdu (f : PDU -> PDU) (r : run_state) : run_state :=
  mkRun (local_cache_state r) (status r) (to_process_queue r) (pdu_recv_buffer r)
    (pdu_recv_buffer_length r) (pdu_send_buffer r) (pdu_send_buffer_length r) (recv_pdu r)
    (f (send_pdu_ r)) (pdup_ r) (response r) (borrowed r) (request_query r) (cancel_request r)
    (pdu_request_buffer r) (pdu_request_buffer_length r) (next_cache_state_check_time r).
Definition set_pdup (p : option PDU) (r : run_state) : run_state :=
  mkRun (local_cache_state r) (status r) (to_process_queue r) (pdu_recv_buffer r)
    (pdu_recv_buffer_length r) (pdu_send_buffer r) (pdu_send_buffer_length r) (recv_pdu r)
    (send_pdu_ r) p (response r) (borrowed r) (request_query r) (cancel_request r)
    (pdu_request_buffer r) (pdu_request_buffer_length r) (next_cache_state_check_time r).
(** A response that a database thread made borrows nothing. *)
Definition set_response (x : option db_response) (r : run_state) : run_state :=
  mkRun (local_cache_state r) (status r) (to_process_queue r) (pdu_recv_buffer r)
    (pdu_recv_buffer_length r) (pdu_send_buffer r) (pdu_send_buffer_length r) (recv_pdu r)
    (send_pdu_ r) (pdup_ r) x None (request_query r) (cancel_request r)
    (pdu_request_buffer r) (pdu_request_buffer_length r) (next_cache_state_check_time r).
Definition set_borrowed (x : option nat) (r : run_state) : run_state :=
  mkRun (local_cache_state r) (status r) (to_process_queue r) (pdu_recv_buffer r)
    (pdu_recv_buffer_length r) (pdu_send_buffer r) (pdu_send_buffer_length r) (recv_pdu r)
    (send_pdu_ r) (pdup_ r) (response r) x (request_query r) (cancel_request r)
    (pdu_request_buffer r) (pdu_request_buffer_length r) (next_cache_state_check_time r).
Definition set_request (q : db_query) (c : bool) (r : run_state) : run_state :=
  mkRun (local_cache_state r) (status r) (to_process_queue r) (pdu_recv_buffer r)
    (pdu_recv_buffer_length r) (pdu_send_buffer r) (pdu_send_buffer_length r) (recv_pdu r)
    (send_pdu_ r) (pdup_ r) (response r) (borrowed r) q c
    (pdu_request_buffer r) (pdu_request_buffer_length r) (next_cache_state_check_time r).
Definition set_request_buffer (buf : list Z) (n : Z) (r : run_state) : run_state :=
  mkRun (local_cache_state r) (status r) (to_process_queue r) (pdu_recv_buffer r)
    (pdu_recv_buffer_length r) (pdu_send_buffer r) (pdu_send_buffer_length r) (recv_pdu r)
    (send_pdu_ r) (pdup_ r) (response r) (borrowed r) (request_query r) (cancel_request r)
    buf n (next_cache_state_check_time r).
Definition set_check_time (t : Z) (r : run_state) : run_state :=
  mkRun (local_cache_state r) (status r) (to_process_queue r) (pdu_recv_buffer r)
    (pdu_recv_buffer_length r) (pdu_send_buffer r) (pdu_send_buffer_length r) (recv_pdu r)
    (send_pdu_ r) (pdup_ r) (response r) (borrowed r) (request_query r) (cancel_request r)
    (pdu_request_buffer r) (pdu_request_buffer_length r) t.

(** [time(NULL)]. *)
Definition time_call : CX Z :=
  let* a := syscall in emit (EvTime (a_time a)) ;;; est_ret (a_time a).

(** ** Set-up *)

Definition copy_cache_state : CX cache_state :=
  let* lock := syscall in
  if negb (a_ok lock) then pthread_exit
  else
    let* unlock := syscall in
    if negb (a_ok unlock) then pthread_exit
    else
      let* t := time_call in
      set_rs (set_check_time (t + CXN_CACHE_STATE_INTERVAL)) ;;;
      est_ret (a_cache lock).

(** [args_ok]: none of the arguments is NULL. *)
Definition initialize_run_state (args_ok : bool) : CX unit :=
  if negb args_ok then pthread_exit
  else
    let* c := copy_cache_state in
    set_rs (set_local c) ;;;
    set_rs (set_status READY) ;;;
    set_rs (set_to_process None) ;;;
    set_rs (set_recv_length 0) ;;;
    set_rs (fun r => set_send (pdu_send_buffer r) 0 r) ;;;
    set_rs (set_pdup None) ;;;
    set_rs (set_response None) ;;;
    let* t := time_call in
    set_rs (set_check_time (t + CXN_NOTIFY_INTERVAL)).

Definition initialize_data_structures_in_run_state : CX unit :=
  let* a := syscall in
  if negb (a_ok a) then pthread_exit
  else
    let* b := syscall in
    if negb (a_ok b) then pthread_exit else set_rs (set_to_process (Some [])).

(** ** Sending *)

Section thread.
(** The byte order of the host. *)
Context (e : endian).

(** The loop around [write]: [count] bytes to go. *)
Fixpoint write_loop (fuel : nat) (count : Z) : CX unit :=
  if count <=? 0 then est_ret tt
  else match fuel with
  | O => est_exit OutOfAnswers
  | S fuel' =>
      let* a := syscall in
      if negb (a_ok a) then pthread_exit
      else
        let n := Z.min (Z.of_nat (a_num a)) count in
        let* bs := get_rs (fun r =>
          slice (Z.to_nat (pdu_send_buffer_length r - count)) (Z.to_nat n) (pdu_send_buffer r)) in
        emit (EvWrite bs) ;;;
        write_loop fuel' (count - n)
  end.

(** Enough for every answer that is left. *)
Definition call_fuel : CX nat := est_gets (fun w => S (length (answers w))).

Definition send_pdu (pdu : option PDU) : CX unit :=
  match pdu with
  | None => pthread_exit
  | Some p =>
      let* buf := get_rs pdu_send_buffer in
      match dump_pdu e (Some buf) MAX_PDU_SIZE (Some p) with
      | DumpUndefined | DumpRet _ None => est_exit CxnUndefined
      | DumpRet count (Some buf') =>
          set_rs (fun r => set_send buf' (pdu_send_buffer_length r) r) ;;;
          if count <? 0 then pthread_exit
          else
            set_rs (fun r => set_send (pdu_send_buffer r) count r) ;;;
            emit (EvSend p) ;;;
            let* fuel := call_fuel in
            write_loop fuel count
      end
  end.

Definition send_cache_reset : CX unit :=
  set_rs (set_send_pdu (fun p =>
    set_length PDU_HEADER_LENGTH (set_sessionId 0 (set_pduType PDU_CACHE_RESET
      (set_protocolVersion RTR_PROTOCOL_VERSION p))))) ;;;
  let* p := get_rs send_pdu_ in
  send_pdu (Some p).

(** A pointer and a length are stored as the bytes they cover. *)
Definition cover (p : data_ptr) (n : Z) : data_ptr := take (Z.to_nat n) <$> p.

Definition send_error (code : Z) (embedded_pdu : data_ptr) (embedded_pdu_length : Z)
    (error_text : data_ptr) (error_text_length : Z) : CX unit :=
  let headers := PDU_HEADER_LENGTH + PDU_ERROR_HEADERS_LENGTH in
  if MAX_PDU_SIZE <? headers + error_text_length then pthread_exit
  else
    let elen := if MAX_PDU_SIZE <? headers + embedded_pdu_length + error_text_length
                then MAX_PDU_SIZE - (headers + error_text_length) else embedded_pdu_length in
    set_rs (set_send_pdu (fun p =>
      set_body (BError (mkErr elen (cover embedded_pdu elen) error_text_length error_text))
        (set_length (headers + elen + error_text_length) (set_sessionId code
          (set_pduType PDU_ERROR_REPORT (set_protocolVersion RTR_PROTOCOL_VERSION p)))))) ;;;
    let* p := get_rs send_pdu_ in
    send_pdu (Some p).

Definition send_error_from_recv (code : Z) (error_text : data_ptr) (error_text_length : Z)
    : CX unit :=
  let* buf := get_rs pdu_recv_buffer in
  let* n := get_rs pdu_recv_buffer_length in
  send_error code (Some buf) n error_text error_text_length.

Definition send_error_from_parsed_pdu (code : Z) (embedded_pdu : PDU) (embed_from_recv_buffer : bool)
    (error_text : data_ptr) (error_text_length : Z) : CX unit :=
  if embed_from_recv_buffer then send_error_from_recv code error_text error_text_length
  else
    let headers := PDU_HEADER_LENGTH + PDU_ERROR_HEADERS_LENGTH in
    if MAX_PDU_SIZE <? headers + error_text_length then pthread_exit
    else
      let* buf := get_rs pdu_recv_buffer in
      match dump_pdu e (Some buf) (MAX_PDU_SIZE - (headers + error_text_length)) (Some embedded_pdu) with
      | DumpUndefined | DumpRet _ None => est_exit CxnUndefined
      | DumpRet retval (Some buf') =>
          set_rs (set_recv buf' 0) ;;;
          if retval <=? 0 then send_error code None 0 error_text error_text_length
          else send_error code (Some buf') retval error_text error_text_length
      end.

Definition parse_error_code (parse_pdu_retval : Z) : Z :=
  if parse_pdu_retval =? PDU_CORRUPT_DATA then ERR_CORRUPT_DATA
  else if parse_pdu_retval =? PDU_INTERNAL_ERROR then ERR_INTERNAL_ERROR
  else if parse_pdu_retval =? PDU_UNSUPPORTED_PROTOCOL_VERSION then ERR_UNSUPPORTED_VERSION
  else if parse_pdu_retval =? PDU_UNSUPPORTED_PDU_TYPE then ERR_UNSUPPORTED_TYPE
  else if parse_pdu_retval =? PDU_INVALID_VALUE then ERR_INVALID_REQUEST
  else ERR_INTERNAL_ERROR.

Definition log_and_send_parse_error (parse_pdu_retval : Z) : CX unit :=
  send_error_from_recv (parse_error_code parse_pdu_retval) None 0.

Definition send_notify : CX unit :=
  let* c := get_rs local_cache_state in
  if negb (data_available c) then pthread_exit
  else
    set_rs (set_send_pdu (fun p =>
      set_body (BSerial (cs_serial_number c)) (set_length (PDU_HEADER_LENGTH + sizeof_serial)
        (set_sessionId (cs_session c) (set_pduType PDU_SERIAL_NOTIFY
          (set_protocolVersion RTR_PROTOCOL_VERSION p)))))) ;;;
    let* p := get_rs send_pdu_ in
    send_pdu (Some p) ;;;
    let* t := time_call in
    set_rs (set_check_time (t + CXN_NOTIFY_INTERVAL)).

(** ** Receiving *)

(** [parse_pdu] on the receive buffer. *)
Definition parse_recv : CX Z :=
  let* r := get_rs id in
  match parse_pdu (Some (take (Z.to_nat (pdu_recv_buffer_length r)) (pdu_recv_buffer r)))
          (Some (recv_pdu r)) with
  | (c, Some q) => set_rs (set_recv_pdu q) ;;; est_ret c
  | (c, None) => est_ret c
  end.

(** [read] or [recv] of up to [count] bytes at the end of the receive buffer:
    an error ([None]), or the number of bytes read. *)
Definition read_call (count : Z) : CX (option Z) :=
  let* a := syscall in
  let* r := get_rs id in
  let* s := est_gets sock in
  if MAX_PDU_SIZE <? pdu_recv_buffer_length r + count then est_exit CxnUndefined
  else if negb (a_ok a) then est_ret None
  else
    let bs := take (Nat.min (a_num a) (Z.to_nat count)) s in
    est_modify (fun w => mkWorld
      (set_recv (blit (Z.to_nat (pdu_recv_buffer_length r)) bs (pdu_recv_buffer r))
        (pdu_recv_buffer_length r + Z.of_nat (length bs)) (rs w))
      (drop (length bs) (sock w)) (answers w) (trace w)) ;;;
    est_ret (Some (Z.of_nat (length bs))).

Fixpoint read_block (fuel : nat) (count : Z) : CX unit :=
  if count <=? 0 then est_ret tt
  else match fuel with
  | O => est_exit OutOfAnswers
  | S fuel' =>
      let* c := parse_recv in
      if zin c [PDU_GOOD; PDU_WARNING] then
        send_error ERR_INTERNAL_ERROR None 0 None 0 ;;; pthread_exit
      else if negb (c =? PDU_TRUNCATED) then
        log_and_send_parse_error c ;;; pthread_exit
      else
        let* n := read_call count in
        match n with
        | None => read_block fuel' count
        | Some n => if n =? 0 then pthread_exit else read_block fuel' (count - n)
        end
  end.

Definition read_nonblock (count : Z) : CX bool :=
  if count <=? 0 then est_ret true
  else
    let* n := read_call count in
    match n with
    | None => est_ret false
    | Some n => if n =? 0 then pthread_exit else est_ret true
    end.

(** "PDU too large" and "unexpected PDU type". *)
Definition text_too_large : list Z := [80; 68; 85; 32; 116; 111; 111; 32; 108; 97; 114; 103; 101].
Definition text_unexpected : list Z :=
  [117; 110; 101; 120; 112; 101; 99; 116; 101; 100; 32; 80; 68; 85; 32; 116; 121; 112; 101].
Definition send_text (f : data_ptr -> Z -> CX unit) (t : list Z) : CX unit :=
  f (Some t) (Z.of_nat (length t)).

Definition read_and_parse_pdu : CX Z :=
  let* c := parse_recv in
  if PDU_IS_ERROR c then est_ret c
  else
    let* n := get_rs pdu_recv_buffer_length in
    let* fuel := call_fuel in
    read_block fuel (PDU_HEADER_LENGTH - n) ;;;
    let* c := parse_recv in
    if c =? PDU_TRUNCATED then
      let* len := get_rs (fun r => length_ (recv_pdu r)) in
      if MAX_PDU_SIZE <? len then
        send_text (send_error_from_recv ERR_CORRUPT_DATA) text_too_large ;;; pthread_exit
      else
        let* n := get_rs pdu_recv_buffer_length in
        let* fuel := call_fuel in
        read_block fuel (len - n) ;;;
        parse_recv
    else est_ret c.

(** ** Queries *)

Definition increment_db_semaphore : CX unit :=
  let* a := syscall in
  if a_ok a then emit EvPost else est_ret tt.

Definition add_db_request (pdu : PDU) (pdu_from_recv_buffer : bool) : CX unit :=
  let fail := send_error_from_parsed_pdu ERR_INTERNAL_ERROR pdu pdu_from_recv_buffer None 0 ;;;
              pthread_exit in
  let* size := syscall in
  if negb (Nat.eqb (a_num size) 0) then fail
  else
    let query := if pduType pdu =? PDU_SERIAL_QUERY then Some (SERIAL_QUERY (serialNumber pdu))
                 else if pduType pdu =? PDU_RESET_QUERY then Some RESET_QUERY
                 else None in
    match query with
    | None => fail
    | Some q =>
        set_rs (set_request q false) ;;;
        let* buf := get_rs pdu_request_buffer in
        match dump_pdu e (Some buf) MAX_QUERY_PDU_LENGTH (Some pdu) with
        | DumpUndefined | DumpRet _ None => est_exit CxnUndefined
        | DumpRet ret (Some buf') =>
            set_rs (set_request_buffer buf'
              (if ret <? 0 then 0 else if MAX_QUERY_PDU_LENGTH <? ret then MAX_QUERY_PDU_LENGTH
               else ret)) ;;;
            let* push := syscall in
            if negb (a_ok push) then fail
            else
              emit (EvRequest q) ;;;
              set_rs (set_status RESPONDING) ;;;
              increment_db_semaphore
        end
    end.

Definition push_to_process_queue (pdu : PDU) (pdu_from_recv_buffer : bool) : CX unit :=
  let fail := send_error_from_parsed_pdu ERR_INTERNAL_ERROR pdu pdu_from_recv_buffer None 0 ;;;
              pthread_exit in
  let* m1 := syscall in
  let* m2 := syscall in
  let* m3 := syscall in
  match pdu_deepcopy (a_ok m1) (a_ok m2) (a_ok m3) pdu with
  | CopyUndef => est_exit CxnUndefined
  | NoMemory => fail
  | Copied p =>
      let* push := syscall in
      if negb (a_ok push) then fail
      else
        let* q := get_rs to_process_queue in
        match q with
        | None => est_exit CxnUndefined
        | Some l => set_rs (set_to_process (Some (l ++ [p])))
        end
  end.

(** [case PDU_SERIAL_QUERY] falls through to [case PDU_RESET_QUERY]. *)
Definition handle_query (pdu : PDU) (pdu_from_recv_buffer : bool) : CX unit :=
  let* st := get_rs status in
  match st with
  | RESPONDING => push_to_process_queue pdu pdu_from_recv_buffer
  | READY => add_db_request pdu pdu_from_recv_buffer
  end.

Definition handle_pdu (pdu : PDU) (pdu_from_recv_buffer : bool) : CX unit :=
  if pduType pdu =? PDU_SERIAL_QUERY then
    let* c := get_rs local_cache_state in
    if negb (sessionId pdu =? cs_session c) then send_cache_reset
    else handle_query pdu pdu_from_recv_buffer
  else if pduType pdu =? PDU_RESET_QUERY then handle_query pdu pdu_from_recv_buffer
  else if pduType pdu =? PDU_ERROR_REPORT then pthread_exit
  else
    send_text (send_error_from_parsed_pdu ERR_INVALID_REQUEST pdu pdu_from_recv_buffer)
      text_unexpected ;;;
    pthread_exit.

Definition read_and_handle_pdu : CX unit :=
  let* c := read_and_parse_pdu in
  if zin c [PDU_WARNING; PDU_GOOD] then
    let* p := get_rs recv_pdu in handle_pdu p true
  else log_and_send_parse_error c ;;; pthread_exit.

(** ** Responses *)

Definition update_local_cache_state (new : cache_state) (do_notify : bool) : CX unit :=
  let* c := get_rs local_cache_state in
  if negb (cs_session c =? cs_session new) then pthread_exit
  else if negb (data_available new) then est_ret tt
  else if negb (data_available c)
          || serial_number_greater (cs_serial_number new) (cs_serial_number c) then
    set_rs (set_local (mkCache true (cs_session c) (cs_serial_number new))) ;;;
    if do_notify then send_notify else est_ret tt
  else est_ret tt.

(** The error report [p] with the request that caused it, when it has no
    encapsulated PDU and there is one. *)
Definition with_request (r : run_state) (p : PDU) : option PDU :=
  let d := errorData p in
  if (pduType p =? PDU_ERROR_REPORT) && (encapsulatedPDULength d =? 0)
     && bool_decide (encapsulatedPDU d = None) && (0 <? pdu_request_buffer_length r)
  then Some (set_length (u32 (length_ p + pdu_request_buffer_length r))
         (set_body (BError (mkErr (pdu_request_buffer_length r)
                             (cover (Some (pdu_request_buffer r)) (pdu_request_buffer_length r))
                             (errorTextLength d) (errorText d))) p))
  else None.

(** The loop over the PDUs of the response, from number [i] on; the result is
    [stop_after_responding]. *)
Fixpoint send_pdus (l : list PDU) (i : nat) (stop : bool) : CX bool :=
  match l with
  | [] => est_ret stop
  | p :: l' =>
      let stop := stop || ((pduType p =? PDU_ERROR_REPORT) && ERR_IS_FATAL (sessionId p)) in
      (if pduType p =? PDU_END_OF_DATA
       then update_local_cache_state (mkCache true (sessionId p) (serialNumber p)) false
       else est_ret tt) ;;;
      let* r := get_rs id in
      match with_request r p with
      | Some p' =>
          set_rs (set_borrowed (Some i)) ;;;
          send_pdu (Some p') ;;;
          set_rs (set_borrowed None)
      | None => send_pdu (Some p)
      end ;;;
      send_pdus l' (S i) stop
  end.

(** The loop that takes queries that came in meanwhile off the queue. *)
Fixpoint process_queue (fuel : nat) (stop : bool) : CX unit :=
  match fuel with
  | O => est_exit CxnUndefined
  | S fuel' =>
      let* r := get_rs id in
      match status r, stop, to_process_queue r with
      | READY, false, None => est_exit CxnUndefined
      | READY, false, Some (p :: l) =>
          set_rs (set_to_process (Some l)) ;;;
          set_rs (set_pdup (Some p)) ;;;
          handle_pdu p false ;;;
          set_rs (set_pdup None) ;;;
          process_queue fuel' stop
      | _, _, _ => est_ret tt
      end
  end.

Definition handle_response : CX unit :=
  let* r := get_rs response in
  match r with
  | None => est_ret tt
  | Some resp =>
      (if negb (resp_is_done resp) then increment_db_semaphore else est_ret tt) ;;;
      let* stop := send_pdus (resp_PDUs resp) 0 false in
      set_rs (set_response None) ;;;
      (if resp_is_done resp then
         set_rs (set_status READY) ;;;
         let* n := get_rs (fun r => S (length (default [] (to_process_queue r)))) in
         process_queue n stop
       else est_ret tt) ;;;
      if stop : bool then pthread_exit else est_ret tt
  end.

(** ** Main loop *)

Definition check_global_cache_state : CX unit :=
  let* st := get_rs status in
  match st with
  | RESPONDING => pthread_exit
  | READY => let* c := copy_cache_state in update_local_cache_state c true
  end.

(** True after a post and after a time-out. *)
Definition wait_on_semaphore : CX bool :=
  let* a := syscall in est_ret (a_ok a).

Definition try_response : CX unit :=
  let* st := get_rs status in
  match st with
  | READY => est_ret tt
  | RESPONDING =>
      let* a := syscall in
      match a_response a with
      | None => est_ret tt
      | Some r => emit (EvPop r) ;;; set_rs (set_response r) ;;; handle_response
      end
  end.

Definition connection_main_loop : CX unit :=
  let* ok := wait_on_semaphore in
  if negb ok then pthread_exit
  else
    set_rs (set_recv_length 0) ;;;
    let* got := read_nonblock PDU_HEADER_LENGTH in
    (if got : bool then read_and_handle_pdu else try_response) ;;;
    let* st := get_rs status in
    match st with
    | RESPONDING => est_ret tt
    | READY =>
        let* t := time_call in
        let* next := get_rs next_cache_state_check_time in
        if next <=? t then check_global_cache_state else est_ret tt
    end.

Fixpoint main_loops (n : nat) : CX unit :=
  match n with O => est_ret tt | S n' => connection_main_loop ;;; main_loops n' end.

(** ** Clean-up *)

(** Wait for the last response to the cancelled request. *)
Fixpoint drain (fuel : nat) : CX unit :=
  match fuel with
  | O => est_exit OutOfAnswers
  | S fuel' =>
      let* ok := wait_on_semaphore in
      if negb ok then est_ret tt
      else
        let* a := syscall in
        match a_response a with
        | None => drain fuel'
        | Some r =>
            emit (EvPop r) ;;;
            match r with
            | None => drain fuel'
            | Some resp => if resp_is_done resp then est_ret tt else drain fuel'
            end
        end
  end.

(** [pdu_free_array] frees [encapsulatedPDU] of every error report. *)
Definition free_response : CX unit :=
  let* b := get_rs borrowed in
  match b with
  | Some _ => est_exit CxnUndefined
  | None => set_rs (set_response None)
  end.

Definition cleanup : CX unit :=
  let* r := get_rs response in
  match r with
  | None => est_ret tt
  | Some resp =>
      (if resp_is_done resp then set_rs (set_status READY) else est_ret tt) ;;; free_response
  end ;;;
  let* st := get_rs status in
  match st with
  | READY => est_ret tt
  | RESPONDING =>
      set_rs (fun r => set_request (request_query r) true r) ;;;
      increment_db_semaphore ;;;
      let* fuel := call_fuel in
      drain fuel ;;;
      set_rs (set_response None)
  end ;;;
  set_rs (set_pdup None) ;;;
  let* q := get_rs to_process_queue in
  match q with
  | None => est_exit CxnUndefined
  | Some _ => set_rs (set_to_process None)
  end.

(** [connection_main], up to [n] turns of its loop; [cleanup] runs when the
    thread exits after set-up has begun. *)
Definition connection_main (args_ok : bool) (n : nat) : CX unit :=
  initialize_run_state args_ok ;;;
  fun w =>
    match (initialize_data_structures_in_run_state ;;; main_loops n) w with
    | (w', inl PthreadExit) => cleanup w'
    | res => res
    end.
End thread.
