(* ===== verification/ConnectionFacts.v ===== *)
(** * What a connection thread does, whatever happens around it

    An abstract machine, the monitor, says which traces of events a connection
    may produce; the thread's code refines it for every byte the router sends,
    every response of the database threads and every outcome of every call. *)

From S2P Require Import Prelude Pdu PduParse PduDump Sql RtrQuery CacheState Connection.
Local Open Scope est_scope.

(** ** Specification *)

(** Whether a request is outstanding; the bytes of the current PDU that are
    still to be written; the earliest time of the next notification, whether
    the clock has shown it, and whether the clock is to be read after one. *)
Record mon := mkMon {
  m_status : cxn_status;
  m_pending : list Z;
  m_deadline : Z;
  m_passed : bool;
  m_awaiting : bool }.

Definition mon_start : mon := mkMon READY [] 0 true false.

Definition is_notify (p : PDU) : bool := pduType p =? PDU_SERIAL_NOTIFY.
Definition is_last (r : option db_response) : bool :=
  match r with Some resp => resp_is_done resp | None => false end.

Inductive mstep : mon -> event -> mon -> Prop :=
| M_send m p : m_pending m = [] -> wf_pdu p -> length_ p <= MAX_PDU_SIZE ->
    (is_notify p = true -> m_passed m = true /\ m_awaiting m = false) ->
    mstep m (EvSend p)
      (mkMon (m_status m) (pdu_bytes p) (m_deadline m) (m_passed m) (m_awaiting m || is_notify p))
| M_write m bs rest : m_pending m = bs ++ rest ->
    mstep m (EvWrite bs) (mkMon (m_status m) rest (m_deadline m) (m_passed m) (m_awaiting m))
| M_time m t :
    mstep m (EvTime t)
      (if m_awaiting m then mkMon (m_status m) (m_pending m) (t + CXN_NOTIFY_INTERVAL) false false
       else mkMon (m_status m) (m_pending m) (m_deadline m) (m_passed m || (m_deadline m <=? t)) false)
| M_request m q : m_status m = READY ->
    mstep m (EvRequest q) (mkMon RESPONDING (m_pending m) (m_deadline m) (m_passed m) (m_awaiting m))
| M_post m : mstep m EvPost m
| M_pop m r : m_status m = RESPONDING ->
    mstep m (EvPop r) (mkMon (if is_last r then READY else RESPONDING) (m_pending m) (m_deadline m)
                         (m_passed m) (m_awaiting m)).

Inductive mrun (m0 : mon) : list event -> mon -> Prop :=
| mrun_nil : mrun m0 [] m0
| mrun_snoc l m ev m' : mrun m0 l m -> mstep m ev m' -> mrun m0 (l ++ [ev]) m'.

(** Newer data of the same session. *)
Definition cache_step (c c' : cache_state) : Prop :=
  cs_session c' = cs_session c /\ data_available c' = true
  /\ (data_available c = false \/ serial_number_greater (cs_serial_number c') (cs_serial_number c) = true).

(** ** Invariant *)

Definition cache_ok (c : cache_state) : Prop :=
  uint_ok 16 (cs_session c) /\ uint_ok 32 (cs_serial_number c).
Definition resp_ok (r : db_response) : Prop :=
  Forall (fun p => wf_pdu p /\ length_ p <= MAX_PDU_SIZE /\ is_notify p = false) (resp_PDUs r).
Definition answer_ok (a : answer) : Prop :=
  cache_ok (a_cache a) /\ forall r, a_response a = Some (Some r) -> resp_ok r.

(** The buffers have their sizes, the queues hold well-formed PDUs. *)
Record rs_ok (r : run_state) : Prop := {
  ok_cache : cache_ok (local_cache_state r);
  ok_recv : length (pdu_recv_buffer r) = 1024%nat;
  ok_recv_bytes : bytes_ok (take (Z.to_nat (pdu_recv_buffer_length r)) (pdu_recv_buffer r));
  ok_recv_len : 0 <= pdu_recv_buffer_length r <= MAX_PDU_SIZE;
  ok_send : length (pdu_send_buffer r) = 1024%nat;
  ok_queue : exists l, to_process_queue r = Some l /\ Forall wf_pdu l;
  ok_request : length (pdu_request_buffer r) = 12%nat;
  ok_request_len : status r = RESPONDING -> 0 <= pdu_request_buffer_length r <= MAX_QUERY_PDU_LENGTH
    /\ bytes_ok (take (Z.to_nat (pdu_request_buffer_length r)) (pdu_request_buffer r)) }.

Definition world_ok (w : world) : Prop :=
  rs_ok (rs w) /\ bytes_ok (sock w) /\ Forall answer_ok (answers w).

(** The status the monitor has while a response is being handled. *)
Definition tracked (r : run_state) : cxn_status :=
  if is_last (response r) then READY else status r.

(** ** Code that leaves the queue of waiting queries alone *)

Definition same_queue {A} (m : CX A) : Prop := forall w,
  match m w with (w', inr _) => to_process_queue (rs w') = to_process_queue (rs w) | _ => True end.

Lemma sq_bind {A B} (m : CX A) (k : A -> CX B) :
  same_queue m -> (forall a, same_queue (k a)) -> same_queue (est_bind k m).
Proof.
  intros Hm Hk w. specialize (Hm w). unfold est_bind. destruct (m w) as [w1 [x|a]]; [done|].
  specialize (Hk a w1). destruct (k a w1) as [w2 [x|b]]; [done|]. by rewrite Hk.
Qed.

Lemma sq_set f : (forall r, to_process_queue (f r) = to_process_queue r) -> same_queue (set_rs f).
Proof. intros H w. apply H. Qed.

Lemma sq_syscall : same_queue syscall.
Proof. intros w. unfold syscall. by destruct (answers w). Qed.

Ltac sq := repeat match goal with
  | |- forall _, _ => intros ?
  | |- same_queue (est_bind _ _) => apply sq_bind
  | |- same_queue (set_rs _) => apply sq_set; reflexivity
  | |- same_queue syscall => apply sq_syscall
  | |- same_queue (est_ret _) => intros ?; reflexivity
  | |- same_queue (est_exit _) => intros ?; exact I
  | |- same_queue pthread_exit => intros ?; exact I
  | |- same_queue (get_rs _) => intros ?; reflexivity
  | |- same_queue call_fuel => intros ?; reflexivity
  | |- same_queue (emit _) => intros ?; reflexivity
  | H : forall _, _ |- same_queue _ => apply H
  | |- same_queue (match ?x with _ => _ end) => destruct x
  end.

Lemma sq_write_loop fuel : forall count, same_queue (write_loop fuel count).
Proof. induction fuel as [|fuel IH]; intros count; cbn [write_loop]; sq. Qed.

Lemma sq_send_pdu e p : same_queue (send_pdu e p).
Proof. pose proof sq_write_loop. unfold send_pdu. sq. Qed.

Lemma sq_send_cache_reset e : same_queue (send_cache_reset e).
Proof. pose proof (sq_send_pdu e). unfold send_cache_reset. sq. Qed.

Lemma sq_add_db_request e p recv : same_queue (add_db_request e p recv).
Proof.
  pose proof (sq_send_pdu e).
  unfold add_db_request, send_error_from_parsed_pdu, send_error_from_recv, send_error, increment_db_semaphore. sq.
Qed.

Lemma handle_pdu_ready e p recv w : status (rs w) = READY ->
  match handle_pdu e p recv w with
  | (w', inr _) => to_process_queue (rs w') = to_process_queue (rs w)
  | _ => True
  end.
Proof.
  intros Hs. assert (Hq : match handle_query e p recv w with
     | (w', inr _) => to_process_queue (rs w') = to_process_queue (rs w) | _ => True end).
  { unfold handle_query, get_rs. unfold est_bind, est_gets. rewrite Hs. apply sq_add_db_request. }
  unfold handle_pdu. destruct (_ =? _); [|destruct (_ =? _); [done|destruct (_ =? _); [done|]]].
  - unfold est_bind, get_rs, est_gets. destruct (negb _); [apply sq_send_cache_reset|done].
  - unfold est_bind. by destruct (send_text _ _ w) as [? [?|?]].
Qed.

Section invariant.
Context (e : endian) (c0 : cache_state).

(** [pend], [aw]: the monitor's pending bytes and whether it awaits the clock;
    [b]: whether a notification is allowed; [R]: the response being handled. *)
Record Inv (pend : list Z) (aw b : bool) (R : option db_response) (w : world) : Prop := {
  inv_world : world_ok w;
  inv_resp : response (rs w) = R /\ (is_Some R -> status (rs w) = RESPONDING);
  inv_local : rtc cache_step c0 (local_cache_state (rs w));
  inv_mon : exists m, mrun mon_start (trace w) m /\ m_pending m = pend /\ m_awaiting m = aw
    /\ (b = true -> m_passed m = true)
    /\ (m_passed m = true \/ m_deadline m <= next_cache_state_check_time (rs w))
    /\ m_status m = tracked (rs w) }.

(** What is left of it when the thread exits. *)
Record InvX (x : cxn_exit) (w : world) : Prop := {
  invx_defined : x <> CxnUndefined;
  invx_world : world_ok w;
  invx_local : rtc cache_step c0 (local_cache_state (rs w));
  invx_resp : is_Some (response (rs w)) -> status (rs w) = RESPONDING;
  invx_mon : exists m, mrun mon_start (trace w) m /\ m_status m = tracked (rs w) }.

Lemma inv_exit pend aw b R w x : x <> CxnUndefined -> Inv pend aw b R w -> InvX x w.
Proof.
  intros Hx [H1 [H2 H3] H4 (m & Hm & _ & _ & _ & _ & Hs)]. split; [done|done|done|by rewrite H2|by exists m].
Qed.

Lemma inv_weaken pend aw b R w : Inv pend aw b R w -> Inv pend aw false R w.
Proof. intros [H1 H2 H3 (m & Hm & ? & ? & _ & ? & ?)]. split; try done. exists m. split_and!; done. Qed.

Lemma inv_rs_ok pend aw b R r w : Inv pend aw b R w /\ rs w = r -> rs_ok r.
Proof. intros [[[H _] _ _ _] <-]. exact H. Qed.

(** ** Rules for single calls *)

Notation T P m Q := (triple P m Q InvX).

Lemma t_exit {A} pend aw b R (Q : A -> world -> Prop) : T (Inv pend aw b R) pthread_exit Q.
Proof. intros w Hw. by eapply inv_exit. Qed.

Lemma t_syscall pend aw b R :
  T (Inv pend aw b R) syscall (fun a w => Inv pend aw b R w /\ answer_ok a).
Proof.
  intros w Hw. unfold syscall. destruct (answers w) as [|a l] eqn:E; [by eapply inv_exit|].
  destruct Hw as [(H1 & H2 & H3) H4 H5 H6]. rewrite E in H3. apply Forall_cons in H3 as [Ha H3].
  by split; [split|].
Qed.

(** A change of the thread's state that the monitor does not see. *)
Lemma t_set_fact f (pre post : run_state -> Prop) pend aw b R :
  (forall r, pre r -> rs_ok r -> rs_ok (f r) /\ post (f r)) ->
  (forall r, response (f r) = response r) -> (forall r, status (f r) = status r) ->
  (forall r, local_cache_state (f r) = local_cache_state r) ->
  (forall r, next_cache_state_check_time (f r) = next_cache_state_check_time r) ->
  T (fun w => Inv pend aw b R w /\ pre (rs w)) (set_rs f) (fun _ w => Inv pend aw b R w /\ post (rs w)).
Proof.
  intros Hok Hr Hs Hl Ht w [[(H1 & H2 & H3) H4 H5 (m & Hm)] Hpre]. unfold set_rs, est_modify.
  destruct (Hok _ Hpre H1) as [Hok' Hpost]. split; [|done]. split; cbn.
  - by split.
  - by rewrite Hr, Hs.
  - by rewrite Hl.
  - exists m. unfold tracked. by rewrite Ht, Hr, Hs.
Qed.

Lemma t_set f pend aw b R :
  (forall r, rs_ok r -> rs_ok (f r)) ->
  (forall r, response (f r) = response r) -> (forall r, status (f r) = status r) ->
  (forall r, local_cache_state (f r) = local_cache_state r) ->
  (forall r, next_cache_state_check_time (f r) = next_cache_state_check_time r) ->
  T (Inv pend aw b R) (set_rs f) (fun _ => Inv pend aw b R).
Proof.
  intros Hok Hr Hs Hl Ht w Hw.
  apply (t_set_fact f (fun _ => True) (fun _ => True) pend aw b R); try done. auto.
Qed.

(** An event the monitor allows. *)
Lemma t_emit ev pend aw b R pend' aw' b' :
  (forall m, m_pending m = pend -> m_awaiting m = aw -> (b = true -> m_passed m = true) ->
     exists m', mstep m ev m' /\ m_pending m' = pend' /\ m_awaiting m' = aw'
       /\ m_status m' = m_status m /\ (m_passed m = true -> m_passed m' = true)
       /\ m_deadline m' = m_deadline m /\ (b' = true -> m_passed m' = true)) ->
  T (Inv pend aw b R) (emit ev) (fun _ => Inv pend' aw' b' R).
Proof.
  intros H w [H1 H2 H3 (m & Hm & E1 & E2 & E3 & E4 & E5)]. unfold emit, est_modify.
  destruct (H m E1 E2 E3) as (m' & Hst & F1 & F2 & F3 & F4 & F5 & F6). split; try done.
  exists m'. cbn. split_and!; try done; [by eapply mrun_snoc| |congruence].
  rewrite F5. destruct E4; auto.
Qed.

Lemma t_bind {A B} P (m : CX A) (k : A -> CX B) Q Q' :
  T P m Q -> (forall a, T (Q a) (k a) Q') -> T P (est_bind k m) Q'.
Proof. apply triple_bind. Qed.

Lemma t_get {A B} P (f : run_state -> A) (k : A -> CX B) Q' :
  (forall r, T (fun w => P w /\ rs w = r) (k (f r)) Q') -> T P (est_bind k (get_rs f)) Q'.
Proof. intros H w Hw. by apply (H (rs w) w). Qed.

(** Facts that follow from the precondition. *)
Lemma t_pure {A} (phi : Prop) P (m : CX A) Q :
  (forall w, P w -> phi) -> (phi -> T P m Q) -> T P m Q.
Proof. intros H1 H2 w Hw. by apply (H2 (H1 w Hw) w). Qed.

Lemma t_pre {A} P P' (m : CX A) Q : (forall w, P w -> P' w) -> T P' m Q -> T P m Q.
Proof. intros H1 H2 w Hw. by apply H2, H1. Qed.

Lemma t_post {A} P (m : CX A) (Q Q' : A -> world -> Prop) : (forall a w, Q' a w -> Q a w) -> T P m Q' -> T P m Q.
Proof. intros H1 H2 w Hw. specialize (H2 w Hw). destruct (m w) as [w' [x|a]]; auto. Qed.

Lemma t_ret {A} (a : A) P Q : (forall w, P w -> Q a w) -> T P (est_ret a) Q.
Proof. apply triple_ret. Qed.

(** ** Sending *)

(** [r] is unchanged but for the send buffer, the receive buffer and the
    structures PDUs are built in. *)
Lemma ok_set_send buf n r : length buf = 1024%nat -> rs_ok r -> rs_ok (set_send buf n r).
Proof. intros Hl []. by split. Qed.

Lemma ok_set_send_pdu f r : rs_ok r -> rs_ok (set_send_pdu f r).
Proof. intros []. by split. Qed.

Lemma ok_set_recv buf n r : length buf = 1024%nat -> bytes_ok (take (Z.to_nat n) buf) ->
  0 <= n <= MAX_PDU_SIZE -> rs_ok r -> rs_ok (set_recv buf n r).
Proof. intros Hl Hb Hn []. by split. Qed.

(** The bytes still to be written are at the end of what [pdu_send_buffer]
    holds. *)
Definition at_buffer (pend : list Z) (r : run_state) : Prop :=
  slice (Z.to_nat (pdu_send_buffer_length r - Z.of_nat (length pend))) (length pend) (pdu_send_buffer r) = pend
  /\ Z.of_nat (length pend) <= pdu_send_buffer_length r.

Lemma slice_app off n k (l : list Z) : slice off (n + k) l = slice off n l ++ slice (off + n) k l.
Proof. unfold slice. rewrite <- drop_drop. symmetry. rewrite <- (take_take_drop (drop off l) n k). done. Qed.

Lemma at_buffer_split pend k r : at_buffer pend r -> (k <= length pend)%nat ->
  slice (Z.to_nat (pdu_send_buffer_length r - Z.of_nat (length pend))) k (pdu_send_buffer r) = take k pend
  /\ at_buffer (drop k pend) r.
Proof.
  intros [Hsl Hle] Hk. unfold at_buffer. rewrite length_drop.
  replace (length pend) with (k + (length pend - k))%nat in Hsl at 2 by lia.
  rewrite slice_app in Hsl.
  replace (Z.to_nat (pdu_send_buffer_length r - Z.of_nat (length pend - k)))
    with (Z.to_nat (pdu_send_buffer_length r - Z.of_nat (length pend)) + k)%nat by lia.
  assert (Hlen : length (slice (Z.to_nat (pdu_send_buffer_length r - Z.of_nat (length pend))) k
                   (pdu_send_buffer r)) = k).
  { apply (f_equal length) in Hsl. rewrite length_app in Hsl. unfold slice in *.
    rewrite !length_take, !length_drop in *. lia. }
  pose proof (f_equal (take k) Hsl) as Ht. pose proof (f_equal (drop k) Hsl) as Hd.
  rewrite take_app_length' in Ht by done. rewrite drop_app_length' in Hd by done. split_and!; [done|done|lia].
Qed.

Lemma write_loop_inv fuel : forall pend aw b R,
  T (fun w => Inv pend aw b R w /\ at_buffer pend (rs w)) (write_loop fuel (Z.of_nat (length pend)))
    (fun _ => Inv [] aw b R).
Proof.
  induction fuel as [|fuel IH]; intros pend aw b R; cbn [write_loop];
    destruct (Z.leb_spec (Z.of_nat (length pend)) 0) as [Hz|Hz].
  1,3: (destruct pend; [|cbn in Hz; lia]); apply t_ret; tauto.
  { intros w [Hw _]. by eapply inv_exit. }
  intros w [Hw Hb]. pose proof (t_syscall pend aw b R w Hw) as Hsys.
  assert (Ers : match syscall w with (w', inr _) => rs w' = rs w | _ => True end)
    by (unfold syscall; by destruct (answers w)).
  unfold est_bind at 1. destruct (syscall w) as [w1 [x|a]]; [done|]. destruct Hsys as [Hw1 _].
  rewrite <- Ers in Hb. clear Hw w Ers. revert w1 Hw1 Hb.
  destruct (a_ok a); cbn [negb]; [|intros w Hw _; by eapply inv_exit].
  set (n := Z.min (Z.of_nat (a_num a)) (Z.of_nat (length pend))).
  intros w Hw Hb. set (k := Z.to_nat n). assert (Hk : (k <= length pend)%nat) by lia.
  destruct (at_buffer_split pend k (rs w) Hb Hk) as [Es1 Hb2].
  unfold get_rs. unfold est_bind at 1, est_gets. rewrite Es1.
  assert (Hemit : T (fun w' => Inv pend aw b R w' /\ rs w' = rs w) (emit (EvWrite (take k pend)))
                    (fun _ w' => Inv (drop k pend) aw b R w' /\ rs w' = rs w)).
  { intros w' [Hw' Er]. split; [|done].
    apply (t_emit (EvWrite (take k pend)) pend aw b R (drop k pend) aw b); [|done].
    intros m E1 E2 E3. eexists. split; [apply (M_write m (take k pend) (drop k pend)); by rewrite E1, take_drop|].
    done. }
  specialize (Hemit w (conj Hw eq_refl)). unfold est_bind.
  destruct (emit (EvWrite (take k pend)) w) as [w2 [x|[]]]; [done|]. destruct Hemit as [Hw2 Er2].
  replace (Z.of_nat (length pend) - n) with (Z.of_nat (length (drop k pend))) by (rewrite length_drop; lia).
  apply IH. split; [done|]. by rewrite Er2.
Qed.

Lemma send_pdu_inv p b R : wf_pdu p -> (is_notify p = true -> b = true) ->
  T (Inv [] false b R) (send_pdu e (Some p)) (fun _ => Inv [] (is_notify p) b R).
Proof.
  intros Hwf Hb. unfold send_pdu. apply t_get. intros r.
  apply (t_pure (rs_ok r)); [apply inv_rs_ok|]. intros Hr.
  pose proof (ok_send _ Hr) as Hbuf. unfold MAX_PDU_SIZE.
  destruct (Z.le_gt_cases (length_ p) 1024) as [Hle|Hgt].
  2: { destruct (dump_pdu_short e (pdu_send_buffer r) 1024 p Hwf) as [buf' E]; [lia..|]. rewrite E.
       apply dump_pdu_keeps_length in E. eapply t_pre; [by intros w [Hw _]|].
       eapply t_bind; [apply t_set; try done; intros r' Hr'; apply ok_set_send; [lia|done]|].
       intros ?. apply t_exit. }
  rewrite dump_pdu_complete by (done || lia). pose proof (pdu_bytes_length p Hwf) as Hl.
  set (buf' := pdu_bytes p ++ _).
  assert (Hlen : length buf' = 1024%nat) by (unfold buf'; rewrite length_app, length_drop; lia).
  assert (length_ p <? 0 = false) as -> by (apply Z.ltb_ge; lia).
  eapply t_pre; [by intros w [Hw _]|].
  eapply t_pre; [intros w Hw; exact (conj Hw I)|].
  eapply t_bind; [apply (t_set_fact _ (fun _ => True) (fun r => pdu_send_buffer r = buf')); try done;
                  intros r' _ Hr'; split; [by apply ok_set_send|done]|]. intros ?.
  eapply t_bind; [apply (t_set_fact _ (fun r => pdu_send_buffer r = buf') (fun r => pdu_send_buffer r = buf' /\ pdu_send_buffer_length r = length_ p));
                  try done; intros r' Hb' Hr'; split; [apply ok_set_send; [apply Hr'|done]|done]|]. intros ?.
  eapply (t_bind _ _ _ (fun _ w => Inv (pdu_bytes p) (is_notify p) b R w /\ at_buffer (pdu_bytes p) (rs w))).
  { intros w (Hw & Hbw & Hlw). split.
    - apply (t_emit (EvSend p) [] false b R (pdu_bytes p) (is_notify p) b); [|done].
      intros m E1 E2 E3. eexists. split; [apply M_send; try done|].
      + intros Hn. split; [by apply E3, Hb|done].
      + cbn. rewrite E2. split_and!; auto.
    - unfold at_buffer. cbn [rs]. rewrite Hbw, Hlw, Hl, Z.sub_diag. split; [|lia].
      unfold buf'. by apply slice_prefix. }
  intros ? w Hw. unfold call_fuel, est_bind, est_gets. rewrite <- Hl. by apply write_loop_inv.
Qed.

(** A PDU built in [send_pdu_] and sent. *)
Lemma send_built f n b R :
  (forall q, wf_pdu (f q) /\ is_notify (f q) = n) -> (n = true -> b = true) ->
  T (Inv [] false b R) (set_rs (set_send_pdu f) ;;; let* p := get_rs send_pdu_ in send_pdu e (Some p))
    (fun _ => Inv [] n b R).
Proof.
  intros Hf Hb. eapply t_pre; [intros w Hw; exact (conj Hw I)|].
  eapply t_bind; [apply (t_set_fact _ (fun _ => True) (fun r => exists q, send_pdu_ r = f q)); try done;
                  intros r _ Hr; split; [by apply ok_set_send_pdu|by eexists]|]. intros ?.
  apply t_get. intros r. apply (t_pure (exists q, send_pdu_ r = f q)); [by intros w [[_ ?] <-]|].
  intros [q ->]. destruct (Hf q) as [Hwf <-].
  eapply t_pre; [|by apply (send_pdu_inv (f q) b R)]. by intros w [[? _] _].
Qed.

Lemma send_cache_reset_inv b R :
  T (Inv [] false b R) (send_cache_reset e) (fun _ => Inv [] false b R).
Proof.
  apply send_built; [|done]. intros q. split; [|done].
  apply (fill_header_wf q PDU_CACHE_RESET 0); [done|]. by split.
Qed.

(** A pointer to at least [n] bytes, the first [n] of which hold data. *)
Definition emb_ok (p : data_ptr) (n : Z) : Prop :=
  match p with
  | None => n = 0
  | Some bs => 0 <= n <= Z.of_nat (length bs) /\ bytes_ok (take (Z.to_nat n) bs)
  end.

Lemma cover_ok p n k : emb_ok p n -> 0 <= k <= n -> k < 2 ^ 32 -> ptr_ok k (cover p k).
Proof.
  intros Hp Hk Hu. split; [by split; [lia|]|]. destruct p as [bs|]; cbn in *; [|lia].
  destruct Hp as [Hn Hb]. split; [rewrite length_take; lia|].
  replace (Z.to_nat k) with (Nat.min (Z.to_nat k) (Z.to_nat n)) by lia.
  rewrite <- take_take. by apply Forall_take.
Qed.

Lemma send_error_inv code emb elen text tlen b R :
  uint_ok 16 code -> emb_ok emb elen -> ptr_ok tlen text ->
  T (Inv [] false b R) (send_error e code emb elen text tlen) (fun _ => Inv [] false b R).
Proof.
  intros Hc He Ht. unfold send_error, PDU_HEADER_LENGTH, PDU_ERROR_HEADERS_LENGTH, MAX_PDU_SIZE.
  pose proof (proj1 Ht) as [Ht0 _].
  destruct (Z.ltb_spec 1024 (8 + 8 + tlen)); [apply t_exit|].
  set (k := if _ <? _ then _ else _).
  assert (Hk : 0 <= k <= elen /\ 8 + 8 + k + tlen <= 1024).
  { assert (0 <= elen) by (destruct emb; cbn in He; lia). unfold k.
    destruct (Z.ltb_spec 1024 (8 + 8 + elen + tlen)); lia. }
  clearbody k. assert (Hcov : ptr_ok k (cover emb k)) by (apply (cover_ok emb elen); [done|lia|lia]).
  apply send_built; [|done]. intros q. split; [|done]. unfold wf_pdu.
  cbn [set_body set_length set_sessionId set_pduType set_protocolVersion protocolVersion pduType sessionId length_ body].
  split_and!; [done|done|split; lia| |].
  - unfold pdu_types. rewrite !elem_of_cons. tauto.
  - unfold PDU_HEADER_LENGTH. cbn -[Z.add Z.sub cover]. split_and!; [done..|lia].
Qed.

Lemma inv_recv_emb r : rs_ok r -> emb_ok (Some (pdu_recv_buffer r)) (pdu_recv_buffer_length r).
Proof.
  intros Hr. pose proof (ok_recv_len _ Hr). split; [rewrite (ok_recv _ Hr); unfold MAX_PDU_SIZE in *; lia|apply Hr].
Qed.

Lemma send_error_from_recv_inv code text tlen b R :
  uint_ok 16 code -> ptr_ok tlen text ->
  T (Inv [] false b R) (send_error_from_recv e code text tlen) (fun _ => Inv [] false b R).
Proof.
  intros Hc Ht. unfold send_error_from_recv. apply t_get. intros r. apply t_get. intros r'.
  apply (t_pure (rs_ok r /\ r' = r)); [intros w [H <-]; split; [by eapply inv_rs_ok|by destruct H]|]. intros [Hr ->].
  eapply t_pre; [|apply send_error_inv; [done|by apply inv_recv_emb|done]]. by intros w [[? _] _].
Qed.

Lemma send_error_from_parsed_inv code p recv text tlen b R :
  uint_ok 16 code -> ptr_ok tlen text -> wf_pdu p ->
  T (Inv [] false b R) (send_error_from_parsed_pdu e code p recv text tlen) (fun _ => Inv [] false b R).
Proof.
  intros Hc Ht Hwf. unfold send_error_from_parsed_pdu.
  destruct recv; [by apply send_error_from_recv_inv|].
  unfold PDU_HEADER_LENGTH, PDU_ERROR_HEADERS_LENGTH, MAX_PDU_SIZE. pose proof (proj1 Ht) as [Ht0 _].
  destruct (Z.ltb_spec 1024 (8 + 8 + tlen)); [apply t_exit|].
  apply t_get. intros r. apply (t_pure (rs_ok r)); [apply inv_rs_ok|]. intros Hr.
  pose proof (ok_recv _ Hr) as Hbuf. set (n := 1024 - (8 + 8 + tlen)).
  assert (Hd : exists ret buf', dump_pdu e (Some (pdu_recv_buffer r)) n (Some p) = DumpRet ret (Some buf')
     /\ (ret <= 0 \/ emb_ok (Some buf') ret)).
  { destruct (Z.le_gt_cases (length_ p) n).
    - pose proof (wf_pdu_length p Hwf). pose proof (pdu_bytes_length p Hwf) as Hl. do 2 eexists.
      split; [apply dump_pdu_complete; [done|lia|lia]|]. right. split.
      + rewrite length_app, length_drop. lia.
      + replace (Z.to_nat (length_ p)) with (length (pdu_bytes p)) by lia. rewrite take_app_length.
        by apply pdu_bytes_ok.
    - destruct (dump_pdu_short e (pdu_recv_buffer r) n p Hwf) as [buf' E]; [lia..|].
      exists (-1), buf'. split; [done|]. left. lia. }
  destruct Hd as (ret & buf' & E & Hret). rewrite E. apply dump_pdu_keeps_length in E.
  eapply t_pre; [by intros w [Hw _]|].
  eapply t_bind; [apply t_set; try done; intros r' Hr'; apply ok_set_recv; [congruence|constructor|done|done]|].
  intros ?. destruct (Z.leb_spec ret 0).
  - by apply send_error_inv.
  - apply send_error_inv; [done| |done]. destruct Hret; [lia|done].
Qed.

Lemma parse_code_ok c : uint_ok 16 (parse_error_code c).
Proof. unfold parse_error_code. repeat case_match; by split. Qed.

Lemma log_and_send_inv c b R :
  T (Inv [] false b R) (log_and_send_parse_error e c) (fun _ => Inv [] false b R).
Proof. apply send_error_from_recv_inv; [apply parse_code_ok|by split]. Qed.

Lemma time_inv b R :
  T (Inv [] false b R) time_call (fun t w => Inv [] false b R w).
Proof.
  unfold time_call. eapply t_bind; [apply t_syscall|]. intros a.
  eapply t_pre; [intros w [Hw _]; exact Hw|].
  eapply (t_bind _ _ _ (fun _ => Inv [] false b R)); [|intros ?; by apply t_ret].
  apply (t_emit _ [] false b R [] false b). intros m E1 E2 E3. eexists. split; [apply M_time|].
  rewrite E2. cbn. split_and!; try done; [by intros ->|]. intros Hb. by rewrite (E3 Hb).
Qed.

(** After a notification the clock is read and the next one is put off. *)
Lemma notify_time_inv R :
  T (Inv [] true true R) (let* t := time_call in set_rs (set_check_time (t + CXN_NOTIFY_INTERVAL)))
    (fun _ => Inv [] false false R).
Proof.
  unfold time_call. intros w Hw. pose proof (t_syscall [] true true R w Hw) as Hs. unfold est_bind at 1 2.
  destruct (syscall w) as [w1 [x|a]]; [done|]. destruct Hs as [Hs _]. clear Hw w.
  destruct Hs as [(H1 & H2 & H3) H4 H5 (m & Hm & E1 & E2 & E3 & E4 & E5)]. cbn. split; cbn; try done.
  - split_and!; try done. by destruct H1.
  - exists (mkMon (m_status m) [] (a_time a + CXN_NOTIFY_INTERVAL) false false). cbn.
    split_and!; try done; [|right; lia].
    eapply mrun_snoc; [exact Hm|]. pose proof (M_time m (a_time a)) as Ht. by rewrite E2, E1 in Ht.
Qed.

Lemma send_notify_inv R :
  T (Inv [] false true R) (send_notify e) (fun _ => Inv [] false false R).
Proof.
  unfold send_notify. apply t_get. intros r. apply (t_pure (rs_ok r)); [apply inv_rs_ok|]. intros Hr.
  eapply t_pre; [intros w [Hw _]; exact Hw|].
  destruct (data_available _); cbn [negb]; [|apply t_exit].
  destruct (ok_cache _ Hr) as [Hs Hn].
  match goal with |- context [set_send_pdu ?g] => set (f := g) end.
  assert (Hf : forall q, wf_pdu (f q) /\ is_notify (f q) = true).
  { intros q. split; [|done]. by apply (fill_serial_wf q PDU_SERIAL_NOTIFY). }
  intros w Hw. pose proof (send_built f true true R Hf (fun H => H) w Hw) as H.
  unfold est_bind in H |- *. destruct (set_rs (set_send_pdu f) w) as [w1 [x|u]]; [done|].
  destruct (get_rs send_pdu_ w1) as [w2 [x|p]]; [done|].
  destruct (send_pdu e (Some p) w2) as [w3 [x|u']]; [done|]. exact (notify_time_inv R w3 H).
Qed.

(** ** Receiving *)

(** The verdict of the parser on the receive buffer, and what [recv_pdu]
    holds then. *)
Definition parsed (c : Z) (r : run_state) : Prop :=
  parse_outcome (take (Z.to_nat (pdu_recv_buffer_length r)) (pdu_recv_buffer r)) c (recv_pdu r).

Lemma ok_set_recv_pdu p r : rs_ok r -> rs_ok (set_recv_pdu p r).
Proof. intros []. by split. Qed.

Lemma parse_recv_run w : rs_ok (rs w) ->
  exists c q, parse_recv w = (mkWorld (set_recv_pdu q (rs w)) (sock w) (answers w) (trace w), inr c)
    /\ parsed c (set_recv_pdu q (rs w)).
Proof.
  intros Hr. unfold parse_recv, get_rs, est_bind, est_gets, id. cbv beta iota.
  destruct (parse_pdu_outcome _ (recv_pdu (rs w)) (ok_recv_bytes _ Hr)) as (c & q & E & Ho).
  exists c, q. rewrite E. by split.
Qed.

Lemma parse_recv_inv (pre : run_state -> Prop) b R :
  (forall r p, pre r -> pre (set_recv_pdu p r)) ->
  T (fun w => Inv [] false b R w /\ pre (rs w)) parse_recv
    (fun c w => (Inv [] false b R w /\ pre (rs w)) /\ parsed c (rs w)).
Proof.
  intros Hpre w [Hw Hp]. destruct (parse_recv_run w) as (c & q & E & Ho); [apply Hw|]. rewrite E.
  split; [|done]. destruct Hw as [(H1 & H2 & H3) H4 H5 H6]. split; [|by apply Hpre].
  split; try done. split_and!; try done. by apply ok_set_recv_pdu.
Qed.

(** The receive buffer after a read. *)
Lemma recv_append r bs :
  rs_ok r -> bytes_ok bs -> pdu_recv_buffer_length r + Z.of_nat (length bs) <= MAX_PDU_SIZE ->
  rs_ok (set_recv (blit (Z.to_nat (pdu_recv_buffer_length r)) bs (pdu_recv_buffer r))
           (pdu_recv_buffer_length r + Z.of_nat (length bs)) r).
Proof.
  intros Hr Hb Hn. pose proof (ok_recv_len _ Hr). pose proof (ok_recv _ Hr) as Hl. unfold MAX_PDU_SIZE in *.
  apply ok_set_recv; [|..|done].
  - rewrite length_blit; lia.
  - unfold blit. rewrite app_assoc.
    replace (Z.to_nat (pdu_recv_buffer_length r + Z.of_nat (length bs)))
      with (length (take (Z.to_nat (pdu_recv_buffer_length r)) (pdu_recv_buffer r) ++ bs))
      by (rewrite length_app, length_take; lia).
    rewrite take_app_length. apply bytes_ok_app. split; [apply Hr|done].
  - unfold MAX_PDU_SIZE. lia.
Qed.

(** Reading stays inside the buffer when there is room for [count] bytes. *)
Lemma read_call_inv count b R :
  0 < count ->
  T (fun w => Inv [] false b R w /\ pdu_recv_buffer_length (rs w) + count <= MAX_PDU_SIZE) (read_call count)
    (fun n w => Inv [] false b R w /\
       match n with
       | None => pdu_recv_buffer_length (rs w) + count <= MAX_PDU_SIZE
       | Some n => 0 <= n <= count /\ pdu_recv_buffer_length (rs w) + (count - n) <= MAX_PDU_SIZE
       end).
Proof.
  intros Hc w [Hw Hroom]. pose proof (t_syscall [] false b R w Hw) as Hs. unfold read_call. unfold est_bind at 1.
  assert (Er : match syscall w with (w', inr _) => rs w' = rs w | _ => True end)
    by (unfold syscall; by destruct (answers w)).
  destruct (syscall w) as [w1 [x|a]]; [done|]. destruct Hs as [Hw1 _]. rewrite <- Er in Hroom. clear Er Hw w.
  unfold get_rs, est_bind, est_gets. cbv beta iota. cbn [id].
  rewrite (proj2 (Z.ltb_ge _ _)) by exact Hroom.
  destruct (a_ok a); cbn [negb]; [|by split].
  set (bs := take _ (sock w1)). assert (Hlen : Z.of_nat (length bs) <= count) by (unfold bs; rewrite length_take; lia).
  destruct Hw1 as [(H1 & H2 & H3) H4 H5 H6]. cbn -[Z.add]. split; [|lia]. split; cbn -[Z.add]; try done.
  split_and!; [|by apply Forall_drop|done]. apply recv_append; [done|by apply Forall_take|lia].
Qed.

Lemma exit_after {A B} P (m : CX A) b R (Q : B -> world -> Prop) :
  T P m (fun _ => Inv [] false b R) -> T P (m ;;; pthread_exit) Q.
Proof. intros H. eapply t_bind; [exact H|]. intros ?. apply t_exit. Qed.

Lemma read_block_inv fuel : forall count b R,
  T (fun w => Inv [] false b R w /\ (0 < count -> pdu_recv_buffer_length (rs w) + count <= MAX_PDU_SIZE))
    (read_block e fuel count) (fun _ => Inv [] false b R).
Proof.
  induction fuel as [|fuel IH]; intros count b R; cbn [read_block];
    destruct (Z.leb_spec count 0) as [Hz|Hz].
  1,3: apply t_ret; tauto.
  { intros w [Hw _]. by eapply inv_exit. }
  eapply t_pre; [intros w [Hw Hr]; exact (conj Hw (Hr Hz))|].
  eapply t_bind; [apply (parse_recv_inv (fun r => pdu_recv_buffer_length r + count <= MAX_PDU_SIZE)); done|].
  intros c. eapply t_pre; [intros w [Hw _]; exact Hw|].
  destruct (zin c _); [|destruct (negb _)].
  - apply (exit_after _ _ b R). eapply t_pre; [|by apply send_error_inv]. by intros w [? _].
  - apply (exit_after _ _ b R). eapply t_pre; [|apply log_and_send_inv]. by intros w [? _].
  - eapply t_bind; [by apply read_call_inv|]. intros [n|].
    + eapply t_pre; [intros w [Hw Hr]; exact (conj Hw (proj2 Hr))|].
      destruct (n =? 0); [eapply t_pre; [intros w [Hw _]; exact Hw|apply t_exit]|].
      eapply t_pre; [|apply IH]. intros w [Hw Hr]. by split.
    + eapply t_pre; [|apply IH]. intros w [Hw Hr]. by split.
Qed.

Lemma read_nonblock_inv count b R :
  T (fun w => Inv [] false b R w /\ pdu_recv_buffer_length (rs w) + count <= MAX_PDU_SIZE)
    (read_nonblock count) (fun _ => Inv [] false b R).
Proof.
  unfold read_nonblock. destruct (Z.leb_spec count 0); [apply t_ret; tauto|].
  eapply t_bind; [by apply read_call_inv|]. intros n. eapply t_pre; [intros w [Hw _]; exact Hw|].
  destruct n as [n|]; [|by apply t_ret]. destruct (n =? 0); [apply t_exit|by apply t_ret].
Qed.

(** A verdict that lets the thread go on comes with a well-formed PDU. *)
Definition received (c : Z) (r : run_state) : Prop :=
  zin c [PDU_WARNING; PDU_GOOD] = true -> wf_pdu (recv_pdu r).

Lemma parsed_received c r : parsed c r -> received c r.
Proof.
  intros [[Hwf _]|[[-> _]|H]] Hc; [done|done|]. apply zin_In in Hc.
  rewrite !elem_of_cons in Hc. by destruct Hc as [->|[->|?%not_elem_of_nil]].
Qed.

Lemma parse_last_inv b R :
  T (Inv [] false b R) parse_recv (fun c w => Inv [] false b R w /\ received c (rs w)).
Proof.
  intros w Hw. pose proof (parse_recv_inv (fun _ => True) b R (fun _ _ H => H) w (conj Hw I)) as H.
  destruct (parse_recv w) as [w' [x|c]]; [done|]. destruct H as [[H _] Hp]. split; [done|by apply parsed_received].
Qed.

Lemma text_ok t : bytes_ok t -> Z.of_nat (length t) < 2 ^ 32 -> ptr_ok (Z.of_nat (length t)) (Some t).
Proof. intros Hb Hl. split; [split; lia|done]. Qed.

Lemma read_and_parse_inv b R :
  T (Inv [] false b R) (read_and_parse_pdu e) (fun c w => Inv [] false b R w /\ received c (rs w)).
Proof.
  unfold read_and_parse_pdu. eapply t_bind; [apply parse_last_inv|]. intros c.
  destruct (PDU_IS_ERROR c); [by apply t_ret|]. eapply t_pre; [intros w [Hw _]; exact Hw|].
  apply t_get. intros r. eapply (t_bind _ _ _ (fun n w => Inv [] false b R w /\ rs w = r)); [by intros w Hw|].
  intros fuel. eapply t_bind; [eapply t_pre; [|apply read_block_inv]|].
  { intros w [Hw <-]. split; [exact Hw|]. unfold PDU_HEADER_LENGTH, MAX_PDU_SIZE. lia. }
  intros ?. eapply t_bind; [apply parse_last_inv|]. intros c'.
  destruct (c' =? PDU_TRUNCATED); [|by apply t_ret]. eapply t_pre; [intros w [Hw _]; exact Hw|].
  apply t_get. intros r1. destruct (Z.ltb_spec MAX_PDU_SIZE (length_ (recv_pdu r1))).
  - apply (exit_after _ _ b R). eapply t_pre; [intros w [Hw _]; exact Hw|]. unfold send_text.
    apply send_error_from_recv_inv; [by split|]. apply text_ok; [|done]. repeat constructor; done.
  - eapply t_pre; [intros w [Hw _]; exact Hw|]. apply t_get. intros r2.
    eapply (t_bind _ _ _ (fun n w => Inv [] false b R w /\ rs w = r2)); [by intros w Hw|].
    intros fuel'. eapply t_bind; [eapply t_pre; [|apply read_block_inv]|].
    { intros w [Hw <-]. split; [exact Hw|]. lia. }
    intros ?. apply parse_last_inv.
Qed.

(** ** Queries *)

Lemma t_syscall_fact (pre : run_state -> Prop) pend aw b R :
  T (fun w => Inv pend aw b R w /\ pre (rs w)) syscall
    (fun a w => (Inv pend aw b R w /\ pre (rs w)) /\ answer_ok a).
Proof.
  intros w [Hw Hp]. pose proof (t_syscall pend aw b R w Hw) as Hs.
  assert (Er : match syscall w with (w', inr _) => rs w' = rs w | _ => True end)
    by (unfold syscall; by destruct (answers w)).
  destruct (syscall w) as [w1 [x|a]]; [done|]. rewrite Er. tauto.
Qed.

Lemma increment_inv b R : T (Inv [] false b R) increment_db_semaphore (fun _ => Inv [] false b R).
Proof.
  unfold increment_db_semaphore. eapply t_bind; [apply t_syscall|]. intros a.
  eapply t_pre; [intros w [Hw _]; exact Hw|]. destruct (a_ok a); [|by apply t_ret].
  apply (t_emit EvPost [] false b R [] false b). intros m E1 E2 E3. exists m. split; [constructor|done].
Qed.

(** The bytes of the request that an error report may carry. *)
Definition request_ok (r : run_state) : Prop :=
  0 <= pdu_request_buffer_length r <= MAX_QUERY_PDU_LENGTH
  /\ bytes_ok (take (Z.to_nat (pdu_request_buffer_length r)) (pdu_request_buffer r)).

Lemma request_inv q b :
  T (fun w => Inv [] false b None w /\ (status (rs w) = READY /\ request_ok (rs w)))
    (emit (EvRequest q) ;;; set_rs (set_status RESPONDING) ;;; increment_db_semaphore)
    (fun _ => Inv [] false b None).
Proof.
  intros w [Hw [Hs Hq]]. pose proof (increment_inv b None) as Hinc.
  unfold est_bind. cbn [emit set_rs est_modify rs]. apply Hinc.
  destruct Hw as [(H1 & H2 & H3) [H4 _] H5 (m & Hm & E1 & E2 & E3 & E4 & E5)]. split; cbn; try done.
  - split_and!; try done. cbn. destruct H1. by split.
  - unfold tracked in E5. rewrite H4 in E5. cbn in E5.
    eexists. split; [eapply mrun_snoc; [exact Hm|apply M_request; congruence]|]. unfold tracked. cbn.
    rewrite H4. split_and!; done.
Qed.

Lemma ok_set_request q c r : rs_ok r -> rs_ok (set_request q c r).
Proof. intros []. by split. Qed.

Lemma dump_request p r : wf_pdu p -> rs_ok r ->
  exists ret buf', dump_pdu e (Some (pdu_request_buffer r)) MAX_QUERY_PDU_LENGTH (Some p) = DumpRet ret (Some buf')
    /\ length buf' = 12%nat /\ ret <= MAX_QUERY_PDU_LENGTH
    /\ (ret < 0 \/ bytes_ok (take (Z.to_nat ret) buf')).
Proof.
  intros Hwf Hr. pose proof (ok_request _ Hr) as Hl. pose proof (wf_pdu_length p Hwf).
  change MAX_QUERY_PDU_LENGTH with 12. destruct (Z.le_gt_cases (length_ p) 12).
  - pose proof (pdu_bytes_length p Hwf) as Hb. do 2 eexists.
    split; [apply dump_pdu_complete; [done|lia|lia]|]. split_and!; [|done|].
    + rewrite length_app, length_drop. lia.
    + right. replace (Z.to_nat (length_ p)) with (length (pdu_bytes p)) by lia. rewrite take_app_length.
      by apply pdu_bytes_ok.
  - destruct (dump_pdu_short e (pdu_request_buffer r) 12 p Hwf) as [buf' E]; [lia..|].
    exists (-1), buf'. split; [done|]. apply dump_pdu_keeps_length in E. split_and!; [lia|lia|left; lia].
Qed.

Lemma fail_inv {A} P p recv b R (Q : A -> world -> Prop) :
  wf_pdu p -> (forall w, P w -> Inv [] false b R w) ->
  T P (send_error_from_parsed_pdu e ERR_INTERNAL_ERROR p recv None 0 ;;; pthread_exit) Q.
Proof.
  intros Hwf HP. apply (exit_after _ _ b R). eapply t_pre; [exact HP|].
  by apply send_error_from_parsed_inv.
Qed.

Lemma add_db_request_inv p recv b : wf_pdu p ->
  T (fun w => Inv [] false b None w /\ status (rs w) = READY) (add_db_request e p recv)
    (fun _ => Inv [] false b None).
Proof.
  intros Hwf. unfold add_db_request.
  eapply t_bind; [apply (t_syscall_fact (fun r => status r = READY))|]. intros a.
  eapply t_pre; [intros w [Hw _]; exact Hw|].
  destruct (negb _); [apply (fail_inv _ _ _ b None); [done|]; tauto|].
  match goal with |- context [match ?x with Some _ => _ | None => _ end] => destruct x as [q|] end;
    [|apply (fail_inv _ _ _ b None); [done|]; tauto].
  eapply t_bind; [apply (t_set_fact _ (fun r => status r = READY) (fun r => status r = READY)); try done;
                  intros r Hr Hok; split; [by apply ok_set_request|done]|]. intros ?.
  apply t_get. intros r. apply (t_pure (rs_ok r)); [intros w [[Hw _] Hr]; by eapply inv_rs_ok|]. intros Hr.
  destruct (dump_request p r Hwf Hr) as (ret & buf' & -> & Hl & Hret & Hb).
  eapply t_pre; [intros w [Hw _]; exact Hw|].
  eapply t_bind; [apply (t_set_fact _ (fun r => status r = READY) (fun r => status r = READY /\ request_ok r));
    try done; intros r' Hs' Hr'|].
  { split; [destruct Hr'; split; try done; cbn; by rewrite Hs'|]. split; [done|]. unfold request_ok. cbn -[MAX_QUERY_PDU_LENGTH].
    change MAX_QUERY_PDU_LENGTH with 12 in *. destruct (Z.ltb_spec ret 0); [split; [lia|constructor]|].
    destruct (Z.ltb_spec 12 ret); [lia|]. destruct Hb; [lia|]. split; [lia|done]. }
  intros ?. eapply t_bind; [apply (t_syscall_fact (fun r => status r = READY /\ request_ok r))|]. intros push.
  eapply t_pre; [intros w [Hw _]; exact Hw|].
  destruct (negb _); [apply (fail_inv _ _ _ b None); [done|]; tauto|]. apply request_inv.
Qed.

Lemma push_to_process_inv p recv b R : wf_pdu p ->
  T (Inv [] false b R) (push_to_process_queue e p recv) (fun _ => Inv [] false b R).
Proof.
  intros Hwf. unfold push_to_process_queue.
  do 3 (eapply t_bind; [apply t_syscall|]; intros ?; eapply t_pre; [intros w [Hw _]; exact Hw|]).
  destruct (pdu_deepcopy_spec (a_ok a) (a_ok a0) (a_ok a1) p Hwf) as [->|[-> _]];
    [|apply (fail_inv _ _ _ b R); [done|]; tauto].
  eapply t_bind; [apply t_syscall|]. intros push. eapply t_pre; [intros w [Hw _]; exact Hw|].
  destruct (negb _); [apply (fail_inv _ _ _ b R); [done|]; tauto|].
  apply t_get. intros r. apply (t_pure (rs_ok r)); [apply inv_rs_ok|]. intros Hr.
  destruct (ok_queue _ Hr) as (l & -> & Hl). eapply t_pre; [intros w [Hw _]; exact Hw|].
  apply t_set; try done. intros r' []. split; try done. exists (l ++ [p]). split; [done|].
  apply Forall_app. split; [done|by apply Forall_singleton].
Qed.

Lemma handle_query_inv p recv b : wf_pdu p ->
  T (Inv [] false b None) (handle_query e p recv) (fun _ => Inv [] false b None).
Proof.
  intros Hwf. unfold handle_query. apply t_get. intros r. destruct (status r) eqn:Hs.
  - eapply t_pre; [|by apply add_db_request_inv]. intros w [Hw <-]. done.
  - eapply t_pre; [|by apply push_to_process_inv]. by intros w [Hw _].
Qed.

Lemma handle_pdu_inv p recv b : wf_pdu p ->
  T (Inv [] false b None) (handle_pdu e p recv) (fun _ => Inv [] false b None).
Proof.
  intros Hwf. unfold handle_pdu.
  destruct (_ =? _); [|destruct (_ =? _); [by apply handle_query_inv|destruct (_ =? _); [apply t_exit|]]].
  - apply t_get. intros r. eapply t_pre; [intros w [Hw _]; exact Hw|].
    destruct (negb _); [apply send_cache_reset_inv|by apply handle_query_inv].
  - apply (exit_after _ _ b None). unfold send_text. apply send_error_from_parsed_inv; [by split| |done].
    apply text_ok; [|done]. repeat constructor; done.
Qed.

Lemma read_and_handle_inv b :
  T (Inv [] false b None) (read_and_handle_pdu e) (fun _ => Inv [] false b None).
Proof.
  unfold read_and_handle_pdu. eapply t_bind; [apply read_and_parse_inv|]. intros c.
  destruct (zin c _) eqn:Hc.
  - apply t_get. intros r. apply (t_pure (wf_pdu (recv_pdu r))).
    + intros w [[_ Hr] <-]. by apply Hr.
    + intros Hwf. eapply t_pre; [|by apply handle_pdu_inv]. by intros w [[Hw _] _].
  - apply (exit_after _ _ b None). eapply t_pre; [intros w [Hw _]; exact Hw|apply log_and_send_inv].
Qed.

(** ** Responses *)

Lemma set_local_inv c' b R : cache_ok c' ->
  T (fun w => Inv [] false b R w /\ cache_step (local_cache_state (rs w)) c') (set_rs (set_local c'))
    (fun _ => Inv [] false b R).
Proof.
  intros Hc w [[(H1 & H2 & H3) H4 H5 H6] Hst]. unfold set_rs, est_modify. split; cbn; try done.
  - split_and!; try done. destruct H1. by split.
  - by eapply rtc_r.
Qed.

Lemma update_local_inv new (notify : bool) b R : cache_ok new -> (notify = true -> b = true) ->
  T (Inv [] false b R) (update_local_cache_state e new notify) (fun _ => Inv [] false (b && negb notify) R).
Proof.
  intros Hnew Hb. unfold update_local_cache_state. apply t_get. intros r.
  assert (Hweak : forall w, Inv [] false b R w -> Inv [] false (b && negb notify) R w).
  { intros w Hw. destruct notify; [rewrite andb_false_r; by eapply inv_weaken|by rewrite andb_true_r]. }
  apply (t_pure (rs_ok r)); [apply inv_rs_ok|]. intros Hr.
  destruct (Z.eqb_spec (cs_session (local_cache_state r)) (cs_session new)) as [Es|]; cbn [negb];
    [|eapply t_pre; [intros w [Hw _]; exact Hw|apply t_exit]].
  destruct (data_available new) eqn:Ed; cbn [negb]; [|apply t_ret; intros w [Hw _]; auto].
  destruct (_ || _) eqn:Eg; [|apply t_ret; intros w [Hw _]; auto].
  eapply t_bind; [eapply t_pre; [|apply (set_local_inv (mkCache true (cs_session (local_cache_state r)) (cs_serial_number new)) b R)]|].
  - intros w [Hw <-]. split; [done|]. split_and!; [done..|]. cbn. apply orb_prop in Eg as [Eg|Eg]; [left|by right].
    by apply negb_true_iff.
  - split; [apply (ok_cache _ Hr)|apply Hnew].
  - intros ?. destruct notify; cbn.
    + rewrite andb_false_r. rewrite (Hb eq_refl). apply send_notify_inv.
    + rewrite andb_true_r. by apply t_ret.
Qed.

Lemma with_request_wf r p p' :
  wf_pdu p -> length_ p <= MAX_PDU_SIZE -> request_ok r -> length (pdu_request_buffer r) = 12%nat ->
  with_request r p = Some p' -> wf_pdu p' /\ is_notify p' = false.
Proof.
  intros Hwf Hlen Hq Hl. unfold with_request. destruct (_ && _ && _ && _) eqn:E; [|done]. intros [= <-].
  bprop. apply bool_decide_eq_true in H1. destruct Hq as [Hn Hb]. change MAX_QUERY_PDU_LENGTH with 12 in Hn.
  pose proof (wf_pdu_length p Hwf) as Hl8. unfold MAX_PDU_SIZE in *.
  destruct Hwf as (Hv & Hx & Hu & Ht & Hbody). rewrite H in Hbody.
  destruct (body_ok_err _ _ Hbody) as [d Ed]. unfold errorData in *. rewrite Ed in *. cbn [err_of] in *.
  destruct Hbody as (_ & _ & Htext & Hlb). unfold PDU_HEADER_LENGTH in *. unfold u32. rewrite wrap_small by (split; lia).
  split; [|cbn; unfold is_notify; cbn; by rewrite H]. unfold wf_pdu.
  cbn [set_body set_length protocolVersion pduType sessionId length_ body].
  rewrite H. split_and!; [done|done|split; lia|by rewrite <- H|].
  assert (Hcov : ptr_ok (pdu_request_buffer_length r)
    (cover (Some (pdu_request_buffer r)) (pdu_request_buffer_length r))).
  { apply (cover_ok _ (pdu_request_buffer_length r)); [split; [rewrite Hl; lia|done]|lia..]. }
  unfold PDU_HEADER_LENGTH. cbn -[Z.add Z.sub cover ptr_ok]. split_and!; [done|exact Hcov|done|lia].
Qed.

Lemma send_pdus_inv resp l : Forall (fun p => wf_pdu p /\ length_ p <= MAX_PDU_SIZE /\ is_notify p = false) l ->
  forall i stop b,
  T (Inv [] false b (Some resp)) (send_pdus e l i stop) (fun _ => Inv [] false b (Some resp)).
Proof.
  induction 1 as [|p l (Hwf & Hlen & Hnn) _ IH]; intros i stop b; cbn [send_pdus]; [by apply t_ret|].
  eapply (t_bind _ _ _ (fun _ => Inv [] false b (Some resp))).
  { destruct (_ =? _) eqn:Et; [|by apply t_ret].
    eapply t_post; [|apply (update_local_inv (mkCache true (sessionId p) (serialNumber p)) false b (Some resp)); [|done]].
    - intros ? w Hw. cbn in Hw. by rewrite andb_true_r in Hw.
    - bprop. destruct Hwf as (_ & Hx & _ & _ & Hb). rewrite Et in Hb. split; [done|]. cbn. unfold serialNumber.
      destruct (body p); try (by destruct Hb); cbn in *; try (by split). tauto. }
  intros ?. apply t_get. intros r.
  apply (t_pure (rs_ok r /\ request_ok r)).
  { intros w [Hw <-]. pose proof (inv_world _ _ _ _ _ Hw) as (Hr & _). split; [done|].
    apply (ok_request_len _ Hr). apply (proj2 (inv_resp _ _ _ _ _ Hw)). by eexists. }
  intros [Hr Hq]. eapply t_pre; [intros w [Hw _]; exact Hw|].
  eapply (t_bind _ _ _ (fun _ => Inv [] false b (Some resp))); [|intros ?; apply IH].
  cbn [id]. destruct (with_request r p) as [p'|] eqn:Ew.
  - destruct (with_request_wf r p p' Hwf Hlen Hq (ok_request _ Hr) Ew) as [Hwf' Hn'].
    assert (Hset : forall x, T (Inv [] false b (Some resp)) (set_rs (set_borrowed x)) (fun _ => Inv [] false b (Some resp)))
      by (intros x; apply t_set; try done; intros r' []; by split).
    eapply t_bind; [apply Hset|]. intros ?. eapply t_bind; [apply send_pdu_inv; [done|by rewrite Hn']|].
    intros ?. rewrite Hn'. apply Hset.
  - eapply t_post; [|apply (send_pdu_inv p b (Some resp)); [done|by rewrite Hnn]].
    intros ? w Hw. by rewrite Hnn in Hw.
Qed.

(** Taking a query off the queue. *)
Lemma set_queue_inv l b R : Forall wf_pdu l ->
  T (Inv [] false b R) (set_rs (set_to_process (Some l))) (fun _ => Inv [] false b R).
Proof. intros Hl. apply t_set; try done. intros r []. split; try done. by exists l. Qed.

Lemma set_pdup_inv x b R : T (Inv [] false b R) (set_rs (set_pdup x)) (fun _ => Inv [] false b R).
Proof. apply t_set; try done. intros r []. by split. Qed.

(** One query; afterwards the queue is shorter or a request is outstanding. *)
Lemma process_one_inv p l b : wf_pdu p -> Forall wf_pdu l ->
  T (fun w => Inv [] false b None w /\ status (rs w) = READY)
    (set_rs (set_to_process (Some l)) ;;; set_rs (set_pdup (Some p)) ;;; handle_pdu e p false ;;;
     set_rs (set_pdup None))
    (fun _ w => Inv [] false b None w /\ to_process_queue (rs w) = Some l).
Proof.
  intros Hwf Hl w [Hw Hs].
  set (w1 := mkWorld (set_pdup (Some p) (set_to_process (Some l) (rs w))) (sock w) (answers w) (trace w)).
  assert (Hw1 : Inv [] false b None w1).
  { pose proof (set_queue_inv l b None Hl w Hw) as H1. exact (set_pdup_inv (Some p) b None _ H1). }
  assert (Hrest : match (handle_pdu e p false ;;; set_rs (set_pdup None)) w1 with
    | (w', inr _) => Inv [] false b None w' /\ to_process_queue (rs w') = Some l
    | (w', inl x) => InvX x w' end).
  { pose proof (handle_pdu_inv p false b Hwf w1 Hw1) as H1.
    pose proof (handle_pdu_ready e p false w1 Hs) as H2.
    unfold est_bind. destruct (handle_pdu e p false w1) as [w2 [x|u]]; [done|].
    split; [exact (set_pdup_inv None b None w2 H1)|exact H2]. }
  exact Hrest.
Qed.

Lemma process_queue_inv fuel : forall stop b,
  T (fun w => Inv [] false b None w /\
       ((0 < fuel)%nat /\ status (rs w) = RESPONDING
        \/ (length (default [] (to_process_queue (rs w))) < fuel)%nat))
    (process_queue e fuel stop) (fun _ => Inv [] false b None).
Proof.
  induction fuel as [|fuel IH]; intros stop b; cbn [process_queue].
  { intros w [_ [[? _]|?]]; lia. }
  apply t_get. intros r. apply (t_pure (rs_ok r)); [intros w [[Hw _] Hr]; by eapply inv_rs_ok|]. intros Hr.
  destruct (ok_queue _ Hr) as (l & El & Hl). cbn [id].
  destruct (status r) eqn:Hs; [|apply t_ret; tauto].
  destruct stop; [apply t_ret; tauto|]. rewrite El.
  destruct l as [|p l]; [apply t_ret; tauto|]. apply Forall_cons in Hl as [Hp Hl].
  intros w [[Hw Hf] Er]. pose proof (process_one_inv p l b Hp Hl w) as H1.
  unfold est_bind at 1 2 3 4. unfold est_bind in H1. rewrite Er in H1. specialize (H1 (conj Hw Hs)).
  destruct (set_rs (set_to_process (Some l)) w) as [wa [x|u1]]; [done|].
  destruct (set_rs (set_pdup (Some p)) wa) as [wb [x|u2]]; [done|].
  destruct (handle_pdu e p false wb) as [wc [x|u3]]; [done|].
  destruct (set_rs (set_pdup None) wc) as [wd [x|u4]]; [done|]. destruct H1 as [H1 H2].
  apply IH. split; [done|]. right. rewrite H2. rewrite Er, Hs, El in Hf. cbn in *. destruct Hf as [[_ ?]|?]; [done|lia].
Qed.

(** The end of [handle_response]: the response is dropped and, if it was the
    last one, waiting queries are looked at. *)
Lemma finish_response_inv resp stop b :
  T (Inv [] false b (Some resp))
    (set_rs (set_response None) ;;;
     (if resp_is_done resp then
        set_rs (set_status READY) ;;;
        let* n := get_rs (fun r => S (length (default [] (to_process_queue r)))) in
        process_queue e n stop
      else est_ret tt))
    (fun _ => Inv [] false b None).
Proof.
  intros w [(H1 & H2 & H3) [H4 H4'] H5 (m & Hm & E1 & E2 & E3 & E4 & E5)].
  unfold tracked in E5. rewrite H4 in E5. cbn in E5. specialize (H4' (mk_is_Some _ _ eq_refl)).
  unfold est_bind at 1. cbn [set_rs est_modify].
  destruct (resp_is_done resp).
  - unfold est_bind. cbn [set_rs est_modify get_rs est_gets rs]. apply process_queue_inv. split; [|right; cbn; lia].
    split; cbn; try done.
    + split_and!; try done. destruct H1. by split.
    + exists m. split_and!; done.
  - cbn. split; cbn; try done.
    + split_and!; try done. destruct H1. by split.
    + exists m. split_and!; done.
Qed.

Lemma handle_response_inv resp b : resp_ok resp ->
  T (Inv [] false b (Some resp)) (handle_response e) (fun _ => Inv [] false b None).
Proof.
  intros Hresp. unfold handle_response. apply t_get. intros r.
  apply (t_pure (response r = Some resp)); [intros w [Hw <-]; apply Hw|]. intros ->.
  eapply t_pre; [intros w [Hw _]; exact Hw|].
  eapply (t_bind _ _ _ (fun _ => Inv [] false b (Some resp)));
    [destruct (negb _); [apply increment_inv|by apply t_ret]|].
  intros ?. eapply t_bind; [by apply (send_pdus_inv resp)|]. intros stop w Hw.
  pose proof (finish_response_inv resp stop b w Hw) as H. unfold est_bind at 1 2. unfold est_bind at 1 in H.
  destruct (set_rs (set_response None) w) as [w1 [x|u]]; [done|].
  match type of H with (let (_, _) := ?m in _) => destruct m as [w2 [x|u2]]; [done|] end.
  destruct stop; [by eapply inv_exit|done].
Qed.

Lemma try_response_inv b : T (Inv [] false b None) (try_response e) (fun _ => Inv [] false b None).
Proof.
  unfold try_response. apply t_get. intros r. destruct (status r) eqn:Hs.
  { apply t_ret. by intros w [Hw _]. }
  eapply t_pre; [intros w [Hw Hr]; rewrite <- Hr in Hs; exact (conj Hw Hs)|].
  eapply t_bind; [apply (t_syscall_fact (fun r => status r = RESPONDING))|]. intros a.
  destruct (a_response a) as [resp|] eqn:Ea; [|apply t_ret; tauto].
  intros w [[Hw Hst] Hok]. unfold est_bind. cbn [emit set_rs est_modify].
  set (w' := mkWorld _ _ _ _).
  assert (Hw' : Inv [] false b resp w').
  { destruct Hw as [(H1 & H2 & H3) [H4 _] H5 (m & Hm & E1 & E2 & E3 & E4 & E5)].
    unfold tracked in E5. rewrite H4 in E5. cbn in E5. split; cbn; try done.
    - split_and!; try done. destruct H1. by split.
    - eexists. split; [eapply mrun_snoc; [exact Hm|apply M_pop; congruence]|]. unfold tracked. cbn.
      rewrite Hst. split_and!; done. }
  destruct resp as [resp|]; [|exact Hw'].
  apply (handle_response_inv resp b); [by apply Hok|exact Hw'].
Qed.

(** ** Main loop *)

Lemma set_check_time_inv t R :
  T (Inv [] false true R) (set_rs (set_check_time t)) (fun _ => Inv [] false true R).
Proof.
  intros w [(H1 & H2 & H3) H4 H5 (m & Hm & E1 & E2 & E3 & E4 & E5)]. split; cbn; try done.
  - split_and!; try done. destruct H1. by split.
  - exists m. split_and!; try done. left. by apply E3.
Qed.

Lemma copy_cache_inv R :
  T (Inv [] false true R) copy_cache_state (fun c w => Inv [] false true R w /\ cache_ok c).
Proof.
  unfold copy_cache_state. eapply t_bind; [apply t_syscall|]. intros lock.
  apply (t_pure (answer_ok lock)); [tauto|]. intros Hok.
  eapply t_pre; [intros w [Hw _]; exact Hw|].
  destruct (a_ok lock); cbn [negb]; [|apply t_exit].
  eapply t_bind; [apply t_syscall|]. intros unlock. eapply t_pre; [intros w [Hw _]; exact Hw|].
  destruct (a_ok unlock); cbn [negb]; [|apply t_exit].
  eapply t_bind; [apply time_inv|]. intros t. eapply t_bind; [apply set_check_time_inv|].
  intros ?. apply t_ret. intros w Hw. split; [done|apply Hok].
Qed.

Lemma check_cache_inv :
  T (Inv [] false true None) (check_global_cache_state e) (fun _ => Inv [] false false None).
Proof.
  unfold check_global_cache_state. apply t_get. intros r. eapply t_pre; [intros w [Hw _]; exact Hw|].
  destruct (status r); [|apply t_exit]. eapply t_bind; [apply copy_cache_inv|]. intros c.
  apply (t_pure (cache_ok c)); [tauto|]. intros Hc. eapply t_pre; [intros w [Hw _]; exact Hw|].
  by apply (update_local_inv c true true None).
Qed.

(** The clock decides whether the cache state is looked at. *)
Lemma timer_inv :
  T (Inv [] false false None)
    (let* t := time_call in
     let* next := get_rs next_cache_state_check_time in
     if next <=? t then check_global_cache_state e else est_ret tt)
    (fun _ => Inv [] false false None).
Proof.
  unfold time_call. intros w Hw. pose proof (t_syscall [] false false None w Hw) as Hs.
  unfold est_bind. destruct (syscall w) as [w1 [x|a]]; [done|]. destruct Hs as [Hs _]. clear Hw w.
  cbn [emit est_modify est_ret get_rs est_gets]. cbn [rs].
  assert (Hnew : forall b, (b = true -> next_cache_state_check_time (rs w1) <= a_time a) ->
    Inv [] false b None (mkWorld (rs w1) (sock w1) (answers w1) (trace w1 ++ [EvTime (a_time a)]))).
  { intros b Hb. destruct Hs as [H1 H4 H5 (m & Hm & E1 & E2 & E3 & E4 & E5)]. split; try done.
    eexists. split; [eapply mrun_snoc; [exact Hm|apply M_time]|]. rewrite E2. cbn. split_and!; try done.
    - intros ->. specialize (Hb eq_refl). destruct E4 as [->|?]; [done|]. rewrite (proj2 (Z.leb_le _ _)) by lia. apply orb_true_r.
    - destruct E4 as [->|?]; [by left|by right]. }
  destruct (Z.leb_spec (next_cache_state_check_time (rs w1)) (a_time a)).
  - apply check_cache_inv. by apply Hnew.
  - by apply Hnew.
Qed.

Lemma set_recv_length_inv b R : T (Inv [] false b R) (set_rs (set_recv_length 0))
  (fun _ w => Inv [] false b R w /\ pdu_recv_buffer_length (rs w) = 0).
Proof.
  eapply t_pre; [intros w Hw; exact (conj Hw I)|].
  apply (t_set_fact _ (fun _ => True) (fun r => pdu_recv_buffer_length r = 0)); try done.
  intros r _ Hr. split; [|done]. apply ok_set_recv; [apply Hr|constructor|done|done].
Qed.

Lemma main_loop_inv :
  T (Inv [] false false None) (connection_main_loop e) (fun _ => Inv [] false false None).
Proof.
  unfold connection_main_loop, wait_on_semaphore.
  eapply (t_bind _ _ _ (fun _ => Inv [] false false None)).
  { eapply t_bind; [apply t_syscall|]. intros a. apply t_ret. tauto. }
  intros ok. destruct (negb ok); [apply t_exit|].
  eapply t_bind; [apply set_recv_length_inv|]. intros ?.
  eapply t_bind; [eapply t_pre; [|apply read_nonblock_inv]|].
  { intros w [Hw ->]. split; [exact Hw|done]. }
  intros got. eapply (t_bind _ _ _ (fun _ => Inv [] false false None)).
  { destruct got; [apply read_and_handle_inv|apply try_response_inv]. }
  intros ?. apply t_get. intros r. eapply t_pre; [intros w [Hw _]; exact Hw|].
  destruct (status r); [apply timer_inv|by apply t_ret].
Qed.

Lemma main_loops_inv n :
  T (Inv [] false false None) (main_loops e n) (fun _ => Inv [] false false None).
Proof.
  induction n as [|n IH]; cbn [main_loops]; [by apply t_ret|].
  eapply t_bind; [apply main_loop_inv|]. intros ?. exact IH.
Qed.
End invariant.
