(* ===== verification/ConnectionSpec.v ===== *)
(** * Theorems about connection threads

    What the monitor of [ConnectionFacts] means for a router: the bytes it
    receives are whole well-formed PDUs, requests and responses alternate,
    notifications are at least a minute apart. Also: queries are found in the
    byte stream however it is cut into pieces, and where clean-up goes wrong. *)

From S2P Require Import Prelude Pdu PduParse PduDump Sql RtrQuery CacheState Connection ConnectionFacts.
Local Open Scope est_scope.

(** ** Set-up *)

(** What a thread starts with: buffers of the declared sizes with any
    contents, bytes from the socket, answers with values of their types. *)
Definition start_ok (w : world) : Prop :=
  length (pdu_recv_buffer (rs w)) = 1024%nat /\ length (pdu_send_buffer (rs w)) = 1024%nat
  /\ length (pdu_request_buffer (rs w)) = 12%nat
  /\ bytes_ok (sock w) /\ Forall answer_ok (answers w) /\ trace w = [].

Definition set_up (args_ok : bool) : CX unit :=
  initialize_run_state args_ok ;;; initialize_data_structures_in_run_state.

Lemma mrun_start_time m t : mrun mon_start m mon_start -> mrun mon_start (m ++ [EvTime t]) mon_start.
Proof.
  intros H. eapply mrun_snoc; [exact H|]. pose proof (M_time mon_start t) as Ht. exact Ht.
Qed.

(** During set-up: what is fixed, and what holds of the fields set so far. *)
Definition setting_up (P : run_state -> Prop) (w : world) : Prop :=
  (length (pdu_recv_buffer (rs w)) = 1024%nat /\ length (pdu_send_buffer (rs w)) = 1024%nat
   /\ length (pdu_request_buffer (rs w)) = 12%nat)
  /\ bytes_ok (sock w) /\ Forall answer_ok (answers w) /\ mrun mon_start (trace w) mon_start /\ P (rs w).

Notation TS P m Q := (triple (setting_up P) m (fun a => setting_up (Q a)) (fun _ _ => True)).

Lemma su_set f (P Q : run_state -> Prop) :
  (forall r, length (pdu_recv_buffer (f r)) = length (pdu_recv_buffer r)
     /\ length (pdu_send_buffer (f r)) = length (pdu_send_buffer r)
     /\ length (pdu_request_buffer (f r)) = length (pdu_request_buffer r)) ->
  (forall r, P r -> Q (f r)) -> TS P (set_rs f) (fun _ => Q).
Proof.
  intros Hl HQ w ((H1 & H2 & H3) & H4 & H5 & H6 & H7). destruct (Hl (rs w)) as (L1 & L2 & L3).
  unfold setting_up. cbn [set_rs est_modify rs sock answers trace]. rewrite L1, L2, L3. auto 10.
Qed.

Lemma su_syscall P : TS P syscall (fun a r => P r /\ answer_ok a).
Proof.
  intros w (H1 & H4 & H5 & H6 & H7). unfold syscall. destruct (answers w) as [|a l]; [done|].
  apply Forall_cons in H5 as [Ha H5]. unfold setting_up. cbn [rs sock answers trace]. auto 10.
Qed.

Lemma su_time P : TS P time_call (fun _ => P).
Proof.
  unfold time_call. eapply triple_bind; [apply su_syscall|]. intros a w (H1 & H4 & H5 & H6 & H7 & _).
  unfold setting_up. cbn [emit est_modify est_bind est_ret rs sock answers trace].
  pose proof (mrun_start_time _ (a_time a) H6). auto 10.
Qed.

Lemma su_if {A} (b : bool) P (m : CX A) Q : TS P m Q -> TS P (if negb b then pthread_exit else m) Q.
Proof. intros H. destruct b; [exact H|done]. Qed.

Lemma set_up_inv args_ok w w1 :
  start_ok w -> set_up args_ok w = (w1, inr tt) ->
  Inv (local_cache_state (rs w1)) [] false false None w1.
Proof.
  intros (H1 & H2 & H3 & H4 & H5 & H6) E.
  set (P1 := fun r => cache_ok (local_cache_state r)).
  set (P2 := fun r => P1 r /\ status r = READY).
  set (P3 := fun r => P2 r /\ pdu_recv_buffer_length r = 0).
  set (P4 := fun r => P3 r /\ response r = None).
  set (P5 := fun r => P4 r /\ to_process_queue r = Some []).
  assert (HT : TS (fun _ => True) (set_up args_ok) (fun _ => P5)).
  { unfold set_up. eapply (triple_bind _ _ _ (fun _ => setting_up P4)).
    - unfold initialize_run_state. apply su_if.
      eapply (triple_bind _ _ _ (fun c => setting_up (fun _ => cache_ok c))).
      { unfold copy_cache_state. eapply triple_bind; [apply su_syscall|]. intros lock. apply su_if.
        eapply triple_bind; [apply su_syscall|]. intros unlock. apply su_if.
        eapply triple_bind; [apply su_time|]. intros t.
        eapply (triple_bind _ _ _ (fun _ => setting_up (fun _ => answer_ok lock))).
        { apply su_set; [done|]. by intros r [[_ H] _]. }
        intros ?. apply triple_ret. intros w' (A1 & A2 & A3 & A4 & A5 & _). unfold setting_up. auto 10. }
      intros c. eapply triple_bind; [by apply (su_set _ (fun _ => cache_ok c) P1)|]. intros ?.
      eapply triple_bind; [by apply (su_set _ P1 P2)|]. intros ?.
      eapply triple_bind; [by apply (su_set _ P2 P2)|]. intros ?.
      eapply triple_bind; [by apply (su_set _ P2 P3)|]. intros ?.
      eapply triple_bind; [by apply (su_set _ P3 P3)|]. intros ?.
      eapply triple_bind; [by apply (su_set _ P3 P3)|]. intros ?.
      eapply triple_bind; [by apply (su_set _ P3 P4)|]. intros ?.
      eapply triple_bind; [apply su_time|]. intros t. by apply su_set.
    - intros ?. unfold initialize_data_structures_in_run_state.
      eapply triple_bind; [apply su_syscall|]. intros a1. apply su_if.
      eapply triple_bind; [apply su_syscall|]. intros a2. apply su_if.
      apply su_set; [done|]. intros r [[H _] _]. by split. }
  specialize (HT w). rewrite E in HT. destruct HT as ((L1 & L2 & L3) & A1 & A2 & A3 & ((((B1 & B2) & B3) & B4) & B5)).
  { unfold setting_up. rewrite H6. pose proof (mrun_nil mon_start). auto 10. }
  split.
  - split_and!; try done. split; try done.
    + rewrite B3. constructor.
    + rewrite B3. done.
    + by exists [].
    + rewrite B2. done.
  - by rewrite B4.
  - done.
  - exists mon_start. split_and!; try done; [by left|]. unfold tracked. by rewrite B4, B2.
Qed.

(** ** What the monitor means *)

Definition writes (tr : list event) : list Z :=
  concat (omap (fun ev => match ev with EvWrite bs => Some bs | _ => None end) tr).
Definition sends (tr : list event) : list PDU :=
  omap (fun ev => match ev with EvSend p => Some p | _ => None end) tr.
Definition requests (tr : list event) : list db_query :=
  omap (fun ev => match ev with EvRequest q => Some q | _ => None end) tr.
Definition finals (tr : list event) : list db_response :=
  omap (fun ev => match ev with EvPop (Some r) => if resp_is_done r then Some r else None | _ => None end) tr.

Lemma writes_app a b : writes (a ++ b) = writes a ++ writes b.
Proof. unfold writes. by rewrite omap_app, concat_app. Qed.

(** The bytes written and those still pending are the PDUs sent. *)
Lemma mrun_stream tr m : mrun mon_start tr m ->
  Forall (fun p => wf_pdu p /\ length_ p <= MAX_PDU_SIZE) (sends tr)
  /\ writes tr ++ m_pending m = concat (pdu_bytes <$> sends tr).
Proof.
  induction 1 as [|tr m ev m' _ [IH1 IH2] Hst]; [by split; [constructor|]|].
  rewrite writes_app. unfold sends in *. rewrite omap_app, fmap_app, concat_app.
  destruct Hst as [m p Hp Hwf Hlen _|m bs rest Hp|m t|m q Hs|m|m r Hs]; cbn;
    rewrite ?app_nil_r; try (by split).
  - split; [apply Forall_app; split; [done|by apply Forall_singleton]|].
    rewrite Hp, app_nil_r in IH2. by rewrite IH2.
  - split; [done|]. rewrite <- app_assoc, <- Hp. done.
  - split; [done|]. by destruct (m_awaiting m).
Qed.

(** One request at a time. *)
Lemma mrun_requests tr m : mrun mon_start tr m ->
  length (requests tr) = (length (finals tr) + match m_status m with RESPONDING => 1 | READY => 0 end)%nat.
Proof.
  induction 1 as [|tr m ev m' _ IH Hst]; [done|].
  unfold requests, finals in *. rewrite !omap_app, !length_app.
  destruct Hst as [m p Hp Hwf Hlen _|m bs rest Hp|m t|m q Hs|m|m r Hs]; cbn; rewrite ?Nat.add_0_r; try done.
  - by destruct (m_awaiting m).
  - rewrite IH, Hs. lia.
  - rewrite IH, Hs. destruct r as [r|]; cbn; [|lia]. destruct (resp_is_done r); cbn; lia.
Qed.

(** Notifications. *)
Lemma mrun_app_inv m0 l1 l2 m : mrun m0 (l1 ++ l2) m -> exists m1, mrun m0 l1 m1 /\ mrun m1 l2 m.
Proof.
  revert m. induction l2 as [|ev l2 IH] using rev_ind; intros m H.
  { rewrite app_nil_r in H. exists m. split; [done|constructor]. }
  rewrite app_assoc in H. inversion H as [E|l' m' ev' m'' Hr Hs E]; [by apply (f_equal length) in E; rewrite length_app in E; cbn in E; lia|].
  apply app_inj_tail in E as [-> ->]. destruct (IH _ Hr) as (m1 & G1 & G2). exists m1.
  split; [done|by eapply mrun_snoc].
Qed.

Lemma mrun_cons_inv m0 ev l m : mrun m0 (ev :: l) m -> exists m1, mstep m0 ev m1 /\ mrun m1 l m.
Proof.
  intros H. destruct (mrun_app_inv m0 [ev] l m H) as (m1 & H1 & H2). exists m1. split; [|done].
  inversion H1 as [|l' m' ev' m'' Hr Hs E]. destruct l' as [|x l']; [|by destruct l'].
  injection E as ->. inversion Hr as [|l0 ? ? ? _ _ E0]; [by subst|by destruct l0].
Qed.

Definition not_time (ev : event) : Prop := match ev with EvTime _ => False | _ => True end.

(** After a notification the clock is read, and the deadline counts from there. *)
Lemma mrun_awaiting l : forall m m', mrun m l m' -> m_awaiting m = true -> m_awaiting m' = false ->
  exists a t b m1, l = a ++ EvTime t :: b /\ Forall not_time a /\ mrun m1 b m'
    /\ m_deadline m1 = t + CXN_NOTIFY_INTERVAL /\ m_passed m1 = false /\ m_awaiting m1 = false.
Proof.
  induction l as [|ev l IH]; intros m m' H Ha Ha'.
  { inversion H as [|l' ? ? ? _ _ E]; [congruence|by destruct l']. }
  apply mrun_cons_inv in H as (m1 & Hs & H).
  assert (Hcont : not_time ev -> m_awaiting m1 = true -> exists a t b m2, ev :: l = a ++ EvTime t :: b
     /\ Forall not_time a /\ mrun m2 b m' /\ m_deadline m2 = t + CXN_NOTIFY_INTERVAL /\ m_passed m2 = false
     /\ m_awaiting m2 = false).
  { intros Hnt Ha1. destruct (IH m1 m' H Ha1 Ha') as (a & t & b & m2 & -> & Hn & Hr).
    exists (ev :: a), t, b, m2. split; [done|]. split; [by constructor|done]. }
  destruct Hs as [m p Hp Hwf Hlen Hn|m bs rest Hp|m t|m q Hs|m|m r Hs]; try (by apply Hcont).
  - apply Hcont; [done|]. cbn. by rewrite Ha.
  - rewrite Ha in H. exists [], t, l. eexists. split_and!; [done|constructor|exact H|done..].
Qed.

(** A notification needs a reading of the clock at or after the deadline. *)
Lemma mrun_deadline l : forall m m', mrun m l m' -> m_passed m = false -> m_awaiting m = false ->
  m_passed m' = true -> exists t, EvTime t ∈ l /\ m_deadline m <= t.
Proof.
  induction l as [|ev l IH]; intros m m' H Hp Ha Hp'.
  { inversion H as [|l' ? ? ? _ _ E]; [congruence|by destruct l']. }
  apply mrun_cons_inv in H as (m1 & Hs & H).
  assert (Hcont : m_passed m1 = false -> m_awaiting m1 = false -> m_deadline m1 = m_deadline m ->
    exists t, EvTime t ∈ ev :: l /\ m_deadline m <= t).
  { intros H1 H2 H3. destruct (IH m1 m' H H1 H2 Hp') as (t & Ht & Hle). exists t. split; [by right|lia]. }
  destruct Hs as [m p Hpe Hwf Hlen Hn|m bs rest Hpe|m t|m q Hs|m|m r Hs]; try (by apply Hcont).
  - destruct (is_notify p) eqn:En; [destruct (Hn eq_refl); congruence|]. apply Hcont; [done|cbn|done]. by rewrite Ha.
  - rewrite Ha in H. rewrite Ha in Hcont. cbn in Hcont. rewrite Hp in Hcont. cbn in Hcont.
    destruct (Z.leb_spec (m_deadline m) t); [exists t; split; [by left|done]|by apply Hcont].
Qed.

Lemma mrun_notify tr m l1 p1 l2 p2 l3 :
  mrun mon_start tr m -> tr = l1 ++ EvSend p1 :: l2 ++ EvSend p2 :: l3 ->
  is_notify p1 = true -> is_notify p2 = true ->
  exists a t1 b t2, l2 = a ++ EvTime t1 :: b /\ Forall not_time a /\ EvTime t2 ∈ b
    /\ t1 + CXN_NOTIFY_INTERVAL <= t2.
Proof.
  intros H -> H1 H2. apply mrun_app_inv in H as (ma & _ & H). apply mrun_cons_inv in H as (mb & Hs1 & H).
  apply mrun_app_inv in H as (mc & H & H'). apply mrun_cons_inv in H' as (md & Hs2 & _).
  assert (Hb : m_awaiting mb = true) by (inversion Hs1; cbn; rewrite H1; apply orb_true_r).
  assert (Hc : m_passed mc = true /\ m_awaiting mc = false) by (inversion Hs2; auto).
  destruct (mrun_awaiting l2 mb mc H Hb (proj2 Hc)) as (a & t1 & b & m1 & -> & Hn & Hr & Hd & Hp & Ha).
  destruct (mrun_deadline b m1 mc Hr Hp Ha (proj1 Hc)) as (t2 & Ht & Hle).
  exists a, t1, b, t2. rewrite <- Hd. done.
Qed.

(** ** Runs of a thread *)

Lemma thread_inv e args_ok n w0 w1 :
  start_ok w0 -> set_up args_ok w0 = (w1, inr tt) ->
  match main_loops e n w1 with
  | (w2, inr _) => Inv (local_cache_state (rs w1)) [] false false None w2
  | (w2, inl x) => InvX (local_cache_state (rs w1)) x w2
  end.
Proof. intros H0 H1. apply main_loops_inv. by eapply set_up_inv. Qed.

Lemma thread_mon e args_ok n w0 w1 w2 res :
  start_ok w0 -> set_up args_ok w0 = (w1, inr tt) -> main_loops e n w1 = (w2, res) ->
  res <> inl CxnUndefined /\ rtc cache_step (local_cache_state (rs w1)) (local_cache_state (rs w2))
  /\ exists m, mrun mon_start (trace w2) m /\ m_status m = tracked (rs w2)
     /\ (res = inr tt -> m_pending m = [] /\ m_status m = status (rs w2)).
Proof.
  intros H0 H1 E. pose proof (thread_inv e args_ok n w0 w1 H0 H1) as H. rewrite E in H.
  destruct res as [x|u].
  - destruct H as [Hx _ Hl _ (m & Hm & Hs)]. split_and!; [congruence|done|]. by exists m.
  - destruct H as [_ [Hr _] Hl (m & Hm & E1 & E2 & _ & _ & E5)]. split_and!; [done..|]. exists m.
    split_and!; try done. intros _. split; [done|]. rewrite E5. unfold tracked. by rewrite Hr.
Qed.

(** ** Finding a PDU in the byte stream *)

(** Reads that fail may be repeated; one that succeeds brings data, and at
    least [n] of them succeed. *)
Definition progress (n : nat) (an : list answer) : Prop :=
  Forall (fun a => a_ok a = true -> (0 < a_num a)%nat) an
  /\ (n <= length (List.filter a_ok an))%nat.

(** [k] bytes of [p] have been read, [rest] follows it. *)
Definition reading (p : PDU) (k : nat) (rest : list Z) (w : world) : Prop :=
  rs_ok (rs w) /\ pdu_recv_buffer_length (rs w) = Z.of_nat k
  /\ take k (pdu_recv_buffer (rs w)) = take k (pdu_bytes p) /\ (k <= length (pdu_bytes p))%nat
  /\ sock w = drop k (pdu_bytes p) ++ rest.

(** The length field of an encoding. *)
Lemma prefix_length_field p k : wf_pdu p -> (8 <= k)%nat ->
  be_val (slice 4 4 (take k (pdu_bytes p))) = length_ p.
Proof.
  intros Hwf Hk. unfold slice. rewrite skipn_firstn_comm, take_take.
  assert (Hl : uint_ok 32 (length_ p)) by apply Hwf. unfold pdu_bytes.
  assert (H2 : length (be_bytes 2 (sessionId p)) = 2%nat) by apply length_be_bytes.
  destruct (be_bytes 2 (sessionId p)) as [|a [|b [|]]]; try done.
  replace (drop 4 _) with (be_bytes 4 (length_ p) ++ body_bytes (pduType p) (body p)) by done.
  replace (Nat.min 4 (k - 4)) with 4%nat by lia.
  rewrite take_app_length' by (symmetry; apply length_be_bytes). apply be_val_be_bytes. apply Hl.
Qed.

Lemma reading_parse p k rest w : wf_pdu p -> reading p k rest w ->
  exists c q, parse_recv w = (mkWorld (set_recv_pdu q (rs w)) (sock w) (answers w) (trace w), inr c)
    /\ ((k < length (pdu_bytes p))%nat -> c = PDU_TRUNCATED /\ ((8 <= k)%nat -> length_ q = length_ p))
    /\ (k = length (pdu_bytes p) -> c = pdu_status p /\ pdu_eqv q p).
Proof.
  intros Hwf (Hr & Hk & Ht & Hle & _). unfold parse_recv, get_rs, est_bind, est_gets, id. cbv beta iota.
  rewrite Hk, Nat2Z.id, Ht.
  destruct (decide (k < length (pdu_bytes p))%nat) as [Hlt|Hge].
  - destruct (parse_pdu_prefix p (recv_pdu (rs w)) k Hwf Hlt) as [q E]. rewrite E.
    exists PDU_TRUNCATED, q. split_and!; [done| |lia]. intros _. split; [done|]. intros H8.
    assert (Hok : bytes_ok (take k (pdu_bytes p))) by (apply bytes_ok_take, pdu_bytes_ok, Hwf).
    destruct (parse_outcome_of _ _ _ _ Hok E) as [(_ & Hs & _)|[(_ & [H|[H _]])|H]]; [|rewrite length_take in H; lia| |done].
    + exfalso. revert Hs. unfold pdu_status. by destruct (_ || _).
    + rewrite H. by apply prefix_length_field.
  - destruct (parse_pdu_complete p (recv_pdu (rs w)) [] Hwf) as (q & E & Hq). rewrite app_nil_r in E.
    rewrite take_ge by lia. rewrite E. exists (pdu_status p), q. split_and!; [done|lia|done].
Qed.

(** One successful or failing read. *)
Lemma reading_read p k rest w count a an : wf_pdu p -> length_ p <= MAX_PDU_SIZE ->
  reading p k rest w -> answers w = a :: an -> (a_ok a = true -> (0 < a_num a)%nat) ->
  0 < count -> Z.of_nat k + count <= length_ p ->
  exists n w', read_call count w = (w', inr (if a_ok a then Some (Z.of_nat n) else None))
    /\ (a_ok a = true -> (0 < n)%nat /\ Z.of_nat n <= count) /\ (a_ok a = false -> n = 0%nat)
    /\ reading p (k + n) rest w' /\ answers w' = an /\ trace w' = trace w.
Proof.
  intros Hwf Hmax (Hr & Hk & Ht & Hle & Hsock) Ea Hnum Hc Hkc.
  pose proof (pdu_bytes_length p Hwf) as Hl. pose proof (ok_recv _ Hr) as Hrl. unfold MAX_PDU_SIZE in Hmax.
  unfold read_call, syscall, get_rs, est_bind, est_gets, id. rewrite Ea. cbv beta iota. cbn [rs sock].
  rewrite (proj2 (Z.ltb_ge _ _)) by (unfold MAX_PDU_SIZE; lia).
  destruct (a_ok a); cbn [negb]; cbv beta iota.
  2: { exists 0%nat. eexists. split_and!; try done. by rewrite Nat.add_0_r. }
  specialize (Hnum eq_refl). set (n := Nat.min (a_num a) (Z.to_nat count)).
  assert (Hn : (0 < n)%nat /\ Z.of_nat n <= count) by lia.
  assert (Hbs : take n (sock w) = take n (drop k (pdu_bytes p))).
  { rewrite Hsock, take_app_le; [done|]. rewrite length_drop. lia. }
  assert (Hlen : length (take n (sock w)) = n) by (rewrite Hbs, length_take, length_drop; lia).
  exists n. eexists. rewrite Hlen. split_and!; try done. unfold reading. cbn [rs sock est_modify].
  split_and!; try done.
  - cbn [rs]. rewrite <- Hlen at 2. apply recv_append; [done| |rewrite Hlen; unfold MAX_PDU_SIZE; lia].
    rewrite Hbs. apply Forall_take, Forall_drop. by apply pdu_bytes_ok.
  - cbn. rewrite Hk. lia.
  - cbn. rewrite Hk, Nat2Z.id, Hbs. unfold blit. rewrite app_assoc.
    assert (Hlk : length (take k (pdu_recv_buffer (rs w))) = k) by (rewrite length_take; lia).
    rewrite take_app_le by (rewrite length_app, Hlk, length_take, length_drop; lia).
    rewrite take_ge by (rewrite length_app, Hlk, length_take, length_drop; lia).
    rewrite Ht. apply take_take_drop.
  - lia.
  - rewrite Hsock. rewrite drop_app_le by (rewrite length_drop; lia). by rewrite drop_drop.
Qed.

Lemma progress_step n a an : progress (S n) (a :: an) ->
  (a_ok a = true -> (0 < a_num a)%nat)
  /\ progress (if a_ok a then n else S n) an.
Proof.
  intros [H1 H2]. apply Forall_cons in H1 as [Ha H1]. split; [done|]. split; [done|].
  cbn [List.filter] in H2. destruct (a_ok a); cbn [length] in H2; lia.
Qed.

Lemma progress_le n n' an : (n' <= n)%nat -> progress n an -> progress n' an.
Proof. intros Hle [H1 H2]. split; [done|lia]. Qed.

Lemma reading_set_pdu p k rest w q : reading p k rest w ->
  reading p k rest (mkWorld (set_recv_pdu q (rs w)) (sock w) (answers w) (trace w)).
Proof. intros (H1 & H2 & H3 & H4 & H5). split_and!; try done. by apply ok_set_recv_pdu. Qed.

(** The blocking read gets everything up to byte [t]; a reserve of answers is
    left for what follows. *)
Lemma read_block_reads e p rest t more : wf_pdu p -> length_ p <= MAX_PDU_SIZE -> (t <= length (pdu_bytes p))%nat ->
  forall fuel an k n w, reading p k rest w -> answers w = an ++ more -> (length an <= fuel)%nat ->
  progress (t - k + n) an ->
  exists w' an', read_block e fuel (Z.of_nat t - Z.of_nat k) w = (w', inr tt)
    /\ reading p (Nat.max k t) rest w' /\ answers w' = an' ++ more /\ progress n an' /\ trace w' = trace w.
Proof.
  intros Hwf Hmax Ht. pose proof (pdu_bytes_length p Hwf) as Hl.
  induction fuel as [|fuel IH]; intros an k n w Hw Ea Hf Hp; cbn [read_block];
    destruct (Z.leb_spec (Z.of_nat t - Z.of_nat k) 0) as [Hz|Hz].
  1,3: exists w, an; rewrite Nat.max_l by lia; split_and!; try done; by eapply progress_le; [|done]; lia.
  { destruct an; [|cbn in Hf; lia]. destruct Hp as [_ Hp]. cbn in Hp. lia. }
  destruct (reading_parse p k rest w Hwf Hw) as (c & q & E & Hc & _).
  destruct Hc as [-> _]; [lia|]. unfold est_bind at 1. rewrite E. cbv beta iota.
  replace (zin PDU_TRUNCATED [PDU_GOOD; PDU_WARNING]) with false by done.
  replace (negb (PDU_TRUNCATED =? PDU_TRUNCATED)) with false by done. cbv iota.
  apply (reading_set_pdu _ _ _ _ q) in Hw. set (w1 := mkWorld _ _ _ _) in *.
  destruct an as [|a an]; [destruct Hp as [_ Hp]; cbn in Hp; lia|].
  destruct (t - k)%nat as [|d] eqn:Ed; [lia|]. apply (progress_step (d + n)) in Hp as [Ha Hp].
  destruct (reading_read p k rest w1 (Z.of_nat t - Z.of_nat k) a (an ++ more) Hwf Hmax Hw Ea Ha) as
    (m & w2 & E2 & Hm1 & Hm2 & Hw2 & Ea2 & Et2); [lia..|].
  unfold est_bind. rewrite E2. cbn [length] in Hf. destruct (a_ok a); cbv beta iota.
  - destruct (Hm1 eq_refl) as [Hpos Hle]. destruct (Z.eqb_spec (Z.of_nat m) 0) as [?|_]; [lia|].
    destruct (IH an (k + m)%nat n w2 Hw2 Ea2) as (w' & an' & E3 & H3 & H4 & H5 & H6); [lia| |].
    { eapply progress_le; [|exact Hp]. lia. }
    replace (Z.of_nat t - Z.of_nat (k + m)) with (Z.of_nat t - Z.of_nat k - Z.of_nat m) in E3 by lia.
    exists w', an'. rewrite E3. split_and!; try done; [|by rewrite H6].
    by replace (Nat.max k t) with (Nat.max (k + m) t) by lia.
  - rewrite (Hm2 eq_refl), Nat.add_0_r in Hw2. 
    destruct (IH an k n w2 Hw2 Ea2) as (w' & an' & E3 & H3 & H4 & H5 & H6); [lia|by rewrite Ed|].
    exists w', an'. rewrite E3. split_and!; try done. by rewrite H6.
Qed.

Lemma fuel_enough (l : list answer) an more : l = an ++ more -> (length an <= S (length l))%nat.
Proof. intros ->. rewrite length_app. lia. Qed.

(** A PDU of which [k] bytes have been read is parsed whole. *)
Lemma read_and_parse_reads e p k rest an more w :
  wf_pdu p -> length_ p <= MAX_PDU_SIZE -> (k <= 8)%nat -> reading p k rest w ->
  answers w = an ++ more -> progress (length (pdu_bytes p) - k) an ->
  exists w' an', read_and_parse_pdu e w = (w', inr (pdu_status p)) /\ pdu_eqv (recv_pdu (rs w')) p
    /\ sock w' = rest /\ answers w' = an' ++ more /\ trace w' = trace w.
Proof.
  intros Hwf Hmax Hk Hw Ea Hp. pose proof (pdu_bytes_length p Hwf) as Hl.
  assert (H8 : (8 <= length (pdu_bytes p))%nat).
  { pose proof (prefix_length_field). unfold pdu_bytes. rewrite !length_app, !length_be_bytes. cbn. lia. }
  unfold read_and_parse_pdu. destruct (reading_parse p k rest w Hwf Hw) as (c & q & E & Hc1 & Hc2).
  assert (Hne : PDU_IS_ERROR c = false).
  { destruct (decide (k < length (pdu_bytes p))%nat); [by rewrite (proj1 (Hc1 l))|].
    destruct Hc2 as [-> _]; [lia|]. apply pdu_status_not_error. }
  rewrite (bind_val _ _ _ _ _ E), Hne. cbv iota. apply (reading_set_pdu _ _ _ _ q) in Hw.
  set (w1 := mkWorld _ _ _ _) in *. assert (Ea1 : answers w1 = an ++ more) by done.
  assert (Et1 : trace w1 = trace w) by done. clearbody w1.
  erewrite bind_val by reflexivity. erewrite bind_val by reflexivity.
  destruct (read_block_reads e p rest 8 more Hwf Hmax H8 (S (length (answers w1))) an k
              (length (pdu_bytes p) - 8) w1 Hw Ea1) as (w2 & an2 & E2 & Hw2 & Ea2 & Hp2 & Et2);
    [by eapply fuel_enough|eapply progress_le; [|done]; lia|].
  rewrite Nat.max_r in Hw2 by done. destruct Hw as (_ & Hk1 & _). rewrite Hk1.
  change PDU_HEADER_LENGTH with (Z.of_nat 8). rewrite (bind_val _ _ _ _ _ E2).
  destruct (reading_parse p 8 rest w2 Hwf Hw2) as (c3 & q3 & E3 & Hd1 & Hd2). rewrite (bind_val _ _ _ _ _ E3).
  apply (reading_set_pdu _ _ _ _ q3) in Hw2. set (w3 := mkWorld _ _ _ _) in *.
  assert (Eq3 : recv_pdu (rs w3) = q3) by done. assert (Ea3 : answers w3 = an2 ++ more) by done.
  assert (Et3 : trace w3 = trace w) by (cbn; congruence). clearbody w3.
  destruct (decide (length (pdu_bytes p) = 8%nat)) as [Hl8|Hl8].
  { destruct Hd2 as [-> Hq]; [done|]. rewrite (proj2 (Z.eqb_neq _ _)).
    2: { unfold pdu_status. by destruct (_ || _). }
    exists w3, an2. rewrite Eq3. split_and!; try done. destruct Hw2 as (_ & _ & _ & _ & ->).
    by rewrite drop_ge by lia. }
  destruct Hd1 as [-> Hlen]; [lia|]. specialize (Hlen ltac:(lia)). rewrite Z.eqb_refl.
  erewrite bind_val by reflexivity. rewrite Eq3, Hlen, (proj2 (Z.ltb_ge _ _)) by done.
  erewrite bind_val by reflexivity. erewrite bind_val by reflexivity.
  destruct (read_block_reads e p rest (length (pdu_bytes p)) more Hwf Hmax (Nat.le_refl _)
    (S (length (answers w3))) an2 8 0 w3 Hw2 Ea3) as (w4 & an4 & E4 & Hw4 & Ea4 & _ & Et4);
    [by eapply fuel_enough|by rewrite Nat.add_0_r|].
  destruct Hw2 as (_ & Hk3 & _). rewrite Hk3, <- Hl, (bind_val _ _ _ _ _ E4).
  rewrite Nat.max_r in Hw4 by lia.
  destruct (reading_parse p _ rest w4 Hwf Hw4) as (c5 & q5 & E5 & _ & Hf). destruct Hf as [-> Hq]; [done|].
  rewrite E5. eexists _, an4. split_and!; [done|done| |done|cbn; congruence].
  destruct Hw4 as (_ & _ & _ & _ & Es). cbn [sock]. by rewrite Es, drop_ge by lia.
Qed.

(** ** Delivering a response *)

(** Calls succeed and move data, at least [n] of them. *)
Definition steady (n : nat) (an : list answer) : Prop :=
  Forall (fun a => a_ok a = true /\ (0 < a_num a)%nat) an /\ (n <= length an)%nat.

Lemma steady_le n n' an : (n' <= n)%nat -> steady n an -> steady n' an.
Proof. intros Hle [H1 H2]. split; [done|lia]. Qed.

Lemma steady_cons n an : steady (S n) an ->
  exists a an', an = a :: an' /\ a_ok a = true /\ (0 < a_num a)%nat /\ steady n an'.
Proof.
  intros [H1 H2]. destruct an as [|a an]; [cbn in H2; lia|]. apply Forall_cons in H1 as [[Ha1 Ha2] H1].
  exists a, an. cbn [length] in H2. split_and!; [done..|]. split; [done|lia].
Qed.

(** [evs] writes [bs] and does nothing else. *)
Definition only_writes (bs : list Z) (evs : list event) : Prop :=
  writes evs = bs /\ sends evs = [] /\ requests evs = [].

Lemma write_loop_delivers more : forall fuel pend n an w,
  at_buffer pend (rs w) -> answers w = an ++ more -> steady (length pend + n) an -> (length pend <= fuel)%nat ->
  exists evs an', write_loop fuel (Z.of_nat (length pend)) w
      = (mkWorld (rs w) (sock w) (an' ++ more) (trace w ++ evs), inr tt)
    /\ only_writes pend evs /\ steady n an'.
Proof.
  induction fuel as [|fuel IH]; intros pend n an w Hb Ea Hst Hf; cbn [write_loop];
    destruct (Z.leb_spec (Z.of_nat (length pend)) 0) as [Hz|Hz]; try lia.
  1,2: destruct pend; [|cbn in Hz; lia]; exists [], an; rewrite app_nil_r, <- Ea; destruct w; split_and!; done.
  destruct pend as [|x pend0] eqn:Ep; [cbn in Hz; lia|]. rewrite <- Ep in *.
  assert (Hlp : length pend = S (length pend0)) by (by rewrite Ep).
  rewrite Hlp in Hst. apply (steady_cons (length pend0 + n)) in Hst as (a & an' & -> & Ha & Hn & Hst).
  rewrite (bind_val _ _ w (mkWorld (rs w) (sock w) (an' ++ more) (trace w)) a) by (unfold syscall; by rewrite Ea).
  rewrite Ha. cbn [negb]. set (m := Z.min (Z.of_nat (a_num a)) (Z.of_nat (length pend))).
  set (k := Z.to_nat m). assert (Hk : (0 < k <= length pend)%nat) by lia.
  destruct (at_buffer_split pend k (rs w) Hb ltac:(lia)) as [Es Hb'].
  erewrite bind_val by reflexivity. cbn [rs]. fold k. rewrite Es.
  erewrite bind_val by reflexivity. cbn [rs sock answers trace].
  destruct (IH (drop k pend) n an' (mkWorld (rs w) (sock w) (an' ++ more) (trace w ++ [EvWrite (take k pend)])))
    as (evs & an2 & E & (W1 & W2 & W3) & Hst2); [done|done| |rewrite length_drop; lia|].
  { eapply steady_le; [|done]. rewrite length_drop. lia. }
  replace (Z.of_nat (length (drop k pend))) with (Z.of_nat (length pend) - m) in E by (rewrite length_drop; lia).
  rewrite E. exists (EvWrite (take k pend) :: evs), an2. cbn [rs sock trace]. rewrite <- app_assoc.
  split_and!; [done| |done]. split_and!; [|done..].
  change (writes (EvWrite (take k pend) :: evs)) with (take k pend ++ writes evs). by rewrite W1, take_drop.
Qed.

Lemma send_pdu_delivers e p more n an w :
  rs_ok (rs w) -> wf_pdu p -> length_ p <= MAX_PDU_SIZE -> answers w = an ++ more ->
  steady (length (pdu_bytes p) + n) an ->
  exists buf evs an', send_pdu e (Some p) w
      = (mkWorld (set_send buf (length_ p) (rs w)) (sock w) (an' ++ more) (trace w ++ EvSend p :: evs), inr tt)
    /\ length buf = 1024%nat /\ only_writes (pdu_bytes p) evs /\ steady n an'.
Proof.
  intros Hr Hwf Hmax Ea Hst. pose proof (ok_send _ Hr) as Hbuf. pose proof (pdu_bytes_length p Hwf) as Hl.
  unfold MAX_PDU_SIZE in *. unfold send_pdu. erewrite bind_val by reflexivity.
  unfold MAX_PDU_SIZE. rewrite dump_pdu_complete by (done || lia).
  set (buf := pdu_bytes p ++ _).
  assert (Hlen : length buf = 1024%nat) by (unfold buf; rewrite length_app, length_drop; lia).
  erewrite bind_val by reflexivity. rewrite (proj2 (Z.ltb_ge _ _)) by lia.
  erewrite bind_val by reflexivity. erewrite bind_val by reflexivity. erewrite bind_val by reflexivity.
  cbn [rs sock answers trace].
  set (w1 := mkWorld _ _ _ _).
  destruct (write_loop_delivers more (S (length (answers w))) (pdu_bytes p) n an w1) as (evs & an' & E & Hw & Hst');
    [|done|done|destruct Hst as [_ Hst]; rewrite Ea, length_app; lia|].
  { unfold at_buffer. cbn [rs w1 pdu_send_buffer_length pdu_send_buffer set_send]. rewrite Hl, Z.sub_diag. split; [|lia].
    unfold buf. by apply slice_prefix. }
  rewrite <- Hl, E. exists buf, evs, an'. cbn [rs w1 sock trace]. rewrite Hl, <- app_assoc. done.
Qed.

(** What the router is shown of [p], and whether [p] ends the connection. *)
Definition shown (r : run_state) (p : PDU) : PDU := default p (with_request r p).
Definition fatal (p : PDU) : bool := (pduType p =? PDU_ERROR_REPORT) && ERR_IS_FATAL (sessionId p).

(** What sending PDUs leaves alone. *)
Definition kept (r r' : run_state) : Prop :=
  rs_ok r' /\ cs_session (local_cache_state r') = cs_session (local_cache_state r) /\ status r' = status r
  /\ response r' = response r /\ to_process_queue r' = to_process_queue r
  /\ pdu_request_buffer r' = pdu_request_buffer r
  /\ pdu_request_buffer_length r' = pdu_request_buffer_length r
  /\ (borrowed r = None -> borrowed r' = None).

Lemma kept_refl r : rs_ok r -> kept r r.
Proof. intros Hr. by unfold kept. Qed.

Lemma kept_trans r1 r2 r3 : kept r1 r2 -> kept r2 r3 -> kept r1 r3.
Proof.
  intros (_ & A1 & A2 & A3 & A4 & A5 & A6 & A7) (H & B1 & B2 & B3 & B4 & B5 & B6 & B7).
  unfold kept. split_and!; auto; congruence.
Qed.

Lemma shown_kept r r' p : kept r r' -> shown r' p = shown r p.
Proof. intros (_ & _ & _ & _ & _ & H1 & H2 & _). unfold shown, with_request. by rewrite H1, H2. Qed.

(** A PDU a response may carry on this connection. *)
Definition deliverable (r : run_state) (p : PDU) : Prop :=
  wf_pdu p /\ length_ p <= MAX_PDU_SIZE /\ length_ (shown r p) <= MAX_PDU_SIZE
  /\ (pduType p = PDU_END_OF_DATA -> sessionId p = cs_session (local_cache_state r)).

Lemma deliverable_kept r r' p : kept r r' -> deliverable r p -> deliverable r' p.
Proof.
  intros Hk (H1 & H2 & H3 & H4). unfold deliverable. rewrite (shown_kept r r') by done.
  destruct Hk as (_ & Hs & _). rewrite Hs. done.
Qed.

(** The end of the data brings the local cache state up to date. *)
Lemma end_of_data_kept e p w : rs_ok (rs w) -> deliverable (rs w) p ->
  exists r', (if pduType p =? PDU_END_OF_DATA
              then update_local_cache_state e (mkCache true (sessionId p) (serialNumber p)) false
              else est_ret tt) w = (mkWorld r' (sock w) (answers w) (trace w), inr tt) /\ kept (rs w) r'.
Proof.
  intros Hr (Hwf & _ & _ & Hs). destruct (Z.eqb_spec (pduType p) PDU_END_OF_DATA) as [Et|].
  2: exists (rs w); split; [by destruct w|by apply kept_refl].
  unfold update_local_cache_state. erewrite bind_val by reflexivity. cbn [cs_session data_available negb].
  rewrite (Hs Et), Z.eqb_refl. cbn [negb]. destruct (_ || _).
  2: exists (rs w); split; [by destruct w|by apply kept_refl].
  erewrite bind_val by reflexivity. eexists. split; [done|]. unfold kept. split_and!; try done.
  pose proof (ok_cache _ Hr) as Hc. destruct Hr. split; try done. split; [apply Hc|]. cbn. unfold serialNumber.
  destruct Hwf as (_ & _ & _ & _ & Hb). rewrite Et in Hb. destruct (body p); try (by destruct Hb); cbn in *; try (by split). tauto.
Qed.

Lemma kept_send buf n r : length buf = 1024%nat -> rs_ok r -> kept r (set_send buf n r).
Proof. intros Hl Hr. unfold kept. split_and!; try done. by apply ok_set_send. Qed.

(** One PDU of a response is shown to the router. *)
Lemma show_delivers e p more n an i w :
  rs_ok (rs w) -> status (rs w) = RESPONDING -> deliverable (rs w) p -> answers w = an ++ more ->
  steady (length (pdu_bytes (shown (rs w) p)) + n) an ->
  exists r' evs an', match with_request (rs w) p with
      | Some p' => set_rs (set_borrowed (Some i)) ;;; send_pdu e (Some p') ;;; set_rs (set_borrowed None)
      | None => send_pdu e (Some p)
      end w = (mkWorld r' (sock w) (an' ++ more) (trace w ++ EvSend (shown (rs w) p) :: evs), inr tt)
    /\ kept (rs w) r' /\ only_writes (pdu_bytes (shown (rs w) p)) evs /\ steady n an'.
Proof.
  intros Hr Hst (Hwf & Hmax & Hmax' & _) Ea Hs. unfold shown in *.
  destruct (with_request (rs w) p) as [p'|] eqn:Ew; cbn [default] in *.
  - destruct (with_request_wf (rs w) p p' Hwf Hmax (ok_request_len _ Hr Hst) (ok_request _ Hr) Ew) as [Hwf' _].
    erewrite bind_val by reflexivity.
    destruct (send_pdu_delivers e p' more n an (mkWorld (set_borrowed (Some i) (rs w)) (sock w) (answers w) (trace w)))
      as (buf & evs & an' & E & Hlen & Hw & Hst'); [by destruct Hr; split|done..|].
    rewrite (bind_val _ _ _ _ _ E). eexists _, evs, an'. split; [done|]. split; [|done].
    cbn [rs]. unfold kept. split_and!; try done. by destruct Hr; split.
  - destruct (send_pdu_delivers e p more n an w) as (buf & evs & an' & E & Hlen & Hw & Hst'); [done..|].
    rewrite E. eexists _, evs, an'. split; [done|]. split; [by apply kept_send|done].
Qed.

Definition wire (r : run_state) (l : list PDU) : list Z := concat (pdu_bytes <$> (shown r <$> l)).

Lemma wire_kept r r' l : kept r r' -> wire r' l = wire r l.
Proof. intros Hk. unfold wire. f_equal. f_equal. apply list_fmap_ext. intros ? p _. by apply shown_kept. Qed.

Lemma send_pdus_delivers e more l : forall i stop n an w,
  rs_ok (rs w) -> status (rs w) = RESPONDING -> Forall (deliverable (rs w)) l -> answers w = an ++ more ->
  steady (length (wire (rs w) l) + n) an ->
  exists r' evs an', send_pdus e l i stop w
      = (mkWorld r' (sock w) (an' ++ more) (trace w ++ evs), inr (stop || existsb fatal l))
    /\ kept (rs w) r' /\ sends evs = shown (rs w) <$> l /\ writes evs = wire (rs w) l /\ requests evs = []
    /\ steady n an'.
Proof.
  induction l as [|p l IH]; intros i stop n an w Hr Hs Hl Ea Hst; cbn [send_pdus].
  { exists (rs w), [], an. rewrite app_nil_r, <- Ea, orb_false_r. split_and!; try done; by destruct w. }
  apply Forall_cons in Hl as [Hp Hl].
  destruct (end_of_data_kept e p w Hr Hp) as (r1 & E1 & K1). rewrite (bind_val _ _ _ _ _ E1).
  erewrite bind_val by reflexivity. cbn [rs id].
  assert (Hlen : length (wire (rs w) (p :: l)) = (length (pdu_bytes (shown (rs w) p)) + length (wire (rs w) l))%nat)
    by (unfold wire; cbn [fmap list_fmap concat]; apply length_app).
  rewrite Hlen, <- Nat.add_assoc in Hst.
  destruct (show_delivers e p more (length (wire (rs w) l) + n) an i (mkWorld r1 (sock w) (answers w) (trace w)))
    as (r2 & evs & an' & E2 & K2 & (W1 & W2 & W3) & Hst2);
    [apply K1|cbn; by rewrite (proj1 (proj2 (proj2 K1)))|by eapply deliverable_kept|done|
     cbn [rs]; by rewrite (shown_kept _ _ _ K1)|].
  cbn [rs] in *. rewrite (bind_val _ _ _ _ _ E2). cbn [sock trace]. pose proof (kept_trans _ _ _ K1 K2) as K3.
  destruct (IH (S i) (stop || fatal p) n an' (mkWorld r2 (sock w) (an' ++ more) (trace w ++ EvSend (shown r1 p) :: evs)))
    as (r3 & evs3 & an3 & E3 & K4 & V1 & V2 & V3 & Hst3);
    [apply K3|cbn; by rewrite (proj1 (proj2 (proj2 K3)))| |done|cbn [rs]; by rewrite (wire_kept _ _ _ K3)|].
  { eapply Forall_impl; [exact Hl|]. intros x Hx. by eapply deliverable_kept. }
  unfold fatal in E3. rewrite E3. cbn [rs sock trace] in *. exists r3, (EvSend (shown r1 p) :: evs ++ evs3), an3.
  rewrite <- app_assoc. cbn [app existsb]. unfold fatal at 2. rewrite orb_assoc. split; [done|].
  split; [by eapply kept_trans|]. rewrite (shown_kept _ _ _ K1) in *. unfold sends, writes, requests in *.
  cbn [omap list_omap]. rewrite !omap_app, W2, W3, concat_app, W1, V1, V2, V3.
  split_and!; [|by rewrite (wire_kept _ _ _ K3)|done|done].
  cbn. f_equal. apply list_fmap_ext. intros ? x _. by apply shown_kept.
Qed.

Lemma post_steady n an more w : answers w = an ++ more -> steady (S n) an ->
  exists an', increment_db_semaphore w = (mkWorld (rs w) (sock w) (an' ++ more) (trace w ++ [EvPost]), inr tt)
    /\ steady n an'.
Proof.
  intros Ea Hst. apply steady_cons in Hst as (a & an' & -> & Ha & _ & Hst). exists an'. split; [|done].
  unfold increment_db_semaphore.
  rewrite (bind_val _ _ w (mkWorld (rs w) (sock w) (an' ++ more) (trace w)) a) by (unfold syscall; by rewrite Ea).
  by rewrite Ha.
Qed.

(** The end of a response when no query waits. *)
Lemma finish_idle e stop w : to_process_queue (rs w) = Some [] ->
  (set_rs (set_status READY) ;;;
   let* n := get_rs (fun r => S (length (default [] (to_process_queue r)))) in process_queue e n stop) w
  = (mkWorld (set_status READY (rs w)) (sock w) (answers w) (trace w), inr tt).
Proof.
  intros Hq. do 2 erewrite bind_val by reflexivity. cbn [rs set_status to_process_queue]. rewrite Hq.
  cbn [default length process_queue]. erewrite bind_val by reflexivity. unfold id.
  cbn [rs status set_status to_process_queue]. rewrite Hq. by destruct stop.
Qed.

(** ** Handling a query *)

Definition query_of (p : PDU) : option db_query :=
  if pduType p =? PDU_SERIAL_QUERY then Some (SERIAL_QUERY (serialNumber p))
  else if pduType p =? PDU_RESET_QUERY then Some RESET_QUERY else None.

Lemma query_length p q : wf_pdu p -> query_of p = Some q -> length_ p <= MAX_QUERY_PDU_LENGTH.
Proof.
  intros (_ & _ & _ & _ & Hb) Hq. unfold query_of in Hq. change MAX_QUERY_PDU_LENGTH with 12.
  destruct (Z.eqb_spec (pduType p) PDU_SERIAL_QUERY) as [Et|]; [|destruct (Z.eqb_spec (pduType p) PDU_RESET_QUERY) as [Et|]; [|done]];
    rewrite Et in Hb; unfold PDU_HEADER_LENGTH in Hb.
  - destruct (body_ok_serial _ _ _ Hb eq_refl) as (s & _ & _ & Hn & _). lia.
  - apply body_ok_header in Hb as [Hn _]; [lia|done].
Qed.

(** A query that becomes a request. *)
Lemma add_db_request_accepts e p recv q size push post more w :
  rs_ok (rs w) -> wf_pdu p -> query_of p = Some q -> answers w = size :: push :: post :: more ->
  a_num size = 0%nat -> a_ok push = true ->
  exists w', add_db_request e p recv w = (w', inr tt)
    /\ trace w' = trace w ++ EvRequest q :: (if a_ok post then [EvPost] else [])
    /\ status (rs w') = RESPONDING /\ request_query (rs w') = q /\ cancel_request (rs w') = false
    /\ take (Z.to_nat (pdu_request_buffer_length (rs w'))) (pdu_request_buffer (rs w')) = pdu_bytes p
    /\ sock w' = sock w /\ answers w' = more.
Proof.
  intros Hr Hwf Hq Ea Hsize Hpush. pose proof (query_length p q Hwf Hq) as Hlen. pose proof (ok_request _ Hr) as Hl.
  pose proof (pdu_bytes_length p Hwf) as Hb. change MAX_QUERY_PDU_LENGTH with 12 in *.
  unfold add_db_request. erewrite bind_val by (unfold syscall; rewrite Ea; reflexivity). rewrite Hsize. cbn [Nat.eqb negb].
  unfold query_of in Hq. rewrite Hq. do 2 erewrite bind_val by reflexivity. cbn [rs set_request pdu_request_buffer].
  change MAX_QUERY_PDU_LENGTH with 12. rewrite dump_pdu_complete by (done || lia).
  rewrite (proj2 (Z.ltb_ge (length_ p) 0)), (proj2 (Z.ltb_ge 12 (length_ p))) by lia.
  do 2 erewrite bind_val by reflexivity. rewrite Hpush. cbn [negb].
  do 2 erewrite bind_val by reflexivity. unfold increment_db_semaphore. erewrite bind_val by reflexivity.
  assert (Ht : take (Z.to_nat (length_ p)) (pdu_bytes p ++ drop (Z.to_nat (length_ p)) (pdu_request_buffer (rs w))) = pdu_bytes p)
    by (apply take_app_length'; lia).
  destruct (a_ok post); (eexists; split; [reflexivity|]); cbn; rewrite <- ?app_assoc; split_and!; done.
Qed.

(** A query that arrives during a response waits for its turn. *)
Lemma push_to_process_accepts e p recv m1 m2 m3 push more l w :
  wf_pdu p -> query_of p <> None -> answers w = m1 :: m2 :: m3 :: push :: more -> a_ok m1 = true -> a_ok push = true ->
  to_process_queue (rs w) = Some l ->
  push_to_process_queue e p recv w
  = (mkWorld (set_to_process (Some (l ++ [p])) (rs w)) (sock w) more (trace w), inr tt).
Proof.
  intros Hwf Hq Ea H1 Hp Hl. unfold push_to_process_queue.
  erewrite bind_val by (unfold syscall; rewrite Ea; reflexivity). do 2 erewrite bind_val by reflexivity.
  destruct (pdu_deepcopy_spec (a_ok m1) (a_ok m2) (a_ok m3) p Hwf) as [->|[_ [?|[Ht _]]]]; [|congruence|].
  - erewrite bind_val by reflexivity. rewrite Hp. cbn [negb]. erewrite bind_val by reflexivity. cbn [rs]. by rewrite Hl.
  - unfold query_of in Hq. by rewrite Ht in Hq.
Qed.
