(* ===== verification/ConnectionThm.v ===== *)
(** * The connection thread: claims

    The theorems about [connection.c] that follow from the invariant
    ([ConnectionFacts]) and from the run lemmas ([ConnectionSpec]), and the
    sample connection on which they are tried. *)

From S2P Require Import Prelude Pdu PduParse PduDump Sql RtrQuery CacheState Connection ConnectionFacts ConnectionSpec.
Local Open Scope est_scope.

(** ** A sample connection *)

(** The router asks for everything in two pieces of four bytes, gets an empty
    set, and is told of two updates a minute apart. *)
Definition at_time (t : Z) (n : nat) : answer := mkAnswer true n t (mkCache true 7 12) None.
Definition at_serial (s : Z) : answer := mkAnswer true 0 0 (mkCache true 7 s) None.
Definition no_data : answer := mkAnswer false 0 0 (mkCache true 7 12) None.
Definition popped (r : db_response) : answer := mkAnswer true 0 0 (mkCache true 7 12) (Some (Some r)).

Definition sample_response : db_response :=
  mkResponse [fill_pdu_cache_response blank_pdu 7; fill_pdu_end_of_data blank_pdu 7 12] true.

Definition sample_run : run_state :=
  mkRun (mkCache false 0 0) READY None (replicate 1024 0) 0 (replicate 1024 0) 0 blank_pdu blank_pdu
    None None None RESET_QUERY false (replicate 12 0) 0 0.

Definition sample_world : world := mkWorld sample_run [0; 2; 0; 0; 0; 0; 0; 8]
  ([at_time 0 0; at_time 0 0; at_time 1000 0; at_time 1000 0; at_time 0 0; at_time 0 0]      (* set-up *)
   ++ [at_time 0 0; at_time 0 4; at_time 0 4; at_time 0 0; at_time 0 0; at_time 0 0]         (* the query *)
   ++ [at_time 0 0; no_data; popped sample_response; at_time 0 5; at_time 0 5; at_time 0 20; at_time 1001 0]
   ++ [at_time 0 0; no_data; at_time 1070 0; at_serial 13; at_time 0 0; at_time 1070 0; at_time 0 20; at_time 1071 0]
   ++ [at_time 0 0; no_data; at_time 1080 0]
   ++ [at_time 0 0; no_data; at_time 1131 0; at_serial 14; at_time 0 0; at_time 1131 0; at_time 0 20; at_time 1132 0])
  [].

Definition sample_ready : world := Eval vm_compute in fst (set_up true sample_world).
Definition sample_end : world := Eval vm_compute in fst (main_loops LittleEndian 5 sample_ready).

Lemma quiet_answer_ok b n t s : uint_ok 32 s -> answer_ok (mkAnswer b n t (mkCache true 7 s) None).
Proof. intros Hs. split; [by split|done]. Qed.

Lemma sample_response_ok : answer_ok (popped sample_response).
Proof.
  split; [by split|]. intros r [= <-]. unfold resp_ok, sample_response. cbn [resp_PDUs].
  apply Forall_cons. split; [|apply Forall_singleton]; (split; [|done]);
    [by apply fill_header_wf|by apply fill_serial_wf].
Qed.

Lemma sample_start : start_ok sample_world.
Proof.
  unfold start_ok. split_and!; try reflexivity; [repeat constructor; done|].
  unfold sample_world, answers. rewrite !Forall_app.
  split_and!; repeat (apply Forall_cons_2 || apply Forall_nil_2); try (by apply quiet_answer_ok).
  apply sample_response_ok.
Qed.

Lemma sample_set_up : set_up true sample_world = (sample_ready, inr tt).
Proof. vm_compute. reflexivity. Qed.

Lemma sample_runs : main_loops LittleEndian 5 sample_ready = (sample_end, inr tt).
Proof. vm_compute. reflexivity. Qed.

(** ** Every run *)

(** C3: the thread refines the monitor. Whatever the router sends, the
    database threads answer and the calls return, any number of turns of the
    main loop is free of undefined behaviour and produces a trace that the
    monitor accepts; the monitor's state follows the thread's. *)
Theorem connection_refines e args_ok n w0 w1 w2 res :
  start_ok w0 -> set_up args_ok w0 = (w1, inr tt) -> main_loops e n w1 = (w2, res) ->
  res <> inl CxnUndefined
  /\ exists m, mrun mon_start (trace w2) m /\ m_status m = tracked (rs w2)
     /\ (res = inr tt -> m_pending m = [] /\ m_status m = status (rs w2)).
Proof. intros H0 H1 H2. by destruct (thread_mon e args_ok n w0 w1 w2 res H0 H1 H2) as (A & _ & B). Qed.

Lemma connection_refines_witness :
  inr tt <> inl CxnUndefined
  /\ exists m, mrun mon_start (trace sample_end) m /\ m_status m = tracked (rs sample_end)
     /\ (@inr cxn_exit unit tt = inr tt -> m_pending m = [] /\ m_status m = status (rs sample_end)).
Proof.
  apply (connection_refines LittleEndian true 5 sample_world sample_ready sample_end (inr tt));
    [apply sample_start|apply sample_set_up|apply sample_runs].
Defined.

(** Between two turns of the main loop the buffers have their sizes, the
    received bytes are bytes, the waiting queries are well-formed PDUs, no
    response is in hand, and the local cache state has only moved to newer
    serial numbers of the same session. *)
Lemma connection_invariant e args_ok n w0 w1 w2 :
  start_ok w0 -> set_up args_ok w0 = (w1, inr tt) -> main_loops e n w1 = (w2, inr tt) ->
  world_ok w2 /\ response (rs w2) = None
  /\ rtc cache_step (local_cache_state (rs w1)) (local_cache_state (rs w2)).
Proof.
  intros H0 H1 H2. pose proof (thread_inv e args_ok n w0 w1 H0 H1) as H. rewrite H2 in H.
  destruct H as [A [B _] C _]. done.
Qed.

Lemma connection_invariant_witness :
  world_ok sample_end /\ response (rs sample_end) = None
  /\ rtc cache_step (mkCache true 7 12) (mkCache true 7 14).
Proof.
  apply (connection_invariant LittleEndian true 5 sample_world sample_ready sample_end);
    [apply sample_start|apply sample_set_up|apply sample_runs].
Qed.

(** C30: what the router receives. At any point of any run the bytes written
    are a prefix of the encodings, one after the other, of the PDUs the thread
    sent, each well formed and at most 1024 bytes long; between two turns they
    are all of it. *)
Theorem connection_stream e args_ok n w0 w1 w2 res :
  start_ok w0 -> set_up args_ok w0 = (w1, inr tt) -> main_loops e n w1 = (w2, res) ->
  Forall (fun p => wf_pdu p /\ length_ p <= MAX_PDU_SIZE) (sends (trace w2))
  /\ (exists pending, writes (trace w2) ++ pending = concat (pdu_bytes <$> sends (trace w2)))
  /\ (res = inr tt -> writes (trace w2) = concat (pdu_bytes <$> sends (trace w2))).
Proof.
  intros H0 H1 H2. destruct (thread_mon e args_ok n w0 w1 w2 res H0 H1 H2) as (_ & _ & m & Hm & _ & Hd).
  destruct (mrun_stream _ _ Hm) as [A B]. split_and!; [done|by exists (m_pending m)|].
  intros Hr. destruct (Hd Hr) as [E _]. by rewrite E, app_nil_r in B.
Qed.

Lemma connection_stream_witness :
  Forall (fun p => wf_pdu p /\ length_ p <= MAX_PDU_SIZE) (sends (trace sample_end))
  /\ (exists pending, writes (trace sample_end) ++ pending = concat (pdu_bytes <$> sends (trace sample_end)))
  /\ (@inr cxn_exit unit tt = inr tt -> writes (trace sample_end) = concat (pdu_bytes <$> sends (trace sample_end))).
Proof.
  apply (connection_stream LittleEndian true 5 sample_world sample_ready sample_end (inr tt));
    [apply sample_start|apply sample_set_up|apply sample_runs].
Defined.

(** Requests. A connection has at most one request at the database
    threads, and is in state RESPONDING exactly while it has one. *)
Lemma connection_requests e args_ok n w0 w1 w2 :
  start_ok w0 -> set_up args_ok w0 = (w1, inr tt) -> main_loops e n w1 = (w2, inr tt) ->
  length (requests (trace w2))
  = (length (finals (trace w2)) + match status (rs w2) with RESPONDING => 1 | READY => 0 end)%nat.
Proof.
  intros H0 H1 H2. destruct (thread_mon e args_ok n w0 w1 w2 _ H0 H1 H2) as (_ & _ & m & Hm & _ & Hd).
  destruct (Hd eq_refl) as [_ <-]. by apply mrun_requests.
Qed.

Lemma connection_requests_witness :
  length (requests (trace sample_end))
  = (length (finals (trace sample_end)) + match status (rs sample_end) with RESPONDING => 1 | READY => 0 end)%nat.
Proof.
  apply (connection_requests LittleEndian true 5 sample_world sample_ready sample_end);
    [apply sample_start|apply sample_set_up|apply sample_runs].
Defined.

(** Notifications are rare. After a Serial Notify the thread reads the
    clock, and it sends no other before a later reading that is at least 60
    seconds further on. *)
Lemma connection_notify_interval e args_ok n w0 w1 w2 res l1 p1 l2 p2 l3 :
  start_ok w0 -> set_up args_ok w0 = (w1, inr tt) -> main_loops e n w1 = (w2, res) ->
  trace w2 = l1 ++ EvSend p1 :: l2 ++ EvSend p2 :: l3 ->
  is_notify p1 = true -> is_notify p2 = true ->
  exists a t1 b t2, l2 = a ++ EvTime t1 :: b /\ Forall not_time a /\ EvTime t2 ∈ b
    /\ t1 + CXN_NOTIFY_INTERVAL <= t2.
Proof.
  intros H0 H1 H2 Ht. destruct (thread_mon e args_ok n w0 w1 w2 res H0 H1 H2) as (_ & _ & m & Hm & _).
  exact (mrun_notify _ m l1 p1 l2 p2 l3 Hm Ht).
Qed.

Lemma connection_notify_interval_witness :
  exists a t1 b t2, [EvWrite [0; 0; 0; 7; 0; 0; 0; 12; 0; 0; 0; 13]; EvTime 1071; EvTime 1080; EvTime 1131; EvTime 1131]
      = a ++ EvTime t1 :: b /\ Forall not_time a /\ EvTime t2 ∈ b /\ t1 + CXN_NOTIFY_INTERVAL <= t2.
Proof.
  apply (connection_notify_interval LittleEndian true 5 sample_world sample_ready sample_end (inr tt)
    (take 13 (trace sample_end)) (mkPDU 0 PDU_SERIAL_NOTIFY 7 12 (BSerial 13))
    _ (mkPDU 0 PDU_SERIAL_NOTIFY 7 12 (BSerial 14)) (drop 20 (trace sample_end)));
    [apply sample_start|apply sample_set_up|apply sample_runs|reflexivity..].
Defined.

(** ** Queries in, responses out *)

(** The first read of a turn. *)
Lemma read_nonblock_reads p rest a an w : wf_pdu p -> length_ p <= MAX_PDU_SIZE -> reading p 0 rest w ->
  answers w = a :: an -> a_ok a = true -> (0 < a_num a)%nat ->
  exists k w', read_nonblock PDU_HEADER_LENGTH w = (w', inr true) /\ (0 < k <= 8)%nat
    /\ reading p k rest w' /\ answers w' = an /\ trace w' = trace w.
Proof.
  intros Hwf Hmax Hw Ea Ha Hn. pose proof (wf_pdu_length p Hwf) as H8. unfold PDU_HEADER_LENGTH in *.
  destruct (reading_read p 0 rest w 8 a an Hwf Hmax Hw Ea (fun _ => Hn)) as (k & w' & E & H1 & _ & H2 & H3 & H4); [lia..|].
  rewrite Ha in E. destruct (H1 Ha) as [Hk Hk']. exists k, w'. unfold read_nonblock. cbn [Z.leb Z.compare].
  rewrite (bind_val _ _ _ _ _ E). cbv iota beta. rewrite (proj2 (Z.eqb_neq _ _)) by lia. split_and!; try done; lia.
Qed.

(** C27: a query arrives however the network cuts it up. When the next bytes
    from the router are a well-formed PDU of at most 1024 bytes, the first
    read brings some of it, every later read fails (to be repeated) or brings
    at least one byte, and enough of them succeed, then a turn reads exactly
    that PDU, reports it as good (or with a warning), and leaves the bytes
    behind it for the next turn. *)
Theorem query_received e p rest a an more w :
  wf_pdu p -> length_ p <= MAX_PDU_SIZE ->
  rs_ok (rs w) -> pdu_recv_buffer_length (rs w) = 0 -> sock w = pdu_bytes p ++ rest ->
  answers w = a :: an ++ more -> a_ok a = true -> (0 < a_num a)%nat -> progress (length (pdu_bytes p) - 1) an ->
  exists w1 w2, read_nonblock PDU_HEADER_LENGTH w = (w1, inr true)
    /\ read_and_parse_pdu e w1 = (w2, inr (pdu_status p))
    /\ pdu_eqv (recv_pdu (rs w2)) p /\ sock w2 = rest /\ trace w2 = trace w.
Proof.
  intros Hwf Hmax Hr Hl Hs Ea Ha Hn Hp.
  assert (Hw : reading p 0 rest w) by (unfold reading; split_and!; [done..|lia|by rewrite Hs]).
  destruct (read_nonblock_reads p rest a (an ++ more) w Hwf Hmax Hw Ea Ha Hn) as (k & w1 & E1 & Hk & Hw1 & Ea1 & Et1).
  destruct (read_and_parse_reads e p k rest an more w1 Hwf Hmax ltac:(lia) Hw1 Ea1) as (w2 & an2 & E2 & A & B & _ & C).
  { eapply progress_le; [|exact Hp]. lia. }
  exists w1, w2. split_and!; try done. congruence.
Qed.

Lemma sample_query_wf : wf_pdu (fill_pdu_serial_query blank_pdu 7 12).
Proof. by apply fill_serial_wf. Qed.

Definition sample_reader : world :=
  mkWorld (rs sample_ready) [0; 1; 0; 7; 0; 0; 0; 12; 0; 0; 0; 12; 255]
    (at_time 0 3 :: no_data :: replicate 11 (at_time 0 4)) [].

Lemma sample_ready_ok : rs_ok (rs sample_ready).
Proof.
  destruct (set_up_inv true sample_world sample_ready sample_start sample_set_up) as [(H & _) _ _ _]. exact H.
Qed.

Lemma query_received_witness :
  exists w1 w2, read_nonblock PDU_HEADER_LENGTH sample_reader = (w1, inr true)
    /\ read_and_parse_pdu LittleEndian w1 = (w2, inr (pdu_status (fill_pdu_serial_query blank_pdu 7 12)))
    /\ pdu_eqv (recv_pdu (rs w2)) (fill_pdu_serial_query blank_pdu 7 12) /\ sock w2 = [255] /\ trace w2 = [].
Proof.
  apply (query_received LittleEndian _ [255] (at_time 0 3) (no_data :: replicate 11 (at_time 0 4)) [] sample_reader);
    [apply sample_query_wf|done|apply sample_ready_ok|reflexivity..|cbn; lia|].
  split; [repeat constructor; cbn; intros; lia || congruence|cbn; lia].
Defined.

(** What becomes of a PDU. A query of the right session becomes a request
    at once when none is outstanding, and otherwise waits in the queue behind
    the others; a Serial Query of another session is answered by Cache Reset
    only; an Error Report ends the connection without an answer. *)
Lemma handle_pdu_spec e p recv w :
  rs_ok (rs w) -> wf_pdu p ->
  (forall q size push post more,
     query_of p = Some q -> (pduType p = PDU_SERIAL_QUERY -> sessionId p = cs_session (local_cache_state (rs w))) ->
     status (rs w) = READY -> answers w = size :: push :: post :: more -> a_num size = 0%nat -> a_ok push = true ->
     exists w', handle_pdu e p recv w = (w', inr tt)
       /\ trace w' = trace w ++ EvRequest q :: (if a_ok post then [EvPost] else [])
       /\ status (rs w') = RESPONDING /\ request_query (rs w') = q /\ cancel_request (rs w') = false
       /\ take (Z.to_nat (pdu_request_buffer_length (rs w'))) (pdu_request_buffer (rs w')) = pdu_bytes p
       /\ sock w' = sock w /\ answers w' = more)
  /\ (forall q m1 m2 m3 push more l,
       query_of p = Some q -> (pduType p = PDU_SERIAL_QUERY -> sessionId p = cs_session (local_cache_state (rs w))) ->
       status (rs w) = RESPONDING -> answers w = m1 :: m2 :: m3 :: push :: more ->
       a_ok m1 = true -> a_ok push = true -> to_process_queue (rs w) = Some l ->
       handle_pdu e p recv w
       = (mkWorld (set_to_process (Some (l ++ [p])) (rs w)) (sock w) more (trace w), inr tt))
  /\ (forall an more, pduType p = PDU_SERIAL_QUERY -> sessionId p <> cs_session (local_cache_state (rs w)) ->
       answers w = an ++ more -> steady 8 an ->
       exists w' evs, handle_pdu e p recv w = (w', inr tt) /\ trace w' = trace w ++ evs
         /\ length (sends evs) = 1%nat /\ writes evs = [RTR_PROTOCOL_VERSION; PDU_CACHE_RESET; 0; 0; 0; 0; 0; 8]
         /\ requests evs = [] /\ to_process_queue (rs w') = to_process_queue (rs w))
  /\ (pduType p = PDU_ERROR_REPORT -> handle_pdu e p recv w = (w, inl PthreadExit)).
Proof.
  intros Hr Hwf.
  assert (Hhq : forall q, query_of p = Some q ->
    (pduType p = PDU_SERIAL_QUERY -> sessionId p = cs_session (local_cache_state (rs w))) ->
    handle_pdu e p recv w = handle_query e p recv w).
  { intros q Hq Hs. unfold handle_pdu. unfold query_of in Hq.
    destruct (Z.eqb_spec (pduType p) PDU_SERIAL_QUERY) as [Et|_].
    - erewrite bind_val by reflexivity. by rewrite (Hs Et), Z.eqb_refl.
    - by destruct (_ =? PDU_RESET_QUERY). }
  split_and!.
  - intros q size push post more Hq Hs Hst Ea H1 H2. rewrite (Hhq q Hq Hs). unfold handle_query.
    erewrite bind_val by reflexivity. rewrite Hst. by eapply add_db_request_accepts.
  - intros q m1 m2 m3 push more l Hq Hs Hst Ea H1 H2 Hl. rewrite (Hhq q Hq Hs). unfold handle_query.
    erewrite bind_val by reflexivity. rewrite Hst. by eapply push_to_process_accepts; [|rewrite Hq|..].
  - intros an more Et Hs Ea Hst. unfold handle_pdu. rewrite Et, Z.eqb_refl.
    erewrite bind_val by reflexivity. rewrite (proj2 (Z.eqb_neq _ _)) by done. cbn [negb].
    unfold send_cache_reset. do 2 erewrite bind_val by reflexivity. cbn [rs set_send_pdu send_pdu_].
    set (pr := set_length _ _). assert (Hpr : wf_pdu pr) by (by apply (fill_header_wf (send_pdu_ (rs w)) PDU_CACHE_RESET 0)).
    match goal with |- context [send_pdu e (Some pr) ?w1] =>
      destruct (send_pdu_delivers e pr more 0 an w1) as (buf & evs & an' & E & _ & (W1 & W2 & W3) & _) end;
      [by apply ok_set_send_pdu|done..|].
    rewrite E. eexists _, (EvSend pr :: evs).
    split; [done|]. split; [done|].
    unfold sends, writes, requests in *. cbn [omap list_omap]. by rewrite W2, W3, W1.
  - intros Et. unfold handle_pdu. by rewrite Et.
Qed.

Definition sample_idle : world :=
  mkWorld (rs sample_ready) [] [at_time 0 0; at_time 0 0; at_time 0 0] [].

Lemma handle_pdu_spec_witness :
  exists w', handle_pdu LittleEndian (fill_pdu_serial_query blank_pdu 7 12) true sample_idle = (w', inr tt)
    /\ trace w' = [EvRequest (SERIAL_QUERY 12); EvPost] /\ status (rs w') = RESPONDING
    /\ request_query (rs w') = SERIAL_QUERY 12 /\ cancel_request (rs w') = false
    /\ take (Z.to_nat (pdu_request_buffer_length (rs w'))) (pdu_request_buffer (rs w'))
       = [0; 1; 0; 7; 0; 0; 0; 12; 0; 0; 0; 12]
    /\ sock w' = [] /\ answers w' = [].
Proof.
  apply (proj1 (handle_pdu_spec LittleEndian (fill_pdu_serial_query blank_pdu 7 12) true sample_idle
    sample_ready_ok sample_query_wf) (SERIAL_QUERY 12) (at_time 0 0) (at_time 0 0) (at_time 0 0) []); reflexivity.
Defined.

(** C29: a response reaches the router. When calls succeed, every PDU of the
    response is sent, in order and whole, an error report without its cause
    with the query that caused it; an unfinished response asks the database
    threads for more, a finished one makes the connection ready for the next
    query, and one with a fatal error ends the connection afterwards. *)
Theorem response_delivered e resp more an w :
  rs_ok (rs w) -> status (rs w) = RESPONDING -> response (rs w) = Some resp -> to_process_queue (rs w) = Some [] ->
  Forall (deliverable (rs w)) (resp_PDUs resp) -> answers w = an ++ more ->
  steady (S (length (wire (rs w) (resp_PDUs resp)))) an ->
  exists w' evs, handle_response e w = (w', if existsb fatal (resp_PDUs resp) then inl PthreadExit else inr tt)
    /\ trace w' = trace w ++ (if resp_is_done resp then [] else [EvPost]) ++ evs
    /\ sends evs = shown (rs w) <$> resp_PDUs resp /\ writes evs = wire (rs w) (resp_PDUs resp) /\ requests evs = []
    /\ response (rs w') = None /\ sock w' = sock w
    /\ status (rs w') = (if resp_is_done resp then READY else RESPONDING).
Proof.
  intros Hr Hs Hresp Hq Hl Ea Hst. unfold handle_response.
  erewrite bind_val by reflexivity. rewrite Hresp.
  set (w1 := fun an => mkWorld (rs w) (sock w) (an ++ more) (trace w ++ if resp_is_done resp then [] else [EvPost])).
  assert (exists an', (if negb (resp_is_done resp) then increment_db_semaphore else est_ret tt) w = (w1 an', inr tt)
     /\ steady (length (wire (rs w) (resp_PDUs resp)) + 0) an') as (an1 & E1 & Hst1).
  { unfold w1. rewrite Nat.add_0_r. destruct (resp_is_done resp); cbn [negb].
    - exists an. rewrite app_nil_r, <- Ea. split; [by destruct w|]. eapply steady_le; [|exact Hst]. lia.
    - destruct (post_steady _ an more w Ea Hst) as (an' & E & H). by exists an'. }
  rewrite (bind_val _ _ _ _ _ E1).
  destruct (send_pdus_delivers e more (resp_PDUs resp) 0 false 0 an1 (w1 an1) Hr Hs Hl eq_refl Hst1)
    as (r2 & evs & an2 & E2 & (K0 & _ & K2 & K3 & K4 & _) & V1 & V2 & V3 & _).
  rewrite (bind_val _ _ _ _ _ E2). cbn [orb]. erewrite bind_val by reflexivity. cbn [rs w1 sock trace] in *.
  set (stop := existsb fatal (resp_PDUs resp)).
  destruct (resp_is_done resp).
  - erewrite bind_val by (apply finish_idle; cbn; congruence).
    destruct stop; eexists _, evs; (split; [done|]); cbn [trace rs response status sock];
      rewrite <- ?app_assoc; split_and!; done.
  - erewrite bind_val by reflexivity. destruct stop; eexists _, evs; (split; [done|]); cbn [trace rs response status sock];
      rewrite <- ?app_assoc; split_and!; try done; cbn; congruence.
Qed.

Definition sample_responding : world :=
  mkWorld (set_response (Some sample_response) (set_request_buffer [0; 2; 0; 0; 0; 0; 0; 8; 0; 0; 0; 0] 8
            (set_status RESPONDING (rs sample_ready)))) [] (replicate 21 (at_time 0 3)) [].

Lemma sample_responding_ok : rs_ok (rs sample_responding).
Proof.
  destruct sample_ready_ok. split; try done. intros _. split; [done|]. repeat constructor; done.
Qed.

Lemma response_delivered_witness :
  exists w' evs, handle_response LittleEndian sample_responding = (w', inr tt)
    /\ trace w' = evs
    /\ sends evs = resp_PDUs sample_response
    /\ writes evs = [0; 3; 0; 7; 0; 0; 0; 8; 0; 7; 0; 7; 0; 0; 0; 12; 0; 0; 0; 12] /\ requests evs = []
    /\ response (rs w') = None /\ sock w' = [] /\ status (rs w') = READY.
Proof.
  apply (response_delivered LittleEndian sample_response [] (replicate 21 (at_time 0 3)) sample_responding);
    [apply sample_responding_ok|reflexivity..| |reflexivity|].
  - unfold sample_response; cbn [resp_PDUs]. apply Forall_cons_2; [|apply Forall_singleton]; (split; [|done]);
      [by apply fill_header_wf|by apply fill_serial_wf].
  - split; [repeat constructor; cbn; lia|cbn; lia].
Defined.

(** ** The end of the thread *)

(** Turns of the loop that waits for the last response: the wait succeeds, and
    what is found, if anything, is not the last. *)
Definition idle_turn (x : answer * answer) : Prop :=
  a_ok x.1 = true /\ match a_response x.2 with Some r => is_last r = false | None => True end.
Definition turn_answers (x : answer * answer) : list answer := [x.1; x.2].
Definition pop_events (a : answer) : list event :=
  match a_response a with Some r => [EvPop r] | None => [] end.

Lemma syscall_cons a l w : answers w = a :: l -> syscall w = (mkWorld (rs w) (sock w) l (trace w), inr a).
Proof. intros E. unfold syscall. by rewrite E. Qed.

Lemma drain_turn fuel x l w : answers w = turn_answers x ++ l -> idle_turn x ->
  drain (S fuel) w = drain fuel (mkWorld (rs w) (sock w) l (trace w ++ pop_events x.2)).
Proof.
  intros Ea [H1 H2]. cbn [drain]. unfold wait_on_semaphore.
  erewrite bind_val by (rewrite (bind_val _ _ _ _ _ (syscall_cons x.1 (x.2 :: l) w Ea)), H1; reflexivity). cbn [negb].
  erewrite bind_val by reflexivity. cbn [rs sock trace]. unfold pop_events.
  destruct (a_response x.2) as [r|]; [|by rewrite app_nil_r].
  erewrite bind_val by reflexivity. destruct r as [r|]; [|done]. cbn in H2. by rewrite H2.
Qed.

Lemma drain_waits wl bl final more : a_ok wl = true -> a_response bl = Some (Some final) -> resp_is_done final = true ->
  forall turns fuel w, Forall idle_turn turns -> (length turns < fuel)%nat ->
  answers w = concat (turn_answers <$> turns) ++ [wl; bl] ++ more ->
  drain fuel w = (mkWorld (rs w) (sock w) more
                   (trace w ++ concat ((fun x => pop_events x.2) <$> turns) ++ [EvPop (Some final)]), inr tt).
Proof.
  intros H1 H2 H3. induction turns as [|x turns IH]; intros fuel w Hi Hf Ea; (destruct fuel as [|fuel]; [cbn in Hf; lia|]).
  - cbn [drain]. unfold wait_on_semaphore.
    erewrite bind_val by (rewrite (bind_val _ _ _ _ _ (syscall_cons wl (bl :: more) w Ea)), H1; reflexivity). cbn [negb].
    erewrite bind_val by reflexivity. rewrite H2. erewrite bind_val by reflexivity. by rewrite H3.
  - apply Forall_cons in Hi as [Hx Hi]. cbn [fmap list_fmap concat] in Ea. rewrite <- app_assoc in Ea.
    rewrite (drain_turn fuel x _ w Ea Hx). rewrite IH; [|done|cbn in Hf; lia|done].
    cbn [rs sock trace fmap list_fmap concat]. by rewrite <- !app_assoc.
Qed.

Lemma post_runs post l w : answers w = post :: l ->
  increment_db_semaphore w
  = (mkWorld (rs w) (sock w) l (trace w ++ if a_ok post then [EvPost] else []), inr tt).
Proof.
  intros Ea. unfold increment_db_semaphore. rewrite (bind_val _ _ _ _ _ (syscall_cons post _ _ Ea)).
  destruct (a_ok post); [done|by rewrite app_nil_r].
Qed.

(** No response in hand has a PDU that points at the thread's own buffer. *)
Definition frees_own (r : run_state) : bool :=
  match response r, borrowed r with Some _, Some _ => false | _, _ => true end.

(** The part of [cleanup] before the wait. *)
Lemma cleanup_start w : frees_own (rs w) = true ->
  exists r, match response (rs w) with
     | None => est_ret tt
     | Some resp => (if resp_is_done resp then set_rs (set_status READY) else est_ret tt) ;;; free_response
     end w = (mkWorld r (sock w) (answers w) (trace w), inr tt)
    /\ response r = None /\ status r = tracked (rs w) /\ to_process_queue r = to_process_queue (rs w)
    /\ request_query r = request_query (rs w).
Proof.
  unfold frees_own. intros Hb. unfold tracked. destruct (response (rs w)) as [resp|] eqn:Er; cbn [is_last].
  2: exists (rs w); by destruct w.
  assert (borrowed (rs w) = None) as Hb' by (by destruct (borrowed (rs w))). clear Hb. rename Hb' into Hb.
  destruct (resp_is_done resp); erewrite bind_val by reflexivity; unfold free_response; erewrite bind_val by reflexivity;
    cbn [rs set_status borrowed]; rewrite Hb; by eexists.
Qed.

Lemma length_turns turns : length (concat (turn_answers <$> turns)) = (2 * length turns)%nat.
Proof. induction turns as [|x turns IH]; [done|]. cbn in *. lia. Qed.

Lemma cleanup_borrowed w : frees_own (rs w) = false -> snd (cleanup w) = inl CxnUndefined.
Proof.
  unfold frees_own. intros Hb. destruct (response (rs w)) as [resp|] eqn:Er; [|done].
  destruct (borrowed (rs w)) as [i|] eqn:Eb; [|done]. unfold cleanup. erewrite bind_val by reflexivity. rewrite Er.
  destruct (resp_is_done resp); unfold est_bind at 1; cbn; by rewrite Eb.
Qed.

(** Nothing but the very end of [cleanup] touches the queue of waiting queries. *)
Definition keeps_queue {A} (m : CX A) : Prop :=
  forall w, to_process_queue (rs (fst (m w))) = to_process_queue (rs w).

Lemma keeps_queue_bind {A B} (m : CX A) (k : A -> CX B) :
  keeps_queue m -> (forall a, keeps_queue (k a)) -> keeps_queue (est_bind k m).
Proof.
  intros Hm Hk w. unfold est_bind. specialize (Hm w). destruct (m w) as [w1 [e|a]]; cbn in *; [done|].
  by rewrite (Hk a w1).
Qed.

Lemma keeps_queue_syscall : keeps_queue syscall.
Proof. intros w. unfold syscall. by destruct (answers w). Qed.

Lemma keeps_queue_drain fuel : keeps_queue (drain fuel).
Proof.
  induction fuel as [|fuel IH]; [done|]. cbn [drain]. apply keeps_queue_bind.
  { unfold wait_on_semaphore. apply keeps_queue_bind; [apply keeps_queue_syscall|done]. }
  intros []; [|done]. cbn [negb]. apply keeps_queue_bind; [apply keeps_queue_syscall|]. intros a.
  destruct (a_response a) as [[r|]|]; [| |exact IH]; (apply keeps_queue_bind; [done|]); [|done].
  intros _. by destruct (resp_is_done r).
Qed.

Definition never_returns (m : CX unit) : Prop :=
  forall w, to_process_queue (rs w) = None -> forall u, snd (m w) <> inr u.

Lemma never_returns_bind {A} (m : CX A) (k : A -> CX unit) :
  keeps_queue m -> (forall a, never_returns (k a)) -> never_returns (est_bind k m).
Proof.
  intros Hm Hk w Hq u. unfold est_bind. specialize (Hm w). destruct (m w) as [w1 [e|a]]; cbn in *; [done|].
  apply Hk. by rewrite Hm.
Qed.

Lemma cleanup_no_queue : never_returns cleanup.
Proof.
  unfold cleanup. apply never_returns_bind; [done|]. intros r. apply never_returns_bind.
  { destruct r as [resp|]; [|done]. apply keeps_queue_bind; [by destruct (resp_is_done resp)|]. intros _.
    unfold free_response. apply keeps_queue_bind; [done|]. by intros []. }
  intros _. apply never_returns_bind; [done|]. intros st. apply never_returns_bind.
  { destruct st; [done|]. apply keeps_queue_bind; [done|]. intros _. apply keeps_queue_bind.
    { unfold increment_db_semaphore. apply keeps_queue_bind; [apply keeps_queue_syscall|]. intros x. by destruct (a_ok x). }
    intros _. apply keeps_queue_bind; [done|]. intros fuel. apply keeps_queue_bind; [apply keeps_queue_drain|done]. }
  intros _. apply never_returns_bind; [done|]. intros _ w Hq u. cbn. by rewrite Hq.
Qed.



(** The second [Queue_new] fails. *)
Definition sample_no_queue : world := mkWorld sample_run []
  [at_time 0 0; at_time 0 0; at_time 0 0; at_time 0 0; at_time 0 0; no_data] [].

(** The router asks, the database threads report an error, and the router is
    gone when the report is written. *)
Definition sample_gone : world := mkWorld sample_run [0; 2; 0; 0; 0; 0; 0; 8]
  (replicate 6 (at_time 0 0)
   ++ [at_time 0 0; at_time 0 8; at_time 0 0; at_time 0 0; at_time 0 0]
   ++ [at_time 0 0; no_data; popped (mkResponse [fill_pdu_error_report blank_pdu ERR_INTERNAL_ERROR 0 None 0 None] true);
       no_data])
  [].

(** Where clean-up goes wrong. When the queue of waiting queries could
    not be allocated, clean-up reads through the null pointer; when the router
    is gone while an error report is written that embeds the query, the PDU
    still points at the thread's own buffer and clean-up frees that. *)
Lemma cleanup_undefined e :
  snd (connection_main e true 0 sample_no_queue) = inl CxnUndefined
  /\ snd (connection_main e true 2 sample_gone) = inl CxnUndefined
  /\ borrowed (rs (fst (connection_main e true 2 sample_gone))) = Some 0%nat.
Proof. destruct e; vm_compute; done. Qed.
