(* ===== verification/DbThread.v ===== *)
(** * The database threads of the daemon ([src/bin/rpki-rtr/db.c])

    Several threads take requests from a queue and from a bag of unfinished
    ones, ask the database for a batch of PDUs and push it to the queue of the
    connection that asked. A thread is a program that calls operations on
    objects it shares with other threads, one at a time ([Prog]); what happens
    between two calls is up to the other threads. *)

From S2P Require Import Prelude Pdu Sql RtrQuery CacheState Connection.

(** ** Constants of [config.h] *)

Definition DB_RESPONSE_BUFFER_LENGTH : nat := 3.
Definition DB_ROWS_PER_RESPONSE : nat := Z.to_nat 1024.

(** ** Queries *)

(** A request, by the address of its [struct db_request]. *)
Definition rid : Type := nat.

Record db_request_state := mkRq {
  rq_request : rid;
  rq_query_state : option query_state }.

Definition initialize_request_state (request : rid) : db_request_state := mkRq request None.

(** The outcomes of the statements of [start_query]. *)
Record start_env := mkStartEnv {
  se_calloc_ok : bool;
  se_first : stmt_env;
  se_cur : stmt_env;
  se_rows : stmt_env }.

Definition start_query (se : start_env) (q : db_query) : DB (option query_state) :=
  match q with
  | SERIAL_QUERY serial =>
      db_rtr_serial_query_init (se_calloc_ok se) (se_first se) (se_cur se) (se_rows se) serial
  | RESET_QUERY => db_rtr_reset_query_init (se_calloc_ok se) (se_first se) (se_cur se)
  end.

Definition query_get_next (ne : next_env) (q : db_query) (st : query_state) (num_rows : nat)
    : DB next_result :=
  match q with
  | SERIAL_QUERY _ => db_rtr_serial_query_get_next ne st num_rows
  | RESET_QUERY => db_rtr_reset_query_get_next ne st num_rows
  end.

Definition stop_query (rq : db_request_state) : db_request_state := mkRq (rq_request rq) None.

(** ** Programs *)

(** The calls that can be seen by, or depend on, other threads. [OBagLock]
    also tells the number of elements, which cannot change until the lock is
    given up; positions count the elements in the order of iteration. *)
Inductive op :=
| OCall                             (* malloc, set-up of the database connection *)
| OSemWait                          (* sem_wait(semaphore) *)
| OSemPost                          (* sem_post(semaphore) *)
| OPopRequest                       (* Queue_trypop(db_request_queue) *)
| OCancelled (r : rid)              (* request->cancel_request *)
| OQueueSize (r : rid)              (* Queue_size(request->response_queue) *)
| OStart (r : rid)                  (* the database calls of start_query *)
| ONext (r : rid) (st : query_state) (n : nat)
| OPush (r : rid) (x : db_response) (* Queue_push(request->response_queue) *)
| OPostResponse (r : rid)           (* sem_post(request->response_semaphore) *)
| OBagLock                          (* Bag_start_iteration(db_currently_processing) *)
| OBagUnlock                        (* Bag_stop_iteration *)
| OBagGet (i : nat)                 (* the end, or Bag_get, which may be NULL *)
| OBagErase (i : nat)
| OBagAdd (x : db_request_state).

Definition ans (o : op) : Type :=
  match o with
  | OCall | OSemWait | OSemPost | OCancelled _ | OPush _ _ | OPostResponse _ | OBagUnlock | OBagAdd _ => bool
  | OPopRequest => option rid
  | OQueueSize _ => nat
  | OStart _ => option query_state
  | ONext _ _ _ => next_result
  | OBagLock => option nat
  | OBagGet _ => option (option db_request_state)
  | OBagErase _ => unit
  end.

(** How a program stops: [pthread_exit], or undefined behaviour. *)
Inductive db_exit := DbExit | DbUndefined.

Inductive Prog (A : Type) :=
| Ret (a : A)
| Stop (x : db_exit)
| Call (o : op) (k : ans o -> Prog A).
Arguments Ret {A}. Arguments Stop {A}. Arguments Call {A}.

Fixpoint pbind {A B} (f : A -> Prog B) (p : Prog A) : Prog B :=
  match p with
  | Ret a => f a
  | Stop x => Stop x
  | Call o k => Call o (fun a => pbind f (k a))
  end.

(** The thread's own variables: those of [struct run_state] that change. *)
Record db_run := mkDbRun {
  request : option rid;
  request_state : option db_request_state;
  db_resp : option db_response }.

Definition DT (A : Type) : Type := db_run -> Prog (db_run * A).

Definition dt_ret {A} (a : A) : DT A := fun s => Ret (s, a).
Definition dt_bind {A B} (f : A -> DT B) (m : DT A) : DT B :=
  fun s => pbind (fun '(s', a) => f a s') (m s).
Definition dt_stop {A} (x : db_exit) : DT A := fun _ => Stop x.
Definition dt_call (o : op) : DT (ans o) := fun s => Call o (fun a => Ret (s, a)).
Definition dt_gets {A} (f : db_run -> A) : DT A := fun s => Ret (s, f s).
Definition dt_modify (f : db_run -> db_run) : DT unit := fun s => Ret (f s, tt).

Declare Scope dt_scope.
Notation "'let!' x := m 'in' k" := (dt_bind (fun x => k) m)
  (at level 200, x pattern, right associativity) : dt_scope.
Notation "m ;! k" := (dt_bind (fun _ => k) m) (at level 100, right associativity) : dt_scope.
Local Open Scope dt_scope.

Definition set_db_request (x : option rid) (s : db_run) : db_run := mkDbRun x (request_state s) (db_resp s).
Definition set_request_state (x : option db_request_state) (s : db_run) : db_run :=
  mkDbRun (request s) x (db_resp s).
Definition set_db_resp (x : option db_response) (s : db_run) : db_run :=
  mkDbRun (request s) (request_state s) x.

(** [run_state->request_state], which must not be NULL. *)
Definition the_request_state : DT db_request_state :=
  let! x := dt_gets request_state in
  match x with Some rq => dt_ret rq | None => dt_stop DbUndefined end.

(** ** Responses *)

(** The new response has [num_pdus] PDUs, here [pdus]; its [is_done] is set
    before it is sent. *)
Definition allocate_response (pdus : list PDU) : DT unit :=
  let! old := dt_gets db_resp in
  match old with
  | Some _ => dt_stop DbExit
  | None =>
      let! ok := dt_call OCall in
      if negb ok then dt_stop DbExit
      else match pdus with
           | [] => dt_modify (set_db_resp (Some (mkResponse [] false)))
           | _ =>
               let! ok := dt_call OCall in
               if negb ok then dt_stop DbExit
               else dt_modify (set_db_resp (Some (mkResponse pdus false)))
           end
  end.

Definition set_done (d : bool) : DT unit :=
  let! x := dt_gets db_resp in
  match x with
  | Some resp => dt_modify (set_db_resp (Some (mkResponse (resp_PDUs resp) d)))
  | None => dt_stop DbUndefined
  end.

Definition send_response : DT unit :=
  let! rq := the_request_state in
  let! x := dt_gets db_resp in
  match x with
  | None => dt_stop DbUndefined
  | Some resp =>
      let! ok := dt_call (OPush (rq_request rq) resp) in
      if negb ok then dt_stop DbExit
      else
        dt_modify (set_db_resp None) ;!
        let! rq := the_request_state in
        dt_call (OPostResponse (rq_request rq)) ;!
        dt_ret tt
  end.

Definition send_empty_response : DT unit :=
  allocate_response [] ;! set_done true ;! send_response.

Definition error_pdu (error_code : Z) : PDU :=
  mkPDU RTR_PROTOCOL_VERSION PDU_ERROR_REPORT error_code (PDU_HEADER_LENGTH + PDU_ERROR_HEADERS_LENGTH)
    (BError (mkErr 0 None 0 None)).

Definition send_error (error_code : Z) : DT unit :=
  allocate_response [error_pdu error_code] ;! set_done true ;! send_response.

Definition wait_on_semaphore : DT unit :=
  let! ok := dt_call OSemWait in if negb ok then dt_stop DbExit else dt_ret tt.

(** ** One step of a request *)

(** [stop_query(run_state->request_state, run_state->db)]. *)
Definition stop_current : DT unit :=
  let! rq := the_request_state in dt_modify (set_request_state (Some (stop_query rq))).

Definition finish_request : DT unit := dt_modify (set_request_state None).

Definition put_back : DT unit :=
  let! rq := the_request_state in
  let! ok := dt_call (OBagAdd rq) in
  if negb ok then
    stop_current ;! send_error ERR_INTERNAL_ERROR ;! finish_request
  else
    finish_request ;!
    dt_call OSemPost ;!
    dt_ret tt.

(** From [query_get_next] on. *)
Definition next_step : DT unit :=
  allocate_response [] ;!
  let! rq := the_request_state in
  match rq_query_state rq with
  | None => dt_stop DbUndefined
  | Some st =>
      let! r := dt_call (ONext (rq_request rq) st DB_ROWS_PER_RESPONSE) in
      dt_modify (set_request_state (Some (mkRq (rq_request rq) (Some (nr_state r))))) ;!
      if nr_ret r <? 0 then
        dt_modify (set_db_resp None) ;!
        stop_current ;!
        send_error ERR_INTERNAL_ERROR ;!
        finish_request
      else
        match nr_pdus r with
        | None => dt_stop DbUndefined
        | Some pdus =>
            dt_modify (set_db_resp (Some (mkResponse pdus (nr_done r)))) ;!
            (if nr_done r then stop_current else dt_ret tt) ;!
            send_response ;!
            if nr_done r then finish_request else put_back
        end
  end.

Definition service_request (is_new_request : bool) : DT unit :=
  let! rq := the_request_state in
  let! cancel := dt_call (OCancelled (rq_request rq)) in
  if cancel : bool then
    stop_current ;! send_empty_response ;! finish_request
  else if is_new_request then
    let! st := dt_call (OStart (rq_request rq)) in
    match st with
    | None => send_error ERR_INTERNAL_ERROR ;! finish_request
    | Some st =>
        dt_modify (set_request_state (Some (mkRq (rq_request rq) (Some st)))) ;!
        next_step
    end
  else next_step.

(** ** Finding a request *)

(** The loop over the bag from position [i]; each round leaves one element
    fewer to look at. *)
Fixpoint find_loop (fuel : nat) (i : nat) : DT unit :=
  match fuel with
  | O => dt_stop DbUndefined
  | S fuel' =>
      let! x := dt_call (OBagGet i) in
      match x with
      | None =>
          let! ok := dt_call OBagUnlock in
          if negb ok then dt_stop DbExit else dt_modify (set_request_state None)
      | Some None =>
          dt_modify (set_request_state None) ;!
          dt_call (OBagErase i) ;!
          find_loop fuel' i
      | Some (Some rq) =>
          dt_modify (set_request_state (Some rq)) ;!
          let! cancel := dt_call (OCancelled (rq_request rq)) in
          let! ready := if cancel : bool then dt_ret true
                        else let! n := dt_call (OQueueSize (rq_request rq)) in
                             dt_ret (Nat.ltb n DB_RESPONSE_BUFFER_LENGTH) in
          if ready : bool then
            dt_call (OBagErase i) ;!
            let! ok := dt_call OBagUnlock in
            if negb ok then dt_stop DbExit else dt_ret tt
          else find_loop fuel' (S i)
      end
  end.

Definition find_existing_request_to_service : DT unit :=
  let! n := dt_call OBagLock in
  match n with
  | None => dt_stop DbExit
  | Some n => find_loop (S n) 0
  end.

Definition try_service_existing_request : DT bool :=
  find_existing_request_to_service ;!
  let! x := dt_gets request_state in
  match x with
  | None => dt_ret false
  | Some _ => service_request false ;! dt_ret true
  end.

Definition try_service_new_request : DT bool :=
  let! x := dt_call OPopRequest in
  match x with
  | None => dt_ret false
  | Some r =>
      dt_modify (set_db_request (Some r)) ;!
      let! ok := dt_call OCall in
      if negb ok then dt_stop DbExit
      else
        dt_modify (set_request_state (Some (initialize_request_state r))) ;!
        dt_modify (set_db_request None) ;!
        service_request true ;!
        dt_ret true
  end.

Definition try_service_request : DT unit :=
  let! done := try_service_existing_request in
  if done : bool then dt_ret tt
  else try_service_new_request ;! dt_ret tt.

(** ** Main loop *)

Definition db_main_loop : DT unit :=
  wait_on_semaphore ;!
  let! s := dt_gets id in
  match request s, request_state s, db_resp s with
  | None, None, None => try_service_request
  | _, _, _ => dt_stop DbExit
  end.

Definition db_run_start : db_run := mkDbRun None None None.

(** [db_main] up to its loop; [args_ok]: none of the arguments is NULL. *)
Definition db_main_start (args_ok : bool) : DT unit :=
  if negb args_ok then dt_stop DbExit
  else
    dt_modify (fun _ => db_run_start) ;!
    let! ok := dt_call OCall in
    if negb ok then dt_stop DbExit
    else
      let! ok := dt_call OCall in
      if negb ok then dt_stop DbExit else dt_ret tt.
