(* ===== verification/DbSystem.v ===== *)
(** * The database threads together

    Any number of threads that run [db_main] of [DbThread], any number of
    connections that submit, cancel and collect, in any interleaving of their
    calls. Then what this is to achieve: every request is served as if one
    thread served it alone ([served]). *)

From stdpp Require Import gmap.
From S2P Require Import Prelude Pdu Sql RtrQuery CacheState Connection DbThread.

(** ** Shared objects *)

(** [struct db_request] and the queue it points to. [q_log] are all responses
    pushed so far, those collected included. *)
Record req := mkReq {
  q_query : db_query;
  q_cancel : bool;
  q_queue : list db_response;
  q_log : list db_response }.

(** [sh_owed]: posts of the semaphore that connections are about to make;
    [sh_lost]: posts that failed, and requests missed because a lock did;
    [sh_dangling]: requests that were used after the connection had given them
    up, which in C is undefined. *)
Record shared := mkShared {
  sh_sem : nat;
  sh_owed : nat;
  sh_lost : nat;
  sh_requests : list rid;
  sh_bag : list (option db_request_state);
  sh_lock : option nat;
  sh_reqs : gmap rid req;
  sh_dangling : list rid }.

Definition set_sem (n : nat) (s : shared) : shared :=
  mkShared n (sh_owed s) (sh_lost s) (sh_requests s) (sh_bag s) (sh_lock s) (sh_reqs s) (sh_dangling s).
Definition add_lost (s : shared) : shared :=
  mkShared (sh_sem s) (sh_owed s) (S (sh_lost s)) (sh_requests s) (sh_bag s) (sh_lock s) (sh_reqs s) (sh_dangling s).
Definition set_requests (l : list rid) (s : shared) : shared :=
  mkShared (sh_sem s) (sh_owed s) (sh_lost s) l (sh_bag s) (sh_lock s) (sh_reqs s) (sh_dangling s).
Definition set_bag (l : list (option db_request_state)) (s : shared) : shared :=
  mkShared (sh_sem s) (sh_owed s) (sh_lost s) (sh_requests s) l (sh_lock s) (sh_reqs s) (sh_dangling s).
Definition set_lock (x : option nat) (s : shared) : shared :=
  mkShared (sh_sem s) (sh_owed s) (sh_lost s) (sh_requests s) (sh_bag s) x (sh_reqs s) (sh_dangling s).
Definition set_reqs (m : gmap rid req) (s : shared) : shared :=
  mkShared (sh_sem s) (sh_owed s) (sh_lost s) (sh_requests s) (sh_bag s) (sh_lock s) m (sh_dangling s).
Definition set_owed (n : nat) (s : shared) : shared :=
  mkShared (sh_sem s) n (sh_lost s) (sh_requests s) (sh_bag s) (sh_lock s) (sh_reqs s) (sh_dangling s).
Definition add_dangling (r : rid) (s : shared) : shared :=
  mkShared (sh_sem s) (sh_owed s) (sh_lost s) (sh_requests s) (sh_bag s) (sh_lock s) (sh_reqs s) (r :: sh_dangling s).

Definition push_req (x : db_response) (q : req) : req :=
  mkReq (q_query q) (q_cancel q) (q_queue q ++ [x]) (q_log q ++ [x]).
Definition set_q_queue (l : list db_response) (q : req) : req :=
  mkReq (q_query q) (q_cancel q) l (q_log q).
Definition cancel_req (q : req) : req := mkReq (q_query q) true (q_queue q) (q_log q).

Section system.
(** What the database may answer: [start_rel q x], [start_query] for [q] gives
    [x]; [next_rel q st n x], [query_get_next] in state [st] gives [x]. *)
Context (start_rel : db_query -> option query_state -> Prop).
Context (next_rel : db_query -> query_state -> nat -> next_result -> Prop).

(** Thread [t] calls [o] and gets [a]. A call on a request that is gone is
    undefined: it does not return, but for the post of its semaphore, which can
    happen ([DbThm.db_post_race]); there the model notes the use in
    [sh_dangling] and goes on. *)
Definition op_step (t : nat) (s : shared) (o : op) : ans o -> shared -> Prop :=
  match o with
  | OCall => fun _ s' => s' = s
  | OSemWait => fun a s' => if a then exists n, sh_sem s = S n /\ s' = set_sem n s else s' = s
  | OSemPost => fun a s' => s' = if a then set_sem (S (sh_sem s)) s else add_lost s
  | OPopRequest => fun a s' =>
      match a with
      | Some r => exists l, sh_requests s = r :: l /\ s' = set_requests l s
      | None => (sh_requests s = [] /\ s' = s) \/ s' = add_lost s
      end
  | OCancelled r => fun a s' => exists q, sh_reqs s !! r = Some q /\ a = q_cancel q /\ s' = s
  | OQueueSize r => fun a s' => exists q, sh_reqs s !! r = Some q /\ a = length (q_queue q) /\ s' = s
  | OStart r => fun a s' => exists q, sh_reqs s !! r = Some q /\ start_rel (q_query q) a /\ s' = s
  | ONext r st n => fun a s' => exists q, sh_reqs s !! r = Some q /\ next_rel (q_query q) st n a /\ s' = s
  | OPush r x => fun a s' =>
      exists q, sh_reqs s !! r = Some q
        /\ s' = if a then set_reqs (<[r := push_req x q]> (sh_reqs s)) s else s
  | OPostResponse r => fun _ s' =>
      s' = match sh_reqs s !! r with Some _ => s | None => add_dangling r s end
  | OBagLock => fun a s' =>
      match a with
      | Some n => sh_lock s = None /\ n = length (sh_bag s) /\ s' = set_lock (Some t) s
      | None => s' = s
      end
  | OBagUnlock => fun a s' => s' = if a then set_lock None s else s
  | OBagGet i => fun a s' => a = sh_bag s !! i /\ s' = s
  | OBagErase i => fun _ s' => s' = set_bag (delete i (sh_bag s)) s
  | OBagAdd x => fun a s' =>
      if a then sh_lock s = None /\ exists l1 l2, sh_bag s = l1 ++ l2 /\ s' = set_bag (l1 ++ Some x :: l2) s
      else s' = s
  end.

(** The request a call is made on. *)
Definition target (o : op) : option rid :=
  match o with
  | OCancelled r | OQueueSize r | OStart r | ONext r _ _ | OPush r _ | OPostResponse r => Some r
  | _ => None
  end.

(** ** Connections *)

(** What [connection.c] does to these objects: [add_db_request] pushes a
    request and then posts; [handle_response] posts after a response that is
    not the last; [cleanup] sets [cancel_request] and posts, and takes further
    responses without posting; the structure may be used again once the last
    response has been taken. *)
Inductive client_step (s : shared) : shared -> Prop :=
| C_submit r q : sh_reqs s !! r = None ->
    client_step s (set_owed (S (sh_owed s)) (set_requests (sh_requests s ++ [r])
      (set_reqs (<[r := mkReq q false [] []]> (sh_reqs s)) s)))
| C_post n : sh_owed s = S n -> client_step s (set_owed n (set_sem (S (sh_sem s)) s))
| C_post_fails n : sh_owed s = S n -> client_step s (set_owed n (add_lost s))
| C_collect r q x l : sh_reqs s !! r = Some q -> q_queue q = x :: l ->
    client_step s (set_owed (if resp_is_done x || q_cancel q then sh_owed s else S (sh_owed s))
      (set_reqs (<[r := set_q_queue l q]> (sh_reqs s)) s))
| C_cancel r q : sh_reqs s !! r = Some q ->
    client_step s (set_owed (S (sh_owed s)) (set_reqs (<[r := cancel_req q]> (sh_reqs s)) s))
| C_reuse r q x : sh_reqs s !! r = Some q -> last (q_log q) = Some x -> resp_is_done x = true ->
    q_queue q = [] -> client_step s (set_reqs (delete r (sh_reqs s)) s).

(** ** The system *)

Record sys := mkSys { sys_shared : shared; sys_threads : list (Prog (db_run * unit)) }.

Inductive sys_step (w : sys) : sys -> Prop :=
| S_call t o k a s' : sys_threads w !! t = Some (Call o k) -> op_step t (sys_shared w) o a s' ->
    sys_step w (mkSys s' (<[t := k a]> (sys_threads w)))
| S_loop t d : sys_threads w !! t = Some (Ret (d, tt)) ->
    sys_step w (mkSys (sys_shared w) (<[t := db_main_loop d]> (sys_threads w)))
| S_client s' : client_step (sys_shared w) s' -> sys_step w (mkSys s' (sys_threads w)).

Definition shared_start : shared := mkShared 0 0 0 [] [] None ∅ [].
Definition sys_start (n : nat) : sys := mkSys shared_start (replicate n (db_main_start true db_run_start)).
Definition reachable (n : nat) (w : sys) : Prop := rtc sys_step (sys_start n) w.

(** ** Specification *)

(** How far a request has got. *)
Inductive position := NotStarted | At (st : query_state) | Finished.

Definition error_response : db_response := mkResponse [error_pdu ERR_INTERNAL_ERROR] true.
Definition empty_response : db_response := mkResponse [] true.

(** One request, served by nobody else: [served q c log p] when the responses
    [log] may have been given to [q] so far; [c]: it has been cancelled. *)
Inductive served (q : db_query) (c : bool) : list db_response -> position -> Prop :=
| served_new : served q c [] NotStarted
| served_start st : start_rel q (Some st) -> served q c [] (At st)
| served_batch log st r ps : served q c log (At st) -> next_rel q st DB_ROWS_PER_RESPONSE r ->
    0 <= nr_ret r -> nr_pdus r = Some ps ->
    served q c (log ++ [mkResponse ps (nr_done r)]) (if nr_done r then Finished else At (nr_state r))
| served_error log p : served q c log p -> p <> Finished -> served q c (log ++ [error_response]) Finished
| served_cancel log p : served q c log p -> p <> Finished -> c = true ->
    served q c (log ++ [empty_response]) Finished.

End system.
