(* ===== verification/DbProtocol.v ===== *)
(** * The protocol of a database thread

    An automaton over the calls a thread makes: which call is allowed in which
    phase, and the phase after its answer. [keeps_to] says that a program
    follows it; the code of [DbThread] does. *)

From S2P Require Import Prelude Pdu Sql RtrQuery CacheState Connection DbThread DbSystem.
Local Open Scope dt_scope.

(** [i] of [n] elements of the bag have been looked at; [x] is the one in
    sight, or the one taken out; [r] and a position: the request in hand. *)
Inductive phase :=
| PIdle
| PAwake
| PScan (i n : nat)
| PLook (i n : nat) (x : db_request_state)
| PFull (i n : nat) (x : db_request_state)   (* not cancelled; its queue may be full *)
| PFound (i n : nat) (x : db_request_state)
| PTook (x : db_request_state)               (* the bag is still locked *)
| PScanned
| PMiss
| PHold (r : rid) (p : position)
| PServe (r : rid) (p : position)            (* not cancelled when last seen *)
| PCancel (r : rid) (p : position)
| PNext (r : rid) (st : query_state) (x : next_result)
| PSent (r : rid) (st : query_state)         (* a response, not the last *)
| PFail (r : rid) (st : query_state)         (* cannot be put back *)
| PClosing (r : rid)                         (* the last response *)
| POwe.                                      (* put back, post to come *)

Definition at_state (x : db_request_state) : position :=
  match rq_query_state x with Some st => At st | None => NotStarted end.

(** The response that belongs to a batch. *)
Definition batch_response (x : next_result) : option db_response :=
  if nr_ret x <? 0 then Some error_response
  else ps ← nr_pdus x; Some (mkResponse ps (nr_done x)).

Definition allowed (ph : phase) (o : op) : Prop :=
  match o with
  | OCall => True
  | OSemWait => ph = PIdle
  | OSemPost => ph = POwe
  | OPopRequest => ph = PMiss
  | OCancelled r => (exists i n x, ph = PLook i n x /\ r = rq_request x) \/ (exists p, ph = PHold r p)
  | OQueueSize r => exists i n x, ph = PFull i n x /\ r = rq_request x
  | OStart r => ph = PServe r NotStarted
  | ONext r st n => ph = PServe r (At st) /\ n = DB_ROWS_PER_RESPONSE
  | OPush r x =>
      match ph with
      | PServe r' p => r' = r /\ x = error_response
      | PCancel r' p => r' = r /\ x = empty_response
      | PNext r' st nr => r' = r /\ batch_response nr = Some x
      | PFail r' st => r' = r /\ x = error_response
      | _ => False
      end
  | OPostResponse r => ph = PClosing r \/ exists st, ph = PSent r st
  | OBagLock => ph = PAwake
  | OBagUnlock => ph = PScanned \/ exists x, ph = PTook x
  | OBagGet i => exists n, ph = PScan i n
  | OBagErase i => exists n x, ph = PFound i n x
  | OBagAdd x => exists r st, ph = PSent r st /\ x = mkRq r (Some st)
  end.

Definition next_phase (ph : phase) (o : op) : ans o -> phase :=
  match o with
  | OCall => fun _ => ph
  | OPostResponse _ => fun _ => match ph with PClosing _ => PIdle | _ => ph end
  | OSemWait => fun a => if a then PAwake else ph
  | OSemPost => fun _ => PIdle
  | OPopRequest => fun a => match a with Some r => PHold r NotStarted | None => PIdle end
  | OCancelled r => fun a =>
      match ph with
      | PLook i n x => if a then PFound i n x else PFull i n x
      | PHold r p => if a then PCancel r p else PServe r p
      | _ => ph
      end
  | OQueueSize r => fun a =>
      match ph with
      | PFull i n x => if Nat.ltb a DB_RESPONSE_BUFFER_LENGTH then PFound i n x else PScan (S i) n
      | _ => ph
      end
  | OStart r => fun a => match a with Some st => PServe r (At st) | None => ph end
  | ONext r st n => fun a => PNext r st a
  | OPush r x => fun a =>
      if a then if resp_is_done x then PClosing r
                else match ph with PNext _ _ nr => PSent r (nr_state nr) | _ => ph end
      else ph
  | OBagLock => fun a => match a with Some n => PScan 0 n | None => ph end
  | OBagUnlock => fun a =>
      match ph with
      | PScanned => if a then PMiss else ph
      | PTook x => if a then PHold (rq_request x) (at_state x) else ph
      | _ => ph
      end
  | OBagGet i => fun a =>
      match ph, a with
      | PScan i n, Some (Some x) => PLook i n x
      | PScan _ _, None => PScanned
      | _, _ => ph
      end
  | OBagErase i => fun _ => match ph with PFound i n x => PTook x | _ => ph end
  | OBagAdd x => fun a =>
      match ph with PSent r st => if a then POwe else PFail r st | _ => ph end
  end.

(** What a thread may rely on about an answer. *)
Definition expected (ph : phase) (o : op) : ans o -> Prop :=
  match o with
  | ONext _ _ _ => fun a => nr_ret a < 0 \/ exists ps, nr_pdus a = Some ps
  | OBagGet i => fun a =>
      match ph with
      | PScan i n => match a with
                     | None => i = n
                     | Some x => (i < n)%nat /\ exists r st, x = Some (mkRq r (Some st))
                     end
      | _ => True
      end
  | _ => fun _ => True
  end.

Fixpoint keeps_to {A} (ph : phase) (p : Prog A) (Q : phase -> A -> Prop) : Prop :=
  match p with
  | Ret a => Q ph a
  | Stop DbExit => True
  | Stop DbUndefined => False
  | Call o k => allowed ph o /\ forall a, expected ph o a -> keeps_to (next_phase ph o a) (k a) Q
  end.

(** ** Rules *)

Lemma keeps_to_mono {A} (p : Prog A) : forall ph (Q Q' : phase -> A -> Prop),
  (forall ph' a, Q ph' a -> Q' ph' a) -> keeps_to ph p Q -> keeps_to ph p Q'.
Proof.
  induction p as [a|x|o k IH]; intros ph Q Q' HQ; cbn; [apply HQ|done|].
  intros [Ha Hk]. split; [done|]. intros a Ea. eapply IH; [exact HQ|]. by apply Hk.
Qed.

Lemma keeps_to_pbind {A B} (f : A -> Prog B) (p : Prog A) : forall ph Q,
  keeps_to ph p (fun ph' a => keeps_to ph' (f a) Q) -> keeps_to ph (pbind f p) Q.
Proof.
  induction p as [a|x|o k IH]; intros ph Q; cbn; [done|done|].
  intros [Ha Hk]. split; [done|]. intros a Ea. by apply IH, Hk.
Qed.

(** [m] from phase [ph] and variables [d]. *)
Definition runs {A} (ph : phase) (d : db_run) (m : DT A) (Q : phase -> db_run -> A -> Prop) : Prop :=
  keeps_to ph (m d) (fun ph' x => Q ph' (fst x) (snd x)).

Lemma r_ret {A} ph d (a : A) (Q : phase -> db_run -> A -> Prop) : Q ph d a -> runs ph d (dt_ret a) Q.
Proof. done. Qed.

Lemma r_exit {A} ph d (Q : phase -> db_run -> A -> Prop) : runs ph d (dt_stop DbExit) Q.
Proof. done. Qed.

Lemma r_bind {A B} ph d (m : DT A) (f : A -> DT B) Q :
  runs ph d m (fun ph' d' a => runs ph' d' (f a) Q) -> runs ph d (dt_bind f m) Q.
Proof.
  intros H. unfold runs, dt_bind. apply keeps_to_pbind. eapply keeps_to_mono; [|exact H].
  by intros ph' [d' a].
Qed.

Lemma r_gets {A B} ph d (g : db_run -> A) (f : A -> DT B) Q :
  runs ph d (f (g d)) Q -> runs ph d (dt_bind f (dt_gets g)) Q.
Proof. intros H. by apply r_bind. Qed.

Lemma r_modify {B} ph d (g : db_run -> db_run) (f : unit -> DT B) Q :
  runs ph (g d) (f tt) Q -> runs ph d (dt_bind f (dt_modify g)) Q.
Proof. intros H. by apply r_bind. Qed.

Lemma r_call {B} ph d o (f : ans o -> DT B) Q :
  allowed ph o -> (forall a, expected ph o a -> runs (next_phase ph o a) d (f a) Q) ->
  runs ph d (dt_bind f (dt_call o)) Q.
Proof. intros Ha H. apply r_bind. split; [done|]. exact H. Qed.

Lemma r_mono {A} ph d (m : DT A) (Q Q' : phase -> db_run -> A -> Prop) :
  runs ph d m Q' -> (forall ph' d' a, Q' ph' d' a -> Q ph' d' a) -> runs ph d m Q.
Proof. intros H HQ. eapply keeps_to_mono; [|exact H]. intros ph' [d' a]. apply HQ. Qed.

Lemma r_seq {A B} ph d (m : DT A) (f : A -> DT B) ph1 d1 a1 Q :
  runs ph d m (fun ph' d' a => ph' = ph1 /\ d' = d1 /\ a = a1) -> runs ph1 d1 (f a1) Q ->
  runs ph d (dt_bind f m) Q.
Proof. intros H1 H2. apply r_bind. eapply r_mono; [exact H1|]. by intros ph' d' a (-> & -> & ->). Qed.

(** The variables of a thread that serves [rq], without a response. *)
Definition serving (rq : db_request_state) : db_run := mkDbRun None (Some rq) None.

(** ** The code *)

Definition finishes (ph : phase) (d : db_run) (_ : unit) : Prop := ph = PIdle /\ d = db_run_start.

Lemma r_allocate ph rq pdus :
  runs ph (serving rq) (allocate_response pdus)
    (fun ph' d _ => ph' = ph /\ d = set_db_resp (Some (mkResponse pdus false)) (serving rq)).
Proof.
  unfold allocate_response. apply r_gets. cbn [serving db_resp].
  apply r_call; [done|]. intros [|] _; cbn [negb]; [|done].
  destruct pdus as [|p l]; [done|]. apply r_call; [done|]. by intros [|] _; cbn [negb].
Qed.

Lemma r_send ph rq x ph1 ph2 :
  allowed ph (OPush (rq_request rq) x) -> next_phase ph (OPush (rq_request rq) x) true = ph1 ->
  allowed ph1 (OPostResponse (rq_request rq)) ->
  (forall b, next_phase ph1 (OPostResponse (rq_request rq)) b = ph2) ->
  runs ph (set_db_resp (Some x) (serving rq)) send_response (fun ph' d _ => ph' = ph2 /\ d = serving rq).
Proof.
  intros H1 H2 H3 H4. unfold send_response, the_request_state. apply r_bind, r_gets. apply r_ret. apply r_gets.
  cbn [set_db_resp db_resp]. apply r_call; [done|]. intros [|] _; cbn [negb]; [|done]. rewrite H2.
  apply r_modify. apply r_bind, r_gets. apply r_ret. apply r_call; [done|]. intros b _. by rewrite H4.
Qed.

(** The three ways to send the last response. *)
Lemma r_last ph rq pdus :
  allowed ph (OPush (rq_request rq) (mkResponse pdus true)) ->
  runs ph (serving rq) (allocate_response pdus ;! set_done true ;! send_response)
    (fun ph' d _ => ph' = PIdle /\ d = serving rq).
Proof.
  intros Ha. apply r_bind. eapply r_mono; [apply r_allocate|]. intros ph' d ? [-> ->].
  apply r_bind. unfold set_done. apply r_gets. cbn [set_db_resp db_resp].
  apply r_send with (ph1 := PClosing (rq_request rq)); try done. by left.
Qed.

Lemma r_error ph rq :
  allowed ph (OPush (rq_request rq) error_response) ->
  runs ph (serving rq) (send_error ERR_INTERNAL_ERROR ;! finish_request) finishes.
Proof.
  intros Ha. apply r_bind. eapply r_mono; [by apply r_last|]. by intros ph' d ? [-> ->].
Qed.

Lemma r_stop_current {B} ph rq x (f : unit -> DT B) Q :
  runs ph (mkDbRun None (Some (stop_query rq)) x) (f tt) Q ->
  runs ph (mkDbRun None (Some rq) x) (dt_bind f stop_current) Q.
Proof.
  intros H. unfold stop_current, the_request_state. apply r_bind. apply r_bind, r_gets. by apply r_ret.
Qed.

Lemma r_put_back r st : runs (PSent r st) (serving (mkRq r (Some st))) put_back finishes.
Proof.
  unfold put_back, the_request_state. apply r_bind, r_gets. apply r_ret.
  apply r_call; [by exists r, st|]. intros [|] _; cbn [negb next_phase].
  - unfold finish_request. apply r_modify. apply r_call; [done|]. intros b _. done.
  - apply r_stop_current. by apply r_error.
Qed.

Lemma r_next_step r st : runs (PServe r (At st)) (serving (mkRq r (Some st))) next_step finishes.
Proof.
  unfold next_step. apply r_bind. eapply r_mono; [apply r_allocate|]. intros ph' d ? [-> ->].
  unfold the_request_state. apply r_bind, r_gets. apply r_ret. cbn [rq_query_state rq_request].
  apply r_call; [done|]. intros x Hx. cbn [expected next_phase] in *. apply r_modify.
  destruct (Z.ltb_spec (nr_ret x) 0) as [Hneg|Hpos].
  - apply r_modify. apply r_stop_current. apply r_error. cbn. split; [done|].
    unfold batch_response. by rewrite (proj2 (Z.ltb_lt _ _)).
  - destruct Hx as [?|[ps Eps]]; [lia|]. rewrite Eps. apply r_modify.
    assert (Hb : batch_response x = Some (mkResponse ps (nr_done x)))
      by (unfold batch_response; by rewrite (proj2 (Z.ltb_ge _ _)), Eps).
    destruct (nr_done x) eqn:Ed.
    + apply r_stop_current. apply r_bind.
      eapply r_mono; [apply (r_send (PNext r st x) (stop_query (mkRq r (Some (nr_state x)))) _ (PClosing r) PIdle);
        cbn; rewrite ?Ed; auto|].
      intros ph' d ? [-> ->]. done.
    + apply r_bind. apply r_ret. apply r_bind.
      eapply r_mono; [apply (r_send (PNext r st x) (mkRq r (Some (nr_state x))) _
         (PSent r (nr_state x)) (PSent r (nr_state x))); cbn; rewrite ?Ed; eauto|].
      intros ph' d ? [-> ->]. apply r_put_back.
Qed.

Lemma r_cancelled ph rq : (exists p, ph = PCancel (rq_request rq) p) ->
  runs ph (serving rq) (stop_current ;! send_empty_response ;! finish_request) finishes.
Proof.
  intros [p ->]. apply r_stop_current. apply r_bind.
  eapply r_mono; [by apply (r_last (PCancel (rq_request rq) p) (stop_query rq) [])|]. by intros ph' d ? [-> ->].
Qed.

(** A request in hand: new, or from the bag. *)
Lemma r_service_new r :
  runs (PHold r NotStarted) (serving (mkRq r None)) (service_request true) finishes.
Proof.
  unfold service_request, the_request_state. apply r_bind, r_gets. apply r_ret.
  apply r_call; [right; by eexists|]. intros [|] _; cbn [next_phase rq_request].
  - apply r_cancelled. by eexists.
  - apply r_call; [done|]. intros [st|] _; cbn [next_phase].
    + apply r_modify. apply r_next_step.
    + by apply r_error.
Qed.

Lemma r_service_old r st :
  runs (PHold r (At st)) (serving (mkRq r (Some st))) (service_request false) finishes.
Proof.
  unfold service_request, the_request_state. apply r_bind, r_gets. apply r_ret.
  apply r_call; [right; by eexists|]. intros [|] _; cbn [next_phase rq_request].
  - apply r_cancelled. by eexists.
  - apply r_next_step.
Qed.

(** What the search ends with. *)
Definition search_done (ph : phase) (d : db_run) (_ : unit) : Prop :=
  (ph = PMiss /\ d = db_run_start) \/ (exists r st, ph = PHold r (At st) /\ d = serving (mkRq r (Some st))).

Lemma r_find_loop n : forall fuel i rq, (i <= n)%nat -> (n < i + fuel)%nat ->
  runs (PScan i n) (mkDbRun None rq None) (find_loop fuel i) search_done.
Proof.
  induction fuel as [|fuel IH]; intros i rq Hi Hf; [lia|]. cbn [find_loop].
  apply r_call; [by exists n|]. intros x Hx. cbn [expected] in Hx. destruct x as [[x|]|]; cbn [next_phase].
  - destruct Hx as [Hlt (r & st & [= ->])]. apply r_modify. cbn [rq_request].
    apply r_call; [left; by exists i, n, (mkRq r (Some st))|]. intros c _. cbn [next_phase].
    assert (Hfound : runs (PFound i n (mkRq r (Some st))) (serving (mkRq r (Some st)))
      (dt_call (OBagErase i) ;! let! ok := dt_call OBagUnlock in if negb ok then dt_stop DbExit else dt_ret tt)
      search_done).
    { apply r_call; [by exists n, (mkRq r (Some st))|]. intros [] _. cbn [next_phase].
      apply r_call; [right; by eexists|]. intros [|] _; cbn [negb next_phase]; [|done].
      right. by exists r, st. }
    destruct c.
    + apply r_bind. apply r_ret. exact Hfound.
    + apply r_bind. apply r_call; [by exists i, n, (mkRq r (Some st))|]. intros k _. cbn [next_phase].
      apply r_ret. destruct (Nat.ltb k DB_RESPONSE_BUFFER_LENGTH); [exact Hfound|]. apply IH; lia.
  - by destruct Hx as [_ (r & st & Hx)].
  - apply r_call; [by left|]. intros [|] _; cbn [negb next_phase]; [|done]. by left.
Qed.

Lemma r_main_loop : runs PIdle db_run_start db_main_loop finishes.
Proof.
  unfold db_main_loop, wait_on_semaphore. apply r_bind. apply r_call; [done|].
  intros [|] _; cbn [negb next_phase]; [|done]. apply r_ret, r_gets. cbn [id db_run_start request request_state db_resp].
  unfold try_service_request. apply r_bind. unfold try_service_existing_request. apply r_bind.
  unfold find_existing_request_to_service. apply r_call; [done|]. intros [n|] _; cbn [next_phase]; [|done].
  eapply r_mono; [apply r_find_loop; lia|]. intros ph d ? [[-> ->]|(r & st & -> & ->)]; apply r_gets.
  - cbn [db_run_start request_state]. apply r_ret. apply r_bind. unfold try_service_new_request.
    apply r_call; [done|]. intros [r|] _; cbn [next_phase]; [|done].
    apply r_modify. apply r_call; [done|]. intros [|] _; cbn [negb next_phase]; [|done].
    apply r_modify, r_modify, r_bind. eapply r_mono; [apply r_service_new|]. by intros ph d ? [-> ->].
  - cbn [serving request_state]. apply r_bind. eapply r_mono; [apply r_service_old|]. by intros ph d ? [-> ->].
Qed.

Lemma r_main_start : runs PIdle db_run_start (db_main_start true) finishes.
Proof.
  unfold db_main_start. cbn [negb]. apply r_modify.
  apply r_call; [done|]. intros [|] _; cbn [negb next_phase]; [|done].
  apply r_call; [done|]. by intros [|] _; cbn [negb next_phase].
Qed.
