(* ===== verification/DbInv.v ===== *)
(** * The invariant of the database threads

    Who has a request, how far it has been served, and why no wake-up is
    lost. The invariant speaks of the phases of the threads ([DbProtocol]) as
    a multiset, so one thread's step is a step of the first phase. *)

From stdpp Require Import gmap.
From S2P Require Import Prelude Pdu Sql RtrQuery CacheState Connection DbThread DbSystem DbProtocol.
Local Open Scope nat_scope.

(** ** Vocabulary *)

(** The request a thread has in hand. *)
Definition held (ph : phase) : option (rid * position) :=
  match ph with
  | PTook x => Some (rq_request x, at_state x)
  | PHold r p | PServe r p | PCancel r p => Some (r, p)
  | PNext r st _ | PSent r st | PFail r st => Some (r, At st)
  | _ => None
  end.
Definition bag_entry (e : option db_request_state) : option (rid * position) :=
  x ← e; Some (rq_request x, at_state x).

(** All unfinished requests, where they are. *)
Definition owned (phs : list phase) (s : shared) : list (rid * position) :=
  ((fun r => (r, NotStarted)) <$> sh_requests s) ++ omap bag_entry (sh_bag s) ++ omap held phs.

Definition locked (ph : phase) : nat :=
  match ph with
  | PScan _ _ | PLook _ _ _ | PFull _ _ _ | PFound _ _ _ | PTook _ | PScanned => 1
  | _ => 0
  end.

(** Wake-ups in the hands of threads: [w1] before the bag has been searched
    (or owed after a request was put back), [w2] after that. *)
Definition w1 (ph : phase) : nat :=
  match ph with
  | PAwake | PScan _ _ | PLook _ _ _ | PFull _ _ _ | PFound _ _ _ | POwe => 1
  | _ => 0
  end.
Definition w2 (ph : phase) : nat := match ph with PScanned | PMiss => 1 | _ => 0 end.
Definition tokens1 (phs : list phase) (s : shared) : nat :=
  sh_sem s + sh_owed s + sh_lost s + sum_list_with w1 phs.
Definition tokens2 (phs : list phase) (s : shared) : nat := tokens1 phs s + sum_list_with w2 phs.

(** A request in the bag that a thread would serve. *)
Definition ready (q : req) : bool := q_cancel q || (length (q_queue q) <? DB_RESPONSE_BUFFER_LENGTH).
Definition svc (m : gmap rid req) (e : option db_request_state) : nat :=
  match e with
  | Some x => match m !! rq_request x with Some q => if ready q then 1 else 0 | None => 0 end
  | None => 0
  end.
Definition svcs (m : gmap rid req) (l : list (option db_request_state)) : nat := sum_list_with (svc m) l.
Definition cancelled (m : gmap rid req) (x : db_request_state) : nat :=
  match m !! rq_request x with Some q => if q_cancel q then 1 else 0 | None => 0 end.

Section invariant.
Context (start_rel : db_query -> option query_state -> Prop).
Context (next_rel : db_query -> query_state -> nat -> next_result -> Prop).
Hypothesis next_ok : forall q st n x, next_rel q st n x -> (nr_ret x < 0)%Z \/ exists ps, nr_pdus x = Some ps.

Notation served := (served start_rel next_rel).
Notation op_step := (op_step start_rel next_rel).

(** What a phase knows. *)
Definition ph_ok (s : shared) (ph : phase) : Prop :=
  match ph with
  | PScan i n => n = length (sh_bag s) /\ i <= n
  | PLook i n x | PFull i n x => n = length (sh_bag s) /\ sh_bag s !! i = Some (Some x)
  | PFound i n x => n = length (sh_bag s) /\ sh_bag s !! i = Some (Some x)
      /\ exists q, sh_reqs s !! rq_request x = Some q /\ ready q = true
  | PTook x => exists q, sh_reqs s !! rq_request x = Some q /\ ready q = true
  | PHold r p => exists q, sh_reqs s !! r = Some q /\ ready q = true
  | PServe r p => exists q, sh_reqs s !! r = Some q /\ length (q_queue q) < DB_RESPONSE_BUFFER_LENGTH
  | PCancel r p => exists q, sh_reqs s !! r = Some q /\ q_cancel q = true
  | PNext r st x => exists q, sh_reqs s !! r = Some q /\ length (q_queue q) < DB_RESPONSE_BUFFER_LENGTH
      /\ next_rel (q_query q) st DB_ROWS_PER_RESPONSE x
  | _ => True
  end.

(** A search that has passed [i] elements has left a wake-up for each of them
    that has become ready since. *)
Definition scan_ok (T : nat) (s : shared) (ph : phase) : Prop :=
  match ph with
  | PScan i n | PLook i n _ => S (svcs (sh_reqs s) (take i (sh_bag s))) <= T
  | PFull i n x => S (svcs (sh_reqs s) (take i (sh_bag s)) + cancelled (sh_reqs s) x) <= T
  | _ => True
  end.

Definition queue_ok (q : req) : Prop := exists pre, q_log q = pre ++ q_queue q.

Record Inv (phs : list phase) (s : shared) : Prop := {
  i_lock : sum_list_with locked phs = match sh_lock s with Some _ => 1 | None => 0 end;
  i_ph : Forall (ph_ok s) phs;
  i_bag : Forall (fun e => exists r st, e = Some (mkRq r (Some st))) (sh_bag s);
  i_nodup : NoDup (owned phs s).*1;
  i_owned : forall r p, (r, p) ∈ owned phs s -> exists q, sh_reqs s !! r = Some q
    /\ served (q_query q) (q_cancel q) (q_log q) p /\ p <> Finished /\ length (q_queue q) <= 3;
  i_done : forall r q, sh_reqs s !! r = Some q -> r ∉ (owned phs s).*1 ->
    served (q_query q) (q_cancel q) (q_log q) Finished /\ length (q_queue q) <= 4;
  i_queue : forall r q, sh_reqs s !! r = Some q -> queue_ok q;
  i_c1 : svcs (sh_reqs s) (sh_bag s) <= tokens1 phs s;
  i_c2 : svcs (sh_reqs s) (sh_bag s) + length (sh_requests s) <= tokens2 phs s;
  i_c3 : Forall (scan_ok (tokens1 phs s) s) phs }.

(** ** Order does not matter *)

Lemma owned_perm phs phs' s : phs ≡ₚ phs' -> owned phs s ≡ₚ owned phs' s.
Proof. intros H. unfold owned. by rewrite H. Qed.

Lemma inv_perm phs phs' s : phs ≡ₚ phs' -> Inv phs s -> Inv phs' s.
Proof.
  intros Hp [H1 H2 H3 H4 H5 H6 H7 H8 H9 H10].
  assert (Hs : forall f : phase -> nat, sum_list_with f phs = sum_list_with f phs') by (intros f; by rewrite Hp).
  pose proof (owned_perm phs phs' s Hp) as Ho.
  split; unfold tokens2, tokens1 in *; rewrite <- ?Hs, <- ?Hp, <- ?Ho; try done.
  - intros r p. rewrite <- Ho. apply H5.
  - intros r q. rewrite <- Ho. apply H6.
Qed.

(** ** One request alone *)

Lemma served_done q c log p x : served q c log p -> last log = Some x -> resp_is_done x = true -> p = Finished.
Proof.
  intros H. destruct H as [|st Hst|log st r ps H Hn Hr Hp|log p H Hp|log p H Hp Hc]; rewrite ?last_snoc; try done.
  intros [= <-]. cbn. by intros ->.
Qed.

Lemma served_not_started q c log : served q c log NotStarted -> log = [].
Proof.
  intros H. remember NotStarted as p eqn:E. destruct H; try done. by destruct (nr_done r).
Qed.

Lemma served_cancelled q c log p : served q c log p -> served q true log p.
Proof. induction 1; [constructor|by constructor|by econstructor|by econstructor|by eapply served_cancel]. Qed.

(** A response that ends a request, in the middle of the log: impossible. *)
Lemma served_last q c log p : served q c log p ->
  forall pre x post, log = pre ++ x :: post -> resp_is_done x = true -> post = [] /\ p = Finished.
Proof.
  assert (Hsnoc : forall (l pre post : list db_response) x y, l ++ [y] = pre ++ x :: post ->
    (post = [] /\ x = y) \/ exists post', post = post' ++ [y] /\ l = pre ++ x :: post').
  { intros l pre post x y E. destruct post as [|z post _] using rev_ind.
    - left. by apply app_inj_tail in E as [_ ->].
    - right. exists post. rewrite app_comm_cons, app_assoc in E. by apply app_inj_tail in E as [-> ->]. }
  induction 1 as [|st Hst|log st r ps H IH Hn Hr Hp|log p H IH Hp|log p H IH Hp Hc]; intros pre x post E Hd.
  1,2: by destruct pre.
  - apply Hsnoc in E as [[-> ->]|(post' & -> & E)]; [cbn in Hd; by rewrite Hd|].
    destruct (IH _ _ _ E Hd) as [_ ?]. done.
  - apply Hsnoc in E as [[-> ->]|(post' & -> & E)]; [done|]. by destruct (IH _ _ _ E Hd).
  - apply Hsnoc in E as [[-> ->]|(post' & -> & E)]; [done|]. by destruct (IH _ _ _ E Hd).
Qed.

(** ** Counting *)

Lemma svc_le m e : svc m e <= 1.
Proof. unfold svc. destruct e as [x|]; [|lia]. destruct (m !! _) as [q|]; [|lia]. destruct (ready q); lia. Qed.

Lemma svcs_app m l1 l2 : svcs m (l1 ++ l2) = svcs m l1 + svcs m l2.
Proof. apply sum_list_with_app. Qed.

Lemma svcs_perm m l l' : l ≡ₚ l' -> svcs m l = svcs m l'.
Proof. intros H. unfold svcs. by rewrite H. Qed.

Lemma bag_perm l l' : l ≡ₚ l' -> omap bag_entry l ≡ₚ omap bag_entry l'.
Proof. intros H. by rewrite H. Qed.

Lemma svcs_cons m e l : svcs m (e :: l) = svc m e + svcs m l.
Proof. done. Qed.

Lemma keys_cons e l : (omap bag_entry (e :: l)).*1
  = match e with Some x => [rq_request x] | None => [] end ++ (omap bag_entry l).*1.
Proof. by destruct e. Qed.

Lemma svc_other m r q e : bag_entry e = None \/ (forall x, e = Some x -> rq_request x <> r) ->
  svc (<[r := q]> m) e = svc m e.
Proof.
  intros H. destruct e as [x|]; [|done]. destruct H as [H|H]; [done|]. cbn.
  rewrite lookup_insert_ne; [done|]. intros ->. by apply (H x).
Qed.

Lemma svcs_other m r q l : r ∉ (omap bag_entry l).*1 -> svcs (<[r := q]> m) l = svcs m l.
Proof.
  induction l as [|e l IH]; [done|]. rewrite keys_cons, !svcs_cons, not_elem_of_app. intros [H1 H2].
  rewrite IH by done. f_equal. apply svc_other. right. intros x ->. set_solver.
Qed.

Lemma svcs_update m r q l : NoDup (omap bag_entry l).*1 -> svcs (<[r := q]> m) l <= S (svcs m l).
Proof.
  induction l as [|e l IH]; [cbn; lia|]. rewrite keys_cons, !svcs_cons, NoDup_app. intros (_ & H2 & H3).
  assert (Hother : (forall x, e = Some x -> rq_request x <> r) ->
    svc (<[r := q]> m) e + svcs (<[r := q]> m) l <= S (svc m e + svcs m l)).
  { intros Hne. rewrite svc_other by (by right). specialize (IH H3). lia. }
  destruct e as [x|]; [|by apply Hother]. destruct (decide (rq_request x = r)) as [Hx|Hne].
  - rewrite (svcs_other m r q l) by (apply H2; set_solver). pose proof (svc_le (<[r:=q]> m) (Some x)). lia.
  - apply Hother. by intros x' [= <-].
Qed.

Lemma svcs_same m r q q' l : m !! r = Some q -> ready q' = ready q -> svcs (<[r := q']> m) l = svcs m l.
Proof.
  intros Hr Hq. induction l as [|e l IH]; [done|]. rewrite !svcs_cons, IH. f_equal.
  destruct e as [x|]; [|done]. cbn. destruct (decide (r = rq_request x)) as [<-|Hne].
  - by rewrite lookup_insert_eq, Hr, Hq.
  - by rewrite lookup_insert_ne.
Qed.

Lemma omap_take_sub (l : list (option db_request_state)) i :
  (omap bag_entry (take i l)).*1 ⊆+ (omap bag_entry l).*1.
Proof. rewrite <- (take_drop i l) at 2. rewrite omap_app, fmap_app. by apply submseteq_inserts_r. Qed.

(** ** Ownership *)

Lemma owned_cons ph rest s : owned (ph :: rest) s ≡ₚ option_list (held ph) ++ owned rest s.
Proof.
  unfold owned. cbn [omap list_omap]. destruct (held ph) as [x|]; cbn [option_list app]; [|done].
  rewrite !app_assoc. by rewrite <- Permutation_middle.
Qed.

Lemma owned_held ph rest s x : held ph = Some x -> owned (ph :: rest) s ≡ₚ x :: owned rest s.
Proof. intros H. by rewrite owned_cons, H. Qed.

Lemma owned_none ph rest s : held ph = None -> owned (ph :: rest) s ≡ₚ owned rest s.
Proof. intros H. by rewrite owned_cons, H. Qed.

Lemma held_owned ph rest s x : ph ∈ rest -> held ph = Some x -> x ∈ owned rest s.
Proof. intros Hin Hx. unfold owned. rewrite !elem_of_app. right. right. apply list_elem_of_omap. by exists ph. Qed.

Lemma bag_owned rest s i x : sh_bag s !! i = Some (Some x) -> (rq_request x, at_state x) ∈ owned rest s.
Proof.
  intros H. unfold owned. rewrite !elem_of_app. right. left. apply list_elem_of_omap. exists (Some x).
  split; [by eapply list_elem_of_lookup_2|done].
Qed.

Lemma bag_keys_nodup phs s : Inv phs s -> NoDup (omap bag_entry (sh_bag s)).*1.
Proof.
  intros H. pose proof (i_nodup _ _ H) as Hn. unfold owned in Hn. rewrite !fmap_app in Hn.
  apply NoDup_app in Hn as (_ & _ & Hn). by apply NoDup_app in Hn as (? & _ & _).
Qed.

Lemma bag_keys_owned rest s : (omap bag_entry (sh_bag s)).*1 ⊆ (owned rest s).*1.
Proof. unfold owned. rewrite !fmap_app. set_solver. Qed.

(** Changes elsewhere in the map of requests. *)
Definition agree (m m' : gmap rid req) (l : list rid) : Prop := forall r, r ∈ l -> m' !! r = m !! r.

Lemma agree_insert m r q l : r ∉ l -> agree m (<[r := q]> m) l.
Proof. intros Hr r' Hr'. apply lookup_insert_ne. by intros ->. Qed.

Lemma agree_delete m r l : r ∉ l -> agree m (delete r m) l.
Proof. intros Hr r' Hr'. apply lookup_delete_ne. by intros ->. Qed.

Lemma svcs_agree m m' l : agree m m' (omap bag_entry l).*1 -> svcs m' l = svcs m l.
Proof.
  induction l as [|e l IH]; [done|]. intros Ha. rewrite keys_cons in Ha. rewrite !svcs_cons, IH.
  - f_equal. destruct e as [x|]; [|done]. cbn. rewrite Ha; [done|]. by left.
  - intros r Hr. apply Ha. apply elem_of_app. by right.
Qed.

(** Every request a phase speaks of is owned. *)
Lemma ph_key s rest ph : ph ∈ rest -> ph_ok s ph ->
  match held ph with
  | Some (r, _) => r ∈ (owned rest s).*1
  | None => match ph with PLook _ _ x | PFull _ _ x | PFound _ _ x => rq_request x ∈ (owned rest s).*1 | _ => True end
  end.
Proof.
  intros Hin Hok. destruct (held ph) as [[r p]|] eqn:Hh.
  - apply list_elem_of_fmap. exists (r, p). split; [done|]. by eapply held_owned.
  - assert (Hbag : forall i x, sh_bag s !! i = Some (Some x) -> rq_request x ∈ (owned rest s).*1).
    { intros i x Hx. apply list_elem_of_fmap. eexists. split; [|by eapply bag_owned]. done. }
    destruct ph; try done; cbn in Hok; destruct Hok as [_ Hok]; try (by eapply Hbag). destruct Hok as [Hok _]. by eapply Hbag.
Qed.

Lemma ph_ok_agree s rest m : Forall (ph_ok s) rest -> agree (sh_reqs s) m (owned rest s).*1 ->
  Forall (ph_ok (set_reqs m s)) rest.
Proof.
  rewrite !Forall_forall. intros H Ha ph Hin. specialize (H ph Hin). pose proof (ph_key s rest ph Hin H) as Hk.
  destruct ph; cbn in *; try done; rewrite Ha by done; done.
Qed.

Lemma svcs_take_agree rest s m i : agree (sh_reqs s) m (owned rest s).*1 ->
  svcs m (take i (sh_bag s)) = svcs (sh_reqs s) (take i (sh_bag s)).
Proof.
  intros Ha. apply svcs_agree. intros r Hr. apply Ha, (bag_keys_owned rest s).
  by eapply elem_of_submseteq; [|apply omap_take_sub].
Qed.

Lemma scan_ok_agree T s rest m : Forall (ph_ok s) rest -> Forall (scan_ok T s) rest ->
  agree (sh_reqs s) m (owned rest s).*1 -> Forall (scan_ok T (set_reqs m s)) rest.
Proof.
  rewrite !Forall_forall. intros Hok H Ha ph Hin. specialize (H ph Hin). specialize (Hok ph Hin).
  pose proof (ph_key s rest ph Hin Hok) as Hk.
  destruct ph; cbn in *; try done; rewrite (svcs_take_agree rest) by done; try done.
  unfold cancelled. by rewrite Ha.
Qed.

(** Threads that do not search know nothing of the bag. *)
Lemma unlocked_ok s s' rest : sum_list_with locked rest = 0 -> sh_reqs s' = sh_reqs s ->
  Forall (ph_ok s) rest -> Forall (ph_ok s') rest.
Proof.
  intros Hl Hr. induction 1 as [|ph rest Hok _ IH]; [done|]. cbn in Hl. constructor; [|apply IH; lia].
  destruct ph; cbn in *; try done; try lia; by rewrite Hr.
Qed.

Lemma unlocked_scan T s rest : sum_list_with locked rest = 0 -> Forall (scan_ok T s) rest.
Proof.
  induction rest as [|ph rest IH]; [done|]. cbn. intros Hl. constructor; [|apply IH; lia].
  destruct ph; cbn in *; try done; lia.
Qed.

(** ** Steps of a thread *)

Definition L (s : shared) : nat := match sh_lock s with Some _ => 1 | None => 0 end.

(** A step that moves no request. *)
Lemma inv_move ph ph' rest s s' :
  Inv (ph :: rest) s -> held ph' = held ph ->
  sh_reqs s' = sh_reqs s -> sh_bag s' = sh_bag s -> sh_requests s' = sh_requests s ->
  locked ph' + L s = locked ph + L s' ->
  (tokens1 (ph :: rest) s <= tokens1 (ph' :: rest) s'
   \/ locked ph = 1 /\ svcs (sh_reqs s) (sh_bag s) <= tokens1 (ph' :: rest) s') ->
  svcs (sh_reqs s) (sh_bag s) + length (sh_requests s) <= tokens2 (ph' :: rest) s' ->
  ph_ok s ph' -> scan_ok (tokens1 (ph' :: rest) s') s ph' -> Inv (ph' :: rest) s'.
Proof.
  intros [H1 H2 H3 H4 H5 H6 H7 H8 H9 H10] Hh Er Eb Eq Hl Ht1 Ht2 Hok Hsc. fold (L s) in H1.
  assert (Ho : owned (ph' :: rest) s' = owned (ph :: rest) s)
    by (unfold owned; cbn [omap list_omap]; by rewrite Hh, Eb, Eq).
  assert (Hph : forall x, ph_ok s' x <-> ph_ok s x) by (intros []; cbn; by rewrite ?Er, ?Eb).
  assert (Hscan : forall T x, scan_ok T s' x <-> scan_ok T s x) by (intros T []; cbn; by rewrite ?Er, ?Eb).
  apply Forall_cons in H2 as [_ H2]. apply Forall_cons in H10 as [_ H10]. cbn [sum_list_with] in H1.
  split; rewrite ?Ho, ?Er, ?Eb, ?Eq; try done.
  - fold (L s'). cbn [sum_list_with]. lia.
  - constructor; [by apply Hph|]. eapply Forall_impl; [exact H2|]. intros x. apply Hph.
  - destruct Ht1; lia.
  - constructor; [by apply Hscan|]. destruct Ht1 as [Ht1|[Hlk _]].
    + eapply Forall_impl; [exact H10|]. intros x Hx. apply Hscan. destruct x; cbn in *; try done; lia.
    + apply unlocked_scan. unfold L in *. destruct (sh_lock s); lia.
Qed.

(** The request in hand changes, or is given up for good. *)
Lemma inv_own ph ph' rest s r p q q' :
  Inv (ph :: rest) s -> held ph = Some (r, p) -> sh_reqs s !! r = Some q ->
  (exists p', held ph' = Some (r, p') /\ served (q_query q') (q_cancel q') (q_log q') p'
     /\ p' <> Finished /\ length (q_queue q') <= 3)
  \/ (held ph' = None /\ served (q_query q') (q_cancel q') (q_log q') Finished /\ length (q_queue q') <= 4) ->
  queue_ok q' -> locked ph' = locked ph -> w1 ph' = w1 ph -> w2 ph' = w2 ph ->
  ph_ok (set_reqs (<[r := q']> (sh_reqs s)) s) ph' ->
  (forall T, scan_ok T (set_reqs (<[r := q']> (sh_reqs s)) s) ph') ->
  Inv (ph' :: rest) (set_reqs (<[r := q']> (sh_reqs s)) s).
Proof.
  intros [H1 H2 H3 H4 H5 H6 H7 H8 H9 H10] Hh Hq Hnew Hqo Hl Hw1 Hw2 Hok Hsc.
  pose proof (owned_held ph rest s _ Hh) as Ho. rewrite Ho in H4. cbn in H4. apply NoDup_cons in H4 as [Hr H4].
  apply Forall_cons in H2 as [_ H2]. apply Forall_cons in H10 as [_ H10]. set (s' := set_reqs _ s) in *.
  assert (Ho' : owned (ph' :: rest) s' ≡ₚ option_list (held ph') ++ owned rest s)
    by (change (owned rest s) with (owned rest s'); apply owned_cons).
  assert (Hs : svcs (<[r := q']> (sh_reqs s)) (sh_bag s) = svcs (sh_reqs s) (sh_bag s)).
  { apply svcs_other. intros Hi. by apply Hr, (bag_keys_owned rest s). }
  assert (Ht1 : tokens1 (ph' :: rest) s' = tokens1 (ph :: rest) s) by (unfold tokens1; cbn; lia).
  assert (Ht2 : tokens2 (ph' :: rest) s' = tokens2 (ph :: rest) s) by (unfold tokens2; rewrite Ht1; cbn; lia).
  split; rewrite ?Ht1, ?Ht2; cbn [s' sh_lock sh_reqs sh_bag sh_requests set_reqs]; rewrite ?Hs; try done.
  - cbn [sum_list_with]. by rewrite Hl.
  - constructor; [done|]. by apply ph_ok_agree, agree_insert.
  - rewrite Ho'. destruct Hnew as [(p' & -> & _)|(-> & _)]; cbn; [by apply NoDup_cons|done].
  - intros r1 p1 Hin. rewrite Ho' in Hin. apply elem_of_app in Hin as [Hin|Hin].
    + destruct Hnew as [(p' & E & Hs1 & Hp & Hlen)|(E & _)]; rewrite E in Hin; cbn in Hin; [|by apply elem_of_nil in Hin].
      apply list_elem_of_singleton in Hin as [= -> ->]. exists q'. by rewrite lookup_insert_eq.
    + rewrite lookup_insert_ne by (intros ->; apply Hr, list_elem_of_fmap; by exists (r1, p1)).
      apply H5. rewrite Ho. by right.
  - intros r1 q1 E Hn. rewrite Ho', fmap_app, not_elem_of_app in Hn. destruct Hn as [Hn1 Hn2].
    destruct (decide (r = r1)) as [<-|Hne].
    + rewrite lookup_insert_eq in E. injection E as <-.
      destruct Hnew as [(p' & Eh & _)|(_ & ? & ?)]; [|done]. rewrite Eh in Hn1. cbn in Hn1.
      destruct Hn1. by left.
    + rewrite lookup_insert_ne in E by done. apply (H6 r1 q1 E). rewrite Ho. cbn. by apply not_elem_of_cons.
  - intros r1 q1 E. destruct (decide (r = r1)) as [<-|Hne].
    + rewrite lookup_insert_eq in E. by injection E as <-.
    + rewrite lookup_insert_ne in E by done. by eapply H7.
  - constructor; [apply Hsc|]. by apply scan_ok_agree, agree_insert.
Qed.

(** Taking a request out of the bag. *)
Lemma inv_erase i n x rest s :
  Inv (PFound i n x :: rest) s -> Inv (PTook x :: rest) (set_bag (delete i (sh_bag s)) s).
Proof.
  intros [H1 H2 H3 H4 H5 H6 H7 H8 H9 H10]. apply Forall_cons in H2 as [(Hn & Hi & Hrd) H2].
  pose proof (delete_Permutation _ _ _ Hi) as Hp. set (s' := set_bag _ s).
  assert (Ho : owned (PTook x :: rest) s' ≡ₚ owned (PFound i n x :: rest) s).
  { assert (Hb : omap bag_entry (sh_bag s) ≡ₚ (rq_request x, at_state x) :: omap bag_entry (delete i (sh_bag s)))
      by exact (bag_perm _ _ Hp).
    unfold owned. cbn [omap list_omap held s' sh_requests set_bag sh_bag]. apply Permutation_app_head.
    rewrite Hb. cbn [app]. by rewrite <- Permutation_middle. }
  assert (Hlk : sum_list_with locked rest = 0) by (cbn in H1; destruct (sh_lock s); lia).
  assert (Hs : S (svcs (sh_reqs s) (delete i (sh_bag s))) = svcs (sh_reqs s) (sh_bag s)).
  { rewrite (svcs_perm _ _ _ Hp), svcs_cons. cbn [svc]. destruct Hrd as (q & -> & ->). done. }
  assert (Ht : S (tokens1 (PTook x :: rest) s') = tokens1 (PFound i n x :: rest) s) by (unfold tokens1; cbn; lia).
  assert (Ht2 : S (tokens2 (PTook x :: rest) s') = tokens2 (PFound i n x :: rest) s) by (unfold tokens2; cbn in *; lia).
  split; cbn [s' sh_lock sh_reqs sh_bag sh_requests set_bag]; try done.
  - constructor; [done|]. by apply (unlocked_ok s).
  - by apply Forall_delete.
  - by rewrite Ho.
  - intros r p. rewrite Ho. apply H5.
  - intros r q. rewrite Ho. apply H6.
  - fold s'. lia.
  - fold s'. lia.
  - constructor; [done|]. by apply unlocked_scan.
Qed.

(** Putting a request back. *)
Lemma inv_add r st rest s l1 l2 : sh_lock s = None -> sh_bag s = l1 ++ l2 ->
  Inv (PSent r st :: rest) s -> Inv (POwe :: rest) (set_bag (l1 ++ Some (mkRq r (Some st)) :: l2) s).
Proof.
  intros Hlock Eb [H1 H2 H3 H4 H5 H6 H7 H8 H9 H10]. apply Forall_cons in H2 as [_ H2]. set (e := Some _). set (s' := set_bag _ s).
  assert (Hp : sh_bag s' ≡ₚ e :: sh_bag s) by (cbn; rewrite Eb; symmetry; apply Permutation_middle).
  assert (Ho : owned (POwe :: rest) s' ≡ₚ owned (PSent r st :: rest) s).
  { unfold owned. cbn [omap list_omap held]. rewrite Hp. cbn [omap list_omap bag_entry]. cbn.
    by rewrite (Permutation_middle (omap bag_entry _)). }
  rewrite Hlock in H1. assert (Hlk : sum_list_with locked rest = 0) by (cbn in H1; lia).
  assert (Hs : svcs (sh_reqs s) (sh_bag s') <= S (svcs (sh_reqs s) (sh_bag s))).
  { rewrite (svcs_perm _ _ _ Hp), svcs_cons. pose proof (svc_le (sh_reqs s) e). lia. }
  assert (Ht : tokens1 (POwe :: rest) s' = S (tokens1 (PSent r st :: rest) s)) by (unfold tokens1; cbn; lia).
  assert (Ht2 : tokens2 (POwe :: rest) s' = S (tokens2 (PSent r st :: rest) s)) by (unfold tokens2; cbn in *; lia).
  split; try done.
  - cbn [s' sh_lock set_bag]. rewrite Hlock. cbn. lia.
  - constructor; [done|]. by apply (unlocked_ok s).
  - rewrite Hp. constructor; [by exists r, st|done].
  - by rewrite Ho.
  - intros r1 p1. rewrite Ho. apply H5.
  - intros r1 q1. rewrite Ho. apply H6.
  - cbn [sh_reqs s' set_bag] in *. fold s'. lia.
  - cbn [sh_reqs sh_requests s' set_bag] in *. fold s'. lia.
  - constructor; [done|]. by apply unlocked_scan.
Qed.

(** Taking a new request. *)
Lemma inv_pop r l rest s : sh_requests s = r :: l ->
  Inv (PMiss :: rest) s -> Inv (PHold r NotStarted :: rest) (set_requests l s).
Proof.
  intros El [H1 H2 H3 H4 H5 H6 H7 H8 H9 H10]. apply Forall_cons in H2 as [_ H2]. apply Forall_cons in H10 as [_ H10].
  set (s' := set_requests l s).
  assert (Ho : owned (PHold r NotStarted :: rest) s' ≡ₚ owned (PMiss :: rest) s).
  { unfold owned. cbn [omap list_omap held s' sh_requests set_requests sh_bag]. rewrite El. cbn [fmap list_fmap app].
    rewrite !app_assoc. by rewrite <- Permutation_middle. }
  destruct (H5 r NotStarted) as (q & Hq & Hserved & _ & _); [unfold owned; rewrite El; by left|].
  assert (Ht : tokens1 (PHold r NotStarted :: rest) s' = tokens1 (PMiss :: rest) s) by done.
  assert (Ht2 : S (tokens2 (PHold r NotStarted :: rest) s') = tokens2 (PMiss :: rest) s) by (unfold tokens2; cbn in *; lia).
  split; try done; cbn [s' sh_reqs sh_bag sh_requests set_requests].
  - constructor; [|by apply H2]. exists q. split; [done|]. unfold ready.
    destruct (H7 r q Hq) as [pre Hpre]. rewrite (served_not_started _ _ _ Hserved) in Hpre.
    symmetry in Hpre. apply app_nil in Hpre as [_ ->]. apply orb_true_r.
  - by rewrite Ho.
  - intros r1 p1. rewrite Ho. apply H5.
  - intros r1 q1. rewrite Ho. apply H6.
  - rewrite El in H9. cbn [length] in H9. fold s'. lia.
  - constructor; [done|]. exact H10.
Qed.

(** The facts about a request that its holder has. *)
Lemma inv_held ph rest s r p : Inv (ph :: rest) s -> held ph = Some (r, p) ->
  exists q, sh_reqs s !! r = Some q /\ served (q_query q) (q_cancel q) (q_log q) p /\ p <> Finished
    /\ length (q_queue q) <= 3 /\ queue_ok q.
Proof.
  intros H Hh. destruct (i_owned _ _ H r p) as (q & Hq & Hs & Hp & Hl); [by rewrite (owned_held _ _ _ _ Hh); left|].
  exists q. split_and!; try done. by eapply i_queue.
Qed.

Lemma queue_ok_push x q : queue_ok q -> queue_ok (push_req x q).
Proof. intros [pre H]. exists pre. cbn. by rewrite H, app_assoc. Qed.

Lemma push_length x q : length (q_queue (push_req x q)) = S (length (q_queue q)).
Proof. cbn. rewrite length_app. cbn. lia. Qed.

(** A last response. *)
Lemma inv_push_last ph rest s r p q x :
  Inv (ph :: rest) s -> held ph = Some (r, p) -> sh_reqs s !! r = Some q -> locked ph = 0 -> w1 ph = 0 -> w2 ph = 0 ->
  served (q_query q) (q_cancel q) (q_log q ++ [x]) Finished ->
  Inv (PClosing r :: rest) (set_reqs (<[r := push_req x q]> (sh_reqs s)) s).
Proof.
  intros H Hh Hq H1 H2 H3 Hs. destruct (inv_held _ _ _ _ _ H Hh) as (q' & Hq' & _ & _ & Hl & Hqo).
  rewrite Hq in Hq'. injection Hq' as <-.
  eapply inv_own; try done; [|by apply queue_ok_push].
  right. split_and!; try done. rewrite push_length. lia.
Qed.

Lemma inv_push ph rest s r x : Inv (ph :: rest) s -> allowed ph (OPush r x) ->
  exists q, sh_reqs s !! r = Some q
    /\ Inv (next_phase ph (OPush r x) true :: rest) (set_reqs (<[r := push_req x q]> (sh_reqs s)) s).
Proof.
  intros H Ha. pose proof (i_ph _ _ H) as Hok. apply Forall_cons in Hok as [Hok _].
  destruct ph; cbn in Ha; try done; destruct Ha as [-> Hx].
  1,2,4: (destruct (inv_held _ _ _ _ _ H eq_refl) as (q & Hq & Hs & Hp & _); exists q; split; [done|]; subst x; cbn;
     eapply inv_push_last; try done).
  - by eapply served_error.
  - destruct Hok as (q' & Hq' & Hc). rewrite Hq in Hq'. injection Hq' as <-. by eapply served_cancel.
  - by eapply served_error.
  - destruct (inv_held _ _ _ _ _ H eq_refl) as (q & Hq & Hs & Hp & _ & Hqo). exists q. split; [done|].
    destruct Hok as (q' & Hq' & Hl & Hn). rewrite Hq in Hq'. injection Hq' as <-.
    unfold batch_response in Hx. destruct (Z.ltb_spec (nr_ret x0) 0) as [Hneg|Hpos].
    + injection Hx as <-. cbn. eapply inv_push_last; try done. by eapply served_error.
    + destruct (nr_pdus x0) as [ps|] eqn:Eps; [|done]. cbn in Hx. injection Hx as <-. cbn [next_phase resp_is_done].
      pose proof (served_batch _ _ _ _ _ _ _ _ Hs Hn Hpos Eps) as Hb. destruct (nr_done x0) eqn:Ed.
      * by eapply inv_push_last.
      * eapply inv_own; try done; [|by apply queue_ok_push]. left. eexists. split; [done|]. split_and!; [exact Hb|done|].
        rewrite push_length. unfold DB_RESPONSE_BUFFER_LENGTH in Hl. lia.
Qed.

Lemma set_reqs_id s r q : sh_reqs s !! r = Some q -> set_reqs (<[r := q]> (sh_reqs s)) s = s.
Proof. intros H. rewrite insert_id by done. by destruct s. Qed.

Lemma inv_start r st rest s : Inv (PServe r NotStarted :: rest) s ->
  (exists q, sh_reqs s !! r = Some q /\ start_rel (q_query q) (Some st)) -> Inv (PServe r (At st) :: rest) s.
Proof.
  intros H (q & Hq & Hst). pose proof (i_ph _ _ H) as Hok. apply Forall_cons in Hok as [(q0 & Hq0 & Hlen) _].
  rewrite Hq in Hq0. injection Hq0 as <-.
  destruct (inv_held _ _ _ _ _ H eq_refl) as (q' & Hq' & Hs & _ & Hl & Hqo). rewrite Hq in Hq'. injection Hq' as <-.
  rewrite <- (set_reqs_id s r q Hq). apply served_not_started in Hs as Hlog.
  eapply (inv_own (PServe r NotStarted)); try done.
  - left. eexists. split_and!; [done| |done|done]. rewrite Hlog. by constructor.
  - cbn. exists q. by rewrite lookup_insert_eq.
Qed.

(** Only the phase changes, and it counts as before. *)
Lemma inv_same ph ph' rest s : Inv (ph :: rest) s -> held ph' = held ph -> locked ph' = locked ph ->
  w1 ph' = w1 ph -> w2 ph' = w2 ph -> ph_ok s ph' -> scan_ok (tokens1 (ph :: rest) s) s ph' -> Inv (ph' :: rest) s.
Proof.
  intros H Hh Hl H1 H2 Hok Hsc. pose proof (i_c2 _ _ H) as Hc2.
  assert (Ht : tokens1 (ph' :: rest) s = tokens1 (ph :: rest) s) by (unfold tokens1; cbn; lia).
  eapply inv_move; try done.
  - by rewrite Hl.
  - left. by rewrite Ht.
  - unfold tokens2 in *. rewrite Ht. cbn in *. lia.
  - by rewrite Ht.
Qed.

(** Only the counters of wake-ups change. *)
Lemma inv_count ph ph' rest s s' : Inv (ph :: rest) s -> held ph' = held ph -> locked ph' = locked ph ->
  sh_reqs s' = sh_reqs s -> sh_bag s' = sh_bag s -> sh_requests s' = sh_requests s -> sh_lock s' = sh_lock s ->
  tokens1 (ph :: rest) s <= tokens1 (ph' :: rest) s' ->
  svcs (sh_reqs s) (sh_bag s) + length (sh_requests s) <= tokens2 (ph' :: rest) s' ->
  ph_ok s ph' -> (forall T, scan_ok T s ph') -> Inv (ph' :: rest) s'.
Proof.
  intros H Hh Hl Er Eb Eq El Ht1 Ht2 Hok Hsc. eapply inv_move; try done; [|by left].
  unfold L. by rewrite El, Hl.
Qed.

Lemma inv_look i n x rest s (c : bool) q : Inv (PLook i n x :: rest) s ->
  sh_reqs s !! rq_request x = Some q -> c = q_cancel q ->
  Inv ((if c then PFound i n x else PFull i n x) :: rest) s.
Proof.
  intros H Hq ->. pose proof (i_ph _ _ H) as Hok. apply Forall_cons in Hok as [[Hn Hi] _].
  pose proof (i_c3 _ _ H) as Hsc. apply Forall_cons in Hsc as [Hsc _].
  destruct (q_cancel q) eqn:Ec; eapply inv_same; try done.
  - split_and!; [done..|]. exists q. split; [done|]. unfold ready. by rewrite Ec.
  - cbn in *. unfold cancelled. rewrite Hq, Ec, Nat.add_0_r. exact Hsc.
Qed.

Lemma inv_full i n x rest s q : Inv (PFull i n x :: rest) s -> sh_reqs s !! rq_request x = Some q ->
  Inv ((if length (q_queue q) <? DB_RESPONSE_BUFFER_LENGTH then PFound i n x else PScan (S i) n) :: rest) s.
Proof.
  intros H Hq. pose proof (i_ph _ _ H) as Hok. apply Forall_cons in Hok as [[Hn Hi] _].
  pose proof (i_c3 _ _ H) as Hsc. apply Forall_cons in Hsc as [Hsc _].
  destruct (_ <? _) eqn:El; eapply inv_same; try done.
  - split_and!; [done..|]. exists q. split; [done|]. unfold ready. rewrite El. apply orb_true_r.
  - split; [done|]. apply lookup_lt_Some in Hi. lia.
  - cbn [scan_ok] in *. rewrite (take_S_r _ _ _ Hi), svcs_app, svcs_cons. cbn [svcs sum_list_with svc].
    unfold cancelled in Hsc. rewrite Hq in *. unfold ready. rewrite El, orb_false_r. destruct (q_cancel q); cbn in *; lia.
Qed.

Lemma inv_get i n rest s : Inv (PScan i n :: rest) s ->
  expected (PScan i n) (OBagGet i) (sh_bag s !! i)
  /\ Inv (next_phase (PScan i n) (OBagGet i) (sh_bag s !! i) :: rest) s.
Proof.
  intros H. pose proof (i_ph _ _ H) as Hok. apply Forall_cons in Hok as [[Hn Hi] _].
  pose proof (i_c3 _ _ H) as Hsc. apply Forall_cons in Hsc as [Hsc _]. pose proof (i_c2 _ _ H) as Hc2.
  pose proof (i_bag _ _ H) as Hb.
  destruct (sh_bag s !! i) as [e|] eqn:E; cbn [expected next_phase].
  - destruct (proj1 (Forall_lookup _ _) Hb i e E) as (r & st & ->).
    pose proof (lookup_lt_Some _ _ _ E). split; [split; [lia|by exists r, st]|]. eapply inv_same; try done.
  - apply lookup_ge_None in E. split; [lia|]. eapply inv_move; try done.
    + right. split; [done|]. cbn in Hsc. rewrite take_ge in Hsc by lia. unfold tokens1 in *. cbn in *. lia.
    + unfold tokens2, tokens1 in *. cbn in *. lia.
Qed.

(** Whatever a thread does within the protocol. *)
Lemma inv_counters phs s s' : Inv phs s -> sh_reqs s' = sh_reqs s -> sh_bag s' = sh_bag s ->
  sh_requests s' = sh_requests s -> sh_lock s' = sh_lock s -> tokens1 phs s' = tokens1 phs s -> Inv phs s'.
Proof.
  intros [H1 H2 H3 H4 H5 H6 H7 H8 H9 H10] Er Eb Eq El Ht.
  assert (Ho : owned phs s' = owned phs s) by (unfold owned; by rewrite Eb, Eq).
  split; unfold tokens2 in *; rewrite ?Ho, ?Er, ?Eb, ?Eq, ?El, ?Ht; try done.
  - eapply Forall_impl; [exact H2|]. intros []; cbn; by rewrite ?Er, ?Eb.
  - eapply Forall_impl; [exact H10|]. intros []; cbn; by rewrite ?Er, ?Eb.
Qed.

Lemma inv_op t ph rest s o a s' : Inv (ph :: rest) s -> allowed ph o -> op_step t s o a s' ->
  expected ph o a /\ Inv (next_phase ph o a :: rest) s'.
Proof.
  intros H Ha Hst. pose proof (i_ph _ _ H) as Hok. apply Forall_cons in Hok as [Hok _].
  pose proof (i_c1 _ _ H) as Hc1. pose proof (i_c2 _ _ H) as Hc2. pose proof (i_lock _ _ H) as Hlk.
  destruct o; cbn [allowed] in Ha; cbn [op_step] in Hst; cbn [ans] in a.
  - subst s'. done.
  - subst ph. split; [done|]. destruct a; [|by subst s']. destruct Hst as (n & En & ->).
    eapply inv_count; try done; unfold tokens2, tokens1 in *; cbn in *; lia.
  - subst ph. split; [done|]. subst s'. destruct a; eapply inv_count; try done; unfold tokens2, tokens1 in *; cbn in *; lia.
  - subst ph. split; [done|]. destruct a as [r|]; cbn [next_phase].
    + destruct Hst as (l & El & ->). by apply inv_pop.
    + destruct Hst as [[El ->]| ->]; eapply inv_count; try done; rewrite ?El; unfold tokens2, tokens1 in *; cbn in *; lia.
  - destruct Hst as (q & Hq & -> & ->). split; [done|]. destruct Ha as [(i & n & x & -> & ->)|[p ->]]; cbn [next_phase].
    + by eapply inv_look.
    + destruct Hok as (q0 & Hq0 & Hrd). rewrite Hq in Hq0. injection Hq0 as <-.
      destruct (q_cancel q) eqn:Ec; eapply inv_same; try done; exists q; (split; [done|]); [done|].
      unfold ready in Hrd. rewrite Ec in Hrd. cbn [orb] in Hrd. by apply Nat.ltb_lt.
  - destruct Hst as (q & Hq & -> & ->). split; [done|]. destruct Ha as (i & n & x & -> & ->). by apply inv_full.
  - subst ph. destruct Hst as (q & Hq & Hs & ->). split; [done|]. destruct a as [st|]; [|done].
    apply inv_start; [done|by exists q].
  - destruct Ha as [-> ->]. destruct Hst as (q & Hq & Hs & ->). split; [by eapply next_ok|].
    destruct Hok as (q0 & Hq0 & Hlen). rewrite Hq in Hq0. injection Hq0 as <-.
    eapply inv_same; try done. by exists q.
  - split; [done|]. destruct Hst as (q & Hq & ->). destruct a; [|by destruct ph].
    destruct (inv_push ph rest s r x H Ha) as (q' & Hq' & Hi). rewrite Hq in Hq'. by injection Hq' as <-.
  - split; [done|]. assert (Hi : Inv (next_phase ph (OPostResponse r) a :: rest) s).
    { destruct Ha as [->|[st ->]]; [|done]. eapply inv_same; try done. }
    subst s'. destruct (sh_reqs s !! r); [done|]. by eapply inv_counters.
  - subst ph. split; [done|]. destruct a as [n|]; [|by subst s']. destruct Hst as (El & -> & ->). cbn [next_phase].
    eapply inv_move; try done; try (by unfold L; cbn; rewrite El); try (left; unfold tokens1; cbn; lia);
      try (unfold tokens2, tokens1 in *; cbn in *; lia).
    unfold scan_ok, tokens1. rewrite take_0. cbn. lia.
  - subst s'. split; [done|]. cbn [sum_list_with] in Hlk.
    assert (HL : locked ph = 1 -> L s = 1) by (unfold L; destruct (sh_lock s); [done|intros Hl; cbn in Hlk; lia]).
    destruct Ha as [->|[x ->]]; (destruct a; [|done]); cbn [next_phase]; eapply inv_move; try done;
      rewrite ?HL by done; try done; try (left; unfold tokens1; cbn; lia); unfold tokens2, tokens1 in *; cbn in *; lia.
  - destruct Hst as [-> ->]. destruct Ha as [n ->]. by apply inv_get.
  - subst s'. split; [done|]. destruct Ha as (n & x & ->). cbn [next_phase]. by eapply inv_erase.
  - split; [done|]. destruct Ha as (r & st & -> & ->). destruct a; cbn [next_phase].
    + destruct Hst as (El & l1 & l2 & Eb & ->). by apply inv_add.
    + subst s'. eapply inv_same; try done.
Qed.

(** A request that a thread makes a call on is there, unless the call is the
    post that follows the last response. *)
Lemma calls_present ph rest s o r : Inv (ph :: rest) s -> allowed ph o -> target o = Some r ->
  is_Some (sh_reqs s !! r) \/ ph = PClosing r /\ o = OPostResponse r.
Proof.
  intros H Ha Ht. pose proof (i_ph _ _ H) as Hok. apply Forall_cons in Hok as [Hok _].
  assert (Hheld : forall p, held ph = Some (r, p) -> is_Some (sh_reqs s !! r)).
  { intros p Hp. destruct (i_owned _ _ H r p) as (q & Hq & _); [|by exists q].
    eapply held_owned; [by left|done]. }
  assert (Hbag : forall i x, sh_bag s !! i = Some (Some x) -> is_Some (sh_reqs s !! rq_request x)).
  { intros i x Hx. destruct (i_owned _ _ H _ _ (bag_owned (ph :: rest) s i x Hx)) as (q & Hq & _). by exists q. }
  destruct o; cbn in Ht; try done; injection Ht as ->; cbn [allowed] in Ha.
  - left. destruct Ha as [(i & n & x & -> & ->)|[p ->]]; [destruct Hok as [_ Hok]; by eapply Hbag|by eapply Hheld].
  - left. destruct Ha as (i & n & x & -> & ->). destruct Hok as [_ Hok]. by eapply Hbag.
  - left. subst ph. by eapply Hheld.
  - left. destruct Ha as [-> ->]. by eapply Hheld.
  - left. destruct ph; try done; destruct Ha as [-> _]; by eapply Hheld.
  - destruct Ha as [->|[st ->]]; [by right|left; by eapply Hheld].
Qed.

(** ** Steps of connections *)

Lemma scan_ok_le T T' s ph : T <= T' -> scan_ok T s ph -> scan_ok T' s ph.
Proof. intros HT. destruct ph; cbn; try done; lia. Qed.

(** What a connection may do to its request. *)
Record shrinks (q q' : req) : Prop := {
  sh_query : q_query q' = q_query q;
  sh_log : q_log q' = q_log q;
  sh_canc : q_cancel q = true -> q_cancel q' = true;
  sh_len : length (q_queue q') <= length (q_queue q);
  sh_ok : queue_ok q' }.

Lemma shrinks_ready q q' : shrinks q q' -> ready q = true -> ready q' = true.
Proof.
  intros [_ _ Hc Hl _]. unfold ready. destruct (q_cancel q) eqn:E; [by rewrite Hc|]. cbn [orb].
  intros H%Nat.ltb_lt. apply orb_true_iff. right. apply Nat.ltb_lt. lia.
Qed.

Lemma ph_ok_shrinks s r q q' phs : sh_reqs s !! r = Some q -> shrinks q q' -> Forall (ph_ok s) phs ->
  Forall (ph_ok (set_reqs (<[r := q']> (sh_reqs s)) s)) phs.
Proof.
  intros Hq Hs Hall. eapply Forall_impl; [exact Hall|]. intros ph.
  assert (Hl : forall r1 (P : req -> Prop), (forall a b, shrinks a b -> P a -> P b) ->
     (exists q1, sh_reqs s !! r1 = Some q1 /\ P q1) ->
     exists q1, <[r := q']> (sh_reqs s) !! r1 = Some q1 /\ P q1).
  { intros r1 P HP (q1 & Hq1 & H). destruct (decide (r = r1)) as [<-|Hne].
    - rewrite Hq in Hq1. injection Hq1 as <-. exists q'. rewrite lookup_insert_eq. split; [done|]. by apply (HP q).
    - exists q1. by rewrite lookup_insert_ne. }
  destruct ph; cbn; try done.
  - intros (? & ? & H). split_and!; try done. apply (Hl _ (fun q => ready q = true)); [|done]. apply shrinks_ready.
  - apply (Hl _ (fun q => ready q = true)). apply shrinks_ready.
  - apply (Hl _ (fun q => ready q = true)). apply shrinks_ready.
  - apply (Hl _ (fun q => length (q_queue q) < _)). intros a b [_ _ _ ? _] ?. lia.
  - apply (Hl _ (fun q => q_cancel q = true)). intros a b [_ _ ? _ _]. done.
  - apply (Hl _ (fun q => length (q_queue q) < _ /\ next_rel (q_query q) _ _ _)).
    intros a b [Hab _ _ ? _] [? ?]. rewrite Hab. split; [lia|done].
Qed.

Lemma scan_ok_shrinks T s r q q' phs : NoDup (omap bag_entry (sh_bag s)).*1 -> sh_reqs s !! r = Some q ->
  Forall (ph_ok s) phs -> Forall (scan_ok T s) phs ->
  Forall (scan_ok (S T) (set_reqs (<[r := q']> (sh_reqs s)) s)) phs.
Proof.
  intros Hnd Hq. rewrite !Forall_forall. intros Hok H ph Hin. specialize (Hok ph Hin). specialize (H ph Hin).
  assert (Hup : forall i, svcs (<[r := q']> (sh_reqs s)) (take i (sh_bag s)) <= S (svcs (sh_reqs s) (take i (sh_bag s)))).
  { intros i. apply svcs_update. rewrite <- (take_drop i (sh_bag s)), omap_app, fmap_app in Hnd.
    by apply NoDup_app in Hnd as (? & _ & _). }
  destruct ph; cbn in *; try done; try (specialize (Hup i); lia).
  destruct Hok as [_ Hi]. destruct (decide (rq_request x = r)) as [Hx|Hne].
  - rewrite svcs_other.
    + unfold cancelled. rewrite Hx, lookup_insert_eq. destruct (q_cancel q'); lia.
    + rewrite <- (take_drop_middle _ _ _ Hi), omap_app, fmap_app in Hnd. apply NoDup_app in Hnd as (_ & Hnd & _).
      intros Hr. apply (Hnd r Hr). rewrite keys_cons. apply elem_of_app. left. rewrite Hx. by left.
  - unfold cancelled in *. rewrite lookup_insert_ne by done. specialize (Hup i). lia.
Qed.

Lemma inv_update phs s r q q' k : Inv phs s -> sh_reqs s !! r = Some q -> shrinks q q' ->
  1 <= k \/ ready q' = ready q /\ q_cancel q' = q_cancel q \/ r ∉ (owned phs s).*1 ->
  Inv phs (set_owed (k + sh_owed s) (set_reqs (<[r := q']> (sh_reqs s)) s)).
Proof.
  intros Hinv Hq Hs Hk. pose proof (bag_keys_nodup _ _ Hinv) as Hnd. destruct Hinv as [H1 H2 H3 H4 H5 H6 H7 H8 H9 H10].
  set (m := <[r := q']> (sh_reqs s)). set (s' := set_owed _ _).
  assert (Ht : tokens1 phs s' = k + tokens1 phs s) by (unfold tokens1; cbn; lia).
  assert (Hserved : forall p, served (q_query q) (q_cancel q) (q_log q) p ->
                              served (q_query q') (q_cancel q') (q_log q') p).
  { intros p Hp. destruct Hs as [-> -> Hc _ _]. destruct (q_cancel q) eqn:Ec; [by rewrite Hc|].
    destruct (q_cancel q'); [by eapply served_cancelled|done]. }
  assert (Hphs : Forall (ph_ok s') phs) by exact (ph_ok_shrinks s r q q' phs Hq Hs H2).
  assert (Hcount : svcs m (sh_bag s) <= k + svcs (sh_reqs s) (sh_bag s)
     /\ Forall (scan_ok (tokens1 phs s') s') phs).
  { rewrite Ht. destruct Hk as [Hk|[[Hr Hc]|Hr]].
    - pose proof (svcs_update (sh_reqs s) r q' (sh_bag s) Hnd). split; [unfold m; lia|].
      eapply Forall_impl; [exact (scan_ok_shrinks _ s r q q' phs Hnd Hq H2 H10)|]. intros ph. apply (scan_ok_le _ _ s'). lia.
    - assert (Hsame : forall l, svcs m l = svcs (sh_reqs s) l) by (intros l; by apply (svcs_same _ r q q')).
      rewrite Hsame. split; [lia|]. eapply Forall_impl; [exact H10|]. intros ph Hph.
      apply (scan_ok_le (tokens1 phs s)); [lia|]. destruct ph; cbn in *; try done; rewrite Hsame; try done.
      unfold cancelled, m in *. destruct (decide (r = rq_request x)) as [Hx|Hne].
      + rewrite <- Hx in *. rewrite lookup_insert_eq, Hc. by rewrite Hq in Hph.
      + by rewrite lookup_insert_ne.
    - pose proof (agree_insert (sh_reqs s) r q' _ Hr) as Ha. split.
      + rewrite (svcs_agree (sh_reqs s) m); [lia|]. intros r1 Hr1. by apply Ha, (bag_keys_owned phs s).
      + eapply Forall_impl; [exact (scan_ok_agree _ s phs _ H2 H10 Ha)|]. intros ph. apply (scan_ok_le _ _ s'). lia. }
  destruct Hcount as [Hc1 Hc3].
  split; try done; unfold tokens2 in *; rewrite ?Ht; cbn [s' sh_reqs set_owed set_reqs sh_bag sh_requests]; fold m; try lia.
  - intros r1 p1 Hin. destruct (H5 r1 p1 Hin) as (q1 & Hq1 & Hs1 & Hp1 & Hl1). unfold m.
    destruct (decide (r = r1)) as [<-|Hne]; [|rewrite lookup_insert_ne by done; by exists q1].
    rewrite Hq in Hq1. injection Hq1 as <-. exists q'. rewrite lookup_insert_eq. split_and!; auto. pose proof (sh_len _ _ Hs). lia.
  - intros r1 q1 E Hn. unfold m in E. destruct (decide (r = r1)) as [<-|Hne]; [|rewrite lookup_insert_ne in E by done; by apply (H6 r1)].
    rewrite lookup_insert_eq in E. injection E as <-. destruct (H6 r q Hq Hn) as [Hs1 Hl1].
    split; [auto|]. pose proof (sh_len _ _ Hs). lia.
  - intros r1 q1 E. unfold m in E. destruct (decide (r = r1)) as [<-|Hne]; [|rewrite lookup_insert_ne in E by done; by eapply H7].
    rewrite lookup_insert_eq in E. injection E as <-. apply Hs.
Qed.

(** A request that has its last response is nobody's. *)
Lemma last_not_owned phs s r q x : Inv phs s -> sh_reqs s !! r = Some q -> x ∈ q_log q -> resp_is_done x = true ->
  r ∉ (owned phs s).*1.
Proof.
  intros H Hq Hx Hd Hin. apply list_elem_of_fmap in Hin as ([r' p] & -> & Hin). cbn in Hq.
  destruct (i_owned _ _ H _ _ Hin) as (q' & Hq' & Hs & Hp & _). rewrite Hq in Hq'. injection Hq' as <-.
  apply list_elem_of_split in Hx as (l1 & l2 & E). by destruct (served_last _ _ _ _ Hs _ _ _ E Hd).
Qed.

Lemma inv_submit phs s r q : Inv phs s -> sh_reqs s !! r = None ->
  Inv phs (set_owed (S (sh_owed s)) (set_requests (sh_requests s ++ [r])
     (set_reqs (<[r := mkReq q false [] []]> (sh_reqs s)) s))).
Proof.
  intros [H1 H2 H3 H4 H5 H6 H7 H8 H9 H10] Hr. set (m := <[r := _]> _). set (s' := set_owed _ _).
  assert (Hn : r ∉ (owned phs s).*1).
  { intros Hin. apply list_elem_of_fmap in Hin as ([r' p] & -> & Hin). destruct (H5 _ _ Hin) as (? & ? & _). cbn in Hr. congruence. }
  assert (Ho : owned phs s' ≡ₚ (r, NotStarted) :: owned phs s).
  { unfold owned. cbn [s' sh_requests set_owed set_requests set_reqs sh_bag]. rewrite fmap_app. cbn [fmap list_fmap].
    rewrite <- app_assoc. cbn [app]. by rewrite <- Permutation_middle. }
  pose proof (agree_insert (sh_reqs s) r (mkReq q false [] []) _ Hn) as Ha.
  assert (Ht : tokens1 phs s' = S (tokens1 phs s)) by (unfold tokens1; cbn; lia).
  assert (Hsv : svcs m (sh_bag s) = svcs (sh_reqs s) (sh_bag s))
    by (apply svcs_agree; intros r1 Hr1; by apply Ha, (bag_keys_owned phs s)).
  split; try done; unfold tokens2 in *; rewrite ?Ht; cbn [s' sh_reqs set_owed set_reqs set_requests sh_bag sh_requests]; fold m; try lia.
  - exact (ph_ok_agree s phs m H2 Ha).
  - rewrite Ho. cbn. by apply NoDup_cons.
  - intros r1 p1. rewrite Ho, elem_of_cons. intros [[= -> ->]|Hin].
    + eexists. unfold m. rewrite lookup_insert_eq. split; [done|]. cbn. split_and!; [constructor|done|lia].
    + unfold m. rewrite Ha; [by apply H5|]. apply list_elem_of_fmap. by exists (r1, p1).
  - intros r1 q1 E. rewrite Ho. cbn. intros [Hne Hn1]%not_elem_of_cons. unfold m in E.
    rewrite lookup_insert_ne in E by done. by apply (H6 r1).
  - intros r1 q1 E. unfold m in E. destruct (decide (r = r1)) as [<-|Hne].
    + rewrite lookup_insert_eq in E. injection E as <-. by exists [].
    + rewrite lookup_insert_ne in E by done. by eapply H7.
  - rewrite length_app. cbn [length]. lia.
  - eapply Forall_impl; [exact (scan_ok_agree _ s phs m H2 H10 Ha)|]. intros ph. apply (scan_ok_le _ _ s'). lia.
Qed.

Lemma inv_reuse phs s r q x : Inv phs s -> sh_reqs s !! r = Some q -> last (q_log q) = Some x ->
  resp_is_done x = true -> Inv phs (set_reqs (delete r (sh_reqs s)) s).
Proof.
  intros Hinv Hq Hx Hd.
  assert (Hn : r ∉ (owned phs s).*1) by (eapply last_not_owned; [done|done| |done]; by apply last_Some_elem_of).
  destruct Hinv as [H1 H2 H3 H4 H5 H6 H7 H8 H9 H10]. pose proof (agree_delete (sh_reqs s) r _ Hn) as Ha.
  assert (Hsv : svcs (delete r (sh_reqs s)) (sh_bag s) = svcs (sh_reqs s) (sh_bag s))
    by (apply svcs_agree; intros r1 Hr1; by apply Ha, (bag_keys_owned phs s)).
  split; try done; cbn [sh_reqs set_reqs sh_bag]; rewrite ?Hsv; try done.
  - by apply ph_ok_agree.
  - intros r1 p1 Hin. rewrite Ha; [by apply H5|]. apply list_elem_of_fmap. by exists (r1, p1).
  - intros r1 q1 E Hn1. apply lookup_delete_Some in E as [_ E]. by apply (H6 r1).
  - intros r1 q1 E. apply lookup_delete_Some in E as [_ E]. by eapply H7.
  - by apply scan_ok_agree.
Qed.

Lemma inv_client phs s s' : Inv phs s -> client_step s s' -> Inv phs s'.
Proof.
  intros H Hst. destruct Hst as [r q Hr|n Hn|n Hn|r q x l Hq El|r q Hq|r q x Hq Hx Hd El].
  - by apply inv_submit.
  - eapply inv_counters; try done. unfold tokens1. cbn. lia.
  - eapply inv_counters; try done. unfold tokens1. cbn. lia.
  - destruct (i_queue _ _ H r q Hq) as [pre Hpre]. rewrite El in Hpre.
    assert (Hs : shrinks q (set_q_queue l q)).
    { split; cbn; try done; [rewrite El; cbn; lia|]. exists (pre ++ [x]). cbn. by rewrite Hpre, <- app_assoc. }
    replace (if resp_is_done x || q_cancel q then sh_owed s else S (sh_owed s))
      with ((if resp_is_done x || q_cancel q then 0 else 1) + sh_owed s) by (by destruct (_ || _)).
    apply (inv_update phs s r q); [done..|]. destruct (resp_is_done x) eqn:Ed; cbn [orb].
    + right. right. eapply last_not_owned; [done|done| |done]. rewrite Hpre. apply elem_of_app. right. by left.
    + destruct (q_cancel q) eqn:Ec; [|by left]. right. left. unfold ready. cbn. by rewrite Ec.
  - apply (inv_update phs s r q (cancel_req q) 1); [done|done| |by left].
    split; try done. exact (i_queue _ _ H r q Hq).
  - by eapply inv_reuse.
Qed.

(** ** Every reachable state *)

(** Each thread follows the protocol from its phase. *)
Definition thread_ok (ph : phase) (p : Prog (db_run * unit)) : Prop :=
  keeps_to ph p (fun ph' x => finishes ph' (fst x) (snd x)).

Definition sys_inv (w : sys) : Prop :=
  exists phs, Forall2 thread_ok phs (sys_threads w) /\ Inv phs (sys_shared w).

Lemma focus {A} (l : list A) t x : l !! t = Some x -> l ≡ₚ x :: delete t l.
Proof. apply delete_Permutation. Qed.

Lemma focus_insert {A} (l : list A) t x y : l !! t = Some x -> <[t := y]> l ≡ₚ y :: delete t l.
Proof.
  intros H. assert (Ht : t < length l) by (by eapply lookup_lt_Some).
  rewrite insert_take_drop, delete_take_drop by done. symmetry. apply Permutation_middle.
Qed.

Lemma sum_idle (f : phase -> nat) n : f PIdle = 0 -> sum_list_with f (replicate n PIdle) = 0.
Proof. intros Hf. induction n as [|n IH]; [done|]. cbn. lia. Qed.

Lemma sys_inv_start n : sys_inv (sys_start n).
Proof.
  exists (replicate n PIdle). split.
  - cbn. apply Forall2_replicate. apply r_main_start.
  - assert (Ho : owned (replicate n PIdle) shared_start = []).
    { unfold owned. cbn. induction n as [|n IH]; [done|]. exact IH. }
    change (sys_shared (sys_start n)) with shared_start.
    split; rewrite ?Ho; cbn; try (by rewrite sum_idle); try done; try (by apply Forall_replicate); try lia.
    + constructor.
    + intros r p Hin. by apply elem_of_nil in Hin.
Qed.

Lemma sys_inv_step w w' : sys_inv w -> sys_step start_rel next_rel w w' -> sys_inv w'.
Proof.
  intros (phs & Hth & Hinv) Hst. destruct Hst as [t o k a s' Ht Hop|t d Ht|s' Hc].
  - destruct (Forall2_lookup_r _ _ _ _ _ Hth Ht) as (ph & Hph & [Ha Hk]).
    destruct (inv_op t ph (delete t phs) _ o a s' (inv_perm _ _ _ (focus _ _ _ Hph) Hinv) Ha Hop) as [He Hi].
    exists (<[t := next_phase ph o a]> phs). split; [|by eapply inv_perm; [symmetry; by eapply focus_insert|]].
    cbn. apply Forall2_insert; [done|]. by apply Hk.
  - destruct (Forall2_lookup_r _ _ _ _ _ Hth Ht) as (ph & Hph & Hf). cbn in Hf. destruct Hf as [-> ->].
    exists phs. split; [|done]. cbn. rewrite <- (list_insert_id phs t PIdle) by done.
    apply Forall2_insert; [done|]. apply r_main_loop.
  - exists phs. split; [done|]. by eapply inv_client.
Qed.

Lemma reachable_inv n w : reachable start_rel next_rel n w -> sys_inv w.
Proof.
  assert (Hg : forall x, rtc (sys_step start_rel next_rel) x w -> sys_inv x -> sys_inv w).
  { induction 1 as [x|x y z Hxy _ IH]; [done|]. intros Hx. eapply IH, sys_inv_step; done. }
  intros H. apply (Hg _ H), sys_inv_start.
Qed.

End invariant.
