(* ===== verification/DbThm.v ===== *)
(** * The database threads: claims

    What the invariant of [DbInv] means: every request is served as by one
    thread alone, no wake-up is lost, queues stay short; and, together with the
    queries of [RtrSync], routers get the right sets through any number of
    threads. *)

From stdpp Require Import gmap.
From S2P Require Import Prelude Pdu Sql SqlFacts RtrQuery RtrQueryFacts RtrUpdate RtrUpdateFacts RtrSync CacheState Connection.
From S2P Require Import DbThread DbSystem DbProtocol DbInv.

(** ** The database *)

(** Any tables, any change to them meanwhile, any failing call, as long as the
    connection to the server is not lost. *)
Definition db_start (q : db_query) (x : option query_state) : Prop :=
  exists se d h c, start_query se q (mkConn d (Some h)) = (c, inr x).
Definition db_next (q : db_query) (st : query_state) (n : nat) (x : next_result) : Prop :=
  exists ne d h c, kept (ne_session ne) /\ kept (ne_query ne) /\ kept (ne_cur ne) /\ kept (ne_prev ne)
    /\ query_get_next ne q st n (mkConn d (Some h)) = (c, inr x).

Lemma contract_pdus st n x : batch_contract st n x -> nr_ret x < 0 \/ exists ps, nr_pdus x = Some ps.
Proof. unfold batch_contract. destruct (nr_pdus x) as [ps|]; [eauto|]. intros [-> _]. left. lia. Qed.

Lemma db_next_ok q st n x : db_next q st n x -> nr_ret x < 0 \/ exists ps, nr_pdus x = Some ps.
Proof.
  intros (ne & d & h & c & H1 & H2 & H3 & H4 & E). apply (contract_pdus st n). destruct q; cbn in E.
  - pose proof (serial_next_opened h ne st n H1 H2 H3 H4 (mkConn d (Some h)) eq_refl) as H. rewrite E in H. apply H.
  - pose proof (reset_next_opened h ne st n H1 H2 (mkConn d (Some h)) eq_refl) as H. rewrite E in H. apply H.
Qed.

(** Tables that nobody changes, calls that succeed. *)
Definition quiet_start : start_env := mkStartEnv true quiet quiet quiet.
Section quiet.
Context (d : db) (h : nat).
Notation c := (mkConn d (Some h)).

Definition still_start (q : db_query) (x : option query_state) : Prop :=
  start_query quiet_start q c = (c, inr x).
Definition still_next (q : db_query) (st : query_state) (n : nat) (x : next_result) : Prop :=
  query_get_next quiet_next q st n c = (c, inr x).

Lemma still_next_ok q st n x : still_next q st n x -> nr_ret x < 0 \/ exists ps, nr_pdus x = Some ps.
Proof.
  intros H. apply (db_next_ok q st n). exists quiet_next, d, h, c. split_and!; try done; by intros a Ha.
Qed.

(** All the PDUs of a query. *)
Definition answer (q : db_query) (ps : list PDU) : Prop :=
  exists st fuel, still_start q (Some st)
    /\ collect (fun st => query_get_next quiet_next q st DB_ROWS_PER_RESPONSE) fuel st c = (c, inr (Some ps)).

Definition pdus_of (log : list db_response) : list PDU := concat (resp_PDUs <$> log).

Lemma pdus_of_snoc log x : pdus_of (log ++ [x]) = pdus_of log ++ resp_PDUs x.
Proof. unfold pdus_of. rewrite fmap_app, concat_app. cbn. by rewrite app_nil_r. Qed.

(** What is left of the answer when some batches have been sent. *)
Lemma served_prefix q cn log p ps : served still_start still_next q cn log p -> answer q ps ->
  (p = Finished -> error_response ∉ log -> cn = false -> pdus_of log = ps)
  /\ (forall st, p = At st -> exists fuel rest, ps = pdus_of log ++ rest
       /\ collect (fun st => query_get_next quiet_next q st DB_ROWS_PER_RESPONSE) fuel st c = (c, inr (Some rest))).
Proof.
  intros Hs (st0 & fuel0 & Hst0 & Hc0).
  induction Hs as [|st Hst|log st r pr Hs IH Hn Hr Hp|log p Hs IH Hp|log p Hs IH Hp Hc].
  - done.
  - split; [done|]. intros st' [= <-]. unfold still_start in *. rewrite Hst0 in Hst. injection Hst as <-.
    by exists fuel0, ps.
  - destruct IH as [_ IH]. destruct (IH st eq_refl) as (fuel & rest & E & Ec). unfold still_next in Hn.
    rewrite pdus_of_snoc. cbn [resp_PDUs]. destruct fuel as [|fuel]; [done|]. cbn [collect] in Ec.
    rewrite (bind_val _ _ _ _ _ Hn) in Ec. unfold collect_rest in Ec. rewrite Hp in Ec.
    destruct (nr_done r).
    + injection Ec as <-. done.
    + split; [done|]. intros st' [= <-]. unfold est_bind in Ec.
      destruct (collect _ fuel (nr_state r) c) as [c1 [?|[rest'|]]] eqn:Er; [done| |done].
      injection Ec as -> Erest. exists fuel, rest'. by rewrite E, <- Erest, <- app_assoc.
  - split; [|done]. intros _ Hn _. destruct Hn. apply elem_of_app. right. by left.
  - split; [|done]. intros _ _ ->. done.
Qed.
End quiet.

(** ** Runs to look at *)

Section runs.
Context (d : db) (h : nat).
Notation step := (sys_step (still_start d h) (still_next d h)).
Notation c := (mkConn d (Some h)).

(** Queries change nothing. *)
Definition stays {A} (m : DB A) : Prop := fst (m c) = c.

Lemma stays_bind {A B} (m : DB A) (k : A -> DB B) : stays m -> (forall a, stays (k a)) -> stays (est_bind k m).
Proof.
  unfold stays, est_bind. intros Hm Hk. destruct (m c) as [c1 [x|a]]; cbn in Hm; subst c1; [done|]. apply Hk.
Qed.

Lemma stays_select {R} binds stores (q : db -> list R) : stays (run_select quiet binds stores q).
Proof. unfold stays. by rewrite run_select_quiet. Qed.

Ltac stays := repeat match goal with
  | |- forall _, _ => intros ?
  | |- stays (est_bind _ _) => apply stays_bind
  | |- stays (run_select _ _ _ _) => apply stays_select
  | |- stays (est_ret _) => reflexivity
  | |- stays (est_exit _) => reflexivity
  | H : stays ?m |- stays ?m => exact H
  | H : forall _, _ |- stays _ => apply H
  | |- stays (match ?x with _ => _ end) => destruct x
  end.

Lemma stays_push max_rows pdus p : stays (push_pdu max_rows pdus p).
Proof. unfold push_pdu. stays. Qed.

Lemma stays_fetch max_rows rows : forall k st pdus, stays (fetch_rows quiet max_rows k rows st pdus).
Proof.
  pose proof stays_push. induction rows as [|x rows IH]; intros k st pdus; cbn [fetch_rows]; stays.
Qed.

Lemma stays_session : stays (db_rtr_get_session_id quiet).
Proof. unfold db_rtr_get_session_id. stays. Qed.

Lemma stays_sernum {R} binds (q : db -> list R) : stays (fetch_sernum quiet binds q).
Proof. unfold fetch_sernum. stays. Qed.

Lemma stays_start q : stays (start_query quiet_start q).
Proof.
  pose proof @stays_sernum. unfold start_query, db_rtr_serial_query_init, db_rtr_reset_query_init, readSerNumAsPrev,
    readSerNumAsCurrent, hasRowsRtrUpdate, db_rtr_get_latest_sernum. cbn [quiet_start se_calloc_ok se_first se_cur se_rows]. stays.
Qed.

Lemma stays_next q st n : stays (query_get_next quiet_next q st n).
Proof.
  pose proof @stays_sernum. pose proof stays_session. pose proof stays_fetch. pose proof stays_push.
  unfold query_get_next, db_rtr_serial_query_get_next, db_rtr_reset_query_get_next, serial_query_pre_query,
    serial_query_rows, serial_query_do_query, serial_query_post_query, reset_query_rows, readSerNumAsPrev, readSerNumAsCurrent.
  cbn [quiet_next ne_calloc_ok ne_session ne_query ne_cur ne_prev]. stays.
Qed.

(** A call that can return at once and succeeds. *)
Definition result {A} (x : dbconn * (undefined + A)) : option A :=
  match x with (_, inr a) => Some a | _ => None end.
Definition op_run (t : nat) (s : shared) (o : op) : option (ans o * shared) :=
  match o with
  | OCall => Some (true, s)
  | OSemWait => match sh_sem s with S n => Some (true, set_sem n s) | O => None end
  | OSemPost => Some (true, set_sem (S (sh_sem s)) s)
  | OPopRequest => match sh_requests s with r :: l => Some (Some r, set_requests l s) | [] => Some (None, s) end
  | OCancelled r => q ← sh_reqs s !! r; Some (q_cancel q, s)
  | OQueueSize r => q ← sh_reqs s !! r; Some (length (q_queue q), s)
  | OStart r => q ← sh_reqs s !! r; x ← result (start_query quiet_start (q_query q) (mkConn d (Some h))); Some (x, s)
  | ONext r st n =>
      q ← sh_reqs s !! r; x ← result (query_get_next quiet_next (q_query q) st n (mkConn d (Some h))); Some (x, s)
  | OPush r x => q ← sh_reqs s !! r; Some (true, set_reqs (<[r := push_req x q]> (sh_reqs s)) s)
  | OPostResponse r => _ ← sh_reqs s !! r; Some (true, s)
  | OBagLock => match sh_lock s with
                | None => Some (Some (length (sh_bag s)), set_lock (Some t) s)
                | Some _ => None
                end
  | OBagUnlock => Some (true, set_lock None s)
  | OBagGet i => Some (sh_bag s !! i, s)
  | OBagErase i => Some (tt, set_bag (delete i (sh_bag s)) s)
  | OBagAdd x => match sh_lock s with None => Some (true, set_bag (sh_bag s ++ [Some x]) s) | Some _ => None end
  end.

Lemma result_runs {A} (m : DB A) a : stays m -> result (m c) = Some a -> m c = (c, inr a).
Proof. unfold stays. destruct (m c) as [c1 [x|b]]; cbn; [done|]. by intros -> [= ->]. Qed.

Lemma op_run_step t s o a s' : op_run t s o = Some (a, s') -> op_step (still_start d h) (still_next d h) t s o a s'.
Proof.
  destruct o; cbn; intros E; simplify_option_eq; try done; eauto.
  - destruct (sh_sem s) as [|n]; simplify_eq. eauto.
  - destruct (sh_requests s) as [|r l]; simplify_eq; eauto.
  - eexists. split_and!; [done| |done]. apply result_runs; [apply stays_start|done].
  - eexists. split_and!; [done| |done]. apply result_runs; [apply stays_next|done].
  - destruct (sh_lock s); simplify_eq. eauto.
  - destruct (sh_lock s); simplify_eq. split; [done|]. exists (sh_bag s), []. by rewrite app_nil_r.
Qed.

(** Thread [t] makes up to [n] steps. *)
Fixpoint run_thread (n t : nat) (w : sys) : sys :=
  match n with
  | O => w
  | S n' =>
      match sys_threads w !! t with
      | Some (Call o k) =>
          match op_run t (sys_shared w) o with
          | Some (a, s') => run_thread n' t (mkSys s' (<[t := k a]> (sys_threads w)))
          | None => w
          end
      | Some (Ret (d', _)) => run_thread n' t (mkSys (sys_shared w) (<[t := db_main_loop d']> (sys_threads w)))
      | _ => w
      end
  end.

Lemma run_thread_steps n t : forall w, rtc step w (run_thread n t w).
Proof.
  induction n as [|n IH]; intros w; [done|]. cbn [run_thread].
  destruct (sys_threads w !! t) as [[[d' []]|x|o k]|] eqn:Et; try done.
  - eapply rtc_l; [by eapply S_loop|apply IH].
  - destruct (op_run t (sys_shared w) o) as [[a s']|] eqn:Eo; [|done].
    eapply rtc_l; [|apply IH]. eapply S_call; [done|]. by apply op_run_step.
Qed.

(** A connection submits a request and posts. *)
Definition submit (r : rid) (q : db_query) (w : sys) : sys :=
  let s := sys_shared w in
  mkSys (set_sem (S (sh_sem s)) (set_requests (sh_requests s ++ [r])
    (set_reqs (<[r := mkReq q false [] []]> (sh_reqs s)) s))) (sys_threads w).

Lemma submit_steps r q w : sh_reqs (sys_shared w) !! r = None -> rtc step w (submit r q w).
Proof.
  intros Hr. set (s := sys_shared w) in *.
  set (s1 := set_owed (S (sh_owed s)) (set_requests (sh_requests s ++ [r])
    (set_reqs (<[r := mkReq q false [] []]> (sh_reqs s)) s))).
  eapply rtc_l; [exact (S_client _ _ w s1 (C_submit s r q Hr))|]. eapply rtc_l; [|apply rtc_refl].
  exact (S_client _ _ (mkSys s1 (sys_threads w)) _ (C_post s1 (sh_owed s) eq_refl)).
Qed.
End runs.

(** Two threads, one request for everything, on the sample database. *)
Definition sample_served : sys :=
  run_thread sample_db 0 40 1 (submit 5%nat RESET_QUERY (sys_start 2)).

Lemma sample_served_reachable : reachable (still_start sample_db 0) (still_next sample_db 0) 2 sample_served.
Proof.
  unfold reachable, sample_served. etransitivity; [apply (submit_steps sample_db 0 5%nat RESET_QUERY); done|].
  apply run_thread_steps.
Qed.

(** The tables of [still_start] are some tables. *)
Lemma op_step_mono d h t s o a s' :
  op_step (still_start d h) (still_next d h) t s o a s' -> op_step db_start db_next t s o a s'.
Proof.
  destruct o; cbn; try done.
  - intros (q & Hq & Hs & ->). exists q. split_and!; try done. by exists quiet_start, d, h, (mkConn d (Some h)).
  - intros (q & Hq & Hs & ->). exists q. split_and!; try done. exists quiet_next, d, h, (mkConn d (Some h)).
    split_and!; try done; by intros b Hb.
Qed.

Lemma reachable_db d h n w : reachable (still_start d h) (still_next d h) n w -> reachable db_start db_next n w.
Proof.
  unfold reachable. apply rtc_subrel. intros x y Hxy. destruct Hxy as [t o k a s' Ht Ho|t d' Ht|s' Hc].
  - eapply S_call; [done|]. by eapply op_step_mono.
  - by apply S_loop.
  - by apply S_client.
Qed.

Definition sample_done : req :=
  Eval vm_compute in default (mkReq RESET_QUERY false [] []) (sh_reqs (sys_shared sample_served) !! 5%nat).

Lemma sample_done_there : sh_reqs (sys_shared sample_served) !! 5%nat = Some sample_done.
Proof. vm_compute. reflexivity. Qed.

(** ** Claims *)



(** C24: no wake-up is lost. When every database thread waits, the semaphore
    is zero and no connection is about to post it (and no post or lock has
    failed), then there is nothing to do: no new request, and every request in
    the bag is uncancelled and has its buffer of three responses full. *)
Theorem db_no_lost_wakeup n w :
  reachable db_start db_next n w ->
  Forall (fun p => exists k, p = Call OSemWait k) (sys_threads w) ->
  sh_sem (sys_shared w) = 0%nat -> sh_owed (sys_shared w) = 0%nat -> sh_lost (sys_shared w) = 0%nat ->
  sh_requests (sys_shared w) = []
  /\ forall i x, sh_bag (sys_shared w) !! i = Some (Some x) ->
       exists q, sh_reqs (sys_shared w) !! rq_request x = Some q /\ q_cancel q = false
         /\ (DB_RESPONSE_BUFFER_LENGTH <= length (q_queue q))%nat.
Proof.
  intros Hw Hwait H1 H2 H3. destruct (reachable_inv db_start db_next db_next_ok n w Hw) as (phs & Hth & Hi).
  assert (Hidle : phs = replicate (length phs) PIdle).
  { symmetry. apply replicate_as_Forall. split; [done|]. apply Forall_lookup. intros t ph Hph.
    destruct (Forall2_lookup_l _ _ _ _ _ Hth Hph) as (p & Hp & Hok).
    destruct (proj1 (Forall_lookup _ _) Hwait t p Hp) as [k ->]. by destruct Hok as [Ha _]. }
  assert (Hs : forall f : phase -> nat, f PIdle = 0%nat -> sum_list_with f phs = 0%nat).
  { intros f Hf. rewrite Hidle. by apply sum_idle. }
  pose proof (i_c2 _ _ _ _ Hi) as Hc. unfold tokens2, tokens1 in Hc. rewrite !Hs, H1, H2, H3 in Hc by done.
  split; [apply length_zero_iff_nil; lia|]. intros i x Hx.
  destruct (i_owned _ _ _ _ Hi _ _ (bag_owned phs _ i x Hx)) as (q & Hq & _). exists q. split; [done|].
  assert (Hr : ready q = false).
  { assert (Hz : svcs (sh_reqs (sys_shared w)) (sh_bag (sys_shared w)) = 0%nat) by lia.
    rewrite (svcs_perm _ _ _ (focus _ _ _ Hx)), svcs_cons in Hz. cbn [svc] in Hz. rewrite Hq in Hz.
    destruct (ready q); [lia|done]. }
  unfold ready in Hr. apply orb_false_iff in Hr as [Hc1 Hc2]. split; [done|]. by apply Nat.ltb_ge.
Qed.

(** Eight serial numbers one after the other: a router at the first of them
    gets a response for each. *)
Definition chain_db : db :=
  mkDb [7]
    ((fun n => mkUpd (Z.of_nat n + 1) (if Nat.eqb n 0 then None else Some (Z.of_nat n)) (100 * Z.of_nat n) true) <$> seq 0 8)
    ((fun n => mkFull (Z.of_nat n + 1) row_a) <$> seq 0 8)
    ((fun n => mkInc (Z.of_nat n + 1) (Nat.odd n) row_a) <$> seq 1 7) [] [] 1000.

(** Thread 1 makes three responses, which nobody collects, puts the request
    back and waits; thread 0 starts, finds nothing to do and waits as well. *)
Definition sample_waiting : sys :=
  run_thread chain_db 0 200 0 (run_thread chain_db 0 200 1 (submit 5%nat (SERIAL_QUERY 1) (sys_start 2))).

Lemma sample_waiting_reachable : reachable db_start db_next 2 sample_waiting.
Proof.
  apply (reachable_db chain_db 0). unfold reachable, sample_waiting.
  etransitivity; [|apply run_thread_steps]. etransitivity; [|apply run_thread_steps].
  by apply (submit_steps chain_db 0 5%nat (SERIAL_QUERY 1)).
Qed.

Definition waits (p : Prog (db_run * unit)) : bool := match p with Call OSemWait _ => true | _ => false end.

Lemma all_wait l : forallb waits l = true -> Forall (fun p => exists k, p = Call OSemWait k) l.
Proof.
  intros H. apply Forall_forall. intros p Hp. rewrite forallb_forall in H. apply list_elem_of_In, H in Hp.
  destruct p as [|?|[] k]; try done. by exists k.
Qed.

Lemma db_no_lost_wakeup_witness :
  length (sh_bag (sys_shared sample_waiting)) = 1%nat
  /\ (sh_requests (sys_shared sample_waiting) = []
      /\ forall i x, sh_bag (sys_shared sample_waiting) !! i = Some (Some x) ->
           exists q, sh_reqs (sys_shared sample_waiting) !! rq_request x = Some q /\ q_cancel q = false
             /\ (DB_RESPONSE_BUFFER_LENGTH <= length (q_queue q))%nat).
Proof.
  split; [vm_compute; reflexivity|].
  apply (db_no_lost_wakeup 2 sample_waiting); [apply sample_waiting_reachable| |vm_compute; reflexivity..].
  apply all_wait. vm_compute. reflexivity.
Defined.

(** C38: a connection that does not collect its responses does not make the
    daemon store more than four of them. *)
Theorem db_queue_bound n w r q :
  reachable db_start db_next n w -> sh_reqs (sys_shared w) !! r = Some q ->
  (length (q_queue q) <= S DB_RESPONSE_BUFFER_LENGTH)%nat.
Proof.
  intros Hw Hq. destruct (reachable_inv db_start db_next db_next_ok n w Hw) as (phs & _ & Hi).
  unfold DB_RESPONSE_BUFFER_LENGTH. destruct (decide (r ∈ (owned phs (sys_shared w)).*1)) as [Hr|Hr].
  - apply list_elem_of_fmap in Hr as ([r' p] & -> & Hin). destruct (i_owned _ _ _ _ Hi _ _ Hin) as (q' & Hq' & _ & _ & Hl).
    cbn in Hq. rewrite Hq in Hq'. injection Hq' as <-. lia.
  - by apply (i_done _ _ _ _ Hi r).
Qed.

Lemma db_queue_bound_witness : (length (q_queue sample_done) <= S DB_RESPONSE_BUFFER_LENGTH)%nat.
Proof.
  apply (db_queue_bound 2 sample_served 5%nat sample_done);
    [apply (reachable_db sample_db 0), sample_served_reachable|apply sample_done_there].
Defined.

(** C2: routers get the right data through the daemon. On tables in a
    consistent state that do not change meanwhile, when the last response of a
    request has been made, no call has failed on its way and it was not
    cancelled, the PDUs of its responses take a router that asked for
    everything, or for the changes since a serial number the tables know, to
    the newest set and serial number, whichever threads served it, in whichever
    interleaving with other requests. *)
Theorem db_threads_sync F d h sid w n sys r q x :
  rtr_inv F d -> rtr_session d = [sid] -> latest_update (rtr_update d) = Some w ->
  reachable (still_start d h) (still_next d h) n sys -> sh_reqs (sys_shared sys) !! r = Some q ->
  last (q_log q) = Some x -> resp_is_done x = true -> error_response ∉ q_log q -> q_cancel q = false ->
  match q_query q with
  | RESET_QUERY => forall R,
      router_run (mkRouter ∅ R) (pdus_of (q_log q)) = mkRouter (F (serial_num w)) (serial_num w)
  | SERIAL_QUERY s => known s d ->
      router_run (mkRouter (F s) s) (pdus_of (q_log q)) = mkRouter (F (serial_num w)) (serial_num w)
  end.
Proof.
  intros Hd Hsid Hw Hsys Hq Hx Hdone Herr Hcancel.
  destruct (reachable_inv _ _ (still_next_ok d h) n sys Hsys) as (phs & _ & Hi).
  assert (Hn : r ∉ (owned phs (sys_shared sys)).*1).
  { eapply last_not_owned; [exact Hi|exact Hq| |exact Hdone]. by apply last_Some_elem_of. }
  destruct (i_done _ _ _ _ Hi r q Hq Hn) as [Hs _]. rewrite Hcancel in Hs.
  assert (Hall : forall ps, answer d h (q_query q) ps -> pdus_of (q_log q) = ps).
  { intros ps Hps. by apply (served_prefix d h _ _ _ _ ps Hs Hps). }
  assert (Hrows : (2 <= DB_ROWS_PER_RESPONSE)%nat) by (unfold DB_ROWS_PER_RESPONSE; lia).
  destruct (q_query q) as [s|].
  - intros Hk. destruct (serial_router F d h sid w _ s Hd Hsid Hw Hk Hrows) as (ps & Hps & <-). by rewrite (Hall ps).
  - intros R. destruct (reset_router F d h sid w _ R Hd Hsid Hw Hrows) as (ps & Hps & <-). by rewrite (Hall ps).
Qed.

Lemma db_threads_sync_witness :
  router_run (mkRouter ∅ 0) (pdus_of (q_log sample_done)) = mkRouter (sample_sets 12) 12.
Proof.
  refine (db_threads_sync sample_sets sample_db 0 7 (mkUpd 12 (Some 11) 300 true) 2 sample_served 5%nat sample_done
    (default error_response (last (q_log sample_done))) sample_inv eq_refl eq_refl sample_served_reachable
    sample_done_there eq_refl eq_refl _ eq_refl 0).
  cbn. intros Hin. by apply list_elem_of_singleton in Hin.
Defined.

(** The request a thread is about to post, if that is its next call. *)
Definition posting (p : Prog (db_run * unit)) : option rid :=
  match p with Call (OPostResponse r) _ => Some r | _ => None end.

Definition sample_pushed : sys := run_thread sample_db 0 14 1 (submit 5%nat RESET_QUERY (sys_start 2)).

(** After it has pushed the last response a database thread still uses
    the request to find the semaphore to post. The connection may have taken
    that response and given up the request by then. *)
Lemma db_post_race :
  exists w, reachable db_start db_next 2 w
    /\ (posting <$> sys_threads w !! 1%nat) = Some (Some 5%nat) /\ sh_reqs (sys_shared w) !! 5%nat = None.
Proof.
  set (s := sys_shared sample_pushed). set (q := sample_done).
  assert (Hq : sh_reqs s !! 5%nat = Some q) by (vm_compute; reflexivity).
  assert (El : q_queue q = [default error_response (last (q_log q))]) by reflexivity.
  set (x := default error_response (last (q_log q))).
  set (s1 := set_owed (if resp_is_done x || q_cancel q then sh_owed s else S (sh_owed s))
    (set_reqs (<[5%nat := set_q_queue [] q]> (sh_reqs s)) s)).
  set (s2 := set_reqs (delete 5%nat (sh_reqs s1)) s1). set (l := sys_threads sample_pushed).
  assert (H1 : reachable db_start db_next 2 sample_pushed).
  { apply (reachable_db sample_db 0). unfold reachable. etransitivity; [|apply (run_thread_steps sample_db 0 14 1)].
    by apply (submit_steps sample_db 0 5%nat RESET_QUERY). }
  assert (H2 : sys_step db_start db_next sample_pushed (mkSys s1 l))
    by exact (S_client _ _ sample_pushed s1 (C_collect s 5%nat q x [] Hq El)).
  assert (H3 : sys_step db_start db_next (mkSys s1 l) (mkSys s2 l)).
  { apply (S_client _ _ (mkSys s1 l) s2). apply (C_reuse s1 5%nat (set_q_queue [] q) (default error_response (last (q_log q))));
      [apply lookup_insert_eq|reflexivity..]. }
  exists (mkSys s2 l). split_and!.
  - unfold reachable. eapply rtc_r; [eapply rtc_r; [exact H1|exact H2]|exact H3].
  - vm_compute. reflexivity.
  - apply lookup_delete_eq.
Qed.
