(* ===== verification/CasnTime.v ===== *)
(** * ASN.1 times ([src/lib/casn/casn_time.c])

    A UTCTime or GeneralizedTime is its content bytes; the code converts them to
    seconds since 1970 and back. The specification is the Gregorian calendar,
    written out below: [epoch_seconds] counts the days year by year and month by
    month. The code counts a leap day every fourth year, and takes a second,
    different decision when it checks the day of the month; the theorems say
    where this is the calendar. *)

From S2P Require Import Prelude.

(** ** Characters and positions *)

Definition ch_0 : Z := 48.
Definition ch_5 : Z := 53.
Definition ch_9 : Z := 57.
Definition ch_Z : Z := 90.
Definition ch_plus : Z := 43.
Definition ch_minus : Z := 45.
Definition INT_MAX : Z := 2147483647.

Definition UTCBASE : Z := 70.
Definition UTCYR : nat := 0.
Definition UTCYRSIZ : nat := 2.
Definition UTCMO : nat := 2.
Definition UTCMOSIZ : nat := 2.
Definition UTCDA : nat := 4.
Definition UTCDASIZ : nat := 2.
Definition UTCHR : nat := 6.
Definition UTCHRSIZ : nat := 2.
Definition UTCMI : nat := 8.
Definition UTCMISIZ : nat := 2.
Definition UTCSE : nat := 10.
Definition UTCSESIZ : nat := 2.
Definition UTCSFXHR : nat := 1.
Definition UTCSFXMI : nat := 3.
Definition UTCT_SIZE : nat := 17.
Definition GENBASE : Z := 1970.
Definition GENYR : nat := 0.
Definition GENYRSIZ : nat := 4.
Definition GENMO : nat := 4.
Definition GENMOSIZ : nat := 2.
Definition GENDA : nat := 6.
Definition GENDASIZ : nat := 2.
Definition GENHR : nat := 8.
Definition GENHRSIZ : nat := 2.
Definition GENMI : nat := 10.
Definition GENMISIZ : nat := 2.
Definition GENSE : nat := 12.
Definition GENSESIZ : nat := 2.
Definition GENSFXHR : nat := 1.
Definition GENSFXMI : nat := 3.
Definition HIXTRA : Z := 14 * 60.
Definition LOXTRA : Z := -12 * 60.

Definition _mos : list Z :=
  [0; 31; 59; 90; 120; 151; 181; 212; 243; 273; 304; 334; 365; 366].

(** [_mos[i]]; the callers stay inside of the table. *)
Definition mos (i : Z) : Z := nth (Z.to_nat i) _mos 0.

(** ** Reading *)

Definition is_digit (c : Z) : bool := (ch_0 <=? c) && (c <=? ch_9).

Fixpoint get_num_loop (c : list Z) (lth : nat) (val : Z) : Z :=
  match lth with
  | O => val
  | S n =>
      let x := hd 0 c in
      if is_digit x then
        let val := val * 10 + (x - ch_0) in
        if (INT_MAX <? val) || (val <? 0) then -1 else get_num_loop (tl c) n val
      else -1
  end.

(** [lth] decimal digits at [c] as a number, or -1. *)
Definition get_num (c : list Z) (lth : nat) : Z := get_num_loop c lth 0.

(** [for (b = fromp; b < ep && *b >= '0' && *b <= '9'; b++)]: the position where
    the loop ends. *)
Fixpoint digits_end (fromp : list Z) (lth : nat) : nat :=
  match lth with
  | O => O
  | S n => if is_digit (hd 0 fromp) then S (digits_end (tl fromp) n) else O
  end.

(** Seconds to subtract for the suffix at position [b]. *)
Definition suffix_seconds (fromp : list Z) (b : nat) : option Z :=
  let x := nth b fromp 0 in
  if (x =? ch_plus) || (x =? ch_minus) then
    let hr := get_num (drop (b + GENSFXHR) fromp) GENHRSIZ in
    if (23 <? hr) || (hr <? 0) then None
    else
      let mi := get_num (drop (b + GENSFXMI) fromp) GENMISIZ in
      if (59 <? mi) || (mi <? 0) then None
      else
        let xtra := hr * 60 + mi in
        let xtra := if x =? ch_minus then - xtra else xtra in
        if (HIXTRA <? xtra) || (xtra <? LOXTRA) then None else Some (60 * xtra)
  else Some 0.

(** Days from 1970 to the first of the month: [yr] counts from 1970. *)
Definition gentime_days (yr mo : Z) : Z :=
  let val := yr * 365 + mos (mo - 1) + (yr + UTCBASE mod 4) / 4 in
  if ((yr + UTCBASE) mod 4 =? 0) && (mo <? 3) then val - 1 else val.

(** The code's length of a month. *)
Definition gentime_modays (yr mo : Z) : Z :=
  let leap := negb ((0 <? (yr + UTCBASE) mod 4) || (0 <? (yr / 100) mod 4)) in
  mos mo - mos (mo - 1) + (if (mo =? 2) && leap then 1 else 0).

(** [fromp] is the memory from the pointer on, zero where the list ends (the
    callers' buffers are NUL-terminated). [None] is the return value -1; [Some]
    is [*valp] with the return value [GENTIME_RET]. *)
Definition GENTIME_RET : Z := Z.of_nat (GENSE + GENSESIZ + 1).

Definition _gentime_to_ulong (fromp : list Z) (lth : nat) : option Z :=
  let b := digits_end fromp lth in
  let x := nth b fromp 0 in
  if (b <? lth)%nat &&
     ((b <? GENSE)%nat || negb (zin x [ch_Z; ch_plus; ch_minus]) ||
      ((x =? ch_Z) && negb (lth =? b + GENSFXHR)%nat) ||
      ((x <? ch_0) && negb (lth =? b + (GENSFXMI + GENMISIZ))%nat))
  then None else
  let yr := get_num (drop GENYR fromp) GENYRSIZ - GENBASE in
  if yr <? 0 then None else
  let mo := get_num (drop GENMO fromp) GENMOSIZ in
  if (mo <? 1) || (12 <? mo) then None else
  let val := gentime_days yr mo in
  if val <? 0 then None else
  let da := get_num (drop GENDA fromp) GENDASIZ in
  if (da <? 1) || (gentime_modays yr mo <? da) then None else
  let val := val + (da - 1) in
  if (lth <=? GENHR)%nat then None else
  let hr := get_num (drop GENHR fromp) GENHRSIZ in
  if (23 <? hr) || (hr <? 0) then None else
  let val := val * 24 + hr in
  if val <? 0 then None else
  if (lth <=? GENMI)%nat then None else
  let mi := get_num (drop GENMI fromp) GENMISIZ in
  if (59 <? mi) || (mi <? 0) then None else
  let se := if (b <=? GENSE)%nat then 0 else get_num (drop GENSE fromp) GENSESIZ in
  if (59 <? se) || (se <? 0) then None else
  let val := val * 3600 + mi * 60 + se in
  if val <? 0 then None else
  xtra ← suffix_seconds fromp b;
  let val := val - xtra in
  if val <? 0 then None else Some val.

(** The return value is [UTCTIME_RET] in the case [Some]. *)
Definition UTCTIME_RET : Z := GENTIME_RET - 2.

Definition _utctime_to_ulong (fromp : list Z) (lth : nat) : option Z :=
  let b := digits_end fromp lth in
  let x := nth b fromp 0 in
  if (UTCT_SIZE <? lth)%nat || ((b <? lth)%nat && (b <? UTCSE)%nat) ||
     negb (zin x [ch_Z; ch_plus; ch_minus]) ||
     ((x =? ch_Z) && negb (lth =? b + UTCSFXHR)%nat) ||
     ((x <? ch_0) && negb (lth =? b + (UTCSFXMI + UTCMISIZ))%nat)
  then None else
  if (32 <? lth + 2)%nat then None else
  let yr := get_num (drop UTCYR fromp) UTCYRSIZ in
  if yr <? 0 then None else
  let century := if yr <? 50 then [50; 48] else [49; 57] in
  _gentime_to_ulong (century ++ take lth fromp) (lth + 2).

(** A filled time object. *)
Inductive time_type := ASN_UTCTIME | ASN_GENTIME.
Record casn_time := { time_ty : time_type; time_content : list Z }.

Definition casn_lth (t : casn_time) : nat := length (time_content t).

(** [read_casn_time] on a time object: [None] is -1, otherwise [*valp]; the
    return value is then the length of the content. *)
Definition read_casn_time (t : casn_time) : option Z :=
  let s := time_content t in
  match time_ty t with
  | ASN_GENTIME =>
      if (32 <? length s + 1)%nat then None else _gentime_to_ulong s (length s)
  | ASN_UTCTIME =>
      if (32 <? length s + 2 + 1)%nat then None
      else
        let century := if ch_5 <=? hd 0 s then [49; 57] else [50; 48] in
        _gentime_to_ulong (century ++ s) (length s + 2)
  end.

(** ** Writing *)

(** The last [lth] decimal digits of [val]. *)
Fixpoint put_num (val : Z) (lth : nat) : list Z :=
  match lth with
  | O => []
  | S n => put_num (val / 10) n ++ [val mod 10 + ch_0]
  end.

Definition ulong (x : Z) : Z := wrap 64 x.

(** What [write_casn_time] does: it fails, reads outside of [_mos] (for a
    negative day number), or fills the object. *)
Inductive written := WFail | WUndef | WOk (content : list Z).

(** [for (mop = _mos; da >= *mop; mop++)] *)
Fixpoint mop_loop (da : Z) (mop : nat) (l : list Z) : option nat :=
  match l with
  | [] => None
  | m :: l => if m <=? da then mop_loop da (S mop) l else Some mop
  end.

(** Month and day of the month of day [da] (from 0) of a year; [None] when the
    code leaves the table. *)
Definition month_day (da : Z) (leap : bool) : option (Z * Z) :=
  mop ← mop_loop da 0 _mos;
  let mop := if (12 <? mop)%nat then (mop - 1)%nat else mop in
  before ← (match mop with O => None | S m => _mos !! m end);
  let '(mop, da) :=
    if leap then
      if da =? 59 then ((mop - 1)%nat, da)
      else if 59 <? da then
        if da - 1 <? before then ((mop - 1)%nat, da - 1) else (mop, da - 1)
      else (mop, da)
    else (mop, da) in
  before ← (match mop with O => None | S m => _mos !! m end);
  Some (Z.of_nat mop, da + 1 - before).

(** Years since 1970 and day of the year. *)
Definition year_day (days : Z) : Z * Z :=
  let time := days + ((UTCBASE - 1) mod 4) * 365 in
  let da := Z.rem time 1461 in
  let time := Z.quot time 1461 in
  (time * 4 + (if da =? 1460 then 3 else Z.quot da 365) - (UTCBASE - 1) mod 4,
   if da =? 1460 then 365 else Z.rem da 365).

Definition write_casn_time (ty : time_type) (time : Z) : written :=
  let base := match ty with ASN_GENTIME => 2%nat | ASN_UTCTIME => 0%nat end in
  let buf := replicate 20 0 in
  let sec := Z.rem time 60 in
  let time := Z.quot time 60 in
  let min := Z.rem time 60 in
  let time := Z.quot time 60 in
  let hr := Z.rem time 24 in
  let buf := blit (base + UTCSE) (put_num (ulong sec) UTCSESIZ) buf in
  let buf := blit (base + UTCMI) (put_num (ulong min) UTCMISIZ) buf in
  let buf := blit (base + UTCHR) (put_num (ulong hr) UTCHRSIZ) buf in
  let '(years_since_base, da) := year_day (Z.quot time 24) in
  match month_day da (Z.rem years_since_base 4 =? UTCBASE mod 4) with
  | None => WUndef
  | Some (mo, day) =>
      let buf := blit (base + UTCDA) (put_num (ulong day) UTCDASIZ) buf in
      let buf := blit (base + UTCMO) (put_num (ulong mo) UTCMOSIZ) buf in
      match ty with
      | ASN_UTCTIME =>
          if 2050 - 1970 <=? years_since_base then WFail
          else
            let buf := blit (base + UTCYR) (put_num (ulong (years_since_base + UTCBASE)) UTCYRSIZ) buf in
            let buf := blit (base + UTCSE + UTCSESIZ) [ch_Z] buf in
            WOk (take (base + UTCSE + UTCSESIZ + 1) buf)
      | ASN_GENTIME =>
          let buf := blit (base + UTCYR) (put_num (ulong (years_since_base + UTCBASE)) UTCYRSIZ) buf in
          let buf := blit (base + UTCSE + UTCSESIZ) [ch_Z] buf in
          let buf :=
            if 30 <=? years_since_base
            then blit 0 [50; if years_since_base <? 130 then 48 else 49] buf
            else blit 0 [49; 57] buf in
          WOk (take (base + UTCSE + UTCSESIZ + 1) buf)
      end
  end.

(** The size of a filled time object as [vsize_casn] gives it: the code
    converts the time to DER first ([_readsize] of [casn.c]). *)
Definition vsize_casn_time (t : casn_time) : Z :=
  match read_casn_time t with
  | Some secs =>
      if (0 <? casn_lth t)%nat then
        match write_casn_time (time_ty t) secs with
        | WOk c => Z.of_nat (length c)
        | _ => -1
        end
      else -1
  | None => -1
  end.

(** [CHOICE { utcTime, generalTime }]: the alternative that is filled. *)
Record time_choice := { utcTime : option casn_time; generalTime : option casn_time }.

Definition vsize_opt_time (t : option casn_time) : Z := from_option vsize_casn_time 0 t.

Definition read_casn_time_choice (t : time_choice) : option Z :=
  if negb (vsize_opt_time (utcTime t) =? 0) then utcTime t ≫= read_casn_time
  else if negb (vsize_opt_time (generalTime t) =? 0) then generalTime t ≫= read_casn_time
  else None.

(** -2 when a time is unreadable or empty, otherwise the comparison. *)
Definition diff_casn_time (t1 t2 : casn_time) : Z :=
  match read_casn_time t1, read_casn_time t2 with
  | Some v1, Some v2 =>
      if (casn_lth t1 =? 0)%nat || (casn_lth t2 =? 0)%nat then -2
      else if v2 <? v1 then 1 else if v1 <? v2 then -1 else 0
  | _, _ => -2
  end.

(** ** The calendar *)

Definition is_leap (y : Z) : bool :=
  (y mod 4 =? 0) && (negb (y mod 100 =? 0) || (y mod 400 =? 0)).

Definition month_length (leap : bool) (m : Z) : Z :=
  if m =? 2 then (if leap then 29 else 28)
  else if zin m [4; 6; 9; 11] then 30 else 31.

(** Days of [n] years from 1970 on, and of the first [n] months of a year. *)
Fixpoint days_of_years (n : nat) : Z :=
  match n with
  | O => 0
  | S n => days_of_years n + (if is_leap (1970 + Z.of_nat n) then 366 else 365)
  end.
Fixpoint days_of_months (leap : bool) (n : nat) : Z :=
  match n with
  | O => 0
  | S n => days_of_months leap n + month_length leap (1 + Z.of_nat n)
  end.

Record civil := mkCivil {
  year : Z; month : Z; day : Z; hour : Z; minute : Z; second : Z }.

Definition valid_civil (c : civil) : Prop :=
  1970 <= year c /\ 1 <= month c <= 12 /\
  1 <= day c <= month_length (is_leap (year c)) (month c) /\
  0 <= hour c <= 23 /\ 0 <= minute c <= 59 /\ 0 <= second c <= 59.

#[global] Instance valid_civil_dec c : Decision (valid_civil c).
Proof. unfold valid_civil. apply _. Defined.

Definition civil_day (y m d : Z) : Z :=
  days_of_years (Z.to_nat (y - 1970)) + days_of_months (is_leap y) (Z.to_nat (m - 1)) + (d - 1).

Definition epoch_seconds (c : civil) : Z :=
  ((civil_day (year c) (month c) (day c) * 24 + hour c) * 60 + minute c) * 60 + second c.

(** What follows the digits: [Z] or an offset. *)
Inductive zone := Zulu | East (h m : Z) | West (h m : Z).

Definition zone_bytes (z : zone) : list Z :=
  match z with
  | Zulu => [ch_Z]
  | East h m => [ch_plus] ++ put_num h 2 ++ put_num m 2
  | West h m => [ch_minus] ++ put_num h 2 ++ put_num m 2
  end.

Definition zone_minutes (z : zone) : Z :=
  match z with Zulu => 0 | East h m => h * 60 + m | West h m => - (h * 60 + m) end.

Definition valid_zone (z : zone) : Prop :=
  match z with
  | Zulu => True
  | East h m | West h m => 0 <= h <= 23 /\ 0 <= m <= 59 /\ -12 * 60 <= zone_minutes z <= 14 * 60
  end.

(** The digits after the year, and the two encodings. *)
Definition date_bytes (c : civil) : list Z :=
  put_num (month c) 2 ++ put_num (day c) 2 ++ put_num (hour c) 2 ++
  put_num (minute c) 2 ++ put_num (second c) 2.
Definition gen_bytes (c : civil) (z : zone) : list Z :=
  put_num (year c) 4 ++ date_bytes c ++ zone_bytes z.
Definition utc_bytes (c : civil) (z : zone) : list Z :=
  put_num (year c) 2 ++ date_bytes c ++ zone_bytes z.

(** The days on which reading goes wrong before 2100. *)
Definition late_leap_day (c : civil) : Prop :=
  2070 <= year c /\ month c = 2 /\ day c = 29.
#[global] Instance late_leap_day_dec c : Decision (late_leap_day c).
Proof. unfold late_leap_day. apply _. Defined.
