(* ===== verification/CasnTimeFacts.v ===== *)
(** * ASN.1 times: the theorems

    Reading gives the seconds of the Gregorian calendar for every date from 1970
    to 2099 but the leap days from 2072 on, which are refused; what is written
    reads back. *)

From S2P Require Import Prelude CasnTime.

(** Linear arithmetic with division and remainder by constants. *)
Ltac dlia := Z.to_euclidean_division_equations; lia.

(** ** Digits *)

Lemma length_put_num v n : length (put_num v n) = n.
Proof.
  revert v. induction n as [|n IH]; intros v; simpl; [done|].
  rewrite length_app, IH. simpl. lia.
Qed.

Lemma is_digit_mod v : is_digit (v mod 10 + ch_0) = true.
Proof.
  unfold is_digit, ch_0, ch_9. pose proof (Z.mod_pos_bound v 10).
  apply andb_true_iff. split; apply Z.leb_le; lia.
Qed.

Lemma put_num_digits v n : Forall (fun x => is_digit x = true) (put_num v n).
Proof.
  revert v. induction n as [|n IH]; intros v; simpl; [constructor|].
  apply Forall_app. split; [apply IH|]. repeat constructor. apply is_digit_mod.
Qed.

Lemma pow10_S n : 10 ^ Z.of_nat (S n) = 10 * 10 ^ Z.of_nat n.
Proof. rewrite Nat2Z.inj_succ, Z.pow_succ_r by lia. done. Qed.

Lemma get_num_loop_app n m acc l1 l2 :
  length l1 = n ->
  get_num_loop (l1 ++ l2) (n + m) acc =
    (let v := get_num_loop l1 n acc in if v =? -1 then -1 else get_num_loop l2 m v) \/
  get_num_loop l1 n acc < 0.
Proof.
  revert acc l1. induction n as [|n IH]; intros acc l1 Hl.
  - destruct l1; [|done]. simpl. destruct (Z.eqb_spec acc (-1)); [right|left]; [lia|done].
  - destruct l1 as [|x l1]; [done|]. simpl.
    destruct (is_digit x); [|right; lia].
    destruct (_ || _); [right; lia|]. apply IH. by injection Hl.
Qed.

(** A number of at most nine digits reads back. *)
Lemma get_num_put v n rest :
  (n <= 9)%nat -> 0 <= v < 10 ^ Z.of_nat n -> get_num (put_num v n ++ rest) n = v.
Proof.
  unfold get_num. revert v rest. induction n as [|n IH]; intros v rest Hn Hv.
  - change (10 ^ Z.of_nat 0) with 1 in Hv. cbn. lia.
  - rewrite pow10_S in Hv. cbn [put_num]. rewrite <- app_assoc.
    assert (Hq : 0 <= v / 10 < 10 ^ Z.of_nat n)
      by (split; [apply Z.div_pos | apply Z.div_lt_upper_bound]; lia).
    assert (10 ^ Z.of_nat n <= 10 ^ 8) by (apply Z.pow_le_mono_r; lia).
    pose proof (IH (v / 10) [] ltac:(lia) Hq) as IH'. rewrite app_nil_r in IH'.
    replace (S n) with (n + 1)%nat by lia.
    destruct (get_num_loop_app n 1 0 (put_num (v / 10) n) ([v mod 10 + ch_0] ++ rest)) as [E|E].
    + apply length_put_num.
    + rewrite E, IH'. cbv zeta. destruct (Z.eqb_spec (v / 10) (-1)); [lia|].
      cbn [get_num_loop hd tl app]. rewrite is_digit_mod.
      replace (v / 10 * 10 + (v mod 10 + ch_0 - ch_0)) with v
        by (pose proof (Z.div_mod v 10); lia).
      unfold INT_MAX. destruct (Z.ltb_spec 2147483647 v); [lia|].
      destruct (Z.ltb_spec v 0); [lia|done].
    + rewrite IH' in E. lia.
Qed.

Lemma get_num_2 v rest : 0 <= v < 100 -> get_num (put_num v 2 ++ rest) 2 = v.
Proof. intros H. apply get_num_put; [lia|exact H]. Qed.

Lemma digits_end_app l x rest lth :
  Forall (fun y => is_digit y = true) l -> is_digit x = false ->
  (length l < lth)%nat -> digits_end (l ++ x :: rest) lth = length l.
Proof.
  intros Hl Hx. revert lth. induction Hl as [|y l Hy _ IH]; intros [|lth] Hlth; simpl in *; try lia.
  - by rewrite Hx.
  - by rewrite Hy, IH by lia.
Qed.

(** [drop] past a piece of known length. *)
Lemma drop_piece n k (l1 l2 : list Z) :
  length l1 = n -> (n <= k)%nat -> drop k (l1 ++ l2) = drop (k - n) l2.
Proof. intros <- H. rewrite drop_app_ge by lia. done. Qed.

(** ** The calendar *)

Lemma is_leap_mod4 y : 1970 <= y < 2100 -> is_leap y = (y mod 4 =? 0).
Proof.
  intros Hy. unfold is_leap. destruct (Z.eqb_spec (y mod 4) 0); [|done]. simpl.
  destruct (Z.eqb_spec (y mod 100) 0); [simpl|done].
  destruct (Z.eqb_spec (y mod 400) 0); [done|]. exfalso. dlia.
Qed.

Lemma days_of_years_closed n :
  (n <= 130)%nat -> days_of_years n = 365 * Z.of_nat n + (Z.of_nat n + 1) / 4.
Proof.
  induction n as [|n IH]; intros Hn; [done|]. cbn [days_of_years].
  rewrite IH, is_leap_mod4 by lia.
  destruct (Z.eqb_spec ((1970 + Z.of_nat n) mod 4) 0); dlia.
Qed.

(** Twelve months, case by case. *)
Lemma month_cases (P : Z -> Prop) m :
  1 <= m <= 12 -> Forall P [1; 2; 3; 4; 5; 6; 7; 8; 9; 10; 11; 12] -> P m.
Proof.
  intros Hm HP. rewrite Forall_forall in HP. apply HP.
  assert (m = 1 \/ m = 2 \/ m = 3 \/ m = 4 \/ m = 5 \/ m = 6 \/ m = 7 \/ m = 8 \/
          m = 9 \/ m = 10 \/ m = 11 \/ m = 12) as Hc by lia.
  rewrite !elem_of_cons. naive_solver.
Qed.

Lemma days_of_months_mos leap m :
  1 <= m <= 12 ->
  days_of_months leap (Z.to_nat (m - 1)) = mos (m - 1) + (if leap && (2 <? m) then 1 else 0).
Proof.
  intros Hm. pattern m. apply month_cases; [done|].
  destruct leap; repeat constructor.
Qed.

Lemma month_length_mos m :
  1 <= m <= 12 -> month_length false m = mos m - mos (m - 1).
Proof. intros Hm. pattern m. apply month_cases; [done|]. repeat constructor. Qed.

(** The first of a month as the code computes it. *)
Lemma gentime_days_civil y m :
  1970 <= y < 2100 -> 1 <= m <= 12 -> gentime_days (y - 1970) m = civil_day y m 1.
Proof.
  intros Hy Hm. unfold gentime_days, civil_day.
  rewrite days_of_years_closed, days_of_months_mos, is_leap_mod4, Z2Nat.id by lia.
  change (UTCBASE mod 4) with 2. unfold UTCBASE.
  replace ((y - 1970 + 70) mod 4 =? 0) with (y mod 4 =? 0)
    by (destruct (Z.eqb_spec (y mod 4) 0), (Z.eqb_spec ((y - 1970 + 70) mod 4) 0); dlia).
  destruct (Z.eqb_spec (y mod 4) 0), (Z.ltb_spec m 3), (Z.ltb_spec 2 m); simpl; dlia.
Qed.

Lemma gentime_modays_civil y m :
  1970 <= y < 2100 -> 1 <= m <= 12 ->
  gentime_modays (y - 1970) m =
    month_length (is_leap y) m - (if (2070 <=? y) && is_leap y && (m =? 2) then 1 else 0).
Proof.
  intros Hy Hm. unfold gentime_modays. rewrite is_leap_mod4, <- month_length_mos by lia.
  unfold UTCBASE, month_length.
  destruct (Z.eqb_spec m 2) as [->|]; [|rewrite andb_false_r; simpl; lia].
  destruct (Z.leb_spec 2070 y), (Z.eqb_spec (y mod 4) 0),
    (Z.ltb_spec 0 ((y - 1970 + 70) mod 4)), (Z.ltb_spec 0 ((y - 1970) / 100 mod 4));
    simpl; dlia.
Qed.

(** ** Reading the fields of an encoding *)

(** Skip the fields before the one that is read. *)
Ltac at_field :=
  unfold gen_bytes, date_bytes; rewrite <- ?app_assoc;
  repeat (erewrite drop_piece; [| apply length_put_num | vm_compute; lia]);
  cbn [Nat.sub GENYR GENMO GENDA GENHR GENMI GENSE]; rewrite drop_0.

Lemma zone_first (w : zone) :
  exists x rest, zone_bytes w = x :: rest /\ is_digit x = false /\ zin x [ch_Z; ch_plus; ch_minus] = true /\
    (x = ch_Z -> rest = []) /\ (x <> ch_Z -> (x < ch_0) /\ length rest = 4%nat).
Proof.
  destruct w as [|h m|h m]; eexists _, _; split_and!; try reflexivity; try done;
    intros; simpl in *; rewrite ?length_app, ?length_put_num; done.
Qed.

Section fields.
Context (c : civil) (z : zone) (Hc : valid_civil c) (Hy : year c < 2100) (Hz : valid_zone z).
Let s := gen_bytes c z.

Lemma field_year : get_num (drop GENYR s) GENYRSIZ = year c.
Proof using Hc Hy.
  subst s. unfold gen_bytes, GENYR. rewrite drop_0. apply get_num_put; [vm_compute; lia|].
  destruct Hc. split; [lia|]. change (10 ^ Z.of_nat GENYRSIZ) with 10000. lia.
Qed.

Lemma month_length_bound l m : month_length l m <= 31.
Proof. unfold month_length. repeat case_match; lia. Qed.

Lemma field_date :
  get_num (drop GENMO s) GENMOSIZ = month c /\ get_num (drop GENDA s) GENDASIZ = day c /\
  get_num (drop GENHR s) GENHRSIZ = hour c /\ get_num (drop GENMI s) GENMISIZ = minute c /\
  get_num (drop GENSE s) GENSESIZ = second c.
Proof using Hc.
  subst s. destruct Hc as (_ & Hm & Hd & Hh & Hmi & Hs).
  pose proof (month_length_bound (is_leap (year c)) (month c)).
  split_and!; at_field; apply get_num_2; lia.
Qed.

Lemma digits_before_zone : digits_end s (length s) = (GENSE + GENSESIZ)%nat.
Proof.
  subst s. destruct (zone_first z) as (x & rest & Ez & Hx & _).
  unfold gen_bytes. rewrite Ez, (app_assoc (put_num (year c) 4)), digits_end_app; [| |done|].
  - unfold date_bytes. by rewrite !length_app, !length_put_num.
  - unfold date_bytes. rewrite !Forall_app. split_and!; apply put_num_digits.
  - rewrite !length_app. simpl. lia.
Qed.

Lemma length_gen_bytes : length s = (GENSE + GENSESIZ + length (zone_bytes z))%nat.
Proof. subst s. unfold gen_bytes, date_bytes. rewrite !length_app, !length_put_num. done. Qed.

Lemma drop_zone k : drop (GENSE + GENSESIZ + k) s = drop k (zone_bytes z).
Proof.
  subst s. unfold gen_bytes, date_bytes. rewrite <- ?app_assoc.
  repeat (erewrite drop_piece; [| apply length_put_num | vm_compute; lia]).
  f_equal. unfold GENSE, GENSESIZ. lia.
Qed.

Lemma nth_zone : nth (GENSE + GENSESIZ) s 0 = hd 0 (zone_bytes z).
Proof.
  pose proof (drop_zone 0) as E. rewrite Nat.add_0_r, drop_0 in E.
  assert (H : forall k (l : list Z), nth k l 0 = hd 0 (drop k l)).
  { clear. induction k as [|k IH]; intros [|x l]; simpl; auto. }
  by rewrite H, E.
Qed.

Lemma suffix_zone : suffix_seconds s (GENSE + GENSESIZ) = Some (60 * zone_minutes z).
Proof using Hz.
  unfold suffix_seconds. rewrite nth_zone, !drop_zone. cbv zeta.
  destruct z as [|h m|h m]; [done| |]; destruct Hz as (Hh & Hm & Hb); cbn [zone_minutes] in *.
  all: replace (get_num (drop GENSFXHR _) GENHRSIZ) with h by (symmetry; apply get_num_2; lia).
  all: replace (get_num (drop GENSFXMI _) GENMISIZ) with m
    by (symmetry; apply (get_num_2 m []); lia).
  all: cbn [zone_bytes hd app]; unfold ch_plus, ch_minus, HIXTRA, LOXTRA;
    cbn [Z.eqb Pos.eqb orb].
  all: destruct (Z.ltb_spec 23 h), (Z.ltb_spec h 0), (Z.ltb_spec 59 m), (Z.ltb_spec m 0);
    try lia; cbn [orb].
  all: repeat (match goal with |- context [?a <? ?b] => destruct (Z.ltb_spec a b) end; [lia|]).
  all: done.
Qed.

End fields.

Lemma civil_day_nonneg y m d : 1970 <= y < 2100 -> 1 <= m <= 12 -> 1 <= d -> 0 <= civil_day y m d.
Proof.
  intros Hy Hm Hd. unfold civil_day. rewrite days_of_years_closed, days_of_months_mos by lia.
  assert (0 <= mos (m - 1)) by (pattern m; apply month_cases; [done|]; repeat constructor; done).
  case_match; dlia.
Qed.

Lemma civil_day_first y m d : civil_day y m d = civil_day y m 1 + (d - 1).
Proof. unfold civil_day. lia. Qed.

(** The suffix passes the test at the start of [_gentime_to_ulong]. *)
Lemma gentime_format c z :
  let s := gen_bytes c z in
  let b := digits_end s (length s) in
  let x := nth b s 0 in
  (b <? length s)%nat &&
     ((b <? GENSE)%nat || negb (zin x [ch_Z; ch_plus; ch_minus]) ||
      ((x =? ch_Z) && negb (length s =? b + GENSFXHR)%nat) ||
      ((x <? ch_0) && negb (length s =? b + (GENSFXMI + GENMISIZ))%nat)) = false.
Proof.
  cbv zeta. rewrite digits_before_zone, nth_zone, length_gen_bytes.
  destruct z as [|h m|h m]; cbn [zone_bytes hd app length];
    rewrite ?length_app, ?length_put_num; reflexivity.
Qed.

Definition gentime_value (c : civil) (z : zone) : option Z :=
  if decide (late_leap_day c) then None else Some (epoch_seconds c - 60 * zone_minutes z).

(** The day is in its month for the code unless it is a leap day from 2070 on. *)
Lemma modays_late c :
  valid_civil c -> year c < 2100 ->
  (gentime_modays (year c - 1970) (month c) <? day c) = bool_decide (late_leap_day c).
Proof.
  intros (Hy0 & Hm & Hd & _) Hy. rewrite gentime_modays_civil by lia.
  unfold late_leap_day, month_length in *.
  destruct (Z.eqb_spec (month c) 2) as [E|E].
  - destruct (is_leap (year c)), (Z.leb_spec 2070 (year c)); cbn [andb];
      case_bool_decide; match goal with |- context [?a <? ?b] => destruct (Z.ltb_spec a b) end;
      lia || done.
  - rewrite andb_false_r, bool_decide_eq_false_2 by naive_solver.
    apply Z.ltb_ge. destruct (zin _ _); lia.
Qed.

Lemma gentime_read c z :
  valid_civil c -> year c < 2100 -> valid_zone z -> 0 <= epoch_seconds c - 60 * zone_minutes z ->
  _gentime_to_ulong (gen_bytes c z) (length (gen_bytes c z)) = gentime_value c z.
Proof.
  intros Hc Hy Hz Hpos. unfold _gentime_to_ulong. cbv zeta.
  rewrite gentime_format. rewrite digits_before_zone, suffix_zone by done.
  destruct (field_date c z Hc) as (-> & -> & -> & -> & ->). rewrite field_year by done.
  pose proof Hc as (Hy0 & Hm & Hd & Hh & Hmi & Hs). unfold GENBASE, gentime_value.
  rewrite modays_late, gentime_days_civil by (done || lia).
  pose proof (civil_day_nonneg (year c) (month c) 1 ltac:(lia) Hm ltac:(lia)).
  assert (Hlen : (15 <= length (gen_bytes c z))%nat).
  { rewrite length_gen_bytes. destruct (zone_first z) as (? & ? & -> & _). simpl. lia. }
  unfold GENSE, GENSESIZ, GENHR, GENMI; cbn [Nat.add Nat.leb].
  unfold epoch_seconds in *. rewrite (civil_day_first _ _ (day c)) in *.
  set (D := civil_day (year c) (month c) 1) in *. cbn [mbind option_bind].
  repeat match goal with
  | |- context [if (?a <? ?b) || (?d <? ?e) then _ else _] =>
      destruct (Z.ltb_spec a b); [lia|]; destruct (Z.ltb_spec d e); [lia|]; cbn [orb]
  | |- context [if ?a <? ?b then _ else _] => destruct (Z.ltb_spec a b); [lia|]
  | |- context [(?a <? ?b) || bool_decide _] => destruct (Z.ltb_spec a b); [lia|]; cbn [orb]
  | |- context [(?a <=? ?b)%nat] => destruct (Nat.leb_spec a b); [lia|]
  end.
  case_bool_decide as Hl; destruct (decide _); try done. f_equal. lia.
Qed.

(** Two digits each: a date in form, which need not be in the calendar. *)
Definition digits_fit (c : civil) : Prop :=
  1970 <= year c < 2100 /\ 0 <= month c < 100 /\ 0 <= day c < 100 /\
  0 <= hour c < 100 /\ 0 <= minute c < 100 /\ 0 <= second c < 100.

Lemma field_digits c z : digits_fit c -> let s := gen_bytes c z in
  get_num (drop GENYR s) GENYRSIZ = year c /\
  get_num (drop GENMO s) GENMOSIZ = month c /\ get_num (drop GENDA s) GENDASIZ = day c /\
  get_num (drop GENHR s) GENHRSIZ = hour c /\ get_num (drop GENMI s) GENMISIZ = minute c /\
  get_num (drop GENSE s) GENSESIZ = second c.
Proof.
  intros (Hy & Hm & Hd & Hh & Hmi & Hs) s. subst s. split_and!.
  { unfold gen_bytes, GENYR. rewrite drop_0. apply get_num_put; [vm_compute; lia|].
    change (10 ^ Z.of_nat GENYRSIZ) with 10000. lia. }
  all: at_field; apply get_num_2; lia.
Qed.

(** What is read is a date of the calendar. *)
Lemma gentime_read_valid c z v : digits_fit c -> valid_zone z ->
  _gentime_to_ulong (gen_bytes c z) (length (gen_bytes c z)) = Some v -> valid_civil c.
Proof.
  intros Hf Hz. destruct (field_digits c z Hf) as (Ey & Emo & Eda & Eh & Emi & Es).
  destruct Hf as (Hy & Hm & Hd & Hh & Hmi & Hs). unfold _gentime_to_ulong. cbv zeta.
  rewrite gentime_format. rewrite digits_before_zone, suffix_zone by done. rewrite Ey, Emo, Eda, Eh, Emi, Es.
  unfold GENBASE. destruct (_ <? 0); [done|].
  destruct (Z.ltb_spec (month c) 1), (Z.ltb_spec 12 (month c)); cbn [orb]; try done.
  rewrite gentime_modays_civil by lia. destruct (_ <? 0); [done|].
  destruct (Z.ltb_spec (day c) 1); [done|]. cbn [orb]. destruct (Z.ltb_spec (month_length (is_leap (year c)) (month c) -
    (if (2070 <=? year c) && is_leap (year c) && (month c =? 2) then 1 else 0)) (day c)) as [|Hday]; [done|].
  destruct (_ <=? GENHR)%nat; [done|].
  destruct (Z.ltb_spec 23 (hour c)); [done|]. destruct (Z.ltb_spec (hour c) 0); [done|]. cbn [orb].
  destruct (_ <? 0); [done|]. destruct (_ <=? GENMI)%nat; [done|].
  destruct (Z.ltb_spec 59 (minute c)); [done|]. destruct (Z.ltb_spec (minute c) 0); [done|]. cbn [orb].
  unfold GENSE, GENSESIZ; cbn [Nat.add Nat.leb].
  destruct (Z.ltb_spec 59 (second c)); [done|]. destruct (Z.ltb_spec (second c) 0); [done|]. intros _.
  unfold valid_civil. destruct ((2070 <=? year c) && is_leap (year c) && (month c =? 2)); lia.
Qed.

(** ** Writing *)

(** The month and day the code finds, for every day of a year. *)
Definition month_day_ok (leap : bool) (da : Z) : bool :=
  match month_day da leap with
  | Some (m, d) =>
      (1 <=? m) && (m <=? 12) && (1 <=? d) && (d <=? month_length leap m) &&
      (days_of_months leap (Z.to_nat (m - 1)) + (d - 1) =? da)
  | None => false
  end.

Lemma month_day_table (leap : bool) (n : nat) :
  (n < (if leap then 366 else 365))%nat -> month_day_ok leap (Z.of_nat n) = true.
Proof.
  intros Hn.
  assert (H : forallb (fun n => month_day_ok leap (Z.of_nat n)) (seq 0 (if leap then 366 else 365)) = true)
    by (destruct leap; vm_compute; reflexivity).
  rewrite forallb_forall in H. apply H, in_seq. lia.
Qed.

Lemma month_day_spec (leap : bool) da :
  0 <= da < (if leap then 366 else 365) ->
  exists m d, month_day da leap = Some (m, d) /\ 1 <= m <= 12 /\ 1 <= d <= month_length leap m /\
    days_of_months leap (Z.to_nat (m - 1)) + (d - 1) = da.
Proof.
  intros Hda. pose proof (month_day_table leap (Z.to_nat da)) as H.
  rewrite Z2Nat.id in H by lia. unfold month_day_ok in H.
  destruct (month_day da leap) as [[m d]|].
  - exists m, d. lapply H; [|destruct leap; lia]. intros E. bprop. split; [done|]. lia.
  - lapply H; [done | destruct leap; lia].
Qed.

(** The year the code finds: its first day and its leap day. *)
Lemma year_day_spec n :
  0 <= n < 47482 ->
  exists k da, year_day n = (k, da) /\ 0 <= k < 130 /\
    0 <= da < (if is_leap (1970 + k) then 366 else 365) /\
    days_of_years (Z.to_nat k) + da = n /\ (Z.rem k 4 =? UTCBASE mod 4) = is_leap (1970 + k).
Proof.
  intros Hn. unfold year_day. change ((UTCBASE - 1) mod 4) with 1. change (UTCBASE mod 4) with 2.
  rewrite Z.rem_mod_nonneg, Z.quot_div_nonneg by lia.
  set (N := n + 1 * 365). pose proof (Z.mod_pos_bound N 1461 ltac:(lia)).
  rewrite Z.rem_mod_nonneg, Z.quot_div_nonneg by lia.
  set (k := N / 1461 * 4 + (if N mod 1461 =? 1460 then 3 else N mod 1461 / 365) - 1).
  set (da := if N mod 1461 =? 1460 then 365 else (N mod 1461) mod 365). exists k, da.
  assert (Hk : 0 <= k < 130 /\ 365 * k + (k + 1) / 4 + da = n /\
               0 <= da < (if (1970 + k) mod 4 =? 0 then 366 else 365)).
  { subst k da N. destruct (Z.eqb_spec ((n + 1 * 365) mod 1461) 1460);
      match goal with |- context [?a =? ?b] => destruct (Z.eqb_spec a b) end; dlia. }
  rewrite days_of_years_closed, is_leap_mod4, Z.rem_mod_nonneg, Z2Nat.id by lia.
  split_and!; try done; try lia.
  destruct (Z.eqb_spec (k mod 4) 2), (Z.eqb_spec ((1970 + k) mod 4) 0); dlia.
Qed.

Lemma ulong_id x : 0 <= x < 2 ^ 64 -> ulong x = x.
Proof. apply wrap_small. Qed.

(** The year's four digits are the century and what the code prints of
    [years_since_base + 70]. *)
Lemma put_year k :
  0 <= k < 130 ->
  put_num (1970 + k) 4 =
    (if 30 <=? k then [50; 48] else [49; 57]) ++ put_num (k + UTCBASE) 2 /\
  put_num (1970 + k) 2 = put_num (k + UTCBASE) 2.
Proof.
  intros Hk. unfold UTCBASE, ch_0. cbn [put_num app].
  assert ((1970 + k) mod 10 = (k + 70) mod 10) as -> by dlia.
  assert (((1970 + k) / 10) mod 10 = ((k + 70) / 10) mod 10) as -> by dlia.
  destruct (Z.leb_spec 30 k).
  - assert ((1970 + k) / 10 / 10 = 20) as -> by dlia. done.
  - assert ((1970 + k) / 10 / 10 = 19) as -> by dlia. done.
Qed.

(** The calendar date of a day number. *)
Lemma civil_exists t :
  0 <= t < 4102444800 ->
  exists c da, valid_civil c /\ year c < 2100 /\ epoch_seconds c = t /\
    Z.rem t 60 = second c /\ Z.rem (Z.quot t 60) 60 = minute c /\
    Z.rem (Z.quot (Z.quot t 60) 60) 24 = hour c /\
    year_day (Z.quot (Z.quot (Z.quot t 60) 60) 24) = (year c - 1970, da) /\
    month_day da (Z.rem (year c - 1970) 4 =? UTCBASE mod 4) = Some (month c, day c).
Proof.
  intros Ht.
  rewrite !Z.quot_div_nonneg, !Z.rem_mod_nonneg by dlia.
  destruct (year_day_spec (t / 60 / 60 / 24) ltac:(dlia)) as (k & da & Ek & Hk & Hda & En & El).
  destruct (month_day_spec (is_leap (1970 + k)) da Hda) as (m & d & Em & Hm & Hd & Ed).
  exists (mkCivil (1970 + k) m d (t / 60 / 60 mod 24) (t / 60 mod 60) (t mod 60)), da.
  unfold valid_civil, epoch_seconds, civil_day; cbn [year month day hour minute second].
  replace (1970 + k - 1970) with k by lia. rewrite El.
  split_and!; try done; try dlia.
Qed.

Lemma write_casn_time_civil t c da :
  valid_civil c -> year c < 2100 ->
  Z.rem t 60 = second c -> Z.rem (Z.quot t 60) 60 = minute c ->
  Z.rem (Z.quot (Z.quot t 60) 60) 24 = hour c ->
  year_day (Z.quot (Z.quot (Z.quot t 60) 60) 24) = (year c - 1970, da) ->
  month_day da (Z.rem (year c - 1970) 4 =? UTCBASE mod 4) = Some (month c, day c) ->
  write_casn_time ASN_GENTIME t = WOk (gen_bytes c Zulu) /\
  write_casn_time ASN_UTCTIME t =
    (if year c <? 2050 then WOk (utc_bytes c Zulu) else WFail).
Proof.
  intros (Hy0 & Hm & Hd & Hh & Hmi & Hs) Hy Es Emi Eh Ey Em.
  pose proof (month_length_bound (is_leap (year c)) (month c)).
  destruct (put_year (year c - 1970) ltac:(lia)) as [E4 E2].
  replace (1970 + (year c - 1970)) with (year c) in E4, E2 by lia.
  unfold write_casn_time. rewrite Es, Emi, Eh, Ey, Em. cbv zeta beta iota.
  rewrite !ulong_id by (unfold UTCBASE; lia).
  unfold gen_bytes, utc_bytes, date_bytes. rewrite E4, E2.
  split.
  - destruct (30 <=? year c - 1970); [|reflexivity].
    destruct (Z.ltb_spec (year c - 1970) 130); [reflexivity|lia].
  - destruct (Z.leb_spec (2050 - 1970) (year c - 1970)), (Z.ltb_spec (year c) 2050);
      try lia; reflexivity.
Qed.

(** ** Claims *)

Lemma utc_century c z :
  1970 <= year c < 2050 ->
  (if ch_5 <=? hd 0 (utc_bytes c z) then [49; 57] else [50; 48]) ++ utc_bytes c z = gen_bytes c z.
Proof.
  intros Hy. destruct (put_year (year c - 1970) ltac:(lia)) as [E4 E2].
  replace (1970 + (year c - 1970)) with (year c) in E4, E2 by lia.
  unfold gen_bytes. rewrite E4, <- E2, <- app_assoc.
  cut ((ch_5 <=? hd 0 (utc_bytes c z)) = negb (30 <=? year c - 1970)).
  { intros ->. destruct (30 <=? _); done. }
  unfold utc_bytes. cbn [put_num app hd]. unfold ch_5, ch_0.
  destruct (Z.leb_spec 30 (year c - 1970)); cbn [negb]; [apply Z.leb_gt | apply Z.leb_le]; dlia.
Qed.

Lemma length_gen_bound c z : (length (gen_bytes c z) <= 19)%nat.
Proof.
  rewrite length_gen_bytes. destruct (zone_first z) as (x & r & -> & _ & _ & H1 & H2). simpl.
  destruct (decide (x = ch_Z)) as [E|E]; [rewrite (H1 E) | rewrite (proj2 (H2 E))]; simpl; lia.
Qed.

Section read.
Context (c : civil) (z : zone) (Hc : valid_civil c) (Hy : year c < 2100) (Hz : valid_zone z)
  (Hpos : 60 * zone_minutes z <= epoch_seconds c).

Lemma read_gen :
  read_casn_time {| time_ty := ASN_GENTIME; time_content := gen_bytes c z |} = gentime_value c z.
Proof using All.
  unfold read_casn_time; cbn [time_ty time_content]. pose proof (length_gen_bound c z).
  destruct (Nat.ltb_spec 32 (length (gen_bytes c z) + 1)); [lia|]. apply gentime_read; done || lia.
Qed.

Lemma read_utc :
  year c < 2050 ->
  read_casn_time {| time_ty := ASN_UTCTIME; time_content := utc_bytes c z |} =
    Some (epoch_seconds c - 60 * zone_minutes z).
Proof using All.
  intros H50. unfold read_casn_time; cbn [time_ty time_content].
  pose proof (utc_century c z ltac:(destruct Hc; lia)) as E. rewrite E.
  assert (length (utc_bytes c z) + 2 = length (gen_bytes c z))%nat as ->.
  { rewrite <- E, length_app. case_match; simpl; lia. }
  pose proof (length_gen_bound c z).
  destruct (Nat.ltb_spec 32 (length (gen_bytes c z) + 1)); [lia|].
  rewrite gentime_read by (done || lia). unfold gentime_value.
  destruct (decide _) as [[? _]|]; [lia|done].
Qed.
End read.

(** A date in form with [Z] is read just if it is in the calendar and no leap day
    from 2072 on. *)
Lemma read_form c f : digits_fit c ->
  (f = {| time_ty := ASN_GENTIME; time_content := gen_bytes c Zulu |} \/
   f = {| time_ty := ASN_UTCTIME; time_content := utc_bytes c Zulu |} /\ year c < 2050) ->
  forall v, read_casn_time f = Some v <-> valid_civil c /\ ~ late_leap_day c /\ v = epoch_seconds c.
Proof.
  intros Hf Hform v. assert (Hy : year c < 2100) by apply Hf.
  assert (Hpos : valid_civil c -> 60 * zone_minutes Zulu <= epoch_seconds c).
  { intros (Hy0 & Hm & Hd & Hh & Hmi & Hs). pose proof (civil_day_nonneg (year c) (month c) (day c)).
    unfold epoch_seconds. cbn [zone_minutes]. lia. }
  assert (Hval : valid_civil c -> read_casn_time f = if decide (late_leap_day c) then None else Some (epoch_seconds c)).
  { intros Hc. destruct Hform as [->|[-> H50]]; [rewrite (read_gen c Zulu Hc Hy I (Hpos Hc))|rewrite (read_utc c Zulu Hc Hy I (Hpos Hc) H50)].
    - unfold gentime_value. cbn [zone_minutes]. destruct (decide _); [done|]. f_equal. lia.
    - destruct (decide _) as [[? _]|]; [lia|]. cbn [zone_minutes]. f_equal. lia. }
  split.
  - intros Hr. assert (Hc : valid_civil c).
    { destruct Hform as [->|[-> H50]]; unfold read_casn_time in Hr; cbn [time_ty time_content] in Hr.
      - destruct (_ <? _)%nat; [done|]. by eapply (gentime_read_valid c Zulu).
      - pose proof (utc_century c Zulu ltac:(destruct Hf; lia)) as E. rewrite E in Hr.
        assert (length (utc_bytes c Zulu) + 2 = length (gen_bytes c Zulu))%nat as El.
        { rewrite <- E, length_app. case_match; simpl; lia. }
        rewrite El in Hr. destruct (_ <? _)%nat; [done|]. by eapply (gentime_read_valid c Zulu). }
    rewrite (Hval Hc) in Hr. destruct (decide (late_leap_day c)); [done|]. split; [done|]. split; [done|congruence].
  - intros (Hc & Hl & ->). rewrite (Hval Hc). by destruct (decide (late_leap_day c)).
Qed.

(** C35: reading a time is the calendar: a GeneralizedTime of any date from 1970
    to 2099, with any legal zone, gives the seconds since 1970 (and is refused
    on a leap day from 2072 on), and so does a UTCTime up to 2049. *)
Theorem read_casn_time_spec c z :
  valid_civil c -> year c < 2100 -> valid_zone z -> 60 * zone_minutes z <= epoch_seconds c ->
  read_casn_time {| time_ty := ASN_GENTIME; time_content := gen_bytes c z |} =
    (if decide (late_leap_day c) then None else Some (epoch_seconds c - 60 * zone_minutes z)) /\
  (year c < 2050 ->
   read_casn_time {| time_ty := ASN_UTCTIME; time_content := utc_bytes c z |} =
     Some (epoch_seconds c - 60 * zone_minutes z)).
Proof.
  intros Hc Hy Hz Hpos. split; [by apply read_gen | by apply read_utc].
Qed.

Lemma read_casn_time_spec_witness :
  read_casn_time {| time_ty := ASN_GENTIME;
                    time_content := gen_bytes (mkCivil 2016 2 29 23 59 58) (West 5 30) |}
  = Some 1456810198.
Proof.
  rewrite (proj1 (read_casn_time_spec (mkCivil 2016 2 29 23 59 58) (West 5 30)
    ltac:(vm_compute; intuition congruence) ltac:(reflexivity)
    ltac:(vm_compute; intuition congruence) ltac:(vm_compute; congruence))).
  vm_compute. reflexivity.
Defined.

(** C39: Every time before 2100 is written as the date it falls on, as a
    GeneralizedTime and, before 2050, as a UTCTime (later ones are refused); both
    read back as the same time, but a GeneralizedTime on a leap day from 2072 on
    is refused. *)
Theorem casn_time_roundtrip t :
  0 <= t < 4102444800 ->
  exists c, valid_civil c /\ year c < 2100 /\ epoch_seconds c = t /\
    write_casn_time ASN_GENTIME t = WOk (gen_bytes c Zulu) /\
    read_casn_time {| time_ty := ASN_GENTIME; time_content := gen_bytes c Zulu |} =
      (if decide (late_leap_day c) then None else Some t) /\
    (if year c <? 2050 then
       write_casn_time ASN_UTCTIME t = WOk (utc_bytes c Zulu) /\
       read_casn_time {| time_ty := ASN_UTCTIME; time_content := utc_bytes c Zulu |} = Some t
     else write_casn_time ASN_UTCTIME t = WFail).
Proof.
  intros Ht. destruct (civil_exists t Ht) as (c & da & Hc & Hy & <- & Hs & Hmi & Hh & Hyd & Hmd).
  destruct (write_casn_time_civil _ c da Hc Hy Hs Hmi Hh Hyd Hmd) as [Eg Eu].
  assert (Hz : 60 * zone_minutes Zulu <= epoch_seconds c) by (simpl; lia).
  exists c. rewrite Eg, Eu, (read_gen c Zulu) by done. unfold gentime_value.
  replace (epoch_seconds c - 60 * zone_minutes Zulu) with (epoch_seconds c) by (simpl; lia).
  split_and!; try done.
  destruct (Z.ltb_spec (year c) 2050); [|done]. split; [done|].
  rewrite (read_utc c Zulu) by done. f_equal. simpl. lia.
Qed.

Lemma casn_time_roundtrip_witness :
  exists c, valid_civil c /\ epoch_seconds c = 1456790398 /\
    write_casn_time ASN_GENTIME 1456790398 = WOk (gen_bytes c Zulu).
Proof.
  destruct (casn_time_roundtrip 1456790398 ltac:(lia)) as (c & Hc & _ & Ht & Hw & _).
  exists c. auto.
Defined.

(** Two dates for which the code and the calendar differ: 29 February 2072 is
    written but not read, and from March 2100 on times are a day late. *)
Example leap_day_2072 :
  let c := mkCivil 2072 2 29 0 0 0 in
  valid_civil c /\ write_casn_time ASN_GENTIME (epoch_seconds c) = WOk (gen_bytes c Zulu) /\
  read_casn_time {| time_ty := ASN_GENTIME; time_content := gen_bytes c Zulu |} = None.
Proof. split_and!; vm_compute; intuition congruence. Qed.

Example march_2100 :
  let c := mkCivil 2100 3 1 0 0 0 in
  valid_civil c /\
  read_casn_time {| time_ty := ASN_GENTIME; time_content := gen_bytes c Zulu |} =
    Some (epoch_seconds c + 86400).
Proof. split_and!; vm_compute; intuition congruence. Qed.
