(* ===== verification/CasnNum.v ===== *)
(** * ASN.1 integers ([src/lib/casn/casn_num.c])

    An INTEGER, ENUMERATED or BOOLEAN object is its content bytes, if it is
    filled, with the flags that the code tests. Reading and writing go through
    C's [long] and [intmax_t], both 64 bits wide. *)

From S2P Require Import Prelude.

(** Two's complement, 64 bits. *)
Definition s64 (x : Z) : Z := (x + 2 ^ 63) mod 2 ^ 64 - 2 ^ 63.

(** ** Data *)

Inductive num_type := ASN_INTEGER | ASN_ENUMERATED | ASN_BOOLEAN.

Record casn_num := {
  num_ty : num_type;
  num_optional : bool;
  num_default : bool;
  num_content : option (list Z) }.

Definition is_integer (ty : num_type) : bool :=
  match ty with ASN_INTEGER => true | _ => false end.
Definition is_boolean (ty : num_type) : bool :=
  match ty with ASN_BOOLEAN => true | _ => false end.

(** ** Reading *)

(** [for (...; *valp = ( *valp << 8) + *c++)] *)
Fixpoint num_loop (c : list Z) (val : Z) : Z :=
  match c with
  | [] => val
  | x :: c => num_loop c (s64 (Z.shiftl val 8 + x))
  end.

(** The return value, and [*valp] unless it is left alone. *)
Definition read_casn_num_max (casnp : casn_num) : Z * option Z :=
  match num_content casnp with
  | None =>
      if num_default casnp then
        if is_boolean (num_ty casnp) then (1, Some 0) else (0, Some 0)
      else if num_optional casnp then (0, None) else (-1, None)
  | Some startp =>
      if 8 <? Z.of_nat (length startp) then (-1, None)
      else match startp with
      | [] => (-1, None)
      | x :: _ =>
          let val := if negb (Z.land x 0x80 =? 0) && is_integer (num_ty casnp) then -1 else 0 in
          (Z.of_nat (length startp), Some (num_loop startp val))
      end
  end.

(** [*valp] is assigned also when the read fails, from a variable without a
    value ([None]). *)
Definition read_casn_num (casnp : casn_num) : Z * option Z :=
  let '(ret, tmp) := read_casn_num_max casnp in
  if 8 <? ret then (-1, tmp) else (ret, tmp).

(** [None]: the comparison uses a variable without a value (an OPTIONAL
    integer that is absent). *)
Definition diff_casn_num (casnp : casn_num) (val : Z) : option Z :=
  let '(ret, tmp) := read_casn_num casnp in
  if ret <? 0 then Some (-2)
  else
    tmp ← tmp;
    Some (if val <? tmp then 1 else if tmp <? val then -1 else 0).

(** ** Writing *)

(** Bytes needed for [tmp]: [for (siz = 1; tmp > 0x7F; siz++, tmp >>= 8)] or
    the same with [tmp < -128]. A [long] needs at most eight. *)
Fixpoint siz_loop (fuel : nat) (tmp : Z) (siz : nat) : nat :=
  match fuel with
  | O => siz
  | S fuel =>
      if (if 0 <? tmp then 0x7F <? tmp else tmp <? -128)
      then siz_loop fuel (Z.shiftr tmp 8) (S siz) else siz
  end.

(** The loop that fills the bytes from the back; [n] bytes are left before
    [c]. It returns the bytes before [c] and the rest of [val]; [None] when it
    writes in front of the array. *)
Fixpoint fill_loop (n : nat) (val : Z) : option (list Z * Z) :=
  if (val =? 0) || (val =? -1) then Some (replicate n 0, val)
  else match n with
       | O => None
       | S n =>
           '(l, r) ← fill_loop n (Z.shiftr val 8);
           Some (l ++ [Z.land val 0xFF], r)
       end.

(** The content that is written. *)
Definition _write_casn_num (val : Z) : option (list Z) :=
  let siz := siz_loop 8 val 1 in
  '(startp, rest) ← fill_loop siz val;
  Some (match startp with
        | x :: l => if (rest <? 0) && (x =? 0) then 0xFF :: l else startp
        | [] => startp
        end).

(** What decoding refuses in an INTEGER's content ([_write_casn] in [casn.c]):
    nine equal leading bits. *)
Definition int_coding_err (c : list Z) : bool :=
  match c with
  | x :: y :: _ =>
      ((x =? 0) && (Z.land y 0x80 =? 0)) || ((x =? 0xFF) && negb (Z.land y 0x80 =? 0))
  | _ => false
  end.

(** ** Lemmas *)

Lemma s64_small x : - 2 ^ 63 <= x < 2 ^ 63 -> s64 x = x.
Proof. intros H. unfold s64. rewrite Z.mod_small; lia. Qed.

Lemma s64_mod x : s64 x mod 2 ^ 64 = x mod 2 ^ 64.
Proof.
  unfold s64. rewrite Zminus_mod, Zmod_mod, <- Zminus_mod. f_equal. lia.
Qed.

Lemma s64_bound x : - 2 ^ 63 <= s64 x < 2 ^ 63.
Proof.
  unfold s64. pose proof (Z.mod_pos_bound (x + 2 ^ 63) (2 ^ 64) ltac:(lia)). lia.
Qed.

Lemma num_loop_mod c v :
  num_loop c v mod 2 ^ 64 = (v * 256 ^ Z.of_nat (length c) + be_val c) mod 2 ^ 64.
Proof.
  revert v. induction c as [|x c IH]; intros v; cbn [num_loop length].
  - cbn. f_equal. lia.
  - rewrite IH, be_val_cons, pow256_S, Z.shiftl_mul_pow2 by lia. change (2 ^ 8) with 256.
    rewrite Zplus_mod, Zmult_mod, s64_mod, <- Zmult_mod, <- Zplus_mod. f_equal. lia.
Qed.

Lemma num_loop_bound c v :
  - 2 ^ 63 <= v < 2 ^ 63 -> - 2 ^ 63 <= num_loop c v < 2 ^ 63.
Proof.
  revert v. induction c as [|x c IH]; intros v Hv; cbn [num_loop]; [done|].
  apply IH, s64_bound.
Qed.

(** Reading shifts the bytes into the sign. *)
Lemma num_loop_val c v :
  - 2 ^ 63 <= v < 2 ^ 63 ->
  - 2 ^ 63 <= v * 256 ^ Z.of_nat (length c) + be_val c < 2 ^ 63 ->
  num_loop c v = v * 256 ^ Z.of_nat (length c) + be_val c.
Proof.
  intros Hv Hr. pose proof (num_loop_bound c v Hv) as Hb. pose proof (num_loop_mod c v) as Hm.
  set (r := v * _ + _) in *. set (n := num_loop c v) in *.
  assert ((n - r) mod 2 ^ 64 = 0) as E by (by rewrite Zminus_mod, Hm, Z.sub_diag).
  apply Z.mod_divide in E as [k Hk]; lia.
Qed.

(** The range of [n] bytes. *)
Definition fits (n : nat) (v : Z) : Prop :=
  - 256 ^ Z.of_nat n <= 2 * v < 256 ^ Z.of_nat n.

Lemma shiftr8 v : Z.shiftr v 8 = v / 256.
Proof. rewrite Z.shiftr_div_pow2 by lia. done. Qed.

Lemma land_ff v : Z.land v 0xFF = v mod 256.
Proof. change 0xFF with (Z.ones 8). rewrite Z.land_ones by lia. done. Qed.

Lemma fits_shift n v : (1 <= n)%nat -> fits (S n) v <-> fits n (v / 256).
Proof.
  intros Hn. unfold fits. destruct n as [|n]; [lia|].
  rewrite (pow256_S (S n)), pow256_S.
  assert (0 < 256 ^ Z.of_nat n) by (apply Z.pow_pos_nonneg; lia).
  pose proof (Z.div_mod v 256). pose proof (Z.mod_pos_bound v 256). lia.
Qed.

Lemma fits_1 v : fits 1 v <-> -128 <= v <= 127.
Proof. unfold fits. change (256 ^ Z.of_nat 1) with 256. lia. Qed.

(** The size is the least that fits. *)
Definition minimal (n : nat) (v : Z) : Prop := fits n v /\ ((2 <= n)%nat -> ~ fits (n - 1) v).

Lemma siz_loop_spec fuel v siz k :
  (1 <= k <= fuel)%nat -> fits k v ->
  exists n, (1 <= n <= k)%nat /\ siz_loop fuel v siz = (siz + (n - 1))%nat /\ minimal n v.
Proof.
  revert v siz k. induction fuel as [|fuel IH]; intros v siz k Hk Hf; [lia|]. cbn [siz_loop].
  destruct (decide (fits 1 v)) as [H1|H1].
  - exists 1%nat. rewrite fits_1 in H1. split; [lia|]. split.
    + destruct (0 <? v); destruct (Z.ltb_spec 0x7F v), (Z.ltb_spec v (-128)); lia.
    + split; [by apply fits_1 | lia].
  - assert (k <> 1%nat) by (by intros ->). destruct k as [|k]; [lia|].
    rewrite fits_shift in Hf by lia. rewrite shiftr8.
    destruct (IH (v / 256) (S siz) k ltac:(lia) Hf) as (n & Hn & E & Hm & Hmin).
    exists (S n). split; [lia|]. split.
    + rewrite fits_1 in H1. rewrite E.
      destruct (Z.ltb_spec 0 v), (Z.ltb_spec 0x7F v), (Z.ltb_spec v (-128)); lia.
    + split; [apply fits_shift; [lia|done]|]. intros _. simpl. rewrite Nat.sub_0_r.
      destruct (decide (n = 1%nat)) as [->|]; [done|].
      replace n with (S (n - 1)) by lia. rewrite fits_shift by lia. apply Hmin. lia.
Qed.

(** The bytes of a number that is not negative. *)
Lemma fill_loop_pos n v :
  0 <= v < 256 ^ Z.of_nat n ->
  exists l, fill_loop n v = Some (l, 0) /\ length l = n /\ bytes_ok l /\ be_val l = v.
Proof.
  revert v. induction n as [|n IH]; intros v Hv; cbn [fill_loop].
  - change (256 ^ Z.of_nat 0) with 1 in Hv. assert (v = 0) as -> by lia.
    exists []. split_and!; [done|done|constructor|done].
  - destruct (Z.eqb_spec v 0) as [->|Hv0]; cbn [orb].
    + exists (replicate (S n) 0). split_and!; [done|apply length_replicate| |].
      * apply Forall_replicate. split; [lia|done].
      * generalize (S n). clear. induction n as [|n IH]; [done|].
        rewrite replicate_S, be_val_cons. lia.
    + destruct (Z.eqb_spec v (-1)); [lia|]. rewrite shiftr8, land_ff.
      rewrite pow256_S in Hv.
      destruct (IH (v / 256)) as (l & E & Hl & Hok & Hval).
      { split; [apply Z.div_pos | apply Z.div_lt_upper_bound]; lia. }
      rewrite E. cbn [mbind option_bind]. exists (l ++ [v mod 256]). split_and!; [done| | |].
      * rewrite length_app, Hl. simpl. lia.
      * apply bytes_ok_app. split; [done|]. repeat constructor; apply Z.mod_pos_bound; lia.
      * rewrite be_val_snoc, Hval. pose proof (Z.div_mod v 256). lia.
Qed.

(** The correction of the first byte. *)
Definition fix_first (r : Z) (l : list Z) : list Z :=
  match l with x :: k => if (r <? 0) && (x =? 0) then 0xFF :: k else l | [] => l end.

Lemma fill_loop_neg n v :
  (1 <= n)%nat -> v < 0 -> minimal n v ->
  exists l, fill_loop n v = Some (l, -1) /\ length l = n /\ bytes_ok (fix_first (-1) l) /\
    be_val (fix_first (-1) l) = v + 256 ^ Z.of_nat n.
Proof.
  revert v. induction n as [|n IH]; intros v Hn Hv [Hf Hmin]; [lia|]. cbn [fill_loop].
  destruct (Z.eqb_spec v 0); [lia|]. destruct (Z.eqb_spec v (-1)) as [->|Hv1]; cbn [orb].
  - assert (n = O) as ->.
    { destruct n as [|n]; [done|]. exfalso. apply Hmin; [lia|]. unfold fits. simpl Nat.sub.
      rewrite pow256_S. assert (0 < 256 ^ Z.of_nat n) by (apply Z.pow_pos_nonneg; lia). lia. }
    exists [0]. split_and!; [done|done| |done]. repeat constructor; vm_compute; congruence.
  - rewrite shiftr8, land_ff.
    assert (Hb : byte_ok (v mod 256)) by (apply (Z.mod_pos_bound v 256); lia).
    destruct n as [|n].
    + apply fits_1 in Hf. assert (v / 256 = -1) as -> by (Z.to_euclidean_division_equations; lia).
      exists [v mod 256]. assert (fix_first (-1) [v mod 256] = [v mod 256]) as ->.
      { unfold fix_first. destruct (Z.eqb_spec (v mod 256) 0); [|done].
        exfalso. Z.to_euclidean_division_equations. lia. }
      split_and!; [done|done|by apply Forall_singleton|].
      change (0 * 256 + v mod 256 = v + 256). Z.to_euclidean_division_equations. lia.
    + assert (Hv' : v / 256 < 0) by (Z.to_euclidean_division_equations; lia).
      destruct (IH (v / 256)) as (l & E & Hl & Hok & Hval); [lia|done| |].
      { split; [apply (fits_shift (S n)); [lia|done]|]. intros H2 Hc. apply Hmin; [lia|].
        simpl in *. rewrite Nat.sub_0_r in Hc. apply (fits_shift n); [lia|done]. }
      rewrite E. cbn [mbind option_bind]. exists (l ++ [v mod 256]).
      assert (Hfix : fix_first (-1) (l ++ [v mod 256]) = fix_first (-1) l ++ [v mod 256]).
      { destruct l as [|x l]; [done|]. simpl. by destruct (x =? 0). }
      rewrite Hfix, be_val_snoc, Hval, (pow256_S (S n)). split_and!; [done| | |].
      * rewrite length_app, Hl. simpl. lia.
      * apply bytes_ok_app. split; [done|by apply Forall_singleton].
      * pose proof (Z.div_mod v 256). lia.
Qed.

(** ** Round trip *)

Lemma land_80 x : byte_ok x -> (Z.land x 0x80 =? 0) = (x <? 128).
Proof.
  intros Hx. assert (0 <= x < 256) by exact Hx.
  assert (H256 : forallb (fun n => Bool.eqb (Z.land (Z.of_nat n) 0x80 =? 0) (Z.of_nat n <? 128))
            (seq 0 256) = true) by (vm_compute; reflexivity).
  rewrite forallb_forall in H256. specialize (H256 (Z.to_nat x)).
  rewrite Z2Nat.id in H256 by lia. apply Bool.eqb_prop, H256, in_seq. lia.
Qed.

(** The value of content bytes: two's complement. *)
Definition twos_val (l : list Z) : Z :=
  match l with
  | x :: _ => be_val l - (if x <? 128 then 0 else 256 ^ Z.of_nat (length l))
  | [] => 0
  end.

Lemma twos_val_fits l : l <> [] -> bytes_ok l -> fits (length l) (twos_val l).
Proof.
  intros Hl Hok. destruct l as [|x l]; [done|]. inversion Hok as [|? ? Hx Hl']; subst.
  pose proof (be_val_first x l Hx Hl') as Hb. unfold fits, twos_val. cbn [length].
  rewrite pow256_S. set (P := 256 ^ Z.of_nat (length l)) in *.
  assert (0 < P) by (apply Z.pow_pos_nonneg; lia). assert (0 <= x < 256) by exact Hx.
  destruct (Z.ltb_spec x 128); nia.
Qed.

(** The value determines the content at a given length. *)
Lemma twos_val_eq l v :
  l <> [] -> bytes_ok l -> fits (length l) v ->
  be_val l = (if v <? 0 then v + 256 ^ Z.of_nat (length l) else v) -> twos_val l = v.
Proof.
  intros Hl Hok Hv E. destruct l as [|x l]; [done|]. inversion Hok as [|? ? Hx Hl']; subst.
  pose proof (be_val_first x l Hx Hl') as Hb. unfold fits, twos_val in *. cbn [length] in *.
  rewrite pow256_S in *. rewrite E in *. set (P := 256 ^ Z.of_nat (length l)) in *.
  assert (0 < P) by (apply Z.pow_pos_nonneg; lia). assert (0 <= x < 256) by exact Hx.
  destruct (Z.ltb_spec v 0), (Z.ltb_spec x 128); nia.
Qed.

Lemma read_integer_val l opt dfl :
  (1 <= length l <= 8)%nat -> bytes_ok l ->
  read_casn_num_max {| num_ty := ASN_INTEGER; num_optional := opt; num_default := dfl;
                       num_content := Some l |} = (Z.of_nat (length l), Some (twos_val l)).
Proof.
  intros Hl Hok. unfold read_casn_num_max; cbn [num_content num_ty].
  destruct (Z.ltb_spec 8 (Z.of_nat (length l))); [lia|]. destruct l as [|x l]; [simpl in Hl; lia|].
  pose proof (twos_val_fits (x :: l) ltac:(done) Hok) as Hf.
  inversion Hok as [|? ? Hx Hl']; subst. cbn [is_integer]. rewrite land_80, andb_true_r by done.
  assert (H8 : 256 ^ Z.of_nat (length (x :: l)) <= 2 ^ 64).
  { change (2 ^ 64) with (256 ^ 8). apply Z.pow_le_mono_r; lia. }
  do 2 f_equal. unfold fits, twos_val in *.
  destruct (Z.ltb_spec x 128); cbn [negb]; rewrite num_loop_val; lia.
Qed.

Lemma write_num_spec v :
  - 2 ^ 63 <= v < 2 ^ 63 ->
  exists l, _write_casn_num v = Some l /\ (1 <= length l <= 8)%nat /\ bytes_ok l /\
    minimal (length l) v /\ twos_val l = v.
Proof.
  intros Hv. destruct (siz_loop_spec 8 v 1 8) as (n & Hn & E & Hmin).
  { lia. } { unfold fits. change (256 ^ Z.of_nat 8) with (2 ^ 64). lia. }
  unfold _write_casn_num. cbv zeta. rewrite E. replace (1 + (n - 1))%nat with n by lia.
  destruct (Z.ltb_spec v 0) as [Hneg|Hpos].
  - destruct (fill_loop_neg n v ltac:(lia) Hneg Hmin) as (l & -> & Hl & Hok & Hval).
    cbn [mbind option_bind]. exists (fix_first (-1) l).
    assert (Hlen : length (fix_first (-1) l) = n).
    { rewrite <- Hl. destruct l as [|x l]; [done|]. simpl. by destruct (x =? 0). }
    split; [done|]. rewrite Hlen. split_and!; try lia; try done.
    apply twos_val_eq; [by intros H0; rewrite H0 in Hlen; simpl in Hlen; lia|done| |].
    + rewrite Hlen. apply Hmin.
    + rewrite Hlen. by destruct (Z.ltb_spec v 0); [|lia].
  - destruct (fill_loop_pos n v) as (l & -> & Hl & Hok & Hval).
    { destruct Hmin as [Hf _]. unfold fits in Hf. lia. }
    cbn [mbind option_bind]. exists l.
    split; [by destruct l|]. rewrite Hl. split_and!; try lia; try done.
    apply twos_val_eq; [by intros ->; simpl in Hl; lia|done| |].
    + rewrite Hl. apply Hmin.
    + by destruct (Z.ltb_spec v 0); [lia|].
Qed.

Lemma minimal_coding l :
  bytes_ok l -> minimal (length l) (twos_val l) -> int_coding_err l = false.
Proof.
  intros Hok [_ Hmin]. destruct l as [|x [|y l]]; [done|done|].
  inversion Hok as [|? ? Hx Hok']; subst. inversion Hok' as [|? ? Hy Hl']; subst.
  specialize (Hmin ltac:(simpl; lia)). cbn [length] in Hmin. simpl Nat.sub in Hmin.
  unfold int_coding_err. rewrite land_80 by done.
  pose proof (be_val_first y l Hy Hl') as Hb. assert (0 <= y < 256) by exact Hy.
  unfold twos_val, fits in Hmin. cbn [length] in Hmin. rewrite (be_val_cons x), !pow256_S in Hmin.
  cbn [length] in Hmin. rewrite !pow256_S in Hmin.
  set (P := 256 ^ Z.of_nat (length l)) in *. assert (0 < P) by (apply Z.pow_pos_nonneg; lia).
  destruct (Z.eqb_spec x 0) as [->|]; cbn [andb orb].
  - destruct (Z.ltb_spec y 128); [|reflexivity]. exfalso. apply Hmin.
    destruct (Z.ltb_spec 0 128); [|lia]. nia.
  - destruct (Z.eqb_spec x 0xFF) as [->|]; [|done]. cbn [andb].
    destruct (Z.ltb_spec y 128); [done|]. exfalso. apply Hmin.
    destruct (Z.ltb_spec 0xFF 128); [lia|]. nia.
Qed.

(** Every 64-bit number that is written as an INTEGER is at most eight
    bytes, in the shortest form, so that decoding accepts it, and reads back. *)
Lemma casn_num_roundtrip v opt dfl :
  - 2 ^ 63 <= v < 2 ^ 63 ->
  exists l, _write_casn_num v = Some l /\ (1 <= length l <= 8)%nat /\ bytes_ok l /\
    int_coding_err l = false /\
    read_casn_num {| num_ty := ASN_INTEGER; num_optional := opt; num_default := dfl;
                     num_content := Some l |} = (Z.of_nat (length l), Some v).
Proof.
  intros Hv. destruct (write_num_spec v Hv) as (l & E & Hl & Hok & Hmin & Hval).
  exists l. split_and!; try done; try lia.
  - apply minimal_coding; [done|by rewrite Hval].
  - unfold read_casn_num. rewrite read_integer_val, Hval by done.
    by destruct (Z.ltb_spec 8 (Z.of_nat (length l))); [lia|].
Qed.

Lemma casn_num_roundtrip_witness :
  exists l, _write_casn_num (-32769) = Some l /\ length l = 3%nat /\
    read_casn_num {| num_ty := ASN_INTEGER; num_optional := false; num_default := false;
                     num_content := Some l |} = (3, Some (-32769)).
Proof.
  destruct (casn_num_roundtrip (-32769) false false ltac:(lia)) as (l & E & _ & _ & _ & Hr).
  exists l. vm_compute in E. injection E as <-. split; [reflexivity|]. split; [reflexivity|].
  exact Hr.
Defined.
