(* ===== verification/CasnObjid.v ===== *)
(** * ASN.1 object identifiers ([src/lib/casn/casn_objid.c], [_write_objid] and
      [_putd] of [casn.c])

    An object identifier is its content bytes: the first two arcs in one base
    128 number, then one number per arc. The code works with its dotted decimal
    form. [None] is undefined behaviour: reading past the content, or writing
    past the 16 bytes in which [vsize_objid] formats one arc after the other to
    measure them. *)

From S2P Require Import Prelude CasnNum.

Definition ch_dot : Z := 46.
Definition u64 (x : Z) : Z := wrap 64 x.

(** ** Reading *)

(** [_putd]: decimal digits of a [long]; twenty are enough. *)
Fixpoint putd (fuel : nat) (val : Z) : list Z :=
  match fuel with
  | O => []
  | S fuel =>
      let tmp := Z.quot val 10 in
      (if tmp =? 0 then [] else putd fuel tmp) ++ [Z.rem val 10 + 48]
  end.
Definition _putd (val : Z) : list Z := putd 20 (s64 val).

(** One base 128 number; [None] when the bytes end inside of it. *)
Fixpoint read_arc (c : list Z) (val : Z) : option (Z * list Z) :=
  match c with
  | [] => None
  | x :: c =>
      if Z.land x 0x80 =? 0 then Some (u64 (Z.shiftl val 7 + x), c)
      else read_arc c (u64 (Z.shiftl val 7 + Z.land x 0x7F))
  end.

(** The text the loop writes for each arc from the third on: digits, and a dot
    if there is more; [fuel] is at least the number of bytes. *)
Fixpoint objid_arcs (fuel : nat) (c : list Z) : option (list (list Z)) :=
  match fuel, c with
  | _, [] => Some []
  | O, _ => None
  | S fuel, _ =>
      '(val, c) ← read_arc c 0;
      ps ← objid_arcs fuel c;
      Some ((_putd val ++ (if bool_decide (c = []) then [] else [ch_dot])) :: ps)
  end.

(** What is written before each place where the mode without reading starts
    over in its buffer. *)
Definition objid_pieces (startp : list Z) : option (list (list Z)) :=
  '(val, c) ← read_arc startp 0;
  ps ← objid_arcs (length c) c;
  let first := _putd (if val <? 120 then val / 40 else 2) ++ [ch_dot] ++
               _putd (if val <? 120 then val mod 40 else u64 (val - 80)) in
  Some (first :: match ps with [] => [] | p :: ps => (ch_dot :: p) :: ps end).

(** The size with the terminating NUL; 0 for an empty object. *)
Definition vsize_objid (startp : list Z) : option Z :=
  if bool_decide (startp = []) then Some 0
  else
    ps ← objid_pieces startp;
    if forallb (fun p => (length p <=? 16)%nat) ps
    then Some (Z.of_nat (length (concat ps)) + 1) else None.

(** The text with its NUL. *)
Definition read_objid (startp : list Z) : option (list Z) :=
  if bool_decide (startp = []) then Some []
  else ps ← objid_pieces startp; Some (concat ps ++ [0]).

Definition diff_objid (startp : list Z) (objid : list Z) : option Z :=
  let lth2 := Z.of_nat (length objid) + 1 in
  lth ← vsize_objid startp;
  if lth <=? 0 then Some (-2)
  else
    c ← read_objid startp;
    let ansr := memcmp (Z.to_nat (Z.min lth lth2)) c (objid ++ [0]) in
    Some (if ansr =? 0 then if lth <? lth2 then 1 else if lth <? lth2 then -1 else 0
          else if 0 <? ansr then 1 else -1).

(** ** Writing *)

(** [for (val = 0; *c && *c != '.'; val = val * 10 + *c++ - '0')] *)
Fixpoint parse_arc (c : list Z) (val : Z) : Z * list Z :=
  match c with
  | [] => (val, [])
  | x :: c' => if x =? ch_dot then (val, c) else parse_arc c' (s64 (val * 10 + x - 48))
  end.

(** [for (tmp = val, siz = 0; tmp; siz++) tmp >>= 7]; a positive [long] has at
    most nine groups of seven bits. *)
Fixpoint arc_siz (fuel : nat) (tmp : Z) : nat :=
  match fuel with
  | O => O
  | S fuel => if tmp =? 0 then O else S (arc_siz fuel (Z.shiftr tmp 7))
  end.

(** [siz] bytes, the last one first. *)
Fixpoint put_arc (siz : nat) (tmp val : Z) : list Z :=
  match siz with
  | O => []
  | S siz =>
      put_arc siz tmp (Z.shiftr val 7) ++
      [Z.lor (Z.land val 0x7F) (if tmp =? val then 0 else 0x80)]
  end.

(** The loop over the arcs from the third on: its bytes, one round at least. *)
Fixpoint put_arcs (fuel : nat) (c : list Z) : option (list Z) :=
  match fuel, c with
  | O, _ | _, [] => None
  | S fuel, _ =>
      let '(val, c) := parse_arc c 0 in
      let siz := if val =? 0 then 1%nat else arc_siz 9 val in
      let bs := put_arc siz val val in
      match c with
      | [] => Some bs
      | _ :: [] => Some bs
      | _ :: c => rest ← put_arcs fuel c; Some (bs ++ rest)
      end
  end.

(** The content: [Some None] is the error for an identifier of one arc. The
    length is measured from a pointer that only the loop over the arcs from the
    third on sets, so that it is undefined without a third arc. The buffer has
    as many bytes as [from] has characters. *)
Definition _write_objid (from : list Z) : option (option (list Z)) :=
  let '(val, c) := parse_arc from 0 in
  match c with
  | [] => Some None
  | _ :: c =>
      let '(tmp, c) := parse_arc c 0 in
      let val := s64 (s64 (val * 40) + tmp) in
      let bs := put_arc (arc_siz 9 val) val val in
      let c := match c with x :: c' => if x =? ch_dot then c' else c | [] => c end in
      rest ← put_arcs (length c) c;
      if (length (bs ++ rest) <=? length from)%nat then Some (Some (bs ++ rest)) else None
  end.

(** ** Decimal numbers *)

Lemma pow10_succ n : 10 ^ Z.of_nat (S n) = 10 * 10 ^ Z.of_nat n.
Proof. rewrite Nat2Z.inj_succ, Z.pow_succ_r by lia. done. Qed.

(** An arc that the 16 byte buffer has room for between two dots. *)
Definition arc_ok (v : Z) : Prop := 0 <= v < 10 ^ 14.

Lemma putd_unfold f v :
  0 <= v -> putd (S f) v = (if v / 10 =? 0 then [] else putd f (v / 10)) ++ [v mod 10 + 48].
Proof. intros Hv. cbn [putd]. by rewrite Z.quot_div_nonneg, Z.rem_mod_nonneg by lia. Qed.

Lemma div10_bound v n : 0 <= v < 10 ^ Z.of_nat (S n) -> 0 <= v / 10 < 10 ^ Z.of_nat n.
Proof.
  rewrite pow10_succ. split; [apply Z.div_pos | apply Z.div_lt_upper_bound]; lia.
Qed.

Lemma length_putd f v n :
  0 <= v < 10 ^ Z.of_nat n -> (1 <= n)%nat -> (1 <= length (putd (S f) v) <= n)%nat.
Proof.
  revert f v. induction n as [|n IH]; intros f v Hv Hn; [lia|].
  rewrite putd_unfold, length_app by lia. cbn [length].
  destruct (Z.eqb_spec (v / 10) 0); [simpl; lia|].
  apply div10_bound in Hv. destruct n as [|n].
  { change (10 ^ Z.of_nat 0) with 1 in Hv. lia. }
  destruct f as [|f]; [simpl; lia|]. specialize (IH f (v / 10) Hv ltac:(lia)). lia.
Qed.

Lemma putd_digits f v : 0 <= v -> Forall (fun x => 48 <= x <= 57) (putd f v).
Proof.
  revert v. induction f as [|f IH]; intros v Hv; [constructor|].
  rewrite putd_unfold by done. apply Forall_app. split.
  - case_match; [constructor|]. apply IH, Z.div_pos; lia.
  - pose proof (Z.mod_pos_bound v 10). apply Forall_singleton. lia.
Qed.

(** Parsing digits continues with their value. *)
Lemma parse_putd f v rest :
  0 <= v < 10 ^ Z.of_nat f -> v < 2 ^ 62 -> parse_arc (putd f v ++ rest) 0 = parse_arc rest v.
Proof.
  revert v rest. induction f as [|f IH]; intros v rest Hv Hb.
  - change (10 ^ Z.of_nat 0) with 1 in Hv. by replace v with 0 by lia.
  - pose proof (Z.mod_pos_bound v 10 ltac:(lia)). pose proof (Z.div_mod v 10 ltac:(lia)) as Hdm.
    assert (Hstep : parse_arc ([v mod 10 + 48] ++ rest) (v / 10) = parse_arc rest v).
    { cbn [app parse_arc]. unfold ch_dot. destruct (Z.eqb_spec (v mod 10 + 48) 46); [lia|].
      f_equal. rewrite s64_small; lia. }
    rewrite putd_unfold, <- app_assoc by lia. rewrite <- Hstep.
    destruct (Z.eqb_spec (v / 10) 0) as [E|E]; [by rewrite E|].
    apply IH; [by apply div10_bound | lia].
Qed.

Lemma parse_arc_stop rest v : parse_arc (ch_dot :: rest) v = (v, ch_dot :: rest).
Proof. done. Qed.

Lemma arc_putd v : arc_ok v -> _putd v = putd 20 v.
Proof. intros Hv. unfold _putd, arc_ok in *. by rewrite s64_small by lia. Qed.

Lemma parse_arc_putd v rest : arc_ok v -> parse_arc (_putd v ++ rest) 0 = parse_arc rest v.
Proof.
  intros Hv. rewrite arc_putd by done. unfold arc_ok in Hv.
  apply parse_putd; [change (10 ^ Z.of_nat 20) with (10 ^ 20)|]; lia.
Qed.

Lemma length_putd_arc v : arc_ok v -> (1 <= length (_putd v) <= 14)%nat.
Proof. intros Hv. rewrite arc_putd by done. apply length_putd; [exact Hv|lia]. Qed.

(** ** Base 128 numbers *)

Lemma land_7f v : Z.land v 0x7F = v mod 128.
Proof. change 0x7F with (Z.ones 7). rewrite Z.land_ones by lia. done. Qed.
Lemma shiftr7 v : Z.shiftr v 7 = v / 128.
Proof. rewrite Z.shiftr_div_pow2 by lia. done. Qed.
Lemma shiftl7 v : Z.shiftl v 7 = v * 128.
Proof. rewrite Z.shiftl_mul_pow2 by lia. done. Qed.

Lemma u64_small x : 0 <= x < 2 ^ 64 -> u64 x = x.
Proof. apply wrap_small. Qed.

Lemma pow128_S n : 128 ^ Z.of_nat (S n) = 128 * 128 ^ Z.of_nat n.
Proof. rewrite Nat2Z.inj_succ, Z.pow_succ_r by lia. done. Qed.

(** Seven bits with and without the mark. *)
Lemma seven_bits x :
  0 <= x < 128 ->
  Z.land x 0x80 = 0 /\ Z.land (Z.lor x 0x80) 0x80 <> 0 /\ Z.land (Z.lor x 0x80) 0x7F = x /\
  byte_ok (Z.lor x 0x80) /\ byte_ok x.
Proof.
  intros Hx.
  assert (H : forallb (fun n => let x := Z.of_nat n in
     (Z.land x 0x80 =? 0) && negb (Z.land (Z.lor x 0x80) 0x80 =? 0) &&
     (Z.land (Z.lor x 0x80) 0x7F =? x) && (0 <=? Z.lor x 0x80) && (Z.lor x 0x80 <? 256))
     (seq 0 128) = true) by (vm_compute; reflexivity).
  rewrite forallb_forall in H. specialize (H (Z.to_nat x) ltac:(apply in_seq; lia)).
  cbv zeta in H. rewrite Z2Nat.id in H by lia. bprop.
  unfold byte_ok, uint_ok. change (2 ^ 8) with 256. split_and!; lia.
Qed.

(** The groups in front of the last one. *)
Lemma read_marked n tmp w acc rest :
  0 <= w < 128 ^ Z.of_nat n -> w < tmp -> 0 <= acc -> acc * 128 ^ Z.of_nat n + w < 2 ^ 57 ->
  read_arc (put_arc n tmp w ++ rest) acc = read_arc rest (acc * 128 ^ Z.of_nat n + w).
Proof.
  revert w rest. induction n as [|n IH]; intros w rest Hw Ht Ha Hb.
  - change (128 ^ Z.of_nat 0) with 1 in *. simpl. f_equal. lia.
  - rewrite pow128_S in *. cbn [put_arc]. rewrite land_7f, shiftr7, <- app_assoc.
    pose proof (Z.mod_pos_bound w 128 ltac:(lia)) as Hm. pose proof (Z.div_mod w 128 ltac:(lia)).
    assert (0 <= w / 128) by (apply Z.div_pos; lia).
    rewrite IH by nia. destruct (Z.eqb_spec tmp w); [lia|].
    destruct (seven_bits _ Hm) as (_ & E2 & E3 & _ & _). cbn [app read_arc].
    destruct (Z.eqb_spec (Z.land (Z.lor (w mod 128) 0x80) 0x80) 0); [done|].
    rewrite E3, shiftl7, u64_small; [f_equal; lia|nia].
Qed.

Lemma arc_siz_S f v : v <> 0 -> arc_siz (S f) v = S (arc_siz f (v / 128)).
Proof. intros Hv. cbn [arc_siz]. rewrite shiftr7. by destruct (Z.eqb_spec v 0). Qed.

Lemma arc_siz_bound f v : 0 <= v < 128 ^ Z.of_nat f -> 0 <= v < 128 ^ Z.of_nat (arc_siz f v).
Proof.
  revert v. induction f as [|f IH]; intros v Hv; [done|]. cbn [arc_siz].
  destruct (Z.eqb_spec v 0) as [->|]; [done|]. rewrite pow128_S in *. rewrite shiftr7.
  assert (0 <= v / 128 < 128 ^ Z.of_nat f)
    by (split; [apply Z.div_pos | apply Z.div_lt_upper_bound]; lia).
  specialize (IH (v / 128) ltac:(done)). pose proof (Z.div_mod v 128).
  pose proof (Z.mod_pos_bound v 128). lia.
Qed.

Definition arc_bytes (v : Z) : list Z := put_arc (if v =? 0 then 1%nat else arc_siz 9 v) v v.

Lemma read_arc_bytes v rest :
  0 <= v < 2 ^ 56 -> read_arc (arc_bytes v ++ rest) 0 = Some (v, rest).
Proof.
  intros Hv. unfold arc_bytes. destruct (Z.eqb_spec v 0) as [->|Hv0]; [done|].
  pose proof (arc_siz_bound 9 v) as Hs. change (128 ^ Z.of_nat 9) with (2 ^ 63) in Hs.
  specialize (Hs ltac:(lia)). remember (arc_siz 9 v) as n eqn:En. destruct n as [|n].
  { change (128 ^ Z.of_nat 0) with 1 in Hs. lia. }
  rewrite pow128_S in Hs. cbn [put_arc]. rewrite land_7f, shiftr7, <- app_assoc, Z.eqb_refl, Z.lor_0_r.
  pose proof (Z.mod_pos_bound v 128 ltac:(lia)) as Hm. pose proof (Z.div_mod v 128 ltac:(lia)).
  assert (0 <= v / 128) by (apply Z.div_pos; lia).
  rewrite read_marked by lia. cbn [app read_arc].
  destruct (seven_bits _ Hm) as (-> & _). cbn [Z.eqb]. rewrite shiftl7, u64_small by lia.
  do 2 f_equal. lia.
Qed.

(** A number needs at most as many bytes as digits. *)
Lemma length_put_arc n tmp w : length (put_arc n tmp w) = n.
Proof.
  revert w. induction n as [|n IH]; intros w; [done|]. cbn [put_arc].
  rewrite length_app, IH. simpl. lia.
Qed.

Lemma arc_siz_digits f g w v :
  0 < v < 10 ^ Z.of_nat g -> 0 <= w <= v -> (arc_siz f w <= length (putd g v))%nat.
Proof.
  revert f w v. induction g as [|g IH]; intros f w v Hv Hw.
  { change (10 ^ Z.of_nat 0) with 1 in Hv. lia. }
  destruct f as [|f]; [simpl; lia|]. cbn [arc_siz]. rewrite putd_unfold, length_app by lia. cbn [length].
  destruct (Z.eqb_spec w 0); [lia|]. rewrite shiftr7.
  pose proof (div10_bound v g ltac:(lia)) as Hd.
  assert (w / 128 <= v / 10)
    by (pose proof (Z.div_mod w 128); pose proof (Z.mod_pos_bound w 128);
        pose proof (Z.div_mod v 10); pose proof (Z.mod_pos_bound v 10); lia).
  assert (0 <= w / 128) by (apply Z.div_pos; lia).
  destruct (Z.eqb_spec (v / 10) 0) as [E|E].
  - replace (w / 128) with 0 by lia. destruct f; simpl; lia.
  - specialize (IH f (w / 128) (v / 10) ltac:(lia) ltac:(lia)). lia.
Qed.

Lemma length_arc_bytes v :
  arc_ok v -> (1 <= length (arc_bytes v) <= length (_putd v))%nat.
Proof.
  intros Hv. unfold arc_bytes. pose proof (length_putd_arc v Hv).
  rewrite length_put_arc. unfold arc_ok in Hv. destruct (Z.eqb_spec v 0); [lia|]. split.
  - rewrite (arc_siz_S 8) by lia. lia.
  - rewrite arc_putd by done. apply arc_siz_digits; lia.
Qed.

(** ** Round trip *)

(** Arcs from the third on, in text and as bytes. *)
Fixpoint dots (l : list Z) : list Z :=
  match l with
  | [] => []
  | v :: l => _putd v ++ match l with [] => [] | _ => ch_dot :: dots l end
  end.
Definition arcs_bytes (l : list Z) : list Z := concat (map arc_bytes l).

Lemma dots_cons v w l : dots (v :: w :: l) = _putd v ++ ch_dot :: dots (w :: l).
Proof. done. Qed.

Lemma dots_nonempty v l : arc_ok v -> exists x r, dots (v :: l) = x :: r.
Proof.
  intros Hv. pose proof (length_putd_arc v Hv). cbn [dots].
  destruct (_putd v) as [|x r]; [simpl in *; lia|]. eexists x, _. done.
Qed.

Lemma put_arcs_dots l fuel :
  Forall arc_ok l -> l <> [] -> (length l <= fuel)%nat ->
  put_arcs fuel (dots l) = Some (arcs_bytes l).
Proof.
  revert fuel. induction l as [|v l IH]; intros fuel Hl Hne Hf; [done|].
  apply Forall_cons_1 in Hl as [Hv Hl]. destruct fuel as [|fuel]; [simpl in Hf; lia|].
  destruct (dots_nonempty v l Hv) as (x & r & E). unfold arcs_bytes. cbn [map concat].
  destruct l as [|w l].
  - cbn [put_arcs]. rewrite E, <- E. cbn [dots]. rewrite parse_arc_putd by done.
    cbn. by rewrite app_nil_r.
  - cbn [put_arcs]. rewrite E, <- E, dots_cons, parse_arc_putd, parse_arc_stop by done.
    apply Forall_cons_1 in Hl as Hl'. destruct (dots_nonempty w l (proj1 Hl')) as (y & r' & E').
    rewrite E', <- E'. rewrite IH by (done || simpl in *; lia). done.
Qed.

Lemma arcs_bytes_nil l : Forall arc_ok l -> arcs_bytes l = [] <-> l = [].
Proof.
  intros Hl. split; [|by intros ->]. destruct Hl as [|v l Hv _]; [done|].
  unfold arcs_bytes. cbn [map concat]. pose proof (length_arc_bytes v Hv).
  destruct (arc_bytes v); [simpl in *; lia|done].
Qed.

Lemma objid_arcs_bytes l fuel :
  Forall arc_ok l -> (length l <= fuel)%nat ->
  exists ps, objid_arcs fuel (arcs_bytes l) = Some ps /\ concat ps = dots l /\
    Forall (fun p => length p <= 15)%nat ps /\ (l <> [] -> ps <> []).
Proof.
  revert fuel. induction l as [|v l IH]; intros fuel Hl Hf.
  - exists []. split_and!; [by destruct fuel | done | constructor | done].
  - apply Forall_cons_1 in Hl as [Hv Hl]. destruct fuel as [|fuel]; [simpl in Hf; lia|].
    destruct (IH fuel Hl ltac:(simpl in Hf; lia)) as (ps & E & Hc & Hps & _).
    assert (Hr : read_arc (arcs_bytes (v :: l)) 0 = Some (v, arcs_bytes l)).
    { unfold arcs_bytes. cbn [map concat]. apply read_arc_bytes. unfold arc_ok in Hv. lia. }
    exists ((_putd v ++ (if bool_decide (arcs_bytes l = []) then [] else [ch_dot])) :: ps).
    split; [|split; [|split; [|done]]].
    + cbn [objid_arcs]. destruct (arcs_bytes (v :: l)) as [|x r] eqn:Eb.
      { done. }
      rewrite Hr. cbn [mbind option_bind]. rewrite E. cbn [mbind option_bind]. done.
    + cbn [concat dots]. rewrite Hc, <- app_assoc. f_equal.
      case_bool_decide as Hb; rewrite arcs_bytes_nil in Hb by done; destruct l; done.
    + constructor; [|done]. rewrite length_app. pose proof (length_putd_arc v Hv).
      case_bool_decide; simpl; lia.
Qed.

(** An object identifier with at least three arcs that is not 0.0. *)
Definition oid_ok (a b : Z) (l : list Z) : Prop :=
  0 <= a <= 2 /\ (a < 2 -> b < 40) /\ 0 < a * 40 + b /\ arc_ok b /\ Forall arc_ok l /\ l <> [].
Definition oid_text (a b : Z) (l : list Z) : list Z :=
  _putd a ++ ch_dot :: _putd b ++ ch_dot :: dots l.
Definition oid_bytes (a b : Z) (l : list Z) : list Z := arc_bytes (a * 40 + b) ++ arcs_bytes l.

Lemma length_arcs_bytes l : Forall arc_ok l -> (length l <= length (arcs_bytes l) <= length (dots l))%nat.
Proof.
  induction 1 as [|v l Hv Hl IH]; [done|].
  change (arcs_bytes (v :: l)) with (arc_bytes v ++ arcs_bytes l).
  pose proof (length_arc_bytes v Hv). destruct l as [|w l].
  - change (dots [v]) with (_putd v ++ []). change (arcs_bytes []) with (@nil Z).
    rewrite !app_nil_r. cbn [length]. lia.
  - rewrite dots_cons, !length_app. cbn [length] in *. lia.
Qed.

Lemma write_objid_bytes a b l :
  oid_ok a b l -> _write_objid (oid_text a b l) = Some (Some (oid_bytes a b l)).
Proof.
  intros (Ha & Hab & Hpos & Hb & Hl & Hne).
  assert (Haok : arc_ok a) by (unfold arc_ok; lia). unfold _write_objid, oid_text.
  rewrite parse_arc_putd, parse_arc_stop by done.
  rewrite parse_arc_putd, parse_arc_stop by done.
  rewrite Z.eqb_refl. unfold arc_ok in Hb. rewrite (s64_small (a * 40)), (s64_small (a * 40 + b)) by lia.
  pose proof (length_arcs_bytes l Hl) as Hlen.
  rewrite put_arcs_dots by (done || lia). cbn [mbind option_bind].
  assert (Ebs : put_arc (arc_siz 9 (a * 40 + b)) (a * 40 + b) (a * 40 + b) = arc_bytes (a * 40 + b)).
  { unfold arc_bytes. by destruct (Z.eqb_spec (a * 40 + b) 0); [lia|]. }
  rewrite Ebs. fold (oid_bytes a b l).
  destruct (Nat.leb_spec (length (oid_bytes a b l))
    (length (_putd a ++ ch_dot :: _putd b ++ ch_dot :: dots l))) as [_|H]; [done|]. exfalso.
  revert H. unfold oid_bytes. rewrite !length_app. cbn [length]. rewrite !length_app. cbn [length].
  assert (length (arc_bytes (a * 40 + b)) <= S (length (_putd b)))%nat.
  { unfold arc_bytes. rewrite length_put_arc. destruct (Z.eqb_spec (a * 40 + b) 0); [lia|].
    rewrite (arc_siz_S 8) by lia.
    destruct (decide (b = 0)) as [->|].
    - replace ((a * 40 + 0) / 128) with 0 by (rewrite Z.div_small; lia). simpl. lia.
    - rewrite arc_putd by done. pose proof (arc_siz_digits 8 20 ((a * 40 + b) / 128) b) as H.
      lapply H; [clear H; intros H | change (10 ^ Z.of_nat 20) with (10 ^ 20); lia].
      lapply H; [lia|]. split; [apply Z.div_pos; lia|].
      pose proof (Z.div_mod (a * 40 + b) 128). pose proof (Z.mod_pos_bound (a * 40 + b) 128). lia. }
  lia.
Qed.

Lemma oid_pieces a b l :
  oid_ok a b l ->
  exists ps, objid_pieces (oid_bytes a b l) = Some ps /\ concat ps = oid_text a b l /\
    Forall (fun p => length p <= 16)%nat ps.
Proof.
  intros (Ha & Hab & Hpos & Hb & Hl & Hne).
  destruct (objid_arcs_bytes l (length (arcs_bytes l)) Hl) as (ps & E & Hc & Hps & Hpne).
  { apply length_arcs_bytes, Hl. }
  unfold objid_pieces, oid_bytes. unfold arc_ok in Hb. rewrite read_arc_bytes by lia.
  cbn [mbind option_bind]. rewrite E. cbn [mbind option_bind].
  assert (Efirst : _putd (if a * 40 + b <? 120 then (a * 40 + b) / 40 else 2) ++ [ch_dot] ++
             _putd (if a * 40 + b <? 120 then (a * 40 + b) mod 40 else u64 (a * 40 + b - 80)) =
             _putd a ++ [ch_dot] ++ _putd b).
  { destruct (Z.ltb_spec (a * 40 + b) 120).
    - replace ((a * 40 + b) / 40) with a by (Z.to_euclidean_division_equations; lia).
      replace ((a * 40 + b) mod 40) with b by (Z.to_euclidean_division_equations; lia). done.
    - assert (a = 2) as -> by lia. rewrite u64_small by lia. do 3 f_equal. lia. }
  eexists. split; [done|]. rewrite Efirst. destruct ps as [|p ps]; [by destruct Hpne|].
  apply Forall_cons_1 in Hps as [Hp Hps]. split.
  - cbn [concat] in *. unfold oid_text. rewrite <- Hc, <- !app_assoc. done.
  - constructor; [|constructor; [simpl; lia|]].
    + assert (Hlen : (length (_putd a) = 1)%nat).
      { assert (a = 0 \/ a = 1 \/ a = 2) as [-> | [-> | ->]] by lia; done. }
      rewrite !length_app, Hlen. cbn [length]. pose proof (length_putd_arc b Hb). lia.
    + eapply Forall_impl; [exact Hps|]. simpl. lia.
Qed.

Lemma dots_ne0 l : Forall arc_ok l -> Forall (fun x => x <> 0) (dots l).
Proof.
  induction 1 as [|v l Hv Hl IH]; [constructor|]. cbn [dots]. apply Forall_app. split.
  - rewrite arc_putd by done. eapply Forall_impl; [apply putd_digits; apply Hv|]. simpl. lia.
  - destruct l; [constructor|]. constructor; [done|apply IH].
Qed.

Lemma oid_text_ne0 a b l : oid_ok a b l -> Forall (fun x => x <> 0) (oid_text a b l).
Proof.
  intros (Ha & Hab & Hpos & Hb & Hl & Hne).
  assert (H : Forall arc_ok (a :: b :: l)).
  { constructor; [unfold arc_ok; lia|]. by constructor. }
  apply dots_ne0 in H. destruct l as [|v l]; [done|]. exact H.
Qed.

(** Texts compared with their NUL are equal when the shorter one is a prefix. *)
Lemma nul_prefix (s t : list Z) :
  Forall (fun x => x <> 0) s -> Forall (fun x => x <> 0) t ->
  take (S (Nat.min (length s) (length t))) (s ++ [0]) =
  take (S (Nat.min (length s) (length t))) (t ++ [0]) -> s = t.
Proof.
  intros Hs. revert t. induction Hs as [|x s Hx Hs IH]; intros [|y t] Ht E; simpl in *; try done.
  - inversion Ht; subst. injection E as E. congruence.
  - injection E as E. congruence.
  - inversion Ht; subst. injection E as -> E. f_equal. by apply IH.
Qed.

Lemma diff_objid_text startp s t :
  startp <> [] -> read_objid startp = Some (s ++ [0]) ->
  vsize_objid startp = Some (Z.of_nat (length s) + 1) ->
  Forall (fun x => x <> 0) s -> Forall (fun x => x <> 0) t ->
  exists r, diff_objid startp t = Some r /\ (r = 0 <-> t = s).
Proof.
  intros Hne Hr Hv Hs Ht. unfold diff_objid. rewrite Hv. cbn [mbind option_bind].
  destruct (Z.leb_spec (Z.of_nat (length s) + 1) 0); [lia|]. rewrite Hr. cbn [mbind option_bind].
  assert (Z.to_nat (Z.min (Z.of_nat (length s) + 1) (Z.of_nat (length t) + 1)) =
          S (Nat.min (length s) (length t))) as -> by lia.
  eexists. split; [done|]. pose proof (memcmp_eq (S (Nat.min (length s) (length t)))
    (s ++ [0]) (t ++ [0])) as Hm. rewrite !length_app in Hm. simpl length in Hm.
  specialize (Hm ltac:(lia) ltac:(lia)).
  destruct (Z.eqb_spec (memcmp (S (Nat.min (length s) (length t))) (s ++ [0]) (t ++ [0])) 0) as [E|E].
  - apply Hm in E. apply nul_prefix in E as ->; [|done|done]. rewrite Z.ltb_irrefl. done.
  - split; [case_match; done|]. intros ->. exfalso. apply E, Hm. done.
Qed.

(** An object identifier of three arcs or more, not starting with 0.0 and
    with arcs below 10^14, is written as the bytes X.690 prescribes; the size and
    the text that are read from them are those of the identifier, and it is equal
    only to itself. *)
Lemma objid_roundtrip a b l :
  oid_ok a b l ->
  _write_objid (oid_text a b l) = Some (Some (oid_bytes a b l)) /\
  read_objid (oid_bytes a b l) = Some (oid_text a b l ++ [0]) /\
  vsize_objid (oid_bytes a b l) = Some (Z.of_nat (length (oid_text a b l)) + 1) /\
  forall t, Forall (fun x => x <> 0) t ->
    exists r, diff_objid (oid_bytes a b l) t = Some r /\ (r = 0 <-> t = oid_text a b l).
Proof.
  intros Hok. pose proof (oid_text_ne0 a b l Hok) as Hne0.
  destruct (oid_pieces a b l Hok) as (ps & E & Hc & Hps).
  assert (Hne : oid_bytes a b l <> []) by (intros H0; rewrite H0 in E; done).
  assert (Hr : read_objid (oid_bytes a b l) = Some (oid_text a b l ++ [0])).
  { unfold read_objid. rewrite bool_decide_eq_false_2, E by done. cbn [mbind option_bind]. by rewrite Hc. }
  assert (Hv : vsize_objid (oid_bytes a b l) = Some (Z.of_nat (length (oid_text a b l)) + 1)).
  { unfold vsize_objid. rewrite bool_decide_eq_false_2, E by done. cbn [mbind option_bind].
    assert (forallb (fun p => (length p <=? 16)%nat) ps = true) as ->.
    { apply forallb_forall. intros p Hp. apply Nat.leb_le.
      rewrite Forall_forall in Hps. by apply Hps, list_elem_of_In. }
    by rewrite Hc. }
  split_and!; [by apply write_objid_bytes|done|done|].
  intros t Ht. by apply diff_objid_text.
Qed.

(** [id-ct-routeOriginAttestation]. *)
Lemma objid_roundtrip_witness :
  read_objid (oid_bytes 1 2 [840; 113549; 1; 9; 16; 1; 24]) =
    Some (oid_text 1 2 [840; 113549; 1; 9; 16; 1; 24] ++ [0]).
Proof.
  refine (proj1 (proj2 (objid_roundtrip 1 2 [840; 113549; 1; 9; 16; 1; 24] _))).
  unfold oid_ok, arc_ok. split_and!; try lia; try done.
  repeat constructor; done.
Qed.

(** Outside of these conditions: an arc of sixteen digits is written past the
    buffer, an identifier of two arcs has no length, and the first two arcs of
    0.0.3 are lost. *)
Example objid_limits :
  vsize_objid (oid_bytes 1 2 [10 ^ 15; 3]) = None /\
  _write_objid (_putd 2 ++ ch_dot :: _putd 5) = None /\
  _write_objid (oid_text 0 0 [3]) = Some (Some [3]).
Proof. split_and!; vm_compute; reflexivity. Qed.
