(* ===== verification/RpkiObject.v ===== *)
(** * Decoded RPKI objects

    The data of [src/lib/rpki-asn1/*.asn] that validation looks at, as the
    decoder of [lib/casn] leaves it: a field that the grammar requires is there,
    an optional one is an [option], a SEQUENCE OF or SET OF is a list, a CHOICE or
    DEFINED BY an inductive type, and a primitive value is its content bytes (the
    first byte of a BIT STRING is its number of unused bits). Also the error
    codes of [src/lib/rpki/err.h] and the search for extensions
    ([src/lib/rpki-object/certificate.c]). *)

From S2P Require Import Prelude CasnTime CasnNum CasnObjid.

(** ** Error codes *)

Definition ERR_SCM_COFILE : Z := -1.
Definition ERR_SCM_NOMEM : Z := -2.
Definition ERR_SCM_INVALARG : Z := -3.
Definition ERR_SCM_BADFILE : Z := -12.
Definition ERR_SCM_INVALDT : Z := -24.
Definition ERR_SCM_INVALASN : Z := -44.
Definition ERR_SCM_INVALASID : Z := -39.
Definition ERR_SCM_INVALSKI : Z := -40.
Definition ERR_SCM_INVALIPB : Z := -41.
Definition ERR_SCM_INVALIPL : Z := -42.
Definition ERR_SCM_NOTEE : Z := -45.
Definition ERR_SCM_BADCERTVERS : Z := -47.
Definition ERR_SCM_NOSKI : Z := -55.
Definition ERR_SCM_BADDA : Z := -85.
Definition ERR_SCM_BADCT : Z := -86.
Definition ERR_SCM_UNSIGATTR : Z := -87.
Definition ERR_SCM_INVALFAM : Z := -88.
Definition ERR_SCM_BADNUMCERTS : Z := -93.
Definition ERR_SCM_BADDATES : Z := -94.
Definition ERR_SCM_BADALG : Z := -95.
Definition ERR_SCM_HASCRL : Z := -118.
Definition ERR_SCM_BADHASHALG : Z := -120.
Definition ERR_SCM_BADNUMDALG : Z := -121.
Definition ERR_SCM_NUMSIGINFO : Z := -122.
Definition ERR_SCM_SIGINFOVER : Z := -123.
Definition ERR_SCM_SIGINFOSID : Z := -124.
Definition ERR_SCM_SIGINFOTIM : Z := -125.
Definition ERR_SCM_BADCMSVER : Z := -126.
Definition ERR_SCM_BADMSGDIGEST : Z := -127.
Definition ERR_SCM_BADSIGATTRS : Z := -128.
Definition ERR_SCM_BADCONTTYPE : Z := -129.
Definition ERR_SCM_BINSIGTIME : Z := -130.
Definition ERR_SCM_BADSIGALG : Z := -131.
Definition ERR_SCM_BADROAVER : Z := -132.
Definition ERR_SCM_BADMANVER : Z := -133.
Definition ERR_SCM_ROAIPMISMATCH : Z := -138.
Definition ERR_SCM_BADMFTHASH : Z := -140.
Definition ERR_SCM_BADDIGEST : Z := -141.
Definition ERR_SCM_BADMFTFILENAME : Z := -146.
Definition ERR_SCM_BADMFTNUM : Z := -150.
Definition ERR_SCM_MFTDUPFILE : Z := -151.
Definition ERR_SCM_NOIPEXT : Z := -156.
Definition ERR_SCM_NOTINHERIT : Z := -158.
Definition ERR_SCM_INVALSATTR : Z := -161.

(** ** Object identifiers, in the dotted form of the generated headers *)

Definition id_subjectKeyIdentifier := oid_text 2 5 [29; 14].
Definition id_basicConstraints := oid_text 2 5 [29; 19].
Definition id_pe_ipAddrBlock := oid_text 1 3 [6; 1; 5; 5; 7; 1; 7].
Definition id_pe_autonomousSysNum := oid_text 1 3 [6; 1; 5; 5; 7; 1; 8].
Definition id_sha256 := oid_text 2 16 [840; 1; 101; 3; 4; 2; 1].
Definition id_rsadsi_rsaEncryption := oid_text 1 2 [840; 113549; 1; 1; 1].
Definition id_sha_256WithRSAEncryption := oid_text 1 2 [840; 113549; 1; 1; 11].
Definition id_contentTypeAttr := oid_text 1 2 [840; 113549; 1; 9; 3].
Definition id_messageDigestAttr := oid_text 1 2 [840; 113549; 1; 9; 4].
Definition id_signingTimeAttr := oid_text 1 2 [840; 113549; 1; 9; 5].
Definition id_binSigningTimeAttr := oid_text 1 2 [840; 113549; 1; 9; 16; 2; 46].
Definition id_routeOriginAttestation := oid_text 1 2 [840; 113549; 1; 9; 16; 1; 24].
Definition id_roa_pki_manifest := oid_text 1 2 [840; 113549; 1; 9; 16; 1; 26].

(** ** Resources of a certificate ([extensions.asn]) *)

Inductive IPAddressOrRangeA :=
  | addressPrefix (p : list Z)
  | addressRange (min max : list Z).

Inductive IPAddressChoiceA :=
  | inherit
  | addressesOrRanges (l : list IPAddressOrRangeA).

Record IPAddressFamilyA := {
  cert_addressFamily : list Z;
  ipAddressChoice : IPAddressChoiceA }.

(** AS numbers and ranges as their content bytes. *)
Inductive ASNumberOrRangeA := as_num (n : list Z) | as_range (min max : list Z).
Inductive ASIdentifierChoiceA := as_inherit | asNumbersOrRanges (l : list ASNumberOrRangeA).

Record ASNum := {
  asnum : option ASIdentifierChoiceA;
  rdi : option ASIdentifierChoiceA }.

(** Of a GeneralName, the alternative [url] or another one. *)
Inductive GeneralName := url (s : list Z) | gn_other.
Record AccessDescription := { accessMethod : list Z; accessLocation : GeneralName }.

Inductive extn_value :=
  | extn_ski (subjectKeyIdentifier : list Z)
  | extn_basicConstraints (cA : bool)
  | extn_ipAddressBlock (l : list IPAddressFamilyA)
  | extn_autonomousSysNum (a : ASNum)
  | extn_subjectInfoAccess (l : list AccessDescription)
  | extn_authKeyId (keyIdentifier : option (list Z))
  | extn_other.

(** [critical BOOLEAN DEFAULT FALSE] as its content, when it is there. *)
Record Extension := {
  extnID : list Z;
  extn_critical : option (list Z);
  extnValue : extn_value }.

(** A member of the value that is not the chosen one is empty. *)
Definition ipAddressBlock (e : Extension) : list IPAddressFamilyA :=
  match extnValue e with extn_ipAddressBlock l => l | _ => [] end.
Definition autonomousSysNum (e : Extension) : ASNum :=
  match extnValue e with
  | extn_autonomousSysNum a => a
  | _ => {| asnum := None; rdi := None |}
  end.
Definition subjectKeyIdentifier (e : Extension) : option (list Z) :=
  match extnValue e with extn_ski k => Some k | _ => None end.
Definition subjectInfoAccess (e : Extension) : list AccessDescription :=
  match extnValue e with extn_subjectInfoAccess l => l | _ => [] end.
Definition authKeyId (e : Extension) : option (list Z) :=
  match extnValue e with extn_authKeyId k => k | _ => None end.
Definition bc_cA (e : Extension) : bool :=
  match extnValue e with extn_basicConstraints b => b | _ => false end.

(** ** Certificates ([certificate.asn]) *)

(** The value of an attribute, if it is a [printableString]. *)
Record AttributeValueAssertion := { ava_objid : list Z; ava_printable : option (list Z) }.
(** A sequence of sets. *)
Definition RDNSequence := list (list AttributeValueAssertion).

Record RSAPubKey := { rsa_modulus : list Z; rsa_exponent : casn_num }.

(** [rsaPubKey] is the key that [subjectPublicKey] decodes to after its first
    byte, if it does; [cert_indef_lth] is the flag of an indefinite length. *)
Record Certificate := {
  cert_version : casn_num;
  tbs_serialNumber : list Z;
  tbs_issuer : RDNSequence;
  tbs_subject : RDNSequence;
  spki_algorithm : list Z;
  rsaPubKey : option RSAPubKey;
  tbs_issuerUniqueID : option (list Z);
  tbs_subjectUniqueID : option (list Z);
  tbs_signature : list Z;
  cert_algorithm : list Z;
  cert_signature : list Z;
  cert_indef_lth : bool;
  notBefore : time_choice;
  notAfter : time_choice;
  subjectPublicKey : list Z;
  extensions : list Extension }.

(** ** ROAs and manifests ([roa.asn], [manifest.asn]) *)

Record ROAIPAddress := { address : list Z; maxLength : option (list Z) }.
Record ROAIPAddressFamily := {
  roa_addressFamily : list Z;
  addresses : list ROAIPAddress }.
Record RouteOriginAttestation := {
  roa_version : casn_num;
  asID : casn_num;
  ipAddrBlocks : list ROAIPAddressFamily }.

Record FileAndHash := { fah_file : list Z; fah_hash : list Z }.
Record Manifest := {
  mft_version : casn_num;
  manifestNumber : list Z;
  thisUpdate : casn_time;
  nextUpdate : casn_time;
  fileHashAlg : list Z;
  fileList : list FileAndHash }.

(** ** CMS ([cms.asn]) *)

Inductive attr_value :=
  | av_contentType (oid : list Z)
  | av_messageDigest (d : list Z)
  | av_signingTime (t : time_choice)
  | av_other.
Record Attribute := { attrType : list Z; attrValues : list attr_value }.

Record SignerInfo := {
  si_version : casn_num;
  si_ski : option (list Z);
  si_digestAlgorithm : list Z;
  signedAttrs : list Attribute;
  signatureAlgorithm : list Z;
  si_signature : list Z;
  has_unsignedAttrs : bool }.

Inductive eContent := EROA (r : RouteOriginAttestation) | EManifest (m : Manifest)
  | EGhostbusters (content : list Z) | EOther.

Record CMS := {
  sd_version : casn_num;
  digestAlgorithms : list (list Z);
  eContentType : list Z;
  eContent_bytes : list Z;
  econtent : eContent;
  certificates : list Certificate;
  has_crls : bool;
  signerInfos : list SignerInfo }.

(** ** Extensions *)

(** The first element with a property whose test may be undefined. *)
Fixpoint find_first {A} (p : A -> option bool) (l : list A) : option (option A) :=
  match l with
  | [] => Some None
  | x :: l => b ← p x; if b : bool then Some (Some x) else find_first p l
  end.

(** [!diff_objid(oid, text)] *)
Definition same_objid (oid text : list Z) : option bool :=
  d ← diff_objid oid text; Some (d =? 0).

Definition find_extension (exts : list Extension) (oid : list Z) : option (option Extension) :=
  find_first (fun e => same_objid (extnID e) oid) exts.

Definition is_inherit (f : IPAddressFamilyA) : bool :=
  match ipAddressChoice f with inherit => true | _ => false end.
Definition as_non_inherit (c : option ASIdentifierChoiceA) : bool :=
  match c with Some (asNumbersOrRanges _) => true | _ => false end.

Definition has_non_inherit_resources (cert : Certificate) : option bool :=
  ext ← find_extension (extensions cert) id_pe_ipAddrBlock;
  if existsb (fun f => negb (is_inherit f)) (from_option ipAddressBlock [] ext) then Some true
  else
    ext ← find_extension (extensions cert) id_pe_autonomousSysNum;
    match ext with
    | Some ext =>
        Some (as_non_inherit (asnum (autonomousSysNum ext)) ||
              as_non_inherit (rdi (autonomousSysNum ext)))
    | None => Some false
    end.

(** ** Lemmas *)

Lemma find_first_spec {A} (p : A -> option bool) l r :
  find_first p l = Some r ->
  match r with
  | Some x => exists l1 l2, l = l1 ++ x :: l2 /\ p x = Some true /\ Forall (fun y => p y = Some false) l1
  | None => Forall (fun y => p y = Some false) l
  end.
Proof.
  induction l as [|x l IH]; intros H; [by injection H as <-|]. simpl in H.
  destruct (p x) as [[|]|] eqn:E; simpl in H; [| |done].
  - injection H as <-. exists [], l. split_and!; [done|done|constructor].
  - specialize (IH H). destruct r as [y|].
    + destruct IH as (l1 & l2 & -> & Hy & H1). exists (x :: l1), l2. split_and!; [done|done|by constructor].
    + by constructor.
Qed.
