(* ===== verification/CmsValidate.v ===== *)
(** * What ROAs and manifests have in common ([src/lib/rpki/cms/roa_validate.c],
      [cmsValidate] and [check_cert])

    The hash functions and the signature check are cryptlib's: [gen_hash] with
    SHA-1 and SHA-256 and the result of [check_sig] are arguments. [None] is
    undefined behaviour. *)

From S2P Require Import Prelude CasnTime CasnNum CasnObjid RpkiObject.

(** [diff_casn] of two objects of the same primitive type: different, or one of
    them empty. *)
Definition diff_bytes (a b : option (list Z)) : bool :=
  match a, b with
  | Some a, Some b => negb (bool_decide (a = b))
  | _, _ => true
  end.

(** An [int] takes the low 32 bits of a [long]. *)
Definition s32 (x : Z) : Z := (x + 2 ^ 31) mod 2 ^ 32 - 2 ^ 31.

(** ** The certificate in the message *)

(** The date, from the alternative that is filled; [None] when it is invalid. *)
Definition getTime (cvd : time_choice) : option Z :=
  match utcTime cvd with
  | None => generalTime cvd ≫= read_casn_time
  | Some t => read_casn_time t
  end.

Section cms.
(** [gen_hash] with each algorithm: [None] when cryptlib fails. *)
Context (sha1 sha256 : list Z -> option (list Z)).

(** The loop over the extensions; [err] is 1 until a subject key identifier was
    found. [tmp] is the length [gen_hash] returned. *)
Fixpoint check_cert_exts (isEE : bool) (khash : option (list Z)) (exts : list Extension) (err : Z)
    : option Z :=
  match exts with
  | [] => Some (if err =? 1 then ERR_SCM_NOSKI else 0)
  | e :: exts =>
      bc ← (if isEE then same_objid (extnID e) id_basicConstraints else Some false);
      if (bc : bool) && bc_cA e then Some ERR_SCM_NOTEE
      else
        ski ← same_objid (extnID e) id_subjectKeyIdentifier;
        if ski : bool then
          if diff_bytes (subjectKeyIdentifier e) khash then Some ERR_SCM_INVALSKI
          else check_cert_exts isEE khash exts 0
        else check_cert_exts isEE khash exts err
  end.

(** The version is read into an [int] through a pointer to [long]; the model
    keeps the 32 bits that the comparison sees. The key is a BIT STRING whose
    first byte is left out of the hash. *)
Definition check_cert (certp : Certificate) (isEE : bool) : option Z :=
  let '(ret, tmp) := read_casn_num (cert_version certp) in
  if ret <? 0 then Some ERR_SCM_BADCERTVERS
  else
    tmp ← tmp;
    if negb (s32 tmp =? 2) then Some ERR_SCM_BADCERTVERS
    else if negb (bool_decide (tbs_signature certp = cert_algorithm certp)) then Some ERR_SCM_BADALG
    else match getTime (notBefore certp), getTime (notAfter certp) with
    | Some lo, Some hi =>
        if hi <? lo then Some ERR_SCM_BADDATES
        else match subjectPublicKey certp with
        | [] => None
        | _ :: key => check_cert_exts isEE (sha1 key) (extensions certp) 1
        end
    | _, _ => Some ERR_SCM_BADDATES
    end.

(** ** Signed attributes *)

(** The attribute that was found so far, or [None] when there is a second one. *)
Fixpoint find_attrs (attrs : list Attribute) (oid : list Z) (found : option Attribute)
    : option (option (option Attribute)) :=
  match attrs with
  | [] => Some (Some found)
  | a :: attrs =>
      same ← same_objid (attrType a) oid;
      if same : bool then
        match found with
        | Some _ => Some None
        | None => find_attrs attrs oid (Some a)
        end
      else find_attrs attrs oid found
  end.

(** The unique attribute with one value, and whether there is any. *)
Definition find_unique_attr (attrs : list Attribute) (oid : list Z)
    : option (option attr_value * bool) :=
  found ← find_attrs attrs oid None;
  Some (match found with
        | None => (None, true)
        | Some None => (None, false)
        | Some (Some a) => match attrValues a with [v] => (Some v, true) | _ => (None, true) end
        end).

Definition attr_contentType (v : attr_value) : option (list Z) :=
  match v with av_contentType o => Some o | _ => None end.
Definition attr_messageDigest (v : attr_value) : list Z :=
  match v with av_messageDigest d => d | _ => [] end.
Definition attr_signingTime (v : attr_value) : time_choice :=
  match v with av_signingTime t => t | _ => {| utcTime := None; generalTime := None |} end.

(** What [read_casn] copies of a time: its DER form. *)
Definition read_casn_time_der (t : option casn_time) : option (list Z) :=
  t ← t;
  secs ← read_casn_time t;
  match write_casn_time (time_ty t) secs with WOk c => Some c | _ => None end.

(** The format of the signing time: [Some true] when it is refused; [None] when
    the buffer that is tested was not filled. *)
Definition bad_signing_time (t : time_choice) : option bool :=
  let usize := vsize_opt_time (utcTime t) in
  if 15 <? usize then Some true
  else if 17 <? vsize_opt_time (generalTime t) then Some true
  else if 0 <? usize then
    loctime ← read_casn_time_der (utcTime t);
    Some ((hd 0 loctime <=? 55) && (53 <=? hd 0 loctime))
  else
    loctime ← read_casn_time_der (generalTime t);
    Some (memcmp 4 loctime [50; 48; 53; 48] <? 0).

(** No attribute but the four that are allowed. *)
Fixpoint attrs_allowed (attrs : list Attribute) : option bool :=
  match attrs with
  | [] => Some true
  | a :: attrs =>
      b1 ← same_objid (attrType a) id_contentTypeAttr;
      b2 ← (if b1 : bool then Some true else same_objid (attrType a) id_messageDigestAttr);
      b3 ← (if b2 : bool then Some true else same_objid (attrType a) id_signingTimeAttr);
      b4 ← (if b3 : bool then Some true else same_objid (attrType a) id_binSigningTimeAttr);
      if b4 : bool then attrs_allowed attrs else Some false
  end.

(** ** The message *)

Definition cms_attrs (rp : CMS) (sigInfo : SignerInfo) : option Z :=
  '(attr, _) ← find_unique_attr (signedAttrs sigInfo) id_contentTypeAttr;
  if diff_bytes (attr ≫= attr_contentType) (Some (eContentType rp)) then Some ERR_SCM_BADCONTTYPE
  else
    '(attr, _) ← find_unique_attr (signedAttrs sigInfo) id_messageDigestAttr;
    let digest := from_option attr_messageDigest [] attr in
    if negb (length digest =? 32)%nat then Some ERR_SCM_BADMSGDIGEST
    else
      '(attr, found_any) ← find_unique_attr (signedAttrs sigInfo) id_signingTimeAttr;
      bad ← match attr with
            | Some v => bad_signing_time (attr_signingTime v)
            | None => Some found_any
            end;
      if bad : bool then Some ERR_SCM_SIGINFOTIM
      else
        '(attr, found_any) ← find_unique_attr (signedAttrs sigInfo) id_binSigningTimeAttr;
        if bool_decide (attr = None) && found_any then Some ERR_SCM_BINSIGTIME
        else if negb (bool_decide (sha256 (eContent_bytes rp) = Some digest)) then Some ERR_SCM_BADDIGEST
        else
          allowed ← attrs_allowed (signedAttrs sigInfo);
          Some (if allowed : bool then 0 else ERR_SCM_INVALSATTR).

(** After the attributes: the certificate, the signature and the rest of the
    signer's fields. *)
Definition cms_signer (check_sig : CMS -> Certificate -> Z) (rp : CMS) (sigInfo : SignerInfo)
    (certp : Certificate) : option Z :=
  ret ← check_cert certp true;
  if ret <? 0 then Some ret
  else
    let ret := check_sig rp certp in
    if negb (ret =? 0) then Some ret
    else
      ext ← find_extension (extensions certp) id_subjectKeyIdentifier;
      if diff_bytes (ext ≫= subjectKeyIdentifier) (si_ski sigInfo) then Some ERR_SCM_SIGINFOSID
      else if has_crls rp then Some ERR_SCM_HASCRL
      else
        same ← same_objid (si_digestAlgorithm sigInfo) id_sha256;
        if negb same then Some ERR_SCM_BADDA
        else if has_unsignedAttrs sigInfo then Some ERR_SCM_UNSIGATTR
        else
          rsa ← same_objid (signatureAlgorithm sigInfo) id_rsadsi_rsaEncryption;
          sha ← (if rsa : bool then Some true
                 else same_objid (signatureAlgorithm sigInfo) id_sha_256WithRSAEncryption);
          if negb sha then Some ERR_SCM_BADSIGALG
          else if negb (from_option length 0%nat (si_ski sigInfo) =? 20)%nat then Some ERR_SCM_INVALSKI
          else Some 0.

Definition cmsValidate (check_sig : CMS -> Certificate -> Z) (rp : CMS) : option Z :=
  d ← diff_casn_num (sd_version rp) 3;
  if negb (d =? 0) then Some ERR_SCM_BADCMSVER
  else match digestAlgorithms rp with
  | [alg] =>
      same ← same_objid alg id_sha256;
      if negb same then Some ERR_SCM_BADDA
      else match certificates rp with
      | [certp] =>
          match signerInfos rp with
          | [sigInfo] =>
              d ← diff_casn_num (si_version sigInfo) 3;
              if negb (d =? 0) then Some ERR_SCM_SIGINFOVER
              else if bool_decide (si_ski sigInfo = None) then Some ERR_SCM_SIGINFOSID
              else
                same ← same_objid (si_digestAlgorithm sigInfo) id_sha256;
                if negb same then Some ERR_SCM_BADHASHALG
                else if bool_decide (length (signedAttrs sigInfo) = 0)%nat then Some ERR_SCM_BADSIGATTRS
                else
                  ret ← cms_attrs rp sigInfo;
                  if ret <? 0 then Some ret else cms_signer check_sig rp sigInfo certp
          | _ => Some ERR_SCM_NUMSIGINFO
          end
      | _ => Some ERR_SCM_BADNUMCERTS
      end
  | _ => Some ERR_SCM_BADNUMDALG
  end.
End cms.
