(* ===== verification/CmsThm.v ===== *)
(** * What an accepted CMS message guarantees *)

From S2P Require Import Prelude CasnTime CasnNum CasnObjid RpkiObject CmsValidate.

(** Peel one test off a hypothesis that says that a check returned a value that
    is not negative. *)
Ltac peel H :=
  match type of H with
  | (?m ≫= _) = Some _ =>
      let E := fresh "E" in destruct m eqn:E; cbn [mbind option_bind] in H; [|discriminate H]
  | (if ?b then Some ?e else _) = Some _ =>
      let E := fresh "E" in
      destruct b eqn:E;
        [exfalso; injection H as <-;
         match goal with Hr : 0 <= _ |- _ => vm_compute in Hr; by apply Hr end|]
  end.

Section cms.
Context (sha1 sha256 : list Z -> option (list Z)) (check_sig : CMS -> Certificate -> Z).
(** [check_sig] returns 0 or an error code. *)
Context (check_sig_neg : forall rp certp, check_sig rp certp <= 0).

Lemma diff_bytes_false a b : diff_bytes a b = false -> exists x, a = Some x /\ b = Some x.
Proof.
  destruct a as [a|], b as [b|]; simpl; try done. intros H. apply negb_false_iff in H.
  apply bool_decide_eq_true in H as ->. by exists b.
Qed.

(** Attributes: at most one with the identifier, and it has one value. *)
Definition unique_attr (attrs : list Attribute) (oid : list Z) (v : attr_value) : Prop :=
  exists l1 a l2, attrs = l1 ++ a :: l2 /\ attrValues a = [v] /\
    same_objid (attrType a) oid = Some true /\
    Forall (fun b => same_objid (attrType b) oid = Some false) (l1 ++ l2).

Lemma find_attrs_found attrs oid a r :
  find_attrs attrs oid (Some a) = Some (Some r) ->
  r = Some a /\ Forall (fun b => same_objid (attrType b) oid = Some false) attrs.
Proof.
  induction attrs as [|b attrs IH]; intros H; cbn [find_attrs] in H; [by injection H as <-|].
  destruct (same_objid (attrType b) oid) as [[|]|] eqn:E; cbn [mbind option_bind] in H; try done.
  destruct (IH H) as [-> Hf]. split; [done|by constructor].
Qed.

Lemma find_unique_attr_spec attrs oid v any :
  find_unique_attr attrs oid = Some (Some v, any) -> unique_attr attrs oid v.
Proof.
  unfold find_unique_attr. destruct (find_attrs attrs oid None) as [found|] eqn:E;
    cbn [mbind option_bind]; [|done].
  destruct found as [[a|]|]; try done. destruct (attrValues a) as [|v' [|? ?]] eqn:Ea; try done.
  intros [= -> _]. assert (H : exists l1 l2, attrs = l1 ++ a :: l2 /\
    same_objid (attrType a) oid = Some true /\
    Forall (fun b => same_objid (attrType b) oid = Some false) (l1 ++ l2)).
  { clear Ea. induction attrs as [|b attrs IH]; cbn [find_attrs] in E; [done|].
    destruct (same_objid (attrType b) oid) as [[|]|] eqn:Eb; cbn [mbind option_bind] in E; try done.
    - apply find_attrs_found in E as [[= ->] Hf]. exists [], attrs. done.
    - destruct (IH E) as (l1 & l2 & -> & Ha & Hf). exists (b :: l1), l2.
      split_and!; [done|done|by constructor]. }
  destruct H as (l1 & l2 & -> & Ha & Hf). by exists l1, a, l2.
Qed.

Lemma find_attrs_none attrs oid found : find_attrs attrs oid found = Some (Some None) ->
  Forall (fun b => same_objid (attrType b) oid = Some false) attrs.
Proof.
  revert found. induction attrs as [|b attrs IH]; intros found H; cbn [find_attrs] in H; [constructor|].
  destruct (same_objid (attrType b) oid) as [[|]|] eqn:E; cbn [mbind option_bind] in H; [|by constructor; [|eapply IH]|done].
  destruct found; [done|]. by apply find_attrs_found in H as [? _].
Qed.

Lemma find_unique_attr_none attrs oid : find_unique_attr attrs oid = Some (None, false) ->
  Forall (fun b => same_objid (attrType b) oid = Some false) attrs.
Proof.
  unfold find_unique_attr. destruct (find_attrs attrs oid None) as [found|] eqn:E; cbn [mbind option_bind]; [|done].
  destruct found as [[a|]|]; try done; [destruct (attrValues a) as [|? [|? ?]]; done|]. intros _. by eapply find_attrs_none.
Qed.

(** An attribute that may be left out: not there, or there once with one value. *)
Definition optional_attr (attrs : list Attribute) (oid : list Z) : Prop :=
  Forall (fun b => same_objid (attrType b) oid = Some false) attrs \/ exists v, unique_attr attrs oid v.

Lemma find_optional attrs oid attr any : find_unique_attr attrs oid = Some (attr, any) ->
  (attr = None -> any = false) -> optional_attr attrs oid.
Proof.
  intros H Hn. destruct attr as [v|]; [right; exists v; by eapply find_unique_attr_spec|].
  rewrite (Hn eq_refl) in H. left. by apply find_unique_attr_none.
Qed.

(** The four types of attributes. *)
Definition allowed_attr (a : Attribute) : Prop :=
  exists oid, oid ∈ [id_contentTypeAttr; id_messageDigestAttr; id_signingTimeAttr; id_binSigningTimeAttr] /\
    same_objid (attrType a) oid = Some true.

Lemma attrs_allowed_spec attrs : attrs_allowed attrs = Some true -> Forall allowed_attr attrs.
Proof.
  assert (Hin : forall a oid, same_objid (attrType a) oid = Some true ->
    oid ∈ [id_contentTypeAttr; id_messageDigestAttr; id_signingTimeAttr; id_binSigningTimeAttr] -> allowed_attr a)
    by (intros a oid ? ?; by exists oid).
  induction attrs as [|a attrs IH]; intros H; cbn [attrs_allowed] in H; [constructor|].
  destruct (same_objid (attrType a) id_contentTypeAttr) as [b1|] eqn:E1; cbn [mbind option_bind] in H; [|done].
  destruct (if b1 then _ else _) as [b2|] eqn:E2; cbn [mbind option_bind] in H; [|done].
  destruct (if b2 then _ else _) as [b3|] eqn:E3; cbn [mbind option_bind] in H; [|done].
  destruct (if b3 then _ else _) as [b4|] eqn:E4; cbn [mbind option_bind] in H; [|done].
  destruct b4; [|done]. constructor; [|by apply IH]. setoid_rewrite elem_of_cons in Hin.
  destruct b1; [by eapply Hin; [apply E1|left]|]. destruct b2; [by eapply Hin; [apply E2|right; left]|].
  destruct b3; [eapply Hin; [apply E3|]|eapply Hin; [apply E4|]]; rewrite !elem_of_cons; auto.
Qed.

(** The certificate: version 3, dates in order, not a CA, and a subject key
    identifier that is the hash of its key. *)
Record cert_ok (certp : Certificate) : Prop := {
  co_version : exists n v, read_casn_num (cert_version certp) = (n, Some v) /\ s32 v = 2;
  co_dates : exists lo hi, getTime (notBefore certp) = Some lo /\ getTime (notAfter certp) = Some hi /\
               lo <= hi;
  co_not_ca : forall e, e ∈ extensions certp ->
               same_objid (extnID e) id_basicConstraints = Some true -> bc_cA e = false;
  co_ski : exists u key h, subjectPublicKey certp = u :: key /\ sha1 key = Some h /\
             (exists e, e ∈ extensions certp /\ same_objid (extnID e) id_subjectKeyIdentifier = Some true) /\
             forall e, e ∈ extensions certp ->
               same_objid (extnID e) id_subjectKeyIdentifier = Some true ->
               subjectKeyIdentifier e = Some h }.

Lemma check_cert_exts_spec khash exts err r :
  check_cert_exts true khash exts err = Some r -> 0 <= r ->
  (forall e, e ∈ exts -> same_objid (extnID e) id_basicConstraints = Some true -> bc_cA e = false) /\
  (forall e, e ∈ exts -> same_objid (extnID e) id_subjectKeyIdentifier = Some true ->
     exists h, khash = Some h /\ subjectKeyIdentifier e = Some h) /\
  (err = 1 -> exists e, e ∈ exts /\ same_objid (extnID e) id_subjectKeyIdentifier = Some true).
Proof.
  intros H Hr. revert err H. induction exts as [|e exts IH]; intros err H.
  - split_and!; [intros e He; by apply elem_of_nil in He.. |]. intros ->. exfalso.
    injection H as <-. vm_compute in Hr. by apply Hr.
  - cbn [check_cert_exts] in H.
    destruct (same_objid (extnID e) id_basicConstraints) as [bc|] eqn:Ebc; cbn [mbind option_bind] in H; [|done].
    peel H. apply andb_false_iff in E as E1.
    destruct (same_objid (extnID e) id_subjectKeyIdentifier) as [ski|] eqn:Eski; cbn [mbind option_bind] in H; [|done].
    assert (Hbc : same_objid (extnID e) id_basicConstraints = Some true -> bc_cA e = false).
    { rewrite Ebc. intros [= ->]. by destruct E1. }
    destruct ski.
    + peel H. apply diff_bytes_false in E0 as (h & Hh & Hk).
      destruct (IH 0 H) as (H1 & H2 & _). split_and!.
      * intros e' He'. apply elem_of_cons in He' as [->|He']; [done|by apply H1].
      * intros e' He'. apply elem_of_cons in He' as [->|He']; [by exists h|by apply H2].
      * intros _. exists e. split; [left|done].
    + destruct (IH err H) as (H1 & H2 & H3). split_and!.
      * intros e' He'. apply elem_of_cons in He' as [->|He']; [done|by apply H1].
      * intros e' He'. apply elem_of_cons in He' as [->|He']; [congruence|by apply H2].
      * intros Herr. destruct (H3 Herr) as (e' & He' & Hs). exists e'. split; [by right|done].
Qed.

Lemma check_cert_spec certp r : check_cert sha1 certp true = Some r -> 0 <= r -> cert_ok certp.
Proof.
  unfold check_cert. intros H Hr.
  destruct (read_casn_num (cert_version certp)) as [ret tmp] eqn:En. peel H.
  destruct tmp as [v|]; cbn [mbind option_bind] in H; [|done]. peel H.
  apply negb_false_iff in E0. apply Z.eqb_eq in E0. peel H.
  destruct (getTime (notBefore certp)) as [lo|] eqn:El; [|by exfalso; injection H as <-; vm_compute in Hr; apply Hr].
  destruct (getTime (notAfter certp)) as [hi|] eqn:Eh; [|by exfalso; injection H as <-; vm_compute in Hr; apply Hr].
  peel H. apply Z.ltb_ge in E2. destruct (subjectPublicKey certp) as [|u key] eqn:Ek; [done|].
  destruct (check_cert_exts_spec _ _ _ _ H Hr) as (H1 & H2 & H3).
  destruct (H3 eq_refl) as (e & He & Hs). destruct (H2 e He Hs) as (h & Hh & _).
  constructor; [by exists ret, v|by exists lo, hi|done|]. exists u, key, h. split_and!; [done|done|by exists e|].
  intros e' He' Hs'. destruct (H2 e' He' Hs') as (h' & Hh' & Hski). congruence.
Qed.

(** The message as a whole. *)
Record cms_ok (rp : CMS) (certp : Certificate) (si : SignerInfo) : Prop := {
  ck_certs : certificates rp = [certp];
  ck_signers : signerInfos rp = [si];
  ck_cert : cert_ok certp;
  ck_type : exists v, unique_attr (signedAttrs si) id_contentTypeAttr v /\
              attr_contentType v = Some (eContentType rp);
  ck_digest : exists v, unique_attr (signedAttrs si) id_messageDigestAttr v /\
                sha256 (eContent_bytes rp) = Some (attr_messageDigest v) /\
                length (attr_messageDigest v) = 32%nat;
  ck_times : optional_attr (signedAttrs si) id_signingTimeAttr /\ optional_attr (signedAttrs si) id_binSigningTimeAttr;
  ck_attrs : Forall allowed_attr (signedAttrs si);
  ck_sig : check_sig rp certp = 0;
  ck_ski : exists ext k, find_extension (extensions certp) id_subjectKeyIdentifier = Some (Some ext) /\
             subjectKeyIdentifier ext = Some k /\ si_ski si = Some k /\ length k = 20%nat;
  ck_rest : has_crls rp = false /\ has_unsignedAttrs si = false }.

Lemma cms_attrs_spec rp si r :
  cms_attrs sha256 rp si = Some r -> 0 <= r ->
  (exists v, unique_attr (signedAttrs si) id_contentTypeAttr v /\
     attr_contentType v = Some (eContentType rp)) /\
  (exists v, unique_attr (signedAttrs si) id_messageDigestAttr v /\
     sha256 (eContent_bytes rp) = Some (attr_messageDigest v) /\ length (attr_messageDigest v) = 32%nat) /\
  (optional_attr (signedAttrs si) id_signingTimeAttr /\ optional_attr (signedAttrs si) id_binSigningTimeAttr) /\
  Forall allowed_attr (signedAttrs si).
Proof.
  unfold cms_attrs. intros H Hr. peel H. destruct p as [attr any].
  peel H. apply diff_bytes_false in E0 as (o & Ho & [= <-]).
  destruct attr as [v|]; [|done]. apply find_unique_attr_spec in E.
  split; [by exists v|]. clear v E Ho any.
  peel H. destruct p as [attr any]. cbv zeta in H. peel H.
  apply negb_false_iff in E0. apply Nat.eqb_eq in E0.
  destruct attr as [v|]; [|done]. simpl in E0. apply find_unique_attr_spec in E.
  peel H. destruct p as [attr2 any2]. peel H. peel H. peel H. destruct p as [attr3 any3]. peel H. peel H.
  apply negb_false_iff in E6. apply bool_decide_eq_true in E6. split; [by exists v|]. peel H. split; [split|].
  - eapply find_optional; [done|]. intros ->. by injection E2.
  - eapply find_optional; [done|]. intros ->. by destruct any3.
  - apply attrs_allowed_spec. destruct b0; [done|]. exfalso. injection H as <-. vm_compute in Hr. by apply Hr.
Qed.

Lemma cms_signer_spec rp si certp r :
  cms_signer sha1 check_sig rp si certp = Some r -> 0 <= r ->
  cert_ok certp /\ check_sig rp certp = 0 /\
  (exists ext k, find_extension (extensions certp) id_subjectKeyIdentifier = Some (Some ext) /\
     subjectKeyIdentifier ext = Some k /\ si_ski si = Some k /\ length k = 20%nat) /\
  has_crls rp = false /\ has_unsignedAttrs si = false.
Proof.
  unfold cms_signer. intros H Hr. peel H.
  destruct (Z.ltb_spec z 0) as [|Hz]; [injection H as ->; lia|].
  apply check_cert_spec in E; [|done]. cbv zeta in H.
  destruct (Z.eqb_spec (check_sig rp certp) 0) as [Hs|Hs]; cbn [negb] in H.
  2:{ injection H as <-. pose proof (check_sig_neg rp certp). lia. }
  peel H. peel H. apply diff_bytes_false in E1 as (k & Hk & Hsi).
  destruct o as [ext|]; [|done]. simpl in Hk. peel H. peel H. peel H. peel H. peel H. peel H. peel H. peel H.
  apply negb_false_iff, Nat.eqb_eq in E8. rewrite Hsi in E8. simpl in E8.
  split_and!; try done. by exists ext, k.
Qed.

(** C23: a message that [cmsValidate] accepts has one certificate and one signer;
    the certificate is an EE certificate in order whose identifier is the hash of
    its key and is the signer's; the signature verifies; the only attribute for
    the digest is the SHA-256 hash of the content and the only one for the content
    type is that of the message; a signing time and a binary signing time are there
    at most once each, and there is no other signed attribute; no CRLs and no unsigned
    attributes. *)
Theorem cmsValidate_sound rp r :
  cmsValidate sha1 sha256 check_sig rp = Some r -> 0 <= r ->
  exists certp si, cms_ok rp certp si.
Proof.
  unfold cmsValidate. intros H Hr. peel H. peel H.
  destruct (digestAlgorithms rp) as [|alg [|? ?]]; try (exfalso; injection H as <-; vm_compute in Hr; by apply Hr).
  peel H. peel H.
  destruct (certificates rp) as [|certp [|? ?]] eqn:Ec;
    try (exfalso; injection H as <-; vm_compute in Hr; by apply Hr).
  destruct (signerInfos rp) as [|si [|? ?]] eqn:Es;
    try (exfalso; injection H as <-; vm_compute in Hr; by apply Hr).
  peel H. peel H. peel H. peel H. peel H. peel H. peel H.
  destruct (Z.ltb_spec z1 0); [injection H as ->; lia|].
  apply cms_attrs_spec in E9 as (Htype & Hdig & Htimes & Hall); [|done].
  apply cms_signer_spec in H as (Hcert & Hsig & Hski & Hcrl & Hun); [|done].
  by exists certp, si.
Qed.
End cms.

(** ** A message that is accepted *)

Definition sample_sha1 (l : list Z) : option (list Z) := Some (take 20 (l ++ replicate 20 0)).
Definition sample_sha256 (l : list Z) : option (list Z) := Some (take 32 (l ++ replicate 32 0)).
Definition sample_num (dfl : bool) (c : option (list Z)) : casn_num :=
  {| num_ty := ASN_INTEGER; num_optional := dfl; num_default := dfl; num_content := c |}.
Definition sample_utc (y : Z) : time_choice :=
  {| utcTime := Some {| time_ty := ASN_UTCTIME;
                        time_content := utc_bytes (mkCivil y 1 1 0 0 0) Zulu |};
     generalTime := None |}.
Definition sample_key : list Z := [0; 1; 2; 3].
Definition sample_ski : list Z := take 20 ([1; 2; 3] ++ replicate 20 0).

Definition sample_cert (resources : extn_value) : Certificate :=
  {| cert_version := sample_num true (Some [2]);
     tbs_serialNumber := [1]; tbs_issuer := []; tbs_subject := []; spki_algorithm := []; rsaPubKey := None;
     tbs_issuerUniqueID := None; tbs_subjectUniqueID := None;
     tbs_signature := oid_bytes 1 2 [840; 113549; 1; 1; 11];
     cert_algorithm := oid_bytes 1 2 [840; 113549; 1; 1; 11]; cert_signature := [0]; cert_indef_lth := false;
     notBefore := sample_utc 2014; notAfter := sample_utc 2020;
     subjectPublicKey := sample_key;
     extensions :=
       [{| extnID := oid_bytes 2 5 [29; 14]; extn_critical := None; extnValue := extn_ski sample_ski |};
        {| extnID := oid_bytes 1 3 [6; 1; 5; 5; 7; 1; 7]; extn_critical := Some [255]; extnValue := resources |}] |}.

Definition sample_cms (oid content : list Z) (e : eContent) (resources : extn_value) : CMS :=
  let sha256_oid := oid_bytes 2 16 [840; 1; 101; 3; 4; 2; 1] in
  {| sd_version := sample_num false (Some [3]);
     digestAlgorithms := [sha256_oid]; eContentType := oid; eContent_bytes := content; econtent := e;
     certificates := [sample_cert resources]; has_crls := false;
     signerInfos :=
       [{| si_version := sample_num false (Some [3]); si_ski := Some sample_ski;
           si_digestAlgorithm := sha256_oid;
           signedAttrs :=
             [{| attrType := oid_bytes 1 2 [840; 113549; 1; 9; 3]; attrValues := [av_contentType oid] |};
              {| attrType := oid_bytes 1 2 [840; 113549; 1; 9; 4];
                 attrValues := [av_messageDigest (take 32 (content ++ replicate 32 0))] |};
              {| attrType := oid_bytes 1 2 [840; 113549; 1; 9; 5];
                 attrValues := [av_signingTime (sample_utc 2015)] |}];
           signatureAlgorithm := oid_bytes 1 2 [840; 113549; 1; 1; 1]; si_signature := [];
           has_unsignedAttrs := false |}] |}.

Lemma cmsValidate_sound_witness :
  exists certp si, cms_ok sample_sha1 sample_sha256 (fun _ _ => 0)
    (sample_cms (oid_bytes 1 2 [840; 113549; 1; 9; 16; 1; 24]) [1; 2] EOther extn_other) certp si.
Proof.
  apply (cmsValidate_sound sample_sha1 sample_sha256 (fun _ _ => 0) ltac:(intros; apply Z.le_refl) _ 0).
  - vm_compute. reflexivity.
  - apply Z.le_refl.
Defined.
