(* ===== verification/RoaValidate.v ===== *)
(** * ROA validation ([src/lib/rpki/cms/roa_validate.c]) and the prefixes that
      go to the database ([roaGetPrefixes] of [roa_general.c])

    [None] is undefined behaviour: an access outside of a buffer, a shift by
    more than the width, or the use of a variable without a value. *)

From stdpp Require Import sorting.
From S2P Require Import Prelude CasnTime CasnNum CasnObjid RpkiObject CmsValidate.

Definition MINMAXBUFSIZE : nat := 20.

(** ** Bit strings in the 20-byte buffers of [validateIPContents] *)

(** [encode_casn] of a BIT STRING with less than 128 bytes of content, at the
    start of a buffer. *)
Definition encode_bits (content buf : list Z) : list Z :=
  blit 0 (3 :: Z.of_nat (length content) :: content) buf.

Definition fill_max (max : list Z) : option (list Z) :=
  lth ← max !! 1%nat;
  unused ← max !! 2%nat;
  if 30 <? unused then None
  else
    x ← max !! Z.to_nat (lth + 1);
    Some (<[Z.to_nat (lth + 1) := u8 (Z.lor x (Z.shiftl 1 unused - 1))]> max).

Definition zero_third (buf : list Z) : list Z := <[2%nat := 0]> buf.

(** The largest encoding of an address of the family; [None] for another. *)
Definition family_size (fam : Z) : option Z :=
  if fam =? 1 then Some 7 else if fam =? 2 then Some 19 else None.

(** [size_casn] of a filled BIT STRING of less than 128 bytes. *)
Definition size_bits (content : list Z) : Z := Z.of_nat (length content) + 2.

Definition minmax (lo hi : list Z) : option (list Z * list Z) :=
  let cmin := encode_bits lo (replicate MINMAXBUFSIZE 0) in
  cmax ← fill_max (encode_bits hi (replicate MINMAXBUFSIZE 0xFF));
  Some (zero_third cmin, zero_third cmax).

(** Either an error code or the two buffers. *)
Definition setup_roa_minmax (ipAddr : list Z) (fam : Z) : option (Z + list Z * list Z) :=
  match family_size fam with
  | None => Some (inl ERR_SCM_INVALFAM)
  | Some size =>
      if size <? size_bits ipAddr then Some (inl ERR_SCM_INVALIPL)
      else inr <$> minmax ipAddr ipAddr
  end.

Definition setup_cert_minmax (range : IPAddressOrRangeA) (fam : Z) : option (Z + list Z * list Z) :=
  match family_size fam with
  | None => Some (inl ERR_SCM_INVALFAM)
  | Some size =>
      match range with
      | addressRange min max =>
          if (size <? size_bits min) || (size <? size_bits max) then Some (inl ERR_SCM_INVALFAM)
          else inr <$> minmax min max
      | addressPrefix p =>
          if size <? size_bits p then Some (inl ERR_SCM_INVALFAM) else inr <$> minmax p p
      end
  end.

(** ** The contents of a ROA *)

Definition maxLength_num (m : option (list Z)) : casn_num :=
  {| num_ty := ASN_INTEGER; num_optional := true; num_default := false; num_content := m |}.

(** The value of [maxLength] is used whether reading it succeeds or not. *)
Definition test_maxLength (roaAddr : ROAIPAddress) (familyMaxLength : Z) : option Z :=
  match maxLength roaAddr with
  | None => Some 0
  | Some m =>
      let lth := Z.of_nat (length (address roaAddr)) in
      addr0 ← address roaAddr !! 0%nat;
      let addrLength := (lth - 1) * 8 - addr0 in
      maxLength ← snd (read_casn_num (maxLength_num (Some m)));
      if maxLength <? addrLength then Some ERR_SCM_INVALIPL
      else if familyMaxLength <? maxLength then Some ERR_SCM_INVALIPL
      else Some 0
  end.

(** One address; [i] is what the caller passes as the family. *)
Definition validate_address (family i : Z) (roaAddr : ROAIPAddress) : option Z :=
  let siz := Z.of_nat (length (address roaAddr)) in
  if ((family =? 1) && (5 <? siz)) || ((family =? 2) && (17 <? siz)) then Some ERR_SCM_INVALIPL
  else
    let familyMaxLength := if family =? 1 then 32 else if family =? 2 then 128 else 0 in
    err ← test_maxLength roaAddr familyMaxLength;
    if err <? 0 then Some err
    else
      mm ← setup_roa_minmax (address roaAddr) i;
      match mm with
      | inl err => Some err
      | inr (rmin, rmax) =>
          Some (if memcmp 17 (drop 3 rmax) (drop 3 rmin) <? 0 then ERR_SCM_INVALIPB else 0)
      end.

Fixpoint validate_addresses (family i : Z) (l : list ROAIPAddress) : option Z :=
  match l with
  | [] => Some 0
  | a :: l =>
      err ← validate_address family i a;
      if err <? 0 then Some err else validate_addresses family i l
  end.

(** The loop over the families; [num] counts them. [read_casn] copies the family
    into 8 bytes; an empty list of addresses makes the code look at an element
    that is not there. *)
Fixpoint validate_families (num : Z) (l : list ROAIPAddressFamily) : option Z :=
  match l with
  | [] => Some 0
  | f :: l =>
      let i := Z.of_nat (length (roa_addressFamily f)) in
      if 8 <? i then None
      else if 2 <? i then Some ERR_SCM_INVALFAM
      else
        rfam0 ← roa_addressFamily f !! 0%nat;
        if negb (rfam0 =? 0) then Some ERR_SCM_INVALFAM
        else
          family ← roa_addressFamily f !! 1%nat;
          if negb (family =? 1) && negb (family =? 2) then Some ERR_SCM_INVALFAM
          else if (num =? 1) && (family =? 1) then Some ERR_SCM_INVALFAM
          else match addresses f with
          | [] => None
          | _ =>
              err ← validate_addresses family i (addresses f);
              if err <? 0 then Some err else validate_families (num + 1) l
          end
  end.

Definition validateIPContents (blocks : list ROAIPAddressFamily) : option Z :=
  let i := Z.of_nat (length blocks) in
  if (i =? 0) || (2 <? i) then Some ERR_SCM_INVALFAM else validate_families 0 blocks.

(** ** Ranges *)

Record certrange := mkRange { lo : list Z; hi : list Z }.
Definition RANGESIZE : nat := 18.

(** [memcpy(to, &locbuf[1], --lth)] and the change of the last byte that was
    copied, for content read into the 18 bytes of [locbuf]. *)
Definition range_copy (content to : list Z) (f : Z -> Z) : option (list Z) :=
  match content with
  | [] => None
  | _ :: data =>
      if (RANGESIZE <? length content)%nat then None
      else match length data with
      | O => None
      | S last =>
          let to := blit 0 data to in
          x ← to !! last;
          Some (<[last := u8 (f x)]> to)
      end
  end.

Definition setuprange (lorange hirange : list Z) : option certrange :=
  let unused_lo := hd 0 lorange in
  lo ← (if 23 <? unused_lo then None
        else range_copy lorange (replicate RANGESIZE 0) (fun x => Z.land x (Z.shiftl 0xFF unused_lo)));
  let unused_hi := hd 0 hirange in
  hi ← (if 8 <? unused_hi then None
        else range_copy hirange (replicate RANGESIZE 0xFF)
               (fun x => Z.lor x (Z.shiftr 0xFF (8 - unused_hi))));
  Some (mkRange lo hi).

Definition certrangecmp (range1 range2 : certrange) : Z :=
  let ret := memcmp RANGESIZE (lo range1) (lo range2) in
  if negb (ret =? 0) then ret else memcmp RANGESIZE (hi range1) (hi range2).

(** [range1] contains [range2]. *)
Definition certrangeContains (range1 range2 : certrange) : bool :=
  (0 <=? memcmp RANGESIZE (lo range2) (lo range1)) &&
  (memcmp RANGESIZE (hi range2) (hi range1) <=? 0).

Definition certrangeBefore (range1 range2 : certrange) : bool :=
  memcmp RANGESIZE (hi range1) (lo range2) <? 0.

(** [qsort] with this comparison: ranges that compare equal are equal, so that
    the sorted array is determined. *)
Definition range_le (range1 range2 : certrange) : Prop := certrangecmp range1 range2 <= 0.
#[global] Instance range_le_dec r1 r2 : Decision (range_le r1 r2).
Proof. unfold range_le. apply _. Defined.
Definition qsort_ranges (l : list certrange) : list certrange := merge_sort range_le l.

Definition entry_range (e : IPAddressOrRangeA) : option certrange :=
  match e with
  | addressRange min max => setuprange min max
  | addressPrefix p => setuprange p p
  end.

(** The [do] loop: the next entry that contains [r] or comes after it.
    [Some None] is the error return. *)
Fixpoint next_entry (entries : list IPAddressOrRangeA) (r : certrange)
    : option (option (certrange * list IPAddressOrRangeA)) :=
  match entries with
  | [] => Some None
  | e :: entries =>
      c ← entry_range e;
      if negb (certrangeContains c r) && negb (certrangeBefore r c)
      then next_entry entries r else Some (Some (c, entries))
  end.

(** The ROA's ranges that are left after those inside of [c]. *)
Fixpoint skip_contained (c : certrange) (rs : list certrange) : list certrange :=
  match rs with
  | r :: rs' => if certrangeContains c r then skip_contained c rs' else rs
  | [] => []
  end.

(** The outer [while]; every round uses an entry. *)
Fixpoint match_ranges (fuel : nat) (entries : list IPAddressOrRangeA) (rs : list certrange)
    : option Z :=
  match fuel, rs with
  | _, [] => Some 0
  | O, _ => None
  | S fuel, r :: _ =>
      next ← next_entry entries r;
      match next with
      | None => Some ERR_SCM_ROAIPMISMATCH
      | Some (c, entries) =>
          if certrangeContains c r then match_ranges fuel entries (skip_contained c rs)
          else Some ERR_SCM_ROAIPMISMATCH
      end
  end.

Definition family_entries (f : IPAddressFamilyA) : list IPAddressOrRangeA :=
  match ipAddressChoice f with addressesOrRanges l => l | inherit => [] end.

(** One ROA family against one family of the certificate. *)
Definition match_family (malloc_ok : bool) (roaFamily : ROAIPAddressFamily)
    (certFamily : IPAddressFamilyA) : option Z :=
  if negb malloc_ok then Some ERR_SCM_NOMEM
  else
    roaRanges ← mapM (fun a => setuprange (address a) (address a)) (addresses roaFamily);
    let entries := family_entries certFamily in
    match_ranges (S (length entries)) entries (qsort_ranges roaRanges).

(** The loop over the certificate's families for one ROA family: the result and
    [matchedCertFamily]. [malloc] says which allocation succeeds. *)
Fixpoint match_families (malloc : nat -> bool) (j : nat) (roaFamily : ROAIPAddressFamily)
    (certFamilies : list IPAddressFamilyA) (matched : bool) : option (Z * bool) :=
  match certFamilies with
  | [] => Some (0, matched)
  | f :: certFamilies =>
      if negb (bool_decide (cert_addressFamily f = roa_addressFamily roaFamily))
      then match_families malloc (S j) roaFamily certFamilies matched
      else
        r ← match_family (malloc j) roaFamily f;
        if r <? 0 then Some (r, true)
        else match_families malloc (S j) roaFamily certFamilies true
  end.

Fixpoint check_roa_families (malloc : nat -> nat -> bool) (i : nat)
    (roaFamilies : list ROAIPAddressFamily) (certFamilies : list IPAddressFamilyA) : option Z :=
  match roaFamilies with
  | [] => Some 0
  | f :: roaFamilies =>
      '(r, matched) ← match_families (malloc i) 0 f certFamilies false;
      if r <? 0 then Some r
      else if negb matched then Some ERR_SCM_ROAIPMISMATCH
      else check_roa_families malloc (S i) roaFamilies certFamilies
  end.

(** Whether the address blocks of the ROA are within the certificate. *)
Definition checkIPAddrs (malloc : nat -> nat -> bool) (certp : Certificate)
    (roaBlocks : list ROAIPAddressFamily) : option Z :=
  ext ← find_extension (extensions certp) id_pe_ipAddrBlock;
  match ext with
  | None => Some ERR_SCM_NOIPEXT
  | Some ext =>
      let certFamilies := ipAddressBlock ext in
      if existsb is_inherit certFamilies then Some ERR_SCM_ROAIPMISMATCH
      else check_roa_families malloc 0 roaBlocks certFamilies
  end.

(** ** The whole ROA *)

(** The fields of a message without a ROA are empty. *)
Definition empty_roa : RouteOriginAttestation :=
  let unfilled dfl := {| num_ty := ASN_INTEGER; num_optional := dfl; num_default := dfl;
                         num_content := None |} in
  {| roa_version := unfilled true; asID := unfilled false; ipAddrBlocks := [] |}.
Definition roa_of (rp : CMS) : RouteOriginAttestation :=
  match econtent rp with EROA r => r | _ => empty_roa end.

Section roa.
Context (sha1 sha256 : list Z -> option (list Z)) (check_sig : CMS -> Certificate -> Z).
Context (malloc : nat -> nat -> bool).

Definition roaValidate (rp : CMS) : option Z :=
  iRes ← cmsValidate sha1 sha256 check_sig rp;
  if iRes <? 0 then Some iRes
  else
    same ← same_objid (eContentType rp) id_routeOriginAttestation;
    if negb same then Some ERR_SCM_BADCT
    else
      let roap := roa_of rp in
      let '(ret, val) := read_casn_num (roa_version roap) in
      if negb (ret =? 0) then Some ERR_SCM_BADROAVER
      else
        val ← val;
        if negb (val =? 0) then Some ERR_SCM_BADROAVER
        else
          let '(ret, iAS_ID) := read_casn_num_max (asID roap) in
          if ret <? 0 then Some ERR_SCM_INVALASID
          else
            iAS_ID ← (if ret =? 0 then Some 0 else iAS_ID);
            if (iAS_ID <? 0) || (0xffffffff <? iAS_ID) then Some ERR_SCM_INVALASID
            else match certificates rp with
            | [] => None
            | certp :: _ =>
                iRes ← validateIPContents (ipAddrBlocks roap);
                if iRes <? 0 then Some iRes
                else
                  iRes ← checkIPAddrs malloc certp (ipAddrBlocks roap);
                  Some (if iRes <? 0 then iRes else 0)
            end.
End roa.

(** ** The prefixes of a ROA *)

Record roa_prefix := {
  prefix_family_length : Z;
  prefix : list Z;
  prefix_length : Z;
  prefix_max_length : Z }.

(** One prefix: the content is read into 17 bytes, and its bytes are copied over
    the zeroes of the family's length. *)
Definition get_prefix (family_length : nat) (a : ROAIPAddress) : option roa_prefix :=
  if (17 <? length (address a))%nat then None
  else match address a with
  | [] => None
  | unused :: data =>
      let len := u8 (Z.of_nat (length data) * 8 - unused) in
      max ← (match maxLength a with
             | None | Some [] => Some len
             | Some m => u8 <$> snd (read_casn_num (maxLength_num (Some m)))
             end);
      Some {| prefix_family_length := Z.of_nat family_length;
              prefix := blit 0 data (replicate family_length 0);
              prefix_length := len; prefix_max_length := max |}
  end.

(** The loop over the addresses of a family. [Some None] is an error return,
    otherwise the array so far and the number of elements allocated. [mem n] says
    whether the array can be made larger when it has [n] elements. *)
Fixpoint family_prefixes (mem : nat -> bool) (family_length : nat) (l : list ROAIPAddress)
    (prefixes : list roa_prefix) (allocated : nat) : option (option (list roa_prefix * nat)) :=
  match l with
  | [] => Some (Some (prefixes, allocated))
  | a :: l =>
      let full := (allocated <=? length prefixes)%nat in
      if full && negb (mem (length prefixes)) then Some None
      else
        let allocated := if full then (allocated * 2)%nat else allocated in
        p ← get_prefix family_length a;
        family_prefixes mem family_length l (prefixes ++ [p]) allocated
  end.

(** The family's bytes are read into four. *)
Fixpoint get_prefixes (mem : nat -> bool) (l : list ROAIPAddressFamily)
    (prefixes : list roa_prefix) (allocated : nat) : option (option (list roa_prefix)) :=
  match l with
  | [] => Some (Some prefixes)
  | f :: l =>
      if (4 <? length (roa_addressFamily f))%nat then None
      else match roa_addressFamily f with
      | a0 :: a1 :: _ =>
          let afi := Z.shiftl a0 8 + a1 in
          match (if afi =? 1 then Some 4%nat else if afi =? 2 then Some 16%nat else None) with
          | None => Some None
          | Some family_length =>
              r ← family_prefixes mem family_length (addresses f) prefixes allocated;
              match r with
              | None => Some None
              | Some (prefixes, allocated) => get_prefixes mem l prefixes allocated
              end
          end
      | _ => Some None
      end
  end.

Definition roaGetPrefixes (mem : nat -> bool) (rp : CMS) : option (option (list roa_prefix)) :=
  if mem 0%nat then get_prefixes mem (ipAddrBlocks (roa_of rp)) [] 16 else Some None.

Definition roaAS_ID (rp : CMS) : option Z :=
  u32 <$> snd (read_casn_num_max (asID (roa_of rp))).
