(* ===== verification/RoaRange.v ===== *)
(** * ROA validation: prefixes, ranges and the sweep

    A prefix of [L] bits is the block of 144-bit numbers (the 18 bytes of a
    range) that start with these bits; [setuprange] computes its ends. On
    numbers, the loop that matches the sorted ranges of a ROA with the entries of
    a certificate decides whether every one lies inside of an entry. *)

From stdpp Require Import sorting.
From S2P Require Import Prelude CasnTime CasnNum CasnObjid RpkiObject CmsValidate RoaValidate.

(** ** Bytes and fill *)

Lemma be_val_app l k : be_val (l ++ k) = be_val l * 256 ^ Z.of_nat (length k) + be_val k.
Proof.
  induction k as [|x k IH] using rev_ind; [rewrite app_nil_r; cbn; lia|].
  rewrite app_assoc, !be_val_snoc, IH, length_app, Nat.add_1_r, pow256_S. lia.
Qed.

Lemma be_val_zeros n : be_val (replicate n 0) = 0.
Proof. induction n as [|n IH]; [done|]. rewrite replicate_S, be_val_cons, IH. lia. Qed.

Lemma be_val_ones n : be_val (replicate n 0xFF) = 256 ^ Z.of_nat n - 1.
Proof.
  induction n as [|n IH]; [done|].
  rewrite replicate_S, be_val_cons, IH, length_replicate, pow256_S. lia.
Qed.

(** The masks of [setuprange] on one byte. *)
Lemma byte_masks x u :
  byte_ok x -> 0 <= u ->
  (u <= 23 -> u8 (Z.land x (Z.shiftl 0xFF u)) = x / 2 ^ Z.min u 8 * 2 ^ Z.min u 8) /\
  (u <= 8 -> u8 (Z.lor x (Z.shiftr 0xFF (8 - u))) = (x / 2 ^ u + 1) * 2 ^ u - 1).
Proof.
  intros Hx Hu. assert (0 <= x < 256) by exact Hx.
  assert (H1 : forallb (fun u => forallb (fun x => let x := Z.of_nat x in let u := Z.of_nat u in
      u8 (Z.land x (Z.shiftl 0xFF u)) =? x / 2 ^ Z.min u 8 * 2 ^ Z.min u 8) (seq 0 256)) (seq 0 24) = true)
    by (vm_compute; reflexivity).
  assert (H2 : forallb (fun u => forallb (fun x => let x := Z.of_nat x in let u := Z.of_nat u in
      u8 (Z.lor x (Z.shiftr 0xFF (8 - u))) =? (x / 2 ^ u + 1) * 2 ^ u - 1) (seq 0 256)) (seq 0 9) = true)
    by (vm_compute; reflexivity).
  rewrite forallb_forall in H1, H2. split; intros Hb.
  - specialize (H1 (Z.to_nat u) ltac:(apply in_seq; lia)). rewrite forallb_forall in H1.
    specialize (H1 (Z.to_nat x) ltac:(apply in_seq; lia)). cbv zeta in H1.
    rewrite !Z2Nat.id in H1 by lia. by bprop.
  - specialize (H2 (Z.to_nat u) ltac:(apply in_seq; lia)). rewrite forallb_forall in H2.
    specialize (H2 (Z.to_nat x) ltac:(apply in_seq; lia)). cbv zeta in H2.
    rewrite !Z2Nat.id in H2 by lia. by bprop.
Qed.

(** ** The ends of a prefix *)

(** Unused bits of a BIT STRING (a range takes no more than 8 into account),
    length and value of its prefix. *)
Definition unused (bs : list Z) : Z := Z.min (hd 0 bs) 8.
Definition plen (bs : list Z) : Z := 8 * Z.of_nat (length (tl bs)) - unused bs.
Definition pval (bs : list Z) : Z := be_val (tl bs) / 2 ^ unused bs.

Definition first_addr (bs : list Z) : Z := pval bs * 2 ^ (144 - plen bs).
Definition last_addr (bs : list Z) : Z := (pval bs + 1) * 2 ^ (144 - plen bs) - 1.

(** A BIT STRING in DER form that a range has room for. *)
Definition bits_ok (bs : list Z) : Prop :=
  bytes_ok bs /\ (2 <= length bs <= 18)%nat /\ hd 0 bs <= 7.
#[global] Instance bits_ok_dec bs : Decision (bits_ok bs).
Proof. unfold bits_ok, bytes_ok, byte_ok, uint_ok. apply _. Defined.

Definition range_wf (r : certrange) : Prop :=
  length (lo r) = RANGESIZE /\ length (hi r) = RANGESIZE /\ bytes_ok (lo r) /\ bytes_ok (hi r).

Lemma range_copy_spec u data fill f to :
  bytes_ok data -> data <> [] -> byte_ok fill ->
  range_copy (u :: data) (replicate RANGESIZE fill) f = Some to ->
  exists front x, data = front ++ [x] /\ (length data <= 17)%nat /\
    to = front ++ [u8 (f x)] ++ replicate (RANGESIZE - length data) fill.
Proof.
  intros Hd Hne Hf. unfold range_copy.
  destruct (Nat.ltb_spec RANGESIZE (length (u :: data))) as [|Hlen]; [done|].
  unfold RANGESIZE in *. simpl in Hlen.
  destruct (length data) as [|n] eqn:En; [by destruct data|].
  destruct data as [|y data] using rev_ind; [done|]. clear IHdata.
  rewrite length_app in En. simpl in En. assert (length data = n) as Hn by lia.
  assert (Eb : blit 0 (data ++ [y]) (replicate 18 fill) =
               data ++ y :: replicate (18 - S n) fill).
  { unfold blit. rewrite take_0, Nat.add_0_l, drop_replicate, length_app, Hn.
    rewrite <- app_assoc. simpl. do 3 f_equal. lia. }
  cbv zeta. rewrite Eb, <- Hn, list_lookup_middle by done. cbn [mbind option_bind].
  intros [= <-]. exists data, y. split_and!; [done| |].
  - lia.
  - rewrite insert_app_r_alt, Nat.sub_diag by lia. done.
Qed.

Lemma pow144 (n : nat) u :
  (n <= 18)%nat -> 0 <= u ->
  2 ^ (144 - (8 * Z.of_nat n - u)) = 256 ^ Z.of_nat (18 - n) * 2 ^ u.
Proof.
  intros Hn Hu. change 256 with (2 ^ 8). rewrite <- Z.pow_mul_r, <- Z.pow_add_r by lia.
  f_equal. lia.
Qed.

(** Dropping the unused bits of the last byte. *)
Lemma div_last F x u :
  0 <= u <= 8 -> (F * 256 + x) / 2 ^ u * 2 ^ u = F * 256 + x / 2 ^ u * 2 ^ u.
Proof.
  intros Hu. assert (Hp : 0 < 2 ^ u) by (apply Z.pow_pos_nonneg; lia).
  replace (F * 256) with (F * 2 ^ (8 - u) * 2 ^ u)
    by (rewrite <- Z.mul_assoc, <- Z.pow_add_r by lia; replace (8 - u + u) with 8 by lia; done).
  rewrite Z.div_add_l by lia. lia.
Qed.

Lemma setuprange_lo u data to :
  bytes_ok (u :: data) -> u <= 23 ->
  range_copy (u :: data) (replicate RANGESIZE 0) (fun x => Z.land x (Z.shiftl 0xFF u)) = Some to ->
  length to = RANGESIZE /\ bytes_ok to /\ be_val to = first_addr (u :: data).
Proof.
  intros Hok Hu H. apply Forall_cons_1 in Hok as [Hu0 Hd].
  destruct data as [|y data']; [done|]. assert (Hne : y :: data' <> []) by done.
  remember (y :: data') as data. clear Heqdata y data'. assert (0 <= u) by apply Hu0.
  destruct (range_copy_spec u data 0 _ to Hd Hne ltac:(split; [lia|done]) H)
    as (front & x & -> & Hl & ->). clear H Hne.
  apply bytes_ok_app in Hd as [Hf Hx]. rewrite length_app in *. simpl length in *.
  unfold bytes_ok in Hx. rewrite Forall_singleton in Hx.
  destruct (byte_masks x u Hx ltac:(lia)) as [-> _]; [|lia].
  pose proof (div_last (be_val front) x (Z.min u 8) ltac:(lia)) as Hdiv.
  assert (0 <= x < 256) by exact Hx. assert (0 < 2 ^ Z.min u 8) by (apply Z.pow_pos_nonneg; lia).
  pose proof (Z.div_mod x (2 ^ Z.min u 8)). pose proof (Z.mod_pos_bound x (2 ^ Z.min u 8)).
  assert (0 <= x / 2 ^ Z.min u 8) by (apply Z.div_pos; lia).
  split_and!.
  - rewrite !length_app, length_replicate. unfold RANGESIZE. simpl. lia.
  - rewrite !bytes_ok_app. split_and!; [done| |apply Forall_replicate; split; [lia|done]].
    apply Forall_singleton. split; [nia|]. change (2 ^ 8) with 256. nia.
  - unfold first_addr, plen, pval, unused. cbn [hd tl]. rewrite length_app. cbn [length].
    rewrite pow144 by lia. rewrite app_assoc, be_val_app, be_val_zeros, !be_val_snoc, length_replicate.
    unfold RANGESIZE. nia.
Qed.

Lemma setuprange_hi u data to :
  bytes_ok (u :: data) -> u <= 8 ->
  range_copy (u :: data) (replicate RANGESIZE 0xFF) (fun x => Z.lor x (Z.shiftr 0xFF (8 - u))) = Some to ->
  length to = RANGESIZE /\ bytes_ok to /\ be_val to = last_addr (u :: data).
Proof.
  intros Hok Hu H. apply Forall_cons_1 in Hok as [Hu0 Hd].
  destruct data as [|y data']; [done|]. assert (Hne : y :: data' <> []) by done.
  remember (y :: data') as data. clear Heqdata y data'. assert (0 <= u) by apply Hu0.
  destruct (range_copy_spec u data 0xFF _ to Hd Hne ltac:(split; [lia|done]) H)
    as (front & x & -> & Hl & ->). clear H Hne.
  apply bytes_ok_app in Hd as [Hf Hx]. rewrite length_app in *. simpl length in *.
  unfold bytes_ok in Hx. rewrite Forall_singleton in Hx.
  destruct (byte_masks x u Hx ltac:(lia)) as [_ ->]; [|lia].
  pose proof (div_last (be_val front) x u ltac:(lia)) as Hdiv.
  assert (0 <= x < 256) by exact Hx. assert (Hp : 0 < 2 ^ u) by (apply Z.pow_pos_nonneg; lia).
  assert (Hxq : x / 2 ^ u < 2 ^ (8 - u)).
  { apply Z.div_lt_upper_bound; [lia|]. rewrite <- Z.pow_add_r by lia.
    replace (u + (8 - u)) with 8 by lia. lia. }
  assert (H256 : 2 ^ (8 - u) * 2 ^ u = 256).
  { rewrite <- Z.pow_add_r by lia. by replace (8 - u + u) with 8 by lia. }
  assert (0 <= x / 2 ^ u) by (apply Z.div_pos; lia).
  split_and!.
  - rewrite !length_app, length_replicate. unfold RANGESIZE. simpl. lia.
  - rewrite !bytes_ok_app. split_and!; [done| |apply Forall_replicate; split; [lia|done]].
    apply Forall_singleton. split; [nia|]. change (2 ^ 8) with 256. nia.
  - unfold last_addr, plen, pval, unused. cbn [hd tl]. rewrite Z.min_l, length_app by lia. cbn [length].
    rewrite pow144 by lia. rewrite app_assoc, be_val_app, be_val_ones, !be_val_snoc, length_replicate.
    unfold RANGESIZE. assert (0 < 256 ^ Z.of_nat (18 - (length front + 1)))
      by (apply Z.pow_pos_nonneg; lia). nia.
Qed.

(** What a range stands for. *)
Definition lo_val (r : certrange) : Z := be_val (lo r).
Definition hi_val (r : certrange) : Z := be_val (hi r).

Lemma setuprange_spec l h r :
  bytes_ok l -> bytes_ok h -> setuprange l h = Some r ->
  range_wf r /\ lo_val r = first_addr l /\ hi_val r = last_addr h.
Proof.
  intros Hl Hh. unfold setuprange.
  destruct (Z.ltb_spec 23 (hd 0 l)) as [|Hul]; [done|].
  destruct l as [|u l]; [done|].
  destruct (range_copy (u :: l) _ _) as [a|] eqn:Ea; [cbn [mbind option_bind]|done].
  destruct (Z.ltb_spec 8 (hd 0 h)) as [|Huh]; [done|].
  destruct h as [|v h]; [done|].
  destruct (range_copy (v :: h) _ _) as [b|] eqn:Eb; [|done]. cbn [mbind option_bind].
  intros [= <-]. destruct (setuprange_lo u l a Hl Hul Ea) as (La & Oa & Va).
  destruct (setuprange_hi v h b Hh Huh Eb) as (Lb & Ob & Vb). by split_and!.
Qed.

Lemma range_copy_ok u data fill f :
  (1 <= length data <= 17)%nat -> is_Some (range_copy (u :: data) (replicate RANGESIZE fill) f).
Proof.
  intros Hl. unfold range_copy, RANGESIZE.
  destruct (Nat.ltb_spec 18 (length (u :: data))) as [H|_]; [simpl in H; lia|].
  destruct (length data) as [|n] eqn:En; [lia|]. cbv zeta.
  destruct (lookup_lt_is_Some_2 (blit 0 data (replicate 18 fill)) n) as [x ->]; [|by eexists].
  rewrite length_blit; rewrite length_replicate; lia.
Qed.

Lemma setuprange_total l h : bits_ok l -> bits_ok h -> is_Some (setuprange l h).
Proof.
  intros (Ol & Ll & Ul) (Oh & Lh & Uh). unfold setuprange.
  destruct l as [|u l]; [simpl in Ll; lia|]. destruct h as [|v h]; [simpl in Lh; lia|].
  simpl in Ll, Lh, Ul, Uh.
  cbn [hd]. destruct (Z.ltb_spec 23 u); [lia|]. destruct (Z.ltb_spec 8 v); [lia|].
  destruct (range_copy_ok u l 0 (fun x => Z.land x (Z.shiftl 0xFF u))) as [a ->]; [lia|].
  cbn [mbind option_bind].
  destruct (range_copy_ok v h 0xFF (fun x => Z.lor x (Z.shiftr 0xFF (8 - v)))) as [b ->]; [lia|].
  by eexists.
Qed.

(** ** Comparing ranges is comparing numbers *)

Section cmp.
Context (r1 r2 : certrange) (H1 : range_wf r1) (H2 : range_wf r2).

Lemma contains_val :
  certrangeContains r1 r2 = (lo_val r1 <=? lo_val r2) && (hi_val r2 <=? hi_val r1).
Proof using H1 H2.
  destruct H1 as (L1 & M1 & O1 & P1), H2 as (L2 & M2 & O2 & P2).
  unfold certrangeContains. rewrite !memcmp_be_val by done. fold (lo_val r1) (lo_val r2) (hi_val r1) (hi_val r2).
  repeat match goal with
  | |- context [?a <? ?b] => destruct (Z.ltb_spec a b)
  | |- context [?a <=? ?b] => destruct (Z.leb_spec a b)
  end; done || lia.
Qed.

Lemma before_val : certrangeBefore r1 r2 = (hi_val r1 <? lo_val r2).
Proof using H1 H2.
  destruct H1 as (L1 & M1 & O1 & P1), H2 as (L2 & M2 & O2 & P2).
  unfold certrangeBefore. rewrite memcmp_be_val by done. fold (lo_val r2) (hi_val r1).
  destruct (Z.ltb_spec (hi_val r1) (lo_val r2)); [done|]. by case_match.
Qed.

Lemma range_le_val : range_le r1 r2 -> lo_val r1 <= lo_val r2.
Proof using H1 H2.
  destruct H1 as (L1 & M1 & O1 & P1), H2 as (L2 & M2 & O2 & P2).
  unfold range_le, certrangecmp. rewrite !memcmp_be_val by done. fold (lo_val r1) (lo_val r2).
  destruct (Z.ltb_spec (lo_val r1) (lo_val r2)); [lia|].
  destruct (Z.ltb_spec (lo_val r2) (lo_val r1)); cbn; lia.
Qed.
End cmp.

Lemma memcmp_le_total n l k : memcmp n l k <= 0 \/ memcmp n k l <= 0.
Proof.
  revert l k. induction n as [|n IH]; intros [|x l] [|y k]; simpl; try lia.
  destruct (Z.ltb_spec x y), (Z.ltb_spec y x); try lia. apply IH.
Qed.

Lemma memcmp_sym0 n l k : memcmp n l k = 0 -> memcmp n k l = 0.
Proof.
  revert l k. induction n as [|n IH]; intros [|x l] [|y k]; simpl; try done.
  destruct (Z.ltb_spec x y), (Z.ltb_spec y x); try lia. apply IH.
Qed.

#[global] Instance range_le_total : Total range_le.
Proof.
  intros r1 r2. unfold range_le, certrangecmp.
  destruct (Z.eqb_spec (memcmp RANGESIZE (lo r1) (lo r2)) 0) as [E|E].
  - rewrite (memcmp_sym0 _ _ _ E). cbn [negb Z.eqb]. apply memcmp_le_total.
  - destruct (Z.eqb_spec (memcmp RANGESIZE (lo r2) (lo r1)) 0) as [E'|E'].
    { apply memcmp_sym0 in E'. done. }
    cbn [negb]. apply memcmp_le_total.
Qed.

Lemma qsort_perm l : qsort_ranges l ≡ₚ l.
Proof. apply merge_sort_Permutation. Qed.

(** Sorted by first address. *)
Lemma qsort_sorted l :
  Forall range_wf l -> Sorted (fun r1 r2 => lo_val r1 <= lo_val r2) (qsort_ranges l).
Proof.
  intros Hl. assert (Hs : Sorted range_le (qsort_ranges l)) by (apply Sorted_merge_sort, _).
  assert (Hw : Forall range_wf (qsort_ranges l)) by (by rewrite qsort_perm).
  revert Hw. induction Hs as [|r rs _ IH Hhd]; intros Hw; [constructor|].
  apply Forall_cons_1 in Hw as [Hr Hw]. constructor; [by apply IH|].
  destruct Hhd as [|r' rs H]; constructor. apply Forall_cons_1 in Hw as [Hr' _].
  by apply range_le_val.
Qed.

(** ** The sweep is sound for any entries *)

Lemma next_entry_spec entries r c rest :
  next_entry entries r = Some (Some (c, rest)) ->
  exists l1 e, entries = l1 ++ e :: rest /\ entry_range e = Some c.
Proof.
  induction entries as [|e entries IH]; [done|]. cbn [next_entry].
  destruct (entry_range e) as [c'|] eqn:Ee; [|done]. cbn [mbind option_bind].
  destruct (_ && _).
  - intros H. destruct (IH H) as (l1 & e' & -> & He). by exists (e :: l1), e'.
  - intros [= <- <-]. by exists [], e.
Qed.

Lemma skip_contained_spec c rs :
  exists pre, rs = pre ++ skip_contained c rs /\ Forall (fun r => certrangeContains c r = true) pre.
Proof.
  induction rs as [|r rs IH]; [by exists []|]. cbn [skip_contained].
  destruct (certrangeContains c r) eqn:E; [|by exists []].
  destruct IH as (pre & Heq & Hp). exists (r :: pre). split; [simpl; by rewrite <- Heq | by constructor].
Qed.

(** An entry that contains a range. *)
Definition has_entry (entries : list IPAddressOrRangeA) (r : certrange) : Prop :=
  exists e c, e ∈ entries /\ entry_range e = Some c /\ certrangeContains c r = true.

Lemma has_entry_suffix l1 entries r : has_entry entries r -> has_entry (l1 ++ entries) r.
Proof.
  intros (e & c & He & H). exists e, c. split; [apply elem_of_app; by right|done].
Qed.

Lemma match_ranges_sound fuel entries rs :
  match_ranges fuel entries rs = Some 0 -> Forall (has_entry entries) rs.
Proof.
  revert entries rs. induction fuel as [|fuel IH]; intros entries [|r rs] H;
    try done. cbn [match_ranges] in H.
  destruct (next_entry entries r) as [[[c rest]|]|] eqn:En; [|done|done]. cbn [mbind option_bind] in H.
  destruct (next_entry_spec _ _ _ _ En) as (l1 & e & -> & Ee).
  destruct (certrangeContains c r) eqn:Ec; [|done].
  apply IH in H. destruct (skip_contained_spec c (r :: rs)) as (pre & Heq & Hp).
  rewrite Heq. apply Forall_app. split.
  - eapply Forall_impl; [exact Hp|]. intros r' Hr'. exists e, c.
    split; [apply elem_of_app; right; left | done].
  - eapply Forall_impl; [exact H|]. intros r' Hr'.
    change (l1 ++ e :: rest) with (l1 ++ [e] ++ rest). rewrite app_assoc. by apply has_entry_suffix.
Qed.

(** ** ... and complete for entries in canonical order *)

Definition ordered (c1 c2 : certrange) : Prop := hi_val c1 < lo_val c2.
Definition proper (c : certrange) : Prop := range_wf c /\ lo_val c <= hi_val c.
Definition canonical (cs : list certrange) : Prop := Forall proper cs /\ StronglySorted ordered cs.

Section complete.
Implicit Types (cs rs : list certrange).

Definition inside (cs : list certrange) (r : certrange) : Prop :=
  exists c, c ∈ cs /\ lo_val c <= lo_val r /\ hi_val r <= hi_val c.

Lemma contains_proper c r :
  proper c -> proper r ->
  certrangeContains c r = true <-> lo_val c <= lo_val r /\ hi_val r <= hi_val c.
Proof.
  intros [Hc _] [Hr _]. rewrite contains_val by done. rewrite andb_true_iff, !Z.leb_le. done.
Qed.

Lemma next_entry_complete entries cs r :
  Forall2 (fun e c => entry_range e = Some c) entries cs -> canonical cs -> proper r -> inside cs r ->
  exists l1 c rest cs1 cs2, next_entry entries r = Some (Some (c, rest)) /\
    entries = l1 ++ rest /\ l1 <> [] /\ cs = cs1 ++ c :: cs2 /\
    Forall2 (fun e c => entry_range e = Some c) rest cs2 /\ certrangeContains c r = true.
Proof.
  intros HF [Hp Hs] Hr. revert Hp Hs.
  induction HF as [|e c entries cs He HF IH]; intros Hp Hs (c' & Hc' & Hlo & Hhi).
  { by apply elem_of_nil in Hc'. }
  apply Forall_cons_1 in Hp as [Hpc Hp]. apply StronglySorted_inv in Hs as [Hs Hhd].
  cbn [next_entry]. rewrite He. cbn [mbind option_bind].
  destruct (certrangeContains c r) eqn:Ec; cbn [negb andb].
  { exists [e], c, entries, [], cs. by split_and!. }
  assert (Hin : c' ∈ cs).
  { apply elem_of_cons in Hc' as [->|]; [|done]. exfalso.
    rewrite (proj2 (contains_proper c r Hpc Hr)) in Ec by done. done. }
  rewrite Forall_forall in Hhd. specialize (Hhd c' Hin). unfold ordered in Hhd.
  destruct Hpc as [Hwc Hcc], Hr as [Hwr Hrr].
  rewrite before_val by done. destruct (Z.ltb_spec (hi_val r) (lo_val c)) as [|_]; [lia|]. cbn [negb].
  destruct IH as (l1 & c0 & rest & cs1 & cs2 & En & -> & Hne & -> & HF' & Ec0); [done|done|by exists c'|].
  exists (e :: l1), c0, rest, (c :: cs1), cs2. by split_and!.
Qed.

(** Ranges from [r] on are not inside of the entries before [c], nor, once one
    of them is not, inside of [c]. *)
Lemma inside_rest cs1 c cs2 r r' :
  canonical (cs1 ++ c :: cs2) -> lo_val c <= lo_val r -> lo_val r <= lo_val r' ->
  lo_val r' <= hi_val r' -> inside (cs1 ++ c :: cs2) r' ->
  (exists d, d ∈ c :: cs2 /\ lo_val d <= lo_val r' /\ hi_val r' <= hi_val d).
Proof.
  intros [_ Hs] Hcr Hrr' Hr' (d & Hd & Hlo & Hhi). exists d. split; [|done].
  apply elem_of_app in Hd as [Hd|Hd]; [|done]. exfalso.
  induction cs1 as [|x cs1 IH]; [by apply elem_of_nil in Hd|].
  simpl in Hs. apply StronglySorted_inv in Hs as [Hs Hx].
  apply elem_of_cons in Hd as [->|Hd]; [|by apply IH].
  rewrite Forall_app, Forall_cons in Hx. destruct Hx as (_ & Hx & _). unfold ordered in Hx. lia.
Qed.

Lemma canonical_suffix cs1 c cs2 : canonical (cs1 ++ c :: cs2) -> canonical cs2 /\ Forall (ordered c) cs2.
Proof.
  intros [Hp Hs]. apply Forall_app in Hp as [_ Hp]. apply Forall_cons_1 in Hp as [_ Hp].
  induction cs1 as [|x cs1 IH]; simpl in Hs; apply StronglySorted_inv in Hs as [Hs Hx]; [|by apply IH].
  by split.
Qed.

Lemma skip_rest_inside cs1 c cs2 r rs :
  canonical (cs1 ++ c :: cs2) -> proper c -> lo_val c <= lo_val r ->
  Forall proper rs -> Forall (fun r' => lo_val r <= lo_val r') rs ->
  StronglySorted (fun r1 r2 => lo_val r1 <= lo_val r2) rs ->
  Forall (inside (cs1 ++ c :: cs2)) rs -> Forall (inside cs2) (skip_contained c rs).
Proof.
  intros Hcan Hc Hcr Hp Hlo Hs Hin. destruct (canonical_suffix _ _ _ Hcan) as [_ Hafter].
  rewrite Forall_forall in Hafter.
  induction rs as [|r0 rs IH]; [constructor|]. cbn [skip_contained].
  apply Forall_cons_1 in Hp as [Hp0 Hp], Hlo as [Hlo0 Hlo], Hin as [Hin0 Hin].
  apply StronglySorted_inv in Hs as [Hs Hhd].
  destruct (certrangeContains c r0) eqn:E; [by apply IH|].
  destruct (inside_rest _ _ _ r r0 Hcan Hcr Hlo0 (proj2 Hp0) Hin0) as (d & Hd & Hd1 & Hd2).
  assert (Hdcs : d ∈ cs2).
  { apply elem_of_cons in Hd as [->|]; [|done].
    rewrite (proj2 (contains_proper c r0 Hc Hp0)) in E by done. done. }
  pose proof (Hafter d Hdcs) as Hcd. unfold ordered in Hcd.
  constructor; [by exists d|]. rewrite Forall_forall in Hin, Hp, Hlo, Hhd. apply Forall_forall.
  intros r1 Hr1. specialize (Hhd r1 Hr1). simpl in Hhd.
  destruct (inside_rest _ _ _ r r1 Hcan Hcr (Hlo r1 Hr1) (proj2 (Hp r1 Hr1)) (Hin r1 Hr1))
    as (d1 & Hd1' & H1 & H2).
  exists d1. split; [|done]. apply elem_of_cons in Hd1' as [->|]; [|done].
  specialize (Hp r1 Hr1). destruct Hp as [_ Hp]. lia.
Qed.

Lemma match_ranges_complete fuel entries cs rs :
  (length entries < fuel)%nat ->
  Forall2 (fun e c => entry_range e = Some c) entries cs -> canonical cs ->
  Forall proper rs -> StronglySorted (fun r1 r2 => lo_val r1 <= lo_val r2) rs ->
  Forall (inside cs) rs -> match_ranges fuel entries rs = Some 0.
Proof.
  revert entries cs rs. induction fuel as [|fuel IH]; intros entries cs rs Hf HF Hcan Hp Hs Hin; [lia|].
  destruct rs as [|r rs]; [done|]. cbn [match_ranges].
  pose proof (Forall_inv Hp) as Hpr. pose proof (Forall_inv Hin) as Hinr. simpl in Hpr, Hinr.
  destruct (next_entry_complete entries cs r HF Hcan Hpr Hinr)
    as (l1 & c & rest & cs1 & cs2 & -> & -> & Hne & -> & HF' & Ec).
  cbn [mbind option_bind]. rewrite Ec.
  assert (Hpc : proper c).
  { destruct Hcan as [Hpc _]. apply Forall_app in Hpc as [_ Hpc]. by apply Forall_cons_1 in Hpc as [? _]. }
  apply contains_proper in Ec as [Hlo _]; [|done|done].
  destruct (skip_contained_spec c (r :: rs)) as (pre & Heq & _).
  apply (IH rest cs2).
  - rewrite length_app in Hf. destruct l1; [done|]. simpl in Hf. lia.
  - done.
  - by apply (canonical_suffix cs1 c).
  - rewrite Heq in Hp. by apply Forall_app in Hp as [_ Hp].
  - rewrite Heq in Hs. clear -Hs. induction pre; [done|]. apply StronglySorted_inv in Hs as [Hs _]. auto.
  - apply (skip_rest_inside cs1 c cs2 r); try done.
    apply StronglySorted_inv in Hs as [_ Hhd]. constructor; [lia|done].
Qed.
End complete.

(** Whatever the entries, with well-formed bit strings the loop returns. *)
Lemma match_ranges_total fuel entries rs :
  (length entries < fuel)%nat -> Forall (fun e => is_Some (entry_range e)) entries ->
  match_ranges fuel entries rs = Some 0 \/ match_ranges fuel entries rs = Some ERR_SCM_ROAIPMISMATCH.
Proof.
  revert entries rs. induction fuel as [|fuel IH]; intros entries rs Hf He; [lia|].
  destruct rs as [|r rs]; [by left|]. cbn [match_ranges].
  assert (Hn : is_Some (next_entry entries r)).
  { clear -He. induction He as [|e entries [c Hc] _ IH]; [by eexists|]. cbn [next_entry].
    rewrite Hc. cbn [mbind option_bind]. destruct (_ && _); [done|by eexists]. }
  destruct Hn as [[[c rest]|] En]; rewrite En; cbn [mbind option_bind]; [|by right].
  destruct (certrangeContains c r); [|by right].
  destruct (next_entry_spec _ _ _ _ En) as (l1 & e & -> & _). apply IH.
  - rewrite length_app in Hf. simpl in Hf. lia.
  - apply Forall_app in He as [_ He]. by apply Forall_cons_1 in He as [_ He].
Qed.

(** The result is 0 or an error. *)
Lemma match_ranges_neg fuel entries rs r :
  match_ranges fuel entries rs = Some r -> r = 0 \/ r < 0.
Proof.
  revert entries rs. induction fuel as [|fuel IH]; intros entries [|x rs] H; try done;
    cbn [match_ranges] in H; try (injection H as <-; by left).
  destruct (next_entry entries x) as [[[c rest]|]|]; [|by injection H as <-; right|done].
  cbn [mbind option_bind] in H. destruct (certrangeContains c x); [by eapply IH|].
  injection H as <-. by right.
Qed.
