(* ===== verification/RoaThm.v ===== *)
(** * ROA validation: the theorems

    A ROA is accepted exactly when each of its prefixes lies inside of an entry
    of the certificate; the prefixes that go to the database are those of the
    ROA. *)

From stdpp Require Import sorting.
From S2P Require Import Prelude CasnTime CasnNum CasnObjid RpkiObject CmsValidate CmsThm RoaValidate RoaRange.

(** ** Specification *)

(** The ends of an entry of a certificate. *)
Definition entry_first (e : IPAddressOrRangeA) : Z :=
  match e with addressPrefix p => first_addr p | addressRange min _ => first_addr min end.
Definition entry_last (e : IPAddressOrRangeA) : Z :=
  match e with addressPrefix p => last_addr p | addressRange _ max => last_addr max end.
Definition entry_bits (e : IPAddressOrRangeA) : list (list Z) :=
  match e with addressPrefix p => [p] | addressRange min max => [min; max] end.

Definition entry_contains (e : IPAddressOrRangeA) (a : ROAIPAddress) : Prop :=
  entry_first e <= first_addr (address a) /\ last_addr (address a) <= entry_last e.

(** Every prefix of the ROA family is inside of an entry of the certificate's
    families with the same identifier, and there is such a family. *)
Definition family_within (gs : list IPAddressFamilyA) (f : ROAIPAddressFamily) : Prop :=
  (exists g, g ∈ gs /\ cert_addressFamily g = roa_addressFamily f) /\
  forall g, g ∈ gs -> cert_addressFamily g = roa_addressFamily f ->
  forall a, a ∈ addresses f -> exists e, e ∈ family_entries g /\ entry_contains e a.

Definition roa_within (certp : Certificate) (blocks : list ROAIPAddressFamily) : Prop :=
  exists ext, find_extension (extensions certp) id_pe_ipAddrBlock = Some (Some ext) /\
    Forall (fun g => is_inherit g = false) (ipAddressBlock ext) /\
    Forall (family_within (ipAddressBlock ext)) blocks.

(** Content bytes are bytes. *)
Definition entry_bytes_ok (e : IPAddressOrRangeA) : Prop := Forall bytes_ok (entry_bits e).
Definition cert_bytes_ok (certp : Certificate) : Prop :=
  Forall (fun ext => Forall (fun g => Forall entry_bytes_ok (family_entries g)) (ipAddressBlock ext))
    (extensions certp).
Definition roa_bytes_ok (blocks : list ROAIPAddressFamily) : Prop :=
  Forall (fun f => Forall (fun a => bytes_ok (address a)) (addresses f)) blocks.

(** RFC 3779, section 2.2.3.6: entries in order that do not overlap. *)
Definition canonical_family (g : IPAddressFamilyA) : Prop :=
  Forall (fun e => Forall bits_ok (entry_bits e) /\ entry_first e <= entry_last e) (family_entries g) /\
  StronglySorted (fun e1 e2 => entry_last e1 < entry_first e2) (family_entries g).

(** ** One family *)

Lemma entry_range_spec e c :
  entry_bytes_ok e -> entry_range e = Some c ->
  range_wf c /\ lo_val c = entry_first e /\ hi_val c = entry_last e.
Proof.
  unfold entry_bytes_ok, entry_range, entry_first, entry_last.
  destruct e as [p|min max]; simpl; intros Hb.
  - apply Forall_inv in Hb. by apply setuprange_spec.
  - apply Forall_cons_1 in Hb as [Hmin Hb]. apply Forall_inv in Hb. by apply setuprange_spec.
Qed.

Lemma entry_range_total e : Forall bits_ok (entry_bits e) -> is_Some (entry_range e).
Proof.
  destruct e as [p|min max]; simpl; intros Hb.
  - apply Forall_inv in Hb. by apply setuprange_total.
  - apply Forall_cons_1 in Hb as [Hmin Hb]. apply Forall_inv in Hb. by apply setuprange_total.
Qed.

Lemma first_le_last bs : bytes_ok bs -> (length bs <= 18)%nat -> first_addr bs <= last_addr bs.
Proof.
  intros Hok Hl. unfold first_addr, last_addr.
  assert (0 <= pval bs).
  { unfold pval. apply Z.div_pos.
    - apply be_val_bound. destruct bs; [done|]. by apply Forall_cons_1 in Hok as [_ ?].
    - apply Z.pow_pos_nonneg; [lia|]. unfold unused. destruct bs as [|u bs]; [simpl; lia|].
      apply Forall_cons_1 in Hok as [[Hu _] _]. simpl. lia. }
  assert (0 < 2 ^ (144 - plen bs)).
  { apply Z.pow_pos_nonneg; [lia|]. unfold plen, unused. destruct bs as [|u bs]; [simpl; lia|].
    apply Forall_cons_1 in Hok as [[Hu _] _]. simpl in *. lia. }
  nia.
Qed.

(** The ranges of a ROA's addresses. *)
Definition addr_range (a : ROAIPAddress) (r : certrange) : Prop :=
  range_wf r /\ lo_val r = first_addr (address a) /\ hi_val r = last_addr (address a).

Lemma roa_ranges l rs :
  Forall (fun a => bytes_ok (address a)) l ->
  mapM (fun a => setuprange (address a) (address a)) l = Some rs -> Forall2 addr_range l rs.
Proof.
  intros Hl H. apply mapM_Some_1 in H. induction H as [|a r l rs Hr _ IH]; [constructor|].
  apply Forall_cons_1 in Hl as [Ha Hl]. constructor; [by apply setuprange_spec|by apply IH].
Qed.

Lemma roa_ranges_total l :
  Forall (fun a => bits_ok (address a)) l ->
  is_Some (mapM (fun a => setuprange (address a) (address a)) l).
Proof.
  intros Hl. apply mapM_is_Some_2. eapply Forall_impl; [exact Hl|]. intros a Ha.
  by apply setuprange_total.
Qed.

Section family.
Context (f : ROAIPAddressFamily) (g : IPAddressFamilyA).

Lemma match_family_sound ok :
  Forall (fun a => bytes_ok (address a)) (addresses f) -> Forall entry_bytes_ok (family_entries g) ->
  match_family ok f g = Some 0 ->
  forall a, a ∈ addresses f -> exists e, e ∈ family_entries g /\ entry_contains e a.
Proof.
  intros Hf Hg. unfold match_family. destruct ok; [|done]. cbn [negb].
  destruct (mapM _ _) as [rs|] eqn:Er; [|done]. cbn [mbind option_bind]. intros H a Ha.
  apply roa_ranges in Er; [|done]. apply match_ranges_sound in H. rewrite qsort_perm in H.
  apply list_elem_of_lookup in Ha as [i Hi].
  destruct (Forall2_lookup_l _ _ _ _ _ Er Hi) as (r & Hr & Hw & Hlo & Hhi).
  rewrite Forall_forall in H. destruct (H r) as (e & c & He & Hc & Hcon).
  { by eapply list_elem_of_lookup_2. }
  rewrite Forall_forall in Hg. destruct (entry_range_spec e c (Hg e He) Hc) as (Hwc & Elo & Ehi).
  exists e. split; [done|]. rewrite contains_val in Hcon by done. bprop. unfold entry_contains. lia.
Qed.

Lemma entry_contains_inside cs :
  Forall2 (fun e c => entry_range e = Some c) (family_entries g) cs ->
  Forall entry_bytes_ok (family_entries g) ->
  forall a r, addr_range a r -> (exists e, e ∈ family_entries g /\ entry_contains e a) -> inside cs r.
Proof.
  intros HF Hb a r (Hw & Hlo & Hhi) (e & He & H1 & H2).
  rewrite Forall_forall in Hb. pose proof (Hb e He) as Hbe.
  apply list_elem_of_lookup in He as [i Hi].
  destruct (Forall2_lookup_l _ _ _ _ _ HF Hi) as (c & Hc & Ec).
  destruct (entry_range_spec e c Hbe Ec) as (Hwc & Elo & Ehi).
  exists c. split; [by eapply list_elem_of_lookup_2 | lia].
Qed.

Lemma bits_ok_bytes e : Forall bits_ok (entry_bits e) -> entry_bytes_ok e.
Proof. intros H. eapply Forall_impl; [exact H|]. by intros x [? _]. Qed.

Lemma canonical_ranges :
  canonical_family g ->
  exists cs, Forall2 (fun e c => entry_range e = Some c) (family_entries g) cs /\ canonical cs.
Proof.
  intros [Hok Hs]. induction (family_entries g) as [|e l IH].
  - exists []. split; [constructor|]. split; constructor.
  - apply Forall_cons_1 in Hok as [[Hb Hle] Hok]. apply StronglySorted_inv in Hs as [Hs Hhd].
    destruct (IH Hok Hs) as (cs & HF & Hp & Hcs).
    destruct (entry_range_total e Hb) as [c Hc].
    destruct (entry_range_spec e c (bits_ok_bytes e Hb) Hc) as (Hw & Elo & Ehi).
    exists (c :: cs). split; [by constructor|]. split; constructor; try done.
    + split; [done|lia].
    + clear IH Hs Hcs Hp. induction HF as [|e' c' l cs He' HF IH]; constructor.
      * apply Forall_cons_1 in Hhd as [Hhd _], Hok as [[Hb' _] _].
        destruct (entry_range_spec e' c' (bits_ok_bytes e' Hb') He') as (_ & Elo' & _).
        unfold ordered. lia.
      * apply Forall_cons_1 in Hhd as [_ Hhd], Hok as [_ Hok]. by apply IH.
Qed.

(** For a canonical family the result is exact. *)
Lemma match_family_exact :
  Forall (fun a => bits_ok (address a)) (addresses f) -> canonical_family g ->
  exists r, match_family true f g = Some r /\
    (r = 0 /\ (forall a, a ∈ addresses f -> exists e, e ∈ family_entries g /\ entry_contains e a) \/
     r = ERR_SCM_ROAIPMISMATCH /\
     ~ (forall a, a ∈ addresses f -> exists e, e ∈ family_entries g /\ entry_contains e a)).
Proof.
  intros Hf Hg. pose proof Hg as [Hb _].
  assert (Hfb : Forall (fun a => bytes_ok (address a)) (addresses f)).
  { eapply Forall_impl; [exact Hf|]. by intros a [? _]. }
  assert (Hgb : Forall entry_bytes_ok (family_entries g)).
  { eapply Forall_impl; [exact Hb|]. intros e [? _]. by apply bits_ok_bytes. }
  destruct (canonical_ranges Hg) as (cs & HF & Hcan).
  destruct (roa_ranges_total _ Hf) as [rs Er]. pose proof (roa_ranges _ _ Hfb Er) as Hrs.
  pose proof (match_family_sound true Hfb Hgb) as Hsound.
  unfold match_family in *. cbn [negb] in *. rewrite Er in *. cbn [mbind option_bind] in *.
  destruct (match_ranges_total (S (length (family_entries g))) (family_entries g) (qsort_ranges rs))
    as [E|E]; [lia| | |].
  - eapply Forall_impl; [exact Hb|]. intros e [? _]. by apply entry_range_total.
  - exists 0. split; [done|]. left. split; [done|]. by apply Hsound.
  - exists ERR_SCM_ROAIPMISMATCH. split; [done|]. right. split; [done|]. intros Hall.
    rewrite (match_ranges_complete _ _ cs) in E; [done|lia|done|done| | |].
    + rewrite qsort_perm. clear -Hrs Hf. induction Hrs as [|a r l rs (Hw & Hlo & Hhi) _ IH]; constructor.
      * apply Forall_cons_1 in Hf as [(Ha & Hl & _) _]. split; [done|].
        rewrite Hlo, Hhi. apply first_le_last; [done|lia].
      * apply IH. by apply Forall_cons_1 in Hf as [_ ?].
    + apply Sorted_StronglySorted; [intros ???; lia|]. apply qsort_sorted.
      clear -Hrs. induction Hrs as [|a r l rs (Hw & _) _ IH]; by constructor.
    + rewrite qsort_perm. rewrite Forall_forall. intros r Hr.
      apply list_elem_of_lookup in Hr as [i Hi].
      destruct (Forall2_lookup_r _ _ _ _ _ Hrs Hi) as (a & Ha & Har).
      eapply entry_contains_inside; [done|done|done|]. apply Hall. by eapply list_elem_of_lookup_2.
Qed.
End family.

(** ** All families *)

Definition family_covered (f : ROAIPAddressFamily) (g : IPAddressFamilyA) : Prop :=
  forall a, a ∈ addresses f -> exists e, e ∈ family_entries g /\ entry_contains e a.

Definition covered_by (f : ROAIPAddressFamily) (gs : list IPAddressFamilyA) : Prop :=
  forall g, g ∈ gs -> cert_addressFamily g = roa_addressFamily f -> family_covered f g.

Lemma match_families_sound malloc j f gs matched m :
  Forall (fun a => bytes_ok (address a)) (addresses f) ->
  Forall (fun g => Forall entry_bytes_ok (family_entries g)) gs ->
  match_families malloc j f gs matched = Some (0, m) ->
  covered_by f gs /\
  (m = true -> matched = true \/ exists g, g ∈ gs /\ cert_addressFamily g = roa_addressFamily f).
Proof.
  intros Hf. revert j matched. induction gs as [|g gs IH]; intros j matched Hgs H.
  - injection H as <-. split; [intros g Hg; by apply elem_of_nil in Hg | by left].
  - apply Forall_cons_1 in Hgs as [Hg Hgs]. cbn [match_families] in H.
    case_bool_decide as Eg; cbn [negb] in H.
    + destruct (match_family (malloc j) f g) as [r|] eqn:Em; [|done]. cbn [mbind option_bind] in H.
      destruct (Z.ltb_spec r 0); [injection H as -> <-; lia|].
      destruct (IH _ _ Hgs H) as [Hcov Hm]. split.
      * intros g' Hg' Eg'. apply elem_of_cons in Hg' as [->|Hg']; [|by apply Hcov].
        unfold family_covered. apply (match_family_sound f g (malloc j)); [done|done|].
        rewrite Em. f_equal. unfold match_family in Em.
        destruct (malloc j); [|by injection Em as <-]. cbn [negb] in Em.
        destruct (mapM _ _); [|done]. cbn [mbind option_bind] in Em.
        pose proof (match_ranges_neg (S (length (family_entries g))) (family_entries g)
                      (qsort_ranges l) r Em). lia.
      * intros _. right. exists g. split; [left|done].
    + destruct (IH _ _ Hgs H) as [Hcov Hm]. split.
      * intros g' Hg' Eg'. apply elem_of_cons in Hg' as [->|Hg']; [done|by apply Hcov].
      * intros Et. destruct (Hm Et) as [?|(g' & Hg' & Eg')]; [by left|right].
        exists g'. split; [by right|done].
Qed.

Lemma match_families_exact malloc j f gs matched :
  (forall k, malloc k = true) ->
  Forall (fun a => bits_ok (address a)) (addresses f) -> Forall canonical_family gs ->
  exists r m, match_families malloc j f gs matched = Some (r, m) /\
    (r = 0 /\ covered_by f gs /\
       (m = true <-> matched = true \/ exists g, g ∈ gs /\ cert_addressFamily g = roa_addressFamily f) \/
     r = ERR_SCM_ROAIPMISMATCH /\ ~ covered_by f gs).
Proof.
  intros Hmem Hf. revert j matched. induction gs as [|g gs IH]; intros j matched Hgs.
  - exists 0, matched. split; [done|]. left. split; [done|]. split.
    + intros g Hg. by apply elem_of_nil in Hg.
    + split; [by left|]. intros [|(g & Hg & _)]; [done|by apply elem_of_nil in Hg].
  - apply Forall_cons_1 in Hgs as [Hg Hgs]. cbn [match_families].
    case_bool_decide as Eg; cbn [negb].
    + rewrite Hmem. destruct (match_family_exact f g Hf Hg) as (r & -> & [[-> Hc]|[-> Hc]]);
        cbn [mbind option_bind].
      * change (0 <? 0) with false. destruct (IH (S j) true Hgs) as (r & m & E & Hr).
        exists r, m. split; [exact E|]. destruct Hr as [(-> & Hcov & Hm)|[-> Hcov]].
        -- left. split; [done|]. split.
           { intros g' Hg' Eg'. apply elem_of_cons in Hg' as [->|Hg']; [exact Hc|by apply Hcov]. }
           split; [intros _; right; exists g; split; [left|done] | intros _; apply Hm; by left].
        -- right. split; [done|]. intros H. apply Hcov. intros g' Hg'. apply H. by right.
      * exists ERR_SCM_ROAIPMISMATCH, true. split; [done|]. right. split; [done|]. intros H.
        apply Hc, H; [left|done].
    + destruct (IH (S j) matched Hgs) as (r & m & E & Hr). exists r, m. split; [exact E|].
      destruct Hr as [(-> & Hcov & Hm)|[-> Hcov]].
      * left. split; [done|]. split.
        { intros g' Hg' Eg'. apply elem_of_cons in Hg' as [->|Hg']; [done|by apply Hcov]. }
        rewrite Hm. split; (intros [?|(g' & Hg' & Eg')]; [by left|]; right; exists g').
        -- split; [by right|done].
        -- apply elem_of_cons in Hg' as [->|Hg']; [done|by split].
      * right. split; [done|]. intros H. apply Hcov. intros g' Hg'. apply H. by right.
Qed.

(** An error code is not a success. *)
Ltac neg_err H :=
  injection H as <-;
  match goal with Hr : 0 <= _ |- _ => exfalso; vm_compute in Hr; by apply Hr end.

(** [checkIPAddrs] returns 0 or an error. *)
Lemma match_families_nonpos malloc j f gs b r m :
  match_families malloc j f gs b = Some (r, m) -> 0 <= r -> r = 0.
Proof.
  revert j b. induction gs as [|g gs IH]; intros j b E Hr; [by injection E|].
  cbn [match_families] in E. case_bool_decide; cbn [negb] in E; [|by eapply IH].
  destruct (match_family _ _ _) as [r'|]; [|done]. cbn [mbind option_bind] in E.
  destruct (Z.ltb_spec r' 0); [injection E as ->; lia|]. by eapply IH.
Qed.

Lemma check_families_nonpos malloc i fs gs r :
  check_roa_families malloc i fs gs = Some r -> 0 <= r -> r = 0.
Proof.
  revert i. induction fs as [|f fs IH]; intros i E Hr; [by injection E|].
  cbn [check_roa_families] in E.
  destruct (match_families _ _ _ _ _) as [[r' m]|]; [|done]. cbn [mbind option_bind] in E.
  destruct (Z.ltb_spec r' 0); [injection E as ->; lia|].
  destruct m; cbn [negb] in E; [by eapply IH|]. neg_err E.
Qed.

Lemma checkIPAddrs_nonpos malloc certp blocks r :
  checkIPAddrs malloc certp blocks = Some r -> 0 <= r -> r = 0.
Proof.
  unfold checkIPAddrs. intros E Hr.
  destruct (find_extension _ _) as [[ext|]|]; [|neg_err E|done].
  cbn [mbind option_bind] in E. destruct (existsb _ _); [neg_err E|].
  by eapply check_families_nonpos.
Qed.

Lemma check_families_sound malloc i fs gs :
  roa_bytes_ok fs -> Forall (fun g => Forall entry_bytes_ok (family_entries g)) gs ->
  check_roa_families malloc i fs gs = Some 0 -> Forall (family_within gs) fs.
Proof.
  intros Hfs Hgs. revert i. induction fs as [|f fs IH]; intros i H; [constructor|].
  apply Forall_cons_1 in Hfs as [Hf Hfs]. cbn [check_roa_families] in H.
  destruct (match_families _ _ _ _ _) as [[r m]|] eqn:E; [|done]. cbn [mbind option_bind] in H.
  destruct (Z.ltb_spec r 0); [injection H as ->; lia|]. destruct m; [|done]. cbn [negb] in H.
  assert (r = 0) as -> by (by eapply match_families_nonpos).
  apply match_families_sound in E as [Hcov Hm]; [|done|done].
  constructor; [|by eapply IH]. split; [|exact Hcov].
  destruct (Hm eq_refl) as [?|?]; done.
Qed.

Lemma check_families_exact malloc i fs gs :
  (forall k l, malloc k l = true) ->
  Forall (fun f => Forall (fun a => bits_ok (address a)) (addresses f)) fs ->
  Forall canonical_family gs ->
  exists r, check_roa_families malloc i fs gs = Some r /\
    (r = 0 /\ Forall (family_within gs) fs \/
     r = ERR_SCM_ROAIPMISMATCH /\ ~ Forall (family_within gs) fs).
Proof.
  intros Hmem Hfs Hgs. revert i. induction fs as [|f fs IH]; intros i.
  - exists 0. split; [done|]. left. by split.
  - apply Forall_cons_1 in Hfs as [Hf Hfs]. cbn [check_roa_families].
    destruct (match_families_exact (malloc i) 0 f gs false (Hmem i) Hf Hgs)
      as (r & m & -> & [(-> & Hcov & Hm)|[-> Hcov]]); cbn [mbind option_bind].
    + change (0 <? 0) with false. cbv iota. destruct m; cbn [negb].
      * assert (Hw : family_within gs f).
        { split; [|exact Hcov]. by destruct (proj1 Hm eq_refl) as [?|?]. }
        destruct (IH Hfs (S i)) as (r & -> & [[-> Hr]|[-> Hr]]); eexists; (split; [done|]).
        -- left. split; [done|]. by constructor.
        -- right. split; [done|]. intros H. by apply Forall_cons_1 in H as [_ ?].
      * eexists. split; [done|]. right. split; [done|]. intros H.
        apply Forall_cons_1 in H as [[Hex _] _]. assert (false = true) by (apply Hm; by right). done.
    + eexists. split; [done|]. right. split; [done|]. intros H.
      apply Forall_cons_1 in H as [[_ Hw] _]. by apply Hcov.
Qed.

(** C20: for a ROA and a certificate in the form the RFCs require (DER bit
    strings, the certificate's entries ordered and disjoint) and enough memory,
    the sweep over sorted ranges decides whether every prefix of the ROA lies
    inside of one entry of the certificate's family of the same kind, and it is
    free of undefined behaviour. *)
Theorem checkIPAddrs_exact malloc certp blocks :
  (forall i j, malloc i j = true) ->
  is_Some (find_extension (extensions certp) id_pe_ipAddrBlock) ->
  (forall ext, ext ∈ extensions certp -> Forall canonical_family (ipAddressBlock ext)) ->
  Forall (fun f => Forall (fun a => bits_ok (address a)) (addresses f)) blocks ->
  exists r, checkIPAddrs malloc certp blocks = Some r /\ (r = 0 <-> roa_within certp blocks).
Proof.
  intros Hmem [ext Hext] Hcan Hb. unfold checkIPAddrs, roa_within. rewrite Hext. cbn [mbind option_bind].
  pose proof (find_first_spec _ _ _ Hext) as Hfind. destruct ext as [ext|].
  2:{ eexists. split; [done|]. split; [done|]. intros (ext & [=] & _). }
  destruct Hfind as (l1 & l2 & Hl & _ & _).
  specialize (Hcan ext). rewrite Hl in Hcan at 1. specialize (Hcan ltac:(apply elem_of_app; right; left)).
  destruct (existsb is_inherit (ipAddressBlock ext)) eqn:Ei.
  - eexists. split; [done|]. split; [done|]. intros (ext' & [= <-] & Hni & _). exfalso.
    apply existsb_exists in Ei as (g & Hg & Eg). rewrite Forall_forall in Hni.
    apply list_elem_of_In in Hg. by rewrite (Hni g Hg) in Eg.
  - destruct (check_families_exact malloc 0 blocks _ Hmem Hb Hcan) as (r & -> & Hr).
    exists r. split; [done|].
    assert (Hni : Forall (fun g => is_inherit g = false) (ipAddressBlock ext)).
    { apply Forall_forall. intros g Hg. destruct (is_inherit g) eqn:Eg; [|done].
      rewrite <- Ei. symmetry. apply existsb_exists. exists g. split; [by apply list_elem_of_In|done]. }
    destruct Hr as [[-> Hr]|[-> Hr]].
    + split; [|done]. intros _. by exists ext.
    + split; [done|]. intros (ext' & [= <-] & _ & H). done.
Qed.

(** ** What an accepted ROA contains *)

(** The width of the addresses of a family. *)
Definition family_width (f : ROAIPAddressFamily) : option Z :=
  if decide (roa_addressFamily f = [0; 1]) then Some 32
  else if decide (roa_addressFamily f = [0; 2]) then Some 128 else None.

(** The largest length of the prefixes an address stands for. *)
Definition max_len (a : ROAIPAddress) : option Z :=
  match maxLength a with
  | None => Some (plen (address a))
  | Some m => snd (read_casn_num (maxLength_num (Some m)))
  end.

Lemma setuprange_some bs c :
  setuprange bs bs = Some c -> (2 <= length bs <= 18)%nat /\ hd 0 bs <= 8.
Proof.
  unfold setuprange. cbv zeta. destruct (Z.ltb_spec 23 (hd 0 bs)); [done|].
  destruct (range_copy bs (replicate RANGESIZE 0) _) as [x|] eqn:E; cbn [mbind option_bind]; [|done].
  destruct (Z.ltb_spec 8 (hd 0 bs)); [done|]. intros _. split; [|done].
  destruct bs as [|u data]; [done|]. unfold range_copy, RANGESIZE in E.
  destruct (Nat.ltb_spec 18 (length (u :: data))); [done|]. simpl in *.
  destruct (length data); [done|]. lia.
Qed.

Lemma test_maxLength_spec a W r :
  test_maxLength a W = Some r -> 0 <= r -> hd 0 (address a) <= 8 -> bytes_ok (address a) ->
  match maxLength a with
  | None => True
  | Some m => exists v, snd (read_casn_num (maxLength_num (Some m))) = Some v /\
                        plen (address a) <= v <= W
  end.
Proof.
  unfold test_maxLength. destruct (maxLength a) as [m|]; [|done].
  destruct (address a) as [|u data] eqn:Ea; [done|]. cbn [lookup list_lookup mbind option_bind].
  destruct (snd _) as [v|]; [|done]. cbn [mbind option_bind]. intros H Hr Hu Hok.
  exists v. split; [done|]. unfold plen, unused. cbn [tl hd] in *.
  apply Forall_cons_1 in Hok as [[Hu0 _] _]. cbn [length] in H.
  destruct (Z.ltb_spec v ((Z.of_nat (S (length data)) - 1) * 8 - u)); [neg_err H|].
  destruct (Z.ltb_spec W v); [neg_err H|]. lia.
Qed.

Lemma validate_addresses_spec family i l r :
  validate_addresses family i l = Some r -> 0 <= r -> family = 1 \/ family = 2 ->
  Forall (fun a =>
    (length (address a) <= (if (family =? 1)%Z then 5 else 17))%nat /\
    exists t, test_maxLength a (if family =? 1 then 32 else 128) = Some t /\ 0 <= t) l.
Proof.
  intros H Hr Hfam. revert H. induction l as [|a l IH]; intros H; [constructor|].
  cbn [validate_addresses] in H.
  destruct (validate_address family i a) as [e|] eqn:E; [|done]. cbn [mbind option_bind] in H.
  destruct (Z.ltb_spec e 0) as [|He]; [injection H as ->; lia|]. constructor; [|by apply IH].
  unfold validate_address in E.
  destruct (_ || _) eqn:Eo; [neg_err E|].
  destruct (test_maxLength a _) as [t|] eqn:Et; [|done]. cbn [mbind option_bind] in E.
  destruct (Z.ltb_spec t 0); [injection E as ->; lia|].
  apply orb_false_iff in Eo as [E1 E2].
  destruct Hfam as [-> | ->]; cbn in E1, E2, Et |- *; bprop; (split; [lia|]); by exists t.
Qed.

Lemma validate_families_spec num l r :
  validate_families num l = Some r -> 0 <= r ->
  Forall (fun f => exists W, family_width f = Some W /\
    Forall (fun a => (8 * (length (address a) - 1) <= Z.to_nat W)%nat /\
      exists t, test_maxLength a W = Some t /\ 0 <= t) (addresses f)) l.
Proof.
  intros H Hr. revert num H. induction l as [|f l IH]; intros num H; [constructor|].
  cbn [validate_families] in H.
  destruct (Z.ltb_spec 8 (Z.of_nat (length (roa_addressFamily f)))); [done|].
  destruct (Z.ltb_spec 2 (Z.of_nat (length (roa_addressFamily f)))) as [|Hlen]; [neg_err H|].
  destruct (roa_addressFamily f) as [|x0 [|x1 [|x2 fam]]] eqn:Ef;
    [done| | |cbn [length] in Hlen; lia].
  { cbn [lookup list_lookup mbind option_bind] in H. destruct (negb (x0 =? 0)); [neg_err H|done]. }
  cbn [lookup list_lookup mbind option_bind] in H.
  destruct (Z.eqb_spec x0 0) as [->|]; [|neg_err H]. cbn [negb] in H.
  destruct (negb (x1 =? 1) && negb (x1 =? 2)) eqn:Ex; [neg_err H|].
  destruct ((num =? 1) && (x1 =? 1)); [neg_err H|].
  destruct (addresses f) as [|a as_] eqn:Ea; [done|]. rewrite <- Ea in *.
  destruct (validate_addresses x1 _ _) as [e|] eqn:Ev; [|done]. cbn [mbind option_bind] in H.
  destruct (Z.ltb_spec e 0) as [|He]; [injection H as ->; lia|].
  assert (Hx : x1 = 1 \/ x1 = 2).
  { destruct (Z.eqb_spec x1 1); [by left|]. destruct (Z.eqb_spec x1 2); [by right|done]. }
  apply validate_addresses_spec in Ev; [|done|done].
  constructor; [|by eapply IH]. unfold family_width. rewrite Ef.
  destruct Hx as [-> | ->]; eexists; (split; [reflexivity|]);
    (eapply Forall_impl; [exact Ev|]); intros b (Hl & Ht); simpl in Hl; (split; [lia|done]).
Qed.

(** Every address with the prefix is between the ends of the prefix. *)
Definition in_prefix (W : Z) (bs : list Z) (x : Z) : Prop :=
  0 <= x < 2 ^ W /\ x / 2 ^ (W - plen bs) = pval bs.
Definition entry_has (W : Z) (e : IPAddressOrRangeA) (x : Z) : Prop :=
  entry_first e <= x * 2 ^ (144 - W) /\ (x + 1) * 2 ^ (144 - W) - 1 <= entry_last e.

Lemma in_prefix_ends W bs x :
  plen bs <= W <= 144 -> in_prefix W bs x ->
  first_addr bs <= x * 2 ^ (144 - W) /\ (x + 1) * 2 ^ (144 - W) - 1 <= last_addr bs.
Proof.
  intros HW [Hx Hp]. unfold first_addr, last_addr.
  replace (144 - plen bs) with ((W - plen bs) + (144 - W)) by lia.
  rewrite Z.pow_add_r by lia. rewrite <- Hp.
  assert (0 < 2 ^ (W - plen bs)) by (apply Z.pow_pos_nonneg; lia).
  assert (0 < 2 ^ (144 - W)) by (apply Z.pow_pos_nonneg; lia).
  pose proof (Z.div_mod x (2 ^ (W - plen bs)) ltac:(lia)).
  pose proof (Z.mod_pos_bound x (2 ^ (W - plen bs)) ltac:(lia)). nia.
Qed.

(** The addresses that an address of the ROA or a row of the database stands
    for lie in the certificate. *)
Definition within_cert (certp : Certificate) (fam : list Z) (W : Z) (in_it : Z -> Prop) : Prop :=
  exists ext g e, ext ∈ extensions certp /\ g ∈ ipAddressBlock ext /\
    cert_addressFamily g = fam /\ e ∈ family_entries g /\
    forall x, in_it x -> entry_has W e x.

Lemma plen_nonneg bs : (2 <= length bs)%nat -> hd 0 bs <= 8 -> 0 <= plen bs.
Proof. intros Hl Hu. unfold plen, unused. destruct bs as [|u [|x bs]]; simpl in *; lia. Qed.

Lemma max_len_ok a W :
  (8 * (length (address a) - 1) <= Z.to_nat W)%nat -> 0 <= W -> hd 0 (address a) <= 8 ->
  bytes_ok (address a) -> (exists t, test_maxLength a W = Some t /\ 0 <= t) ->
  exists m, max_len a = Some m /\ plen (address a) <= m <= W.
Proof.
  intros Hl HW Hu Hok (t & Ht & Hpos). pose proof (test_maxLength_spec a W t Ht Hpos Hu Hok) as Hm.
  unfold max_len. destruct (maxLength a) as [m|].
  - destruct Hm as (v & Hv & Hb). by exists v.
  - exists (plen (address a)). split; [done|]. unfold plen, unused.
    destruct (address a) as [|u data]; [simpl; lia|]. apply Forall_cons_1 in Hok as [[Hu0 _] _].
    simpl in *. lia.
Qed.

(** The sweep succeeds only on bit strings in range. *)
Lemma match_family_some ok f g r :
  match_family ok f g = Some r -> ok = true ->
  Forall (fun a => (2 <= length (address a) <= 18)%nat /\ hd 0 (address a) <= 8) (addresses f).
Proof.
  unfold match_family. intros H ->. cbn [negb] in H.
  destruct (mapM _ _) as [rs|] eqn:E; [|done]. apply mapM_Some_1 in E. clear H.
  induction E as [|a c l cs Hc _ IH]; constructor; [by eapply setuprange_some|done].
Qed.

Lemma match_families_some malloc j f gs b r m g :
  match_families malloc j f gs b = Some (r, m) -> 0 <= r -> g ∈ gs ->
  cert_addressFamily g = roa_addressFamily f ->
  Forall (fun a => (2 <= length (address a) <= 18)%nat /\ hd 0 (address a) <= 8) (addresses f).
Proof.
  intros H Hr. revert j b H. induction gs as [|g' gs IH]; intros j b H Hg Eg; [by apply elem_of_nil in Hg|].
  cbn [match_families] in H. case_bool_decide as Ef; cbn [negb] in H.
  - destruct (match_family (malloc j) f g') as [r'|] eqn:Em; [|done]. cbn [mbind option_bind] in H.
    destruct (Z.ltb_spec r' 0); [injection H as -> _; lia|].
    destruct (malloc j) eqn:Ej; [by eapply match_family_some|]. unfold match_family in Em. cbn in Em.
    injection Em as <-. done.
  - apply elem_of_cons in Hg as [->|Hg]; [done|]. by eapply IH.
Qed.

Lemma check_families_bits malloc i fs gs :
  check_roa_families malloc i fs gs = Some 0 -> Forall (family_within gs) fs ->
  Forall (fun f => Forall (fun a => (2 <= length (address a) <= 18)%nat /\ hd 0 (address a) <= 8)
                     (addresses f)) fs.
Proof.
  intros H Hw. revert i H. induction fs as [|f fs IH]; intros i H; [constructor|].
  apply Forall_cons_1 in Hw as [[(g & Hg & Eg) _] Hw]. cbn [check_roa_families] in H.
  destruct (match_families _ _ _ _ _) as [[r m]|] eqn:E; [|done]. cbn [mbind option_bind] in H.
  destruct (Z.ltb_spec r 0); [injection H as ->; lia|]. destruct m; [|done]. cbn [negb] in H.
  constructor; [by eapply match_families_some|by eapply IH].
Qed.

Section accepted.
Context (sha1 sha256 : list Z -> option (list Z)) (check_sig : CMS -> Certificate -> Z)
  (malloc : nat -> nat -> bool).

(** The number that is checked is the one that goes to the database. *)
Lemma asid_parts asid ret v :
  num_optional asid = false -> read_casn_num_max asid = (ret, v) -> 0 <= ret ->
  exists asn, v = Some asn /\ (if ret =? 0 then Some 0 else v) = Some asn.
Proof.
  intros Hopt E Hret. unfold read_casn_num_max in E. rewrite Hopt in E.
  destruct (num_content asid) as [startp|].
  - destruct (8 <? Z.of_nat (length startp)); [injection E as <- _; lia|].
    destruct startp as [|x c]; [injection E as <- _; lia|]. injection E as <- <-.
    eexists. split; [done|]. by destruct (Z.eqb_spec (Z.of_nat (length (x :: c))) 0).
  - destruct (num_default asid); [|injection E as <- _; lia].
    destruct (is_boolean _); injection E as <- <-; by exists 0.
Qed.

(** The parts of a run of [roaValidate] that accepts. *)
Lemma roaValidate_parts rp :
  num_optional (asID (roa_of rp)) = false ->
  roaValidate sha1 sha256 check_sig malloc rp = Some 0 ->
  exists certp certs asn, certificates rp = certp :: certs /\
    (exists r, cmsValidate sha1 sha256 check_sig rp = Some r /\ 0 <= r) /\
    roaAS_ID rp = Some asn /\ snd (read_casn_num_max (asID (roa_of rp))) = Some asn /\
    0 <= asn < 2 ^ 32 /\
    (exists r, validateIPContents (ipAddrBlocks (roa_of rp)) = Some r /\ 0 <= r) /\
    checkIPAddrs malloc certp (ipAddrBlocks (roa_of rp)) = Some 0.
Proof.
  unfold roaValidate. intros Hopt H.
  destruct (cmsValidate _ _ _ _) as [r|] eqn:Ecms; [|done]. cbn [mbind option_bind] in H.
  destruct (Z.ltb_spec r 0); [injection H as ->; lia|].
  destruct (same_objid _ _) as [[|]|]; try done. cbn [mbind option_bind negb] in H. cbv zeta in H.
  destruct (read_casn_num _) as [ret val]. destruct (ret =? 0); [|done]. cbn [negb] in H.
  destruct val as [val|]; [|done]. cbn [mbind option_bind] in H. destruct (val =? 0); [|done]. cbn [negb] in H.
  unfold roaAS_ID. destruct (read_casn_num_max (asID (roa_of rp))) as [ret2 asv] eqn:Eas.
  destruct (Z.ltb_spec ret2 0) as [|Hret2]; [done|].
  destruct (asid_parts _ _ _ Hopt Eas Hret2) as (asn & -> & Easn). rewrite Easn in H.
  cbn [mbind option_bind] in H. destruct (_ || _) eqn:Eb; [done|]. bprop.
  destruct (certificates rp) as [|certp certs]; [done|].
  destruct (validateIPContents _) as [rv|] eqn:Ev; [|done]. cbn [mbind option_bind] in H.
  destruct (Z.ltb_spec rv 0); [injection H as ->; lia|].
  destruct (checkIPAddrs malloc certp _) as [rc|] eqn:Ec; [|done]. cbn [mbind option_bind] in H.
  destruct (Z.ltb_spec rc 0); [injection H as ->; lia|].
  assert (rc = 0) as -> by (eapply checkIPAddrs_nonpos; [exact Ec|done]).
  exists certp, certs, asn. split_and!; try done; try lia.
  - by exists r.
  - simpl. f_equal. apply wrap_small. unfold uint_ok. lia.
  - by exists rv.
Qed.
End accepted.

(** ** From an accepted ROA to the database *)

(** What the row of an address has to be. *)
Definition row_ok (certp : Certificate) (fa : ROAIPAddressFamily * ROAIPAddress) (p : roa_prefix) : Prop :=
  exists W, family_width (fst fa) = Some W /\ W = 8 * prefix_family_length p /\
    Z.of_nat (length (prefix p)) = prefix_family_length p /\
    prefix_length p = plen (address (snd fa)) /\
    Some (prefix_max_length p) = max_len (snd fa) /\
    0 <= prefix_length p <= prefix_max_length p /\ prefix_max_length p <= W /\
    within_cert certp (roa_addressFamily (fst fa)) W
      (fun x => 0 <= x < 2 ^ W /\
         x / 2 ^ (W - prefix_length p) = be_val (prefix p) / 2 ^ (W - prefix_length p)).

Definition roa_addresses (blocks : list ROAIPAddressFamily) : list (ROAIPAddressFamily * ROAIPAddress) :=
  concat (map (fun f => map (pair f) (addresses f)) blocks).

(** The bits of the stored prefix. *)
Lemma stored_prefix u data (n : nat) :
  bytes_ok (u :: data) -> u <= 8 -> data <> [] -> (length data <= n)%nat ->
  length (blit 0 data (replicate n 0)) = n /\
  be_val (blit 0 data (replicate n 0)) / 2 ^ (8 * Z.of_nat n - plen (u :: data)) = pval (u :: data).
Proof.
  intros Hok Hu Hne Hl. apply Forall_cons_1 in Hok as [[Hu0 _] Hd].
  assert (Eb : blit 0 data (replicate n 0) = data ++ replicate (n - length data) 0).
  { unfold blit. by rewrite take_0, drop_replicate. }
  rewrite Eb. split; [rewrite length_app, length_replicate; lia|].
  unfold plen, pval, unused. cbn [hd tl]. rewrite Z.min_l by lia.
  rewrite be_val_app, be_val_zeros, length_replicate, Z.add_0_r.
  replace (8 * Z.of_nat n - (8 * Z.of_nat (length data) - u))
    with (8 * Z.of_nat (n - length data) + u) by lia.
  rewrite Z.pow_add_r, Z.pow_mul_r by lia. change (2 ^ 8) with 256.
  assert (0 < 256 ^ Z.of_nat (n - length data)) by (apply Z.pow_pos_nonneg; lia).
  assert (0 < 2 ^ u) by (apply Z.pow_pos_nonneg; lia).
  rewrite (Z.mul_comm (256 ^ _)). by rewrite Z.div_mul_cancel_r by lia.
Qed.

Lemma get_prefix_ok certp f a W (n : nat) :
  family_width f = Some W -> W = 8 * Z.of_nat n -> (n = 4 \/ n = 16)%nat ->
  bytes_ok (address a) -> (2 <= length (address a))%nat -> hd 0 (address a) <= 8 ->
  (8 * (length (address a) - 1) <= Z.to_nat W)%nat ->
  (exists t, test_maxLength a W = Some t /\ 0 <= t) ->
  within_cert certp (roa_addressFamily f) W (in_prefix W (address a)) ->
  exists p, get_prefix n a = Some p /\ row_ok certp (f, a) p.
Proof.
  intros HW En Hn Hok H2 Hu Hlen Ht Hwithin.
  destruct (max_len_ok a W) as (m & Hm & Hmb); [done|lia|done|done|done|].
  pose proof (plen_nonneg (address a) H2 Hu) as Hp0.
  unfold get_prefix. destruct (Nat.ltb_spec 17 (length (address a))) as [|_]; [lia|].
  destruct (address a) as [|u data] eqn:Ea; [simpl in H2; lia|].
  assert (Hu0 : 0 <= u) by (apply Forall_cons_1 in Hok as [[? _] _]; done). simpl in Hu, H2, Hlen.
  assert (Hpl : u8 (Z.of_nat (length data) * 8 - u) = plen (u :: data)).
  { unfold plen, unused. cbn [hd tl]. rewrite Z.min_l by lia.
    unfold u8. rewrite wrap_small; [lia|]. unfold uint_ok. change (2 ^ 8) with 256. lia. }
  assert (Hmax : match maxLength a with
                 | None | Some [] => Some (u8 (Z.of_nat (length data) * 8 - u))
                 | Some m => u8 <$> snd (read_casn_num (maxLength_num (Some m)))
                 end = Some m).
  { unfold max_len in Hm. destruct (maxLength a) as [[|y ml]|]; [done| |by rewrite Hpl, <- Ea].
    rewrite Hm. simpl. f_equal. apply wrap_small. unfold uint_ok. change (2 ^ 8) with 256. lia. }
  cbv zeta. rewrite Hmax. cbn [mbind option_bind]. eexists. split; [done|].
  destruct (stored_prefix u data n Hok Hu ltac:(intros ->; simpl in H2; lia) ltac:(lia)) as [Hl Hv].
  exists W. unfold row_ok; cbn [fst snd prefix_family_length prefix prefix_length prefix_max_length].
  rewrite Hpl, Ea, Hl. subst W.
  destruct Hwithin as (ext & g & e & He & Hg & Eg & Hin & Hx). split_and!; try done; try lia.
  exists ext, g, e. split_and!; try done. intros x [Hxb Hxq]. apply Hx. split; [done|]. by rewrite Hxq.
Qed.

Lemma family_prefixes_ok certp f mem n l ps alloc W :
  (forall k, mem k = true) ->
  Forall (fun a => exists p, get_prefix n a = Some p /\ row_ok certp (f, a) p) l ->
  family_width f = Some W ->
  exists ps' alloc', family_prefixes mem n l ps alloc = Some (Some (ps ++ ps', alloc')) /\
    Forall2 (row_ok certp) (map (pair f) l) ps'.
Proof.
  intros Hmem Hl HW. revert ps alloc. induction Hl as [|a l (p & Hp & Hrow) _ IH]; intros ps alloc.
  - exists [], alloc. split; [by rewrite app_nil_r|constructor].
  - cbn [family_prefixes]. rewrite Hmem, andb_false_r, Hp. cbn [mbind option_bind].
    destruct (IH (ps ++ [p]) (if (alloc <=? length ps)%nat then (alloc * 2)%nat else alloc))
      as (ps' & alloc' & E & HF).
    exists (p :: ps'), alloc'. split; [by rewrite E, <- app_assoc|]. by constructor.
Qed.

Lemma get_prefixes_ok certp mem blocks ps alloc :
  (forall k, mem k = true) ->
  Forall (fun f => exists W n, family_width f = Some W /\ W = 8 * Z.of_nat n /\
            Forall (fun a => exists p, get_prefix n a = Some p /\ row_ok certp (f, a) p) (addresses f)) blocks ->
  exists ps', get_prefixes mem blocks ps alloc = Some (Some (ps ++ ps')) /\
    Forall2 (row_ok certp) (roa_addresses blocks) ps'.
Proof.
  intros Hmem Hb. revert ps alloc. induction Hb as [|f blocks (W & n & HW & En & Ha) _ IH]; intros ps alloc.
  - exists []. split; [by rewrite app_nil_r|constructor].
  - destruct (family_prefixes_ok certp f mem n (addresses f) ps alloc W Hmem Ha HW) as (ps1 & alloc1 & E1 & F1).
    destruct (IH (ps ++ ps1) alloc1) as (ps2 & E2 & F2). exists (ps1 ++ ps2).
    split; [|unfold roa_addresses; cbn [map concat]; by apply Forall2_app].
    cbn [get_prefixes]. unfold family_width in HW.
    destruct (decide (roa_addressFamily f = [0; 1])) as [Ef|_].
    + rewrite Ef. injection HW as <-. assert (n = 4%nat) as -> by lia.
      change (Z.shiftl 0 8 + 1 =? 1) with true. cbv iota zeta.
      rewrite E1. cbn [mbind option_bind length Nat.ltb Nat.leb]. by rewrite E2, app_assoc.
    + destruct (decide (roa_addressFamily f = [0; 2])) as [Ef|_]; [|done].
      rewrite Ef. injection HW as <-. assert (n = 16%nat) as -> by lia.
      change (Z.shiftl 0 8 + 2 =? 1) with false. change (Z.shiftl 0 8 + 2 =? 2) with true. cbv iota zeta.
      rewrite E1. cbn [mbind option_bind length Nat.ltb Nat.leb]. by rewrite E2, app_assoc.
Qed.

(** Each address of the ROA is in the certificate, in the terms of its family. *)
Lemma checkIPAddrs_within malloc certp blocks f a W :
  checkIPAddrs malloc certp blocks = Some 0 -> cert_bytes_ok certp -> roa_bytes_ok blocks ->
  f ∈ blocks -> a ∈ addresses f -> (2 <= length (address a) <= 18)%nat /\ hd 0 (address a) <= 8 /\
  (plen (address a) <= W <= 144 ->
   within_cert certp (roa_addressFamily f) W (in_prefix W (address a))).
Proof.
  unfold checkIPAddrs. intros H Hc Hb Hf Ha.
  destruct (find_extension _ _) as [ext|] eqn:Ef; [|done]. cbn [mbind option_bind] in H.
  pose proof (find_first_spec _ _ _ Ef) as Hfind. destruct ext as [ext|]; [|done].
  destruct Hfind as (l1 & l2 & Hl & _).
  assert (Hext : ext ∈ extensions certp) by (rewrite Hl; apply elem_of_app; right; left).
  destruct (existsb _ _); [done|]. unfold cert_bytes_ok in Hc. rewrite Forall_forall in Hc.
  pose proof (check_families_sound malloc 0 blocks _ Hb (Hc ext Hext) H) as Hw.
  pose proof (check_families_bits malloc 0 blocks _ H Hw) as Hbits.
  rewrite Forall_forall in Hbits. specialize (Hbits f Hf). rewrite Forall_forall in Hbits.
  destruct (Hbits a Ha) as [Hlen Hu]. split_and!; try lia.
  intros HW. rewrite Forall_forall in Hw. destruct (Hw f Hf) as [(g & Hg & Eg) Hall].
  destruct (Hall g Hg Eg a Ha) as (e & He & H1 & H2). exists ext, g, e. split_and!; try done.
  intros x Hx. destruct (in_prefix_ends W (address a) x HW Hx). split; lia.
Qed.

(** C19: for a ROA that is accepted, the AS number is a 32-bit number and
    [roaGetPrefixes] gives one row per address, in order: the length of the
    prefix is at most the maximum length, which is at most the width of the
    family, and every address that shares the row's prefix lies in one entry of
    the certificate's resources for this family. *)
Theorem roaValidate_prefixes sha1 sha256 check_sig malloc mem rp :
  num_optional (asID (roa_of rp)) = false ->
  Forall cert_bytes_ok (certificates rp) -> roa_bytes_ok (ipAddrBlocks (roa_of rp)) ->
  (forall n, mem n = true) ->
  roaValidate sha1 sha256 check_sig malloc rp = Some 0 ->
  exists certp certs asn ps, certificates rp = certp :: certs /\
    roaAS_ID rp = Some asn /\ snd (read_casn_num_max (asID (roa_of rp))) = Some asn /\
    0 <= asn < 2 ^ 32 /\
    roaGetPrefixes mem rp = Some (Some ps) /\
    Forall2 (row_ok certp) (roa_addresses (ipAddrBlocks (roa_of rp))) ps.
Proof.
  intros Hopt Hcerts Hroa Hmem H.
  destruct (roaValidate_parts _ _ _ _ rp Hopt H)
    as (certp & certs & asn & Ec & _ & Eas & Eas' & Hasn & (rv & Hv & Hrv) & Hck).
  rewrite Ec in Hcerts. apply Forall_cons_1 in Hcerts as [Hcert _].
  unfold validateIPContents in Hv. destruct (_ || _) in Hv; [neg_err Hv|].
  apply validate_families_spec in Hv; [|done].
  destruct (get_prefixes_ok certp mem (ipAddrBlocks (roa_of rp)) [] 16 Hmem) as (ps & Eps & HF).
  { apply Forall_forall. intros f Hf. rewrite Forall_forall in Hv.
    destruct (Hv f Hf) as (W & HW & Hall).
    assert (exists n, W = 8 * Z.of_nat n /\ (n = 4 \/ n = 16)%nat) as (n & En & Hn).
    { unfold family_width in HW. destruct (decide _); [injection HW as <-; exists 4%nat; lia|].
      destruct (decide _); [injection HW as <-; exists 16%nat; lia|done]. }
    exists W, n. split_and!; [done|done|]. apply Forall_forall. intros a Ha.
    rewrite Forall_forall in Hall. destruct (Hall a Ha) as [Hlen Ht].
    destruct (checkIPAddrs_within malloc certp _ f a W Hck Hcert Hroa Hf Ha) as (Hl & Hu & Hwithin).
    assert (Hok : bytes_ok (address a)).
    { unfold roa_bytes_ok in Hroa. rewrite Forall_forall in Hroa. specialize (Hroa f Hf).
      rewrite Forall_forall in Hroa. by apply Hroa. }
    apply (get_prefix_ok certp f a W n); try done; try lia.
    apply Hwithin. destruct (max_len_ok a W) as (m & _ & Hm); [done|lia|done|done|done|]. lia. }
  exists certp, certs, asn, ps. split_and!; try done; try lia.
  unfold roaGetPrefixes. by rewrite Hmem.
Qed.

(** ** A certificate and a ROA *)

Definition sample_resources : extn_value :=
  extn_ipAddressBlock
    [{| cert_addressFamily := [0; 1];
        ipAddressChoice := addressesOrRanges
          [addressPrefix [0; 10]; addressRange [0; 192; 168] [0; 192; 170]] |}].
Definition sample_blocks : list ROAIPAddressFamily :=
  [{| roa_addressFamily := [0; 1];
      addresses := [{| address := [0; 192; 169]; maxLength := Some [24] |};
                    {| address := [4; 10; 32]; maxLength := None |}] |}].
Definition sample_roa : RouteOriginAttestation :=
  {| roa_version := sample_num true None; asID := sample_num false (Some [1; 0]);
     ipAddrBlocks := sample_blocks |}.
Definition sample_roa_cms : CMS :=
  sample_cms (oid_bytes 1 2 [840; 113549; 1; 9; 16; 1; 24]) [48; 0] (EROA sample_roa) sample_resources.

Lemma checkIPAddrs_exact_witness :
  exists r, checkIPAddrs (fun _ _ => true) (sample_cert sample_resources) sample_blocks = Some r /\
    (r = 0 <-> roa_within (sample_cert sample_resources) sample_blocks).
Proof.
  apply (checkIPAddrs_exact (fun _ _ => true) (sample_cert sample_resources) sample_blocks).
  - done.
  - vm_compute. by eexists.
  - intros ext. unfold sample_cert; cbn [extensions]. rewrite !elem_of_cons, elem_of_nil.
    intros [-> | [-> | []]]; repeat constructor; vm_compute; congruence.
  - repeat constructor; vm_compute; congruence.
Defined.

Lemma roaValidate_prefixes_witness :
  exists certp certs asn ps, certificates sample_roa_cms = certp :: certs /\
    roaAS_ID sample_roa_cms = Some asn /\
    snd (read_casn_num_max (asID (roa_of sample_roa_cms))) = Some asn /\ 0 <= asn < 2 ^ 32 /\
    roaGetPrefixes (fun _ => true) sample_roa_cms = Some (Some ps) /\
    Forall2 (row_ok certp) (roa_addresses (ipAddrBlocks (roa_of sample_roa_cms))) ps.
Proof.
  apply (roaValidate_prefixes sample_sha1 sample_sha256 (fun _ _ => 0) (fun _ _ => true)
           (fun _ => true) sample_roa_cms).
  - reflexivity.
  - repeat constructor; vm_compute; congruence.
  - repeat constructor; vm_compute; congruence.
  - done.
  - vm_compute. reflexivity.
Defined.
