(* ===== verification/Manifest.v ===== *)
(** * Manifest validation ([src/lib/rpki/cms/roa_validate.c])

    The checks of a manifest's version, number, dates and file names, and
    [manifestValidate]. [None] is undefined behaviour; the current time and the
    outcome of allocations are arguments. *)

From stdpp Require Import sorting.
From S2P Require Import Prelude CasnTime CasnNum CasnObjid RpkiObject CmsValidate CmsThm.

Definition MANIFEST_NUMBER_MAX_SIZE : Z := 20.
Definition NAME_MAX : Z := 255.

(** ** Version and number *)

Definition check_mft_version (casnp : casn_num) : option Z :=
  let '(lth, val) := read_casn_num casnp in
  if lth <? 0 then Some ERR_SCM_BADMANVER
  else
    val ← val;
    if negb (val =? 0) then Some ERR_SCM_BADMANVER
    else if negb (lth =? 0) then Some ERR_SCM_BADMANVER
    else Some 0.

Definition check_mft_number (number : list Z) : Z :=
  let lth := Z.of_nat (length number) in
  if lth <=? 0 then ERR_SCM_BADMFTNUM
  else if MANIFEST_NUMBER_MAX_SIZE <? lth then ERR_SCM_BADMFTNUM
  else if negb (Z.land (hd 0 number) 0x80 =? 0) then ERR_SCM_BADMFTNUM
  else 0.

(** ** Dates *)

(** The return value and [*stalep], which is only set in the end. *)
Definition check_mft_dates (now : Z) (manp : Manifest) (certp : Certificate) : Z * option bool :=
  match read_casn_time (thisUpdate manp) with
  | None => (ERR_SCM_INVALDT, None)
  | Some this =>
      if now <? this then (ERR_SCM_INVALDT, None)
      else match read_casn_time (nextUpdate manp) with
      | None => (ERR_SCM_INVALDT, None)
      | Some next =>
          if next <? this then (ERR_SCM_INVALDT, None)
          else match read_casn_time_choice (notBefore certp) with
          | None => (ERR_SCM_INVALDT, None)
          | Some before =>
              if this <? before then (ERR_SCM_INVALDT, None)
              else match read_casn_time_choice (notAfter certp) with
              | None => (ERR_SCM_INVALDT, None)
              | Some after =>
                  if after <? next then (ERR_SCM_INVALDT, None)
                  else (0, Some (next <? now))
              end
          end
      end
  end.

(** ** File names *)

Definition bad_name (file : list Z) : bool :=
  existsb (fun x => (x =? 0) || (x =? 47)) file ||
  bool_decide (file = [46]) || bool_decide (file = [46; 46]).

Fixpoint check_mft_filenames (l : list FileAndHash) : Z :=
  match l with
  | [] => 0
  | fah :: l =>
      let file_length := Z.of_nat (length (fah_file fah)) in
      if NAME_MAX <? file_length then ERR_SCM_BADMFTFILENAME
      else if file_length <=? 0 then ERR_SCM_BADMFTFILENAME
      else if bad_name (fah_file fah) then ERR_SCM_BADMFTFILENAME
      else if negb (length (fah_hash fah) =? 33)%nat then ERR_SCM_BADMFTHASH
      else check_mft_filenames l
  end.

(** The C string at the start of an array that ends with a NUL. *)
Fixpoint c_string (l : list Z) : list Z :=
  match l with
  | [] => []
  | x :: l => if x =? 0 then [] else x :: c_string l
  end.

(** The sign of [strcmp] on strings without their NUL. *)
Fixpoint strcmp (s t : list Z) : Z :=
  match s, t with
  | [], [] => 0
  | [], _ :: _ => -1
  | _ :: _, [] => 1
  | x :: s, y :: t => if x <? y then -1 else if y <? x then 1 else strcmp s t
  end.

Definition str_le (s t : list Z) : Prop := strcmp s t <= 0.
#[global] Instance str_le_dec s t : Decision (str_le s t).
Proof. unfold str_le. apply _. Defined.

(** [qsort] of pointers to strings: strings that compare equal are equal. *)
Definition qsort_names (l : list (list Z)) : list (list Z) := merge_sort str_le l.

Fixpoint adjacent_equal (l : list (list Z)) : bool :=
  match l with
  | s :: (t :: _) as l' => (strcmp s t =? 0) || adjacent_equal l'
  | _ => false
  end.

(** [mem 0] is the allocation of the array, [mem (S i)] that of a name. *)
Definition check_mft_duplicate_filenames (mem : nat -> bool) (l : list FileAndHash) : Z :=
  if (length l =? 0)%nat then 0
  else if forallb mem (seq 0 (S (length l))) then
    if adjacent_equal (qsort_names (map (fun fah => c_string (fah_file fah)) l))
    then ERR_SCM_MFTDUPFILE else 0
  else ERR_SCM_NOMEM.

(** ** The whole manifest *)

Section manifest.
Context (sha1 sha256 : list Z -> option (list Z)) (check_sig : CMS -> Certificate -> Z).
Context (now : Z) (mem : nat -> bool).

Definition manifestValidate (cmsp : CMS) : option (Z * option bool) :=
  same ← same_objid (eContentType cmsp) id_roa_pki_manifest;
  if negb same then Some (ERR_SCM_BADCT, None)
  else match econtent cmsp with
  | EManifest manp =>
      iRes ← check_mft_version (mft_version manp);
      if iRes <? 0 then Some (iRes, None)
      else
        let iRes := check_mft_number (manifestNumber manp) in
        if iRes <? 0 then Some (iRes, None)
        else
          same ← same_objid (fileHashAlg manp) id_sha256;
          if negb same then Some (ERR_SCM_BADHASHALG, None)
          else
            let iRes := check_mft_filenames (fileList manp) in
            if iRes <? 0 then Some (iRes, None)
            else
              let iRes := check_mft_duplicate_filenames mem (fileList manp) in
              if iRes <? 0 then Some (iRes, None)
              else
                iRes ← cmsValidate sha1 sha256 check_sig cmsp;
                if iRes <? 0 then Some (iRes, None)
                else match certificates cmsp with
                | [] => None
                | certp :: _ =>
                    let '(iRes, stale) := check_mft_dates now manp certp in
                    if iRes <? 0 then Some (iRes, stale)
                    else
                      non_inherit ← has_non_inherit_resources certp;
                      Some (if non_inherit : bool then ERR_SCM_NOTINHERIT else 0, stale)
                end
  | _ => Some (ERR_SCM_BADCT, None)
  end.
End manifest.

(** ** Names *)

Lemma strcmp_antisym s t : strcmp s t = - strcmp t s.
Proof.
  revert t. induction s as [|x s IH]; intros [|y t]; simpl; try lia.
  destruct (Z.ltb_spec x y), (Z.ltb_spec y x); try lia. apply IH.
Qed.

Lemma strcmp_eq s t : strcmp s t = 0 <-> s = t.
Proof.
  split; [|intros ->; induction t as [|x t IH]; simpl; rewrite ?Z.ltb_irrefl; done].
  revert t. induction s as [|x s IH]; intros [|y t]; simpl; try done.
  destruct (Z.ltb_spec x y), (Z.ltb_spec y x); try done. intros H'. f_equal; [lia|by apply IH].
Qed.

#[global] Instance str_le_total : Total str_le.
Proof. intros s t. unfold str_le. rewrite (strcmp_antisym t s). lia. Qed.

#[global] Instance str_le_trans : Transitive str_le.
Proof.
  unfold str_le. intros s. induction s as [|x s IH]; intros [|y t] [|z u]; simpl; try lia.
  destruct (Z.ltb_spec x y), (Z.ltb_spec y x), (Z.ltb_spec y z), (Z.ltb_spec z y),
    (Z.ltb_spec x z), (Z.ltb_spec z x); try lia. apply IH.
Qed.

(** After sorting, a name that occurs twice is next to itself. *)
Lemma adjacent_equal_spec l :
  StronglySorted str_le l -> adjacent_equal l = true <-> ~ NoDup l.
Proof.
  induction 1 as [|s l Hs IH Hall]; [split; [done|intros H; exfalso; apply H; constructor]|].
  rewrite NoDup_cons. destruct l as [|t l].
  - split; [done|]. intros H. exfalso. apply H. split; [apply not_elem_of_nil|constructor].
  - change (adjacent_equal (s :: t :: l)) with ((strcmp s t =? 0) || adjacent_equal (t :: l)).
    destruct (Z.eqb_spec (strcmp s t) 0) as [E|E]; cbn [orb].
    + split; [|done]. intros _ [Hnin _]. apply Hnin. apply strcmp_eq in E as ->. left.
    + rewrite IH. split; [by intros H [_ Hn]|]. intros H Hn. apply H. split; [|done].
      intros Hin. apply E. apply Forall_cons_1 in Hall as [Hst _].
      apply elem_of_cons in Hin as [->|Hin]; [by apply strcmp_eq|].
      apply StronglySorted_inv in Hs as [_ Ht]. rewrite Forall_forall in Ht. specialize (Ht s Hin).
      unfold str_le in *. rewrite (strcmp_antisym t s) in Ht. lia.
Qed.

Lemma c_string_id l : 0 ∉ l -> c_string l = l.
Proof.
  induction l as [|x l IH]; [done|]. rewrite not_elem_of_cons. intros [Hx Hl]. simpl.
  destruct (Z.eqb_spec x 0); [congruence|]. by rewrite IH.
Qed.

(** A name that stays in its directory, with a SHA-256 hash. *)
Definition good_file (fah : FileAndHash) : Prop :=
  (1 <= length (fah_file fah) <= 255)%nat /\ 0 ∉ fah_file fah /\ 47 ∉ fah_file fah /\
  fah_file fah <> [46] /\ fah_file fah <> [46; 46] /\ length (fah_hash fah) = 33%nat.

Lemma bad_name_spec file :
  bad_name file = false <-> 0 ∉ file /\ 47 ∉ file /\ file <> [46] /\ file <> [46; 46].
Proof.
  unfold bad_name. rewrite !orb_false_iff, !bool_decide_eq_false.
  assert (H : existsb (fun x => (x =? 0) || (x =? 47)) file = false <-> 0 ∉ file /\ 47 ∉ file).
  { induction file as [|x file IH]; simpl.
    - split; [intros _; split; apply not_elem_of_nil|done].
    - rewrite !not_elem_of_cons, !orb_false_iff, IH, !Z.eqb_neq. naive_solver. }
  rewrite H. tauto.
Qed.

Lemma check_mft_filenames_spec l :
  (check_mft_filenames l = 0 /\ Forall good_file l) \/
  (check_mft_filenames l < 0 /\ ~ Forall good_file l).
Proof.
  induction l as [|fah l IH]; [left; split; [done|constructor]|]. cbn [check_mft_filenames].
  unfold NAME_MAX.
  destruct (Z.ltb_spec 255 (Z.of_nat (length (fah_file fah)))).
  { right. split; [done|]. intros Hf. apply Forall_inv in Hf as [? _]. lia. }
  destruct (Z.leb_spec (Z.of_nat (length (fah_file fah))) 0).
  { right. split; [done|]. intros Hf. apply Forall_inv in Hf as [? _]. lia. }
  destruct (bad_name (fah_file fah)) eqn:Eb.
  { right. split; [done|]. intros Hf. apply Forall_inv in Hf as (_ & H1 & H2 & H3 & H4 & _).
    rewrite (proj2 (bad_name_spec _)) in Eb; done. }
  apply bad_name_spec in Eb as (H1 & H2 & H3 & H4).
  destruct (Nat.eqb_spec (length (fah_hash fah)) 33) as [E|E]; cbn [negb].
  2:{ right. split; [done|]. intros Hf. apply Forall_inv in Hf as (_ & _ & _ & _ & _ & ?). done. }
  destruct IH as [[-> Hl]|[Hneg Hl]]; [left|right]; (split; [done|]).
  - constructor; [|done]. unfold good_file. split_and!; try done; lia.
  - intros Hf. by apply Forall_cons_1 in Hf as [_ ?].
Qed.

Lemma check_dup_spec mem l :
  (forall n, mem n = true) -> Forall good_file l ->
  (check_mft_duplicate_filenames mem l = 0 /\ NoDup (map fah_file l)) \/
  (check_mft_duplicate_filenames mem l < 0 /\ ~ NoDup (map fah_file l)).
Proof.
  intros Hmem Hl. unfold check_mft_duplicate_filenames.
  destruct (Nat.eqb_spec (length l) 0) as [E|E]; [left; destruct l; [split; [done|constructor]|done]|].
  assert (forallb mem (seq 0 (S (length l))) = true) as ->.
  { apply forallb_forall. intros x _. apply Hmem. }
  assert (map (fun fah => c_string (fah_file fah)) l = map fah_file l) as ->.
  { clear E. induction Hl as [|fah l (_ & H0 & _) _ IH]; [done|]. simpl. by rewrite IH, c_string_id. }
  pose proof (adjacent_equal_spec (qsort_names (map fah_file l))) as Ha.
  specialize (Ha ltac:(apply StronglySorted_merge_sort; apply _)).
  assert (Hp : qsort_names (map fah_file l) ≡ₚ map fah_file l) by apply merge_sort_Permutation.
  destruct (adjacent_equal (qsort_names (map fah_file l))); [right|left]; (split; [done|]).
  - rewrite <- Hp. by apply Ha.
  - rewrite <- Hp. destruct (decide (NoDup (qsort_names (map fah_file l)))) as [|Hn]; [done|].
    apply Ha in Hn. done.
Qed.

(** ** Dates, version and number *)

Definition dates_ok (now : Z) (manp : Manifest) (certp : Certificate) (stale : bool) : Prop :=
  exists this next before after,
    read_casn_time (thisUpdate manp) = Some this /\ read_casn_time (nextUpdate manp) = Some next /\
    read_casn_time_choice (notBefore certp) = Some before /\
    read_casn_time_choice (notAfter certp) = Some after /\
    before <= this <= now /\ this <= next <= after /\ stale = (next <? now).

Lemma check_mft_dates_spec now manp certp :
  (exists stale, check_mft_dates now manp certp = (0, Some stale) /\ dates_ok now manp certp stale) \/
  (check_mft_dates now manp certp = (ERR_SCM_INVALDT, None) /\
   forall stale, ~ dates_ok now manp certp stale).
Proof.
  unfold check_mft_dates, dates_ok.
  destruct (read_casn_time (thisUpdate manp)) as [this|]; [|by right; split; [|naive_solver]].
  destruct (Z.ltb_spec now this).
  { right. split; [done|]. intros stale (t & n & b & a & [= ->] & _ & _ & _ & ? & _). lia. }
  destruct (read_casn_time (nextUpdate manp)) as [next|]; [|by right; split; [|naive_solver]].
  destruct (Z.ltb_spec next this).
  { right. split; [done|]. intros stale (t & n & b & a & [= ->] & [= ->] & _ & _ & _ & ? & _). lia. }
  destruct (read_casn_time_choice (notBefore certp)) as [before|]; [|by right; split; [|naive_solver]].
  destruct (Z.ltb_spec this before).
  { right. split; [done|]. intros stale (t & n & b & a & [= ->] & _ & [= ->] & _ & ? & _). lia. }
  destruct (read_casn_time_choice (notAfter certp)) as [after|]; [|by right; split; [|naive_solver]].
  destruct (Z.ltb_spec after next).
  { right. split; [done|]. intros stale (t & n & b & a & _ & [= ->] & _ & [= ->] & _ & ? & _). lia. }
  left. exists (next <? now). split; [done|]. exists this, next, before, after. split_and!; done || lia.
Qed.

Lemma check_mft_number_spec number :
  bytes_ok number ->
  (check_mft_number number = 0 /\ (1 <= length number <= 20)%nat /\ 0 <= twos_val number) \/
  (check_mft_number number < 0 /\ ~ ((1 <= length number <= 20)%nat /\ 0 <= twos_val number)).
Proof.
  intros Hok. unfold check_mft_number, MANIFEST_NUMBER_MAX_SIZE.
  destruct (Z.leb_spec (Z.of_nat (length number)) 0); [right; split; [done|lia]|].
  destruct (Z.ltb_spec 20 (Z.of_nat (length number))); [right; split; [done|lia]|].
  destruct number as [|x l]; [simpl in *; lia|]. pose proof (be_val_bound _ Hok) as Hb.
  apply Forall_cons_1 in Hok as [Hx Hl]. cbn [hd]. rewrite land_80 by done. unfold twos_val.
  destruct (Z.ltb_spec x 128); cbn [negb]; [left|right]; (split; [done|]); lia.
Qed.

(** The version has to be left out. *)
Lemma check_mft_version_spec v r :
  check_mft_version v = Some r ->
  (r = 0 /\ read_casn_num v = (0, Some 0)) \/ (r < 0 /\ read_casn_num v <> (0, Some 0)).
Proof.
  unfold check_mft_version. destruct (read_casn_num v) as [lth [val|]].
  - destruct (Z.ltb_spec lth 0); cbn [mbind option_bind].
    { intros [= <-]. right. split; [done|]. intros [=]. lia. }
    destruct (Z.eqb_spec val 0) as [->|]; cbn [negb].
    + destruct (Z.eqb_spec lth 0) as [->|]; intros [= <-]; [by left|right; split; [done|congruence]].
    + intros [= <-]. right. split; [done|congruence].
  - destruct (lth <? 0); [|done]. intros [= <-]. by right.
Qed.

(** What makes a manifest acceptable, and whether it is stale. *)
Definition manifest_ok (sha1 sha256 : list Z -> option (list Z)) (check_sig : CMS -> Certificate -> Z)
    (now : Z) (cmsp : CMS) (stale : bool) : Prop :=
  exists manp certp certs, econtent cmsp = EManifest manp /\ certificates cmsp = certp :: certs /\
    same_objid (eContentType cmsp) id_roa_pki_manifest = Some true /\
    read_casn_num (mft_version manp) = (0, Some 0) /\
    (1 <= length (manifestNumber manp) <= 20)%nat /\ 0 <= twos_val (manifestNumber manp) /\
    same_objid (fileHashAlg manp) id_sha256 = Some true /\
    Forall good_file (fileList manp) /\ NoDup (map fah_file (fileList manp)) /\
    (exists r, cmsValidate sha1 sha256 check_sig cmsp = Some r /\ 0 <= r) /\
    dates_ok now manp certp stale /\ has_non_inherit_resources certp = Some false.

Lemma neg_code (z : Z) : z < 0 -> (z <? 0) = true /\ z <> 0.
Proof. intros H. split; [by apply Z.ltb_lt|lia]. Qed.

Lemma bool_case (o : option bool) : o = Some true \/ o = Some false \/ o = None.
Proof. destruct o as [[|]|]; auto. Qed.

Section exact.
Context (sha1 sha256 : list Z -> option (list Z)) (check_sig : CMS -> Certificate -> Z).
Context (now : Z) (mem : nat -> bool) (Hmem : forall n, mem n = true).

(** C21: with enough memory, a manifest is accepted exactly when it has the
    manifest type, no explicit version, a manifest number of at most 20 bytes
    that is not negative, SHA-256 hashes, distinct file names that stay in their
    directory, a message that [cmsValidate] accepts, dates in order inside of the
    validity of its certificate, and a certificate that inherits its resources;
    it is reported stale exactly when its next update is over. *)
Theorem manifestValidate_exact cmsp stale :
  (forall manp, econtent cmsp = EManifest manp -> bytes_ok (manifestNumber manp)) ->
  manifestValidate sha1 sha256 check_sig now mem cmsp = Some (0, Some stale) <->
  manifest_ok sha1 sha256 check_sig now cmsp stale.
Proof using Hmem.
  intros Hnum. unfold manifestValidate, manifest_ok.
  destruct (bool_case (same_objid (eContentType cmsp) id_roa_pki_manifest)) as [E|[E|E]];
    rewrite E; cbn [mbind option_bind negb]; [|naive_solver..].
  destruct (econtent cmsp) as [|manp| |] eqn:Em; [naive_solver| |naive_solver..]. specialize (Hnum _ eq_refl).
  destruct (check_mft_version (mft_version manp)) as [rv|] eqn:Ev; cbn [mbind option_bind].
  2:{ split; [done|]. intros (m & c & cs & [= <-] & _ & _ & Hv & _).
      unfold check_mft_version in Ev. by rewrite Hv in Ev. }
  apply check_mft_version_spec in Ev as [[-> Hv]|[Hneg Hv]].
  2:{ destruct (neg_code _ Hneg) as [-> ?]. split; [intros [= ->]; done|].
      intros (m & c & cs & [= <-] & _ & _ & Hv' & _). done. }
  change (0 <? 0) with false. cbv iota zeta.
  destruct (check_mft_number_spec _ Hnum) as [(-> & Hl & Hpos)|[Hneg Hn]].
  2:{ destruct (neg_code _ Hneg) as [-> ?]. split; [intros [=]; done|].
      intros (m & c & cs & [= <-] & _ & _ & _ & ? & ? & _). by destruct Hn. }
  change (0 <? 0) with false. cbv iota.
  destruct (bool_case (same_objid (fileHashAlg manp) id_sha256)) as [Ea|[Ea|Ea]];
    rewrite Ea; cbn [mbind option_bind negb]; [|naive_solver..].
  destruct (check_mft_filenames_spec (fileList manp)) as [[-> Hf]|[Hneg Hf]].
  2:{ destruct (neg_code _ Hneg) as [-> ?]. split; [intros [=]; done|].
      intros (m & c & cs & [= <-] & _ & _ & _ & _ & _ & _ & ? & _). done. }
  change (0 <? 0) with false. cbv iota.
  destruct (check_dup_spec mem (fileList manp) Hmem Hf) as [[-> Hd]|[Hneg Hd]].
  2:{ destruct (neg_code _ Hneg) as [-> ?]. split; [intros [=]; done|].
      intros (m & c & cs & [= <-] & _ & _ & _ & _ & _ & _ & _ & ? & _). done. }
  change (0 <? 0) with false. cbv iota.
  destruct (cmsValidate sha1 sha256 check_sig cmsp) as [rc|]; cbn [mbind option_bind]; [|naive_solver].
  destruct (Z.ltb_spec rc 0) as [Hneg|Hrc].
  { split; [intros [=]; lia|]. naive_solver lia. }
  destruct (certificates cmsp) as [|certp certs]; [naive_solver|].
  destruct (check_mft_dates_spec now manp certp) as [(st & -> & Hst)|[-> Hst]].
  2:{ split; [done|]. intros (m & c & cs & [= <-] & [= <- <-] & H). naive_solver. }
  change (0 <? 0) with false. cbv iota.
  destruct (bool_case (has_non_inherit_resources certp)) as [En|[En|En]];
    rewrite En; cbn [mbind option_bind]; [naive_solver| |naive_solver].
  split.
  - intros [= ->]. exists manp, certp, certs. split_and!; try done; try lia. by exists rc.
  - intros (m & c & cs & [= <-] & [= <- <-] & _ & _ & _ & _ & _ & _ & _ & _ & Hd' & _). do 2 f_equal.
    destruct Hst as (t & n & b & a & E1 & E2 & _ & _ & _ & _ & ->).
    destruct Hd' as (t' & n' & b' & a' & E1' & E2' & _ & _ & _ & _ & ->). f_equal. congruence.
Qed.
End exact.

(** ** A manifest *)

Definition sample_time (y : Z) : casn_time :=
  {| time_ty := ASN_GENTIME; time_content := gen_bytes (mkCivil y 6 1 12 0 0) Zulu |}.
Definition sample_manifest : Manifest :=
  {| mft_version := sample_num true None; manifestNumber := [1; 44];
     thisUpdate := sample_time 2015; nextUpdate := sample_time 2016;
     fileHashAlg := oid_bytes 2 16 [840; 1; 101; 3; 4; 2; 1];
     fileList := [{| fah_file := [98; 46; 114; 111; 97]; fah_hash := replicate 33 0 |};
                  {| fah_file := [97; 46; 99; 114; 108]; fah_hash := replicate 33 0 |}] |}.
Definition sample_manifest_cms : CMS :=
  sample_cms (oid_bytes 1 2 [840; 113549; 1; 9; 16; 1; 26]) [48; 1] (EManifest sample_manifest)
    (extn_ipAddressBlock [{| cert_addressFamily := [0; 1]; ipAddressChoice := inherit |}]).

Lemma manifestValidate_exact_witness :
  manifest_ok sample_sha1 sample_sha256 (fun _ _ => 0) 1500000000 sample_manifest_cms true.
Proof.
  apply (manifestValidate_exact sample_sha1 sample_sha256 (fun _ _ => 0) 1500000000 (fun _ => true)
           ltac:(reflexivity) sample_manifest_cms true).
  - intros manp [= <-]. repeat constructor; vm_compute; congruence.
  - vm_compute. reflexivity.
Defined.
