(* ===== verification/RoaValidate2.v ===== *)
(** * The second validation of a ROA ([roaValidate2] of
      [src/lib/rpki/cms/roa_validate.c])

    Called when the certificate that signed the ROA's certificate is known. It
    compares the ROA with the certificate in the message once more, with the
    20-byte buffers of [setup_roa_minmax] and [setup_cert_minmax]. [None] is
    undefined behaviour. *)

From stdpp Require Import sorting.
From S2P Require Import Prelude CasnTime CasnNum CasnObjid RpkiObject CmsValidate CmsThm RoaValidate RoaRange RoaThm.

Definition HAS_EXTN_SKI : Z := 1.
Definition HAS_EXTN_ASN : Z := 2.
Definition HAS_EXTN_IPADDR : Z := 4.

(** [!memcmp(oidp, id, strlen(oidp))]: the text of the object identifier is a
    prefix of the constant. *)
Definition objid_prefix (oid id : list Z) : option bool :=
  text ← read_objid oid;
  let n := (length text - 1)%nat in
  Some (memcmp n text (id ++ [0]) =? 0).

(** Entries whose end is not after the start of the ROA's prefix are skipped.
    The buffers of the entry that is found, or an error. *)
Fixpoint skip_entries (fam : Z) (rmin : list Z) (c : list Z * list Z)
    (entries : list IPAddressOrRangeA) : option (Z + list Z * list Z) :=
  if memcmp 18 (drop 2 (snd c)) (drop 2 rmin) <=? 0 then
    match entries with
    | [] => Some (inl ERR_SCM_INVALIPB)
    | e :: entries =>
        mm ← setup_cert_minmax e fam;
        match mm with
        | inl _ => Some (inl ERR_SCM_INVALIPB)
        | inr c => skip_entries fam rmin c entries
        end
    end
  else Some (inr c).

(** One address: 0, an error, or 1 for [break]. *)
Definition match_address (rfam cfam : Z) (entries : list IPAddressOrRangeA) (a : ROAIPAddress)
    : option Z :=
  r ← setup_roa_minmax (address a) rfam;
  match entries with
  | [] => None
  | e :: entries =>
      c ← setup_cert_minmax e cfam;
      match r, c with
      | inr (rmin, rmax), inr c =>
          found ← skip_entries cfam rmin c entries;
          match found with
          | inl err => Some err
          | inr (cmin, cmax) =>
              Some (if (memcmp 18 (drop 2 rmin) (drop 2 cmin) <? 0) ||
                       (0 <? memcmp 18 (drop 2 rmax) (drop 2 cmax)) then 1 else 0)
          end
      | inl err, inr _ => Some err
      | _, inl err => Some err
      end
  end.

(** The loop over the addresses: [iRes] after it. *)
Fixpoint match_addresses (rfam cfam : Z) (entries : list IPAddressOrRangeA) (l : list ROAIPAddress)
    : option Z :=
  match l with
  | [] => Some 0
  | a :: l =>
      r ← match_address rfam cfam entries a;
      if r =? 0 then match_addresses rfam cfam entries l
      else if (r =? 1) || negb (bool_decide (length l = 0%nat)) then Some ERR_SCM_INVALIPB
      else Some r
  end.

(** The certificate's family with the ROA family's identifier, from the current
    one on; the families after it are kept for the next one. *)
Fixpoint find_family (rfam : list Z) (cur : IPAddressFamilyA) (rest : list IPAddressFamilyA)
    : option (IPAddressFamilyA * list IPAddressFamilyA) :=
  if memcmp 2 (cert_addressFamily cur) rfam =? 0 then Some (cur, rest)
  else match rest with [] => None | g :: rest => find_family rfam g rest end.

(** The loop over the ROA's families; after an error it only goes on looking for
    the remaining families. *)
Fixpoint match_roa_families (fs : list ROAIPAddressFamily) (cur : IPAddressFamilyA)
    (rest : list IPAddressFamilyA) (iRes : Z) : option Z :=
  match fs with
  | [] => Some iRes
  | f :: fs =>
      match find_family (roa_addressFamily f) cur rest with
      | None => Some ERR_SCM_INVALIPB
      | Some (cur, rest) =>
          if negb (iRes =? 0) then match_roa_families fs cur rest iRes
          else
            rfam ← roa_addressFamily f !! 1%nat;
            cfam ← cert_addressFamily cur !! 1%nat;
            r ← (match ipAddressChoice cur with
                 | inherit => Some 0
                 | addressesOrRanges entries =>
                     match addresses f with
                     | [] => None
                     | l => match_addresses rfam cfam entries l
                     end
                 end);
            match_roa_families fs cur rest r
      end
  end.

(** The loop over the extensions: [iRes] and [all_extns], or the early return. *)
Fixpoint match_extensions (rp : CMS) (ski : option (list Z)) (exts : list Extension) (all_extns : Z)
    : option (Z + Z * Z) :=
  match exts with
  | [] => Some (inr (0, all_extns))
  | e :: exts =>
      is_ski ← objid_prefix (extnID e) id_subjectKeyIdentifier;
      if is_ski : bool then
        if diff_bytes ski (subjectKeyIdentifier e) then Some (inl ERR_SCM_INVALSKI)
        else match_extensions rp ski exts (Z.lor all_extns HAS_EXTN_SKI)
      else
        is_ip ← objid_prefix (extnID e) id_pe_ipAddrBlock;
        if is_ip : bool then
          match ipAddressBlock e with
          | [] => None
          | g :: gs =>
              r ← match_roa_families (ipAddrBlocks (roa_of rp)) g gs 0;
              let all_extns := Z.lor all_extns HAS_EXTN_IPADDR in
              if negb (r =? 0) then Some (inr (r, all_extns))
              else match_extensions rp ski exts all_extns
          end
        else match_extensions rp ski exts all_extns
  end.

Definition roaValidate2 (check_sig : CMS -> Certificate -> Z) (rp : CMS) : option Z :=
  match certificates rp, signerInfos rp with
  | cert :: _, si :: _ =>
      match extensions cert with
      | [] => None
      | exts =>
          r ← match_extensions rp (si_ski si) exts 0;
          match r with
          | inl err => Some err
          | inr (iRes, all_extns) =>
              let iRes := if negb (all_extns =? Z.lor HAS_EXTN_IPADDR HAS_EXTN_SKI)
                          then ERR_SCM_INVALIPB else iRes in
              Some (if iRes =? 0 then check_sig rp cert else iRes)
          end
      end
  | _, _ => None
  end.

(** ** The buffers as numbers *)

(** A BIT STRING in DER form whose unused bits are zero, for an address of at
    most 16 bytes. *)
Definition der_ok (bs : list Z) : Prop :=
  bits_ok bs /\ (length bs <= 17)%nat /\ be_val (tl bs) mod 2 ^ hd 0 bs = 0.

(** Ends in units of the 17 bytes after the third one. *)
Definition first17 (bs : list Z) : Z := pval bs * 2 ^ (136 - plen bs).
Definition last17 (bs : list Z) : Z := (pval bs + 1) * 2 ^ (136 - plen bs) - 1.

Lemma ends17 bs :
  plen bs <= 136 -> first_addr bs = first17 bs * 256 /\ last_addr bs = (last17 bs + 1) * 256 - 1.
Proof.
  intros H. unfold first_addr, last_addr, first17, last17.
  replace (144 - plen bs) with ((136 - plen bs) + 8) by lia.
  rewrite Z.pow_add_r by lia. change (2 ^ 8) with 256. lia.
Qed.

Lemma byte_fill x u :
  byte_ok x -> 0 <= u <= 7 -> u8 (Z.lor x (Z.shiftl 1 u - 1)) = (x / 2 ^ u + 1) * 2 ^ u - 1.
Proof.
  intros Hx Hu. assert (0 <= x < 256) by exact Hx.
  assert (H2 : forallb (fun u => forallb (fun x => let x := Z.of_nat x in let u := Z.of_nat u in
      u8 (Z.lor x (Z.shiftl 1 u - 1)) =? (x / 2 ^ u + 1) * 2 ^ u - 1) (seq 0 256)) (seq 0 8) = true)
    by (vm_compute; reflexivity).
  rewrite forallb_forall in H2.
  specialize (H2 (Z.to_nat u) ltac:(apply in_seq; lia)). rewrite forallb_forall in H2.
  specialize (H2 (Z.to_nat x) ltac:(apply in_seq; lia)). cbv zeta in H2.
  rewrite !Z2Nat.id in H2 by lia. by bprop.
Qed.

Lemma pow136 (n : nat) u :
  (n <= 17)%nat -> 0 <= u ->
  2 ^ (136 - (8 * Z.of_nat n - u)) = 256 ^ Z.of_nat (17 - n) * 2 ^ u.
Proof.
  intros Hn Hu. change 256 with (2 ^ 8). rewrite <- Z.pow_mul_r, <- Z.pow_add_r by lia.
  f_equal. lia.
Qed.

(** A buffer that [memcmp] looks at. *)
Definition buf_val (buf : list Z) (v : Z) : Prop :=
  length (drop 2 buf) = 18%nat /\ bytes_ok (drop 2 buf) /\ be_val (drop 2 buf) = v.

Lemma encode_bits_app u data fill :
  (length data <= 16)%nat ->
  encode_bits (u :: data) (replicate MINMAXBUFSIZE fill) =
    3 :: Z.of_nat (S (length data)) :: u :: data ++ replicate (17 - length data) fill.
Proof.
  intros Hl. unfold encode_bits, blit, MINMAXBUFSIZE. rewrite take_0, drop_replicate.
  cbn [app length]. repeat f_equal; lia.
Qed.

Lemma min_val bs :
  der_ok bs -> buf_val (zero_third (encode_bits bs (replicate MINMAXBUFSIZE 0))) (first17 bs).
Proof.
  intros ((Hok & Hl & Hu) & Hl17 & Hpad). destruct bs as [|u data]; [simpl in Hl; lia|].
  apply Forall_cons_1 in Hok as [[Hu0 _] Hd]. simpl in Hl, Hl17, Hu, Hpad.
  rewrite encode_bits_app by lia. unfold zero_third, buf_val.
  change (drop 2 (<[2%nat:=0]> (3 :: Z.of_nat (S (length data)) :: u :: data ++ replicate (17 - length data) 0)))
    with (0 :: data ++ replicate (17 - length data) 0).
  split_and!.
  - simpl. rewrite length_app, length_replicate. lia.
  - constructor; [split; [lia|done]|]. apply bytes_ok_app. split; [done|].
    apply Forall_replicate. split; [lia|done].
  - rewrite be_val_cons, be_val_app, be_val_zeros, length_replicate.
    unfold first17, plen, pval, unused. cbn [hd tl]. rewrite Z.min_l, pow136 by lia.
    pose proof (Z.div_mod (be_val data) (2 ^ u) ltac:(apply Z.pow_nonzero; lia)). nia.
Qed.

Lemma max_val bs :
  bits_ok bs -> (length bs <= 17)%nat ->
  exists b, fill_max (encode_bits bs (replicate MINMAXBUFSIZE 0xFF)) = Some b /\
    buf_val (zero_third b) (last17 bs).
Proof.
  intros (Hok & Hl & Hu) Hl17. destruct bs as [|u data]; [simpl in Hl; lia|].
  apply Forall_cons_1 in Hok as [[Hu0 _] Hd]. simpl in Hl, Hl17, Hu.
  destruct data as [|y data _] using rev_ind; [simpl in Hl; lia|].
  apply bytes_ok_app in Hd as [Hd Hy]. apply Forall_inv in Hy. rewrite length_app in *. simpl in Hl, Hl17.
  rewrite encode_bits_app by (rewrite length_app; simpl; lia). rewrite length_app. cbn [length].
  unfold fill_max. cbn [lookup list_lookup mbind option_bind].
  destruct (Z.ltb_spec 30 u); [lia|].
  replace (Z.to_nat (Z.of_nat (S (length data + 1)) + 1)) with (3 + length data)%nat by lia.
  rewrite <- app_assoc.
  change (3 :: Z.of_nat (S (length data + 1)) :: u :: data ++ [y] ++ replicate (17 - (length data + 1)) 0xFF)
    with ([3; Z.of_nat (S (length data + 1)); u] ++ data ++ y :: replicate (17 - (length data + 1)) 0xFF).
  rewrite app_assoc, list_lookup_middle by (rewrite length_app; simpl; lia).
  eexists. split; [done|].
  rewrite insert_app_r_alt by (rewrite length_app; simpl; lia).
  replace (3 + length data - length ([3%Z; Z.of_nat (S (length data + 1)); u] ++ data))%nat with 0%nat
    by (rewrite length_app; simpl; lia).
  rewrite byte_fill by (done || lia). unfold zero_third, buf_val.
  set (z := (y / 2 ^ u + 1) * 2 ^ u - 1).
  change (drop 2 (<[2%nat:=0]> (([3; Z.of_nat (S (length data + 1)); u] ++ data) ++
            <[0%nat:=z]> (y :: replicate (17 - (length data + 1)) 0xFF))))
    with (0 :: data ++ z :: replicate (17 - (length data + 1)) 0xFF).
  assert (0 <= y < 256) by exact Hy. assert (Hp : 0 < 2 ^ u) by (apply Z.pow_pos_nonneg; lia).
  assert (Hyq : y / 2 ^ u < 2 ^ (8 - u)).
  { apply Z.div_lt_upper_bound; [lia|]. rewrite <- Z.pow_add_r by lia.
    replace (u + (8 - u)) with 8 by lia. lia. }
  assert (H256 : 2 ^ (8 - u) * 2 ^ u = 256).
  { rewrite <- Z.pow_add_r by lia. by replace (8 - u + u) with 8 by lia. }
  assert (0 <= y / 2 ^ u) by (apply Z.div_pos; lia).
  assert (Hz : byte_ok z) by (split; [subst z; nia|]; change (2 ^ 8) with 256; subst z; nia).
  split_and!.
  - simpl. rewrite length_app. simpl. rewrite length_replicate. lia.
  - constructor; [split; [lia|done]|]. apply bytes_ok_app. split; [done|]. constructor; [done|].
    apply Forall_replicate. split; [lia|done].
  - rewrite be_val_cons, be_val_app, be_val_cons, be_val_ones. cbn [length]. rewrite length_replicate.
    unfold last17, plen, pval, unused. cbn [hd tl]. rewrite Z.min_l by lia.
    rewrite (length_app data [y]). cbn [length]. rewrite pow136 by lia. rewrite pow256_S, be_val_snoc.
    pose proof (div_last (be_val data) y u ltac:(lia)) as Hdiv.
    assert (0 < 256 ^ Z.of_nat (17 - (length data + 1))) by (apply Z.pow_pos_nonneg; lia).
    subst z. nia.
Qed.
(** ** Buffers of entries and addresses *)

(** What [memcmp] sees of the start and of the end of a range: the ends of DER
    ranges leave the last byte of the buffer 0 and 255. *)
Definition low_buf (buf : list Z) (v : Z) : Prop := exists w, buf_val buf (w * 256) /\ v = w * 65536.
Definition high_buf (buf : list Z) (v : Z) : Prop :=
  exists w, buf_val buf (w * 256 + 255) /\ v = w * 65536 + 65535.

(** A DER bit string that a family's addresses can have. *)
Definition family_fits (size : Z) (bs : list Z) : Prop := der_ok bs /\ size_bits bs <= size.

Lemma low_shape bs : der_ok bs -> exists w, first17 bs = w * 256 /\ first_addr bs = w * 65536.
Proof.
  intros ((Hb & Hl & Hu) & Hl17 & _).
  destruct bs as [|u data]; [simpl in Hl; lia|]. apply Forall_cons_1 in Hb as [[Hu0 _] _].
  simpl in Hl, Hu, Hl17. unfold first_addr, first17, plen, unused. cbn [hd tl]. rewrite Z.min_l by lia.
  exists (pval (u :: data) * 2 ^ (128 - (8 * Z.of_nat (length data) - u))).
  set (p := pval _).
  replace (136 - (8 * Z.of_nat (length data) - u)) with (128 - (8 * Z.of_nat (length data) - u) + 8) by lia.
  replace (144 - (8 * Z.of_nat (length data) - u)) with (128 - (8 * Z.of_nat (length data) - u) + 16) by lia.
  rewrite !Z.pow_add_r by lia. change (2 ^ 8) with 256. change (2 ^ 16) with 65536. lia.
Qed.

Lemma high_shape bs :
  bits_ok bs -> (length bs <= 17)%nat ->
  exists w, last17 bs = w * 256 + 255 /\ last_addr bs = w * 65536 + 65535.
Proof.
  intros (Hb & Hl & Hu) Hl17.
  destruct bs as [|u data]; [simpl in Hl; lia|]. apply Forall_cons_1 in Hb as [[Hu0 _] _].
  simpl in Hl, Hu, Hl17. unfold last_addr, last17, plen, unused. cbn [hd tl]. rewrite Z.min_l by lia.
  exists ((pval (u :: data) + 1) * 2 ^ (128 - (8 * Z.of_nat (length data) - u)) - 1).
  set (p := pval _).
  replace (136 - (8 * Z.of_nat (length data) - u)) with (128 - (8 * Z.of_nat (length data) - u) + 8) by lia.
  replace (144 - (8 * Z.of_nat (length data) - u)) with (128 - (8 * Z.of_nat (length data) - u) + 16) by lia.
  rewrite !Z.pow_add_r by lia. change (2 ^ 8) with 256. change (2 ^ 16) with 65536. lia.
Qed.

Lemma minmax_bufs lo hi :
  der_ok lo -> der_ok hi ->
  exists cmin cmax, minmax lo hi = Some (cmin, cmax) /\
    low_buf cmin (first_addr lo) /\ high_buf cmax (last_addr hi).
Proof.
  intros Hlo [Hhi [Hl17 _]]. destruct (max_val hi Hhi Hl17) as (b & Eb & Hb).
  destruct (low_shape lo Hlo) as (w & Ew & Ew'), (high_shape hi Hhi Hl17) as (w2 & Ew2 & Ew2').
  unfold minmax. rewrite Eb. cbn [mbind option_bind]. do 2 eexists. split; [done|]. split.
  - exists w. rewrite <- Ew. split; [by apply min_val|done].
  - exists w2. rewrite <- Ew2. done.
Qed.

Lemma cert_bufs fam size e :
  family_size fam = Some size -> Forall (family_fits size) (entry_bits e) ->
  exists cmin cmax, setup_cert_minmax e fam = Some (inr (cmin, cmax)) /\
    low_buf cmin (entry_first e) /\ high_buf cmax (entry_last e).
Proof.
  intros Hs He. unfold setup_cert_minmax. rewrite Hs. destruct e as [p|lo hi]; simpl in He.
  - apply Forall_inv in He as [Hp Hl]. destruct (Z.ltb_spec size (size_bits p)); [lia|].
    destruct (minmax_bufs p p Hp Hp) as (a & b & -> & ?). by exists a, b.
  - apply Forall_cons_1 in He as [[Hlo Hl] He]. apply Forall_inv in He as [Hhi Hl'].
    destruct (Z.ltb_spec size (size_bits lo)); [lia|]. destruct (Z.ltb_spec size (size_bits hi)); [lia|].
    destruct (minmax_bufs lo hi Hlo Hhi) as (a & b & -> & ?). by exists a, b.
Qed.

Lemma roa_bufs fam size bs :
  family_size fam = Some size -> family_fits size bs ->
  exists rmin rmax, setup_roa_minmax bs fam = Some (inr (rmin, rmax)) /\
    low_buf rmin (first_addr bs) /\ high_buf rmax (last_addr bs).
Proof.
  intros Hs [Hb Hl]. unfold setup_roa_minmax. rewrite Hs.
  destruct (Z.ltb_spec size (size_bits bs)); [lia|].
  destruct (minmax_bufs bs bs Hb Hb) as (a & b & -> & ?). by exists a, b.
Qed.

Lemma memcmp_bufs b1 b2 v1 v2 :
  buf_val b1 v1 -> buf_val b2 v2 ->
  memcmp 18 (drop 2 b1) (drop 2 b2) = (if v1 <? v2 then -1 else if v2 <? v1 then 1 else 0).
Proof. intros (L1 & O1 & <-) (L2 & O2 & <-). by apply memcmp_be_val. Qed.

Ltac bufs H1 H2 := rewrite (memcmp_bufs _ _ _ _ H1 H2);
  repeat match goal with |- context [if ?a <? ?b then _ else _] => destruct (Z.ltb_spec a b) end;
  match goal with |- _ = (?a <? ?b) => destruct (Z.ltb_spec a b) end; try done; lia.

Lemma skip_test cmax rmin v1 v2 :
  high_buf cmax v1 -> low_buf rmin v2 -> (memcmp 18 (drop 2 cmax) (drop 2 rmin) <=? 0) = (v1 <? v2).
Proof. intros (w1 & H1 & ->) (w2 & H2 & ->). bufs H1 H2. Qed.

Lemma low_test rmin cmin v1 v2 :
  low_buf rmin v1 -> low_buf cmin v2 -> (memcmp 18 (drop 2 rmin) (drop 2 cmin) <? 0) = (v1 <? v2).
Proof. intros (w1 & H1 & ->) (w2 & H2 & ->). bufs H1 H2. Qed.

Lemma high_test rmax cmax v1 v2 :
  high_buf rmax v1 -> high_buf cmax v2 -> (0 <? memcmp 18 (drop 2 rmax) (drop 2 cmax)) = (v2 <? v1).
Proof. intros (w1 & H1 & ->) (w2 & H2 & ->). bufs H1 H2. Qed.

(** ** The search for an entry *)

Section search.
Context (fam size : Z) (Hsize : family_size fam = Some size).

Definition entry_bufs (c : list Z * list Z) (e : IPAddressOrRangeA) : Prop :=
  low_buf (fst c) (entry_first e) /\ high_buf (snd c) (entry_last e).

Definition ordered_entries : list IPAddressOrRangeA -> Prop :=
  StronglySorted (fun e1 e2 => entry_last e1 < entry_first e2).

(** The entry the search stops at: the only one that may hold the address. *)
Definition stops_at (v : Z) (entries : list IPAddressOrRangeA) (e : IPAddressOrRangeA) : Prop :=
  e ∈ entries /\ v <= entry_last e /\
  forall x, x ∈ entries -> x = e \/ entry_last x < v \/ entry_last e < entry_first x.

Lemma skip_entries_spec rmin v entries c e :
  low_buf rmin v -> entry_bufs c e ->
  Forall (fun e => Forall (family_fits size) (entry_bits e)) entries -> ordered_entries (e :: entries) ->
  (exists c' e', skip_entries fam rmin c entries = Some (inr c') /\ entry_bufs c' e' /\
     stops_at v (e :: entries) e') \/
  (skip_entries fam rmin c entries = Some (inl ERR_SCM_INVALIPB) /\
   forall x, x ∈ e :: entries -> entry_last x < v).
Proof.
  intros Hr. revert c e. induction entries as [|e1 entries IH]; intros c e [Hlo Hhi] Hfit Hord;
    cbn [skip_entries]; rewrite (skip_test _ _ _ _ Hhi Hr); destruct (Z.ltb_spec (entry_last e) v).
  - right. split; [done|]. intros x ->%list_elem_of_singleton. done.
  - left. exists c, e. split; [done|]. split; [done|]. split; [by left|]. split; [done|].
    intros x ->%list_elem_of_singleton. by left.
  - apply Forall_cons_1 in Hfit as [He Hfit].
    destruct (cert_bufs fam size e1 Hsize He) as (a & b & -> & Hab). cbn [mbind option_bind].
    apply StronglySorted_inv in Hord as [Hord _].
    destruct (IH (a, b) e1 Hab Hfit Hord) as [(c' & e' & -> & Hc' & Hin & Hle & Hx)|[-> Hall]].
    + left. exists c', e'. split; [done|]. split; [done|]. split; [by right|]. split; [done|].
      intros x [->|Hx']%elem_of_cons; [by right; left|]. by apply Hx.
    + right. split; [done|]. intros x [->|Hx]%elem_of_cons; [done|by apply Hall].
  - left. exists c, e. split; [done|]. split; [done|]. split; [by left|]. split; [done|].
    intros x [->|Hx]%elem_of_cons; [by left|]. right. right.
    apply StronglySorted_inv in Hord as [_ Hord]. rewrite Forall_forall in Hord. by apply Hord.
Qed.

Lemma match_address_spec entries a :
  entries <> [] -> Forall (fun e => Forall (family_fits size) (entry_bits e)) entries ->
  ordered_entries entries -> family_fits size (address a) ->
  exists r, match_address fam fam entries a = Some r /\
    (r = 0 <-> exists e, e ∈ entries /\ entry_contains e a).
Proof.
  intros Hne Hfit Hord Ha. unfold match_address, entry_contains.
  destruct (roa_bufs fam size _ Hsize Ha) as (rmin & rmax & -> & Hlo & Hhi). cbn [mbind option_bind].
  assert (Hfl : first_addr (address a) <= last_addr (address a)).
  { destruct Ha as (((Hb & Hl & _) & _) & _). apply first_le_last; [done|lia]. }
  destruct entries as [|e entries]; [done|]. pose proof Hfit as Hfit'.
  apply Forall_cons_1 in Hfit' as [He Hfit'].
  destruct (cert_bufs fam size e Hsize He) as (c1 & c2 & -> & Hc). cbn [mbind option_bind].
  destruct (skip_entries_spec rmin _ entries (c1, c2) e Hlo Hc Hfit' Hord)
    as [([d1 d2] & e' & -> & [Hd1 Hd2] & Hin & Hle & Hx)|[-> Hall]]; cbn [mbind option_bind].
  - cbn [fst snd] in Hd1, Hd2. eexists. split; [done|]. rewrite (low_test _ _ _ _ Hlo Hd1), (high_test _ _ _ _ Hhi Hd2).
    destruct (Z.ltb_spec (first_addr (address a)) (entry_first e')), (Z.ltb_spec (entry_last e') (last_addr (address a)));
      cbn [orb]; (split; [|done||intros (x & Hxin & Hx1 & Hx2); destruct (Hx x Hxin) as [->|[?|?]]; lia]);
      try done. by exists e'.
  - eexists. split; [done|]. split; [done|]. intros (x & Hin & Hx1 & Hx2). specialize (Hall x Hin). lia.
Qed.

Lemma match_addresses_spec entries l :
  entries <> [] -> Forall (fun e => Forall (family_fits size) (entry_bits e)) entries ->
  ordered_entries entries -> Forall (fun a => family_fits size (address a)) l ->
  exists r, match_addresses fam fam entries l = Some r /\
    (r = 0 <-> forall a, a ∈ l -> exists e, e ∈ entries /\ entry_contains e a).
Proof.
  intros Hne Hfit Hord Hl. induction Hl as [|a l Ha _ (r & Er & Hr)].
  { exists 0. split; [done|]. split; [|done]. intros _ a Hin. by apply not_elem_of_nil in Hin. }
  cbn [match_addresses].
  destruct (match_address_spec entries a Hne Hfit Hord Ha) as (r0 & -> & Hr0). cbn [mbind option_bind].
  destruct (Z.eqb_spec r0 0) as [->|H0].
  - exists r. split; [done|]. rewrite Hr. split; intros H.
    + intros b [->|Hb]%elem_of_cons; [by apply Hr0|by apply H].
    + intros b Hb. apply H. by right.
  - exists (if (r0 =? 1) || negb (bool_decide (length l = 0%nat)) then ERR_SCM_INVALIPB else r0).
    split; [by case_match|]. split.
    + case_match; [done|done].
    + intros H. destruct H0. apply Hr0, H. by left.
Qed.
End search.

(** ** The two validations *)

(** C36: For a family of a certificate and of a ROA in DER form the search of
    [roaValidate2] and the sweep of [roaValidate] come to the same verdict:
    both accept exactly when each prefix of the ROA lies inside of one entry of
    the certificate. *)
Theorem validations_equivalent fam size f g :
  family_size fam = Some size ->
  family_entries g <> [] -> canonical_family g ->
  Forall (fun e => Forall (family_fits size) (entry_bits e)) (family_entries g) ->
  Forall (fun a => family_fits size (address a)) (addresses f) ->
  exists r1 r2, match_family true f g = Some r1 /\
    match_addresses fam fam (family_entries g) (addresses f) = Some r2 /\
    (r1 = 0 <-> r2 = 0) /\ (r2 = 0 <-> family_covered f g).
Proof.
  intros Hs Hne Hcan Hg Hf.
  destruct (match_family_exact f g) as (r1 & E1 & H1); [|done|].
  { eapply Forall_impl; [exact Hf|]. by intros a [[Hb _] _]. }
  destruct (match_addresses_spec fam size Hs (family_entries g) (addresses f)) as (r2 & E2 & H2);
    [done|done|by destruct Hcan|done|].
  exists r1, r2. split; [done|]. split; [done|]. split; [|done]. rewrite H2. unfold family_covered in *.
  destruct H1 as [[-> ?]|[-> Hn]]; split; try done.
Qed.

(** ROAs that pass both, one of them for the last address of an entry. *)
Definition one_address_roa (bits : list Z) : CMS :=
  sample_cms (oid_bytes 1 2 [840; 113549; 1; 9; 16; 1; 24]) [48; 0]
    (EROA {| roa_version := sample_num true None; asID := sample_num false (Some [1; 0]);
             ipAddrBlocks := [{| roa_addressFamily := [0; 1];
                                 addresses := [{| address := bits; maxLength := None |}] |}] |})
    sample_resources.

Definition both_validations (rp : CMS) : option Z * option Z :=
  (roaValidate sample_sha1 sample_sha256 (fun _ _ => 0) (fun _ _ => true) rp,
   roaValidate2 (fun _ _ => 0) rp).

Example validations_agree :
  both_validations sample_roa_cms = (Some 0, Some 0) /\
  both_validations (one_address_roa [0; 10; 255; 255; 255]) = (Some 0, Some 0).
Proof. split; vm_compute; reflexivity. Qed.

(** An object identifier is taken for another one that it is a prefix of:
    2.5.29.1 for 2.5.29.14. *)
Example objid_prefix_confused :
  objid_prefix (oid_bytes 2 5 [29; 1]) id_subjectKeyIdentifier = Some true.
Proof. vm_compute. reflexivity. Qed.

Definition sample_family : IPAddressFamilyA :=
  {| cert_addressFamily := [0; 1];
     ipAddressChoice := addressesOrRanges
       [addressPrefix [0; 10]; addressRange [0; 192; 168] [0; 192; 170]] |}.
Definition sample_roa_family : ROAIPAddressFamily :=
  {| roa_addressFamily := [0; 1];
     addresses := [{| address := [0; 192; 169]; maxLength := Some [24] |};
                   {| address := [4; 10; 32]; maxLength := None |}] |}.

Lemma validations_equivalent_witness :
  exists r1 r2, match_family true sample_roa_family sample_family = Some r1 /\
    match_addresses 1 1 (family_entries sample_family) (addresses sample_roa_family) = Some r2 /\
    (r1 = 0 <-> r2 = 0) /\ (r2 = 0 <-> family_covered sample_roa_family sample_family).
Proof.
  apply (validations_equivalent 1 7 sample_roa_family sample_family).
  - reflexivity.
  - done.
  - repeat constructor; vm_compute; congruence.
  - repeat constructor; vm_compute; congruence.
  - repeat constructor; vm_compute; congruence.
Defined.
