(* ===== verification/Ghostbusters.v ===== *)
(** * Ghostbusters records ([src/lib/rpki/cms/roa_validate.c])

    [ghostbustersValidate]: a CMS message with the right type and no resources of its
    own, whose content is text. Of the C library, [mbrtowc] in the locale C.UTF-8
    (from the initial state) and the classes [iswcntrl] and [iswspace] of that
    locale are modelled; whether the locale is there is an argument. *)

From S2P Require Import Prelude CasnTime CasnNum CasnObjid RpkiObject CmsValidate CmsThm.

Definition ERR_SCM_BADCHAR : Z := -159.
Definition id_ct_rpkiGhostbusters := oid_text 1 2 [840; 113549; 1; 9; 16; 1; 35].

(** ** UTF-8 *)

Definition is_cont (b : Z) : bool := (128 <=? b) && (b <? 192).

(** A code point that can be encoded. *)
Definition scalar (c : Z) : bool := (0 <=? c) && (c <=? 0x10FFFF) && negb ((0xD800 <=? c) && (c <=? 0xDFFF)).

(** The first character and its length; [None] for an invalid or incomplete
    sequence. The null character has length 0. *)
Definition mbrtowc (s : list Z) : option (Z * nat) :=
  match s with
  | [] => None
  | b0 :: s =>
      if b0 <? 128 then Some (b0, if b0 =? 0 then 0%nat else 1%nat)
      else if b0 <? 0xC2 then None
      else if b0 <? 0xE0 then
        match s with
        | b1 :: _ => if is_cont b1 then Some ((b0 - 0xC0) * 64 + (b1 - 128), 2%nat) else None
        | _ => None
        end
      else if b0 <? 0xF0 then
        match s with
        | b1 :: b2 :: _ =>
            let c := ((b0 - 0xE0) * 64 + (b1 - 128)) * 64 + (b2 - 128) in
            if is_cont b1 && is_cont b2 && (0x800 <=? c) && scalar c then Some (c, 3%nat) else None
        | _ => None
        end
      else if b0 <? 0xF5 then
        match s with
        | b1 :: b2 :: b3 :: _ =>
            let c := (((b0 - 0xF0) * 64 + (b1 - 128)) * 64 + (b2 - 128)) * 64 + (b3 - 128) in
            if is_cont b1 && is_cont b2 && is_cont b3 && (0x10000 <=? c) && scalar c then Some (c, 4%nat) else None
        | _ => None
        end
      else None
  end.

Definition iswcntrl (c : Z) : bool :=
  (c <? 32) || ((127 <=? c) && (c <? 160)) || (c =? 0x2028) || (c =? 0x2029).
Definition iswspace (c : Z) : bool :=
  ((9 <=? c) && (c <=? 13)) || (c =? 32) || (c =? 0x1680) || ((0x2000 <=? c) && (c <=? 0x2006)) ||
  ((0x2008 <=? c) && (c <=? 0x200A)) || (c =? 0x2028) || (c =? 0x2029) || (c =? 0x205F) || (c =? 0x3000).

(** ** The checks *)

Definition check_ghostbusters_cms (cms : CMS) : option Z :=
  same ← same_objid (eContentType cms) id_ct_rpkiGhostbusters;
  Some (if same : bool then 0 else ERR_SCM_BADCT).

Definition check_ghostbusters_cert (cms : CMS) : option Z :=
  match certificates cms with
  | [] => None
  | cert :: _ =>
      non_inherit ← has_non_inherit_resources cert;
      Some (if non_inherit : bool then ERR_SCM_NOTINHERIT else 0)
  end.

(** The loop over the characters; each round uses up one byte at least. *)
Fixpoint content_loop (fuel : nat) (content : list Z) : Z :=
  match content, fuel with
  | [], _ | _, O => 0
  | _, S fuel =>
      match mbrtowc content with
      | Some (pwc, S n) =>
          if iswcntrl pwc && negb (iswspace pwc) then ERR_SCM_BADCHAR
          else content_loop fuel (drop (S n) content)
      | _ => ERR_SCM_BADCHAR
      end
  end.

(** A content of another type reads as empty. *)
Definition ghostbusters_content (cms : CMS) : list Z :=
  match econtent cms with EGhostbusters c => c | _ => [] end.

Definition check_ghostbusters_content (utf8_locale : bool) (cms : CMS) : Z :=
  if negb utf8_locale then 0
  else content_loop (length (ghostbusters_content cms)) (ghostbusters_content cms).

Definition ghostbustersValidate (sha1 sha256 : list Z -> option (list Z)) (check_sig : CMS -> Certificate -> Z)
    (utf8_locale : bool) (cms : CMS) : option Z :=
  sta ← cmsValidate sha1 sha256 check_sig cms;
  if sta <? 0 then Some sta
  else
    sta ← check_ghostbusters_cms cms;
    if sta <? 0 then Some sta
    else
      sta ← check_ghostbusters_cert cms;
      if sta <? 0 then Some sta
      else
        let sta := check_ghostbusters_content utf8_locale cms in
        Some (if sta <? 0 then sta else 0).

(** ** What text is *)

(** The encoding of RFC 3629. *)
Definition utf8 (c : Z) : list Z :=
  if c <? 0x80 then [c]
  else if c <? 0x800 then [0xC0 + c / 64; 128 + c mod 64]
  else if c <? 0x10000 then [0xE0 + c / 4096; 128 + (c / 64) mod 64; 128 + c mod 64]
  else [0xF0 + c / 262144; 128 + (c / 4096) mod 64; 128 + (c / 64) mod 64; 128 + c mod 64].

(** A character that may be in a record: no surrogate, and no control character but
    tab, line feed, vertical tab, form feed and carriage return. *)
Definition text_char (c : Z) : Prop :=
  0 <= c <= 0x10FFFF /\ ~ (0xD800 <= c <= 0xDFFF) /\ (9 <= c <= 13 \/ 32 <= c <= 126 \/ 160 <= c).
Definition utf8_text (content : list Z) : Prop := exists cs, content = concat (map utf8 cs) /\ Forall text_char cs.

Ltac div_lia := Z.to_euclidean_division_equations; lia.

Lemma scalar_spec c : scalar c = true <-> 0 <= c <= 0x10FFFF /\ ~ (0xD800 <= c <= 0xDFFF).
Proof. unfold scalar. rewrite !andb_true_iff, negb_true_iff, andb_false_iff, !Z.leb_le, !Z.leb_gt. lia. Qed.

Lemma cont_spec b : is_cont b = true <-> 128 <= b < 192.
Proof. unfold is_cont. by rewrite andb_true_iff, Z.leb_le, Z.ltb_lt. Qed.

Lemma ltb_cases x y : (x <? y) = true /\ x < y \/ (x <? y) = false /\ y <= x.
Proof. destruct (Z.ltb_spec x y); auto. Qed.

(** Decoding inverts encoding. *)
Lemma mbrtowc_utf8 c rest : scalar c = true -> c <> 0 -> mbrtowc (utf8 c ++ rest) = Some (c, length (utf8 c)).
Proof.
  intros Hs H0. pose proof Hs as Hs'. apply scalar_spec in Hs'. unfold utf8.
  assert (Hc : forall x, is_cont (128 + x mod 64) = true) by (intros x; apply cont_spec; div_lia).
  destruct (ltb_cases c 0x80) as [[-> H1]|[-> H1]].
  { cbn. rewrite (proj2 (Z.ltb_lt _ _) H1), (proj2 (Z.eqb_neq _ _) H0). done. }
  destruct (ltb_cases c 0x800) as [[-> H2]|[-> H2]]; [|destruct (ltb_cases c 0x10000) as [[-> H3]|[-> H3]]];
    cbn [app mbrtowc length]; rewrite ?Hc.
  - assert (2 <= c / 64 < 32) by div_lia.
    rewrite (proj2 (Z.ltb_ge _ 128)), (proj2 (Z.ltb_ge _ 0xC2)), (proj2 (Z.ltb_lt _ 0xE0)) by lia.
    do 2 f_equal. div_lia.
  - assert (0 <= c / 4096 < 16) by div_lia.
    rewrite (proj2 (Z.ltb_ge _ 128)), (proj2 (Z.ltb_ge _ 0xC2)), (proj2 (Z.ltb_ge _ 0xE0)), (proj2 (Z.ltb_lt _ 0xF0)) by lia.
    replace (_ * 64 + _) with c by div_lia. rewrite (proj2 (Z.leb_le _ _) H2), Hs. done.
  - assert (0 <= c / 262144 < 5) by div_lia.
    rewrite (proj2 (Z.ltb_ge _ 128)), (proj2 (Z.ltb_ge _ 0xC2)), (proj2 (Z.ltb_ge _ 0xE0)), (proj2 (Z.ltb_ge _ 0xF0)),
      (proj2 (Z.ltb_lt _ 0xF5)) by lia.
    replace (_ * 64 + _) with c by div_lia. rewrite (proj2 (Z.leb_le _ _) H3), Hs. done.
Qed.

(** What is decoded is an encoding, the shortest one. *)
Lemma mbrtowc_sound s c n : bytes_ok s -> mbrtowc s = Some (c, S n) ->
  scalar c = true /\ c <> 0 /\ length (utf8 c) = S n /\ s = utf8 c ++ drop (S n) s.
Proof.
  intros Hs H. destruct s as [|b0 s]; [done|]. inversion Hs as [|? ? Hb0 Hs']; subst.
  unfold byte_ok, uint_ok in Hb0. unfold mbrtowc in H.
  destruct (ltb_cases b0 128) as [[E H1]|[E H1]]; rewrite E in H.
  { destruct (Z.eqb_spec b0 0) as [->|Hn]; [done|]. injection H as <- <-. unfold utf8. rewrite E.
    split; [apply scalar_spec; lia|]. done. }
  destruct (ltb_cases b0 0xC2) as [[E2 H2]|[E2 H2]]; rewrite E2 in H; [done|].
  destruct (ltb_cases b0 0xE0) as [[E3 H3]|[E3 H3]]; rewrite E3 in H.
  { destruct s as [|b1 s]; [done|]. destruct (is_cont b1) eqn:C1; [|done]. apply cont_spec in C1.
    injection H as <- <-. set (v := _ + _). assert (v = (b0 - 192) * 64 + (b1 - 128)) as Ec by done.
    unfold utf8. rewrite (proj2 (Z.ltb_ge v 0x80)), (proj2 (Z.ltb_lt v 0x800)) by lia.
    split; [apply scalar_spec; lia|]. split; [lia|]. split; [done|]. cbn.
    replace (0xC0 + v / 64) with b0 by div_lia. replace (128 + v mod 64) with b1 by div_lia. done. }
  destruct (ltb_cases b0 0xF0) as [[E4 H4]|[E4 H4]]; rewrite E4 in H.
  { destruct s as [|b1 [|b2 s]]; [done..|]. set (v := _ + _) in H.
    destruct (is_cont b1) eqn:C1; [|done]. destruct (is_cont b2) eqn:C2; [|done].
    destruct (Z.leb_spec 0x800 v) as [Hlo|]; [|done]. destruct (scalar v) eqn:Hsc; [|done].
    apply cont_spec in C1, C2. injection H as <- <-. assert (v = ((b0 - 0xE0) * 64 + (b1 - 128)) * 64 + (b2 - 128)) as Ec by done.
    unfold utf8. rewrite (proj2 (Z.ltb_ge v 0x80)), (proj2 (Z.ltb_ge v 0x800)), (proj2 (Z.ltb_lt v 0x10000)) by lia.
    split; [done|]. split; [lia|]. split; [done|]. cbn.
    replace (0xE0 + v / 4096) with b0 by div_lia. replace (128 + (v / 64) mod 64) with b1 by div_lia.
    replace (128 + v mod 64) with b2 by div_lia. done. }
  destruct (ltb_cases b0 0xF5) as [[E5 H5]|[E5 H5]]; rewrite E5 in H; [|done].
  destruct s as [|b1 [|b2 [|b3 s]]]; [done..|]. set (v := _ + _) in H.
  destruct (is_cont b1) eqn:C1; [|done]. destruct (is_cont b2) eqn:C2; [|done]. destruct (is_cont b3) eqn:C3; [|done].
  destruct (Z.leb_spec 0x10000 v) as [Hlo|]; [|done]. destruct (scalar v) eqn:Hsc; [|done].
  apply cont_spec in C1, C2, C3. injection H as <- <-.
  assert (v = (((b0 - 0xF0) * 64 + (b1 - 128)) * 64 + (b2 - 128)) * 64 + (b3 - 128)) as Ec by done.
  unfold utf8. rewrite (proj2 (Z.ltb_ge v 0x80)), (proj2 (Z.ltb_ge v 0x800)), (proj2 (Z.ltb_ge v 0x10000)) by lia.
  split; [done|]. split; [lia|]. split; [done|]. cbn.
  replace (0xF0 + v / 262144) with b0 by div_lia. replace (128 + (v / 4096) mod 64) with b1 by div_lia.
  replace (128 + (v / 64) mod 64) with b2 by div_lia. replace (128 + v mod 64) with b3 by div_lia. done.
Qed.

Lemma text_char_spec c : text_char c <-> scalar c = true /\ c <> 0 /\ iswcntrl c && negb (iswspace c) = false.
Proof.
  unfold text_char. rewrite scalar_spec. unfold iswcntrl, iswspace. split.
  - intros (H1 & H2 & H3). split; [done|]. split; [lia|].
    rewrite andb_false_iff, negb_false_iff, !orb_false_iff, !orb_true_iff, !andb_true_iff, andb_false_iff, !Z.ltb_ge, !Z.leb_gt, !Z.leb_le,
      !Z.eqb_neq, !Z.eqb_eq. lia.
  - intros ([H1 H2] & H0 & H3). split; [done|]. split; [done|].
    rewrite andb_false_iff, negb_false_iff, !orb_false_iff, !orb_true_iff, !andb_true_iff, andb_false_iff, !Z.ltb_ge, !Z.leb_gt, !Z.leb_le,
      !Z.eqb_neq, !Z.eqb_eq in H3. lia.
Qed.

Lemma utf8_length c : (1 <= length (utf8 c))%nat.
Proof. unfold utf8. repeat destruct (_ <? _); cbn; lia. Qed.

Lemma content_loop_spec fuel : forall l, bytes_ok l -> (length l <= fuel)%nat ->
  content_loop fuel l = 0 <-> utf8_text l.
Proof.
  induction fuel as [|fuel IH]; intros l Hl Hlen.
  { destruct l; [|cbn in Hlen; lia]. split; [|done]. intros _. by exists []. }
  destruct l as [|b l']; [split; [intros _; by exists []|done]|]. set (l := b :: l') in *. cbn [content_loop].
  change (match mbrtowc l with Some (pwc, S n) => if iswcntrl pwc && negb (iswspace pwc) then ERR_SCM_BADCHAR
    else content_loop fuel (drop (S n) l) | _ => ERR_SCM_BADCHAR end = 0 <-> 
    utf8_text l). unfold utf8_text.
  split.
  - destruct (mbrtowc l) as [[c [|n]]|] eqn:E; [done| |done].
    destruct (mbrtowc_sound l c n Hl E) as (Hs & H0 & Hn & El). destruct (_ && _) eqn:Et; [done|]. intros Hrest.
    apply IH in Hrest as (cs & Ecs & Hcs); [|by apply Forall_drop|rewrite length_drop; lia].
    exists (c :: cs). split; [cbn; by rewrite <- Ecs|]. constructor; [by apply text_char_spec|done].
  - intros ([|c cs] & Ecs & Hcs); [done|]. inversion Hcs as [|? ? Hc Hcs']; subst.
    apply text_char_spec in Hc as (Hs & H0 & Ht). cbn in Ecs. rewrite Ecs in Hl |- *.
    rewrite mbrtowc_utf8 by done. pose proof (utf8_length c). destruct (length (utf8 c)) as [|n] eqn:Elen; [lia|].
    rewrite Ht, <- Elen, drop_app_length. apply IH; [by apply Forall_app in Hl as [_ ?]| |by exists cs].
    pose proof (f_equal length Ecs) as El. rewrite length_app, Elen in El. lia.
Qed.

(** C22: [ghostbustersValidate] accepts a record exactly when it is a valid CMS message
    with the type of a ghostbusters record, its end-entity certificate has only
    inherited resources, and, if the system has the locale C.UTF-8, its content is the
    UTF-8 encoding of characters none of which is a control character, other than tab,
    vertical tab, form feed and the ends of lines. Without that locale any content is
    accepted. *)
Theorem ghostbustersValidate_exact sha1 sha256 check_sig utf8_locale cms :
  bytes_ok (ghostbusters_content cms) ->
  ghostbustersValidate sha1 sha256 check_sig utf8_locale cms = Some 0 <->
  exists v cert certs, cmsValidate sha1 sha256 check_sig cms = Some v /\ 0 <= v /\
    same_objid (eContentType cms) id_ct_rpkiGhostbusters = Some true /\
    certificates cms = cert :: certs /\ has_non_inherit_resources cert = Some false /\
    (utf8_locale = true -> utf8_text (ghostbusters_content cms)).
Proof.
  intros Hb. setoid_rewrite <- (content_loop_spec (length (ghostbusters_content cms)) (ghostbusters_content cms) Hb (le_n _)).
  unfold ghostbustersValidate, check_ghostbusters_content.
  assert (Hneg : forall l fuel, content_loop fuel l = 0 \/ content_loop fuel l = ERR_SCM_BADCHAR).
  { intros l fuel. revert l. induction fuel as [|fuel IH]; intros [|b l]; cbn -[mbrtowc]; auto.
    repeat case_match; auto. }
  destruct (cmsValidate sha1 sha256 check_sig cms) as [v|]; cbn; [|naive_solver].
  destruct (Z.ltb_spec v 0) as [Hv|Hv].
  { split; [intros [= ->]; lia|]. intros (? & ? & ? & [= <-] & ? & _). lia. }
  unfold check_ghostbusters_cms. destruct (same_objid _ _) as [[]|]; cbn; [|naive_solver..].
  unfold check_ghostbusters_cert. destruct (certificates cms) as [|cert certs]; cbn; [naive_solver|].
  destruct (has_non_inherit_resources cert) as [[]|] eqn:Ei; cbn; [naive_solver| |naive_solver].
  specialize (Hneg (ghostbusters_content cms) (length (ghostbusters_content cms))). split.
  - intros H. exists v, cert, certs. repeat (split; [done|]). intros ->. destruct Hneg as [?|Hbad]; [done|]. by rewrite Hbad in H.
  - intros (? & ? & ? & _ & _ & _ & _ & _ & Ht). destruct utf8_locale; [by rewrite Ht|done].
Qed.

(** A record that says "hi" in a message that is valid. *)
Definition sample_gbr : CMS :=
  sample_cms (oid_bytes 1 2 [840; 113549; 1; 9; 16; 1; 35]) [104; 105] (EGhostbusters [104; 105]) (extn_ipAddressBlock []).

Lemma ghostbustersValidate_exact_witness :
  exists v cert certs, cmsValidate sample_sha1 sample_sha256 (fun _ _ => 0) sample_gbr = Some v /\ 0 <= v /\
    same_objid (eContentType sample_gbr) id_ct_rpkiGhostbusters = Some true /\
    certificates sample_gbr = cert :: certs /\ has_non_inherit_resources cert = Some false /\
    (true = true -> utf8_text (ghostbusters_content sample_gbr)).
Proof.
  apply (ghostbustersValidate_exact sample_sha1 sample_sha256 (fun _ _ => 0) true sample_gbr).
  - apply (bool_decide_unpack _). vm_compute. exact I.
  - vm_compute. reflexivity.
Defined.
