(* ===== verification/RoaFile.v ===== *)
(** * ROAs in files ([src/lib/rpki/cms/roa_serialize.c])

    The armored Base64 form: [encode_b64], [decode_b64] with [findarmor], and
    [roaFromFile] and [roaToFile]. Buffers are lists; [None] is undefined behaviour (an
    access outside of a buffer), [inl] a status. [mem n] says whether the [n]th
    allocation of a call succeeds. Sizes are those of an [int]. *)

From stdpp Require Import strings.
From S2P Require Import Prelude CasnTime CasnNum CasnObjid RpkiObject CmsValidate RoaValidate.

Definition text (s : String.string) : list Z := map (fun a => Z.of_N (Ascii.N_of_ascii a)) (String.list_ascii_of_string s).

(** ** Encoding *)

Definition cb64 : list Z := text "ABCDEFGHIJKLMNOPQRSTUVWXYZabcdefghijklmnopqrstuvwxyz0123456789+/".
Definition b64_char (v : Z) : Z := nth (Z.to_nat v) cb64 0.
Definition CRLF : list Z := [13; 10].
Definition roaStart : list Z := text "-----BEGIN ROA-----" ++ CRLF.
Definition roaEnd : list Z := text "-----END ROA-----" ++ CRLF.

Definition encodeblock (in0 in1 in2 : Z) (len : nat) : list Z :=
  [b64_char (Z.shiftr in0 2);
   b64_char (Z.lor (Z.shiftl (Z.land in0 0x03) 4) (Z.shiftr (Z.land in1 0xf0) 4));
   if (1 <? len)%nat then b64_char (Z.lor (Z.shiftl (Z.land in1 0x0f) 2) (Z.shiftr (Z.land in2 0xc0) 6)) else 61;
   if (2 <? len)%nat then b64_char (Z.land in2 0x3f) else 61].

(** [inTemp] and [len] in each round of the loop. *)
Fixpoint triples (l : list Z) : list (Z * Z * Z * nat) :=
  match l with
  | [] => []
  | [x] => [(x, 0, 0, 1%nat)]
  | [x; y] => [(x, y, 0, 2%nat)]
  | x :: y :: z :: l => (x, y, z, 3%nat) :: triples l
  end.

(** [bufTemp] up to [outIndex], and [iTempSize]. *)
Record b64_buf := mkBuf { buf_out : list Z; buf_size : nat }.

Section b64.
Context (mem : nat -> bool).

(** One more kilobyte. *)
Definition grow (b : b64_buf) : Z + b64_buf :=
  if mem (buf_size b / 1024)%nat then inr (mkBuf (buf_out b) (buf_size b + 1024)) else inl ERR_SCM_NOMEM.

(** A byte after the check for room. *)
Definition push (c : Z) (b : b64_buf) : Z + b64_buf :=
  match (if (buf_size b <=? length (buf_out b))%nat then grow b else inr b) with
  | inl e => inl e
  | inr b => inr (mkBuf (buf_out b ++ [c]) (buf_size b))
  end.

Fixpoint push_all (l : list Z) (b : b64_buf) : Z + b64_buf :=
  match l with
  | [] => inr b
  | c :: l => match push c b with inl e => inl e | inr b => push_all l b end
  end.

(** The bytes, without a check. *)
Definition store_bytes (l : list Z) (b : b64_buf) : option b64_buf :=
  if (length (buf_out b) + length l <=? buf_size b)%nat then Some (mkBuf (buf_out b ++ l) (buf_size b)) else None.

Definition newline (b : b64_buf) : option (Z + b64_buf) :=
  match (if (buf_size b <=? length (buf_out b) - 1)%nat then grow b else inr b) with
  | inl e => Some (inl e)
  | inr b => inr <$> store_bytes CRLF b
  end.

Fixpoint encode_loop (per_line : nat) (rounds : list (Z * Z * Z * nat)) (blocksout : nat) (b : b64_buf) :
    option (Z + b64_buf) :=
  match rounds with
  | [] => Some (inr b)
  | (in0, in1, in2, len) :: rounds =>
      match push_all (encodeblock in0 in1 in2 len) b with
      | inl e => Some (inl e)
      | inr b =>
          if (per_line <=? S blocksout)%nat || (length rounds =? 0)%nat then
            r ← newline b;
            match r with inl e => Some (inl e) | inr b => encode_loop per_line rounds 0 b end
          else encode_loop per_line rounds (S blocksout) b
      end
  end.

(** The end marker and a null byte. *)
Definition finish (b : b64_buf) : option (Z + list Z) :=
  match (if (buf_size b <=? length (buf_out b) + length roaEnd + 1)%nat then grow b else inr b) with
  | inl e => Some (inl e)
  | inr b =>
      b ← store_bytes roaEnd b;
      _ ← store_bytes [0] b;
      Some (inr (buf_out b))
  end.

Definition encode_b64 (bufIn : list Z) (lineSize : Z) : option (Z + list Z) :=
  if (length bufIn =? 0)%nat || (lineSize <=? 0) then Some (inl ERR_SCM_INVALARG)
  else if negb (mem 0) then Some (inl ERR_SCM_NOMEM)
  else
    r ← encode_loop (Z.to_nat (lineSize / 4)) (triples bufIn) 0 (mkBuf roaStart 1024);
    match r with inl e => Some (inl e) | inr b => finish b end.

(** ** Armor *)

Fixpoint skip_while (p : Z -> bool) (l : list Z) : list Z :=
  match l with
  | [] => []
  | c :: l' => if p c then skip_while p l' else l
  end.
Definition isspace (c : Z) : bool := ((9 <=? c) && (c <=? 13)) || (c =? 32).
Definition is_dash (c : Z) : bool := c =? 45.
Definition is_eol (c : Z) : bool := (c =? 13) || (c =? 10).

(** [strncmp(run, tok, strlen(tok)) == 0], which may look behind the buffer. *)
Fixpoint starts_with (l tok : list Z) : option bool :=
  match tok, l with
  | [], _ => Some true
  | _, [] => None
  | t :: tok, c :: l => if c =? t then starts_with l tok else Some false
  end.

(** One or more of a class: what follows, if that. *)
Definition some_of (p : Z -> bool) (l : list Z) : option (list Z) :=
  let r := skip_while p l in if (length r =? length l)%nat then None else Some r.

Definition nonempty (l : list Z) : option (list Z) := match l with [] => None | _ => Some l end.

(** A token and the spaces after it; [Some None] is no match. *)
Definition token (tok l : list Z) : option (option (list Z)) :=
  m ← starts_with l tok;
  Some (if m : bool then nonempty (skip_while isspace (drop (length tok) l)) else None).

Definition findarmor (buf i1 i2 : list Z) : option (option nat) :=
  match (r ← some_of is_dash buf; r ← nonempty r; nonempty (skip_while isspace r)) with
  | None => Some None
  | Some run =>
      r ← token i1 run;
      match r with
      | None => Some None
      | Some run =>
          r ← token i2 run;
          match r with
          | None => Some None
          | Some run =>
              Some (r ← some_of is_dash run; r ← nonempty r; r ← some_of is_eol r; Some (length buf - length r)%nat)
          end
      end
  end.

(** ** Decoding *)

Definition cd64 : list Z := text "|$$$}rstuvwxyz{$$$$$$$>?@ABCDEFGHIJKLMNOPQRSTUVW$$$$$$XYZ[\]^_`abcdefghijklmnopq".

(** The value of a character plus 1, or 0. *)
Definition b64_val (c : Z) : Z :=
  let v := if (c <? 43) || (122 <? c) then 0 else nth (Z.to_nat (c - 43)) cd64 0 in
  if negb (v =? 0) then if v =? 36 then 0 else u8 (v - 61) else v.

Definition decodeblock (in0 in1 in2 in3 : Z) : list Z :=
  [u8 (Z.lor (Z.shiftl in0 2) (Z.shiftr in1 4));
   u8 (Z.lor (Z.shiftl in1 4) (Z.shiftr in2 2));
   u8 (Z.lor (Z.land (Z.shiftl in2 6) 0xc0) in3)].

(** To the text behind the first begin marker. *)
Fixpoint find_begin (armor l : list Z) : option (list Z) :=
  match l with
  | [] => Some []
  | c :: l' =>
      if c =? 45 then
        r ← findarmor l (text "BEGIN") armor;
        match r with Some n => Some (drop n l) | None => find_begin armor l' end
      else find_begin armor l'
  end.

(** The next value and what is left; an end marker is skipped with the byte behind it.
    Each round uses up a byte at least. *)
Fixpoint next_val (armor : list Z) (fuel : nat) (l : list Z) : option (Z * list Z) :=
  match l, fuel with
  | [], _ | _, O => Some (0, [])
  | c :: l', S fuel =>
      r ← (if c =? 45 then findarmor l (text "END") armor else Some None);
      let rest := match r with Some n => drop (S n) l | None => l' end in
      let v := b64_val c in
      if v =? 0 then next_val armor fuel rest else Some (v, rest)
  end.

(** The values of a block of at most [n] and what is left: a value at the very end of the
    text does not count. *)
Fixpoint read_quad (armor : list Z) (n : nat) (l : list Z) : option (list Z * list Z) :=
  match n, l with
  | O, _ | _, [] => Some ([], l)
  | S n, _ =>
      r ← next_val armor (length l) l;
      let '(v, rest) := r in
      match rest with
      | [] => Some ([], [])
      | _ => r ← read_quad armor n rest; Some (u8 (v - 1) :: fst r, snd r)
      end
  end.

(** With fewer than four values, the bytes that depend on the missing ones are not
    used. *)
Definition block_bytes (vals : list Z) : list Z :=
  take (length vals - 1) (decodeblock (nth 0 vals 0) (nth 1 vals 0) (nth 2 vals 0) (nth 3 vals 0)).

Fixpoint decode_loop (armor : list Z) (fuel : nat) (l : list Z) (b : b64_buf) : option (Z + list Z) :=
  match l, fuel with
  | [], _ | _, O => Some (inr (buf_out b))
  | _, S fuel =>
      r ← read_quad armor 4 l;
      match push_all (block_bytes (fst r)) b with
      | inl e => Some (inl e)
      | inr b => decode_loop armor fuel (snd r) b
      end
  end.

Definition decode_b64 (bufIn armor : list Z) : option (Z + list Z) :=
  if (length bufIn =? 0)%nat then Some (inl ERR_SCM_INVALARG)
  else if negb (mem 0) then Some (inl ERR_SCM_NOMEM)
  else
    l ← find_begin armor bufIn;
    decode_loop armor (length l) l (mkBuf [] 1024).
End b64.

(** ** Files *)

(** What [open], [fstat], [calloc] and [read] give. *)
Inductive roa_read := ReadFailed | ReadNoMem | ReadShort | ReadBytes (buf : list Z).

(** The formats of the callers (not [FMT_CONF], the text form of the tests). *)
Inductive roa_fmt := FMT_PEM | FMT_DER.

(** The structure at [rp]: not touched, constructed, or filled. *)
Inductive roa_rp := RpUntouched | RpEmpty | RpRoa (r : CMS).

Section files.
(** [decode_casn_lth] and [encode_casn] on the type CMS. *)
Context (decode_casn_lth : list Z -> option CMS) (encode_casn : CMS -> option (list Z)).
Context (mem : nat -> bool).
Context (sha1 sha256 : list Z -> option (list Z)) (check_sig : CMS -> Certificate -> Z) (malloc : nat -> nat -> bool).

Definition roaFromFile (file : roa_read) (fmt : roa_fmt) (doval : bool) : option (Z * roa_rp) :=
  match file with
  | ReadFailed => Some (ERR_SCM_COFILE, RpUntouched)
  | ReadNoMem => Some (ERR_SCM_NOMEM, RpUntouched)
  | ReadShort => Some (ERR_SCM_BADFILE, RpUntouched)
  | ReadBytes buf =>
      r ← (match fmt with FMT_PEM => decode_b64 mem buf (text "ROA") | FMT_DER => Some (inr buf) end);
      match r with
      | inl sta => Some (sta, RpEmpty)
      | inr buf =>
          match decode_casn_lth buf with
          | None => Some (ERR_SCM_INVALASN, RpEmpty)
          | Some rp =>
              if doval then iReturn ← roaValidate sha1 sha256 check_sig malloc rp; Some (iReturn, RpRoa rp)
              else Some (0, RpRoa rp)
          end
      end
  end.

(** The status and what [write] is given, when it writes all of it ([write_ok]);
    [der_mem] is the allocation of the encoding. *)
Definition roaToFile (open_ok der_mem write_ok : bool) (r : CMS) (fmt : roa_fmt) : option (Z * option (list Z)) :=
  if negb open_ok then Some (ERR_SCM_COFILE, None)
  else match encode_casn r with
  | None => Some (ERR_SCM_INVALASN, None)
  | Some buf_der =>
      if negb der_mem then Some (ERR_SCM_NOMEM, None)
      else
        let written buf := if write_ok then (0, Some buf) else (ERR_SCM_INVALASN, None) in
        match fmt with
        | FMT_PEM =>
            r ← encode_b64 mem buf_der 50;
            Some (match r with inl sta => (sta, None) | inr buf_pem => written buf_pem end)
        | FMT_DER => Some (written buf_der)
        end
  end.
End files.
