(* ===== verification/RoaFileThm.v ===== *)
(** * ROAs in files: the armored form round-trips where it is defined *)

From stdpp Require Import strings.
From Stdlib Require Import ZifyNat.
From S2P Require Import Prelude CasnTime CasnNum CasnObjid RpkiObject CmsValidate RoaValidate RoaFile.

(** ** The text *)

Definition block_of (r : Z * Z * Z * nat) : list Z := let '(x, y, z, len) := r in encodeblock x y z len.

(** The blocks with a line end after every [n]th, and after the last. *)
Fixpoint with_breaks (n k : nat) (rounds : list (Z * Z * Z * nat)) : list Z :=
  match rounds with
  | [] => []
  | r :: rounds =>
      block_of r ++ if (n <=? S k)%nat || (length rounds =? 0)%nat then CRLF ++ with_breaks n 0 rounds
                    else with_breaks n (S k) rounds
  end.

Definition armored (n : nat) (l : list Z) : list Z := roaStart ++ with_breaks n 0 (triples l) ++ roaEnd.

(** No line ends one byte before the end of a kilobyte. *)
Fixpoint breaks_fit (n k pos : nat) (rounds : list (Z * Z * Z * nat)) : bool :=
  match rounds with
  | [] => true
  | r :: rounds =>
      let pos := (pos + 4)%nat in
      if (n <=? S k)%nat || (length rounds =? 0)%nat
      then negb (pos mod 1024 =? 1023)%nat && breaks_fit n 0 (pos + 2) rounds
      else breaks_fit n (S k) pos rounds
  end.
Definition fits (n : nat) (l : list Z) : bool := breaks_fit n 0 (length roaStart) (triples l).

(** ** The buffer *)

Definition cap (n : nat) : nat := (1024 * Nat.max 1 ((n + 1023) / 1024))%nat.
Definition tight (b : b64_buf) : Prop := buf_size b = cap (length (buf_out b)).

Ltac nat_div := unfold cap in *; zify; Z.to_euclidean_division_equations; lia.

Section run.
Context (mem : nat -> bool) (Hmem : forall n, mem n = true).

Lemma push_tight c b : tight b -> exists b', push mem c b = inr b' /\ tight b' /\ buf_out b' = buf_out b ++ [c].
Proof.
  unfold push, grow, tight. intros H. rewrite Hmem. destruct (Nat.leb_spec (buf_size b) (length (buf_out b))); eexists;
    (split; [reflexivity|]); cbn [buf_out buf_size]; (split; [|done]); rewrite length_app; cbn [length]; nat_div.
Qed.

Lemma push_all_tight l : forall b, tight b -> exists b', push_all mem l b = inr b' /\ tight b' /\ buf_out b' = buf_out b ++ l.
Proof.
  induction l as [|c l IH]; intros b H; [exists b; by rewrite app_nil_r|]. cbn.
  destruct (push_tight c b H) as (b1 & -> & H1 & E1). destruct (IH b1 H1) as (b2 & -> & H2 & E2). exists b2.
  split; [done|]. split; [done|]. by rewrite E2, E1, <- app_assoc.
Qed.

Lemma newline_tight b : tight b -> Nat.odd (length (buf_out b)) = true ->
  if (length (buf_out b) mod 1024 =? 1023)%nat then newline mem b = None
  else exists b', newline mem b = Some (inr b') /\ tight b' /\ buf_out b' = buf_out b ++ CRLF.
Proof.
  unfold newline, store_bytes, tight. intros H [m Hodd]%Nat.odd_spec. cbn [length CRLF].
  assert (Hle : (buf_size b <=? length (buf_out b) - 1)%nat = false) by (apply Nat.leb_gt; nat_div). rewrite Hle.
  destruct (Nat.eqb_spec (length (buf_out b) mod 1024) 1023) as [Hm|Hm].
  - assert ((length (buf_out b) + 2 <=? buf_size b)%nat = false) as ->; [apply Nat.leb_gt; nat_div|done].
  - assert ((length (buf_out b) + 2 <=? buf_size b)%nat = true) as ->; [apply Nat.leb_le; nat_div|].
    eexists. split; [reflexivity|]. cbn [buf_out buf_size]. split; [|done]. rewrite length_app. change (length CRLF) with 2%nat. nat_div.
Qed.

Lemma block_length r : length (block_of r) = 4%nat.
Proof. by destruct r as [[[x y] z] len]. Qed.

Lemma encode_loop_spec n rounds : forall k b, tight b -> Nat.odd (length (buf_out b)) = true ->
  if breaks_fit n k (length (buf_out b)) rounds then
    exists b', encode_loop mem n rounds k b = Some (inr b') /\ tight b' /\ buf_out b' = buf_out b ++ with_breaks n k rounds
  else encode_loop mem n rounds k b = None.
Proof.
  induction rounds as [|r rounds IH]; intros k b H Hodd; [exists b; by rewrite app_nil_r|].
  cbn [breaks_fit encode_loop with_breaks]. destruct r as [[[x y] z] len] eqn:Er.
  change (encodeblock x y z len) with (block_of (x, y, z, len)). rewrite <- Er.
  destruct (push_all_tight (block_of r) b H) as (b1 & -> & H1 & E1).
  assert (L1 : length (buf_out b1) = (length (buf_out b) + 4)%nat) by (by rewrite E1, length_app, block_length).
  assert (O1 : Nat.odd (length (buf_out b1)) = true).
  { rewrite L1, Nat.odd_add. by rewrite Hodd. }
  destruct ((n <=? S k)%nat || (length rounds =? 0)%nat).
  - pose proof (newline_tight b1 H1 O1) as Hn. rewrite L1 in Hn.
    destruct ((length (buf_out b) + 4) mod 1024 =? 1023)%nat; cbn [negb andb]; [by rewrite Hn|].
    destruct Hn as (b2 & -> & H2 & E2). cbn [mbind option_bind].
    assert (L2 : length (buf_out b2) = (length (buf_out b) + 4 + 2)%nat) by (rewrite E2, length_app, L1; done).
    assert (O2 : Nat.odd (length (buf_out b2)) = true).
    { rewrite L2, Nat.odd_add, <- L1. by rewrite O1. }
    specialize (IH 0%nat b2 H2 O2). rewrite L2 in IH. destruct (breaks_fit n 0 _ rounds); [|done].
    destruct IH as (b3 & -> & H3 & E3). exists b3. split; [done|]. split; [done|]. by rewrite E3, E2, E1, <- !app_assoc.
  - specialize (IH (S k) b1 H1 O1). rewrite L1 in IH. destruct (breaks_fit n (S k) _ rounds); [|done].
    destruct IH as (b3 & -> & H3 & E3). exists b3. split; [done|]. split; [done|]. by rewrite E3, E1, <- !app_assoc.
Qed.

Lemma finish_tight b : tight b -> finish mem b = Some (inr (buf_out b ++ roaEnd)).
Proof.
  unfold finish, grow, tight, store_bytes. intros H. rewrite Hmem. change (length roaEnd) with 19%nat.
  destruct (Nat.leb_spec (buf_size b) (length (buf_out b) + 19 + 1)); cbn [buf_out buf_size].
  - assert ((length (buf_out b) + 19 <=? buf_size b + 1024)%nat = true) as ->; [apply Nat.leb_le; nat_div|].
    cbn [mbind option_bind buf_out buf_size]. rewrite length_app. change (length roaEnd) with 19%nat. cbn [length].
    assert ((length (buf_out b) + 19 + 1 <=? buf_size b + 1024)%nat = true) as ->; [apply Nat.leb_le; nat_div|done].
  - assert ((length (buf_out b) + 19 <=? buf_size b)%nat = true) as ->; [apply Nat.leb_le; lia|].
    cbn [mbind option_bind buf_out buf_size]. rewrite length_app. change (length roaEnd) with 19%nat. cbn [length].
    assert ((length (buf_out b) + 19 + 1 <=? buf_size b)%nat = true) as ->; [apply Nat.leb_le; lia|done].
Qed.

Lemma encode_spec l ls : l <> [] -> 0 < ls ->
  encode_b64 mem l ls = if fits (Z.to_nat (ls / 4)) l then Some (inr (armored (Z.to_nat (ls / 4)) l)) else None.
Proof.
  intros Hl Hls. unfold encode_b64, fits, armored.
  replace ((length l =? 0)%nat || (ls <=? 0)) with false.
  2: { destruct l; [done|]. symmetry. apply Z.leb_gt. lia. }
  rewrite Hmem. cbn [negb]. pose proof (encode_loop_spec (Z.to_nat (ls / 4)) (triples l) 0 (mkBuf roaStart 1024) eq_refl eq_refl) as H.
  cbn [buf_out] in H. destruct (breaks_fit _ _ _ _); [|by rewrite H].
  destruct H as (b & -> & Hb & Eb). cbn [mbind option_bind]. rewrite finish_tight by done. by rewrite Eb, <- app_assoc.
Qed.
End run.

(** ** Bits *)

Lemma below (n : nat) (P : Z -> bool) : forallb P (map Z.of_nat (seq 0 n)) = true -> forall x, 0 <= x < Z.of_nat n -> P x = true.
Proof.
  intros H x Hx. rewrite forallb_forall in H. apply H, in_map_iff. exists (Z.to_nat x). split; [lia|]. apply in_seq. lia.
Qed.

Lemma below2 (n m : nat) (P : Z -> Z -> bool) :
  forallb (fun x => forallb (P x) (map Z.of_nat (seq 0 m))) (map Z.of_nat (seq 0 n)) = true ->
  forall x y, 0 <= x < Z.of_nat n -> 0 <= y < Z.of_nat m -> P x y = true.
Proof. intros H x y Hx Hy. apply (below m); [|done]. by apply (below n _ H). Qed.

Lemma shiftr_2 x : Z.shiftr x 2 = x / 4.
Proof. by rewrite Z.shiftr_div_pow2. Qed.
Lemma low_6 x : Z.land x 0x3f = x mod 64.
Proof. change 0x3f with (Z.ones 6). by rewrite Z.land_ones. Qed.

Lemma split_4 x y : 0 <= x < 256 -> 0 <= y < 256 ->
  Z.lor (Z.shiftl (Z.land x 0x03) 4) (Z.shiftr (Z.land y 0xf0) 4) = x mod 4 * 16 + y / 16.
Proof.
  intros Hx Hy. apply Z.eqb_eq. revert x y Hx Hy.
  apply (below2 256 256 (fun x y => Z.lor (Z.shiftl (Z.land x 0x03) 4) (Z.shiftr (Z.land y 0xf0) 4) =? x mod 4 * 16 + y / 16)).
  vm_compute. reflexivity.
Qed.

Lemma split_2 x y : 0 <= x < 256 -> 0 <= y < 256 ->
  Z.lor (Z.shiftl (Z.land x 0x0f) 2) (Z.shiftr (Z.land y 0xc0) 6) = x mod 16 * 4 + y / 64.
Proof.
  intros Hx Hy. apply Z.eqb_eq. revert x y Hx Hy.
  apply (below2 256 256 (fun x y => Z.lor (Z.shiftl (Z.land x 0x0f) 2) (Z.shiftr (Z.land y 0xc0) 6) =? x mod 16 * 4 + y / 64)).
  vm_compute. reflexivity.
Qed.

Lemma decode_vals a b c d : 0 <= a < 64 -> 0 <= b < 64 -> 0 <= c < 64 -> 0 <= d < 64 ->
  decodeblock a b c d = [a * 4 + b / 16; b mod 16 * 16 + c / 4; c mod 4 * 64 + d].
Proof.
  intros Ha Hb Hc Hd. unfold decodeblock. f_equal; [|f_equal; [|f_equal]]; apply Z.eqb_eq.
  - revert a b Ha Hb. apply (below2 64 64 (fun a b => u8 (Z.lor (Z.shiftl a 2) (Z.shiftr b 4)) =? a * 4 + b / 16)).
    vm_compute. reflexivity.
  - revert b c Hb Hc. apply (below2 64 64 (fun b c => u8 (Z.lor (Z.shiftl b 4) (Z.shiftr c 2)) =? b mod 16 * 16 + c / 4)).
    vm_compute. reflexivity.
  - revert c d Hc Hd. apply (below2 64 64 (fun c d => u8 (Z.lor (Z.land (Z.shiftl c 6) 0xc0) d) =? c mod 4 * 64 + d)).
    vm_compute. reflexivity.
Qed.

(** ** Characters *)

Definition noise (c : Z) : Prop := b64_val c = 0 /\ c <> 45.
(** The character of a value. *)
Definition digit (c v : Z) : Prop := b64_val c = v + 1 /\ c <> 45 /\ is_eol c = false /\ 0 <= v < 64.

Lemma digit_char v : 0 <= v < 64 -> digit (b64_char v) v.
Proof.
  intros Hv. assert (H : (b64_val (b64_char v) =? v + 1) && negb (b64_char v =? 45) && negb (is_eol (b64_char v)) = true).
  { revert v Hv. apply (below 64 (fun v => (b64_val (b64_char v) =? v + 1) && negb (b64_char v =? 45) && negb (is_eol (b64_char v)))).
    vm_compute. reflexivity. }
  apply andb_true_iff in H as [[H1%Z.eqb_eq H2%negb_true_iff]%andb_true_iff H3%negb_true_iff].
  apply Z.eqb_neq in H2. split; [done|]. split; [done|]. by split.
Qed.

Definition ROA : list Z := text "ROA".

Lemma next_noise ns : Forall noise ns -> forall fuel l, (length ns <= fuel)%nat ->
  next_val ROA fuel (ns ++ l) = next_val ROA (fuel - length ns) l.
Proof.
  induction 1 as [|c ns [H0 H1] HF IH]; intros fuel l Hf; [by rewrite Nat.sub_0_r|]. destruct fuel as [|fuel]; [cbn in Hf; lia|].
  cbn [app next_val length Nat.sub]. apply Z.eqb_neq in H1. rewrite H1. cbn [mbind option_bind]. rewrite H0. cbn [Z.eqb].
  apply IH. cbn in Hf. lia.
Qed.

Lemma next_digit c v fuel l : digit c v -> next_val ROA (S fuel) (c :: l) = Some (v + 1, l).
Proof.
  intros (Hv & H1 & _ & Hr). apply Z.eqb_neq in H1. cbn [next_val]. rewrite H1. cbn [mbind option_bind]. rewrite Hv.
  destruct (Z.eqb_spec (v + 1) 0); [lia|done].
Qed.

Lemma next_end fuel : next_val ROA (S fuel) roaEnd = Some (0, []).
Proof. destruct fuel; vm_compute; reflexivity. Qed.

Lemma read_digit n ns c v l : Forall noise ns -> digit c v -> l <> [] ->
  read_quad ROA (S n) (ns ++ c :: l) = (r ← read_quad ROA n l; Some (v :: fst r, snd r)).
Proof.
  intros Hn Hd Hl. assert (Hlen : length (ns ++ c :: l) = (length ns + S (length l))%nat) by (by rewrite length_app).
  destruct (ns ++ c :: l) as [|c0 l0] eqn:E0; [by destruct ns|]. cbn [read_quad]. rewrite <- E0, Hlen in *.
  rewrite (next_noise _ Hn) by lia. replace (_ + _ - _)%nat with (S (length l)) by lia.
  rewrite (next_digit _ _ _ _ Hd). cbn [mbind option_bind]. destruct l; [done|].
  destruct Hd as (_ & _ & _ & Hr). replace (u8 (v + 1 - 1)) with v; [done|]. unfold u8, wrap. rewrite Z.mod_small; lia.
Qed.

Lemma read_end n ns : Forall noise ns -> read_quad ROA (S n) (ns ++ roaEnd) = Some ([], []).
Proof.
  intros Hn. assert (Hlen : length (ns ++ roaEnd) = (length ns + 19)%nat) by (by rewrite length_app).
  destruct (ns ++ roaEnd) as [|c0 l0] eqn:E0; [by destruct ns|]. cbn [read_quad]. rewrite <- E0, Hlen in *.
  rewrite (next_noise _ Hn) by lia. replace (_ + _ - _)%nat with 19%nat by lia. by rewrite next_end.
Qed.

(** ** Blocks *)

Definition bytes_of (r : Z * Z * Z * nat) : list Z := let '(x, y, z, len) := r in take len [x; y; z].
Definition round_ok (r : Z * Z * Z * nat) : Prop :=
  let '(x, y, z, len) := r in 0 <= x < 256 /\ 0 <= y < 256 /\ 0 <= z < 256 /\ (1 <= len <= 3)%nat.
Fixpoint rounds_ok (rounds : list (Z * Z * Z * nat)) : Prop :=
  match rounds with
  | [] => True
  | r :: rounds => round_ok r /\ (rounds <> [] -> snd r = 3%nat) /\ rounds_ok rounds
  end.

Lemma triples_ok n : forall l, (length l <= n)%nat -> bytes_ok l ->
  rounds_ok (triples l) /\ concat (map bytes_of (triples l)) = l.
Proof.
  induction n as [|n IH]; intros l Hn Hb; [destruct l; [done|cbn in Hn; lia]|].
  destruct l as [|x [|y [|z l]]]; cbn [triples]; repeat (apply Forall_cons in Hb as [? Hb]);
    unfold byte_ok, uint_ok in *; change (2 ^ 8) with 256 in *.
  - done.
  - split; [|done]. split; [|done]. cbn. lia.
  - split; [|done]. split; [|done]. cbn. lia.
  - destruct (IH l) as [G1 G2]; [cbn in Hn; lia|done|]. split; [|cbn; by rewrite G2].
    split; [cbn; lia|]. done.
Qed.

(** The values of a block's characters. *)
Definition vals_of (r : Z * Z * Z * nat) : list Z :=
  let '(x, y, z, len) := r in take (S len) [x / 4; x mod 4 * 16 + y / 16; y mod 16 * 4 + z / 64; z mod 64].

Ltac div_lia := Z.to_euclidean_division_equations; lia.

Lemma block_decodes r : round_ok r -> block_bytes (vals_of r) = bytes_of r.
Proof.
  destruct r as [[[x y] z] len]. intros (Hx & Hy & Hz & Hl). unfold block_bytes, vals_of, bytes_of.
  assert (len = 1 \/ len = 2 \/ len = 3)%nat as [->|[->| ->]] by lia; cbn [take length Nat.sub nth];
    rewrite decode_vals by div_lia; cbn [take]; repeat f_equal; div_lia.
Qed.

(** A block is digits, and padding if it is the last. *)
Lemma read_round r : round_ok r ->
  exists cs pad, block_of r = cs ++ pad /\ Forall2 digit cs (vals_of r) /\ Forall noise pad /\
    (snd r = 3%nat -> pad = []) /\ (2 <= length cs)%nat.
Proof.
  destruct r as [[[x y] z] len]. intros (Hx & Hy & Hz & Hl). cbn [block_of vals_of snd]. unfold encodeblock.
  rewrite shiftr_2, low_6, split_4, split_2 by done.
  assert (Hn : noise 61) by (split; [reflexivity|done]).
  assert (len = 1 \/ len = 2 \/ len = 3)%nat as [->|[->| ->]] by lia; cbn [Nat.ltb Nat.leb take].
  - exists [b64_char (x / 4); b64_char (x mod 4 * 16 + y / 16)], [61; 61]. split; [done|].
    split; [repeat constructor; apply digit_char; div_lia|]. split; [by repeat constructor|]. split; [done|cbn; lia].
  - exists [b64_char (x / 4); b64_char (x mod 4 * 16 + y / 16); b64_char (y mod 16 * 4 + z / 64)], [61]. split; [done|].
    split; [repeat constructor; apply digit_char; div_lia|]. split; [by repeat constructor|]. split; [done|cbn; lia].
  - exists [b64_char (x / 4); b64_char (x mod 4 * 16 + y / 16); b64_char (y mod 16 * 4 + z / 64); b64_char (z mod 64)], [].
    split; [done|]. split; [repeat constructor; apply digit_char; div_lia|]. split; [done|]. split; [done|cbn; lia].
Qed.

Lemma read_digits cs vs : Forall2 digit cs vs -> forall n ns l, Forall noise ns -> l <> [] -> cs <> [] ->
  read_quad ROA (length cs + n) (ns ++ cs ++ l) = (r ← read_quad ROA n l; Some (vs ++ fst r, snd r)).
Proof.
  induction 1 as [|c v cs vs Hd HF IH]; intros n ns l Hn Hl Hc; [done|].
  cbn [length Nat.add app]. rewrite (read_digit _ _ _ _ _ Hn Hd) by (by destruct cs, l).
  destruct cs as [|c' cs'].
  - inversion HF; subst. cbn. by destruct (read_quad ROA n l).
  - specialize (IH n [] l (List.Forall_nil _) Hl ltac:(done)). cbn [app] in IH |- *. rewrite IH. by destruct (read_quad ROA n l) as [[? ?]|].
Qed.

Lemma crlf_noise : Forall noise CRLF.
Proof. repeat constructor; done. Qed.

(** What follows a block begins with line ends at most. *)
Lemma breaks_rest n k r rounds : exists ns k',
  with_breaks n k (r :: rounds) = block_of r ++ ns ++ with_breaks n k' rounds /\ Forall noise ns.
Proof.
  cbn [with_breaks]. destruct (_ || _); [exists CRLF, 0%nat|exists [], (S k)]; split; auto using crlf_noise.
Qed.

Lemma decode_rounds mem n rounds : (forall i, mem i = true) -> rounds_ok rounds -> forall k ns fuel b,
  Forall noise ns -> tight b -> (length (ns ++ with_breaks n k rounds ++ roaEnd) <= fuel)%nat ->
  decode_loop mem ROA fuel (ns ++ with_breaks n k rounds ++ roaEnd) b =
    Some (inr (buf_out b ++ concat (map bytes_of rounds))).
Proof.
  intros Hmem. induction rounds as [|r rounds IH]; intros Hok k ns fuel b Hn Hb Hf.
  - cbn [with_breaks app] in *. destruct fuel as [|fuel]; [rewrite length_app in Hf; cbn in Hf; lia|].
    destruct (ns ++ roaEnd) as [|c0 l0] eqn:E0; [by destruct ns|]. cbn [decode_loop]. rewrite <- E0, read_end by done.
    cbn. rewrite app_nil_r. by destruct fuel.
  - destruct Hok as (Hr & H3 & Hok). destruct (breaks_rest n k r rounds) as (sep & k' & Ew & Hsep). rewrite Ew in *.
    destruct (read_round r Hr) as (cs & pad & Eb & HD & Hpad & Hfull & Hlen).
    destruct (push_all_tight mem Hmem (bytes_of r) b Hb) as (b1 & Hp & Hb1 & E1).
    destruct fuel as [|fuel]; [rewrite !length_app in Hf; cbn in Hf; lia|].
    assert (Htxt : exists c0 l0, ns ++ (block_of r ++ sep ++ with_breaks n k' rounds) ++ roaEnd = c0 :: l0).
    { rewrite Eb. destruct ns, cs; cbn in Hlen |- *; eauto; lia. }
    destruct Htxt as (c0 & l0 & E0). rewrite E0. cbn [decode_loop]. rewrite <- E0.
    assert (Hrd : exists rest, read_quad ROA 4 (ns ++ (block_of r ++ sep ++ with_breaks n k' rounds) ++ roaEnd) = Some (vals_of r, rest) /\
      (rest = [] /\ rounds = [] \/ rest = sep ++ with_breaks n k' rounds ++ roaEnd)).
    { rewrite Eb, <- !app_assoc. pose proof (Forall2_length _ _ _ HD) as Hv.
      assert (Hcs : cs <> []) by (by destruct cs; [cbn in Hlen; lia|]).
      assert (Hne : pad ++ sep ++ with_breaks n k' rounds ++ roaEnd <> []) by (by intros (_ & (_ & (_ & ?)%app_eq_nil)%app_eq_nil)%app_eq_nil).
      assert (H4 : (length cs + length pad = 4)%nat) by (rewrite <- length_app, <- Eb; apply block_length).
      replace 4%nat with (length cs + length pad)%nat. rewrite (read_digits _ _ HD) by done.
      destruct pad as [|c pad].
      - eexists. cbn. split; [by rewrite app_nil_r|]. by right.
      - assert (rounds = []) as -> by (destruct rounds; [done|]; by rewrite H3 in Hfull; [specialize (Hfull eq_refl)|]).
        pose proof (read_end (length pad) ((c :: pad) ++ sep) ltac:(by apply Forall_app)) as He.
        rewrite <- app_assoc in He. cbn [with_breaks length]. rewrite (app_nil_l roaEnd), He.
        exists []. cbn. split; [by rewrite app_nil_r|]. by left. }
    destruct Hrd as (rest & -> & Hrest). cbn [mbind option_bind fst snd]. rewrite block_decodes, Hp by done.
    destruct Hrest as [[-> ->]| ->].
    + cbn [map concat]. rewrite app_nil_r, <- E1. by destruct fuel.
    + rewrite IH; [|done..|].
      * cbn [map concat]. by rewrite E1, <- app_assoc.
      * rewrite !length_app, block_length in Hf. rewrite !length_app. lia.
Qed.

(** ** The round trip *)

Lemma skip_short p l : (length (skip_while p l) <= length l)%nat.
Proof. induction l as [|c l IH]; [done|]. cbn. destruct (p c); cbn; lia. Qed.

Lemma some_of_cons p c l : p c = true -> some_of p (c :: l) = Some (skip_while p l).
Proof.
  intros H. unfold some_of. cbn [skip_while]. rewrite H. pose proof (skip_short p l).
  destruct (Nat.eqb_spec (length (skip_while p l)) (length (c :: l))) as [E|]; [cbn in E; lia|done].
Qed.

(** What follows the first dashes. *)
Definition begin_rest (rest : list Z) : list Z := text "BEGIN ROA-----" ++ CRLF ++ rest.

Lemma findarmor_steps buf i1 i2 a b c d e f : some_of is_dash buf = Some a -> nonempty a = Some a ->
  nonempty (skip_while isspace a) = Some b -> token i1 b = Some (Some c) -> token i2 c = Some (Some d) ->
  some_of is_dash d = Some e -> nonempty e = Some e -> some_of is_eol e = Some f ->
  findarmor buf i1 i2 = Some (Some (length buf - length f)%nat).
Proof.
  intros H1 H2 H3 H4 H5 H6 H7 H8. unfold findarmor. rewrite H1. cbn [mbind option_bind]. rewrite H2. cbn [mbind option_bind].
  rewrite H3, H4. cbn [mbind option_bind]. rewrite H5. cbn [mbind option_bind]. rewrite H6. cbn [mbind option_bind].
  rewrite H7. cbn [mbind option_bind]. by rewrite H8.
Qed.

Lemma find_begin_here armor l n : findarmor (45 :: l) (text "BEGIN") armor = Some (Some n) ->
  find_begin armor (45 :: l) = Some (drop n (45 :: l)).
Proof. intros H. cbn [find_begin]. change (45 =? 45) with true. cbv iota. by rewrite H. Qed.

Lemma some_of_conv p c l r : p c = true -> skip_while p l = r -> some_of p (c :: l) = Some r.
Proof. intros Hp <-. by apply some_of_cons. Qed.

Lemma find_armor c rest : is_eol c = false -> find_begin ROA (roaStart ++ c :: rest) = Some (c :: rest).
Proof.
  intros He. assert (Es : roaStart ++ c :: rest = 45 :: text "----" ++ begin_rest (c :: rest)) by (vm_compute; reflexivity).
  transitivity (Some (drop (length (roaStart ++ c :: rest) - length (c :: rest)) (roaStart ++ c :: rest))).
  - rewrite Es. apply find_begin_here. eapply findarmor_steps.
    + apply some_of_conv; [done|]. vm_compute; reflexivity.
    + vm_compute; reflexivity.
    + vm_compute; reflexivity.
    + vm_compute; reflexivity.
    + vm_compute; reflexivity.
    + apply some_of_conv; [done|]. vm_compute; reflexivity.
    + done.
    + apply some_of_conv; [done|]. cbn [skip_while]. change (is_eol 10) with true. cbv iota. by rewrite He.
  - by rewrite length_app, Nat.add_sub, drop_app_length.
Qed.

Lemma begins_digit n r rounds : round_ok r -> exists c rest, with_breaks n 0 (r :: rounds) = c :: rest /\ is_eol c = false.
Proof.
  intros Hr. destruct (breaks_rest n 0 r rounds) as (sep & k' & -> & _).
  destruct (read_round r Hr) as (cs & pad & -> & HD & _ & _ & Hlen). destruct HD as [|c v cs vs (_ & _ & He & _) _]; [cbn in Hlen; lia|].
  by eexists c, _.
Qed.

(** Base64 with armor. When memory does not run out, [encode_b64] makes of any
    non-empty content the text between the ROA markers with a line end after each
    [lineSize / 4] blocks, and [decode_b64] gives back the content from it; except when
    a line would end one byte before the end of a kilobyte of the output, where
    [encode_b64] writes behind its buffer. *)
Lemma b64_roundtrip mem l lineSize : (forall i, mem i = true) -> l <> [] -> bytes_ok l -> 0 < lineSize ->
  let n := Z.to_nat (lineSize / 4) in
  encode_b64 mem l lineSize = (if fits n l then Some (inr (armored n l)) else None) /\
  decode_b64 mem (armored n l) (text "ROA") = Some (inr l).
Proof.
  intros Hmem Hl Hb Hls n. split; [by apply encode_spec|].
  destruct (triples_ok (length l) l (le_n _) Hb) as [Hok Hc]. unfold decode_b64, armored.
  destruct (triples l) as [|r rounds] eqn:Et; [by destruct l as [|x [|y [|z l]]]|].
  destruct (begins_digit n r rounds (proj1 Hok)) as (c & rest & Ew & He).
  change (length (roaStart ++ _) =? 0)%nat with false. rewrite Hmem. cbn [negb]. fold ROA.
  pose proof (find_armor c (rest ++ roaEnd) He) as Hf. rewrite app_comm_cons, <- Ew in Hf. rewrite Hf. cbn [mbind option_bind].
  pose proof (decode_rounds mem n (r :: rounds) Hmem Hok 0 [] (length (with_breaks n 0 (r :: rounds) ++ roaEnd)) (mkBuf [] 1024)) as Hd.
  cbn [app] in Hd. rewrite Hd; [by rewrite Hc|constructor|reflexivity|done].
Qed.

(** C40: The two formats of a ROA file carry the same bytes. Whatever non-empty
    encoding [der] the ASN.1 encoder makes of a ROA, [roaToFile] (no call failing)
    writes [der] itself, or a text in armored Base64 from which [roaFromFile] comes to
    exactly what it comes to from [der]: the same status, structure and validation,
    whatever the ASN.1 decoder and [roaValidate] make of these bytes. The one exception
    is the armored format when a line would end one byte before the end of a kilobyte:
    then, and only then, writing is undefined. Nothing is claimed of the ASN.1 encoder
    and decoder, which are parameters. *)
Theorem roa_file_formats decode encode mem sha1 sha256 check_sig malloc r der :
  (forall i, mem i = true) -> encode r = Some der -> der <> [] -> bytes_ok der ->
  roaToFile encode mem true true true r FMT_DER = Some (0, Some der) /\
  match roaToFile encode mem true true true r FMT_PEM with
  | None => fits 12 der = false
  | Some (sta, out) => fits 12 der = true /\ sta = 0 /\ exists pem, out = Some pem /\ forall doval,
      roaFromFile decode mem sha1 sha256 check_sig malloc (ReadBytes pem) FMT_PEM doval =
      roaFromFile decode mem sha1 sha256 check_sig malloc (ReadBytes der) FMT_DER doval
  end.
Proof.
  intros Hmem He Hne Hb. unfold roaToFile, roaFromFile. cbn [negb]. rewrite He. cbn [negb]. split; [done|].
  destruct (b64_roundtrip mem der 50 Hmem Hne Hb) as [-> Hdec]; [done|]. change (Z.to_nat (50 / 4)) with 12%nat in *.
  destruct (fits 12 der); [|done]. cbn [mbind option_bind]. split; [done|]. split; [done|]. eexists. split; [done|].
  intros doval. by rewrite Hdec.
Qed.

(** ** Large ROAs *)

(** [breaks_fit] by the number of blocks. *)
Fixpoint count_fits (n k pos m : nat) : bool :=
  match m with
  | O => true
  | S m =>
      if (n <=? S k)%nat || (m =? 0)%nat then negb ((pos + 4) mod 1024 =? 1023)%nat && count_fits n 0 (pos + 4 + 2) m
      else count_fits n (S k) (pos + 4) m
  end.

Lemma breaks_count n rounds : forall k pos, breaks_fit n k pos rounds = count_fits n k pos (length rounds).
Proof.
  induction rounds as [|r rounds IH]; intros k pos; [done|]. cbn [breaks_fit count_fits length]. by rewrite !IH.
Qed.

Lemma count_line pos m : count_fits 12 0 pos (12 + m) = negb ((pos + 48) mod 1024 =? 1023)%nat && count_fits 12 0 (pos + 50) m.
Proof.
  cbn [count_fits Nat.add Nat.leb orb Nat.eqb]. f_equal; [do 3 f_equal; lia|f_equal; lia].
Qed.

Lemma count_lines j : forall pos m, count_fits 12 0 pos (12 * j + m) = true ->
  forall i, (i < j)%nat -> ((pos + 50 * i + 48) mod 1024 <> 1023)%nat.
Proof.
  induction j as [|j IH]; intros pos m H i Hi; [lia|]. replace (12 * S j + m)%nat with (12 + (12 * j + m))%nat in H by lia.
  rewrite count_line in H. apply andb_true_iff in H as [H1%negb_true_iff%Nat.eqb_neq H2]. destruct i as [|i].
  - by replace (pos + 50 * 0 + 48)%nat with (pos + 48)%nat by lia.
  - replace (pos + 50 * S i + 48)%nat with (pos + 50 + 50 * i + 48)%nat by lia. apply (IH _ m); [done|lia].
Qed.

Lemma triples_length n : forall l, (length l <= n)%nat -> (length l <= 3 * length (triples l))%nat.
Proof.
  induction n as [|n IH]; intros l Hn; [destruct l; cbn in *; lia|].
  destruct l as [|x [|y [|z l]]]; cbn [triples length]; [lia..|]. cbn in Hn. specialize (IH l). lia.
Qed.

(** Writing any ROA of 3670 bytes or more as PEM overflows the buffer. *)
Lemma large_overflows der : (3670 <= length der)%nat -> fits 12 der = false.
Proof.
  intros Hl. pose proof (triples_length _ der (le_n _)) as Ht. unfold fits. rewrite breaks_count.
  apply not_true_iff_false. intros H. replace (length (triples der)) with (12 * 102 + (length (triples der) - 12 * 102))%nat in H by lia.
  by apply (count_lines 102 _ _ H 101); [lia|].
Qed.

(** ** Example *)

Definition f_roa : CMS :=
  {| sd_version := {| num_ty := ASN_INTEGER; num_optional := false; num_default := false; num_content := None |};
     digestAlgorithms := []; eContentType := []; eContent_bytes := []; econtent := EOther;
     certificates := []; has_crls := false; signerInfos := [] |}.

(** A decoder that wants a SEQUENCE of the right length. *)
Definition f_decode (l : list Z) : option CMS :=
  match l with
  | 48 :: n :: rest => if n =? Z.of_nat (length rest) then Some f_roa else None
  | _ => None
  end.

Lemma roa_file_formats_witness :
  exists pem, roaToFile (fun _ => Some [48; 3; 2; 1; 255]) (fun _ => true) true true true f_roa FMT_PEM = Some (0, Some pem) /\
    roaFromFile f_decode (fun _ => true) Some Some (fun _ _ => 0) (fun _ _ => true) (ReadBytes pem) FMT_PEM false
      = Some (0, RpRoa f_roa) /\
    roaFromFile f_decode (fun _ => true) Some Some (fun _ _ => 0) (fun _ _ => true) (ReadBytes pem) FMT_DER false
      = Some (ERR_SCM_INVALASN, RpEmpty).
Proof.
  destruct (roa_file_formats f_decode (fun _ => Some [48; 3; 2; 1; 255]) (fun _ => true) Some Some
    (fun _ _ => 0) (fun _ _ => true) f_roa [48; 3; 2; 1; 255] (fun _ => eq_refl) eq_refl ltac:(done)
    ltac:(repeat constructor; done)) as [_ H].
  destruct (roaToFile _ _ _ _ _ _ FMT_PEM) as [[sta out]|] eqn:E.
  - destruct H as (_ & -> & pem & -> & Hr). exists pem. split; [done|]. rewrite (Hr false). split; [reflexivity|].
    vm_compute in E. by injection E as <-.
  - exfalso. vm_compute in E. discriminate E.
Defined.
