(* ===== verification/RpkiDb.v ===== *)
(** * The database of RPKI objects ([src/lib/rpki/sqhl.c], [src/lib/rpki/sqcon.c])

    Certificates, CRLs, ROAs, manifests and ghostbusters records are rows of
    tables whose [flags] say what is known of them. This file has the tables, the
    access functions of [sqcon.c] and the half of [sqhl.c] that takes objects
    away: revocation, expiry and the propagation of an invalidated certificate
    to everything below it.

    Every SQL statement takes its outcome from [sql_ok] (by a counter in the
    state) and every reading of the clock from [clock]; a SELECT returns the rows
    that match when it is executed, in the order [in_order] gives (the client
    library buffers results, and there is no ORDER BY). Strings stand for what
    the columns' collation distinguishes. [mysql_escape_string] is a function of
    the MySQL client library. Texts of statements are assumed to fit the buffers
    they are formatted into. *)

From stdpp Require Import strings.
From S2P Require Import Prelude Sql RpkiObject.

Local Open Scope est_scope.

(** ** Constants *)

Definition SCM_FLAG_CA : Z := 0x1.
Definition SCM_FLAG_TRUSTED : Z := 0x2.
Definition SCM_FLAG_ISPARACERT : Z := 0x200.
Definition SCM_FLAG_HASPARACERT : Z := 0x400.
Definition SCM_FLAG_ISTARGET : Z := 0x800.

Definition ERR_SCM_SQL : Z := -4.
Definition ERR_SCM_NODATA : Z := -8.
Definition ERR_SCM_REVOKED : Z := -157.
Definition SER_NUM_MAX_SZ : nat := 20.

(** ** Rows *)

(** NULL is [None]. *)
Record cert_row := mkCert {
  c_id : Z;
  c_file : string;
  c_dir : string;
  c_subject : option string;
  c_issuer : string;
  c_sn : list Z;
  c_flags : Z;
  c_ski : string;
  c_aki : option string;
  c_sig : string;
  c_from : Z;
  c_to : Z;
  c_sigval : Z;
  c_hash : option string }.

Record crl_row := mkCrl {
  l_id : Z;
  l_file : string;
  l_dir : string;
  l_issuer : string;
  l_aki : option string;
  l_sig : string;
  l_snlen : Z;
  l_sninuse : Z;
  l_snlist : option (list (list Z));
  l_flags : Z;
  l_hash : option string }.

(** A signed object that hangs on the certificate with its [ski]. *)
Record obj_row (P : Type) := mkObj {
  o_id : Z;
  o_file : string;
  o_dir : string;
  o_ski : string;
  o_flags : Z;
  o_data : P;
  o_hash : option string }.
Arguments mkObj {P}.
Arguments o_id {P}. Arguments o_file {P}. Arguments o_dir {P}. Arguments o_ski {P}.
Arguments o_flags {P}. Arguments o_data {P}. Arguments o_hash {P}.

Record roa_data := mkRoaData { rd_asn : Z; rd_sig : string; rd_sigval : Z }.
Record mft_data := mkMftData { mft_files : string }.

(** [dirs] are the names of [rpki_dir], [rootdir] is that of row 1 of
    [rpki_metadata]. *)
Record tables := mkTables {
  certs : list cert_row;
  crls : list crl_row;
  roas : list (obj_row roa_data);
  roa_prefixes : list roa_prefix_row;
  mfts : list (obj_row mft_data);
  gbrs : list (obj_row unit);
  dirs : list string;
  rootdir : option string }.

Definition set_c_flags (f : Z) (c : cert_row) : cert_row :=
  mkCert (c_id c) (c_file c) (c_dir c) (c_subject c) (c_issuer c) (c_sn c) f (c_ski c) (c_aki c)
    (c_sig c) (c_from c) (c_to c) (c_sigval c) (c_hash c).
Definition set_l_flags (f : Z) (l : crl_row) : crl_row :=
  mkCrl (l_id l) (l_file l) (l_dir l) (l_issuer l) (l_aki l) (l_sig l) (l_snlen l) (l_sninuse l)
    (l_snlist l) f (l_hash l).
Definition set_o_flags {P} (f : Z) (o : obj_row P) : obj_row P :=
  mkObj (o_id o) (o_file o) (o_dir o) (o_ski o) f (o_data o) (o_hash o).

(** The tables by name, as [theCertTable], [theROATable], ... *)
Inductive tab := CertTab | CrlTab | RoaTab | MftTab | GbrTab.
#[global] Instance tab_eq_dec : EqDecision tab.
Proof. solve_decision. Defined.

Definition set_certs (l : list cert_row) (t : tables) : tables :=
  mkTables l (crls t) (roas t) (roa_prefixes t) (mfts t) (gbrs t) (dirs t) (rootdir t).

Definition set_crls (l : list crl_row) (t : tables) : tables :=
  mkTables (certs t) l (roas t) (roa_prefixes t) (mfts t) (gbrs t) (dirs t) (rootdir t).
Definition set_roas (l : list (obj_row roa_data)) (ps : list roa_prefix_row) (t : tables) : tables :=
  mkTables (certs t) (crls t) l ps (mfts t) (gbrs t) (dirs t) (rootdir t).
Definition set_mfts (l : list (obj_row mft_data)) (t : tables) : tables :=
  mkTables (certs t) (crls t) (roas t) (roa_prefixes t) l (gbrs t) (dirs t) (rootdir t).
Definition set_gbrs (l : list (obj_row unit)) (t : tables) : tables :=
  mkTables (certs t) (crls t) (roas t) (roa_prefixes t) (mfts t) l (dirs t) (rootdir t).

(** [UPDATE tab SET flags=f WHERE local_id=id] *)
Definition upd_flags (tb : tab) (id f : Z) (t : tables) : tables :=
  match tb with
  | CertTab => set_certs (map (fun c => if c_id c =? id then set_c_flags f c else c) (certs t)) t
  | CrlTab => set_crls (map (fun l => if l_id l =? id then set_l_flags f l else l) (crls t)) t
  | RoaTab => set_roas (map (fun o => if o_id o =? id then set_o_flags f o else o) (roas t))
                (roa_prefixes t) t
  | MftTab => set_mfts (map (fun o => if o_id o =? id then set_o_flags f o else o) (mfts t)) t
  | GbrTab => set_gbrs (map (fun o => if o_id o =? id then set_o_flags f o else o) (gbrs t)) t
  end.

(** [DELETE FROM tab WHERE local_id=id]; the prefixes of a ROA go with it. *)
Definition del_id (tb : tab) (id : Z) (t : tables) : tables :=
  match tb with
  | CertTab => set_certs (List.filter (fun c => negb (c_id c =? id)) (certs t)) t
  | CrlTab => set_crls (List.filter (fun l => negb (l_id l =? id)) (crls t)) t
  | RoaTab => set_roas (List.filter (fun o => negb (o_id o =? id)) (roas t))
                (List.filter (fun p => negb (roa_local_id p =? id)) (roa_prefixes t)) t
  | MftTab => set_mfts (List.filter (fun o => negb (o_id o =? id)) (mfts t)) t
  | GbrTab => set_gbrs (List.filter (fun o => negb (o_id o =? id)) (gbrs t)) t
  end.

(** The test that [addFlagTest] writes: [(flags % 2f) >= f] or [< f]. *)
Definition flag_test (flags flagVal : Z) (isSet : bool) : bool :=
  if isSet then flagVal <=? flags mod (2 * flagVal) else flags mod (2 * flagVal) <? flagVal.

(** ** State

    [srch_cols]: which function set up the columns of the static [certSrch]. *)
Inductive certsrch := SrchNone | SrchParent | SrchAKI.

Record dbst := mkDbst {
  tabs : tables;
  sql_count : nat;
  clk_count : nat;
  srch_cols : certsrch }.

Definition with_tabs (t : tables) (s : dbst) : dbst :=
  mkDbst t (sql_count s) (clk_count s) (srch_cols s).
Definition with_cols (c : certsrch) (s : dbst) : dbst :=
  mkDbst (tabs s) (sql_count s) (clk_count s) c.

(** Exits: undefined behaviour, a loop that has used up its fuel, and [abort]. *)
Inductive db_exit := DbUndefined | DbFuel | DbAbort.
Definition M (A : Type) : Type := ESt dbst db_exit A.

Section db.
Context (sql_ok : nat -> bool) (clock : nat -> option Z)
  (in_order : forall A, list A -> list A) (mysql_escape_string : string -> string).
Arguments in_order {A}.

(** ** [sqcon.c] *)

(** One statement is sent to the server. *)
Definition statementscm : M bool := fun s =>
  (mkDbst (tabs s) (S (sql_count s)) (clk_count s) (srch_cols s), inr (sql_ok (sql_count s))).

Definition statementscm_no_data (f : tables -> tables) : M Z :=
  let* ok := statementscm in
  if negb ok then est_ret ERR_SCM_SQL
  else est_modify (fun s => with_tabs (f (tabs s)) s) ;;; est_ret 0.

(** The callbacks of a search: the status of the last one counts. *)
Fixpoint callbacks {A} (valer : A -> M Z) (rows : list A) (sta : Z) : M Z :=
  match rows with
  | [] => est_ret sta
  | r :: rows => let* sta := valer r in callbacks valer rows sta
  end.

Definition searchscm {A} (table : tables -> list A) (where_ : A -> bool) (valer : A -> M Z) : M Z :=
  let* ok := statementscm in
  if negb ok then est_ret ERR_SCM_SQL
  else
    let* t := est_gets tabs in
    let rows := in_order (List.filter where_ (table t)) in
    let* sta := callbacks valer rows 0 in
    est_ret (if sta <? 0 then sta
             else if (length rows =? 0)%nat then ERR_SCM_NODATA else 0).

Definition deletebylid (tb : tab) (lid : Z) : M Z := statementscm_no_data (del_id tb lid).

Definition setflagsscm (tb : tab) (lid flags : Z) : M Z := statementscm_no_data (upd_flags tb lid flags).

Definition LocalTimeToDBTime : M (option Z) := fun s =>
  (mkDbst (tabs s) (sql_count s) (S (clk_count s)) (srch_cols s), inr (clock (clk_count s))).

(** ** Flags *)

(** Flags are below 2^31, so that [%d] prints them unchanged. *)
Definition updateValidFlags (tb : tab) (id prevFlags : Z) (isValid : bool) : M Z :=
  let flags := if isValid then Z.land (Z.lor prevFlags SCM_FLAG_VALIDATED) (Z.lnot SCM_FLAG_NOCHAIN)
               else Z.lor prevFlags SCM_FLAG_NOCHAIN in
  setflagsscm tb id flags.

Definition set_cert_flag (id flags : Z) : M Z := setflagsscm CertTab id flags.

(** ** Parents *)

(** The search of [countvalidparents]: its [where] values go through
    [quote_value], so that the subject is compared with the escaped name. *)
Definition valid_parent (now : Z) (IS : option string) (AK : string) (c : cert_row) : bool :=
  String.eqb (c_ski c) AK &&
  match IS with
  | None => true
  | Some name => match c_subject c with
               | Some sub => String.eqb sub (mysql_escape_string name)
               | None => false
               end
  end &&
  (c_from c <? now) && (now <? c_to c) &&
  flag_test (c_flags c) SCM_FLAG_VALIDATED true && flag_test (c_flags c) SCM_FLAG_NOCHAIN false.

(** [cparents] counts the rows. *)
Definition countvalidparents (IS : option string) (AK : string) : M Z :=
  let* now := LocalTimeToDBTime in
  match now with
  | None => est_ret ERR_SCM_NOMEM
  | Some now =>
      let* ok := statementscm in
      if negb ok then est_ret ERR_SCM_SQL
      else
        let* t := est_gets tabs in
        let did := length (List.filter (valid_parent now IS AK) (certs t)) in
        est_ret (if (did =? 0)%nat then ERR_SCM_NODATA else Z.of_nat did)
  end.

(** ** Invalidation *)

(** [invalidate_roa], [invalidate_gbr] and [invalidate_mft]. *)
Definition invalidate_obj {P} (tb : tab) (o : obj_row P) : M Z :=
  let* n := countvalidparents None (o_ski o) in
  if 0 <? n then est_ret 0
  else
    let* _ := updateValidFlags tb (o_id o) (o_flags o) false in
    est_ret 0.

(** A NULL column is fetched as the empty string. *)
Definition fetched (v : option string) : string := from_option id EmptyString v.

Definition invalidate_crl (l : crl_row) : M Z :=
  let* n := countvalidparents (Some (l_issuer l)) (fetched (l_aki l)) in
  if 0 <? n then est_ret 0
  else
    let* _ := updateValidFlags CrlTab (l_id l) (l_flags l) false in
    est_ret 0.

(** A child to propagate to; of the root only the first two are used. *)
Record PropData := mkProp {
  pd_ski : string;
  pd_subject : string;
  pd_flags : Z;
  pd_id : Z;
  pd_filename : string;
  pd_dirname : string;
  pd_aki : string;
  pd_issuer : string }.

Definition child_prop (c : cert_row) : PropData :=
  mkProp (c_ski c) (fetched (c_subject c)) (c_flags c) (c_id c) (c_file c) (c_dir c)
    (fetched (c_aki c)) (c_issuer c).

Definition is_str (v : option string) (x : string) : bool :=
  match v with Some y => String.eqb y x | None => false end.

Definition obj_where {P} (ski : string) (o : obj_row P) : bool :=
  String.eqb (o_ski o) ski && flag_test (o_flags o) SCM_FLAG_NOCHAIN false.
Definition crl_where (ski subject : string) (nochain : bool) (l : crl_row) : bool :=
  is_str (l_aki l) ski && String.eqb (l_issuer l) subject &&
  flag_test (l_flags l) SCM_FLAG_NOCHAIN nochain.

Definition invalidateChildCert (data : PropData) (doUpdate : bool) : M Z :=
  let* r :=
    (if doUpdate then
       let* n := countvalidparents (Some (pd_issuer data)) (pd_aki data) in
       if 0 <? n then est_ret (-1)
       else
         let* sta := updateValidFlags CertTab (pd_id data) (pd_flags data) false in
         est_ret (if sta <? 0 then sta else 0)
     else est_ret 0) in
  if r <? 0 then est_ret r
  else
    let* _ := searchscm roas (obj_where (pd_ski data)) (invalidate_obj RoaTab) in
    let* _ := searchscm gbrs (obj_where (pd_ski data)) (invalidate_obj GbrTab) in
    let* _ := searchscm mfts (obj_where (pd_ski data)) (invalidate_obj MftTab) in
    let* _ := searchscm crls (crl_where (pd_ski data) (pd_subject data) false) invalidate_crl in
    est_ret 0.

(** ** Propagation *)

Definition child_where (data : PropData) (doVerify : bool) (c : cert_row) : bool :=
  is_str (c_aki c) (pd_ski data) && negb (String.eqb (c_ski c) (pd_ski data)) &&
  String.eqb (c_issuer c) (pd_subject data) && flag_test (c_flags c) SCM_FLAG_NOCHAIN doVerify.

(** The children of [data]: [registerChild] pushes each row. *)
Definition registerChildren (data : PropData) (doVerify : bool) : M (list PropData) :=
  let* ok := statementscm in
  if negb ok then est_ret []
  else
    let* t := est_gets tabs in
    est_ret (rev (map child_prop (in_order (List.filter (child_where data doVerify) (certs t))))).

(** One round of the loop: what is pushed. *)
Definition prop_step (child : PropData -> bool -> M Z) (doVerify : bool) (data : PropData)
    (isRoot : bool) : M (list PropData) :=
  let* r := child data (negb isRoot) in
  if r =? 0 then registerChildren data doVerify else est_ret [].

(** The loop over the stack, whose top is the head of the list. *)
Fixpoint prop_loop (child : PropData -> bool -> M Z) (doVerify : bool) (fuel : nat) (isRoot : bool)
    (stack : list PropData) : M Z :=
  match stack with
  | [] => est_ret 0
  | data :: stack =>
      match fuel with
      | O => est_exit DbFuel
      | S fuel =>
          let* new := prop_step child doVerify data isRoot in
          prop_loop child doVerify fuel false (new ++ stack)
      end
  end.

Definition root_prop (ski subject : string) (cert_id : Z) : PropData :=
  mkProp ski subject 0 cert_id EmptyString EmptyString EmptyString EmptyString.

(** [verifyOrNotChildren] with [doVerify] 0. *)
Definition invalidateChildren (fuel : nat) (ski subject : string) (cert_id : Z) : M Z :=
  prop_loop invalidateChildCert false fuel true [root_prop ski subject cert_id].

(** ** Revocation *)

Definition find_cert_where (ski aki : option string) (c : cert_row) : bool :=
  match ski with
  | Some ski => String.eqb (c_ski c) ski
  | None => is_str (c_aki c) (fetched aki)
  end &&
  flag_test (c_flags c) SCM_FLAG_VALIDATED true && flag_test (c_flags c) SCM_FLAG_NOCHAIN false.

(** The answers; none when the search fails. *)
Definition find_cert_by_aKI (ski aki : option string) : M (list cert_row) :=
  est_modify (fun s => with_cols (match srch_cols s with SrchNone => SrchAKI | c => c end) s) ;;;
  let* ok := statementscm in
  if negb ok then est_ret []
  else
    let* t := est_gets tabs in
    est_ret (in_order (List.filter (find_cert_where ski aki) (certs t))).

(** The certificate a revoked paracertificate stood for gets its flags back. *)
Fixpoint clear_para_flags (l : list cert_row) : M unit :=
  match l with
  | [] => est_ret tt
  | c :: l =>
      (if negb (Z.land (c_flags c) (Z.lor SCM_FLAG_HASPARACERT SCM_FLAG_ISTARGET) =? 0) then
         let* _ := set_cert_flag (c_id c)
             (Z.land (c_flags c) (Z.lnot (Z.lor SCM_FLAG_HASPARACERT SCM_FLAG_ISTARGET))) in
         est_ret tt
       else est_ret tt) ;;;
      clear_para_flags l
  end.

Definition revoke_cert_and_children (fuel : nat) (c : cert_row) : M Z :=
  let* sta := deletebylid CertTab (c_id c) in
  if sta <? 0 then est_ret sta
  else
    (if negb (Z.land (c_flags c) SCM_FLAG_ISPARACERT =? 0) then
       let* l := find_cert_by_aKI (Some (c_ski c)) None in clear_para_flags l
     else est_ret tt) ;;;
    invalidateChildren fuel (c_ski c) (fetched (c_subject c)) (c_id c).

(** [where] values again: the issuer is compared with the escaped name. [did] is
    never set, so that success is always 0. *)
Definition serial_where (issuer aki : string) (sn : list Z) (c : cert_row) : bool :=
  String.eqb (c_issuer c) (mysql_escape_string issuer) && bool_decide (c_sn c = sn) &&
  is_str (c_aki c) aki.

Definition revoke_cert_by_serial (fuel : nat) (issuer aki : string) (sn : list Z) : M Z :=
  if String.eqb issuer EmptyString || String.eqb aki EmptyString ||
     bool_decide (sn = replicate SER_NUM_MAX_SZ 0)
  then est_ret 0
  else
    let* sta := searchscm certs (serial_where issuer aki sn) (revoke_cert_and_children fuel) in
    est_ret (if sta <? 0 then sta else 0).

(** ** CRLs *)

(** The loop over the serial numbers of a CRL: the last error and the number of
    calls that returned 1. *)
Fixpoint crl_serials (cfunc : list Z -> M Z) (sns : list (list Z)) (sta chgd : Z) : M (Z * Z) :=
  match sns with
  | [] => est_ret (sta, chgd)
  | sn :: sns =>
      let* ista := cfunc sn in
      crl_serials cfunc sns (if ista <? 0 then ista else sta) (if ista =? 1 then chgd + 1 else chgd)
  end.

(** [updateblobscm] writes back the values that were read. A list shorter than
    [snlen] would make the code read what an earlier row left in the buffer. *)
Definition crliterator (cfunc : string -> string -> list Z -> M Z) (l : crl_row) : M Z :=
  if String.eqb (l_issuer l) EmptyString then est_ret 0
  else if String.eqb (fetched (l_aki l)) EmptyString then est_ret 0
  else if l_snlen l =? 0 then est_ret 0
  else if l_sninuse l =? 0 then est_ret 0
  else if (Z.land (l_flags l) SCM_FLAG_VALIDATED =? 0) ||
          negb (Z.land (l_flags l) SCM_FLAG_NOCHAIN =? 0) then est_ret 0
  else
    match l_snlist l with
    | None => est_ret 0
    | Some sns =>
        if (length sns =? 0)%nat then est_ret 0
        else if (Z.of_nat (length sns) <? l_snlen l) then est_exit DbUndefined
        else
          let* r := crl_serials (cfunc (l_issuer l) (fetched (l_aki l)))
                      (take (Z.to_nat (l_snlen l)) sns) 0 0 in
          let '(sta, chgd) := r in
          if sta <? 0 then est_ret sta
          else if chgd =? 0 then est_ret 0
          else if 0 <? l_sninuse l then statementscm_no_data id
          else deletebylid CrlTab (l_id l)
    end.

Definition iterate_crl (cfunc : string -> string -> list Z -> M Z) : M Z :=
  searchscm crls (fun _ => true) (crliterator cfunc).

(** ** Expiry *)

Definition certmaybeok (c : cert_row) : M Z :=
  if Z.land (c_flags c) SCM_FLAG_NOTYET =? 0 then est_ret 0
  else setflagsscm CertTab (c_id c) (Z.land (c_flags c) (Z.lnot SCM_FLAG_NOTYET)).

Definition certtoonew (c : cert_row) : M Z :=
  setflagsscm CertTab (c_id c) (Z.lor (c_flags c) SCM_FLAG_NOTYET).

Definition certtooold (fuel : nat) (c : cert_row) : M Z := revoke_cert_and_children fuel c.

Definition keep_error (retsta sta : Z) : Z :=
  if (sta <? 0) && negb (sta =? ERR_SCM_NODATA) && (retsta =? 0) then sta else retsta.

(** A failure to allocate a clause returns, like that of the clock, before
    anything is done. *)
Definition certificate_validity (fuel : nat) : M Z :=
  let* now := LocalTimeToDBTime in
  match now with
  | None => est_ret ERR_SCM_NOMEM
  | Some now =>
      let* sta1 := searchscm certs (fun c => (c_from c <=? now) && (now <=? c_to c)) certmaybeok in
      let* sta2 := searchscm certs (fun c => now <? c_from c) certtoonew in
      let* sta3 := searchscm certs (fun c => c_to c <? now) (certtooold fuel) in
      est_ret (keep_error (keep_error (keep_error 0 sta1) sta2) sta3)
  end.
End db.
