(* ===== verification/RpkiDbFacts.v ===== *)
(** * Propagation of an invalid certificate: lemmas

    When no statement fails, the searches of [RpkiDb] are functions on the
    tables ([inv_row], [inv_objs]), and the propagation is a worklist algorithm:
    [work_inv] is its invariant and [work_ends] its termination. *)

From stdpp Require Import strings.
From S2P Require Import Prelude Sql RpkiObject RpkiDb.

Local Open Scope est_scope.

(** ** Flags as bits *)

Lemma flag_test_bit f k b : 0 <= k -> flag_test f (2 ^ k) b = Bool.eqb (Z.testbit f k) b.
Proof.
  intros Hk. unfold flag_test. rewrite Z.testbit_eqb by done.
  assert (0 < 2 ^ k) by (apply Z.pow_pos_nonneg; lia).
  assert (E : f mod (2 * 2 ^ k) = f mod 2 ^ k + 2 ^ k * ((f / 2 ^ k) mod 2)).
  { rewrite (Z.mul_comm 2), Z.rem_mul_r by lia. done. }
  rewrite E. pose proof (Z.mod_pos_bound f (2 ^ k)). pose proof (Z.mod_pos_bound (f / 2 ^ k) 2).
  assert ((f / 2 ^ k) mod 2 = 0 \/ (f / 2 ^ k) mod 2 = 1) as [Hz|Hz] by lia; rewrite Hz; destruct b; simpl.
  - apply Z.leb_gt. lia.
  - apply Z.ltb_lt. lia.
  - apply Z.leb_le. lia.
  - apply Z.ltb_ge. lia.
Qed.

Definition nochain (f : Z) : bool := Z.testbit f 3.
Definition validated (f : Z) : bool := Z.testbit f 2.
Definition mark (f : Z) : Z := Z.lor f SCM_FLAG_NOCHAIN.

Lemma nochain_test f b : flag_test f SCM_FLAG_NOCHAIN b = Bool.eqb (nochain f) b.
Proof. apply (flag_test_bit f 3). lia. Qed.
Lemma validated_test f b : flag_test f SCM_FLAG_VALIDATED b = Bool.eqb (validated f) b.
Proof. apply (flag_test_bit f 2). lia. Qed.

Lemma testbit_mark f k : Z.testbit (mark f) k = Z.testbit f k || (k =? 3).
Proof.
  unfold mark, SCM_FLAG_NOCHAIN. rewrite Z.lor_spec. f_equal.
  destruct (Z.eqb_spec k 3) as [->|H]; [done|]. change 8 with (2 ^ 3). by apply Z.pow2_bits_false.
Qed.
Lemma nochain_mark f : nochain (mark f) = true.
Proof. unfold nochain. by rewrite testbit_mark, orb_true_r. Qed.
Lemma testbit_mark_2 f : validated (mark f) = validated f.
Proof. unfold validated. by rewrite testbit_mark, orb_false_r. Qed.
Lemma mark_mark f : mark (mark f) = mark f.
Proof. unfold mark. by rewrite <- Z.lor_assoc, Z.lor_diag. Qed.

(** ** Tables with flags *)

Record flagtab (R : Type) := FT {
  ft_tab : tab;
  ft_get : tables -> list R;
  ft_set : list R -> tables -> tables;
  ft_id : R -> Z;
  ft_flags : R -> Z;
  ft_setf : Z -> R -> R }.
Arguments FT {R}.
Arguments ft_tab {R}. Arguments ft_get {R}. Arguments ft_set {R}. Arguments ft_id {R}.
Arguments ft_flags {R}. Arguments ft_setf {R}.

(** What the statements on a table promise. *)
Class FlagTab {R} (F : flagtab R) : Prop := {
  ft_upd id f t : upd_flags (ft_tab F) id f t =
    ft_set F (map (fun r => if ft_id F r =? id then ft_setf F f r else r) (ft_get F t)) t;
  ft_get_set l t : ft_get F (ft_set F l t) = l;
  ft_set_set l k t : ft_set F l (ft_set F k t) = ft_set F l t;
  ft_set_get t : ft_set F (ft_get F t) t = t;
  ft_id_setf f r : ft_id F (ft_setf F f r) = ft_id F r;
  ft_flags_setf f r : ft_flags F (ft_setf F f r) = f;
  ft_setf_setf f g r : ft_setf F f (ft_setf F g r) = ft_setf F f r }.

Definition certF : flagtab cert_row := FT CertTab certs set_certs c_id c_flags set_c_flags.
Definition crlF : flagtab crl_row := FT CrlTab crls set_crls l_id l_flags set_l_flags.
Definition roaF : flagtab (obj_row roa_data) :=
  FT RoaTab roas (fun l t => set_roas l (roa_prefixes t) t) o_id o_flags set_o_flags.
Definition mftF : flagtab (obj_row mft_data) := FT MftTab mfts set_mfts o_id o_flags set_o_flags.
Definition gbrF : flagtab (obj_row unit) := FT GbrTab gbrs set_gbrs o_id o_flags set_o_flags.

#[export] Instance certF_laws : FlagTab certF.
Proof. by split; intros; try destruct t; try destruct r. Qed.
#[export] Instance crlF_laws : FlagTab crlF.
Proof. by split; intros; try destruct t; try destruct r. Qed.
#[export] Instance roaF_laws : FlagTab roaF.
Proof. by split; intros; try destruct t; try destruct r. Qed.
#[export] Instance mftF_laws : FlagTab mftF.
Proof. by split; intros; try destruct t; try destruct r. Qed.
#[export] Instance gbrF_laws : FlagTab gbrF.
Proof. by split; intros; try destruct t; try destruct r. Qed.

(** [marked r r']: the row, perhaps with NOCHAIN set. *)
Definition marked {R} (F : flagtab R) (r r' : R) : Prop :=
  r' = r \/ r' = ft_setf F (mark (ft_flags F r)) r.

Section marked.
Context {R} (F : flagtab R) {HF : FlagTab F}.
Lemma marked_id r r' : marked F r r' -> ft_id F r' = ft_id F r.
Proof. intros [->| ->]; [done|]. apply ft_id_setf. Qed.
Lemma marked_live r r' : marked F r r' -> nochain (ft_flags F r') = false -> r' = r.
Proof. intros [->| ->]; [done|]. by rewrite ft_flags_setf, nochain_mark. Qed.
Lemma marked_trans r r' r'' : marked F r r' -> marked F r' r'' -> marked F r r''.
Proof.
  intros [->| ->] [->| ->]; unfold marked; try tauto. rewrite ft_flags_setf, ft_setf_setf, mark_mark. tauto.
Qed.
End marked.

(** Rows are only marked. *)
Record weaker (t t' : tables) : Prop := {
  wk_certs : Forall2 (marked certF) (certs t) (certs t');
  wk_crls : Forall2 (marked crlF) (crls t) (crls t');
  wk_roas : Forall2 (marked roaF) (roas t) (roas t');
  wk_mfts : Forall2 (marked mftF) (mfts t) (mfts t');
  wk_gbrs : Forall2 (marked gbrF) (gbrs t) (gbrs t');
  wk_prefixes : roa_prefixes t' = roa_prefixes t }.

Lemma marked_refl {R} (F : flagtab R) l : Forall2 (marked F) l l.
Proof. induction l; constructor; [by left|done]. Qed.

Lemma weaker_refl t : weaker t t.
Proof. split; try apply marked_refl; done. Qed.

Lemma marked_all_trans {R} (F : flagtab R) {HF : FlagTab F} l1 l2 l3 :
  Forall2 (marked F) l1 l2 -> Forall2 (marked F) l2 l3 -> Forall2 (marked F) l1 l3.
Proof.
  intros H. revert l3. induction H; intros l3 H3; inversion H3; subst; constructor; [|by auto].
  by eapply marked_trans.
Qed.

Lemma weaker_trans t1 t2 t3 : weaker t1 t2 -> weaker t2 t3 -> weaker t1 t3.
Proof.
  intros [A1 B1 C1 D1 E1 F1] [A2 B2 C2 D2 E2 F2].
  split; [by eapply marked_all_trans; eauto with typeclass_instances..|by rewrite F2].
Qed.

(** ** Runs in which no statement fails *)

Section runs.
Context (sql_ok : nat -> bool) (clock : nat -> option Z)
  (in_order : forall A, list A -> list A) (esc : string -> string) (now : Z).
Context (Hsql : forall n, sql_ok n = true) (Hclock : forall n, clock n = Some now)
  (Horder : forall A (l : list A), in_order A l ≡ₚ l).

Definition runs {A} (m : M A) (s : dbst) (a : A) (t : tables) : Prop :=
  exists s', m s = (s', inr a) /\ tabs s' = t.

Lemma runs_ret {A} (a : A) s : runs (est_ret a) s a (tabs s).
Proof. by exists s. Qed.

Lemma runs_bind {A B} (m : M A) (f : A -> M B) s a t b t' :
  runs m s a t -> (forall s', tabs s' = t -> runs (f a) s' b t') ->
  runs (est_bind f m) s b t'.
Proof.
  intros (s1 & E & Ht) Hf. destruct (Hf s1 Ht) as (s2 & E2 & Ht2). exists s2.
  unfold est_bind. by rewrite E.
Qed.

Lemma runs_statement s : runs (statementscm sql_ok) s true (tabs s).
Proof. eexists. split; [unfold statementscm; by rewrite Hsql|done]. Qed.

Lemma runs_no_data f s : runs (statementscm_no_data sql_ok f) s 0 (f (tabs s)).
Proof.
  eapply runs_bind; [apply runs_statement|]. intros s1 H1. cbn [negb].
  eexists. split; [reflexivity|]. cbn. by rewrite H1.
Qed.

Definition has_parent (t : tables) (IS : option string) (AK : string) : bool :=
  existsb (valid_parent esc now IS AK) (certs t).

Lemma filter_nil {A} (p : A -> bool) l : (length (List.filter p l) =? 0)%nat = negb (existsb p l).
Proof. induction l as [|x l IH]; [done|]. simpl. destruct (p x); [done|exact IH]. Qed.

Lemma runs_count IS AK s :
  exists n, runs (countvalidparents sql_ok clock esc IS AK) s n (tabs s) /\
    (0 <? n) = has_parent (tabs s) IS AK.
Proof.
  unfold countvalidparents. set (l := List.filter (valid_parent esc now IS AK) (certs (tabs s))).
  exists (if (length l =? 0)%nat then ERR_SCM_NODATA else Z.of_nat (length l)). split.
  - eapply runs_bind; [eexists; split; [reflexivity|]; cbn; reflexivity|].
    intros s1 H1. rewrite Hclock. eapply runs_bind; [apply runs_statement|].
    intros s2 H2. rewrite H1 in H2. cbn [negb]. eexists. split; [|exact H2]. cbn. by rewrite H2.
  - unfold has_parent. pose proof (filter_nil (valid_parent esc now IS AK) (certs (tabs s))) as E.
    fold l in E. destruct (length l =? 0)%nat eqn:El.
    + by destruct (existsb _ _).
    + apply Nat.eqb_neq in El. destruct (existsb _ _); [|done]. apply Z.ltb_lt. lia.
Qed.

Lemma runs_valid_flags tb id prev s :
  runs (updateValidFlags sql_ok tb id prev false) s 0 (upd_flags tb id (mark prev) (tabs s)).
Proof. apply runs_no_data. Qed.

(** ** A search whose callback changes the flags of its row *)

Section search.
Context {R} (F : flagtab R) {HF : FlagTab F}.
Context (keep : R -> bool) (g : R -> Z) (cb : R -> M Z) (P : tables -> Prop).
Context (Hcb : forall r s, P (tabs s) ->
  runs (cb r) s 0 (if keep r then tabs s else upd_flags (ft_tab F) (ft_id F r) (g r) (tabs s))).
Context (HP : forall t id f, P t -> P (upd_flags (ft_tab F) id f t)).

Definition change (sel : R -> bool) (r : R) : R :=
  if sel r && negb (keep r) then ft_setf F (g r) r else r.

Lemma callbacks_flags rows : forall (done : list Z) l0 t s sta,
  NoDup (ft_id F <$> l0) -> NoDup (ft_id F <$> rows) -> P (tabs s) -> sta = 0 ->
  (forall r, r ∈ rows -> r ∈ l0 /\ ft_id F r ∉ done) ->
  tabs s = ft_set F (map (change (fun r => bool_decide (ft_id F r ∈ done))) l0) t ->
  runs (callbacks cb rows sta) s 0
    (ft_set F (map (change (fun r => bool_decide (ft_id F r ∈ done ++ (ft_id F <$> rows)))) l0) t).
Proof.
  induction rows as [|r rows IH]; intros done l0 t s sta Hnd0 Hnd HPs -> Hin Ht; cbn [callbacks].
  { rewrite app_nil_r, <- Ht. apply runs_ret. }
  apply NoDup_cons in Hnd as [Hr Hnd].
  destruct (Hin r ltac:(by left)) as [Hrl Hrd].
  eapply runs_bind; [apply Hcb, HPs|]. intros s1 H1. cbn in Hr |- *. fold (fmap (ft_id F) rows) in *.
  rewrite (cons_middle (ft_id F r)), app_assoc.
  apply (IH (done ++ [ft_id F r]) l0 t); [done|done| |done| |].
  - rewrite H1. destruct (keep r); [done|by apply HP].
  - intros r' Hr'. destruct (Hin r' ltac:(by right)) as [Hl Hd]. split; [done|].
    intros [?|He]%elem_of_app; [done|]. apply list_elem_of_singleton in He.
    apply Hr. rewrite <- He. by apply list_elem_of_fmap_2.
  - rewrite H1, Ht.
    assert (Hone : forall x, x ∈ l0 -> ft_id F x = ft_id F r -> x = r).
    { intros x Hx Hid. apply list_elem_of_lookup in Hx as [i Hi], Hrl as [j Hj].
      assert (i = j) as ->.
      { apply (NoDup_lookup (ft_id F <$> l0) i j (ft_id F r)); [done| |].
        - by rewrite list_lookup_fmap, Hi, <- Hid.
        - by rewrite list_lookup_fmap, Hj. }
      by rewrite Hi in Hj; injection Hj. }
    destruct (keep r) eqn:Ek.
    + f_equal. apply map_ext_in. intros x Hx%list_elem_of_In. unfold change.
      destruct (decide (ft_id F x = ft_id F r)) as [He|He].
      * rewrite (Hone x Hx He), Ek. by rewrite !andb_false_r.
      * assert (bool_decide (ft_id F x ∈ done ++ [ft_id F r]) = bool_decide (ft_id F x ∈ done)) as ->; [|done].
        apply bool_decide_ext. rewrite elem_of_app, list_elem_of_singleton. tauto.
    + rewrite ft_upd, ft_get_set, ft_set_set, map_map. f_equal. apply map_ext_in.
      intros x Hx%list_elem_of_In. unfold change.
      destruct (decide (ft_id F x = ft_id F r)) as [He|He].
      * rewrite (Hone x Hx He), Ek. rewrite bool_decide_eq_false_2 by done.
        rewrite bool_decide_eq_true_2 by (apply elem_of_app; right; by left).
        cbn. by rewrite Z.eqb_refl.
      * assert (bool_decide (ft_id F x ∈ done ++ [ft_id F r]) = bool_decide (ft_id F x ∈ done)) as ->.
        { apply bool_decide_ext. rewrite elem_of_app, list_elem_of_singleton. tauto. }
        destruct (bool_decide _ && _) eqn:Eb; rewrite ?ft_id_setf; by rewrite (proj2 (Z.eqb_neq _ _) He).
Qed.

Lemma search_flags where_ s :
  NoDup (ft_id F <$> ft_get F (tabs s)) -> P (tabs s) ->
  exists v, runs (searchscm sql_ok in_order (ft_get F) where_ cb) s v
    (ft_set F (map (change where_) (ft_get F (tabs s))) (tabs s)) /\
    (v = 0 \/ v = ERR_SCM_NODATA).
Proof.
  intros Hnd HPs. set (l0 := ft_get F (tabs s)) in *.
  set (rows := in_order R (List.filter where_ l0)).
  assert (Hp : rows ≡ₚ List.filter where_ l0) by apply Horder.
  exists (if (length rows =? 0)%nat then ERR_SCM_NODATA else 0). split.
  2:{ destruct (_ =? _)%nat; [by right|by left]. }
  eapply runs_bind; [apply runs_statement|]. intros s1 H1. cbn [negb].
  eapply runs_bind; [eexists; split; [reflexivity|]; exact H1|]. intros s2 H2. rewrite H1. fold l0 rows.
  assert (Hsub : forall r, r ∈ rows <-> r ∈ l0 /\ where_ r = true).
  { intros r. rewrite Hp, !list_elem_of_In. apply List.filter_In. }
  assert (Hndr : NoDup (ft_id F <$> rows)).
  { rewrite Hp. clear -Hnd. induction l0 as [|x l IH]; [done|]. cbn in Hnd |- *.
    apply NoDup_cons in Hnd as [Hx Hnd]. destruct (where_ x); cbn; [|by apply IH].
    apply NoDup_cons. split; [|by apply IH]. intros Hin. apply Hx.
    apply list_elem_of_fmap in Hin as (y & -> & Hy). apply list_elem_of_fmap_2.
    apply list_elem_of_In, List.filter_In in Hy as [Hy _]. by apply list_elem_of_In. }
  eapply runs_bind.
  - apply (callbacks_flags rows [] l0 (tabs s)); [done|done|by rewrite H2|done| |].
    + intros r Hr. split; [by apply Hsub|]. apply not_elem_of_nil.
    + rewrite H2. unfold change. rewrite (map_ext _ id).
      * rewrite map_id. unfold l0. by rewrite ft_set_get.
      * intros r. by rewrite bool_decide_eq_false_2 by apply not_elem_of_nil.
  - intros s3 H3. cbn [Z.ltb Z.compare].
    assert (tabs s3 = ft_set F (map (change where_) l0) (tabs s)) as <-; [|apply runs_ret].
    rewrite H3. f_equal. apply map_ext_in. intros r Hr%list_elem_of_In. unfold change. cbn [app].
    assert (bool_decide (ft_id F r ∈ ft_id F <$> rows) = where_ r) as ->; [|done].
    destruct (where_ r) eqn:Ew.
    + apply bool_decide_eq_true_2, list_elem_of_fmap_2. by apply Hsub.
    + apply bool_decide_eq_false_2. intros Hin. apply list_elem_of_fmap in Hin as (y & He & Hy).
      apply Hsub in Hy as [Hy Hwy].
      apply list_elem_of_lookup in Hr as [i Hi], Hy as [j Hj].
      assert (i = j) as ->.
      { apply (NoDup_lookup (ft_id F <$> l0) i j (ft_id F r)); [done| |].
        - by rewrite list_lookup_fmap, Hi.
        - by rewrite list_lookup_fmap, Hj, He. }
      rewrite Hi in Hj. injection Hj as ->. congruence.
Qed.
End search.

(** ** The objects below a certificate *)

Definition inv_obj {P} (t : tables) (ski : string) : obj_row P -> obj_row P := fun o =>
  if obj_where ski o && negb (has_parent t None (o_ski o)) then set_o_flags (mark (o_flags o)) o else o.
Definition inv_crl (t : tables) (ski subject : string) (l : crl_row) : crl_row :=
  if crl_where ski subject false l && negb (has_parent t (Some (l_issuer l)) (fetched (l_aki l)))
  then set_l_flags (mark (l_flags l)) l else l.

Definition inv_objs (d : PropData) (t : tables) : tables :=
  mkTables (certs t) (map (inv_crl t (pd_ski d) (pd_subject d)) (crls t))
    (map (inv_obj t (pd_ski d)) (roas t)) (roa_prefixes t) (map (inv_obj t (pd_ski d)) (mfts t))
    (map (inv_obj t (pd_ski d)) (gbrs t)) (dirs t) (rootdir t).

(** Local ids are unique in each table. *)
Record ids_ok (t : tables) : Prop := {
  id_certs : NoDup (c_id <$> certs t);
  id_crls : NoDup (l_id <$> crls t);
  id_roas : NoDup (o_id <$> roas t);
  id_mfts : NoDup (o_id <$> mfts t);
  id_gbrs : NoDup (o_id <$> gbrs t) }.

Lemma has_parent_certs t t' IS AK : certs t = certs t' -> has_parent t IS AK = has_parent t' IS AK.
Proof. unfold has_parent. by intros ->. Qed.

Lemma runs_invalidate_obj {P} tb (o : obj_row P) t1 s :
  certs (tabs s) = certs t1 ->
  runs (invalidate_obj sql_ok clock esc tb o) s 0
    (if has_parent t1 None (o_ski o) then tabs s
     else upd_flags tb (o_id o) (mark (o_flags o)) (tabs s)).
Proof.
  intros Ht. destruct (runs_count None (o_ski o) s) as (n & Hn & E).
  eapply runs_bind; [exact Hn|]. intros s1 H1. rewrite E, (has_parent_certs _ t1) by done.
  destruct (has_parent t1 None (o_ski o)); [rewrite <- H1; apply runs_ret|].
  eapply runs_bind; [apply runs_valid_flags|]. intros s2 H2. rewrite H1 in H2. rewrite <- H2. apply runs_ret.
Qed.

Lemma runs_invalidate_crl (l : crl_row) t1 s :
  certs (tabs s) = certs t1 ->
  runs (invalidate_crl sql_ok clock esc l) s 0
    (if has_parent t1 (Some (l_issuer l)) (fetched (l_aki l)) then tabs s
     else upd_flags CrlTab (l_id l) (mark (l_flags l)) (tabs s)).
Proof.
  intros Ht. destruct (runs_count (Some (l_issuer l)) (fetched (l_aki l)) s) as (n & Hn & E).
  eapply runs_bind; [exact Hn|]. intros s1 H1. rewrite E, (has_parent_certs _ t1) by done.
  destruct (has_parent t1 _ _); [rewrite <- H1; apply runs_ret|].
  eapply runs_bind; [apply runs_valid_flags|]. intros s2 H2. rewrite H1 in H2. rewrite <- H2. apply runs_ret.
Qed.

(** The searches of [invalidateChildCert]. *)
Lemma search_objs {P} (F : flagtab (obj_row P)) {HF : FlagTab F} ski t1 s :
  ft_id F = o_id -> ft_flags F = o_flags -> ft_setf F = set_o_flags ->
  (forall id f t, certs (upd_flags (ft_tab F) id f t) = certs t) ->
  NoDup (o_id <$> ft_get F (tabs s)) -> certs (tabs s) = certs t1 ->
  exists v, runs (searchscm sql_ok in_order (ft_get F) (obj_where ski)
      (invalidate_obj sql_ok clock esc (ft_tab F))) s v
    (ft_set F (map (inv_obj t1 ski) (ft_get F (tabs s))) (tabs s)).
Proof.
  intros Hid Hfl Hset Hc Hnd Ht.
  destruct (search_flags F (fun o => has_parent t1 None (o_ski o)) (fun o => mark (o_flags o))
    (invalidate_obj sql_ok clock esc (ft_tab F)) (fun t => certs t = certs t1)) with (where_ := @obj_where P ski) (s := s)
    as (v & Hv & _).
  - intros r s' H'. rewrite Hid. by apply runs_invalidate_obj.
  - intros t id f H'. by rewrite Hc.
  - by rewrite Hid.
  - done.
  - exists v. unfold change in Hv. rewrite Hset in Hv. exact Hv.
Qed.

Lemma runs_inv_objs d s : ids_ok (tabs s) ->
  runs (invalidateChildCert sql_ok clock in_order esc d false) s 0 (inv_objs d (tabs s)).
Proof.
  intros [_ Hcrl Hroa Hmft Hgbr]. set (t1 := tabs s) in *.
  unfold invalidateChildCert. eapply runs_bind; [apply runs_ret|]. intros s1 H1. cbn [Z.ltb Z.compare].
  destruct (search_objs roaF (pd_ski d) t1 s1) as (v2 & R2); [done..|by rewrite H1|by rewrite H1|].
  eapply runs_bind; [exact R2|]. intros s2 H2. rewrite H1 in H2. cbn in H2.
  destruct (search_objs gbrF (pd_ski d) t1 s2) as (v3 & R3); [done..|by rewrite H2|by rewrite H2|].
  eapply runs_bind; [exact R3|]. intros s3 H3. rewrite H2 in H3. cbn in H3.
  destruct (search_objs mftF (pd_ski d) t1 s3) as (v4 & R4); [done..|by rewrite H3|by rewrite H3|].
  eapply runs_bind; [exact R4|]. intros s4 H4. rewrite H3 in H4. cbn in H4.
  destruct (search_flags crlF (fun l => has_parent t1 (Some (l_issuer l)) (fetched (l_aki l)))
    (fun l => mark (l_flags l)) (invalidate_crl sql_ok clock esc) (fun t => certs t = certs t1))
    with (where_ := crl_where (pd_ski d) (pd_subject d) false) (s := s4) as (v5 & R5 & _).
  - intros r s' H'. by apply runs_invalidate_crl.
  - done.
  - by rewrite H4.
  - by rewrite H4.
  - eapply runs_bind; [exact R5|]. intros s5 H5. rewrite H4 in H5. cbn in H5.
    assert (E : tabs s5 = inv_objs d t1) by (rewrite H5; reflexivity).
    rewrite <- E. apply runs_ret.
Qed.

(** With [doUpdate] the certificate is marked first, unless it has a parent. *)
Lemma runs_child d s : ids_ok (tabs s) ->
  runs (invalidateChildCert sql_ok clock in_order esc d true) s
    (if has_parent (tabs s) (Some (pd_issuer d)) (pd_aki d) then -1 else 0)
    (if has_parent (tabs s) (Some (pd_issuer d)) (pd_aki d) then tabs s
     else inv_objs d (upd_flags CertTab (pd_id d) (mark (pd_flags d)) (tabs s))).
Proof.
  intros Hids. destruct (runs_count (Some (pd_issuer d)) (pd_aki d) s) as (n & Hn & E).
  destruct (has_parent _ _ _) eqn:Ehp.
  - apply (runs_bind _ _ _ (-1) (tabs s)).
    + eapply runs_bind; [exact Hn|]. intros s1 H1. rewrite E, <- H1. apply runs_ret.
    + intros s1 <-. apply runs_ret.
  - assert (Hids' : ids_ok (upd_flags CertTab (pd_id d) (mark (pd_flags d)) (tabs s))).
    { destruct Hids as [Hc ? ? ? ?]. split; try done. cbn. rewrite <- list_fmap_compose.
      erewrite list_fmap_ext; [exact Hc|]. intros i c _. cbn. by destruct (c_id c =? _). }
    apply (runs_bind _ _ _ 0 (upd_flags CertTab (pd_id d) (mark (pd_flags d)) (tabs s))).
    + eapply runs_bind; [exact Hn|]. intros s1 H1. rewrite E.
      eapply runs_bind; [apply runs_valid_flags|]. intros s2 H2. rewrite H1 in H2. cbn [Z.ltb Z.compare].
      rewrite <- H2. apply runs_ret.
    + intros s1 H1. cbn [Z.ltb Z.compare].
      pose proof (runs_inv_objs d s1) as HR. rewrite H1 in HR. specialize (HR Hids').
      destruct HR as (s' & HR & Ht). exists s'. split; [|exact Ht]. exact HR.
Qed.

(** ** What a round pushes *)
Definition children (d : PropData) (t : tables) : list PropData :=
  rev (map child_prop (in_order _ (List.filter (child_where d false) (certs t)))).

Lemma runs_register d s : runs (registerChildren sql_ok in_order d false) s (children d (tabs s)) (tabs s).
Proof.
  eapply runs_bind; [apply runs_statement|]. intros s1 H1. cbn [negb].
  eexists. split; [|exact H1]. cbn. by rewrite H1.
Qed.

Lemma children_in d t x :
  x ∈ children d t <-> exists c, c ∈ certs t /\ child_where d false c = true /\ x = child_prop c.
Proof.
  unfold children. rewrite list_elem_of_In, <- in_rev, <- list_elem_of_In, list_elem_of_fmap.
  split.
  - intros (c & -> & Hc). exists c. rewrite Horder, list_elem_of_In, List.filter_In, <- list_elem_of_In in Hc.
    naive_solver.
  - intros (c & Hc & Hw & ->). exists c. split; [done|].
    by rewrite Horder, list_elem_of_In, List.filter_In, <- list_elem_of_In.
Qed.

(** One round: what it leaves and what it pushes. *)
Lemma runs_prop_root d s : ids_ok (tabs s) ->
  runs (prop_step sql_ok in_order (invalidateChildCert sql_ok clock in_order esc) false d true) s
    (children d (inv_objs d (tabs s))) (inv_objs d (tabs s)).
Proof.
  intros H. eapply runs_bind; [by apply runs_inv_objs|]. intros s1 H1. cbn [Z.eqb]. rewrite <- H1. apply runs_register.
Qed.

Lemma runs_prop_step d s : ids_ok (tabs s) ->
  let t1 := inv_objs d (upd_flags CertTab (pd_id d) (mark (pd_flags d)) (tabs s)) in
  let b := has_parent (tabs s) (Some (pd_issuer d)) (pd_aki d) in
  runs (prop_step sql_ok in_order (invalidateChildCert sql_ok clock in_order esc) false d false) s
    (if b then [] else children d t1) (if b then tabs s else t1).
Proof.
  intros H t1 b. eapply runs_bind; [by apply runs_child|]. fold t1 b. intros s1 H1. destruct b; cbn [Z.eqb].
  - rewrite <- H1. apply runs_ret.
  - rewrite <- H1. apply runs_register.
Qed.
End runs.
