(* ===== verification/RpkiDbChain.v ===== *)
(** * Certificate chains under invalidation

    [chain_inv] is what the flags promise: whatever is not marked NOCHAIN has a
    validated, unmarked certificate above it. The propagation of [sqhl.c] is a
    worklist algorithm with the invariant [work]; it terminates although an
    entry may be pushed several times, and it marks only what it has to
    ([kept]). *)

From stdpp Require Import strings.
From S2P Require Import Prelude Sql RpkiObject RpkiDb RpkiDbFacts.

Local Open Scope est_scope.

(** ** Runs with enough fuel *)

Definition ends {A} (m : nat -> M A) (s : dbst) (Q : A -> tables -> Prop) : Prop :=
  exists n0 s' a, (forall n, (n0 <= n)%nat -> m n s = (s', inr a)) /\ Q a (tabs s').

Lemma ends_runs {A} (m : M A) s a t (Q : A -> tables -> Prop) : runs m s a t -> Q a t -> ends (fun _ => m) s Q.
Proof. intros (s' & E & <-) HQ. by exists 0%nat, s', a. Qed.

Lemma ends_ret {A} (a : A) s (Q : A -> tables -> Prop) : Q a (tabs s) -> ends (fun _ => est_ret a) s Q.
Proof. intros HQ. by eapply ends_runs; [apply runs_ret|]. Qed.

Lemma ends_bind {A B} (m : nat -> M A) (f : nat -> A -> M B) s P Q :
  ends m s P -> (forall a s', P a (tabs s') -> ends (fun n => f n a) s' Q) ->
  ends (fun n => est_bind (f n) (m n)) s Q.
Proof.
  intros (n1 & s1 & a & E1 & HP) Hf. destruct (Hf a s1 HP) as (n2 & s2 & b & E2 & HQ).
  exists (n1 `max` n2)%nat, s2, b. split; [|done]. intros n Hn. unfold est_bind.
  rewrite E1 by lia. apply E2. lia.
Qed.

Lemma ends_run {A B} (m : M A) (f : nat -> A -> M B) s a t Q :
  runs m s a t -> (forall s', tabs s' = t -> ends (fun n => f n a) s' Q) -> ends (fun n => est_bind (f n) m) s Q.
Proof.
  intros Hm Hf. apply (ends_bind (fun _ => m) f s (fun v t' => v = a /\ t' = t)); [by eapply ends_runs|].
  intros ? s' [-> H]. by apply Hf.
Qed.

Lemma ends_impl {A} (m : nat -> M A) s (P Q : A -> tables -> Prop) :
  ends m s P -> (forall a t, P a t -> Q a t) -> ends m s Q.
Proof. intros (n & s' & a & E & HP) H. exists n, s', a. split; [done|by apply H]. Qed.

Lemma ends_ext {A} (m m' : nat -> M A) s Q : (forall n, m' n = m n) -> ends m s Q -> ends m' s Q.
Proof. intros E (n & s' & a & H & HQ). exists n, s', a. split; [|done]. intros k Hk. rewrite E. by apply H. Qed.

Lemma ends_loop ok ord child dv root d stack s new t Q :
  runs (prop_step ok ord child dv d root) s new t ->
  (forall s', tabs s' = t -> ends (fun n => prop_loop ok ord child dv n false (new ++ stack)) s' Q) ->
  ends (fun n => prop_loop ok ord child dv n root (d :: stack)) s Q.
Proof.
  intros (s1 & E1 & Ht) H. destruct (H s1 Ht) as (n & s' & a & E & HQ).
  exists (S n), s', a. split; [|done]. intros [|k] Hk; [lia|]. simpl. unfold est_bind.
  rewrite E1. apply E. lia.
Qed.

(** ** Chains *)

Section chain.
Context (esc : string -> string).

(** A certificate that can stand above [AK] (with subject [IS] where given). *)
Definition parent_ok (IS : option string) (AK : string) (c : cert_row) : bool :=
  String.eqb (c_ski c) AK &&
  match IS with
  | None => true
  | Some name => match c_subject c with Some sub => String.eqb sub (esc name) | None => false end
  end && validated (c_flags c) && negb (nochain (c_flags c)).

Definition supported (t : tables) (IS : option string) (AK : string) : Prop :=
  exists p, p ∈ certs t /\ parent_ok IS AK p = true.

(** The certificate names another one as its issuer. *)
Definition needs (c : cert_row) : bool :=
  match c_aki c with Some a => negb (String.eqb a (c_ski c)) | None => false end.

Record objs_ok (t : tables) : Prop := {
  ok_crl : forall l, l ∈ crls t -> nochain (l_flags l) = false -> forall a, l_aki l = Some a ->
    supported t (Some (l_issuer l)) a;
  ok_roa : forall o, o ∈ roas t -> nochain (o_flags o) = false -> supported t None (o_ski o);
  ok_mft : forall o, o ∈ mfts t -> nochain (o_flags o) = false -> supported t None (o_ski o);
  ok_gbr : forall o, o ∈ gbrs t -> nochain (o_flags o) = false -> supported t None (o_ski o) }.

Record chain_inv (t : tables) : Prop := {
  ci_cert : forall c, c ∈ certs t -> nochain (c_flags c) = false -> needs c = true ->
    supported t (Some (c_issuer c)) (fetched (c_aki c));
  ci_objs : objs_ok t }.

(** Names that [mysql_escape_string] leaves alone. *)
Record plain (t : tables) : Prop := {
  pl_cert : forall c, c ∈ certs t -> esc (c_issuer c) = c_issuer c;
  pl_crl : forall l, l ∈ crls t -> esc (l_issuer l) = l_issuer l }.

Context (now : Z).

Lemma valid_parent_ok IS AK c : valid_parent esc now IS AK c = true -> parent_ok IS AK c = true.
Proof.
  unfold valid_parent, parent_ok. rewrite validated_test, nochain_test, !andb_true_iff.
  intros [[[[H1 _] _] H2] H3]. destruct (validated (c_flags c)), (nochain (c_flags c)); tauto.
Qed.

Lemma has_parent_supported t IS AK : has_parent esc now t IS AK = true -> supported t IS AK.
Proof.
  unfold has_parent. intros (p & Hp & Hv)%existsb_exists. exists p. rewrite list_elem_of_In.
  split; [done|by apply valid_parent_ok].
Qed.

Lemma marked_dead f : nochain (mark f) = false -> False.
Proof. by rewrite nochain_mark. Qed.

(** ** Losing a parent *)

Section lose.
Context (d : PropData) (t t1 : tables).
Context (Hlose : forall IS AK, supported t IS AK ->
  supported t1 IS AK \/ (AK = pd_ski d /\ forall n, IS = Some n -> pd_subject d = esc n)).

Lemma lose_obj {P} (o o' : obj_row P) (l : list (obj_row P)) :
  (forall x, x ∈ l -> nochain (o_flags x) = false -> supported t None (o_ski x)) -> o ∈ l ->
  o' = inv_obj esc now t1 (pd_ski d) o -> nochain (o_flags o') = false -> supported t1 None (o_ski o').
Proof.
  unfold inv_obj. intros Hok Ho ->. destruct (obj_where _ o && _) eqn:E; [by intros Hx%marked_dead|].
  intros Hl. destruct (Hlose _ _ (Hok o Ho Hl)) as [?|[He _]]; [done|].
  unfold obj_where in E. rewrite nochain_test, Hl, He, String.eqb_refl in E. cbn in E.
  rewrite He. apply has_parent_supported. by destruct (has_parent _ _ _ _ _).
Qed.

Lemma lose_crl l l' : plain t1 -> l ∈ crls t1 ->
  (nochain (l_flags l) = false -> forall a, l_aki l = Some a -> supported t (Some (l_issuer l)) a) ->
  l' = inv_crl esc now t1 (pd_ski d) (pd_subject d) l ->
  nochain (l_flags l') = false -> forall a, l_aki l' = Some a -> supported t1 (Some (l_issuer l')) a.
Proof.
  unfold inv_crl. intros Hpl Hl Hok ->. destruct (crl_where _ _ _ l && _) eqn:E; [by intros Hx%marked_dead|].
  intros Hn a Ha. destruct (Hlose _ _ (Hok Hn a Ha)) as [?|[-> Hs]]; [done|].
  unfold crl_where in E. specialize (Hs _ eq_refl). rewrite (pl_crl _ Hpl l Hl) in Hs.
  rewrite nochain_test, Hn, Ha, Hs in E. cbn in E. rewrite !String.eqb_refl in E. cbn in E.
  apply has_parent_supported. by destruct (has_parent _ _ _ _ _).
Qed.

Lemma lose_objs : plain t1 -> objs_ok t -> crls t1 = crls t -> roas t1 = roas t -> mfts t1 = mfts t ->
  gbrs t1 = gbrs t -> objs_ok (inv_objs esc now d t1).
Proof.
  intros Hpl [Kc Kr Km Kg] Ec Er Em Eg. unfold supported in *. split; cbn [inv_objs crls roas mfts gbrs].
  - intros l' (l & -> & Hl)%list_elem_of_fmap. eapply (lose_crl l); [done..| |done]. rewrite Ec in Hl. by apply Kc.
  - intros o' (o & -> & Ho)%list_elem_of_fmap. rewrite Er in Ho. by eapply (lose_obj o _ (roas t)).
  - intros o' (o & -> & Ho)%list_elem_of_fmap. rewrite Em in Ho. by eapply (lose_obj o _ (mfts t)).
  - intros o' (o & -> & Ho)%list_elem_of_fmap. rewrite Eg in Ho. by eapply (lose_obj o _ (gbrs t)).
Qed.

Lemma lose_cert c : plain t1 -> c ∈ certs t1 -> nochain (c_flags c) = false -> needs c = true ->
  supported t (Some (c_issuer c)) (fetched (c_aki c)) ->
  supported t1 (Some (c_issuer c)) (fetched (c_aki c)) \/ child_where d false c = true.
Proof.
  intros Hpl Hc Hl Hn Hs. destruct (Hlose _ _ Hs) as [?|[He Hi]]; [by left|right].
  specialize (Hi _ eq_refl). rewrite (pl_cert _ Hpl c Hc) in Hi.
  unfold needs in Hn. unfold child_where. destruct (c_aki c) as [a|]; [|done].
  cbn [fetched from_option id is_str] in *. subst a. rewrite Hi, nochain_test, Hl, !String.eqb_refl, String.eqb_sym, Hn. done.
Qed.
End lose.
End chain.

(** ** Rows and their marked versions *)

Lemma Forall2_map_self {A} (R : A -> A -> Prop) (f : A -> A) l :
  (forall x, x ∈ l -> R x (f x)) -> Forall2 R l (map f l).
Proof. induction l as [|x l IH]; intros H; constructor; [by apply H; left|]. apply IH. intros y Hy. apply H. by right. Qed.

Section rows.
Context {R} (F : flagtab R) {HF : FlagTab F}.

Lemma marked_ids l l' : Forall2 (marked F) l l' -> ft_id F <$> l' = ft_id F <$> l.
Proof. induction 1 as [|x y l l' Hm _ IH]; [done|]. cbn. rewrite (marked_id F x y Hm). by f_equal. Qed.

Lemma marked_nodup l l' : Forall2 (marked F) l l' -> NoDup (ft_id F <$> l) -> NoDup (ft_id F <$> l').
Proof. intros H. by rewrite (marked_ids _ _ H). Qed.

Lemma marked_from l l' r' : Forall2 (marked F) l l' -> r' ∈ l' -> exists r, r ∈ l /\ marked F r r'.
Proof.
  intros H Hr. apply list_elem_of_lookup in Hr as [i Hi].
  destruct (Forall2_lookup_r _ _ _ _ _ H Hi) as (r & Hr & Hm). exists r. split; [|done].
  by eapply list_elem_of_lookup_2.
Qed.

Lemma marked_to l l' r : Forall2 (marked F) l l' -> r ∈ l -> exists r', r' ∈ l' /\ marked F r r'.
Proof.
  intros H Hr. apply list_elem_of_lookup in Hr as [i Hi].
  destruct (Forall2_lookup_l _ _ _ _ _ H Hi) as (r' & Hr & Hm). exists r'. split; [|done].
  by eapply list_elem_of_lookup_2.
Qed.

Lemma same_id l x y : NoDup (ft_id F <$> l) -> x ∈ l -> y ∈ l -> ft_id F x = ft_id F y -> x = y.
Proof.
  intros Hnd Hx Hy E. apply list_elem_of_lookup in Hx as [i Hi], Hy as [j Hj].
  assert (i = j) as ->; [|congruence].
  apply (NoDup_lookup (ft_id F <$> l) i j (ft_id F x)); [done| |]; rewrite list_lookup_fmap.
  - by rewrite Hi.
  - by rewrite Hj, E.
Qed.

Lemma marked_row l l' r r' : Forall2 (marked F) l l' -> NoDup (ft_id F <$> l) -> r ∈ l -> r' ∈ l' ->
  ft_id F r = ft_id F r' -> marked F r r'.
Proof.
  intros H Hnd Hr Hr' E. destruct (marked_from _ _ _ H Hr') as (x & Hx & Hm).
  rewrite (marked_id F _ _ Hm) in E. by rewrite (same_id l r x).
Qed.
End rows.

Lemma weaker_ids t t' : weaker t t' -> ids_ok t -> ids_ok t'.
Proof.
  intros [A1 B1 C1 D1 E1 _] [A B C D E].
  split; [by eapply (marked_nodup certF)|by eapply (marked_nodup crlF)|by eapply (marked_nodup roaF)|
    by eapply (marked_nodup mftF)|by eapply (marked_nodup gbrF)].
Qed.

Lemma weaker_plain esc t t' : weaker t t' -> plain esc t -> plain esc t'.
Proof.
  intros W [Pc Pl]. split.
  - intros c' Hc. destruct (marked_from certF _ _ _ (wk_certs _ _ W) Hc) as (c & Hc0 & [->| ->]); exact (Pc c Hc0).
  - intros l' Hl. destruct (marked_from crlF _ _ _ (wk_crls _ _ W) Hl) as (l & Hl0 & [->| ->]); exact (Pl l Hl0).
Qed.

Lemma weaker_inv_objs esc now d t : weaker t (inv_objs esc now d t).
Proof.
  split; cbn; try apply marked_refl; try done; apply Forall2_map_self; intros x _;
    unfold inv_crl, inv_obj; destruct (_ && _); (by right) || by left.
Qed.

(** Marking the row [c0] came from. *)
Lemma weaker_mark t0 t c0 : weaker t0 t -> ids_ok t0 -> c0 ∈ certs t0 ->
  weaker t (upd_flags CertTab (c_id c0) (mark (c_flags c0)) t).
Proof.
  intros W [Hnd _ _ _ _] Hc0. split; cbn; try apply marked_refl; try done.
  apply Forall2_map_self. intros x Hx. destruct (Z.eqb_spec (c_id x) (c_id c0)) as [E|E]; [|by left].
  destruct (marked_row certF _ _ c0 x (wk_certs _ _ W) Hnd Hc0 Hx (eq_sym E)) as [->| ->]; [by right|].
  right. cbn. by rewrite mark_mark.
Qed.

(** ** The worklist *)

Section work.
Context (sql_ok : nat -> bool) (clock : nat -> option Z)
  (in_order : forall A, list A -> list A) (esc : string -> string) (now : Z).
Context (Hsql : forall n, sql_ok n = true) (Hclock : forall n, clock n = Some now)
  (Horder : forall A (l : list A), in_order A l ≡ₚ l).
Context (keep : cert_row -> Prop).

Definition above (IS : option string) (AK : string) : Prop :=
  exists p, keep p /\ valid_parent esc now IS AK p = true.

(** [keep] holds up its own certificates. *)
Definition self_supporting : Prop :=
  forall c, keep c -> needs c = true -> above (Some (c_issuer c)) (fetched (c_aki c)).

(** What [keep] holds up is as it was. *)
Record kept (t0 t : tables) : Prop := {
  k_cert : forall c, keep c -> c ∈ certs t;
  k_crl : forall l, l ∈ crls t0 -> above (Some (l_issuer l)) (fetched (l_aki l)) -> l ∈ crls t;
  k_roa : forall o, o ∈ roas t0 -> above None (o_ski o) -> o ∈ roas t;
  k_mft : forall o, o ∈ mfts t0 -> above None (o_ski o) -> o ∈ mfts t;
  k_gbr : forall o, o ∈ gbrs t0 -> above None (o_ski o) -> o ∈ gbrs t }.

Record work (t0 t : tables) (stack : list PropData) : Prop := {
  w_weak : weaker t0 t;
  w_stack : forall d, d ∈ stack -> exists c, c ∈ certs t0 /\ needs c = true /\ d = child_prop c;
  w_cert : forall c, c ∈ certs t -> nochain (c_flags c) = false -> needs c = true ->
    supported esc t (Some (c_issuer c)) (fetched (c_aki c)) \/ child_prop c ∈ stack;
  w_objs : objs_ok esc t;
  w_kept : kept t0 t }.

Lemma above_parent t IS AK : (forall c, keep c -> c ∈ certs t) -> above IS AK -> has_parent esc now t IS AK = true.
Proof.
  intros Hk (p & Hp & Hv). apply existsb_exists. exists p. split; [|done]. by apply list_elem_of_In, Hk.
Qed.

Lemma kept_inv_objs t0 t d : kept t0 t -> kept t0 (inv_objs esc now d t).
Proof.
  intros [Kc Kl Kr Km Kg]. pose proof (fun IS AK => above_parent t IS AK Kc) as Ha.
  split; cbn; [done| | | |]; intros x Hx Hab; apply list_elem_of_fmap; exists x; (split; [|auto]);
    unfold inv_crl, inv_obj; by rewrite (Ha _ _ Hab), andb_false_r.
Qed.

Lemma kept_mark t0 t c0 : self_supporting -> weaker t0 t -> ids_ok t0 -> c0 ∈ certs t0 -> needs c0 = true ->
  (forall c, keep c -> c ∈ certs t0) ->
  has_parent esc now t (Some (c_issuer c0)) (fetched (c_aki c0)) = false ->
  kept t0 t -> kept t0 (upd_flags CertTab (c_id c0) (mark (c_flags c0)) t).
Proof.
  intros Hss W [Hnd _ _ _ _] Hc0 Hn Hk0 Hp [Kc Kl Kr Km Kg]. split; cbn; try done.
  intros c Hc. apply list_elem_of_fmap. exists c. split; [|by apply Kc].
  destruct (Z.eqb_spec (c_id c) (c_id c0)) as [E|E]; [|done].
  assert (c = c0) as -> by (by apply (same_id certF (certs t0)); [|apply Hk0| |]).
  apply Hss, (above_parent t) in Hn; [congruence|done|done].
Qed.

(** Marking [c0] only takes away what is below it. *)
Lemma lose_mark t0 t c0 : weaker t0 t -> ids_ok t0 -> c0 ∈ certs t0 -> forall IS AK, supported esc t IS AK ->
  supported esc (upd_flags CertTab (c_id c0) (mark (c_flags c0)) t) IS AK \/
  (AK = pd_ski (child_prop c0) /\ forall n, IS = Some n -> pd_subject (child_prop c0) = esc n).
Proof.
  intros W Hids Hc0 IS AK (p & Hpt & Hpo). destruct (Z.eqb_spec (c_id p) (c_id c0)) as [E|E].
  - right. pose proof (marked_row certF _ _ c0 p (wk_certs _ _ W) (id_certs _ Hids) Hc0 Hpt (eq_sym E)) as Hm.
    assert (c_ski p = c_ski c0 /\ c_subject p = c_subject c0) as [Es Eu] by (by destruct Hm as [->| ->]).
    unfold parent_ok in Hpo. rewrite !andb_true_iff, Es, Eu in Hpo. destruct Hpo as [[[H1 H2] _] _].
    apply String.eqb_eq in H1. split; [by symmetry|]. intros n ->. cbn [child_prop pd_subject].
    destruct (c_subject c0) as [sub|]; [|done]. by apply String.eqb_eq in H2.
  - left. exists p. split; [|done]. apply list_elem_of_fmap. exists p. split; [|done].
    by rewrite (proj2 (Z.eqb_neq _ _) E).
Qed.

(** A row that is pushed is one of [t0] and names another issuer. *)
Lemma child_pushed t0 t d c : weaker t0 t -> c ∈ certs t -> child_where d false c = true ->
  c ∈ certs t0 /\ needs c = true /\ nochain (c_flags c) = false.
Proof.
  intros W Hc Hw. destruct (marked_from certF _ _ _ (wk_certs _ _ W) Hc) as (c' & Hc' & Hm).
  unfold child_where in Hw. rewrite nochain_test, !andb_true_iff in Hw. destruct Hw as [[[H1 H2] _] H3].
  apply Bool.eqb_prop in H3 as Hl.
  assert (c = c') as -> by exact (marked_live certF _ _ Hm Hl). split; [done|]. split; [|exact Hl].
  unfold needs. destruct (c_aki c') as [a|]; [|done].
  cbn in H1. apply String.eqb_eq in H1 as ->. by rewrite String.eqb_sym.
Qed.

(** A round that marks. *)
Lemma work_step t0 t c0 stack new : self_supporting -> ids_ok t0 -> plain esc t0 ->
  (forall c, keep c -> c ∈ certs t0) -> work t0 t (child_prop c0 :: stack) ->
  c0 ∈ certs t0 -> needs c0 = true ->
  has_parent esc now t (Some (c_issuer c0)) (fetched (c_aki c0)) = false ->
  let t1 := upd_flags CertTab (c_id c0) (mark (c_flags c0)) t in
  (forall x, x ∈ new <-> exists c, c ∈ certs t1 /\ child_where (child_prop c0) false c = true /\ x = child_prop c) ->
  work t0 (inv_objs esc now (child_prop c0) t1) (new ++ stack).
Proof.
  intros Hss Hids Hpl Hk0 [W Hst Hce Hob Hke] Hc0 Hn Hp t1 Hnew.
  assert (W1 : weaker t t1) by (by apply (weaker_mark t0)).
  assert (W01 : weaker t0 t1) by (by eapply weaker_trans).
  assert (Hpl1 : plain esc t1) by (by apply (weaker_plain esc t0)).
  pose proof (lose_mark t0 t c0 W Hids Hc0) as Hlose. fold t1 in Hlose.
  split.
  - eapply weaker_trans; [exact W01|]. apply weaker_inv_objs.
  - intros x [Hx|Hx]%elem_of_app; [|by apply Hst; right].
    apply Hnew in Hx as (c & Hc & Hw & ->). exists c.
    destruct (child_pushed t0 t1 _ c W01 Hc Hw) as (? & ? & _). done.
  - intros c Hc Hl Hnc. change (certs (inv_objs _ _ _ t1)) with (certs t1) in Hc.
    destruct (marked_from certF _ _ _ (wk_certs _ _ W1) Hc) as (c' & Hc' & Hm).
    assert (c = c') as -> by exact (marked_live certF _ _ Hm Hl).
    destruct (Hce c' Hc' Hl Hnc) as [Hs|[Hd|Hs]%elem_of_cons].
    + destruct (lose_cert esc _ t t1 Hlose c' Hpl1 Hc Hl Hnc Hs) as [?|Hw]; [by left|right].
      apply elem_of_app. left. apply Hnew. eauto.
    + exfalso. injection Hd as _ _ _ E _ _ _ _. apply list_elem_of_fmap in Hc as (y & Ey & Hy).
      destruct (c_id y =? c_id c0) eqn:Ec.
      * rewrite Ey in Hl. by apply marked_dead in Hl.
      * apply Z.eqb_neq in Ec. congruence.
    + right. apply elem_of_app. by right.
  - by apply (lose_objs esc now _ t t1).
  - apply kept_inv_objs, kept_mark; try done.
Qed.

(** *** Termination: marking takes a live certificate away; a round for a
    certificate that is marked already takes a stale entry off the stack and
    pushes live ones; any other round shortens the stack. *)

Definition live_count (l : list cert_row) : nat :=
  length (List.filter (fun c => negb (nochain (c_flags c))) l).
Definition stale (t : tables) (d : PropData) : bool :=
  existsb (fun c => (c_id c =? pd_id d) && nochain (c_flags c)) (certs t).
Definition stale_count (t : tables) (stack : list PropData) : nat :=
  length (List.filter (stale t) stack).

Lemma marked_nochain c c' : marked certF c c' -> nochain (c_flags c) = true -> c' = c.
Proof.
  intros [->| ->] H; [done|]. cbn. replace (mark (c_flags c)) with (c_flags c); [by destruct c|].
  apply Z.bits_inj. intros k. rewrite testbit_mark. destruct (Z.eqb_spec k 3) as [->|_]; [|by rewrite orb_false_r].
  rewrite orb_true_r. exact H.
Qed.

Lemma marked_count l l' : Forall2 (marked certF) l l' ->
  (l' = l \/ live_count l' < live_count l)%nat /\ (live_count l' <= live_count l)%nat.
Proof.
  unfold live_count. induction 1 as [|c c' l l' Hm _ [IH IHle]]; [split; [by left|done]|]. simpl.
  destruct (nochain (c_flags c)) eqn:E.
  - rewrite (marked_nochain _ _ Hm E), E. simpl. destruct IH as [->|IH]; split; auto.
  - destruct Hm as [->| ->].
    + rewrite E. simpl. destruct IH as [->|IH]; (split; [|lia]); [by left|right; lia].
    + cbn [certF ft_setf ft_flags set_c_flags c_flags]. rewrite nochain_mark. simpl. split; [right|]; lia.
Qed.

Lemma live_not_stale t c : ids_ok t -> c ∈ certs t -> nochain (c_flags c) = false -> stale t (child_prop c) = false.
Proof.
  intros Hids Hc Hl. apply not_true_iff_false. intros (x & Hx & [E%Z.eqb_eq Hn]%andb_true_iff)%existsb_exists.
  assert (x = c) as -> by (apply (same_id certF (certs t)); [apply Hids|by apply list_elem_of_In|done|done]).
  congruence.
Qed.

Lemma filter_all_false {A} (p : A -> bool) l : (forall x, x ∈ l -> p x = false) -> List.filter p l = [].
Proof.
  induction l as [|x l IH]; intros H; [done|]. simpl. rewrite (H x) by left. apply IH. intros y Hy. apply H. by right.
Qed.

(** Either a live certificate is gone, or a stale entry. *)
Lemma measure_step t0 t c0 new stack : weaker t0 t -> ids_ok t0 -> c0 ∈ certs t0 ->
  let t1 := upd_flags CertTab (c_id c0) (mark (c_flags c0)) t in
  (forall x, x ∈ new <-> exists c, c ∈ certs t1 /\ child_where (child_prop c0) false c = true /\ x = child_prop c) ->
  (live_count (certs t1) < live_count (certs t))%nat \/
  (certs t1 = certs t /\ (stale_count t (new ++ stack) < stale_count t (child_prop c0 :: stack))%nat).
Proof.
  intros W Hids Hc0 t1 Hnew. assert (W1 : weaker t t1) by (by apply (weaker_mark t0)).
  assert (W01 : weaker t0 t1) by (by eapply weaker_trans).
  destruct (marked_count _ _ (wk_certs _ _ W1)) as [[E|?] _]; [right|by left]. split; [done|].
  unfold stale_count. rewrite List.filter_app, (filter_all_false _ new).
  - simpl. assert (stale t (child_prop c0) = true) as ->; [|simpl; lia].
    destruct (marked_to certF _ _ c0 (wk_certs _ _ W) Hc0) as (r & Hr & Hm).
    apply existsb_exists. rewrite <- E. exists (set_c_flags (mark (c_flags c0)) r).
    assert (c_id r = c_id c0) as Eid by (by destruct Hm as [->| ->]). split.
    + apply list_elem_of_In, list_elem_of_fmap. exists r. by rewrite Eid, Z.eqb_refl.
    + cbn [set_c_flags c_id c_flags child_prop pd_id]. by rewrite Eid, Z.eqb_refl, nochain_mark.
  - intros x Hx. apply Hnew in Hx as (c & Hc & Hw & ->).
    destruct (child_pushed t0 t1 _ c W01 Hc Hw) as (_ & _ & Hl). rewrite E in Hc.
    apply live_not_stale; [by apply (weaker_ids t0)|done|done].
Qed.

Lemma stale_count_certs t t' stack : certs t = certs t' -> stale_count t stack = stale_count t' stack.
Proof. unfold stale_count, stale. by intros ->. Qed.

(** A round that finds a parent drops its entry. *)
Lemma work_pop t0 t c0 stack : work t0 t (child_prop c0 :: stack) ->
  has_parent esc now t (Some (c_issuer c0)) (fetched (c_aki c0)) = true -> work t0 t stack.
Proof.
  intros [W Hst Hce Hob Hke] Hp. split; [done| | |done|done].
  - intros x Hx. apply Hst. by right.
  - intros c Hc Hl Hnc. destruct (Hce c Hc Hl Hnc) as [?|[E|?]%elem_of_cons]; [by left| |by right].
    left. injection E as _ _ _ _ _ _ E1 E2. rewrite E1, E2. by apply has_parent_supported with now.
Qed.

Lemma loop_ends t0 : self_supporting -> ids_ok t0 -> plain esc t0 -> (forall c, keep c -> c ∈ certs t0) ->
  forall a b n s stack, live_count (certs (tabs s)) = a -> stale_count (tabs s) stack = b -> length stack = n ->
  work t0 (tabs s) stack ->
  ends (fun f => prop_loop sql_ok in_order (invalidateChildCert sql_ok clock in_order esc) false f false stack) s
    (fun v t => v = 0 /\ work t0 t []).
Proof.
  intros Hss Hids Hpl Hk0.
  induction a as [a IHa] using lt_wf_ind. induction b as [b IHb] using lt_wf_ind.
  induction n as [n IHn] using lt_wf_ind. intros s [|d stack] Ha Hb Hn Hw.
  { exists 0%nat, s, 0. split; [|done]. by intros [|k] _. }
  destruct (w_stack _ _ _ Hw d ltac:(by left)) as (c0 & Hc0 & Hneed & ->).
  pose proof (runs_prop_step sql_ok clock in_order esc now Hsql Hclock Horder (child_prop c0) s
    (weaker_ids _ _ (w_weak _ _ _ Hw) Hids)) as HR.
  cbn [child_prop pd_issuer pd_aki pd_id pd_flags] in HR. cbn [length] in Hn.
  eapply ends_loop; [exact HR|]. clear HR.
  destruct (has_parent esc now (tabs s) _ _) eqn:Hp; cbn [app]; intros s1 Hs1.
  - apply work_pop in Hw; [|done].
    assert (Hle : (stale_count (tabs s) stack <= b)%nat).
    { rewrite <- Hb. unfold stale_count. simpl. destruct (stale _ _); simpl; lia. }
    destruct (Nat.eq_dec (stale_count (tabs s) stack) b) as [Eb|Eb].
    + by eapply (IHn (length stack)); rewrite ?Hs1; [lia|..].
    + by eapply (IHb (stale_count (tabs s) stack)); rewrite ?Hs1; [lia|..].
  - set (t1 := upd_flags CertTab (c_id c0) (mark (c_flags c0)) (tabs s)) in *.
    pose proof (children_in in_order Horder (child_prop c0) (inv_objs esc now (child_prop c0) t1)) as Hnew.
    set (new := children in_order (child_prop c0) _) in *.
    assert (Hw' : work t0 (tabs s1) (new ++ stack)) by (rewrite Hs1; by apply work_step).
    assert (Ec : certs (tabs s1) = certs t1) by (by rewrite Hs1).
    destruct (measure_step t0 (tabs s) c0 new stack (w_weak _ _ _ Hw) Hids Hc0 Hnew) as [Hlt|[Ec' Hlt]];
      [fold t1 in Hlt|fold t1 in Ec'].
    + eapply (IHa (live_count (certs t1))); [lia|by rewrite Ec|reflexivity|reflexivity|done].
    + rewrite <- (stale_count_certs (tabs s1)) in Hlt by congruence.
      eapply (IHb (stale_count (tabs s1) (new ++ stack))); [lia|by rewrite Ec, Ec'|reflexivity|reflexivity|done].
Qed.
End work.
