(* ===== verification/RpkiDbRevoke.v ===== *)
(** * Revocation and expiry

    [revoke_cert_and_children], [certificate_validity] and [iterate_crl] keep
    [chain_inv], by the worklist of [RpkiDbChain]. *)

From stdpp Require Import strings.
From S2P Require Import Prelude Sql RpkiObject RpkiDb RpkiDbFacts RpkiDbChain.

Local Open Scope est_scope.

(** ** Relabelled certificates: flags in [K] change *)

Definition same_chain (K : Z -> bool) (c c' : cert_row) : Prop :=
  exists f, c' = set_c_flags f c /\ forall k, K k = false -> Z.testbit f k = Z.testbit (c_flags c) k.

(** The bits of the paracertificate flags, and of NOTYET. *)
Definition para_bit (k : Z) : bool := (k =? 10) || (k =? 11).
Definition notyet_bit (k : Z) : bool := k =? 4.

Record relabel (K : Z -> bool) (t t' : tables) : Prop := {
  rl_certs : Forall2 (same_chain K) (certs t) (certs t');
  rl_rest : t' = set_certs (certs t') t }.

Lemma set_c_flags_id c : set_c_flags (c_flags c) c = c.
Proof. by destruct c. Qed.

Section relabel.
Context (K : Z -> bool) (K2 : K 2 = false) (K3 : K 3 = false).

Lemma same_chain_refl c : same_chain K c c.
Proof. exists (c_flags c). by rewrite set_c_flags_id. Qed.

Lemma same_chain_fields c c' : same_chain K c c' ->
  c_id c' = c_id c /\ c_ski c' = c_ski c /\ c_subject c' = c_subject c /\ c_issuer c' = c_issuer c /\
  c_aki c' = c_aki c /\ validated (c_flags c') = validated (c_flags c) /\ nochain (c_flags c') = nochain (c_flags c).
Proof. intros (f & -> & Hf). repeat split; by apply Hf. Qed.

Lemma relabel_refl t : relabel K t t.
Proof. split; [|by destruct t]. induction (certs t); constructor; [apply same_chain_refl|done]. Qed.

Lemma relabel_trans t1 t2 t3 : relabel K t1 t2 -> relabel K t2 t3 -> relabel K t1 t3.
Proof.
  intros [A1 B1] [A2 B2]. split.
  - clear B1 B2. revert A2. generalize (certs t3). induction A1 as [|x y l k Hxy _ IH]; intros l3 H3;
      inversion H3 as [|? z ? ? Hyz]; subst; constructor; [|by apply IH].
    destruct Hxy as (f & -> & Hf), Hyz as (g & -> & Hg). exists g. cbn [set_c_flags c_flags] in Hg.
    split; [done|]. intros i Hi. by rewrite Hg, Hf.
  - rewrite B2, B1. by destruct t1.
Qed.

Context (esc : string -> string) (t t' : tables) (R : relabel K t t').

Lemma relabel_in c' : c' ∈ certs t' -> exists c, c ∈ certs t /\ same_chain K c c'.
Proof.
  intros (i & Hi)%list_elem_of_lookup. destruct (Forall2_lookup_r _ _ _ _ _ (rl_certs _ _ _ R) Hi) as (c & Hc & H).
  exists c. split; [by eapply list_elem_of_lookup_2|done].
Qed.

Lemma relabel_supported IS AK : supported esc t IS AK -> supported esc t' IS AK.
Proof.
  intros (p & Hp & Ho). apply list_elem_of_lookup in Hp as (i & Hi).
  destruct (Forall2_lookup_l _ _ _ _ _ (rl_certs _ _ _ R) Hi) as (p' & Hp' & H).
  exists p'. split; [by eapply list_elem_of_lookup_2|].
  apply same_chain_fields in H as (_ & Es & Eu & _ & _ & Ev & En).
  unfold parent_ok in *. by rewrite Es, Eu, Ev, En.
Qed.

Lemma relabel_chain : chain_inv esc t -> chain_inv esc t'.
Proof.
  intros [Hc [Hl Hr Hm Hg]]. pose proof (rl_rest _ _ _ R) as E. split.
  - intros c' Hc' Hn Hneed. destruct (relabel_in c' Hc') as (c & Hin & Hs).
    apply same_chain_fields in Hs as (_ & Es & _ & Ei & Ea & _ & En).
    rewrite Ei, Ea. apply relabel_supported, Hc; [done|by rewrite <- En|]. unfold needs in *. by rewrite <- Ea, <- Es.
  - split; rewrite E; cbn; intros; apply relabel_supported; eauto.
Qed.

Lemma relabel_idlist : c_id <$> certs t' = c_id <$> certs t.
Proof.
  induction (rl_certs _ _ _ R) as [|c c' l l' H _ IH]; [done|]. cbn. f_equal; [|done].
  by apply same_chain_fields in H as [? _].
Qed.

Lemma relabel_ids : ids_ok t -> ids_ok t'.
Proof.
  intros [A B C D E]. pose proof (rl_rest _ _ _ R) as Ert. split; [by rewrite relabel_idlist|..]; by rewrite Ert.
Qed.

Lemma relabel_plain : plain esc t -> plain esc t'.
Proof.
  intros [A B]. pose proof (rl_rest _ _ _ R) as E. split; [|by rewrite E].
  intros c' Hc. destruct (relabel_in c' Hc) as (c & Hin & Hs).
  apply same_chain_fields in Hs as (_ & _ & _ & -> & _). by apply A.
Qed.
End relabel.

(** ** Tables that only lose: certificates go, flags are marked *)

Definition le_row (c c' : cert_row) : Prop :=
  exists f, c' = set_c_flags f c /\
    (forall k, k <> 3 -> para_bit k = false -> Z.testbit f k = Z.testbit (c_flags c) k) /\
    (nochain (c_flags c) = true -> nochain f = true).

Record less (t t' : tables) : Prop := {
  le_certs : forall c', c' ∈ certs t' -> exists c, c ∈ certs t /\ le_row c c';
  le_crls : Forall2 (marked crlF) (crls t) (crls t');
  le_roas : Forall2 (marked roaF) (roas t) (roas t');
  le_mfts : Forall2 (marked mftF) (mfts t) (mfts t');
  le_gbrs : Forall2 (marked gbrF) (gbrs t) (gbrs t');
  le_prefixes : roa_prefixes t' = roa_prefixes t }.

Lemma le_row_trans a b c : le_row a b -> le_row b c -> le_row a c.
Proof. 
  intros (f & -> & Hf & ?) (g & -> & Hg & Hg'). exists g. cbn [set_c_flags c_flags] in Hg, Hg'.
  split; [done|]. split; [|by auto]. intros k H3 Hk. by rewrite Hg, Hf.
Qed.

Lemma less_refl t : less t t.
Proof.
  split; try apply marked_refl; [|done]. intros c Hc. exists c. split; [done|]. exists (c_flags c).
  by rewrite set_c_flags_id.
Qed.

Lemma less_trans t1 t2 t3 : less t1 t2 -> less t2 t3 -> less t1 t3.
Proof.
  intros [A1 B1 C1 D1 E1 F1] [A2 B2 C2 D2 E2 F2].
  split; [|by eapply marked_all_trans; eauto with typeclass_instances..|by rewrite F2].
  intros c Hc. destruct (A2 c Hc) as (b & Hb & Hbc), (A1 b Hb) as (a & Ha & Hab). exists a.
  split; [done|by eapply le_row_trans].
Qed.

Lemma weaker_less t t' : weaker t t' -> less t t'.
Proof.
  intros [A B C D E F]. split; try done. intros c' Hc. destruct (marked_from certF _ _ _ A Hc) as (c & Hin & Hm).
  exists c. split; [done|]. destruct Hm as [->| ->].
  - exists (c_flags c). by rewrite set_c_flags_id.
  - exists (mark (c_flags c)). split; [done|]. split; [|by rewrite nochain_mark].
    intros k Hk _. by rewrite testbit_mark, (proj2 (Z.eqb_neq _ _) Hk), orb_false_r.
Qed.

Lemma relabel_less t t' : relabel para_bit t t' -> less t t'.
Proof.
  intros R. pose proof (rl_rest _ _ _ R) as E. split; try (rewrite E; apply marked_refl); [|by rewrite E].
  intros c' Hc. destruct (relabel_in _ _ _ R c' Hc) as (c & Hin & f & -> & Hf). exists c. split; [done|].
  exists f. split; [done|]. split; [by auto|]. unfold nochain. by rewrite Hf.
Qed.

Lemma del_less id t : less t (del_id CertTab id t).
Proof.
  split; try apply marked_refl; [|done]. cbn. intros c Hc.
  apply list_elem_of_In, List.filter_In in Hc as [Hc _]. exists c. split; [by apply list_elem_of_In|].
  exists (c_flags c). by rewrite set_c_flags_id.
Qed.

(** ** Revocation *)

Section revoke.
Context (sql_ok : nat -> bool) (clock : nat -> option Z)
  (in_order : forall A, list A -> list A) (esc : string -> string) (now : Z).
Context (Hsql : forall n, sql_ok n = true) (Hclock : forall n, clock n = Some now)
  (Horder : forall A (l : list A), in_order A l ≡ₚ l).

Notation work := (RpkiDbChain.work esc now).
Notation kept := (RpkiDbChain.kept esc now).
Notation self_supporting := (RpkiDbChain.self_supporting esc now).
Notation revoke := (revoke_cert_and_children sql_ok clock in_order esc).

(** The first round, on tables [t0] that have lost parents of [t]. *)
Lemma root_ends keep ski subject id t s : let t0 := tabs s in
  objs_ok esc t -> ids_ok t0 -> plain esc t0 -> self_supporting keep -> (forall c, keep c -> c ∈ certs t0) ->
  (forall c, c ∈ certs t0 -> nochain (c_flags c) = false -> needs c = true ->
    supported esc t (Some (c_issuer c)) (fetched (c_aki c))) ->
  crls t0 = crls t -> roas t0 = roas t -> mfts t0 = mfts t -> gbrs t0 = gbrs t ->
  (forall IS AK, supported esc t IS AK -> supported esc t0 IS AK \/
    (AK = ski /\ forall n, IS = Some n -> subject = esc n)) ->
  ends (fun f => invalidateChildren sql_ok clock in_order esc f ski subject id) s
    (fun v t' => v = 0 /\ work keep t0 t' []).
Proof.
  intros t0 Hob Hids Hpl Hss Hk Hci Ec Er Em Eg Hlose. set (d := root_prop ski subject id).
  eapply ends_loop; [by apply (runs_prop_root sql_ok clock in_order esc now)|]. fold t0 d. intros s1 Hs1.
  rewrite app_nil_r. eapply loop_ends; eauto. rewrite Hs1. split.
  - apply weaker_inv_objs.
  - intros x (c & Hc & Hw & ->)%children_in; [|done]. exists c.
    destruct (child_pushed t0 t0 d c (weaker_refl t0) Hc Hw) as (? & ? & _). done.
  - intros c Hc Hl Hn. change (certs _) with (certs t0) in Hc.
    destruct (lose_cert esc d t t0 Hlose c Hpl Hc Hl Hn (Hci c Hc Hl Hn)) as [?|Hw]; [by left|right].
    apply children_in; [done|]. eauto.
  - by apply (lose_objs esc now d t t0).
  - apply kept_inv_objs. by split.
Qed.

Lemma work_chain keep t0 t : work keep t0 t [] -> chain_inv esc t.
Proof.
  intros [_ _ Hc Ho _]. split; [|done]. intros c Hin Hl Hn.
  destruct (Hc c Hin Hl Hn) as [?|H]; [done|]. by apply not_elem_of_nil in H.
Qed.

(** The paracertificate's target gets two flags cleared. *)
Definition para_bits : Z := Z.lor SCM_FLAG_HASPARACERT SCM_FLAG_ISTARGET.

Lemma para_same c : same_chain para_bit c (set_c_flags (Z.land (c_flags c) (Z.lnot para_bits)) c).
Proof.
  eexists. split; [reflexivity|]. intros k Hk. rewrite Z.land_spec. destruct (Z.testbit (c_flags c) k) eqn:E; [|done].
  destruct (Z.ltb_spec k 0) as [Hn|Hn]; [by rewrite Z.testbit_neg_r in E|].
  rewrite Z.lnot_spec by done. apply orb_false_iff in Hk as [H1%Z.eqb_neq H2%Z.eqb_neq]. cbn [andb].
  change para_bits with (Z.lor (2 ^ 10) (2 ^ 11)). by rewrite Z.lor_spec, !Z.pow2_bits_false.
Qed.

Lemma relabel_upd K t c f : ids_ok t -> c ∈ certs t -> same_chain K c (set_c_flags f c) ->
  relabel K t (upd_flags CertTab (c_id c) f t).
Proof.
  intros Hids Hc Hs. split; [|by destruct t]. cbn. apply Forall2_map_self. intros x Hx.
  destruct (Z.eqb_spec (c_id x) (c_id c)) as [E|E]; [|apply same_chain_refl].
  by rewrite (same_id certF (certs t) x c (id_certs _ Hids) Hx Hc E).
Qed.

Lemma clear_ends l : forall s, NoDup (c_id <$> l) -> ids_ok (tabs s) -> (forall c, c ∈ l -> c ∈ certs (tabs s)) ->
  ends (fun _ => clear_para_flags sql_ok l) s (fun _ t' => relabel para_bit (tabs s) t').
Proof.
  induction l as [|c l IH]; intros s Hnd Hids Hin; cbn [clear_para_flags].
  { apply ends_ret, relabel_refl. }
  apply NoDup_cons in Hnd as [Hc Hnd]. fold (fmap c_id l) in *.
  set (t1 := if negb (Z.land (c_flags c) para_bits =? 0)
    then upd_flags CertTab (c_id c) (Z.land (c_flags c) (Z.lnot para_bits)) (tabs s) else tabs s).
  assert (R1 : relabel para_bit (tabs s) t1).
  { unfold t1. destruct (negb _); [|apply relabel_refl].
    apply relabel_upd; [done|apply Hin; by left|apply para_same]. }
  apply (ends_bind (fun _ => _) (fun _ _ => _) s (fun _ t => t = t1)).
  { unfold t1. destruct (negb _); [|by apply ends_ret].
    apply (ends_runs _ s tt (upd_flags CertTab (c_id c) (Z.land (c_flags c) (Z.lnot para_bits)) (tabs s)));
      [|reflexivity].
    eapply runs_bind; [by apply runs_no_data|]. intros s' Hs'.
    exists s'. split; [done|exact Hs']. }
  intros _ s1 Hs1. eapply ends_impl; [apply IH; [done|rewrite Hs1; by eapply (relabel_ids para_bit)|]|].
  - intros x Hx. rewrite Hs1. unfold t1. destruct (negb _); [|by apply Hin; right].
    apply list_elem_of_fmap. exists x. split; [|by apply Hin; right].
    destruct (Z.eqb_spec (c_id x) (c_id c)) as [E|E]; [|done]. destruct Hc. rewrite <- E. by apply list_elem_of_fmap_2.
  - cbn. intros _ t' Ht'. rewrite Hs1 in Ht'. by eapply relabel_trans.
Qed.

(** The row [c] and what the table has under its id. *)
Definition matches (c : cert_row) (t : tables) : Prop :=
  forall r, r ∈ certs t -> c_id r = c_id c -> c_ski r = c_ski c /\ c_subject r = c_subject c.

Record good (t : tables) : Prop := {
  g_chain : chain_inv esc t;
  g_ids : ids_ok t;
  g_plain : plain esc t }.

Record revoked (gone : Z -> bool) (t t' : tables) : Prop := {
  rv_good : good t';
  rv_less : less t t';
  rv_ids : c_id <$> certs t' = List.filter (fun i => negb (gone i)) (c_id <$> certs t) }.

Lemma del_sub id t c : c ∈ certs (del_id CertTab id t) <-> c ∈ certs t /\ c_id c <> id.
Proof.
  cbn. rewrite !list_elem_of_In, List.filter_In, negb_true_iff, Z.eqb_neq. done.
Qed.

Lemma filter_ids (p : Z -> bool) l :
  c_id <$> List.filter (fun c => p (c_id c)) l = List.filter p (c_id <$> l).
Proof. induction l as [|c l IH]; [done|]. cbn. destruct (p (c_id c)); cbn; by rewrite <- IH. Qed.

Lemma NoDup_filter_b {A} (p : A -> bool) l : NoDup l -> NoDup (List.filter p l).
Proof.
  induction 1 as [|x l Hx _ IH]; [constructor|]. cbn. destruct (p x); [|done]. constructor; [|done].
  rewrite list_elem_of_In, List.filter_In, <- list_elem_of_In. tauto.
Qed.

Lemma del_ids id t : ids_ok t -> ids_ok (del_id CertTab id t).
Proof.
  intros [A B C D E]. split; try done. cbn. rewrite (filter_ids (fun i => negb (i =? id))). by apply NoDup_filter_b.
Qed.
Lemma del_plain id t : plain esc t -> plain esc (del_id CertTab id t).
Proof. intros [A B]. split; [|done]. intros c [Hc _]%del_sub. by apply A. Qed.

(** Deleting [c] only takes away what is below it. *)
Lemma lose_del c t : matches c t -> forall IS AK, supported esc t IS AK ->
  supported esc (del_id CertTab (c_id c) t) IS AK \/
  (AK = c_ski c /\ forall n, IS = Some n -> fetched (c_subject c) = esc n).
Proof.
  intros Hm IS AK (p & Hp & Ho). destruct (Z.eq_dec (c_id p) (c_id c)) as [E|E].
  - right. destruct (Hm p Hp E) as [Es Eu]. unfold parent_ok in Ho. rewrite Es, Eu, !andb_true_iff in Ho.
    destruct Ho as [[[H1 H2] _] _]. apply String.eqb_eq in H1. split; [by symmetry|]. intros n ->.
    destruct (c_subject c); [|done]. by apply String.eqb_eq in H2.
  - left. exists p. split; [by apply del_sub|done].
Qed.

Lemma revoke_para_ends c s : ids_ok (tabs s) ->
  ends (fun _ => if negb (Z.land (c_flags c) SCM_FLAG_ISPARACERT =? 0) then
       let* l := find_cert_by_aKI sql_ok in_order (Some (c_ski c)) None in clear_para_flags sql_ok l
     else est_ret tt) s (fun _ t' => relabel para_bit (tabs s) t').
Proof.
  intros Hids. destruct (negb _); [|apply ends_ret, relabel_refl].
  set (l := in_order _ (List.filter (find_cert_where (Some (c_ski c)) None) (certs (tabs s)))).
  apply (ends_bind (fun _ => _) (fun _ _ => _) s (fun l' t => l' = l /\ t = tabs s)).
  - eapply (ends_runs _ s l (tabs s)); [|done]. eexists.
    split; [cbn; unfold est_bind, est_modify; cbn; rewrite Hsql; reflexivity|done].
  - intros ? s1 [-> Hs1]. rewrite <- Hs1. apply clear_ends; rewrite ?Hs1; [|done|].
    + unfold l. rewrite Horder. pose proof (id_certs _ Hids) as Hnd.
      clear -Hnd. induction (certs (tabs s)) as [|x k IH]; [constructor|]. apply NoDup_cons in Hnd as [Hx Hnd].
      cbn. destruct (find_cert_where _ _ x); [|by apply IH]. apply NoDup_cons. split; [|by apply IH].
      intros (y & E & Hy)%list_elem_of_fmap. apply Hx. rewrite E. apply list_elem_of_fmap_2.
      apply list_elem_of_In, List.filter_In in Hy as [Hy _]. by apply list_elem_of_In.
    + intros x Hx. unfold l in Hx. rewrite Horder in Hx. apply list_elem_of_In, List.filter_In in Hx as [Hx _].
      by apply list_elem_of_In.
Qed.

Lemma revoke_ends c s : good (tabs s) -> matches c (tabs s) ->
  ends (fun n => revoke n c) s (fun v t' => v = 0 /\ revoked (fun i => i =? c_id c) (tabs s) t').
Proof.
  intros [[Hci Hob] Hids Hpl] Hm. set (t := tabs s) in *. set (t1 := del_id CertTab (c_id c) t).
  apply (ends_bind (fun _ => _) _ s (fun v t' => v = 0 /\ t' = t1)).
  { eapply ends_runs; [by apply runs_no_data|done]. }
  intros ? s1 [-> Hs1]. cbn [Z.ltb Z.compare].
  assert (Hids1 : ids_ok (tabs s1)) by (rewrite Hs1; by apply del_ids).
  eapply ends_bind; [by apply revoke_para_ends|]. cbn. intros _ s2 HR. rewrite Hs1 in HR.
  pose proof (rl_rest _ _ _ HR) as Er.
  eapply ends_impl.
  - apply (root_ends (fun _ => False) _ _ _ t s2); try done; try (rewrite Er; done).
    + rewrite <- Hs1 in HR. by apply (relabel_ids para_bit eq_refl eq_refl _ _ HR).
    + apply (relabel_plain para_bit eq_refl eq_refl esc _ _ HR). by apply del_plain.
    + by intros ? [].
    + intros x Hx Hl Hn. destruct (relabel_in para_bit _ _ HR x Hx) as (y & Hy & Hs).
      apply (same_chain_fields para_bit eq_refl eq_refl) in Hs as (_ & Es & _ & Ei & Ea & _ & En).
      rewrite Ei, Ea. apply Hci; [by apply del_sub in Hy as [? _]|congruence|]. unfold needs in *. by rewrite <- Ea, <- Es.
    + intros IS AK Hsup. destruct (lose_del c t Hm IS AK Hsup) as [?|?]; [left|by right].
      by apply (relabel_supported para_bit eq_refl eq_refl esc _ _ HR).
  - cbn. intros v t' [-> Hw]. split; [done|].
    pose proof (w_weak _ _ _ _ _ _ Hw) as W. split; [split| |].
    + by eapply work_chain.
    + eapply weaker_ids; [exact W|]. rewrite <- Hs1 in HR. by apply (relabel_ids para_bit eq_refl eq_refl _ _ HR).
    + eapply weaker_plain; [exact W|]. apply (relabel_plain para_bit eq_refl eq_refl esc _ _ HR). by apply del_plain.
    + eapply less_trans; [apply del_less|]. eapply less_trans; [by apply relabel_less|by apply weaker_less].
    + pose proof (marked_ids certF _ _ (wk_certs _ _ W)) as E. cbn [certF ft_id] in E. rewrite E.
      rewrite (relabel_idlist para_bit eq_refl eq_refl _ _ HR). apply (filter_ids (fun i => negb (i =? c_id c))).
Qed.

(** ** Revocation one after the other *)

Lemma le_row_fields c c' : le_row c c' -> c_id c' = c_id c /\ c_ski c' = c_ski c /\ c_subject c' = c_subject c.
Proof. by intros (f & -> & _). Qed.

Lemma less_matches c t t' : less t t' -> matches c t -> matches c t'.
Proof.
  intros L Hm r' Hr E. destruct (le_certs _ _ L r' Hr) as (r & Hr0 & Hle).
  apply le_row_fields in Hle as (Ei & -> & ->). apply Hm; [done|congruence].
Qed.

Lemma filter_filter_b {A} (p q : A -> bool) l : List.filter p (List.filter q l) = List.filter (fun x => q x && p x) l.
Proof. induction l as [|x l IH]; [done|]. cbn. destruct (q x); cbn; [destruct (p x)|]; by rewrite <- IH. Qed.

Lemma revoked_trans p q t1 t2 t3 : revoked p t1 t2 -> revoked q t2 t3 -> revoked (fun i => p i || q i) t1 t3.
Proof.
  intros [_ L1 I1] [G L2 I2]. split; [done|by eapply less_trans|]. rewrite I2, I1, filter_filter_b.
  apply List.filter_ext. intros i. by rewrite negb_orb.
Qed.

Lemma revoked_refl p t : good t -> (forall i, p i = false) -> revoked p t t.
Proof.
  intros G Hp. split; [done|apply less_refl|]. rewrite (List.filter_ext _ (fun _ => true)).
  - generalize (c_id <$> certs t). induction l as [|x l IH]; [done|]. cbn. by rewrite <- IH.
  - intros i. by rewrite Hp.
Qed.

Lemma revoke_all_ends rows : forall s, good (tabs s) -> (forall c, c ∈ rows -> matches c (tabs s)) ->
  ends (fun n => callbacks (revoke n) rows 0) s
    (fun v t' => v = 0 /\ revoked (fun i => existsb (fun c => i =? c_id c) rows) (tabs s) t').
Proof.
  induction rows as [|c rows IH]; intros s G Hm; cbn [callbacks].
  { apply ends_ret. split; [done|]. by apply revoked_refl. }
  eapply ends_bind; [apply revoke_ends; [done|apply Hm; by left]|]. cbn. intros ? s1 [-> R1].
  eapply ends_impl; [apply IH; [apply R1|]|].
  - intros x Hx. eapply less_matches; [apply R1|]. apply Hm. by right.
  - cbn. intros v t' [-> R2]. split; [done|]. by eapply revoked_trans.
Qed.
End revoke.
