(* ===== verification/RpkiDbThm.v ===== *)
(** * Revocation and expiry: theorems

    What [revoke_cert_and_children], [certificate_validity] and [iterate_crl]
    do to the tables when no statement fails. *)

From stdpp Require Import strings.
From S2P Require Import Prelude Sql RpkiObject RpkiDb RpkiDbFacts RpkiDbChain RpkiDbRevoke.

Local Open Scope est_scope.

Section thm.
Context (sql_ok : nat -> bool) (clock : nat -> option Z)
  (in_order : forall A, list A -> list A) (esc : string -> string) (now : Z).
Context (Hsql : forall n, sql_ok n = true) (Hclock : forall n, clock n = Some now)
  (Horder : forall A (l : list A), in_order A l ≡ₚ l).

(** ** Searches *)

Lemma ends_search {A} (table : tables -> list A) where_ (cb : nat -> A -> M Z) s (P : Z -> tables -> Prop)
    (Q : Z -> tables -> Prop) :
  (forall s1, tabs s1 = tabs s ->
     ends (fun n => callbacks (cb n) (in_order _ (List.filter where_ (table (tabs s)))) 0) s1 P) ->
  (forall v t b, P v t -> Q (if v <? 0 then v else if b : bool then ERR_SCM_NODATA else 0) t) ->
  ends (fun n => searchscm sql_ok in_order table where_ (cb n)) s Q.
Proof.
  intros H HQ. eapply (ends_bind (fun _ => _) _ s (fun v t => v = true /\ t = tabs s)).
  { eapply ends_runs; [by apply runs_statement|done]. }
  intros ? s1 [-> H1]. cbn [negb].
  eapply (ends_bind (fun _ => _) _ s1 (fun v t => v = tabs s /\ t = tabs s)).
  { by exists 0%nat, s1, (tabs s1). }
  intros ? s2 [-> H2]. eapply ends_bind; [by apply H|]. intros v s3 HP. apply ends_ret, HQ, HP.
Qed.

Lemma search_in {A} where_ (l : list A) x : x ∈ in_order _ (List.filter where_ l) <-> x ∈ l /\ where_ x = true.
Proof. by rewrite Horder, !list_elem_of_In, List.filter_In. Qed.

Lemma row_matches c t : ids_ok t -> c ∈ certs t -> matches c t.
Proof. intros Hids Hc r Hr E. by rewrite (same_id certF (certs t) r c (id_certs _ Hids) Hr Hc E). Qed.

Definition found (where_ : cert_row -> bool) (t : tables) (i : Z) : bool :=
  existsb (fun c => i =? c_id c) (in_order _ (List.filter where_ (certs t))).

Lemma found_spec where_ t c : ids_ok t -> c ∈ certs t -> found where_ t (c_id c) = where_ c.
Proof.
  intros Hids Hc. apply eq_true_iff_eq. unfold found. rewrite existsb_exists. split.
  - intros (x & Hx & E%Z.eqb_eq). apply list_elem_of_In, search_in in Hx as [Hx Hw].
    by rewrite (same_id certF (certs t) c x (id_certs _ Hids) Hc Hx E).
  - intros Hw. exists c. rewrite Z.eqb_refl. split; [|done]. by apply list_elem_of_In, search_in.
Qed.

(** Every certificate that a search finds is revoked. *)
Lemma search_revoke where_ s : good esc (tabs s) ->
  ends (fun n => searchscm sql_ok in_order certs where_ (revoke_cert_and_children sql_ok clock in_order esc n)) s
    (fun v t' => (v = 0 \/ v = ERR_SCM_NODATA) /\ revoked esc (found where_ (tabs s)) (tabs s) t').
Proof.
  intros G. apply (ends_search _ _ _ s (fun v t' => v = 0 /\ revoked esc (found where_ (tabs s)) (tabs s) t')).
  - intros s1 H1. rewrite <- H1 in G |- *. apply (revoke_all_ends sql_ok clock in_order esc now); [done..|].
    intros c Hc. apply search_in in Hc as [Hc _]. apply row_matches; [apply G|done].
  - intros v t b [-> R]. split; [destruct b; by auto|done].
Qed.

Lemma revoked_in where_ t t' c' : ids_ok t -> revoked esc (found where_ t) t t' -> c' ∈ certs t' ->
  exists c, c ∈ certs t /\ le_row c c' /\ where_ c = false.
Proof.
  intros Hids [_ L I] Hc. destruct (le_certs _ _ L c' Hc) as (c & Hin & Hle). exists c. split; [done|]. split; [done|].
  apply (list_elem_of_fmap_2 c_id) in Hc. rewrite I, list_elem_of_In, List.filter_In in Hc. destruct Hc as [_ Hc].
  destruct (le_row_fields c c' Hle) as (E & _ & _). rewrite E, found_spec in Hc by done. by apply negb_true_iff.
Qed.

Lemma revoked_ids where_ t t' c : ids_ok t -> revoked esc (found where_ t) t t' -> c ∈ certs t ->
  c_id c ∈ c_id <$> certs t' <-> where_ c = false.
Proof.
  intros Hids [_ L I] Hc. rewrite I, list_elem_of_In, List.filter_In, found_spec, negb_true_iff, <- list_elem_of_In by done.
  split; [by intros [_ ?]|]. intros H. split; [|done]. by apply list_elem_of_fmap_2.
Qed.

(** ** Expiry *)

Lemma not_yet_clear f k : k <> 4 -> Z.testbit (Z.land f (Z.lnot SCM_FLAG_NOTYET)) k = Z.testbit f k.
Proof.
  intros Hk. rewrite Z.land_spec. destruct (Z.testbit f k) eqn:E; [|done].
  destruct (Z.ltb_spec k 0) as [Hn|Hn]; [by rewrite Z.testbit_neg_r in E|].
  rewrite Z.lnot_spec by done. change SCM_FLAG_NOTYET with (2 ^ 4). by rewrite Z.pow2_bits_false.
Qed.
Lemma not_yet_set f k : k <> 4 -> Z.testbit (Z.lor f SCM_FLAG_NOTYET) k = Z.testbit f k.
Proof.
  intros Hk. rewrite Z.lor_spec. change SCM_FLAG_NOTYET with (2 ^ 4). by rewrite Z.pow2_bits_false, orb_false_r.
Qed.
Lemma land_bit f k : 0 <= k -> (Z.land f (2 ^ k) =? 0) = negb (Z.testbit f k).
Proof.
  intros Hk. destruct (Z.testbit f k) eqn:E; cbn [negb].
  - apply Z.eqb_neq. intros H. assert (Z.testbit (Z.land f (2 ^ k)) k = false) as E' by (by rewrite H, Z.bits_0).
    by rewrite Z.land_spec, E, Z.pow2_bits_true in E'.
  - apply Z.eqb_eq, Z.bits_inj. intros j. rewrite Z.land_spec, Z.bits_0.
    destruct (Z.eq_dec j k) as [->|Hj]; [by rewrite E|]. by rewrite Z.pow2_bits_false, andb_false_r by done.
Qed.

(** The first two searches: the NOTYET flags are brought up to date. *)
Definition in_time (c : cert_row) : bool := (c_from c <=? now) && (now <=? c_to c).
Definition maybeok_row (c : cert_row) : cert_row :=
  if in_time c && negb (Z.land (c_flags c) SCM_FLAG_NOTYET =? 0)
  then set_c_flags (Z.land (c_flags c) (Z.lnot SCM_FLAG_NOTYET)) c else c.
Definition toonew_row (c : cert_row) : cert_row :=
  if (now <? c_from c) && negb false then set_c_flags (Z.lor (c_flags c) SCM_FLAG_NOTYET) c else c.
Definition not_yet_row (c : cert_row) : cert_row := toonew_row (maybeok_row c).

Lemma not_yet_same c : same_chain notyet_bit c (not_yet_row c).
Proof.
  unfold not_yet_row, toonew_row.
  assert (E : same_chain notyet_bit c (maybeok_row c)).
  { unfold maybeok_row. destruct (_ && _); [|apply same_chain_refl]. eexists. split; [reflexivity|].
    intros k Hk%Z.eqb_neq. by apply not_yet_clear. }
  destruct (_ && _); [|done]. destruct E as (f & -> & Hf). exists (Z.lor f SCM_FLAG_NOTYET).
  split; [done|]. intros k Hk. rewrite <- Hf by done. apply not_yet_set. by apply Z.eqb_neq.
Qed.

Lemma not_yet_flag c : now <= c_to c -> Z.testbit (c_flags (not_yet_row c)) 4 = (now <? c_from c).
Proof.
  intros Hto. unfold not_yet_row, toonew_row, maybeok_row, in_time.
  rewrite (proj2 (Z.leb_le now (c_to c)) Hto), !andb_true_r.
  destruct (Z.ltb_spec now (c_from c)) as [Hf|Hf].
  - rewrite (proj2 (Z.leb_gt _ _)) by lia. cbn [andb]. rewrite (proj2 (Z.ltb_lt _ _) Hf). cbn [c_flags set_c_flags].
    rewrite Z.lor_spec. apply orb_true_r.
  - rewrite (proj2 (Z.leb_le _ _) Hf). cbn [andb]. change SCM_FLAG_NOTYET with (2 ^ 4).
    rewrite land_bit, negb_involutive by lia.
    destruct (Z.testbit (c_flags c) 4) eqn:E; cbn [set_c_flags c_from]; rewrite (proj2 (Z.ltb_ge _ _) Hf); [|done].
    + cbn [c_flags set_c_flags]. by rewrite Z.land_spec, andb_false_r.
Qed.

Lemma maybeok_ends s : ids_ok (tabs s) ->
  ends (fun _ => searchscm sql_ok in_order certs in_time (certmaybeok sql_ok)) s
    (fun v t' => (v = 0 \/ v = ERR_SCM_NODATA) /\ t' = set_certs (map maybeok_row (certs (tabs s))) (tabs s)).
Proof.
  intros Hids.
  destruct (search_flags sql_ok in_order Hsql Horder certF (fun c => Z.land (c_flags c) SCM_FLAG_NOTYET =? 0)
    (fun c => Z.land (c_flags c) (Z.lnot SCM_FLAG_NOTYET)) (certmaybeok sql_ok) (fun _ => True)) with (where_ := in_time) (s := s)
    as (v & Hv & Hor).
  - intros r s' _. unfold certmaybeok. destruct (_ =? 0); [apply runs_ret|by apply runs_no_data].
  - done.
  - apply Hids.
  - done.
  - by eapply ends_runs.
Qed.

Lemma toonew_ends s : ids_ok (tabs s) ->
  ends (fun _ => searchscm sql_ok in_order certs (fun c => now <? c_from c) (certtoonew sql_ok)) s
    (fun v t' => (v = 0 \/ v = ERR_SCM_NODATA) /\ t' = set_certs (map toonew_row (certs (tabs s))) (tabs s)).
Proof.
  intros Hids.
  destruct (search_flags sql_ok in_order Hsql Horder certF (fun c => false)
    (fun c => Z.lor (c_flags c) SCM_FLAG_NOTYET) (certtoonew sql_ok) (fun _ => True))
    with (where_ := fun c => now <? c_from c) (s := s) as (v & Hv & Hor).
  - intros r s' _. by apply runs_no_data.
  - done.
  - apply Hids.
  - done.
  - by eapply ends_runs.
Qed.

Lemma relabel_map K f t : (forall c, same_chain K c (f c)) -> relabel K t (set_certs (map f (certs t)) t).
Proof. intros H. split; [|done]. apply Forall2_map_self. by intros c _. Qed.

Lemma good_relabel K t t' : K 2 = false -> K 3 = false -> relabel K t t' -> good esc t -> good esc t'.
Proof.
  intros K2 K3 R [A B C]. split; [by apply (relabel_chain K K2 K3 esc t t' R)|by apply (relabel_ids K K2 K3 t t' R)|].
  by apply (relabel_plain K K2 K3 esc t t' R).
Qed.

Lemma keep_error_ok r v : v = 0 \/ v = ERR_SCM_NODATA -> keep_error r v = r.
Proof. by intros [->| ->]. Qed.

Lemma validity_ends s : good esc (tabs s) ->
  ends (fun n => certificate_validity sql_ok clock in_order esc n) s (fun v t' => v = 0 /\
    let t2 := set_certs (map not_yet_row (certs (tabs s))) (tabs s) in
    good esc t2 /\ revoked esc (found (fun c => c_to c <? now) t2) t2 t').
Proof.
  intros G. set (t := tabs s) in *. set (t2 := set_certs (map not_yet_row (certs t)) t).
  eapply (ends_bind (fun _ => _) _ s (fun v t' => v = Some now /\ t' = t)).
  { eapply ends_runs; [eexists; split; [unfold LocalTimeToDBTime; rewrite Hclock; reflexivity|reflexivity]|done]. }
  intros ? s0 [-> H0]. assert (G2 : good esc t2).
  { apply (good_relabel notyet_bit t); [done..| |done]. apply relabel_map, not_yet_same. }
  eapply (ends_bind (fun _ => _)); [apply maybeok_ends; rewrite H0; apply G|].
  cbn beta. intros v1 s1 [Hv1 H1]. rewrite H0 in H1.
  assert (ids_ok (tabs s1)) as Hids1.
  { pose proof (g_ids _ _ G2) as [A B C D E]. rewrite H1. split; try done. cbn in A |- *.
    rewrite <- !list_fmap_compose in *. erewrite list_fmap_ext; [exact A|]. intros i c _. unfold compose, not_yet_row, toonew_row.
    by destruct (_ && negb false). }
  eapply (ends_bind (fun _ => _)); [by apply toonew_ends|].
  cbn beta. intros v2 s2 [Hv2 H2].
  assert (E2 : tabs s2 = t2).
  { rewrite H2, H1. cbn. unfold t2. rewrite map_map. done. }
  eapply ends_bind; [apply search_revoke; by rewrite E2|].
  cbn beta. intros v3 s3 [Hv3 H3]. apply ends_ret. rewrite !keep_error_ok by done.
  rewrite E2 in H3. done.
Qed.

(** ** Certificates on CRLs *)

(** [L] is gone, and nothing else. *)
Record purged (L : cert_row -> Prop) (t t' : tables) : Prop := {
  pg_good : good esc t';
  pg_less : less t t';
  pg_gone : forall c, c ∈ certs t' -> ~ L c;
  pg_stay : forall c, c ∈ certs t -> ~ L c -> c_id c ∈ c_id <$> certs t' }.

(** [L] does not look at the flags. *)
Definition by_fields (L : cert_row -> Prop) : Prop := forall c f, L (set_c_flags f c) <-> L c.

Lemma purged_ext L L' t t' : (forall c, L c <-> L' c) -> purged L t t' -> purged L' t t'.
Proof. intros E [G Ls Go St]. split; [done|done| |]; intros c Hc; rewrite <- E; auto. Qed.

Lemma purged_none L t : good esc t -> (forall c, ~ L c) -> purged L t t.
Proof. intros G HL. split; [done|apply less_refl|by intros|]. intros c Hc _. by apply list_elem_of_fmap_2. Qed.

Lemma purged_trans L1 L2 t1 t2 t3 : by_fields L1 -> by_fields L2 -> ids_ok t1 ->
  purged L1 t1 t2 -> purged L2 t2 t3 -> purged (fun c => L1 c \/ L2 c) t1 t3.
Proof.
  intros F1 F2 Hids [_ Le1 Go1 St1] [G Le2 Go2 St2]. split; [done|by eapply less_trans| |].
  - intros c Hc [H|H]; [|by eapply Go2]. destruct (le_certs _ _ Le2 c Hc) as (b & Hb & f & -> & _).
    apply (Go1 b Hb). by apply F1 in H.
  - intros c Hc Hn. pose proof (St1 c Hc ltac:(tauto)) as Hin.
    apply list_elem_of_fmap in Hin as (b & E & Hb). rewrite E. apply St2; [done|].
    destruct (le_certs _ _ Le1 b Hb) as (c0 & Hc0 & f & -> & _). rewrite (F2 c0 f). cbn in E.
    rewrite (same_id certF (certs t1) c c0 (id_certs _ Hids) Hc Hc0 E) in Hn. tauto.
Qed.

Definition listed (issuer aki : string) (sn : list Z) (c : cert_row) : Prop :=
  issuer <> EmptyString /\ aki <> EmptyString /\ sn <> replicate SER_NUM_MAX_SZ 0 /\
  serial_where esc issuer aki sn c = true.

Lemma serial_ends issuer aki sn s : good esc (tabs s) ->
  ends (fun n => revoke_cert_by_serial sql_ok clock in_order esc n issuer aki sn) s
    (fun v t' => (v = 0 \/ v = ERR_SCM_NODATA) /\ purged (listed issuer aki sn) (tabs s) t').
Proof.
  intros G. unfold revoke_cert_by_serial.
  destruct (String.eqb_spec issuer EmptyString) as [Ei|Ei]; cbn [orb];
    [|destruct (String.eqb_spec aki EmptyString) as [Ea|Ea]; cbn [orb];
      [|destruct (bool_decide_reflect (sn = replicate SER_NUM_MAX_SZ 0)) as [Es|Es]]];
    try (apply ends_ret; split; [by left|]; apply purged_none; [done|]; by intros c (? & ? & ? & _)).
  eapply ends_bind; [by apply search_revoke|]. cbn beta. intros v s1 [Hv R]. apply ends_ret.
  split; [destruct Hv as [->| ->]; by auto|]. pose proof (g_ids _ _ G) as Hids. split; [apply R|apply R| |].
  - intros c Hc (_ & _ & _ & Hw). destruct (revoked_in _ _ _ c Hids R Hc) as (c0 & _ & (f & -> & _) & Hf).
    unfold serial_where in *. cbn [set_c_flags c_issuer c_sn c_aki] in Hw. congruence.
  - intros c Hc Hn. apply (revoked_ids _ _ _ c Hids R Hc). apply not_true_iff_false. intros Hw. by apply Hn.
Qed.

Lemma listed_fields issuer aki sn : by_fields (listed issuer aki sn).
Proof. done. Qed.

Lemma serials_ends issuer aki sns : forall s sta, good esc (tabs s) -> sta = 0 \/ sta = ERR_SCM_NODATA ->
  ends (fun n => crl_serials (revoke_cert_by_serial sql_ok clock in_order esc n issuer aki) sns sta 0) s
    (fun v t' => (v.1 = 0 \/ v.1 = ERR_SCM_NODATA) /\ v.2 = 0 /\
      purged (fun c => exists sn, sn ∈ sns /\ listed issuer aki sn c) (tabs s) t').
Proof.
  induction sns as [|sn sns IH]; intros s sta G Hsta; cbn [crl_serials].
  { apply ends_ret. split; [done|]. split; [done|]. apply purged_none; [done|].
    by intros c (x & Hx%not_elem_of_nil & _). }
  eapply ends_bind; [by apply serial_ends|]. cbn beta. intros v s1 [Hv P1].
  assert ((v =? 1) = false) as -> by (by destruct Hv as [->| ->]).
  eapply ends_impl; [apply IH; [apply P1|]|].
  - destruct Hv as [->| ->]; cbn; auto.
  - cbn beta. intros w t' (Hw & Hc & P2). split; [done|]. split; [done|].
    eapply purged_ext; [|eapply purged_trans; [apply listed_fields| | |exact P1|exact P2]]; cbn beta.
    + intros c. setoid_rewrite elem_of_cons. split; [intros [?|(x & ? & ?)]; eauto|].
      intros (x & [->|?] & ?); eauto.
    + done.
    + apply G.
Qed.

(** The certificates a CRL revokes. *)
Definition crl_lists (l : crl_row) (c : cert_row) : Prop :=
  l_sninuse l <> 0 /\ validated (l_flags l) = true /\ nochain (l_flags l) = false /\
  exists sns, l_snlist l = Some sns /\
    exists sn, sn ∈ take (Z.to_nat (l_snlen l)) sns /\ listed (l_issuer l) (fetched (l_aki l)) sn c.

(** The list is as long as the row says. *)
Definition crl_wf (l : crl_row) : Prop := forall sns, l_snlist l = Some sns -> l_snlen l <= Z.of_nat (length sns).

Ltac no_serials := apply ends_ret; split; [by left|]; apply purged_none; [done|].

Lemma crliterator_ends l s : good esc (tabs s) -> crl_wf l ->
  ends (fun n => crliterator sql_ok (revoke_cert_by_serial sql_ok clock in_order esc n) l) s
    (fun v t' => (v = 0 \/ v = ERR_SCM_NODATA) /\ purged (crl_lists l) (tabs s) t').
Proof.
  intros G Hwf. unfold crliterator.
  destruct (String.eqb_spec (l_issuer l) EmptyString) as [Ei|_]; [no_serials; by intros c (_ & _ & _ & ? & _ & ? & _ & ? & _)|].
  destruct (String.eqb_spec (fetched (l_aki l)) EmptyString) as [Ea|_]; [no_serials; by intros c (_ & _ & _ & ? & _ & ? & _ & _ & ? & _)|].
  destruct (Z.eqb_spec (l_snlen l) 0) as [En|_].
  { no_serials. intros c (_ & _ & _ & ? & _ & ? & H & _). rewrite En in H. by apply not_elem_of_nil in H. }
  destruct (Z.eqb_spec (l_sninuse l) 0) as [Eu|Hu]; [no_serials; by intros c (? & _)|].
  change SCM_FLAG_VALIDATED with (2 ^ 2). change SCM_FLAG_NOCHAIN with (2 ^ 3).
  rewrite !land_bit, negb_involutive by lia. fold (validated (l_flags l)) (nochain (l_flags l)).
  destruct (validated (l_flags l)) eqn:Ev; cbn [negb orb]; [|no_serials; intros c (_ & ? & _); congruence].
  destruct (nochain (l_flags l)) eqn:En; [no_serials; intros c (_ & _ & ? & _); congruence|].
  destruct (l_snlist l) as [sns|] eqn:Esn; [|no_serials; intros c (_ & _ & _ & ? & ? & _); congruence].
  destruct sns as [|sn0 sns'].
  { no_serials. intros c (_ & _ & _ & ? & E & ? & H & _). rewrite Esn in E. injection E as <-.
    rewrite take_nil in H. by apply not_elem_of_nil in H. }
  cbn [length Nat.eqb]. set (sns := sn0 :: sns') in *.
  rewrite (proj2 (Z.ltb_ge _ _)) by exact (Hwf _ Esn).
  eapply ends_bind; [by apply serials_ends; [|left]|]. cbn beta. intros [sta chgd] s1 (Hs & Hc & P).
  cbn [fst snd] in Hs, Hc. subst chgd. cbn [Z.eqb].
  assert (P' : purged (crl_lists l) (tabs s) (tabs s1)).
  { eapply purged_ext; [|exact P]. intros c. unfold crl_lists. rewrite Esn. split; [|naive_solver].
    intros (sn & ? & ?). repeat split; [done..|]. eauto. }
  destruct Hs as [->| ->]; cbn [Z.ltb Z.compare ERR_SCM_NODATA]; apply ends_ret; auto.
Qed.

Lemma crls_ends ls : forall s sta, good esc (tabs s) -> sta = 0 \/ sta = ERR_SCM_NODATA -> Forall crl_wf ls ->
  ends (fun n => callbacks (crliterator sql_ok (revoke_cert_by_serial sql_ok clock in_order esc n)) ls sta) s
    (fun v t' => (v = 0 \/ v = ERR_SCM_NODATA) /\ purged (fun c => exists l, l ∈ ls /\ crl_lists l c) (tabs s) t').
Proof.
  induction ls as [|l ls IH]; intros s sta G Hsta Hwf; cbn [callbacks].
  { apply ends_ret. split; [done|]. apply purged_none; [done|]. by intros c (x & Hx%not_elem_of_nil & _). }
  inversion Hwf; subst. eapply ends_bind; [by apply crliterator_ends|]. cbn beta. intros v s1 [Hv P1].
  eapply ends_impl; [apply IH; [apply P1|done|done]|]. cbn beta. intros w t' [Hw P2]. split; [done|].
  eapply purged_ext; [|eapply (purged_trans (crl_lists l)); [done| | |exact P1|exact P2]]; cbn beta.
  - intros c. setoid_rewrite elem_of_cons. split; [intros [?|(x & ? & ?)]; eauto|].
    intros (x & [->|?] & ?); eauto.
  - done.
  - apply G.
Qed.
End thm.

(** ** Tables that are in order, by computation *)

Section check.
Context (esc : string -> string).

Definition supportedb (t : tables) (IS : option string) (AK : string) : bool :=
  existsb (parent_ok esc IS AK) (certs t).
Definition chainb (t : tables) : bool :=
  forallb (fun c => nochain (c_flags c) || negb (needs c) || supportedb t (Some (c_issuer c)) (fetched (c_aki c))) (certs t) &&
  forallb (fun l => nochain (l_flags l) || supportedb t (Some (l_issuer l)) (fetched (l_aki l))) (crls t) &&
  forallb (fun o => nochain (o_flags o) || supportedb t None (o_ski o)) (roas t) &&
  forallb (fun o => nochain (o_flags o) || supportedb t None (o_ski o)) (mfts t) &&
  forallb (fun o => nochain (o_flags o) || supportedb t None (o_ski o)) (gbrs t).

Lemma supportedb_spec t IS AK : supportedb t IS AK = true -> supported esc t IS AK.
Proof. intros (p & Hp & Ho)%existsb_exists. exists p. by rewrite list_elem_of_In. Qed.

Lemma chainb_spec t : chainb t = true -> chain_inv esc t.
Proof.
  unfold chainb. rewrite !andb_true_iff, !forallb_forall. setoid_rewrite <- list_elem_of_In.
  intros [[[[Hc Hl] Hr] Hm] Hg]. split; [|split].
  - intros c Hin Hn Hneed. apply supportedb_spec. specialize (Hc c Hin). by rewrite Hn, Hneed in Hc.
  - intros l Hin Hn a Ha. apply supportedb_spec. specialize (Hl l Hin). by rewrite Hn, Ha in Hl.
  - intros o Hin Hn. apply supportedb_spec. specialize (Hr o Hin). by rewrite Hn in Hr.
  - intros o Hin Hn. apply supportedb_spec. specialize (Hm o Hin). by rewrite Hn in Hm.
  - intros o Hin Hn. apply supportedb_spec. specialize (Hg o Hin). by rewrite Hn in Hg.
Qed.
End check.

(** ** Theorems *)

(** C7: Revoking a certificate terminates and deletes it. Afterwards whatever is
    not marked NOCHAIN still has a validated, unmarked certificate above it, all
    other rows are as they were or have only been marked, and nothing is marked
    needlessly: a set of certificates that hold each other up (through parents
    that are valid now), and every CRL, ROA, manifest and ghostbusters record
    below them, is left unchanged. *)
Theorem revoke_exact sql_ok clock in_order esc now keep c s :
  (forall n, sql_ok n = true) -> (forall n, clock n = Some now) -> (forall A (l : list A), in_order A l ≡ₚ l) ->
  good esc (tabs s) -> c ∈ certs (tabs s) -> Z.land (c_flags c) SCM_FLAG_ISPARACERT = 0 ->
  self_supporting esc now keep -> (forall k, keep k -> k ∈ certs (tabs s) /\ c_id k <> c_id c) ->
  let t1 := del_id CertTab (c_id c) (tabs s) in
  ends (fun fuel => revoke_cert_and_children sql_ok clock in_order esc fuel c) s (fun v t' =>
    v = 0 /\ chain_inv esc t' /\ weaker t1 t' /\ kept esc now keep t1 t').
Proof.
  intros Hsql Hclock Horder [[Hci Hob] Hids Hpl] Hc Hpara Hss Hk t1.
  apply (ends_bind (fun _ => _) _ s (fun v t' => v = 0 /\ t' = t1)).
  { eapply ends_runs; [by apply runs_no_data|done]. }
  intros ? s1 [-> Hs1]. cbn [Z.ltb Z.compare]. rewrite Hpara. cbn [Z.eqb negb].
  apply (ends_bind (fun _ => _) _ s1 (fun _ t' => t' = t1)); [by apply ends_ret|]. intros [] s2 Hs2.
  eapply ends_impl.
  - apply (root_ends sql_ok clock in_order esc now Hsql Hclock Horder keep _ _ _ (tabs s) s2); rewrite ?Hs2; try done.
    + by apply del_ids.
    + by apply del_plain.
    + intros k Hkk. apply del_sub. by apply Hk.
    + intros x [Hx _]%del_sub. by apply Hci.
    + apply lose_del. by apply row_matches.
  - cbn beta. rewrite Hs2. intros v t' [-> Hw]. split; [done|]. split; [by eapply work_chain|]. by destruct Hw.
Qed.

(** C9: A run of [certificate_validity] terminates with success. The
    certificates that are gone are those whose validity has ended, the others
    have the NOTYET flag exactly when their validity has not begun, and the
    invariants of the tables hold. *)
Theorem certificate_validity_spec sql_ok clock in_order esc now s :
  (forall n, sql_ok n = true) -> (forall n, clock n = Some now) -> (forall A (l : list A), in_order A l ≡ₚ l) ->
  good esc (tabs s) ->
  ends (fun fuel => certificate_validity sql_ok clock in_order esc fuel) s (fun v t' =>
    v = 0 /\ good esc t' /\
    (forall c, c ∈ certs (tabs s) -> c_id c ∈ c_id <$> certs t' <-> now <= c_to c) /\
    (forall c', c' ∈ certs t' -> Z.testbit (c_flags c') 4 = (now <? c_from c') /\
       exists c f, c ∈ certs (tabs s) /\ c' = set_c_flags f c)).
Proof.
  intros Hsql Hclock Horder G. eapply ends_impl; [by apply (validity_ends sql_ok clock in_order esc now)|].
  cbn beta zeta. set (t2 := set_certs (map (not_yet_row now) (certs (tabs s))) (tabs s)).
  intros v t' (-> & G2 & R). pose proof (g_ids _ _ G2) as Hids. split; [done|]. split; [apply R|]. split.
  - intros c Hc. assert (Hc2 : not_yet_row now c ∈ certs t2) by (by apply list_elem_of_fmap_2).
    pose proof (revoked_ids in_order esc Horder _ t2 t' _ Hids R Hc2) as H.
    destruct (not_yet_same now c) as (f & E & _). rewrite E in H. cbn [set_c_flags c_id c_to] in H.
    rewrite H. apply Z.ltb_ge.
  - intros c' Hc'. destruct (revoked_in in_order esc Horder _ t2 t' c' Hids R Hc') as (c2 & Hc2 & Hle & Hto).
    apply list_elem_of_fmap in Hc2 as (c & -> & Hc). pose proof (not_yet_flag now c) as Hny.
    destruct (not_yet_same now c) as (f & E & _). rewrite E in *. destruct Hle as (g & -> & Hg & _).
    cbn [set_c_flags c_to c_from c_flags] in *. apply Z.ltb_ge in Hto. split; [|by exists c, g].
    by rewrite Hg, Hny.
Qed.

(** C8: Applying the CRLs terminates. Afterwards no certificate is left that a
    validated CRL with an intact chain lists (same issuer and authority key, and
    a serial number that is not zero), no other certificate has been removed, and
    the invariants of the tables hold, so that what was below a revoked
    certificate is marked unless something else holds it up. *)
Theorem iterate_crl_revokes sql_ok clock in_order esc now s :
  (forall n, sql_ok n = true) -> (forall n, clock n = Some now) -> (forall A (l : list A), in_order A l ≡ₚ l) ->
  good esc (tabs s) -> Forall crl_wf (crls (tabs s)) ->
  ends (fun fuel => iterate_crl sql_ok in_order (revoke_cert_by_serial sql_ok clock in_order esc fuel)) s (fun v t' =>
    (v = 0 \/ v = ERR_SCM_NODATA) /\
    purged esc (fun c => exists l, l ∈ crls (tabs s) /\ crl_lists esc l c) (tabs s) t').
Proof.
  intros Hsql Hclock Horder G Hwf.
  apply (ends_search sql_ok in_order Hsql _ _ _ s (fun v t' => (v = 0 \/ v = ERR_SCM_NODATA) /\
    purged esc (fun c => exists l, l ∈ crls (tabs s) /\ crl_lists esc l c) (tabs s) t')).
  - intros s1 H1. eapply ends_impl; [apply (crls_ends sql_ok clock in_order esc now)|]; [done..|by rewrite H1|by left| |].
    + apply Forall_forall. intros l [Hl _]%search_in; [|done]. by apply (proj1 (Forall_forall _ _) Hwf).
    + cbn beta. rewrite H1. intros v t' [Hv P]. split; [done|]. eapply purged_ext; [|exact P].
      intros c. split; intros (l & Hl & Hc); exists l; (split; [|done]); [by apply search_in in Hl as [? _]|].
      by apply search_in.
  - intros v t b [[->| ->] P]; split; try done; destruct b; auto.
Qed.

(** ** Examples: a trust anchor with two authorities, each with an end-entity
    certificate and a ROA; a CRL of the anchor revokes the first authority *)

Definition ex_cert (id : Z) (name issuer ski aki : string) (from to : Z) : cert_row :=
  mkCert id name "d" (Some name) issuer [id] SCM_FLAG_VALIDATED ski (Some aki) name from to 0 None.
Definition ex_roa (id : Z) (ski : string) : obj_row roa_data :=
  mkObj id "r" "d" ski SCM_FLAG_VALIDATED (mkRoaData 64512 "s" 0) None.

Definition ex_ta : cert_row := ex_cert 1 "ta" "ta" "kt" "kt" 0 100.
Definition ex_a : cert_row := ex_cert 2 "a" "ta" "ka" "kt" 0 20.
Definition ex_b : cert_row := ex_cert 3 "b" "ta" "kb" "kt" 0 100.
Definition ex_ea : cert_row := ex_cert 4 "ea" "a" "kea" "ka" 0 100.
Definition ex_eb : cert_row := ex_cert 5 "eb" "b" "keb" "kb" 0 100.
Definition ex_crl : crl_row := mkCrl 1 "l" "d" "ta" (Some "kt") "s" 1 1 (Some [[2]]) SCM_FLAG_VALIDATED None.
Definition ex_tables : tables :=
  mkTables [ex_ta; ex_a; ex_b; ex_ea; ex_eb] [ex_crl] [ex_roa 1 "kea"; ex_roa 2 "keb"] [] [] [] [] None.
Definition ex_state : dbst := mkDbst ex_tables 0 0 SrchNone.

Lemma ex_good : good id ex_tables.
Proof.
  split; [by apply chainb_spec| |by split].
  split; apply (bool_decide_unpack _); vm_compute; exact I.
Qed.

Lemma revoke_exact_witness :
  ends (fun fuel => revoke_cert_and_children (fun _ => true) (fun _ => Some 10) (fun _ l => l) id fuel ex_a) ex_state
    (fun v t' => v = 0 /\ chain_inv id t' /\ weaker (del_id CertTab 2 ex_tables) t' /\
       kept id 10 (fun k => k = ex_ta \/ k = ex_b \/ k = ex_eb) (del_id CertTab 2 ex_tables) t').
Proof.
  apply (revoke_exact (fun _ => true) (fun _ => Some 10) (fun _ l => l) id 10
    (fun k => k = ex_ta \/ k = ex_b \/ k = ex_eb) ex_a ex_state); try done.
  - apply ex_good.
  - right; left.
  - intros k [->|[->| ->]] Hn; [done|exists ex_ta|exists ex_b]; (split; [by auto|reflexivity]).
  - intros k [->|[->| ->]]; (split; [|done]); apply list_elem_of_In; cbn; tauto.
Defined.

Lemma certificate_validity_spec_witness :
  ends (fun fuel => certificate_validity (fun _ => true) (fun _ => Some 30) (fun _ l => l) id fuel) ex_state (fun v t' =>
    v = 0 /\ good id t' /\
    (forall c, c ∈ certs ex_tables -> c_id c ∈ c_id <$> certs t' <-> 30 <= c_to c) /\
    (forall c', c' ∈ certs t' -> Z.testbit (c_flags c') 4 = (30 <? c_from c') /\
       exists c f, c ∈ certs ex_tables /\ c' = set_c_flags f c)).
Proof.
  apply (certificate_validity_spec (fun _ => true) (fun _ => Some 30) (fun _ l => l) id 30 ex_state); try done.
  apply ex_good.
Defined.

Lemma iterate_crl_revokes_witness :
  ends (fun fuel => iterate_crl (fun _ => true) (fun _ l => l)
      (revoke_cert_by_serial (fun _ => true) (fun _ => Some 10) (fun _ l => l) id fuel)) ex_state (fun v t' =>
    (v = 0 \/ v = ERR_SCM_NODATA) /\
    purged id (fun c => exists l, l ∈ crls ex_tables /\ crl_lists id l c) ex_tables t').
Proof.
  apply (iterate_crl_revokes (fun _ => true) (fun _ => Some 10) (fun _ l => l) id 10 ex_state); try done.
  - apply ex_good.
  - constructor; [|constructor]. intros sns [= <-]. done.
Defined.

(** What these runs leave: the first authority is gone, its end-entity
    certificate and its ROA are marked (flags 12), the rest is as it was. *)
Example ex_crl_run :
  let '(s, v) := iterate_crl (fun _ => true) (fun _ l => l)
      (revoke_cert_by_serial (fun _ => true) (fun _ => Some 10) (fun _ l => l) id 10) ex_state in
  (v, map (fun c => (c_id c, c_flags c)) (certs (tabs s)), map (fun o => (o_id o, o_flags o)) (roas (tabs s)),
   map (fun l => (l_id l, l_flags l)) (crls (tabs s))) =
  (inr 0, [(1, 4); (3, 4); (4, 12); (5, 4)], [(1, 12); (2, 4)], [(1, 4)]).
Proof. vm_compute. reflexivity. Qed.
