(* ===== verification/RpkiVerify.v ===== *)
(** * Verification against the database ([src/lib/rpki/sqhl.c])

    The search for the parents of an object, the check of a certificate up to a
    trust anchor, and the checks of CRLs and ROAs. OpenSSL and the decoders are
    parameters, the fields of [env]; creating an OpenSSL object is taken to
    succeed. *)

From stdpp Require Import strings.
From S2P Require Import Prelude Sql CasnTime CasnNum RpkiObject CmsValidate RoaValidate RoaValidate2 RpkiDb RoaFile.

Local Open Scope est_scope.

Definition SIGVAL_UNKNOWN : Z := 0.
Definition SIGVAL_NOTPRESENT : Z := 1.
Definition SIGVAL_VALID : Z := 2.
Definition SIGVAL_INVALID : Z := 3.

Definition ERR_SCM_X509 : Z := -16.
Definition ERR_SCM_BADCERT : Z := -17.
Definition ERR_SCM_NOTVALID : Z := -30.
Definition ERR_SCM_BADMKHASH : Z := -91.
Definition ERR_SCM_DUPSIG : Z := -90.

(** ** File types *)

Definition OT_UNKNOWN : Z := 0.
Definition OT_CER : Z := 1.
Definition OT_CRL : Z := 2.
Definition OT_ROA : Z := 3.
Definition OT_MAN : Z := 4.
Definition OT_GBR : Z := 5.
Definition OT_PEM_OFFSET : Z := 128.

Definition ends_with (str sfx : string) : bool :=
  if (String.length str <? String.length sfx)%nat then false
  else String.eqb (String.substring (String.length str - String.length sfx) (String.length sfx) str) sfx.

Definition filetype_rules : list (string * Z) :=
  [(".cer", OT_CER); (".crl", OT_CRL); (".roa", OT_ROA); (".man", OT_MAN); (".mft", OT_MAN);
   (".mnf", OT_MAN); (".gbr", OT_GBR); (".cer.pem", OT_CER + OT_PEM_OFFSET);
   (".crl.pem", OT_CRL + OT_PEM_OFFSET); (".roa.pem", OT_ROA + OT_PEM_OFFSET);
   (".man.pem", OT_MAN + OT_PEM_OFFSET); (".mft.pem", OT_MAN + OT_PEM_OFFSET);
   (".mnf.pem", OT_MAN + OT_PEM_OFFSET)]%string.

Fixpoint first_rule (fname : string) (rules : list (string * Z)) : Z :=
  match rules with
  | [] => OT_UNKNOWN
  | (sfx, typ) :: rules => if ends_with fname sfx then typ else first_rule fname rules
  end.
Definition infer_filetype (fname : string) : Z := first_rule fname filetype_rules.

(** [xsnprintf(.., "%s/%s", dirname, filename)] *)
Definition path_of (dir file : string) : string := (dir +:+ "/" +:+ file)%string.

(** ** What the program calls *)

Record env (X509 : Type) := mkEnv {
  (* the content of a file that can be opened and read *)
  file_bytes : string -> option (list Z);
  (* [d2i_X509_bio] on a file, or [PEM_read_bio_X509_AUX] when the flag is set *)
  d2i_X509 : bool -> list Z -> option X509;
  (* [X509_to_subject], [X509_to_ski] *)
  X509_to_subject : X509 -> option string;
  X509_to_ski : X509 -> option string;
  (* is there a public key *)
  has_pubkey : X509 -> bool;
  (* [X509_verify] of the first with the key of the second: 1, 0, or -1 for an error *)
  X509_verify : X509 -> X509 -> Z;
  (* [check_issued]: the first is issued by the second *)
  check_issued : X509 -> X509 -> bool;
  (* [X509_verify_cert]: the chain (leaf first) it builds from the untrusted and the
     trusted certificates, if the checks before [verify] succeed; then the checks
     after it *)
  build_chain : X509 -> list X509 -> list X509 -> option (list X509);
  chain_checks : list X509 -> bool;
  (* what the server reads from text put between quotes without escaping; [None]
     when that is not SQL *)
  literal : string -> option string;
  (* the allocations of [decode_b64] *)
  b64_mem : nat -> bool }.
Arguments mkEnv {X509}.
Arguments file_bytes {X509}. Arguments d2i_X509 {X509}. Arguments X509_to_subject {X509}.
Arguments X509_to_ski {X509}. Arguments has_pubkey {X509}. Arguments X509_verify {X509}.
Arguments check_issued {X509}. Arguments build_chain {X509}. Arguments chain_checks {X509}.
Arguments literal {X509}. Arguments b64_mem {X509}.

Definition set_c_sigval (v : Z) (c : cert_row) : cert_row :=
  mkCert (c_id c) (c_file c) (c_dir c) (c_subject c) (c_issuer c) (c_sn c) (c_flags c) (c_ski c) (c_aki c)
    (c_sig c) (c_from c) (c_to c) v (c_hash c).
Definition set_r_sigval (v : Z) (o : obj_row roa_data) : obj_row roa_data :=
  mkObj (o_id o) (o_file o) (o_dir o) (o_ski o) (o_flags o) (mkRoaData (rd_asn (o_data o)) (rd_sig (o_data o)) v) (o_hash o).

Section verify.
Context (sql_ok : nat -> bool) (in_order : forall A, list A -> list A).
Context {X509 : Type} (E : env X509) (useParacerts : bool).
Arguments in_order {A}.

(** ** Recorded results *)

(** A search whose callback does nothing leaves the last row in its columns. *)
Definition last_found {A} (table : tables -> list A) (where_ : A -> bool) : M (option A) :=
  let* ok := statementscm sql_ok in
  if negb ok then est_ret None
  else
    let* t := est_gets tabs in
    est_ret (last (in_order (List.filter where_ (table t)))).

Definition sigval_of (v : Z) : Z :=
  if (v <? SIGVAL_UNKNOWN) || (SIGVAL_INVALID <? v) then SIGVAL_UNKNOWN else v.

Definition cert_named (subj ski : string) (c : cert_row) : bool :=
  String.eqb (c_ski c) ski && is_str (c_subject c) subj.

(** The subject goes into the statement as it is. *)
Definition get_cert_sigval (subj ski : string) : M Z :=
  match literal E subj with
  | None => let* _ := statementscm sql_ok in est_ret SIGVAL_UNKNOWN
  | Some name =>
      let* r := last_found certs (cert_named name ski) in
      est_ret (match r with None => SIGVAL_UNKNOWN | Some c => sigval_of (c_sigval c) end)
  end.

Definition get_roa_sigval (ski : string) : M Z :=
  let* r := last_found roas (fun o => String.eqb (o_ski o) ski) in
  est_ret (match r with None => SIGVAL_UNKNOWN | Some o => sigval_of (rd_sigval (o_data o)) end).

Definition set_cert_sigval (subj ski : string) (valu : Z) : M Z :=
  statementscm_no_data sql_ok (fun t =>
    set_certs (map (fun c => if cert_named subj ski c then set_c_sigval valu c else c) (certs t)) t).

Definition set_roa_sigval (ski : string) (valu : Z) : M Z :=
  statementscm_no_data sql_ok (fun t =>
    set_roas (map (fun o => if String.eqb (o_ski o) ski then set_r_sigval valu o else o) (roas t))
      (roa_prefixes t) t).

(** ** Signatures of a chain *)

(** Any result but 0 of [X509_verify] is recorded as valid. *)
Definition local_verify (cert issuer : X509) : M Z :=
  let subj := X509_to_subject E cert in
  let ski := match subj with Some _ => X509_to_ski E cert | None => None end in
  let* sigval := match subj, ski with
                 | Some subj, Some ski => get_cert_sigval subj ski
                 | _, _ => est_ret SIGVAL_UNKNOWN
                 end in
  if sigval =? SIGVAL_VALID then est_ret 1
  else if sigval =? SIGVAL_INVALID then est_ret 0
  else
    let mok := X509_verify E cert issuer in
    (if negb (mok =? 0) then
       match subj, ski with
       | Some subj, Some ski => let* _ := set_cert_sigval subj ski SIGVAL_VALID in est_ret tt
       | _, _ => est_exit DbUndefined
       end
     else est_ret tt) ;;;
    est_ret mok.

(** The loop of [our_verify], down the chain: [verify_callback] returns what it is
    given, so that the first failure ends it. *)
Fixpoint verify_down (xissuer : X509) (subjects : list X509) : M bool :=
  match subjects with
  | [] => est_ret true
  | xsubject :: subjects =>
      if negb (has_pubkey E xissuer) then est_ret false
      else
        let* ok := local_verify xsubject xissuer in
        if ok <=? 0 then est_ret false else verify_down xsubject subjects
  end.

Definition our_verify (chain : list X509) : M bool :=
  match rev chain with
  | [] => est_exit DbUndefined
  | xissuer :: below =>
      if check_issued E xissuer xissuer then verify_down xissuer (xissuer :: below)
      else if (length below =? 0)%nat then est_ret false
      else verify_down xissuer below
  end.

Definition checkit (x : X509) (uchain tchain : list X509) : M Z :=
  match build_chain E x uchain tchain with
  | None => est_ret ERR_SCM_NOTVALID
  | Some chain =>
      let* ok := our_verify chain in
      est_ret (if ok && chain_checks E chain then 0 else ERR_SCM_NOTVALID)
  end.

(** ** Parents *)

Definition readCertFromFile (ofullname : string) : option X509 * Z :=
  match file_bytes E ofullname with
  | None => (None, ERR_SCM_X509)
  | Some bytes =>
      match d2i_X509 E (OT_PEM_OFFSET <=? infer_filetype ofullname) bytes with
      | None => (None, ERR_SCM_BADCERT)
      | Some x => (Some x, 0)
      end
  end.

Definition parent_where (ski : string) (subject : option string) (c : cert_row) : bool :=
  String.eqb (c_ski c) ski &&
  match subject with None => true | Some name => is_str (c_subject c) name end &&
  flag_test (c_flags c) SCM_FLAG_VALIDATED true && flag_test (c_flags c) SCM_FLAG_NOCHAIN false.

(** A failed search gives a negative count, which callers take as no answer. *)
Definition find_parent_cert (ski : string) (subject : option string) : M (list cert_row) :=
  est_modify (fun s => with_cols (match srch_cols s with SrchNone => SrchParent | c => c end) s) ;;;
  let* ok := statementscm sql_ok in
  if negb ok then est_ret []
  else
    let* t := est_gets tabs in
    est_ret (in_order (List.filter (parent_where ski subject) (certs t))).

Definition PARA_FLAGS : Z := Z.lor (Z.lor SCM_FLAG_ISPARACERT SCM_FLAG_HASPARACERT) SCM_FLAG_ISTARGET.
Definition has_flag (c : cert_row) (f : Z) : bool := negb (Z.land (c_flags c) f =? 0).

(** Which answer is taken. With two answers the code needs the buffers that
    [find_parent_cert] set up. *)
Definition choose_parent (cols : certsrch) (l : list cert_row) : option cert_row :=
  match l with
  | [c] => if has_flag c (Z.lor SCM_FLAG_ISTARGET SCM_FLAG_HASPARACERT) then None else Some c
  | [c0; c1] =>
      if negb (Z.land (Z.land (c_flags c0) PARA_FLAGS) (Z.land (c_flags c1) PARA_FLAGS) =? 0) then None
      else match cols with
      | SrchParent =>
          Some (if (useParacerts && has_flag c0 SCM_FLAG_ISPARACERT) ||
                   (negb useParacerts && negb (has_flag c0 SCM_FLAG_ISPARACERT)) then c0 else c1)
      | _ => None
      end
  | _ => None
  end.

(** The parent's row, and its certificate if its file can be read. *)
Definition parent_cert (ski : string) (subject : option string) : M (option (cert_row * option X509)) :=
  let* l := find_parent_cert ski subject in
  let* cols := est_gets srch_cols in
  est_ret (match choose_parent cols l with
           | None => None
           | Some c => Some (c, fst (readCertFromFile (path_of (c_dir c) (c_file c))))
           end).

(** ** Certificates *)

(** The loop of [verify_cert]: up to a trusted certificate, which is returned with
    the untrusted ones below it. [parentAKI] and [parentIssuer] point into the
    columns of the search, which exist only if [find_parent_cert] made it. *)
Fixpoint parents (fuel : nat) (ski : string) (subject : option string) (uchain : list X509) :
    M (option (list X509 * X509)) :=
  match fuel with
  | O => est_exit DbFuel
  | S fuel =>
      let* p := parent_cert ski subject in
      match p with
      | Some (c, Some x) =>
          if has_flag c SCM_FLAG_TRUSTED then est_ret (Some (uchain, x))
          else
            let* cols := est_gets srch_cols in
            match cols with
            | SrchParent => parents fuel (fetched (c_aki c)) (Some (c_issuer c)) (uchain ++ [x])
            | _ => est_exit DbUndefined
            end
      | _ => est_ret None
      end
  end.

(** The status, and whether the chain reaches a trust anchor. *)
Definition verify_cert (fuel : nat) (x : X509) (isTrusted : bool) (parentSKI : string)
    (parentSubject : option string) : M (Z * bool) :=
  if isTrusted then
    let* sta := checkit x [] [x] in est_ret (sta, true)
  else
    let* up := parents fuel parentSKI parentSubject [] in
    match up with
    | None => est_ret (0, false)
    | Some (uchain, anchor) =>
        let* sta := checkit x uchain [anchor] in est_ret (sta, true)
    end.

(** ** Revocation lists against a certificate *)

Definition revoking_crl (issuer : string) (l : crl_row) : bool :=
  String.eqb (l_issuer l) issuer &&
  flag_test (l_flags l) SCM_FLAG_VALIDATED true && flag_test (l_flags l) SCM_FLAG_NOCHAIN false.

(** A column that is NULL is cleared. *)
Definition crl_sns (l : crl_row) : list (list Z) :=
  match l_snlist l with
  | Some sns => sns
  | None => replicate (Z.to_nat (l_snlen l)) (replicate SER_NUM_MAX_SZ 0)
  end.
Definition crl_has (sn : list Z) (l : crl_row) : bool :=
  existsb (fun x => bool_decide (x = sn)) (take (Z.to_nat (l_snlen l)) (crl_sns l)).

(** A failed search finds nothing. *)
Definition cert_revoked (sn : list Z) (issuer : string) : M Z :=
  if negb (length sn =? SER_NUM_MAX_SZ)%nat then est_ret ERR_SCM_INVALARG
  else
    let* ok := statementscm sql_ok in
    if negb ok then est_ret 0
    else
      let* t := est_gets tabs in
      let rows := List.filter (revoking_crl issuer) (crls t) in
      if existsb (fun l => Z.of_nat (length (crl_sns l)) <? l_snlen l) rows
      then est_exit DbUndefined
      else est_ret (if existsb (crl_has sn) rows then ERR_SCM_REVOKED else 0).

(** [X509_CRL_verify] of the CRL with the parent's key is an argument. *)
Definition verify_crl (crl_verify : X509 -> Z) (parentSKI : string) (parentSubject : option string) : M (Z * bool) :=
  let* p := parent_cert parentSKI parentSubject in
  match p with
  | Some (_, Some parent) => est_ret (if crl_verify parent <=? 0 then ERR_SCM_NOTVALID else 0, true)
  | _ => est_ret (0, false)
  end.

(** ** ROAs *)

(** The file's content, decoded if it is PEM; only whether there is any is used. *)
Definition readfile (fn : string) : option (bool * Z) :=
  if String.eqb fn EmptyString then Some (false, ERR_SCM_INVALARG)
  else match file_bytes E fn with
  | None | Some [] => Some (false, ERR_SCM_COFILE)
  | Some bytes =>
      match String.index 0 ".pem" fn with
      | None => Some (true, 0)
      | Some _ =>
          r ← decode_b64 (b64_mem E) bytes (text "CERTIFICATE");
          Some (match r with inl sta => (false, sta) | inr _ => (true, 0) end)
      end
  end.

Context (sha1 sha256 : list Z -> option (list Z)) (check_sig : CMS -> Certificate -> Z)
  (malloc : nat -> nat -> bool).

Definition or_undefined {A} (o : option A) : M A :=
  match o with Some a => est_ret a | None => est_exit DbUndefined end.

Definition verify_roa (r : CMS) (ski : string) : M (Z * bool) :=
  let* sta := get_roa_sigval ski in
  if sta =? SIGVAL_VALID then est_ret (0, true)
  else
    let* sta := or_undefined (roaValidate sha1 sha256 check_sig malloc r) in
    if sta <? 0 then est_ret (sta, false)
    else
      let* p := parent_cert ski None in
      match p with
      | Some (c, Some _) =>
          let* f := or_undefined (readfile (path_of (c_dir c) (c_file c))) in
          let '(blob, sta) := f in
          let* sta := (if blob : bool then or_undefined (roaValidate2 check_sig r) else est_ret sta) in
          let* sta := (if 0 <=? sta then set_roa_sigval ski SIGVAL_VALID else est_ret sta) in
          est_ret (if sta <? 0 then sta else 0, true)
      | _ => est_ret (0, false)
      end.
End verify.
