(* ===== verification/RpkiVerifyThm.v ===== *)
(** * Verification against the database: theorems *)

From stdpp Require Import strings.
From S2P Require Import Prelude Sql CasnTime CasnNum RpkiObject CmsValidate RoaValidate RoaValidate2 RpkiDb RpkiDbFacts RpkiVerify.

Local Open Scope est_scope.

Section sound.
Context (sql_ok : nat -> bool) (in_order : forall A, list A -> list A).
Context (Horder : forall A (l : list A), in_order A l ≡ₚ l).
Context {X509 : Type} (E : env X509) (useParacerts : bool).

(** ** Runs *)

Lemma est_bind_run {S X A B} (m : ESt S X A) (f : A -> ESt S X B) s s' b :
  est_bind f m s = (s', inr b) -> exists a s1, m s = (s1, inr a) /\ f a s1 = (s', inr b).
Proof. unfold est_bind. destruct (m s) as [s1 [x|a]]; [done|]. eauto. Qed.

Lemma last_found_run {A} (table : tables -> list A) where_ s s' r :
  last_found sql_ok in_order table where_ s = (s', inr r) -> tabs s' = tabs s /\
  forall a, r = Some a -> a ∈ table (tabs s) /\ where_ a = true.
Proof.
  unfold last_found. intros (ok & s1 & E1 & H)%est_bind_run. injection E1 as <- <-.
  destruct (sql_ok _); cbn in H; injection H as <- <-; (split; [done|]); [|done].
  intros a (l & Hl)%last_Some. assert (Hin : a ∈ in_order A (List.filter where_ (table (tabs s)))).
  { rewrite Hl. apply elem_of_app. right. by left. }
  rewrite Horder in Hin. by apply list_elem_of_In, List.filter_In in Hin as [?%list_elem_of_In ?].
Qed.

(** ** Names and recorded results *)

Definition name_of (x : X509) : option (string * string) :=
  match X509_to_subject E x, X509_to_ski E x with
  | Some subj, Some ski => Some (subj, ski)
  | _, _ => None
  end.

Definition recorded (t : tables) (subj ski : string) : Prop :=
  exists c, c ∈ certs t /\ cert_named subj ski c = true /\ c_sigval c = SIGVAL_VALID.

(** What the tables record as valid was so before, or has a name in [N]. *)
Definition rec_ok (t0 : tables) (N : list (string * string)) (t : tables) : Prop :=
  forall subj ski, recorded t subj ski -> recorded t0 subj ski \/ (subj, ski) ∈ N.

Lemma rec_ok_set t0 N t subj ski : rec_ok t0 N t ->
  rec_ok t0 ((subj, ski) :: N)
    (set_certs (map (fun c => if cert_named subj ski c then set_c_sigval SIGVAL_VALID c else c) (certs t)) t).
Proof.
  intros H subj' ski' (c' & Hc & Hn & Hv). cbn in Hc. apply list_elem_of_fmap in Hc as (c & -> & Hc).
  destruct (cert_named subj ski c) eqn:Ec.
  - right. apply elem_of_cons. left. unfold cert_named in *. apply andb_true_iff in Ec as [E1%String.eqb_eq E2], Hn as [E3%String.eqb_eq E4].
    cbn in E3, E4. destruct (c_subject c); [|done]. cbn in E2, E4. apply String.eqb_eq in E2, E4. by simplify_eq.
  - destruct (H subj' ski') as [?|?]; [by exists c|by left|right; by right].
Qed.

(** The check of one link succeeded because the signature is good, or because a
    certificate of that name is recorded as valid. *)
Definition vouched (t0 : tables) (N : list (string * string)) (xs xi : X509) : Prop :=
  0 < X509_verify E xs xi \/
  exists subj ski name, name_of xs = Some (subj, ski) /\ literal E subj = Some name /\
    (recorded t0 name ski \/ (name, ski) ∈ N).

(** The names of certificates whose check with the certificate above it gave
    anything but "bad". *)
Definition checked_names (links : list (X509 * X509)) : list (string * string) :=
  omap (fun '(xs, xi) => if X509_verify E xs xi =? 0 then None else name_of xs) links.

Lemma get_sigval_run subj ski s s' v : get_cert_sigval sql_ok in_order E subj ski s = (s', inr v) ->
  tabs s' = tabs s /\ (v = SIGVAL_VALID -> exists name, literal E subj = Some name /\ recorded (tabs s) name ski).
Proof.
  unfold get_cert_sigval. destruct (literal E subj) as [name|]; intros (r & s1 & E1 & H)%est_bind_run.
  - apply last_found_run in E1 as [Ht Hr]. injection H as <- <-. split; [done|]. intros Hv.
    destruct r as [c|]; [|done]. destruct (Hr c eq_refl) as [Hin Hw]. exists name. split; [done|]. exists c.
    split; [done|]. split; [done|]. unfold sigval_of in Hv. by destruct (_ || _).
  - injection E1 as <- <-. by injection H as <- <-.
Qed.

Lemma local_verify_run t0 N xs xi s s' v : rec_ok t0 N (tabs s) ->
  local_verify sql_ok in_order E xs xi s = (s', inr v) ->
  rec_ok t0 (checked_names [(xs, xi)] ++ N) (tabs s') /\ (0 < v -> vouched t0 N xs xi).
Proof.
  intros HN. unfold local_verify. intros (v1 & s1 & E1 & H)%est_bind_run.
  assert (Hs1 : tabs s1 = tabs s /\ (v1 = SIGVAL_VALID -> vouched t0 N xs xi)).
  { destruct (X509_to_subject E xs) as [subj|] eqn:Es; [|by injection E1 as <- <-].
    destruct (X509_to_ski E xs) as [ski|] eqn:Ek; [|by injection E1 as <- <-].
    apply get_sigval_run in E1 as [Ht Hv]. split; [done|]. intros Hval. right.
    destruct (Hv Hval) as (name & Hl & Hr). exists subj, ski, name. unfold name_of. rewrite Es, Ek.
    split; [done|]. split; [done|]. by apply HN. }
  destruct Hs1 as [Ht Hval].
  assert (Hweak : rec_ok t0 (checked_names [(xs, xi)] ++ N) (tabs s)).
  { intros a b Hab. destruct (HN a b Hab) as [?|?]; [by left|right]. apply elem_of_app. by right. }
  destruct (v1 =? SIGVAL_VALID) eqn:Ev1.
  { injection H as <- <-. rewrite Ht. split; [done|]. intros _. by apply Hval, Z.eqb_eq. }
  destruct (v1 =? SIGVAL_INVALID); [injection H as <- <-; by rewrite Ht|].
  apply est_bind_run in H as (u & s2 & E2 & H). injection H as <- <-.
  destruct (X509_verify E xs xi =? 0) eqn:Ez; cbn [negb] in E2.
  { injection E2 as <- <-. rewrite Ht. split; [done|]. apply Z.eqb_eq in Ez. lia. }
  destruct (X509_to_subject E xs) as [subj|] eqn:Es; [|done].
  destruct (X509_to_ski E xs) as [ski|] eqn:Ek; [|done].
  apply est_bind_run in E2 as (u' & s3 & E3 & H). injection H as <- <-. split; [|by left].
  unfold checked_names. cbn. rewrite Ez. unfold name_of. rewrite Es, Ek. cbn.
  unfold set_cert_sigval, statementscm_no_data in E3. apply est_bind_run in E3 as (ok & s4 & E4 & H). injection E4 as <- <-.
  destruct (sql_ok _); cbn in H; injection H as <- _; cbn.
  - rewrite Ht. by apply rec_ok_set.
  - rewrite Ht. unfold checked_names in Hweak. cbn in Hweak. rewrite Ez in Hweak. unfold name_of in Hweak.
    by rewrite Es, Ek in Hweak.
Qed.

(** The links that [our_verify] checks: subject and issuer. *)
Fixpoint down_links (xi : X509) (l : list X509) : list (X509 * X509) :=
  match l with [] => [] | x :: l => (x, xi) :: down_links x l end.
Definition chain_links (chain : list X509) : list (X509 * X509) :=
  match rev chain with
  | [] => []
  | top :: below => down_links top (if check_issued E top top then top :: below else below)
  end.

Definition all_vouched (t : tables) (N : list (string * string)) (links : list (X509 * X509)) : Prop :=
  Forall (fun '(xs, xi) => vouched t N xs xi) links.

Lemma vouched_mono t0 N N' xs xi : (forall n, n ∈ N -> n ∈ N') -> vouched t0 N xs xi -> vouched t0 N' xs xi.
Proof. intros H [?|(a & b & c & ? & ? & [?|?])]; [by left|right; exists a, b, c; auto..]. Qed.

Lemma verify_down_run t0 l : forall N xi s s', rec_ok t0 N (tabs s) ->
  verify_down sql_ok in_order E xi l s = (s', inr true) ->
  all_vouched t0 (checked_names (down_links xi l) ++ N) (down_links xi l).
Proof.
  induction l as [|x l IH]; intros N xi s s' HN H; [constructor|]. cbn [verify_down] in H.
  destruct (has_pubkey E xi); [|done]. cbn [negb] in H. apply est_bind_run in H as (v & s1 & E1 & H).
  destruct (local_verify_run t0 N x xi s s1 v HN E1) as [HN1 Hv].
  destruct (Z.leb_spec v 0) as [Hle|Hlt]; [done|]. cbn [down_links].
  assert (Eapp : checked_names ((x, xi) :: down_links x l) = checked_names [(x, xi)] ++ checked_names (down_links x l)).
  { unfold checked_names. by rewrite <- omap_app. }
  rewrite Eapp. constructor.
  - eapply vouched_mono; [|by apply Hv]. intros n Hn. apply elem_of_app. by right.
  - specialize (IH _ _ _ _ HN1 H). eapply Forall_impl; [exact IH|]. intros [a b]. apply vouched_mono.
    intros n. rewrite !elem_of_app. tauto.
Qed.

Lemma checkit_run x uchain tchain s s' : checkit sql_ok in_order E x uchain tchain s = (s', inr 0) ->
  exists chain, build_chain E x uchain tchain = Some chain /\ chain_checks E chain = true /\
    all_vouched (tabs s) (checked_names (chain_links chain)) (chain_links chain).
Proof.
  unfold checkit. destruct (build_chain E x uchain tchain) as [chain|]; [|done].
  intros (ok & s1 & E1 & H)%est_bind_run. injection H as _ H. destruct ok; [|done]. cbn [andb] in H.
  destruct (chain_checks E chain) eqn:Ec; [|done]. exists chain. split; [done|]. split; [done|].
  unfold our_verify, chain_links in *. destruct (rev chain) as [|top below]; [done|].
  assert (H0 : rec_ok (tabs s) [] (tabs s)) by (intros ? ? ?; by left).
  destruct (check_issued E top top).
  - pose proof (verify_down_run (tabs s) _ [] _ _ _ H0 E1) as HA. by rewrite app_nil_r in HA.
  - destruct (length below =? 0)%nat; [done|].
    pose proof (verify_down_run (tabs s) _ [] _ _ _ H0 E1) as HA. by rewrite app_nil_r in HA.
Qed.

(** ** Paths up to a trust anchor *)

(** A validated, unmarked certificate with that key and name. *)
Definition holds (ski : string) (subject : option string) (c : cert_row) : Prop :=
  c_ski c = ski /\ (forall name, subject = Some name -> c_subject c = Some name) /\
  validated (c_flags c) = true /\ nochain (c_flags c) = false.

Lemma parent_where_holds ski subject c : parent_where ski subject c = true -> holds ski subject c.
Proof.
  unfold parent_where, holds. rewrite validated_test, nochain_test, !andb_true_iff.
  intros [[[H1%String.eqb_eq H2] H3%Bool.eqb_prop] H4%Bool.eqb_prop]. split; [done|]. split; [|done].
  intros name ->. unfold is_str in H2. destruct (c_subject c); [|done]. by apply String.eqb_eq in H2 as ->.
Qed.

Inductive anchored (t : tables) : string -> option string -> list cert_row -> Prop :=
  | anchored_top ski subject c : c ∈ certs t -> holds ski subject c ->
      Z.testbit (c_flags c) 1 = true -> anchored t ski subject [c]
  | anchored_up ski subject c rows : c ∈ certs t -> holds ski subject c ->
      anchored t (fetched (c_aki c)) (Some (c_issuer c)) rows -> anchored t ski subject (c :: rows).

Lemma trusted_bit c : has_flag c SCM_FLAG_TRUSTED = true -> Z.testbit (c_flags c) 1 = true.
Proof.
  unfold has_flag. intros H%negb_true_iff%Z.eqb_neq. apply not_false_iff_true. intros Hb. apply H.
  apply Z.bits_inj. intros k. rewrite Z.land_spec, Z.bits_0. destruct (Z.eq_dec k 1) as [->|Hk]; [by rewrite Hb|].
  change SCM_FLAG_TRUSTED with (2 ^ 1). by rewrite Z.pow2_bits_false, andb_false_r.
Qed.

Definition row_cert (c : cert_row) (x : X509) : Prop :=
  readCertFromFile E (path_of (c_dir c) (c_file c)) = (Some x, 0).

Lemma choose_in cols l c : choose_parent useParacerts cols l = Some c -> c ∈ l.
Proof.
  destruct l as [|c0 [|c1 [|? ?]]]; cbn; try done.
  - destruct (has_flag _ _); [done|]. intros [= ->]. left.
  - destruct (negb _); [done|]. destruct cols; try done. intros [= <-]. destruct (_ || _); [left|right; left].
Qed.

Lemma parent_cert_run ski subject s s' r : parent_cert sql_ok in_order E useParacerts ski subject s = (s', inr r) ->
  tabs s' = tabs s /\ forall c x, r = Some (c, Some x) ->
    c ∈ certs (tabs s) /\ holds ski subject c /\ row_cert c x.
Proof.
  unfold parent_cert, find_parent_cert. intros (l & s1 & E1 & H)%est_bind_run.
  apply est_bind_run in E1 as (u & s0 & E0 & E1). injection E0 as <- <-.
  apply est_bind_run in E1 as (ok & s2 & E2 & E1). injection E2 as <- <-.
  assert (Hl : tabs s1 = tabs s /\ forall c, c ∈ l -> c ∈ certs (tabs s) /\ parent_where ski subject c = true).
  { destruct (sql_ok _); cbn in E1; injection E1 as <- <-; (split; [done|]).
    - intros c Hc. rewrite Horder in Hc. by apply list_elem_of_In, List.filter_In in Hc as [?%list_elem_of_In ?].
    - by intros c ?%not_elem_of_nil. }
  destruct Hl as [Ht Hl]. cbn in H. injection H as <- <-. split; [done|]. intros c x Hr.
  destruct (choose_parent _ _ _) as [c0|] eqn:Ec; [|done]. injection Hr as <- Hx.
  destruct (Hl c0 (choose_in _ _ _ Ec)) as [? ?]. split; [done|]. split; [by apply parent_where_holds|]. unfold row_cert.
  unfold readCertFromFile in *. destruct (file_bytes E _); [|done]. destruct (d2i_X509 E _ _); [|done]. cbn in Hx. congruence.
Qed.

Lemma parents_run fuel : forall ski subject acc s s' uchain anchor,
  parents sql_ok in_order E useParacerts fuel ski subject acc s = (s', inr (Some (uchain, anchor))) ->
  tabs s' = tabs s /\ exists rows xs, uchain = acc ++ xs /\ anchored (tabs s) ski subject rows /\
    Forall2 row_cert rows (xs ++ [anchor]).
Proof.
  induction fuel as [|fuel IH]; intros ski subject acc s s' uchain anchor H; [done|]. cbn [parents] in H.
  apply est_bind_run in H as (p & s1 & E1 & H). apply parent_cert_run in E1 as [Ht Hp].
  destruct p as [[c [x|]]|]; [|done..]. destruct (Hp c x eq_refl) as (Hc & Hw & Hx).
  destruct (has_flag c SCM_FLAG_TRUSTED) eqn:Etr.
  - injection H as <- <- <-. split; [done|]. exists [c], []. rewrite app_nil_r. split; [done|].
    split; [constructor; by try apply trusted_bit|]. by repeat constructor.
  - apply est_bind_run in H as (cols & s2 & E2 & H). injection E2 as <- <-. destruct (srch_cols s1); try done.
    apply IH in H as (Ht' & rows & xs & -> & Ha & HF). rewrite Ht in *. split; [done|].
    exists (c :: rows), (x :: xs). rewrite <- app_assoc. split; [done|]. split; [by constructor|]. by constructor.
Qed.
(** ** Paths that end before a trust anchor *)

Lemma parent_where_iff ski subject c : parent_where ski subject c = true <-> holds ski subject c.
Proof.
  split; [apply parent_where_holds|]. intros (<- & Hs & Hv & Hn). unfold parent_where.
  rewrite validated_test, nochain_test, Hv, Hn, String.eqb_refl. destruct subject as [name|]; [|done].
  rewrite (Hs name eq_refl). cbn. by rewrite String.eqb_refl.
Qed.

(** The parent for a key and name: the only certificate that holds them, unless it
    is a target or has a paracertificate; or, of two with no flag of these in common,
    the one that is, or is not, a paracertificate as the option says (the second that
    the server lists, if neither is). The latter needs [two], the columns that the
    first search sets up. *)
Inductive parent_of (two : Prop) (t : tables) (ski : string) (subject : option string) : cert_row -> Prop :=
  | parent_only c l : certs t ≡ₚ c :: l -> holds ski subject c -> Forall (fun o => ~ holds ski subject o) l ->
      has_flag c (Z.lor SCM_FLAG_ISTARGET SCM_FLAG_HASPARACERT) = false -> parent_of two t ski subject c
  | parent_of_two c o l : certs t ≡ₚ c :: o :: l -> holds ski subject c -> holds ski subject o ->
      Forall (fun o => ~ holds ski subject o) l ->
      Z.land (Z.land (c_flags c) PARA_FLAGS) (Z.land (c_flags o) PARA_FLAGS) = 0 -> two ->
      has_flag c SCM_FLAG_ISPARACERT = useParacerts \/ has_flag o SCM_FLAG_ISPARACERT <> useParacerts ->
      parent_of two t ski subject c.

(** Following the parents, one is missing or its file cannot be read before a
    trust anchor is reached. *)
Inductive chainless (two : Prop) (t : tables) : string -> option string -> Prop :=
  | chainless_none ski subject : (forall c, ~ parent_of two t ski subject c) -> chainless two t ski subject
  | chainless_file ski subject c : parent_of two t ski subject c -> (forall x, ~ row_cert c x) -> chainless two t ski subject
  | chainless_up ski subject c x : parent_of two t ski subject c -> row_cert c x -> Z.testbit (c_flags c) 1 = false ->
      chainless two t (fetched (c_aki c)) (Some (c_issuer c)) -> chainless two t ski subject.

Lemma filter_split {A} (p : A -> bool) l : l ≡ₚ List.filter p l ++ List.filter (fun x => negb (p x)) l.
Proof.
  induction l as [|x l IH]; [done|]. cbn. destruct (p x); cbn; [by rewrite <- IH|].
  rewrite <- Permutation_middle. by rewrite <- IH.
Qed.

Lemma filter_perm {A} (p : A -> bool) l l' : l ≡ₚ l' -> List.filter p l ≡ₚ List.filter p l'.
Proof.
  induction 1 as [|x l l' _ IH|x y l|l l' l'' _ IH1 _ IH2]; cbn; [done|by destruct (p x); rewrite IH| |by rewrite IH1].
  destruct (p x), (p y); try done. by apply Permutation_swap.
Qed.

Section choice.
Context (t : tables) (ski : string) (subject : option string).
Notation found := (in_order _ (List.filter (parent_where ski subject) (certs t))).
Notation others := (List.filter (fun c => negb (parent_where ski subject c)) (certs t)).

Lemma found_split : certs t ≡ₚ found ++ others.
Proof. rewrite Horder. apply filter_split. Qed.

Lemma others_do_not : Forall (fun o => ~ holds ski subject o) others.
Proof.
  apply Forall_forall. intros c [_ Hc]%list_elem_of_In%List.filter_In H%parent_where_iff. by rewrite H in Hc.
Qed.

Lemma found_holds c : c ∈ found -> holds ski subject c.
Proof. rewrite Horder. by intros [_ H%parent_where_iff]%list_elem_of_In%List.filter_In. Qed.

(** The rows that hold the key and name, found again by the search. *)
Lemma found_of k l : certs t ≡ₚ k ++ l -> Forall (holds ski subject) k -> Forall (fun o => ~ holds ski subject o) l -> found ≡ₚ k.
Proof.
  intros Hp Hk Hl. rewrite Horder, (filter_perm _ _ _ Hp), List.filter_app.
  assert (List.filter (parent_where ski subject) l = []) as ->.
  { clear Hp. induction Hl as [|o l Ho _ IH]; [done|]. cbn [List.filter]. destruct (parent_where ski subject o) eqn:Eo; [|done].
    by apply parent_where_iff in Eo. }
  rewrite app_nil_r. clear Hp. induction Hk as [|c k Hc _ IH]; [done|]. cbn [List.filter].
  rewrite (proj2 (parent_where_iff ski subject c) Hc). by rewrite IH.
Qed.

Lemma choose_parent_of (two : Prop) cols : cols <> SrchNone -> (two <-> cols = SrchParent) ->
  (forall c, choose_parent useParacerts cols found = Some c -> parent_of two t ski subject c) /\
  (choose_parent useParacerts cols found = None -> forall c, ~ parent_of two t ski subject c).
Proof.
  intros Hcols Htwo. split.
  - pose proof found_split as Hs. pose proof found_holds as Hh. pose proof others_do_not as Ho.
    intros c. destruct found as [|c0 [|c1 [|? ?]]]; cbn [choose_parent]; try done; cbn [app] in Hs.
    + destruct (has_flag c0 _) eqn:Ef; [done|]. intros [= ->]. eapply parent_only; [done| |done..]. apply Hh. left.
    + destruct (Z.eqb_spec (Z.land (Z.land (c_flags c0) PARA_FLAGS) (Z.land (c_flags c1) PARA_FLAGS)) 0) as [Ef|]; [|done].
      cbn [negb]. destruct cols; try done. intros [= <-].
      assert (H0 : holds ski subject c0) by (apply Hh; left). assert (H1 : holds ski subject c1) by (apply Hh; right; left).
      assert (Ht : two) by (by apply Htwo).
      destruct (_ || _) eqn:Ep.
      * eapply (parent_of_two _ _ _ _ c0 c1); [done..|]. left. by destruct useParacerts, (has_flag c0 SCM_FLAG_ISPARACERT).
      * eapply (parent_of_two _ _ _ _ c1 c0); [by rewrite Permutation_swap|done|done|done|by rewrite Z.land_comm|done|].
        right. by destruct useParacerts, (has_flag c0 SCM_FLAG_ISPARACERT).
  - intros Hn c Hc. destruct Hc as [c l Hp Hc Hl Hf|c o l Hp Hc Ho Hl Hf Ht Hu].
    + assert (Hk : found ≡ₚ [c]) by (apply (found_of [c] l); [done|by rewrite Forall_singleton|done]).
      apply Permutation_singleton_r in Hk. rewrite Hk in Hn. cbn in Hn. by rewrite Hf in Hn.
    + assert (Hk : found ≡ₚ [c; o]) by (apply (found_of [c; o] l); [done|by rewrite Forall_cons, Forall_singleton|done]).
      apply Htwo in Ht as ->.
      apply Permutation_sym, Permutation_length_2_inv in Hk as [Hk|Hk]; rewrite Hk in Hn; cbn in Hn.
      * by rewrite Hf in Hn.
      * by rewrite Z.land_comm, Hf in Hn.
Qed.
End choice.

Lemma parents_none fuel (two : Prop) : (forall n, sql_ok n = true) -> forall ski subject acc s s',
  (two <-> srch_cols s <> SrchAKI) ->
  parents sql_ok in_order E useParacerts fuel ski subject acc s = (s', inr None) ->
  chainless two (tabs s) ski subject.
Proof.
  intros Hsql. induction fuel as [|fuel IH]; intros ski subject acc s s' Htwo H; [done|]. cbn [parents] in H.
  set (cols := match srch_cols s with SrchNone => SrchParent | c => c end).
  assert (Hcols : cols <> SrchNone) by (subst cols; by destruct (srch_cols s)).
  assert (Ht : two <-> cols = SrchParent).
  { rewrite Htwo. subst cols. by destruct (srch_cols s). }
  destruct (choose_parent_of (tabs s) ski subject two cols Hcols Ht) as [Hsome Hnone].
  unfold parent_cert, find_parent_cert in H. unfold est_bind in H at 1 2 3 4 5. cbn in H. rewrite Hsql in H. cbn in H.
  fold cols in H. destruct (choose_parent _ _ _) as [c|] eqn:Ec.
  2: { apply chainless_none. by apply Hnone. }
  specialize (Hsome c eq_refl). destruct (readCertFromFile E (path_of (c_dir c) (c_file c))) as [[x|] v] eqn:Er; cbn in H.
  2: { eapply chainless_file; [done|]. intros x Hx. unfold row_cert in Hx. congruence. }
  assert (Hx : row_cert c x).
  { unfold row_cert. rewrite Er. unfold readCertFromFile in Er. destruct (file_bytes E _); [|done].
    destruct (d2i_X509 E _ _); [|done]. congruence. }
  destruct (has_flag c SCM_FLAG_TRUSTED) eqn:Etr; [done|]. unfold est_bind, est_gets in H. cbn in H.
  destruct cols eqn:Eco; try done. eapply chainless_up; [done..| |].
  - apply not_true_iff_false. intros Hb. apply not_true_iff_false in Etr. apply Etr. unfold has_flag.
    apply negb_true_iff, Z.eqb_neq. intros Hz. assert (Z.testbit (Z.land (c_flags c) SCM_FLAG_TRUSTED) 1 = false) as Hf by (by rewrite Hz).
    rewrite Z.land_spec, Hb in Hf. done.
  - eapply IH in H; [exact H|]. cbn. rewrite Ht. done.
Qed.
End sound.

(** When [verify_cert] finds a certificate that is not a trust anchor itself to
    be valid with its chain, the database has a path of validated, unmarked
    certificates from it to a trusted one, each the holder of the key and name
    below it, and OpenSSL built a chain from their files that passed its checks;
    each signature of that chain is good, or recorded as good for that subject and
    key, or another certificate of the chain with that subject and key was not
    found to be bad. *)
Lemma verify_cert_sound sql_ok in_order {X509} (E : env X509) useParacerts fuel x ski subject s s' :
  (forall A (l : list A), in_order A l ≡ₚ l) ->
  verify_cert sql_ok in_order E useParacerts fuel x false ski subject s = (s', inr (0, true)) ->
  exists rows xs anchor chain, anchored (tabs s) ski subject rows /\ Forall2 (row_cert E) rows (xs ++ [anchor]) /\
    build_chain E x xs [anchor] = Some chain /\ chain_checks E chain = true /\
    all_vouched E (tabs s) (checked_names E (chain_links E chain)) (chain_links E chain).
Proof.
  intros Horder. unfold verify_cert. intros (up & s1 & E1 & H)%est_bind_run.
  destruct up as [[uchain anchor]|]; [|done]. apply est_bind_run in H as (sta & s2 & E2 & H). injection H as <- ->.
  apply (parents_run sql_ok in_order Horder) in E1 as (Ht & rows & xs & -> & Ha & HF). cbn [app] in E2.
  apply (checkit_run sql_ok in_order Horder) in E2 as (chain & Hb & Hc & Hv). rewrite Ht in Hv.
  by exists rows, xs, anchor, chain.
Qed.

(** [verify_roa] looks first whether a ROA with the same key identifier is
    recorded as valid. If so it accepts the ROA it is given, whatever that is,
    without any check: no signature is verified and no resource compared. *)
Lemma verify_roa_recorded sql_ok in_order {X509} (E : env X509) useParacerts sha1 sha256 check_sig malloc r ski s :
  (forall A (l : list A), in_order A l ≡ₚ l) -> sql_ok (sql_count s) = true ->
  (exists o, o ∈ roas (tabs s) /\ o_ski o = ski) ->
  (forall o, o ∈ roas (tabs s) -> o_ski o = ski -> rd_sigval (o_data o) = SIGVAL_VALID) ->
  exists s', verify_roa sql_ok in_order E useParacerts sha1 sha256 check_sig malloc r ski s = (s', inr (0, true)) /\
    tabs s' = tabs s.
Proof.
  intros Horder Hsql (o & Ho & Hski) Hall. unfold verify_roa, get_roa_sigval, last_found, est_bind, statementscm.
  rewrite Hsql. cbn -[List.filter]. set (l := in_order _ _).
  assert (Hl : forall x, x ∈ l <-> x ∈ roas (tabs s) /\ o_ski x = ski).
  { intros x. unfold l. rewrite Horder, list_elem_of_In, List.filter_In, String.eqb_eq, <- list_elem_of_In. done. }
  destruct (last l) as [x|] eqn:El.
  - apply last_Some in El as [l' El]. assert (Hx : x ∈ l) by (rewrite El; apply elem_of_app; right; by left).
    apply Hl in Hx as [Hx Hk]. rewrite (Hall x Hx Hk). cbn. eauto.
  - apply last_None in El. assert (Hx : o ∈ l) by (by apply Hl). rewrite El in Hx. by apply not_elem_of_nil in Hx.
Qed.

(** ** Examples *)

Definition v_row (id : Z) (file issuer ski aki subject : string) (flags : Z) : cert_row :=
  mkCert id file "d" (Some subject) issuer [id] flags ski (Some aki) file 0 100 0 None.
Definition v_ta : cert_row := v_row 1 "ta.cer" "ta" "kt" "kt" "ta" (Z.lor SCM_FLAG_VALIDATED SCM_FLAG_TRUSTED).
Definition v_a : cert_row := v_row 2 "a.cer" "ta" "ka" "kt" "a" SCM_FLAG_VALIDATED.
Definition v_tables : tables := mkTables [v_ta; v_a] [] [] [] [] [] [] None.

(** Certificates are numbers, found in files of one byte. *)
Definition v_env : env Z :=
  {| file_bytes := fun f => if String.eqb f "d/ta.cer" then Some [1] else if String.eqb f "d/a.cer" then Some [2] else None;
     d2i_X509 := fun _ b => head b;
     X509_to_subject := fun x => if x =? 1 then Some "ta"%string else if x =? 2 then Some "a"%string else Some "e"%string;
     X509_to_ski := fun x => if x =? 1 then Some "kt"%string else if x =? 2 then Some "ka"%string else Some "ke"%string;
     has_pubkey := fun _ => true;
     X509_verify := fun x y => if (x =? y + 1) || ((x =? 1) && (y =? 1)) then 1 else 0;
     check_issued := fun x y => (x =? 1) && (y =? 1);
     build_chain := fun x un tr => Some (x :: un ++ tr);
     chain_checks := fun _ => true;
     literal := Some;
     b64_mem := fun _ => true |}.

Lemma verify_cert_sound_witness :
  exists rows xs anchor chain, anchored v_tables "ka" (Some "a"%string) rows /\
    Forall2 (row_cert v_env) rows (xs ++ [anchor]) /\
    build_chain v_env 3 xs [anchor] = Some chain /\ chain_checks v_env chain = true /\
    all_vouched v_env v_tables (checked_names v_env (chain_links v_env chain)) (chain_links v_env chain).
Proof.
  eapply (verify_cert_sound (fun _ => true) (fun _ l => l) v_env false 5 3 "ka" (Some "a"%string)
    (mkDbst v_tables 0 0 SrchNone)); [done|]. vm_compute. reflexivity.
Qed.

(** Two certificates that name each other as issuer: the loop of [verify_cert]
    goes round them without end. The second row for "a" was issued by "b", which is
    below "a"; the server may return it first. *)
Definition v_b : cert_row := v_row 3 "b.cer" "a" "kb" "ka" "b" SCM_FLAG_VALIDATED.
Definition v_a' : cert_row := v_row 4 "a2.cer" "b" "ka" "kb" "a" SCM_FLAG_VALIDATED.
Definition v_cycle : tables := mkTables [v_a'; v_ta; v_a; v_b] [] [] [] [] [] [] None.
Definition c_env : env Z :=
  {| file_bytes := fun f => Some [1]; d2i_X509 := fun _ b => head b;
     X509_to_subject := X509_to_subject v_env; X509_to_ski := X509_to_ski v_env;
     has_pubkey := has_pubkey v_env; X509_verify := X509_verify v_env; check_issued := check_issued v_env;
     build_chain := build_chain v_env; chain_checks := chain_checks v_env; literal := literal v_env;
     b64_mem := b64_mem v_env |}.

Lemma cycle_loops fuel : forall s acc, tabs s = v_cycle -> srch_cols s <> SrchAKI ->
  snd (parents (fun _ => true) (fun _ l => l) c_env false fuel "ka" (Some "a"%string) acc s) = inl DbFuel /\
  snd (parents (fun _ => true) (fun _ l => l) c_env false fuel "kb" (Some "b"%string) acc s) = inl DbFuel.
Proof.
  induction fuel as [|fuel IH]; intros s acc Ht Hc; [done|]. destruct s as [t n k cols]. cbn in Ht. subst t.
  destruct cols; [| |done]; (split; cbn [parents]; unfold est_bind; cbn -[parents]; apply IH; done).
Qed.

(** An empty message, which [roaValidate] rejects, passes as a ROA for the key of
    one that has been validated. *)
Definition no_num : casn_num := {| num_ty := ASN_INTEGER; num_optional := false; num_default := false; num_content := None |}.
Definition v_bogus : CMS :=
  {| sd_version := no_num; digestAlgorithms := []; eContentType := []; eContent_bytes := []; econtent := EOther;
     certificates := []; has_crls := false; signerInfos := [] |}.
Definition v_roas : tables :=
  mkTables [] [] [mkObj 1 "r.roa" "d" "k" SCM_FLAG_VALIDATED (mkRoaData 64512 "s" SIGVAL_VALID) None] [] [] [] [] None.

Lemma verify_roa_recorded_witness :
  (exists e, roaValidate Some Some (fun _ _ => -1) (fun _ _ => true) v_bogus = Some e /\ e < 0) /\
  exists s', verify_roa (fun _ => true) (fun _ l => l) v_env false Some Some (fun _ _ => -1) (fun _ _ => true) v_bogus "k"
      (mkDbst v_roas 0 0 SrchNone) = (s', inr (0, true)) /\ tabs s' = v_roas.
Proof.
  split; [eexists; split; [vm_compute; reflexivity|done]|].
  apply (verify_roa_recorded (fun _ => true) (fun _ l => l) v_env false Some Some (fun _ _ => -1) (fun _ _ => true)
    v_bogus "k" (mkDbst v_roas 0 0 SrchNone)); [done|done| |].
  - eexists. split; [left|done].
  - intros o Ho _. apply list_elem_of_singleton in Ho as ->. done.
Qed.
