(* ===== verification/RpkiAdd.v ===== *)
(** * Adding objects to the database ([src/lib/rpki/sqhl.c], [src/lib/rpki/sqcon.c])

    The inserts of certificates, CRLs and ROAs. A row's directory is its name (the
    table of directories numbers them). Columns that nothing of this development
    reads are left out. *)

From stdpp Require Import strings.
From S2P Require Import Prelude Sql RpkiObject RoaValidate RpkiDb RpkiVerify.

Local Open Scope est_scope.

Definition ERR_SCM_INTERNAL : Z := -15.
Definition ERR_SCM_INVALCOL : Z := -5.

(** Decimal digits of a number below [10 ^ fuel]. *)
Fixpoint dec_len (fuel : nat) (n : Z) : nat :=
  match fuel with
  | O => 0
  | S fuel => if n <? 10 then 1 else S (dec_len fuel (n / 10))
  end.

(** The length of what [hexify] returns, without its prefix. *)
Definition hexify_len (bytelen : Z) : nat := if bytelen =? 0 then 1 else Z.to_nat (2 * bytelen).

Section add.
Context (sql_ok : nat -> bool) (in_order : forall A, list A -> list A) (esc : string -> string).
Arguments in_order {A}.

(** ** Helpers *)

Definition dupsigscm {A} (table : tables -> list A) (sig_of : A -> string) (msig : string) : M Z :=
  if String.eqb msig EmptyString then est_ret ERR_SCM_INVALARG
  else
    let* sta := searchscm sql_ok (@in_order) table (fun r => String.eqb (sig_of r) msig) (fun _ => est_ret 0) in
    est_ret (if sta =? 0 then ERR_SCM_DUPSIG else if sta =? ERR_SCM_NODATA then 0 else sta).

(** [SELECT MAX(local_id)]; 0 when there are no rows. *)
Definition getmaxidscm {A} (table : tables -> list A) (id_of : A -> Z) : M (Z * Z) :=
  let* ok := statementscm sql_ok in
  if negb ok then est_ret (ERR_SCM_SQL, 0)
  else
    let* t := est_gets tabs in
    est_ret (0, foldr Z.max 0 (map id_of (table t))).

(** An INSERT fails on the server when a unique key is taken: the local id, or
    file name and directory. *)
Definition insertscm (clash : tables -> bool) (f : tables -> tables) : M Z :=
  let* ok := statementscm sql_ok in
  let* t := est_gets tabs in
  if negb ok || clash t then est_ret ERR_SCM_SQL
  else est_modify (fun s => with_tabs (f (tabs s)) s) ;;; est_ret 0.

Definition taken {A} (id_of : A -> Z) (file_of dir_of : A -> string) (l : list A) (r : A) : bool :=
  existsb (fun x => (id_of x =? id_of r) ||
                    (String.eqb (file_of x) (file_of r) && String.eqb (dir_of x) (dir_of r))) l.

(** ** Certificates and CRLs *)

(** [cert_fields] and [crl_fields], as far as they are columns here; [fields] are
    escaped before [insertscm] escapes them again. *)
Definition escape_opt : option string -> option string := option_map esc.

Definition add_cert_internal (cf : cert_row) : M (Z * Z) :=
  let* r := getmaxidscm certs c_id in
  let '(sta, cert_id) := r in
  if sta <? 0 then est_ret (sta, cert_id)
  else
    let cert_id := u32 (cert_id + 1) in
    let* sta := dupsigscm certs c_sig (c_sig cf) in
    if sta <? 0 then est_ret (sta, cert_id)
    else
      let row := mkCert cert_id (esc (c_file cf)) (c_dir cf) (escape_opt (c_subject cf)) (esc (c_issuer cf)) (c_sn cf)
                   (c_flags cf) (esc (c_ski cf)) (escape_opt (c_aki cf)) (esc (c_sig cf)) (c_from cf) (c_to cf)
                   SIGVAL_UNKNOWN None in
      let* sta := insertscm (fun t => taken c_id c_file c_dir (certs t) row)
                    (fun t => set_certs (certs t ++ [row]) t) in
      est_ret (sta, cert_id).

Definition add_crl_internal (cf : crl_row) : M Z :=
  let* sta := dupsigscm crls l_sig (l_sig cf) in
  if sta <? 0 then est_ret sta
  else
    let* r := getmaxidscm crls l_id in
    let '(sta, crl_id) := r in
    if sta <? 0 then est_ret sta
    else
      let row := mkCrl (u32 (crl_id + 1)) (esc (l_file cf)) (l_dir cf) (esc (l_issuer cf)) (escape_opt (l_aki cf))
                   (esc (l_sig cf)) (l_snlen cf) (l_snlen cf) (l_snlist cf) (l_flags cf) None in
      insertscm (fun t => taken l_id l_file l_dir (crls t) row) (fun t => set_crls (crls t ++ [row]) t).

(** ** ROAs *)

Definition multiinsert_len : nat := 32 * 1024.
Definition multiinsert_pre : string :=
  "INSERT INTO rpki_roa_prefix (roa_local_id, prefix, prefix_length, prefix_max_length) VALUES ".

(** The length of [(%u, %s, %u, %u),]. *)
Definition tuple_len (roa_id : Z) (p : roa_prefix) : nat :=
  1 + dec_len 20 roa_id + 2 + (2 + hexify_len (RoaValidate.prefix_family_length p)) + 2 +
  dec_len 20 (RoaValidate.prefix_length p) + 2 + dec_len 20 (RoaValidate.prefix_max_length p) + 2.

Definition prefix_row (roa_id : Z) (p : roa_prefix) : roa_prefix_row :=
  mkRoaPrefix roa_id (take (Z.to_nat (RoaValidate.prefix_family_length p)) (RoaValidate.prefix p))
    (RoaValidate.prefix_length p) (RoaValidate.prefix_max_length p).

Definition insert_prefixes (rows : list roa_prefix_row) : M Z :=
  statementscm_no_data sql_ok (fun t => set_roas (roas t) (roa_prefixes t ++ rows) t).

(** The loop over the prefixes: [idx] is the length of the statement so far (0 when
    none has been started), [batch] its rows, and [mem] says which calls of
    [hexify] can allocate. *)
Fixpoint insert_loop (mem : nat -> bool) (roa_id : Z) (fuel k : nat) (rest : list roa_prefix) (idx : nat)
    (batch : list roa_prefix_row) : M Z :=
  match rest with
  | [] => est_ret 0
  | p :: rest' =>
      match fuel with
      | O => est_exit DbFuel
      | S fuel =>
          let idx := if (idx =? 0)%nat then String.length multiinsert_pre else idx in
          if negb (mem k) then est_ret ERR_SCM_NOMEM
          else
            let n := tuple_len roa_id p in
            if (multiinsert_len - idx <=? n)%nat then
              if (idx =? String.length multiinsert_pre)%nat then est_ret ERR_SCM_INTERNAL
              else
                let* sta := insert_prefixes batch in
                if sta <? 0 then est_ret sta
                else insert_loop mem roa_id fuel (S k) (p :: rest') 0 []
            else
              let batch := batch ++ [prefix_row roa_id p] in
              match rest' with
              | [] =>
                  let* sta := insert_prefixes batch in
                  if sta <? 0 then est_ret sta
                  else insert_loop mem roa_id fuel (S k) rest' 0 []
              | _ :: _ => insert_loop mem roa_id fuel (S k) rest' (idx + n) batch
              end
      end
  end.

Definition same_roa (r o : obj_row roa_data) : bool :=
  String.eqb (o_file o) (o_file r) && String.eqb (o_dir o) (o_dir r) && String.eqb (o_ski o) (o_ski r) &&
  String.eqb (rd_sig (o_data o)) (rd_sig (o_data r)) && (rd_asn (o_data o) =? rd_asn (o_data r)) &&
  (o_flags o =? o_flags r) && (o_id o =? o_id r).

(** [deletescm] on the row; its prefixes go with it. *)
Definition delete_roa (r : obj_row roa_data) (t : tables) : tables :=
  let gone := List.filter (same_roa r) (roas t) in
  set_roas (List.filter (fun o => negb (same_roa r o)) (roas t))
    (List.filter (fun p => negb (existsb (fun o => o_id o =? roa_local_id p) gone)) (roa_prefixes t)) t.

(** After an error the ROA is deleted again. The second delete names a column the
    table of prefixes does not have, so that no statement is sent for it. *)
Definition add_roa_internal (mem0 : bool) (mem : nat -> bool) (outfile dir ski : string) (asid : Z)
    (prefixes : list roa_prefix) (sig : string) (flags : Z) : M Z :=
  if negb mem0 then est_ret ERR_SCM_NOMEM
  else
    let* sta := dupsigscm roas (fun o => rd_sig (o_data o)) sig in
    if sta <? 0 then est_ret sta
    else
      let* r := getmaxidscm roas o_id in
      let '(sta, roa_id) := r in
      if sta <? 0 then est_ret sta
      else
        let roa_id := u32 (roa_id + 1) in
        let row := mkObj roa_id outfile dir ski flags (mkRoaData asid sig SIGVAL_UNKNOWN) None in
        let* sta := insertscm (fun t => taken o_id o_file o_dir (roas t) row)
                      (fun t => set_roas (roas t ++ [row]) (roa_prefixes t) t) in
        if sta <? 0 then est_ret sta
        else
          let* sta := insert_loop mem roa_id (2 * length prefixes) 0 prefixes 0 [] in
          (if sta <? 0 then let* _ := statementscm_no_data sql_ok (delete_roa row) in est_ret tt
           else est_ret tt) ;;;
          est_ret sta.
End add.
