(* ===== verification/RpkiAddThm.v ===== *)
(** * Adding a ROA: theorems

    [add_roa_internal] adds a ROA with all its prefixes or nothing, however many
    statements the prefixes take and whichever of them fails, and what it adds is
    what [rtr-update] will publish. *)

From stdpp Require Import strings.
From S2P Require Import Prelude Sql RpkiObject RoaValidate RpkiDb RpkiVerify RpkiAdd.

Local Open Scope est_scope.

(** ** Lengths of the statements *)

Lemma dec_len_bound fuel : forall n, 0 <= n < 10 ^ Z.of_nat fuel -> (0 < fuel)%nat -> (1 <= dec_len fuel n <= fuel)%nat.
Proof.
  induction fuel as [|fuel IH]; intros n Hn Hf; [lia|]. cbn [dec_len]. destruct (Z.ltb_spec n 10); [lia|].
  destruct fuel as [|fuel]; [cbn in Hn; lia|].
  assert (0 <= n / 10 < 10 ^ Z.of_nat (S fuel)).
  { rewrite (Nat2Z.inj_succ (S fuel)), Z.pow_succ_r in Hn by lia. Z.to_euclidean_division_equations. lia. }
  specialize (IH (n / 10) H0 ltac:(lia)). lia.
Qed.

(** Prefixes as [roaGetPrefixes] makes them. *)
Definition prefix_ok (p : roa_prefix) : Prop :=
  0 <= RoaValidate.prefix_family_length p <= 16 /\ 0 <= RoaValidate.prefix_length p < 256 /\
  0 <= RoaValidate.prefix_max_length p < 256.

Lemma tuple_len_bound roa_id p : 0 <= roa_id < 2 ^ 32 -> prefix_ok p -> (0 < tuple_len roa_id p <= 107)%nat.
Proof.
  intros Hid (Hf & Hl & Hm). unfold tuple_len, hexify_len.
  pose proof (dec_len_bound 20 roa_id ltac:(cbn; lia) ltac:(lia)).
  pose proof (dec_len_bound 20 (RoaValidate.prefix_length p) ltac:(cbn; lia) ltac:(lia)).
  pose proof (dec_len_bound 20 (RoaValidate.prefix_max_length p) ltac:(cbn; lia) ltac:(lia)).
  destruct (_ =? 0); lia.
Qed.

Section add.
Context (sql_ok : nat -> bool).

(** ** The inserts of the prefixes *)

Definition with_prefixes (l : list roa_prefix_row) (t : tables) : tables :=
  set_roas (roas t) (roa_prefixes t ++ l) t.

Lemma with_prefixes_nil t : with_prefixes [] t = t.
Proof. unfold with_prefixes. rewrite app_nil_r. by destruct t. Qed.
Lemma with_prefixes_app l k t : with_prefixes k (with_prefixes l t) = with_prefixes (l ++ k) t.
Proof. unfold with_prefixes. cbn. by rewrite app_assoc. Qed.

Lemma insert_prefixes_run rows s : exists s' v, insert_prefixes sql_ok rows s = (s', inr v) /\
  ((v = 0 /\ tabs s' = with_prefixes rows (tabs s)) \/ (v = ERR_SCM_SQL /\ tabs s' = tabs s)).
Proof.
  unfold insert_prefixes, statementscm_no_data, est_bind, statementscm. cbn.
  destruct (sql_ok _); cbn; eexists _, _; (split; [reflexivity|]); [left|right]; done.
Qed.

Context (mem : nat -> bool) (roa_id : Z) (Hid : 0 <= roa_id < 2 ^ 32).

(** The loop ends, and has added all rows or, with an error, the first few. *)
Definition loop_post (s s' : dbst) (rows : list roa_prefix_row) (v : Z) : Prop :=
  (v = 0 /\ tabs s' = with_prefixes rows (tabs s)) \/
  ((v = ERR_SCM_NOMEM \/ v = ERR_SCM_SQL) /\ exists n, tabs s' = with_prefixes (take n rows) (tabs s)).

Lemma loop_post_app s s1 s' l rows v : tabs s1 = with_prefixes l (tabs s) ->
  loop_post s1 s' rows v -> loop_post s s' (l ++ rows) v.
Proof.
  intros Ht [[-> Hs]|[Hv [n Hs]]]; [left|right]; (split; [done|]).
  - by rewrite Hs, Ht, with_prefixes_app.
  - exists (length l + n)%nat. by rewrite Hs, Ht, with_prefixes_app, take_app_add.
Qed.

Lemma loop_post_fail s s' l v : v = ERR_SCM_NOMEM \/ v = ERR_SCM_SQL -> tabs s' = tabs s -> loop_post s s' l v.
Proof. intros Hv Ht. right. split; [done|]. exists 0%nat. by rewrite take_0, with_prefixes_nil. Qed.

Lemma insert_loop_run rest : Forall prefix_ok rest -> forall fuel k idx batch s,
  (idx = 0 /\ batch = [] \/ String.length multiinsert_pre < idx /\ rest <> [])%nat ->
  (2 * length rest <= fuel + if (idx =? 0)%nat then 1 else 0)%nat ->
  exists s' v, insert_loop sql_ok mem roa_id fuel k rest idx batch s = (s', inr v) /\
    loop_post s s' (batch ++ map (prefix_row roa_id) rest) v.
Proof.
  intros Hok fuel. revert rest Hok.
  induction fuel as [|fuel IH]; intros [|p rest] Hok k idx batch s Hidx Hfuel.
  - destruct Hidx as [[-> ->]|[_ ?]]; [|done]. exists s, 0. split; [done|]. left. by rewrite with_prefixes_nil.
  - cbn in Hfuel. destruct (idx =? 0)%nat; lia.
  - destruct Hidx as [[-> ->]|[_ ?]]; [|done]. exists s, 0. split; [done|]. left. by rewrite with_prefixes_nil.
  - cbn [insert_loop]. destruct (mem k); cbn [negb]; [|exists s, ERR_SCM_NOMEM; split; [done|]; apply loop_post_fail; auto].
    apply Forall_cons_1 in Hok as Hok'. destruct Hok' as [Hp Hrest].
    pose proof (tuple_len_bound roa_id p Hid Hp) as Hn. set (n := tuple_len roa_id p) in *.
    assert (Hpre : String.length multiinsert_pre = 92%nat) by reflexivity.
    assert (Hlen : multiinsert_len = (32 * 1024)%nat) by reflexivity.
    set (idx1 := if (idx =? 0)%nat then String.length multiinsert_pre else idx).
    destruct (Nat.leb_spec (multiinsert_len - idx1) n) as [Hfull|Hfits].
    + assert (Hidx0 : (idx =? 0)%nat = false).
      { apply Nat.eqb_neq. intros ->. unfold idx1 in Hfull. cbn [Nat.eqb] in Hfull. lia. }
      unfold idx1 in *. rewrite Hidx0 in *. destruct Hidx as [[-> _]|[Hgt _]]; [done|].
      rewrite (proj2 (Nat.eqb_neq _ _)) by lia.
      destruct (insert_prefixes_run batch s) as (s1 & v1 & E1 & H1).
      cbn [length] in Hfuel. unfold est_bind. rewrite E1. destruct H1 as [[-> Ht1]|[-> Ht1]]; cbn [Z.ltb Z.compare].
      * destruct (IH (p :: rest) Hok (S k) 0%nat [] s1) as (s' & v & E' & HP); [by left|cbn; lia|].
        exists s', v. split; [exact E'|]. by eapply loop_post_app.
      * exists s1, ERR_SCM_SQL. split; [done|]. by apply loop_post_fail; [right|].
    + destruct rest as [|p2 rest].
      * destruct (insert_prefixes_run (batch ++ [prefix_row roa_id p]) s) as (s1 & v1 & E1 & H1).
        unfold est_bind. rewrite E1. destruct H1 as [[-> Ht1]|[-> Ht1]]; cbn [Z.ltb Z.compare].
        -- exists s1, 0. split; [by destruct fuel|]. left. done.
        -- exists s1, ERR_SCM_SQL. split; [done|]. by apply loop_post_fail; [right|].
      * destruct (IH (p2 :: rest) Hrest (S k) (idx1 + n)%nat (batch ++ [prefix_row roa_id p]) s) as (s' & v & E' & HP).
        -- right. split; [|done]. unfold idx1. destruct (Nat.eqb_spec idx 0); [lia|]. destruct Hidx as [[? _]|[? _]]; lia.
        -- cbn [length] in *. destruct (idx1 + n =? 0)%nat, (idx =? 0)%nat; lia.
        -- exists s', v. split; [exact E'|]. by rewrite <- app_assoc in HP.
Qed.
End add.

(** ** The whole insert *)

(** Every prefix belongs to a ROA, as the foreign key demands, and ids are counted
    up from 1. *)
Record roas_wf (t : tables) : Prop := {
  rw_fk : forall p, p ∈ roa_prefixes t -> exists o, o ∈ roas t /\ o_id o = roa_local_id p;
  rw_ids : forall o, o ∈ roas t -> 1 <= o_id o < 2 ^ 32 - 1 }.

Definition next_id (t : tables) : Z := foldr Z.max 0 (map o_id (roas t)) + 1.

Lemma next_id_above t o : o ∈ roas t -> o_id o < next_id t.
Proof.
  unfold next_id. intros Ho. enough (o_id o <= foldr Z.max 0 (map o_id (roas t))) by lia. revert o Ho.
  induction (roas t) as [|x l IH]; intros o Ho; [by apply not_elem_of_nil in Ho|].
  apply elem_of_cons in Ho as [->|Ho]; cbn; [lia|]. specialize (IH o Ho). lia.
Qed.

Lemma next_id_bound t : roas_wf t -> 1 <= next_id t < 2 ^ 32.
Proof.
  intros [_ H]. unfold next_id. enough (0 <= foldr Z.max 0 (map o_id (roas t)) < 2 ^ 32 - 1) by lia. revert H.
  induction (roas t) as [|x l IH]; intros H; cbn; [lia|].
  specialize (IH (fun o Ho => H o ltac:(by right))). specialize (H x ltac:(by left)). lia.
Qed.

Definition roa_added (row : obj_row roa_data) (rows : list roa_prefix_row) (t : tables) : tables :=
  set_roas (roas t ++ [row]) (roa_prefixes t ++ rows) t.

Lemma same_roa_refl r : same_roa r r = true.
Proof. unfold same_roa. by rewrite !String.eqb_refl, !Z.eqb_refl. Qed.
Lemma same_roa_id r o : same_roa r o = true -> o_id o = o_id r.
Proof. unfold same_roa. rewrite !andb_true_iff. intros [_ H]. by apply Z.eqb_eq. Qed.

Lemma filter_id_b {A} (p : A -> bool) l : (forall x, x ∈ l -> p x = true) -> List.filter p l = l.
Proof.
  induction l as [|x l IH]; intros H; [done|]. cbn. rewrite (H x) by left. f_equal. apply IH. intros y Hy. apply H. by right.
Qed.
Lemma filter_empty_b {A} (p : A -> bool) l : (forall x, x ∈ l -> p x = false) -> List.filter p l = [].
Proof.
  induction l as [|x l IH]; intros H; [done|]. cbn. rewrite (H x) by left. apply IH. intros y Hy. apply H. by right.
Qed.

(** The delete undoes the insert. *)
Lemma delete_added row rows t : roas_wf t -> o_id row = next_id t ->
  (forall p, p ∈ rows -> roa_local_id p = o_id row) -> delete_roa row (roa_added row rows t) = t.
Proof.
  intros Hwf Hid Hrows. unfold delete_roa, roa_added. cbn [roas roa_prefixes set_roas].
  assert (Hold : forall o, o ∈ roas t -> same_roa row o = false).
  { intros o Ho. apply not_true_iff_false. intros H%same_roa_id. pose proof (next_id_above t o Ho). lia. }
  rewrite !List.filter_app. rewrite (filter_empty_b (same_roa row)) by done.
  rewrite (filter_id_b (fun o => negb (same_roa row o))) by (intros o Ho; by rewrite Hold).
  cbn [List.filter app]. rewrite !same_roa_refl. cbn [negb List.filter app existsb]. rewrite app_nil_r.
  rewrite (filter_id_b _ (roa_prefixes t)), (filter_empty_b _ rows), app_nil_r; [by destruct t| |].
  - intros p Hp. by rewrite (Hrows p Hp), Z.eqb_refl.
  - intros p Hp. destruct (rw_fk t Hwf p Hp) as (o & Ho & E). rewrite orb_false_r, <- E. apply negb_true_iff, Z.eqb_neq.
    pose proof (next_id_above t o Ho). lia.
Qed.

Section whole.
Context (sql_ok : nat -> bool) (in_order : forall A, list A -> list A).
Context (Horder : forall A (l : list A), in_order A l ≡ₚ l).

Lemma callbacks_zero {A} (l : list A) (s : dbst) : callbacks (fun _ => est_ret 0) l 0 s = (s, inr 0).
Proof. induction l as [|x l IH]; [done|]. cbn. unfold est_bind. cbn. exact IH. Qed.

Lemma dupsig_run {A} (table : tables -> list A) sig_of msig s : exists s' v,
  dupsigscm sql_ok in_order table sig_of msig s = (s', inr v) /\ tabs s' = tabs s /\
  (v = 0 \/ v = ERR_SCM_INVALARG \/ v = ERR_SCM_DUPSIG \/ v = ERR_SCM_SQL) /\
  (v = 0 -> forall r, r ∈ table (tabs s) -> sig_of r <> msig).
Proof.
  unfold dupsigscm. destruct (String.eqb msig EmptyString); [by exists s, ERR_SCM_INVALARG; auto 10|].
  unfold searchscm, est_bind, statementscm. cbn -[List.filter]. destruct (sql_ok _); cbn -[List.filter].
  - rewrite callbacks_zero. cbn -[List.filter]. set (l := in_order _ _).
    destruct (length l =? 0)%nat eqn:El; cbn; eexists _, _; (split; [reflexivity|]); (split; [done|]).
    + split; [by left|]. intros _ r Hr Hs. apply Nat.eqb_eq, nil_length_inv in El.
      assert (Hin : r ∈ l).
      { unfold l. rewrite Horder, list_elem_of_In, List.filter_In, String.eqb_eq, <- list_elem_of_In. done. }
      rewrite El in Hin. by apply not_elem_of_nil in Hin.
    + split; [by auto|done].
  - eexists _, _. split; [reflexivity|]. split; [done|]. split; [by auto|done].
Qed.

Lemma maxid_run {A} (table : tables -> list A) id_of s : exists s' v,
  getmaxidscm sql_ok table id_of s = (s', inr v) /\ tabs s' = tabs s /\
  (v = (0, foldr Z.max 0 (map id_of (table (tabs s)))) \/ v = (ERR_SCM_SQL, 0)).
Proof.
  unfold getmaxidscm, est_bind, statementscm. cbn.
  destruct (sql_ok _); cbn; eexists _, _; (split; [reflexivity|]); (split; [done|]); [by left|by right].
Qed.

Lemma insert_run clash f s : exists s' v, insertscm sql_ok clash f s = (s', inr v) /\
  ((v = 0 /\ clash (tabs s) = false /\ tabs s' = f (tabs s)) \/ (v = ERR_SCM_SQL /\ tabs s' = tabs s)).
Proof.
  unfold insertscm, est_bind, statementscm. cbn.
  destruct (sql_ok _); cbn; [destruct (clash (tabs s)) eqn:E; cbn|]; eexists _, _; (split; [reflexivity|]); auto.
Qed.

(** The row of a certificate; its texts are escaped twice. *)
Definition cert_row_of (esc : string -> string) (nid : Z) (cf : cert_row) : cert_row :=
  mkCert nid (esc (c_file cf)) (c_dir cf) (escape_opt esc (c_subject cf)) (esc (c_issuer cf)) (c_sn cf)
    (c_flags cf) (esc (c_ski cf)) (escape_opt esc (c_aki cf)) (esc (c_sig cf)) (c_from cf) (c_to cf) SIGVAL_UNKNOWN None.

(** A certificate is added under the next id, or nothing changes. *)
Lemma add_cert_run esc cf s : exists s' v nid, add_cert_internal sql_ok in_order esc cf s = (s', inr (v, nid)) /\
  ((v = 0 /\ nid = u32 (foldr Z.max 0 (map c_id (certs (tabs s))) + 1) /\
    (forall c, c ∈ certs (tabs s) -> c_sig c <> c_sig cf /\ c_id c <> nid) /\
    tabs s' = set_certs (certs (tabs s) ++ [cert_row_of esc nid cf]) (tabs s)) \/
   (v < 0 /\ tabs s' = tabs s)).
Proof.
  unfold add_cert_internal. destruct (maxid_run certs c_id s) as (s1 & v1 & E1 & Ht1 & Hv1).
  unfold est_bind at 1. rewrite E1. destruct Hv1 as [->| ->]; cbn [Z.ltb Z.compare];
    [|exists s1, ERR_SCM_SQL, 0; split; [done|]; right; done].
  set (nid := u32 _).
  destruct (dupsig_run certs c_sig (c_sig cf) s1) as (s2 & v2 & E2 & Ht2 & Hv2 & Hsig). rewrite Ht1 in Ht2, Hsig.
  unfold est_bind at 1. rewrite E2. destruct (Z.ltb_spec v2 0) as [Hneg|Hpos].
  { exists s2, v2, nid. split; [done|]. right. done. }
  destruct Hv2 as [->|[->|[->| ->]]]; try done. specialize (Hsig eq_refl).
  set (row := mkCert nid _ _ _ _ _ _ _ _ _ _ _ _ _). change (cert_row_of esc nid cf) with row.
  destruct (insert_run (fun t => taken c_id c_file c_dir (certs t) row)
    (fun t => set_certs (certs t ++ [row]) t) s2) as (s3 & v3 & E3 & Hv3). rewrite Ht2 in Hv3.
  unfold est_bind. rewrite E3. exists s3, v3, nid. split; [done|].
  destruct Hv3 as [(-> & Hcl & Ht3)|[-> Ht3]]; [left|by right]. split; [done|]. split; [done|]. split.
  - intros c Hc. split; [by apply Hsig|]. intros Eid. apply not_true_iff_false in Hcl. apply Hcl.
    apply existsb_exists. exists c. split; [by apply list_elem_of_In|]. rewrite Eid. cbn. by rewrite Z.eqb_refl.
  - done.
Qed.
End whole.

Definition roa_errors : list Z := [ERR_SCM_NOMEM; ERR_SCM_INVALARG; ERR_SCM_DUPSIG; ERR_SCM_SQL].

(** What [add_roa_internal] leaves of the tables [t]. *)
Definition roa_outcome (sql_ok : nat -> bool) (t : tables) (row : obj_row roa_data) (rows : list roa_prefix_row)
    (s' : dbst) (v : Z) : Prop :=
  (v = 0 /\ tabs s' = roa_added row rows t) \/
  (v ∈ roa_errors /\
   (tabs s' = t \/
    (sql_ok (Nat.pred (sql_count s')) = false /\ exists n, tabs s' = roa_added row (take n rows) t))).

Lemma outcome_error sql_ok t row rows s' v : v ∈ roa_errors -> tabs s' = t -> roa_outcome sql_ok t row rows s' v.
Proof. intros. right. auto. Qed.

Ltac in_errors := unfold roa_errors; repeat (left || right).

(** The rows of a ROA's prefixes: as many bytes of the address as the family has,
    the length and the maximum length. *)
Definition roa_rows (nid : Z) (prefixes : list roa_prefix) : list roa_prefix_row :=
  map (fun p => {| roa_local_id := nid;
                   rp_prefix := take (Z.to_nat (RoaValidate.prefix_family_length p)) (RoaValidate.prefix p);
                   rp_length := RoaValidate.prefix_length p;
                   rp_max_length := RoaValidate.prefix_max_length p |}) prefixes.

(** The prefixes, and the way back. *)
Lemma roa_tail_run sql_ok mem row prefixes t s3 : roas_wf t -> o_id row = next_id t -> Forall prefix_ok prefixes ->
  tabs s3 = roa_added row [] t ->
  exists s' v, (let* sta := insert_loop sql_ok mem (o_id row) (2 * length prefixes) 0 prefixes 0 [] in
     (if sta <? 0 then let* _ := statementscm_no_data sql_ok (delete_roa row) in est_ret tt
      else est_ret tt) ;;;
     est_ret sta) s3 = (s', inr v) /\
    roa_outcome sql_ok t row (map (prefix_row (o_id row)) prefixes) s' v.
Proof.
  intros Hwf Hid Hp Ht3. pose proof (next_id_bound t Hwf) as Hb. set (rows := map _ prefixes).
  destruct (insert_loop_run sql_ok mem (o_id row) ltac:(lia) prefixes Hp
    (2 * length prefixes) 0 0 [] s3) as (s4 & v4 & E4 & H4); [by left|cbn; lia|].
  unfold est_bind at 1. rewrite E4. cbn [app] in H4. fold rows in H4.
  assert (Hwith : forall l, with_prefixes l (tabs s3) = roa_added row l t).
  { intros l. rewrite Ht3. unfold with_prefixes, roa_added. cbn. by rewrite app_nil_r. }
  destruct H4 as [[-> Ht4]|[Hv4 [n Ht4]]]; rewrite Hwith in Ht4.
  { exists s4, 0. split; [done|]. left. done. }
  assert (Hneg : v4 <? 0 = true) by (by destruct Hv4 as [->| ->]). rewrite Hneg.
  assert (Hin : v4 ∈ roa_errors) by (destruct Hv4 as [->| ->]; in_errors).
  unfold est_bind, statementscm_no_data, est_bind, statementscm. cbn.
  destruct (sql_ok (sql_count s4)) eqn:Eq; cbn; eexists _, _; (split; [reflexivity|]); right; (split; [done|]).
  - left. cbn. rewrite Ht4. apply delete_added; [done|done|]. intros p Hp'.
    apply list_elem_of_lookup in Hp' as [i Hi]. apply lookup_take_Some in Hi as [Hi _].
    unfold rows in Hi. rewrite list_lookup_fmap in Hi. destruct (prefixes !! i); [|done]. by injection Hi as <-.
  - right. cbn. split; [done|]. by exists n.
Qed.

Lemma add_roa_run sql_ok in_order mem0 mem outfile dir ski asid prefixes sig flags s :
  (forall A (l : list A), in_order A l ≡ₚ l) -> roas_wf (tabs s) -> Forall prefix_ok prefixes ->
  let nid := next_id (tabs s) in
  exists s' v, add_roa_internal sql_ok in_order mem0 mem outfile dir ski asid prefixes sig flags s = (s', inr v) /\
    roa_outcome sql_ok (tabs s) (mkObj nid outfile dir ski flags (mkRoaData asid sig SIGVAL_UNKNOWN) None)
      (roa_rows nid prefixes) s' v.
Proof.
  intros Horder Hwf Hp nid. set (row := mkObj nid _ _ _ _ _ _). unfold add_roa_internal.
  destruct mem0; cbn [negb]; [|exists s, ERR_SCM_NOMEM; split; [done|]; apply outcome_error; [in_errors|done]].
  destruct (dupsig_run sql_ok in_order Horder roas (fun o => rd_sig (o_data o)) sig s) as (s1 & v1 & E1 & Ht1 & Hv1 & _).
  unfold est_bind at 1. rewrite E1. destruct (Z.ltb_spec v1 0) as [Hneg|Hpos].
  { exists s1, v1. split; [done|]. apply outcome_error; [|done].
    destruct Hv1 as [->|[->|[->| ->]]]; [done|in_errors..]. }
  destruct Hv1 as [->|[->|[->| ->]]]; try done.
  destruct (maxid_run sql_ok roas o_id s1) as (s2 & v2 & E2 & Ht2 & Hv2). rewrite Ht1 in Ht2, Hv2.
  unfold est_bind at 1. rewrite E2. destruct Hv2 as [->| ->]; cbn [Z.ltb Z.compare].
  2:{ exists s2, ERR_SCM_SQL. split; [done|]. apply outcome_error; [in_errors|done]. }
  assert (Eid : u32 (foldr Z.max 0 (map o_id (roas (tabs s))) + 1) = nid).
  { pose proof (next_id_bound (tabs s) Hwf) as Hb. change (u32 nid = nid). unfold u32. apply wrap_small.
    unfold uint_ok. fold nid in Hb. lia. }
  rewrite Eid. fold row.
  destruct (insert_run sql_ok (fun t => taken o_id o_file o_dir (roas t) row)
    (fun t => set_roas (roas t ++ [row]) (roa_prefixes t) t) s2) as (s3 & v3 & E3 & Hv3).
  unfold est_bind at 1. rewrite E3. rewrite Ht2 in Hv3. destruct Hv3 as [(-> & _ & Ht3)|[-> Ht3]]; cbn [Z.ltb Z.compare].
  2:{ exists s3, ERR_SCM_SQL. split; [done|]. apply outcome_error; [in_errors|done]. }
  apply (roa_tail_run sql_ok mem row prefixes (tabs s) s3 Hwf eq_refl Hp).
  rewrite Ht3. unfold roa_added. by rewrite app_nil_r.
Qed.

(** C14: [add_roa_internal] returns, whichever statements and allocations fail,
    with the tables in one of three states. With status 0, the ROA is in its table
    under a new id, with one row for each of its prefixes, in order, and nothing else
    has changed. With an error, either the tables are as they were, or the very last
    statement, the one that takes the ROA out again, failed too, and the ROA stays
    with the first few of its prefixes. *)
Theorem add_roa_outcomes sql_ok in_order mem0 mem outfile dir ski asid prefixes sig flags s :
  (forall A (l : list A), in_order A l ≡ₚ l) -> roas_wf (tabs s) -> Forall prefix_ok prefixes ->
  let nid := next_id (tabs s) in
  exists s' v, add_roa_internal sql_ok in_order mem0 mem outfile dir ski asid prefixes sig flags s = (s', inr v) /\
    roa_outcome sql_ok (tabs s) (mkObj nid outfile dir ski flags (mkRoaData asid sig SIGVAL_UNKNOWN) None)
      (roa_rows nid prefixes) s' v.
Proof. exact (add_roa_run sql_ok in_order mem0 mem outfile dir ski asid prefixes sig flags s). Qed.

(** ** What is published *)

(** The tables of [rtr-update] over these tables. *)
Definition published (t : tables) (d : db) : db :=
  mkDb (rtr_session d) (rtr_update d) (rtr_full d) (rtr_incremental d)
    (map (fun o => mkRoa (o_id o) (rd_asn (o_data o)) (o_flags o)) (roas t)) (roa_prefixes t) (now d).

(** The rows that one ROA gives: its AS number, and of each prefix the address, the
    length and the maximum length. *)
Definition roa_announces (asid : Z) (prefixes : list roa_prefix) : list roa_row :=
  map (fun p => {| Sql.asn := asid;
                   Sql.prefix := take (Z.to_nat (RoaValidate.prefix_family_length p)) (RoaValidate.prefix p);
                   Sql.prefix_length := RoaValidate.prefix_length p;
                   Sql.prefix_max_length := RoaValidate.prefix_max_length p |}) prefixes.

Lemma published_added row prefixes mask result t d :
  roas_wf t -> o_id row = next_id t ->
  valid_roas mask result (published (roa_added row (roa_rows (o_id row) prefixes) t) d) =
  valid_roas mask result (published t d) ++
  (if Z.land (o_flags row) mask =? result then roa_announces (rd_asn (o_data row)) prefixes else []).
Proof.
  intros Hwf Hid. set (rows := roa_rows (o_id row) prefixes).
  assert (Hnew : forall p, p ∈ rows -> roa_local_id p = o_id row).
  { intros p Hp. unfold rows, roa_rows in Hp. by apply list_elem_of_fmap in Hp as (q & -> & _). }
  unfold valid_roas, published, roa_added. cbn [rpki_roa rpki_roa_prefix roas roa_prefixes set_roas].
  rewrite map_app, List.filter_app, map_app, concat_app. f_equal.
  - f_equal. apply map_ext_in. intros r Hr. f_equal. rewrite List.filter_app, (filter_empty_b _ rows), app_nil_r; [done|].
    intros p Hp. rewrite (Hnew p Hp). apply Z.eqb_neq.
    apply List.filter_In in Hr as [(o & <- & Ho%list_elem_of_In)%in_map_iff _]. cbn.
    pose proof (next_id_above t o Ho). lia.
  - cbn [map List.filter roa_flags]. destruct (_ =? result); [|done]. cbn [map concat local_id roa_asn].
    rewrite app_nil_r, List.filter_app, (filter_empty_b _ (roa_prefixes t)), (filter_id_b _ rows).
    + cbn [app]. unfold rows, roa_rows, roa_announces. by rewrite map_map.
    + intros p Hp. by rewrite (Hnew p Hp), Z.eqb_refl.
    + intros p Hp. destruct (rw_fk t Hwf p Hp) as (o & Ho & <-). apply Z.eqb_neq. pose proof (next_id_above t o Ho). lia.
Qed.

(** C15: From [add_roa_internal] to the routers. When it returns 0, the rows that
    [rtr-update] selects are those it selected before and, if the ROA's flags pass the
    tests, for each of the ROA's prefixes exactly one with the ROA's AS number and the
    prefix's address, length and maximum length; when it returns an error and its last
    statement did not fail, they are those it selected before. *)
Theorem roa_published sql_ok in_order mem0 mem outfile dir ski asid prefixes sig flags s mask result d :
  (forall A (l : list A), in_order A l ≡ₚ l) -> roas_wf (tabs s) -> Forall prefix_ok prefixes ->
  exists s' v, add_roa_internal sql_ok in_order mem0 mem outfile dir ski asid prefixes sig flags s = (s', inr v) /\
    (v = 0 -> valid_roas mask result (published (tabs s') d) =
       valid_roas mask result (published (tabs s) d) ++
       (if Z.land flags mask =? result then roa_announces asid prefixes else [])) /\
    (v <> 0 -> sql_ok (Nat.pred (sql_count s')) = true ->
       valid_roas mask result (published (tabs s') d) = valid_roas mask result (published (tabs s) d)).
Proof.
  intros Horder Hwf Hp.
  destruct (add_roa_run sql_ok in_order mem0 mem outfile dir ski asid prefixes sig flags s Horder Hwf Hp) as (s' & v & E & Ho).
  exists s', v. split; [done|]. destruct Ho as [[-> Ht]|[Hv Ht]].
  - split; [intros _|done]. rewrite Ht. by rewrite published_added.
  - split; [intros ->; exfalso; revert Hv; by apply (bool_decide_unpack _)|].
    intros _ Hl. destruct Ht as [->|[Hf _]]; [done|congruence].
Qed.

(** ** Examples *)

Definition a_prefix (b l : Z) : roa_prefix :=
  {| RoaValidate.prefix_family_length := 4; RoaValidate.prefix := [10; b; 0; 0];
     RoaValidate.prefix_length := l; RoaValidate.prefix_max_length := 24 |}.
Definition a_tables : tables :=
  mkTables [] [] [mkObj 1 "a.roa" "d" "k" SCM_FLAG_VALIDATED (mkRoaData 64512 "s1" SIGVAL_VALID) None]
    [mkRoaPrefix 1 [10; 0; 0; 0] 8 8] [] [] [] None.
Definition a_state : dbst := mkDbst a_tables 0 0 SrchNone.
Definition a_row : obj_row roa_data := mkObj 2 "b.roa" "d" "k2" SCM_FLAG_VALIDATED (mkRoaData 64513 "s2" SIGVAL_UNKNOWN) None.

Lemma a_wf : roas_wf a_tables.
Proof.
  split.
  - intros p ->%list_elem_of_singleton. eexists. split; [left|done].
  - intros o ->%list_elem_of_singleton. cbn. lia.
Qed.

(** All statements succeed but the one for the prefixes (number 3): the ROA is taken
    out again. *)
Lemma add_roa_outcomes_witness :
  exists s' v, add_roa_internal (fun n => negb (n =? 3)%nat) (fun _ l => l) true (fun _ => true) "b.roa" "d" "k2" 64513
      [a_prefix 1 16; a_prefix 2 16] "s2" SCM_FLAG_VALIDATED a_state = (s', inr v) /\
    roa_outcome (fun n => negb (n =? 3)%nat) a_tables a_row (roa_rows 2 [a_prefix 1 16; a_prefix 2 16]) s' v.
Proof.
  apply (add_roa_outcomes (fun n => negb (n =? 3)%nat) (fun _ l => l) true (fun _ => true) "b.roa" "d" "k2" 64513
    [a_prefix 1 16; a_prefix 2 16] "s2" SCM_FLAG_VALIDATED a_state); [done|apply a_wf|].
  repeat constructor; cbn; lia.
Defined.

Example add_roa_rollback :
  let '(s', v) := add_roa_internal (fun n => negb (n =? 3)%nat) (fun _ l => l) true (fun _ => true) "b.roa" "d" "k2" 64513
      [a_prefix 1 16; a_prefix 2 16] "s2" SCM_FLAG_VALIDATED a_state in (tabs s', v) = (a_tables, inr ERR_SCM_SQL).
Proof. vm_compute. reflexivity. Qed.

Lemma roa_published_witness :
  exists s' v, add_roa_internal (fun _ => true) (fun _ l => l) true (fun _ => true) "b.roa" "d" "k2" 64513
      [a_prefix 1 16] "s2" SCM_FLAG_VALIDATED a_state = (s', inr v) /\ v = 0 /\
    valid_roas SCM_FLAG_VALIDATED SCM_FLAG_VALIDATED (published (tabs s') (mkDb [] [] [] [] [] [] 0)) =
    [mkRow 64512 [10; 0; 0; 0] 8 8; mkRow 64513 [10; 1; 0; 0] 16 24].
Proof.
  destruct (roa_published (fun _ => true) (fun _ l => l) true (fun _ => true) "b.roa" "d" "k2" 64513 [a_prefix 1 16] "s2"
    SCM_FLAG_VALIDATED a_state SCM_FLAG_VALIDATED SCM_FLAG_VALIDATED (mkDb [] [] [] [] [] [] 0)) as (s' & v & E & H & _).
  - done.
  - apply a_wf.
  - repeat constructor; cbn; lia.
  - assert (v = 0) as -> by (vm_compute in E; by injection E as _ <-).
    exists s', 0. split; [exact E|]. split; [done|]. rewrite (H eq_refl). reflexivity.
Defined.
