(* ===== verification/CertExt.v ===== *)
(** * The certificate profile: checks on OpenSSL's view
    ([src/lib/rpki/myssl.c])

    OpenSSL is not part of the program. A certificate that it has parsed is what
    its accessors return: the version, whether subject and issuer are the same
    name, and the extensions in order, each with its NID, its criticality and what
    [X509V3_EXT_d2i] decodes it to ([None] is NULL). The bit set [ex_flags] is a
    record of its bits. [X509_get_ext_d2i], [X509_supported_extension] and the
    tests for canonical resources are parameters. Messages have no effect. *)

From stdpp Require Import strings.
From S2P Require Import Prelude CasnNum CasnObjid RpkiObject RpkiDb RpkiVerify.

(** ** Error codes and certificate types *)

Definition ERR_SCM_BADEXT : Z := -25.
Definition ERR_SCM_INVALEXT : Z := -26.
Definition ERR_SCM_XPROFILE : Z := -27.
Definition ERR_SCM_NOAKI : Z := -35.
Definition ERR_SCM_BADFLAGS : Z := -46.
Definition ERR_SCM_NCEXT : Z := -48.
Definition ERR_SCM_NOTCA : Z := -49.
Definition ERR_SCM_BADPATHLEN : Z := -50.
Definition ERR_SCM_NOBC : Z := -51.
Definition ERR_SCM_DUPBC : Z := -52.
Definition ERR_SCM_CEXT : Z := -54.
Definition ERR_SCM_DUPSKI : Z := -56.
Definition ERR_SCM_ACI : Z := -57.
Definition ERR_SCM_ACSN : Z := -58.
Definition ERR_SCM_DUPAKI : Z := -59.
Definition ERR_SCM_NOKUSAGE : Z := -60.
Definition ERR_SCM_DUPKUSAGE : Z := -61.
Definition ERR_SCM_CRLDPTA : Z := -62.
Definition ERR_SCM_NOCRLDP : Z := -63.
Definition ERR_SCM_DUPCRLDP : Z := -64.
Definition ERR_SCM_CRLDPSF : Z := -65.
Definition ERR_SCM_CRLDPNM : Z := -66.
Definition ERR_SCM_BADCRLDP : Z := -67.
Definition ERR_SCM_NOAIA : Z := -68.
Definition ERR_SCM_DUPAIA : Z := -69.
Definition ERR_SCM_BADAIA : Z := -70.
Definition ERR_SCM_NOPOLICY : Z := -74.
Definition ERR_SCM_DUPPOLICY : Z := -75.
Definition ERR_SCM_POLICYQ : Z := -76.
Definition ERR_SCM_BADOID : Z := -77.
Definition ERR_SCM_BCPRES : Z := -96.
Definition ERR_SCM_INVALAKI : Z := -115.
Definition ERR_SCM_CRLDPNMRS : Z := -116.
Definition ERR_SCM_EKU : Z := -152.
Definition ERR_SCM_AIATA : Z := -160.

Definition CA_CERT : Z := 1.
Definition EE_CERT : Z := 2.
Definition TA_CERT : Z := 3.
Definition UN_CERT : Z := 4.

Definition chars (s : String.string) : list Z :=
  map (fun c => Z.of_nat (Ascii.nat_of_ascii c)) (String.list_ascii_of_string s).

Definition RSYNC_PREFIX : list Z := chars "rsync://".
Definition RSYNC_PREFIX_LEN : nat := length RSYNC_PREFIX.

(** [strncasecmp(s, RSYNC_PREFIX, RSYNC_PREFIX_LEN) == 0] *)
Definition tolower (c : Z) : Z := if (65 <=? c) && (c <=? 90) then c + 32 else c.
Definition is_rsync (s : list Z) : bool := bool_decide (map tolower (take RSYNC_PREFIX_LEN s) = RSYNC_PREFIX).

(** ** OpenSSL's data *)

Definition NID_undef : Z := 0.
Definition NID_netscape_cert_type : Z := 71.
Definition NID_subject_key_identifier : Z := 82.
Definition NID_key_usage : Z := 83.
Definition NID_subject_alt_name : Z := 85.
Definition NID_issuer_alt_name : Z := 86.
Definition NID_basic_constraints : Z := 87.
Definition NID_certificate_policies : Z := 89.
Definition NID_authority_key_identifier : Z := 90.
Definition NID_crl_distribution_points : Z := 103.
Definition NID_ext_key_usage : Z := 126.
Definition NID_server_auth : Z := 129.
Definition NID_client_auth : Z := 130.
Definition NID_code_sign : Z := 131.
Definition NID_email_protect : Z := 132.
Definition NID_time_stamp : Z := 133.
Definition NID_ms_sgc : Z := 137.
Definition NID_ns_sgc : Z := 139.
Definition NID_id_qt_cps : Z := 164.
Definition NID_info_access : Z := 177.
Definition NID_OCSP_sign : Z := 180.
Definition NID_sbgp_ipAddrBlock : Z := 290.
Definition NID_sbgp_autonomousSysNum : Z := 291.
Definition NID_dvcs : Z := 297.
Definition NID_proxyCertInfo : Z := 663.

Definition KU_DIGITAL_SIGNATURE : Z := 0x80.
Definition KU_KEY_CERT_SIGN : Z := 0x04.
Definition KU_CRL_SIGN : Z := 0x02.

Inductive gen_name := GEN_URI (uri : list Z) | GEN_OTHER.
Inductive dist_name := fullname (l : list gen_name) | relativename.
Record DIST_POINT := { dp_reasons : bool; dp_CRLissuer : bool; dp_distpoint : option dist_name }.
(** The method as the bytes of its object identifier. *)
Record ACCESS_DESCRIPTION := { ad_method : list Z; ad_location : gen_name }.
(** The policy as [i2t_ASN1_OBJECT] prints it, and the NIDs of the qualifiers. *)
Record POLICYINFO := { policyid : list Z; qualifiers : option (list Z) }.

(** What an extension is decoded to. A path length constraint is negative or not,
    and its value; resources are kept as bytes. *)
Inductive ext_struct :=
  | XBasicConstraints (ca : bool) (pathlen : option (bool * Z))
  | XProxyCertInfo (pathlen : option Z)
  | XBitString (data : list Z)
  | XKeyId (data : list Z)
  | XExtKeyUsage (nids : list Z)
  | XAuthKeyId (keyid : option (list Z)) (has_issuer has_serial : bool)
  | XDistPoints (l : list DIST_POINT)
  | XAccess (l : list ACCESS_DESCRIPTION)
  | XPolicies (l : list POLICYINFO)
  | XResources (der : list Z)
  | XOther.

Record X509_EXTENSION := { ext_nid : Z; ext_critical : bool; ext_value : option ext_struct }.

Record exflags := mkFlags {
  EXFLAG_SET : bool; EXFLAG_SS : bool; EXFLAG_V1 : bool; EXFLAG_CA : bool; EXFLAG_BCONS : bool;
  EXFLAG_KUSAGE : bool; EXFLAG_XKUSAGE : bool; EXFLAG_NSCERT : bool; EXFLAG_PROXY : bool;
  EXFLAG_INVALID : bool; EXFLAG_CRITICAL : bool }.
#[global] Instance exflags_eq_dec : EqDecision exflags.
Proof. solve_decision. Defined.

Definition no_flags : exflags := mkFlags false false false false false false false false false false false.

(** [x_same_name]: subject and issuer are the same name. *)
Record X509 := mkX509 {
  x_version : Z;
  x_same_name : bool;
  x_exts : list X509_EXTENSION;
  ex_flags : exflags;
  ex_kusage : Z;
  ex_pathlen : Z;
  ex_pcpathlen : Z;
  ex_xkusage : Z;
  ex_nscert : Z;
  x_skid : option ext_struct;
  x_akid : option ext_struct;
  x_crldp : option ext_struct;
  rfc3779_addr : option ext_struct;
  rfc3779_asid : option ext_struct }.

Section openssl.
(** [X509_get_ext_d2i], with whether an index was given, on the extensions. *)
Context (X509_get_ext_d2i : list X509_EXTENSION -> Z -> bool -> option ext_struct).
Context (X509_supported_extension : X509_EXTENSION -> bool).
Context (v3_addr_is_canonical v3_asid_is_canonical : list Z -> bool).

(** ** Loading the flags *)

Definition has_ext (exts : list X509_EXTENSION) (nid : Z) : bool := existsb (fun e => ext_nid e =? nid) exts.

(** The flags of [x509v3_load_extensions], in its order. *)
Definition bc_flags (x : X509) (f : exflags) : exflags :=
  match X509_get_ext_d2i (x_exts x) NID_basic_constraints false with
  | Some (XBasicConstraints ca pathlen) =>
      let invalid := match pathlen with Some (neg, _) => neg || negb ca | None => false end in
      mkFlags (EXFLAG_SET f) (EXFLAG_SS f) (EXFLAG_V1 f) (ca || EXFLAG_CA f) true (EXFLAG_KUSAGE f) (EXFLAG_XKUSAGE f)
        (EXFLAG_NSCERT f) (EXFLAG_PROXY f) (invalid || EXFLAG_INVALID f) (EXFLAG_CRITICAL f)
  | _ => f
  end.

Definition proxy_flags (x : X509) (f : exflags) : exflags :=
  match X509_get_ext_d2i (x_exts x) NID_proxyCertInfo false with
  | Some (XProxyCertInfo _) =>
      let invalid := EXFLAG_CA f || has_ext (drop 1 (x_exts x)) NID_subject_alt_name
                     || has_ext (drop 1 (x_exts x)) NID_issuer_alt_name in
      mkFlags (EXFLAG_SET f) (EXFLAG_SS f) (EXFLAG_V1 f) (EXFLAG_CA f) (EXFLAG_BCONS f) (EXFLAG_KUSAGE f) (EXFLAG_XKUSAGE f)
        (EXFLAG_NSCERT f) true (invalid || EXFLAG_INVALID f) (EXFLAG_CRITICAL f)
  | _ => f
  end.

(** The usage bits, if the extension can be read. *)
Definition key_usage (x : X509) : option Z :=
  match X509_get_ext_d2i (x_exts x) NID_key_usage false with
  | Some (XBitString data) =>
      Some match data with
           | [] => 0
           | [b0] => b0
           | b0 :: b1 :: _ => Z.lor b0 (Z.shiftl b1 8)
           end
  | _ => None
  end.

Definition pathlen_of (x : X509) : Z :=
  match X509_get_ext_d2i (x_exts x) NID_basic_constraints false with
  | Some (XBasicConstraints ca pathlen) =>
      match pathlen with Some (neg, v) => if neg || negb ca then 0 else v | None => -1 end
  | _ => ex_pathlen x
  end.
Definition pcpathlen_of (x : X509) : Z :=
  match X509_get_ext_d2i (x_exts x) NID_proxyCertInfo false with
  | Some (XProxyCertInfo pathlen) => from_option id (-1) pathlen
  | _ => ex_pcpathlen x
  end.

(** The bits are [XKU_SSL_SERVER] to [XKU_DVCS]. *)
Definition xkusage_bit (nid : Z) : Z :=
  if nid =? NID_server_auth then 0x1
  else if nid =? NID_client_auth then 0x2
  else if nid =? NID_email_protect then 0x4
  else if nid =? NID_code_sign then 0x8
  else if (nid =? NID_ms_sgc) || (nid =? NID_ns_sgc) then 0x10
  else if nid =? NID_OCSP_sign then 0x20
  else if nid =? NID_time_stamp then 0x40
  else if nid =? NID_dvcs then 0x80
  else 0.

Definition unsupported_critical (x : X509) : bool :=
  existsb (fun e => ext_critical e && negb (X509_supported_extension e)) (x_exts x).

Definition x509v3_load_extensions (x : X509) : X509 :=
  if EXFLAG_SET (ex_flags x) then x
  else
    let f := ex_flags x in
    let f := mkFlags false (x_same_name x || EXFLAG_SS f) ((x_version x =? 0) || EXFLAG_V1 f) (EXFLAG_CA f) (EXFLAG_BCONS f)
               (EXFLAG_KUSAGE f) (EXFLAG_XKUSAGE f) (EXFLAG_NSCERT f) (EXFLAG_PROXY f) (EXFLAG_INVALID f) (EXFLAG_CRITICAL f) in
    let f := proxy_flags x (bc_flags x f) in
    let ku := key_usage x in
    let xku := match X509_get_ext_d2i (x_exts x) NID_ext_key_usage false with Some (XExtKeyUsage l) => Some l | _ => None end in
    let ns := match X509_get_ext_d2i (x_exts x) NID_netscape_cert_type false with Some (XBitString data) => Some data | _ => None end in
    let f := mkFlags true (EXFLAG_SS f) (EXFLAG_V1 f) (EXFLAG_CA f) (EXFLAG_BCONS f) (bool_decide (is_Some ku) || EXFLAG_KUSAGE f)
               (bool_decide (is_Some xku) || EXFLAG_XKUSAGE f) (bool_decide (is_Some ns) || EXFLAG_NSCERT f) (EXFLAG_PROXY f) (EXFLAG_INVALID f)
               (unsupported_critical x || EXFLAG_CRITICAL f) in
    mkX509 (x_version x) (x_same_name x) (x_exts x) f (from_option id (ex_kusage x) ku) (pathlen_of x) (pcpathlen_of x)
      (from_option (foldl (fun acc nid => Z.lor acc (xkusage_bit nid)) 0) 0 xku) (from_option (hd 0) (ex_nscert x) ns)
      (X509_get_ext_d2i (x_exts x) NID_subject_key_identifier false) (X509_get_ext_d2i (x_exts x) NID_authority_key_identifier false)
      (X509_get_ext_d2i (x_exts x) NID_crl_distribution_points false) (X509_get_ext_d2i (x_exts x) NID_sbgp_ipAddrBlock false)
      (X509_get_ext_d2i (x_exts x) NID_sbgp_autonomousSysNum false).

(** ** Checks *)

Definition ta_flags : exflags := mkFlags true true false true true true false false false false false.
Definition ca_flags : exflags := mkFlags true false false true true true false false false false false.
Definition ee_flags : exflags := mkFlags true false false false false true false false false false false.

Definition rescert_flags_chk (x : X509) (ct : Z) : Z :=
  let cert_type :=
    if bool_decide (ex_flags x = ta_flags) && (ex_kusage x =? Z.lor KU_KEY_CERT_SIGN KU_CRL_SIGN) then TA_CERT
    else if bool_decide (ex_flags x = ca_flags) && (ex_kusage x =? Z.lor KU_KEY_CERT_SIGN KU_CRL_SIGN) then CA_CERT
    else if bool_decide (ex_flags x = ee_flags) && (ex_kusage x =? KU_DIGITAL_SIGNATURE) then EE_CERT
    else UN_CERT in
  if ct =? cert_type then 0 else ERR_SCM_BADFLAGS.

Definition rescert_version_chk (x : X509) : Z := if negb (x_version x =? 2) then ERR_SCM_BADCERTVERS else 0.

(** The loop that the checks share: every extension with the NID is counted and
    checked, and the first error ends it. *)
Fixpoint scan (nid : Z) (chk : X509_EXTENSION -> Z) (exts : list X509_EXTENSION) (flag : nat) : Z * nat :=
  match exts with
  | [] => (0, flag)
  | e :: exts =>
      if ext_nid e =? nid then
        let ret := chk e in if ret <? 0 then (ret, S flag) else scan nid chk exts (S flag)
      else scan nid chk exts flag
  end.

(** [bc_chk], [must_be_critical] and the like are the bodies of the loops. *)
Definition must_be_critical (e : X509_EXTENSION) : Z := if ext_critical e then 0 else ERR_SCM_NCEXT.
Definition must_not_be_critical (e : X509_EXTENSION) : Z := if ext_critical e then ERR_SCM_CEXT else 0.

Definition bc_chk (e : X509_EXTENSION) : Z :=
  if negb (ext_critical e) then ERR_SCM_NCEXT
  else match ext_value e with
  | Some (XBasicConstraints ca pathlen) =>
      if negb ca then ERR_SCM_NOTCA
      else match pathlen with Some _ => ERR_SCM_BADPATHLEN | None => 0 end
  | _ => ERR_SCM_BADEXT
  end.

Definition rescert_basic_constraints_chk (x : X509) (ct : Z) : Z :=
  if ct =? UN_CERT then ERR_SCM_INVALARG
  else if (ct =? CA_CERT) || (ct =? TA_CERT) then
    let '(ret, basic_flag) := scan NID_basic_constraints bc_chk (x_exts x) 0 in
    if ret <? 0 then ret
    else if (basic_flag =? 0)%nat then ERR_SCM_NOBC
    else if (1 <? basic_flag)%nat then ERR_SCM_DUPBC
    else 0
  else if ct =? EE_CERT then
    if has_ext (x_exts x) NID_basic_constraints then ERR_SCM_BCPRES else 0
  else 0.

(** The first part of [rescert_ski_chk]. *)
Definition ski_present_chk (x : X509) : Z :=
  let '(ret, ski_flag) := scan NID_subject_key_identifier must_not_be_critical (x_exts x) 0 in
  if ret <? 0 then ret
  else if (ski_flag =? 0)%nat then ERR_SCM_NOSKI
  else if (1 <? ski_flag)%nat then ERR_SCM_DUPSKI
  else 0.

Definition aki_chk (e : X509_EXTENSION) : Z :=
  if ext_critical e then ERR_SCM_CEXT
  else match ext_value e with
  | Some (XAuthKeyId keyid has_issuer has_serial) =>
      match keyid with
      | None => ERR_SCM_NOAKI
      | Some keyid =>
          if has_issuer then ERR_SCM_ACI
          else if has_serial then ERR_SCM_ACSN
          else if negb (length keyid =? 20)%nat then ERR_SCM_INVALAKI
          else 0
      end
  | _ => ERR_SCM_BADEXT
  end.

Definition rescert_aki_chk (x : X509) (ct : Z) : Z :=
  let '(ret, aki_flag) := scan NID_authority_key_identifier aki_chk (x_exts x) 0 in
  if ret <? 0 then ret
  else if (aki_flag =? 0)%nat && negb (ct =? TA_CERT) then ERR_SCM_NOAKI
  else if (1 <? aki_flag)%nat then ERR_SCM_DUPAKI
  else 0.

Definition rescert_key_usage_chk (x : X509) : Z :=
  let '(ret, kusage_flag) := scan NID_key_usage must_be_critical (x_exts x) 0 in
  if ret <? 0 then ret
  else if (kusage_flag =? 0)%nat then ERR_SCM_NOKUSAGE
  else if (1 <? kusage_flag)%nat then ERR_SCM_DUPKUSAGE
  else 0.

Definition rescert_extended_key_usage_chk (x : X509) (ct : Z) : Z :=
  let '(ret, eku_flag) := scan NID_ext_key_usage must_not_be_critical (x_exts x) 0 in
  if ret <? 0 then ret
  else if (ct =? TA_CERT) || (ct =? CA_CERT) then if negb (eku_flag =? 0)%nat then ERR_SCM_EKU else 0
  else if ct =? EE_CERT then if negb (eku_flag =? 0)%nat then ERR_SCM_EKU else 0
  else 0.

(** ** Distribution points and access descriptions *)

(** The names of one point: an error, or the number of URIs and of rsync URIs. *)
Fixpoint crldp_names (l : list gen_name) (uri_flag rsync_uri_flag : nat) : Z + nat * nat :=
  match l with
  | [] => inr (uri_flag, rsync_uri_flag)
  | GEN_OTHER :: _ => inl ERR_SCM_BADCRLDP
  | GEN_URI u :: l => crldp_names l (S uri_flag) (if is_rsync u then S rsync_uri_flag else rsync_uri_flag)
  end.

Fixpoint crldp_points (l : list DIST_POINT) (uri_flag rsync_uri_flag : nat) : Z + nat * nat :=
  match l with
  | [] => inr (uri_flag, rsync_uri_flag)
  | dist_st :: l =>
      match dp_reasons dist_st || dp_CRLissuer dist_st, dp_distpoint dist_st with
      | false, Some (fullname names) =>
          match crldp_names names uri_flag rsync_uri_flag with
          | inl ret => inl ret
          | inr (u, r) => crldp_points l u r
          end
      | _, _ => inl ERR_SCM_CRLDPSF
      end
  end.

Definition rescert_crldp_chk (x : X509) (ct : Z) : Z :=
  let '(ret, crldp_flag) := scan NID_crl_distribution_points must_not_be_critical (x_exts x) 0 in
  if ret <? 0 then ret
  else if ct =? TA_CERT then if (crldp_flag =? 0)%nat then 0 else ERR_SCM_CRLDPTA
  else if (crldp_flag =? 0)%nat then ERR_SCM_NOCRLDP
  else if (1 <? crldp_flag)%nat then ERR_SCM_DUPCRLDP
  else match X509_get_ext_d2i (x_exts x) NID_crl_distribution_points true with
  | Some (XDistPoints crldp) =>
      match crldp_points crldp 0 0 with
      | inl ret => ret
      | inr (uri_flag, rsync_uri_flag) =>
          if (uri_flag =? 0)%nat then ERR_SCM_CRLDPNM
          else if (rsync_uri_flag =? 0)%nat then ERR_SCM_CRLDPNMRS
          else 0
      end
  | _ => ERR_SCM_NOCRLDP
  end.

Definition aia_oid : list Z := [0x2b; 0x6; 0x1; 0x5; 0x5; 0x7; 0x30; 0x2].

Fixpoint aia_uris (l : list ACCESS_DESCRIPTION) (uri_flag : nat) : Z + nat :=
  match l with
  | [] => inr uri_flag
  | adesc :: l =>
      match ad_location adesc with
      | GEN_OTHER => inl ERR_SCM_BADAIA
      | GEN_URI u => aia_uris l (if bool_decide (ad_method adesc = aia_oid) && is_rsync u then S uri_flag else uri_flag)
      end
  end.

Definition rescert_aia_chk (x : X509) (ct : Z) : Z :=
  let '(ret, info_flag) := scan NID_info_access must_not_be_critical (x_exts x) 0 in
  if ret <? 0 then ret
  else if ct =? TA_CERT then if (info_flag =? 0)%nat then 0 else ERR_SCM_AIATA
  else if (info_flag =? 0)%nat then ERR_SCM_NOAIA
  else if (1 <? info_flag)%nat then ERR_SCM_DUPAIA
  else match X509_get_ext_d2i (x_exts x) NID_info_access true with
  | Some (XAccess aia) =>
      match aia_uris aia 0 with
      | inl ret => ret
      | inr uri_flag => if (uri_flag =? 0)%nat then ERR_SCM_BADAIA else 0
      end
  | _ => ERR_SCM_NOAIA
  end.

(** ** Policies *)

Definition oid_policy_id : list Z := chars "1.3.6.1.5.5.7.14.2".

(** [None]: the list of qualifiers is empty and its first element is used. *)
Definition rescert_cert_policy_chk (x : X509) : option Z :=
  let '(ret, policy_flag) := scan NID_certificate_policies must_be_critical (x_exts x) 0 in
  if ret <? 0 then Some ret
  else if (policy_flag =? 0)%nat then Some ERR_SCM_NOPOLICY
  else if (1 <? policy_flag)%nat then Some ERR_SCM_DUPPOLICY
  else match X509_get_ext_d2i (x_exts x) NID_certificate_policies true with
  | Some (XPolicies ex_cpols) =>
      match ex_cpols with
      | [policy] =>
          if negb (bool_decide (policyid policy = oid_policy_id)) then Some ERR_SCM_BADOID
          else match qualifiers policy with
          | None => Some 0
          | Some quals =>
              if (1 <? length quals)%nat then Some ERR_SCM_POLICYQ
              else
                policy_qual_nid ← head quals;
                Some (if negb (policy_qual_nid =? NID_id_qt_cps) then ERR_SCM_POLICYQ else 0)
          end
      | _ => Some ERR_SCM_DUPPOLICY
      end
  | _ => Some ERR_SCM_NOPOLICY
  end.

(** ** Critical extensions *)

Definition supported_nids : list Z :=
  [NID_key_usage; NID_basic_constraints; NID_certificate_policies; NID_sbgp_ipAddrBlock; NID_sbgp_autonomousSysNum].

Definition rescert_crit_ext_chk (e : X509_EXTENSION) : Z :=
  if ext_nid e =? NID_undef then ERR_SCM_BADEXT
  else if zin (ext_nid e) supported_nids then 0 else ERR_SCM_BADEXT.

Fixpoint rescert_criticals_chk (exts : list X509_EXTENSION) : Z :=
  match exts with
  | [] => 0
  | e :: exts =>
      if negb (ext_critical e) then rescert_criticals_chk exts
      else let ret := rescert_crit_ext_chk e in if ret <? 0 then ret else rescert_criticals_chk exts
  end.
End openssl.
