(* ===== verification/CertProfile.v ===== *)
(** * The certificate profile: checks on the decoded certificate
    ([src/lib/rpki/myssl.c], [rescert_profile_chk] and what it calls)

    The checks that look at the program's own decoding ([RpkiObject]), and all of
    them in order. [None] is undefined behaviour. Allocations succeed. *)

From S2P Require Import Prelude CasnTime CasnNum CasnObjid RpkiObject CmsValidate RpkiDb RpkiVerify CertExt.

Definition ERR_SCM_NOSIA : Z := -71.
Definition ERR_SCM_DUPSIA : Z := -72.
Definition ERR_SCM_BADSIA : Z := -73.
Definition ERR_SCM_NOIPAS : Z := -78.
Definition ERR_SCM_DUPIP : Z := -79.
Definition ERR_SCM_DUPAS : Z := -80.
Definition ERR_SCM_BADSUBJECT : Z := -113.
Definition ERR_SCM_BADISSUER : Z := -114.
Definition ERR_SCM_BADSERNUM : Z := -117.
Definition ERR_SCM_BADASRANGE : Z := -134.
Definition ERR_SCM_NOIPADDR : Z := -136.
Definition ERR_SCM_UNSUPPUBKEY : Z := -153.
Definition ERR_SCM_BADASRDI : Z := -154.
Definition ERR_SCM_TAINHERIT : Z := -162.

Definition SUBJ_PUBKEY_EXPONENT : Z := 65537.
Definition SUBJ_PUBKEY_MAX_SZ : nat := 280.
Definition SUBJ_PUBKEY_MODULUS_SZ : Z := 256.

Definition id_commonName := oid_text 2 5 [4; 3].
Definition id_serialNumber := oid_text 2 5 [4; 5].
Definition id_keyUsage := oid_text 2 5 [29; 15].
Definition id_cRLDistributionPoints := oid_text 2 5 [29; 31].
Definition id_certificatePolicies := oid_text 2 5 [29; 32].
Definition id_authKeyId := oid_text 2 5 [29; 35].
Definition id_extKeyUsage := oid_text 2 5 [29; 37].
Definition id_pkix_authorityInfoAccess := oid_text 1 3 [6; 1; 5; 5; 7; 1; 1].
Definition id_pe_subjectInfoAccess := oid_text 1 3 [6; 1; 5; 5; 7; 1; 11].
Definition id_ad_caRepository := oid_text 1 3 [6; 1; 5; 5; 7; 48; 5].
Definition id_ad_rpkiManifest := oid_text 1 3 [6; 1; 5; 5; 7; 48; 10].
Definition id_ad_signedObject := oid_text 1 3 [6; 1; 5; 5; 7; 48; 11].

(** [ret = check; if (ret < 0) return ret;] *)
Definition and_then (check rest : option Z) : option Z :=
  ret ← check; if ret <? 0 then Some ret else rest.
Notation "c ;? k" := (and_then c k) (at level 80, right associativity).

(** ** Extensions *)

(** The first extension with the identifier, and how many there are. *)
Fixpoint get_extension_loop (exts : list Extension) (idp : list Z) (ret : option Extension) (cnt : nat)
    : option (option Extension * nat) :=
  match exts with
  | [] => Some (ret, cnt)
  | e :: exts =>
      same ← same_objid (extnID e) idp;
      if same : bool then get_extension_loop exts idp (if (cnt =? 0)%nat then Some e else ret) (S cnt)
      else get_extension_loop exts idp ret cnt
  end.
Definition get_extension (certp : Certificate) (idp : list Z) : option (option Extension * nat) :=
  get_extension_loop (extensions certp) idp None 0.

Section profile.
Context (X509_get_ext_d2i : list X509_EXTENSION -> Z -> bool -> option ext_struct).
Context (X509_supported_extension : X509_EXTENSION -> bool).
Context (v3_addr_is_canonical v3_asid_is_canonical : list Z -> bool).
Context (sha1 : list Z -> option (list Z)).
Context (strict_profile_checks : bool).

(** The hash is compared over the length of the identifier. *)
Definition rescert_ski_chk (x : X509) (certp : Certificate) : option Z :=
  Some (ski_present_chk x) ;?
  extp ← find_extension (extensions certp) id_subjectKeyIdentifier;
  match extp with
  | None => Some ERR_SCM_INVALSKI
  | Some extp =>
      match subjectPublicKey certp with
      | [] => Some ERR_SCM_INVALSKI
      | unused :: key =>
          if negb (unused =? 0) then Some ERR_SCM_UNSUPPUBKEY
          else
            hash ← sha1 key;
            let ski := from_option id [] (subjectKeyIdentifier extp) in
            if negb (length ski =? 20)%nat then Some ERR_SCM_INVALSKI
            else if negb (memcmp 20 ski hash =? 0) then Some ERR_SCM_INVALSKI
            else Some 0
      end
  end.

Fixpoint get_cert_type_loop (exts : list Extension) : option Z :=
  match exts with
  | [] => Some EE_CERT
  | e :: exts =>
      bc ← same_objid (extnID e) id_basicConstraints;
      if bc : bool then Some CA_CERT else get_cert_type_loop exts
  end.
Definition get_cert_type (certp : Certificate) : option Z := get_cert_type_loop (extensions certp).

(** ** Subject information access *)

Fixpoint sia_ca_loop (l : list AccessDescription) (found_uri_repo_rsync found_uri_mft_rsync : bool) : option (bool * bool) :=
  match l with
  | [] => Some (found_uri_repo_rsync, found_uri_mft_rsync)
  | adp :: l =>
      match accessLocation adp with
      | url u =>
          repo ← same_objid (accessMethod adp) id_ad_caRepository;
          if repo : bool then sia_ca_loop l (is_rsync u || found_uri_repo_rsync) found_uri_mft_rsync
          else
            mft ← same_objid (accessMethod adp) id_ad_rpkiManifest;
            if mft : bool then sia_ca_loop l found_uri_repo_rsync (is_rsync u || found_uri_mft_rsync)
            else sia_ca_loop l found_uri_repo_rsync found_uri_mft_rsync
      | gn_other =>
          _ ← same_objid (accessMethod adp) id_ad_caRepository;
          _ ← same_objid (accessMethod adp) id_ad_rpkiManifest;
          sia_ca_loop l found_uri_repo_rsync found_uri_mft_rsync
      end
  end.

Fixpoint sia_ee_loop (l : list AccessDescription) (found_uri_obj_rsync : bool) : option (Z + bool) :=
  match l with
  | [] => Some (inr found_uri_obj_rsync)
  | adp :: l =>
      obj ← same_objid (accessMethod adp) id_ad_signedObject;
      if obj : bool then
        sia_ee_loop l (match accessLocation adp with url u => is_rsync u || found_uri_obj_rsync | gn_other => found_uri_obj_rsync end)
      else Some (inl ERR_SCM_BADSIA)
  end.

(** The flag is read into one byte: [None] when its content is longer. *)
Definition rescert_sia_chk (certp : Certificate) : option Z :=
  '(extp, count) ← get_extension certp id_pe_subjectInfoAccess;
  if (count =? 0)%nat then Some ERR_SCM_NOSIA
  else if (1 <? count)%nat then Some ERR_SCM_DUPSIA
  else match extp with
  | None => Some ERR_SCM_BADSIA
  | Some extp =>
      crit ← match extn_critical extp with
             | None => Some false
             | Some [] => Some false
             | Some [b] => Some (negb (b =? 0))
             | Some _ => None
             end;
      if crit : bool then Some ERR_SCM_CEXT
      else
        type ← get_cert_type certp;
        if type =? CA_CERT then
          '(repo, mft) ← sia_ca_loop (subjectInfoAccess extp) false false;
          Some (if negb repo then ERR_SCM_BADSIA else if negb mft then ERR_SCM_BADSIA else 0)
        else
          r ← sia_ee_loop (subjectInfoAccess extp) false;
          Some match r with inl ret => ret | inr obj => if negb obj then ERR_SCM_BADSIA else 0 end
  end.

(** ** Resources *)

(** 0 when there is no extension, 1 when it is right. *)
Definition critical_chk (extp : Extension) : Z :=
  match extn_critical extp with
  | None | Some [] => ERR_SCM_NCEXT
  | Some [b] => if b =? 0 then ERR_SCM_NCEXT else 0
  | Some _ => ERR_SCM_INVALEXT
  end.

Fixpoint ip_families_chk (ct : Z) (l : list IPAddressFamilyA) (have_contents : bool) : Z :=
  match l with
  | [] => if negb have_contents then ERR_SCM_NOIPADDR else 1
  | fam :: l =>
      if negb (length (cert_addressFamily fam) =? 2)%nat then ERR_SCM_INVALFAM
      else
        let contents := match ipAddressChoice fam with inherit => true | addressesOrRanges l => (0 <? length l)%nat end in
        if is_inherit fam && (ct =? TA_CERT) then ERR_SCM_TAINHERIT
        else ip_families_chk ct l (contents || have_contents)
  end.

Definition rescert_ip_resources_chk (certp : Certificate) (ct : Z) : option Z :=
  '(extp, ext_count) ← get_extension certp id_pe_ipAddrBlock;
  match extp with
  | None => Some 0
  | Some extp =>
      if (1 <? ext_count)%nat then Some ERR_SCM_DUPIP
      else if critical_chk extp <? 0 then Some (critical_chk extp)
      else Some (ip_families_chk ct (ipAddressBlock extp) false)
  end.

Definition rescert_as_resources_chk (certp : Certificate) (ct : Z) : option Z :=
  '(extp, ext_count) ← get_extension certp id_pe_autonomousSysNum;
  match extp with
  | None => Some 0
  | Some extp =>
      if (1 <? ext_count)%nat then Some ERR_SCM_DUPAS
      else if critical_chk extp <? 0 then Some (critical_chk extp)
      else match rdi (autonomousSysNum extp) with
      | Some _ => Some ERR_SCM_BADASRDI
      | None =>
          Some match asnum (autonomousSysNum extp) with
               | Some as_inherit => if ct =? TA_CERT then ERR_SCM_TAINHERIT else 1
               | Some (asNumbersOrRanges l) => if (length l <=? 0)%nat then ERR_SCM_BADASRANGE else 1
               | None => ERR_SCM_BADASRANGE
               end
      end
  end.

(** An extension that is there once and canonical, in OpenSSL's view. *)
Definition canonical_chk (x : X509) (nid : Z) (is_canonical : list Z -> bool) (err : Z) : Z :=
  match X509_get_ext_d2i (x_exts x) nid false with
  | Some (XResources der) => if negb (is_canonical der) then err else 0
  | _ => err
  end.

Definition rescert_ip_asnum_chk (x : X509) (certp : Certificate) (ct : Z) : option Z :=
  have_ip_resources ← rescert_ip_resources_chk certp ct;
  if have_ip_resources <? 0 then Some have_ip_resources
  else
    have_as_resources ← rescert_as_resources_chk certp ct;
    if have_as_resources <? 0 then Some have_as_resources
    else if (have_ip_resources =? 0) && (have_as_resources =? 0) then Some ERR_SCM_NOIPAS
    else
      let ip := if have_ip_resources =? 0 then 0 else canonical_chk x NID_sbgp_ipAddrBlock v3_addr_is_canonical ERR_SCM_INVALIPB in
      if ip <? 0 then Some ip
      else
        let as_ := if have_as_resources =? 0 then 0 else canonical_chk x NID_sbgp_autonomousSysNum v3_asid_is_canonical ERR_SCM_BADASRANGE in
        if as_ <? 0 then Some as_ else Some 0.

(** ** Names *)

(** One set of attributes, with what was seen so far. *)
Fixpoint name_set (l : list AttributeValueAssertion) (commonName serialNumber : bool) : option (option (bool * bool)) :=
  match l with
  | [] => Some (Some (commonName, serialNumber))
  | avap :: l =>
      cn ← same_objid (ava_objid avap) id_commonName;
      if cn : bool then
        if commonName then Some None
        else if (length (from_option id [] (ava_printable avap)) =? 0)%nat && strict_profile_checks then Some None
        else name_set l true serialNumber
      else
        sn ← same_objid (ava_objid avap) id_serialNumber;
        if sn : bool then if serialNumber then Some None else name_set l commonName true
        else Some None
  end.

Fixpoint name_sets (l : RDNSequence) (commonName serialNumber : bool) : option Z :=
  match l with
  | [] => Some (if negb commonName then -1 else 0)
  | rdnp :: l =>
      if (2 <? length rdnp)%nat then Some (-1)
      else
        r ← name_set rdnp commonName serialNumber;
        match r with
        | None => Some (-1)
        | Some (cn, sn) => name_sets l cn sn
        end
  end.

Definition rescert_name_chk (rdnseqp : RDNSequence) : option Z :=
  if (2 <? length rdnseqp)%nat then Some (-1) else name_sets rdnseqp false false.

(** ** Algorithms and the key *)

(** The identifier with its NUL, compared over its whole length. *)
Definition alg_chk (oid id : list Z) : option Z :=
  length_ ← vsize_objid oid;
  if length_ <=? 0 then Some ERR_SCM_BADALG
  else
    text ← read_objid oid;
    if negb (Z.of_nat (length text) =? length_) then Some ERR_SCM_BADALG
    else if negb (bool_decide (text = id ++ [0])) then Some ERR_SCM_BADALG
    else Some 0.

(** Bits of the first byte before its first one. *)
Fixpoint leading_zeros (fuel : nat) (b bit_mask : Z) : Z :=
  match fuel with
  | O => 0
  | S fuel => if (0 <? bit_mask) && (Z.land b bit_mask =? 0) then 1 + leading_zeros fuel b (Z.shiftr bit_mask 1) else 0
  end.

Definition modulus_chk (modulus : list Z) : Z :=
  match modulus with
  | [] => ERR_SCM_BADALG
  | b0 :: rest =>
      let bytes_read := Z.of_nat (length modulus) in
      if negb (Z.land b0 0x80 =? 0) then ERR_SCM_BADALG
      else if (b0 =? 0) && (match rest with b1 :: _ => Z.land b1 0x80 =? 0 | [] => false end) then ERR_SCM_BADALG
      else
        let modulus_bit_length :=
          if b0 =? 0 then (bytes_read - 1) * 8 else bytes_read * 8 - leading_zeros 9 b0 0x80 in
        if negb (modulus_bit_length =? SUBJ_PUBKEY_MODULUS_SZ * 8) then
          if (modulus_bit_length =? 1024) && negb strict_profile_checks then 0 else ERR_SCM_BADALG
        else 0
  end.

(** That the two signature algorithms are the same is tested as well, when both are
    known to be the required one. *)
Definition rescert_sig_algs_chk (certp : Certificate) : option Z :=
  alg_chk (cert_algorithm certp) id_sha_256WithRSAEncryption ;?
  alg_chk (tbs_signature certp) id_sha_256WithRSAEncryption ;?
  alg_chk (spki_algorithm certp) id_rsadsi_rsaEncryption ;?
  if (SUBJ_PUBKEY_MAX_SZ <? length (subjectPublicKey certp))%nat then Some ERR_SCM_BADALG
  else match subjectPublicKey certp with
  | [] => None
  | unused :: _ =>
      if negb (unused =? 0) then Some ERR_SCM_BADALG
      else match rsaPubKey certp with
      | None => Some ERR_SCM_BADALG
      | Some rsapubkey =>
          Some (modulus_chk (rsa_modulus rsapubkey)) ;?
          let '(ret, exponent) := read_casn_num (rsa_exponent rsapubkey) in
          if ret <? 0 then Some ERR_SCM_BADALG
          else
            exponent ← exponent;
            Some (if negb (exponent =? SUBJ_PUBKEY_EXPONENT) then ERR_SCM_BADALG else 0)
      end
  end.

(** ** The rest *)

Definition rescert_serial_number_chk (certp : Certificate) : Z :=
  let sernump := tbs_serialNumber certp in
  if (SER_NUM_MAX_SZ <? length sernump)%nat then ERR_SCM_BADSERNUM
  else if negb (Z.land (hd 0 sernump) 0x80 =? 0) then ERR_SCM_BADSERNUM
  else if forallb (fun b => b =? 0) sernump then ERR_SCM_BADSERNUM
  else 0.

(** [diff_casn_time] on two CHOICEs: -2 when one of them cannot be read. *)
Definition diff_time_choice (t1 t2 : time_choice) : Z :=
  match read_casn_time_choice t1, read_casn_time_choice t2 with
  | Some v1, Some v2 => if v2 <? v1 then 1 else if v1 <? v2 then -1 else 0
  | _, _ => -2
  end.

Definition rescert_dates_chk (certp : Certificate) : Z :=
  if 0 <? diff_time_choice (notBefore certp) (notAfter certp) then ERR_SCM_BADDATES else 0.

Definition rescert_subj_iss_UID_chk (certp : Certificate) : Z :=
  match tbs_issuerUniqueID certp, tbs_subjectUniqueID certp with
  | None, None => 0
  | _, _ => ERR_SCM_XPROFILE
  end.

Definition allowed_extensions : list (list Z) :=
  [id_basicConstraints; id_subjectKeyIdentifier; id_authKeyId; id_keyUsage; id_extKeyUsage; id_cRLDistributionPoints;
   id_pkix_authorityInfoAccess; id_pe_subjectInfoAccess; id_certificatePolicies; id_pe_ipAddrBlock; id_pe_autonomousSysNum].

Fixpoint ext_allowed (oid : list Z) (l : list (list Z)) : option bool :=
  match l with
  | [] => Some false
  | id :: l => same ← same_objid oid id; if same : bool then Some true else ext_allowed oid l
  end.

Fixpoint extensions_loop (exts : list Extension) : option Z :=
  match exts with
  | [] => Some 0
  | e :: exts =>
      ok ← ext_allowed (extnID e) allowed_extensions;
      if ok : bool then extensions_loop exts else Some ERR_SCM_BADEXT
  end.
Definition rescert_extensions_chk (certp : Certificate) : option Z := extensions_loop (extensions certp).

(** ** All of them *)

Definition rescert_profile_chk (x : X509) (certp : Certificate) (ct : Z) : option Z :=
  if ct =? UN_CERT then Some ERR_SCM_INVALARG
  else
    let x := x509v3_load_extensions X509_get_ext_d2i X509_supported_extension x in
    if EXFLAG_INVALID (ex_flags x) || negb (EXFLAG_SET (ex_flags x)) then Some ERR_SCM_BADEXT
    else
      Some (rescert_flags_chk x ct) ;?
      Some (rescert_version_chk x) ;?
      issuer ← rescert_name_chk (tbs_issuer certp);
      if issuer <? 0 then Some ERR_SCM_BADISSUER
      else
        subject ← rescert_name_chk (tbs_subject certp);
        if subject <? 0 then Some ERR_SCM_BADSUBJECT
        else
          Some (rescert_basic_constraints_chk x ct) ;?
          rescert_ski_chk x certp ;?
          Some (rescert_aki_chk x ct) ;?
          Some (rescert_key_usage_chk x) ;?
          Some (rescert_extended_key_usage_chk x ct) ;?
          Some (rescert_crldp_chk X509_get_ext_d2i x ct) ;?
          Some (rescert_aia_chk X509_get_ext_d2i x ct) ;?
          rescert_sia_chk certp ;?
          rescert_cert_policy_chk X509_get_ext_d2i x ;?
          rescert_ip_asnum_chk x certp ct ;?
          Some (rescert_criticals_chk (x_exts x)) ;?
          rescert_sig_algs_chk certp ;?
          Some (rescert_serial_number_chk certp) ;?
          Some (rescert_dates_chk certp) ;?
          Some (rescert_subj_iss_UID_chk certp) ;?
          rescert_extensions_chk certp ;?
          Some 0.
End profile.
