(* ===== verification/CertFacts.v ===== *)
(** * The certificate profile: facts about the checks

    Each check succeeds exactly when its part of the profile holds. *)

From S2P Require Import Prelude CasnTime CasnNum CasnObjid RpkiObject CmsValidate RpkiDb RpkiVerify CertExt CertProfile.

(** ** Chains of checks *)

Definition accepts (r : option Z) (P : Prop) : Prop := (exists v, r = Some v /\ 0 <= v) <-> P.

Lemma and_then_accepts r k P : accepts r P -> and_then r k = Some 0 <-> P /\ k = Some 0.
Proof.
  intros HP. unfold accepts in HP. rewrite <- HP. unfold and_then. destruct r as [v|]; cbn [mbind option_bind]; [|naive_solver].
  destruct (Z.ltb_spec v 0).
  - split; [intros [= ->]; lia|]. intros [(w & [= ->] & ?) _]. lia.
  - split; [intros Hk; split; [by exists v|done]|by intros [_ Hk]].
Qed.

Lemma accepts_some v P : (0 <= v <-> P) -> accepts (Some v) P.
Proof. intros HP. unfold accepts. rewrite <- HP. split; [by intros (w & [= ->] & ?)|by exists v]. Qed.

Lemma accepts_and r k P Q : accepts r P -> (P -> accepts k Q) -> accepts (and_then r k) (P /\ Q).
Proof.
  intros HP HQ. unfold accepts, and_then in *. destruct r as [v|]; cbn [mbind option_bind].
  - destruct (Z.ltb_spec v 0).
    + split; [intros (w & [= ->] & ?); lia|]. intros [Hp _]. apply HP in Hp as (w & [= ->] & ?). lia.
    + assert P as HP' by (apply HP; by exists v). specialize (HQ HP'). rewrite HQ. naive_solver.
  - split; [naive_solver|]. intros [Hp _]. apply HP in Hp as (w & ? & ?). done.
Qed.

(** ** Identifiers *)

Definition wf_oid (o : list Z) : Prop := exists a b l, oid_ok a b l /\ o = oid_bytes a b l.

Lemma oid_ne a b l : oid_ok a b l -> oid_bytes a b l <> [].
Proof. intros Hok H. destruct (oid_pieces a b l Hok) as (ps & E & _). rewrite H in E. done. Qed.

Lemma oid_read a b l : oid_ok a b l ->
  read_objid (oid_bytes a b l) = Some (oid_text a b l ++ [0]) /\
  vsize_objid (oid_bytes a b l) = Some (Z.of_nat (length (oid_text a b l)) + 1).
Proof.
  intros Hok. pose proof (oid_ne _ _ _ Hok) as Hne. destruct (oid_pieces a b l Hok) as (ps & E & Hc & Hps).
  unfold read_objid, vsize_objid. rewrite bool_decide_eq_false_2, E by done. cbn [mbind option_bind].
  rewrite Hc. split; [done|]. assert (forallb (fun p => (length p <=? 16)%nat) ps = true) as ->; [|done].
  apply forallb_forall. intros p Hp. apply Nat.leb_le. rewrite Forall_forall in Hps. by apply Hps, list_elem_of_In.
Qed.

Lemma oid_text_bytes a b l a' b' l' : oid_ok a b l -> oid_ok a' b' l' ->
  oid_text a b l = oid_text a' b' l' <-> oid_bytes a b l = oid_bytes a' b' l'.
Proof.
  intros H H'. split; intros E.
  - pose proof (write_objid_bytes _ _ _ H) as W. pose proof (write_objid_bytes _ _ _ H') as W'. congruence.
  - destruct (oid_read _ _ _ H) as [R _]. destruct (oid_read _ _ _ H') as [R' _]. rewrite E, R' in R.
    injection R as R. by apply app_inv_tail in R.
Qed.

(** Object identifiers in good form are equal when their texts are. *)
Lemma same_oid o a b l : wf_oid o -> oid_ok a b l -> same_objid o (oid_text a b l) = Some (bool_decide (o = oid_bytes a b l)).
Proof.
  intros (a' & b' & l' & Hok' & ->) Hok. destruct (oid_read _ _ _ Hok') as [R V].
  destruct (diff_objid_text _ _ (oid_text a b l) (oid_ne _ _ _ Hok') R V (oid_text_ne0 _ _ _ Hok') (oid_text_ne0 _ _ _ Hok)) as (r & E & Hr).
  unfold same_objid. rewrite E. cbn [mbind option_bind]. f_equal.
  apply eq_true_iff_eq. rewrite Z.eqb_eq, bool_decide_eq_true, Hr, <- oid_text_bytes by done. split; congruence.
Qed.

Ltac oid_ok_tac := unfold oid_ok, arc_ok; split_and!; try lia; try done; repeat constructor; done.

Lemma alg_chk_ok o a b l : wf_oid o -> oid_ok a b l -> accepts (alg_chk o (oid_text a b l)) (o = oid_bytes a b l).
Proof.
  intros (a' & b' & l' & Hok' & ->) Hok. destruct (oid_read _ _ _ Hok') as [R V].
  unfold alg_chk. rewrite V. cbn [mbind option_bind]. rewrite (proj2 (Z.leb_gt _ _)) by lia. rewrite R. cbn [mbind option_bind].
  rewrite length_app. cbn [length]. rewrite (proj2 (Z.eqb_eq _ _)) by lia. cbn [negb].
  destruct (decide (oid_text a' b' l' ++ [0] = oid_text a b l ++ [0])) as [E|E].
  - rewrite bool_decide_eq_true_2 by done. apply accepts_some. apply app_inv_tail in E. apply oid_text_bytes in E; [|done..]. done.
  - rewrite bool_decide_eq_false_2 by done. apply accepts_some. rewrite <- oid_text_bytes by done.
    unfold ERR_SCM_BADALG. cbn [negb]. split; [lia|]. intros E'. destruct E. by rewrite E'.
Qed.

(** ** Extensions that OpenSSL found *)

Definition of_nid (exts : list X509_EXTENSION) (nid : Z) : list X509_EXTENSION := List.filter (fun e => ext_nid e =? nid) exts.

Lemma has_ext_of_nid exts nid : has_ext exts nid = false <-> of_nid exts nid = [].
Proof. unfold has_ext, of_nid. induction exts as [|e exts IH]; cbn; [done|]. by destruct (ext_nid e =? nid). Qed.

Lemma scan_spec nid chk exts : forall flag,
  (0 <= (scan nid chk exts flag).1 <-> Forall (fun e => 0 <= chk e) (of_nid exts nid)) /\
  (0 <= (scan nid chk exts flag).1 -> scan nid chk exts flag = (0, (flag + length (of_nid exts nid))%nat)).
Proof.
  induction exts as [|e exts IH]; intros flag; cbn [scan of_nid List.filter].
  { cbn. split; [split; [constructor|lia]|]. intros _. by rewrite Nat.add_0_r. }
  fold (of_nid exts nid). destruct (ext_nid e =? nid); [|apply IH].
  destruct (Z.ltb_spec (chk e) 0) as [Hc|Hc].
  - cbn. split; [|lia]. split; [lia|]. intros H%Forall_inv. lia.
  - destruct (IH (S flag)) as [H1 H2]. split; [rewrite H1, Forall_cons; naive_solver|]. intros H%H2. rewrite H.
    cbn [length]. f_equal. lia.
Qed.

(** Exactly one extension, which passes the check. *)
Lemma scan_once nid chk exts err0 err1 k : err0 < 0 -> err1 < 0 ->
  0 <= (let '(ret, n) := scan nid chk exts 0 in
        if ret <? 0 then ret else if (n =? 0)%nat then err0 else if (1 <? n)%nat then err1 else k) <->
  (exists e, of_nid exts nid = [e] /\ 0 <= chk e) /\ 0 <= k.
Proof.
  intros H0 H1. destruct (scan_spec nid chk exts 0) as [Hf Hs]. destruct (scan nid chk exts 0) as [ret n]. cbn [fst] in *.
  destruct (Z.ltb_spec ret 0) as [Hr|Hr].
  { split; [lia|]. intros [(e & E & He) _]. rewrite E in Hf. assert (0 <= ret); [|lia]. apply Hf. by repeat constructor. }
  specialize (Hs Hr). injection Hs as -> ->. apply Hf in Hr. destruct (of_nid exts nid) as [|e [|e' l]]; cbn.
  - split; [lia|]. intros [(? & ? & ?) ?]. done.
  - apply Forall_inv in Hr. split; [intros Hk; split; [by exists e|done]|by intros [_ ?]].
  - split; [lia|]. intros [(? & ? & ?) ?]. done.
Qed.

(** None, or an error. *)
Lemma scan_none nid chk exts err : err < 0 ->
  0 <= (let '(ret, n) := scan nid chk exts 0 in if ret <? 0 then ret else if (n =? 0)%nat then 0 else err) <-> of_nid exts nid = [].
Proof.
  intros H0. destruct (scan_spec nid chk exts 0) as [Hf Hs]. destruct (scan nid chk exts 0) as [ret n]. cbn [fst] in *.
  destruct (Z.ltb_spec ret 0) as [Hr|Hr].
  { split; [lia|]. intros E. rewrite E in Hf. assert (0 <= ret); [|lia]. apply Hf. by constructor. }
  specialize (Hs Hr). injection Hs as -> ->. destruct (of_nid exts nid); cbn; [done|]. split; [lia|done].
Qed.

(** What the documentation of [X509_get_ext_d2i] says. *)
Record d2i_laws (d2i : list X509_EXTENSION -> Z -> bool -> option ext_struct) : Prop := {
  d2i_one : forall exts nid idx e, of_nid exts nid = [e] -> d2i exts nid idx = ext_value e;
  d2i_none : forall exts nid idx, of_nid exts nid = [] -> d2i exts nid idx = None;
  d2i_many : forall exts nid, (2 <= length (of_nid exts nid))%nat -> d2i exts nid false = None }.

Section facts.
Context (d2i : list X509_EXTENSION -> Z -> bool -> option ext_struct) (Hd2i : d2i_laws d2i).
Context (supported : X509_EXTENSION -> bool).

(** ** Flags *)

Definition is_type (ct : Z) : Prop := ct = CA_CERT \/ ct = EE_CERT \/ ct = TA_CERT.
Definition usage_of (ct : Z) : Z := if ct =? EE_CERT then KU_DIGITAL_SIGNATURE else Z.lor KU_KEY_CERT_SIGN KU_CRL_SIGN.
Definition flags_of (ct : Z) : exflags :=
  if ct =? TA_CERT then ta_flags else if ct =? CA_CERT then ca_flags else ee_flags.

Lemma flags_chk_flags x ct : is_type ct -> 0 <= rescert_flags_chk x ct <-> ex_flags x = flags_of ct /\ ex_kusage x = usage_of ct.
Proof.
  intros Hct. unfold rescert_flags_chk.
  assert (Hne : ta_flags <> ca_flags /\ ta_flags <> ee_flags /\ ca_flags <> ee_flags) by done. destruct Hne as (N1 & N2 & N3).
  assert (K0 : Z.lor KU_KEY_CERT_SIGN KU_CRL_SIGN <> KU_DIGITAL_SIGNATURE) by done.
  repeat case_bool_decide; destruct (Z.eqb_spec (ex_kusage x) (Z.lor KU_KEY_CERT_SIGN KU_CRL_SIGN)) as [K1|K1];
    destruct (Z.eqb_spec (ex_kusage x) KU_DIGITAL_SIGNATURE) as [K2|K2]; try congruence; cbn [andb];
    destruct Hct as [-> |[-> | ->]]; unfold usage_of, flags_of; cbn [Z.eqb CA_CERT EE_CERT TA_CERT UN_CERT Pos.eqb];
    split; try (unfold ERR_SCM_BADFLAGS; lia); intros; try (by split); destruct_and?; try done; congruence.
Qed.

(** What was decoded, as the loaded flags record it. *)
Definition no_other_kinds (x : X509) : Prop :=
  (forall l, d2i (x_exts x) NID_ext_key_usage false <> Some (XExtKeyUsage l)) /\
  (forall l, d2i (x_exts x) NID_netscape_cert_type false <> Some (XBitString l)) /\
  (forall p, d2i (x_exts x) NID_proxyCertInfo false <> Some (XProxyCertInfo p)) /\
  Forall (fun e => ext_critical e = true -> supported e = true) (x_exts x).

Definition bc_flag_ok (x : X509) (ct : Z) : Prop :=
  if ct =? EE_CERT then forall ca p, d2i (x_exts x) NID_basic_constraints false <> Some (XBasicConstraints ca p)
  else exists p, d2i (x_exts x) NID_basic_constraints false = Some (XBasicConstraints true p) /\ forall v, p <> Some (true, v).

Lemma unsupported_critical_spec x : unsupported_critical supported x = false <->
  Forall (fun e => ext_critical e = true -> supported e = true) (x_exts x).
Proof.
  unfold unsupported_critical. induction (x_exts x) as [|e l IH]; cbn; [split; [constructor|done]|].
  rewrite orb_false_iff, IH, Forall_cons. destruct (ext_critical e), (supported e); cbn; naive_solver.
Qed.

(** The decoded basic constraints. *)
Definition bc_of (x : X509) : option (bool * option (bool * Z)) :=
  match d2i (x_exts x) NID_basic_constraints false with Some (XBasicConstraints ca p) => Some (ca, p) | _ => None end.
Definition has_proxy (x : X509) : bool :=
  match d2i (x_exts x) NID_proxyCertInfo false with Some (XProxyCertInfo _) => true | _ => false end.
Definition has_xku (x : X509) : bool :=
  match d2i (x_exts x) NID_ext_key_usage false with Some (XExtKeyUsage _) => true | _ => false end.
Definition has_ns (x : X509) : bool :=
  match d2i (x_exts x) NID_netscape_cert_type false with Some (XBitString _) => true | _ => false end.
Definition bc_invalid (x : X509) : bool :=
  match bc_of x with Some (ca, Some (neg, _)) => neg || negb ca | _ => false end.

Lemma loaded_flags x : ex_flags x = no_flags -> exists inv,
  ex_flags (x509v3_load_extensions d2i supported x) =
    mkFlags true (x_same_name x) (x_version x =? 0) (from_option fst false (bc_of x)) (bool_decide (is_Some (bc_of x)))
      (bool_decide (is_Some (key_usage d2i x))) (has_xku x) (has_ns x) (has_proxy x)
      ((has_proxy x && inv) || bc_invalid x) (unsupported_critical supported x) /\
  ex_kusage (x509v3_load_extensions d2i supported x) = from_option id (ex_kusage x) (key_usage d2i x).
Proof.
  intros Hx. unfold x509v3_load_extensions. rewrite Hx. cbn [no_flags EXFLAG_SET ex_flags ex_kusage].
  exists (from_option fst false (bc_of x) || has_ext (drop 1 (x_exts x)) NID_subject_alt_name || has_ext (drop 1 (x_exts x)) NID_issuer_alt_name).
  split; [|done].
  assert (bool_decide (is_Some match d2i (x_exts x) NID_ext_key_usage false with Some (XExtKeyUsage l) => Some l | _ => None end) = has_xku x) as ->
    by (unfold has_xku; destruct (d2i (x_exts x) NID_ext_key_usage false) as [[]|]; done).
  assert (bool_decide (is_Some match d2i (x_exts x) NID_netscape_cert_type false with Some (XBitString l) => Some l | _ => None end) = has_ns x) as ->
    by (unfold has_ns; destruct (d2i (x_exts x) NID_netscape_cert_type false) as [[]|]; done).
  unfold proxy_flags, bc_flags, has_proxy, bc_invalid, bc_of.
  destruct (d2i (x_exts x) NID_basic_constraints false) as [[]|]; destruct (d2i (x_exts x) NID_proxyCertInfo false) as [[]|];
    cbn; rewrite ?orb_false_r; try reflexivity; destruct pathlen as [[? ?]|]; cbn; rewrite ?orb_false_r; reflexivity.
Qed.

Lemma flags_eq b1 b2 b3 b4 b5 b6 b7 b8 b9 b10 b11 c1 c2 c3 c4 c5 c6 c7 c8 c9 c10 c11 :
  mkFlags b1 b2 b3 b4 b5 b6 b7 b8 b9 b10 b11 = mkFlags c1 c2 c3 c4 c5 c6 c7 c8 c9 c10 c11 <->
  b1 = c1 /\ b2 = c2 /\ b3 = c3 /\ b4 = c4 /\ b5 = c5 /\ b6 = c6 /\ b7 = c7 /\ b8 = c8 /\ b9 = c9 /\ b10 = c10 /\ b11 = c11.
Proof. split; [intros [=]; tauto|naive_solver]. Qed.

Lemma no_other_kinds_spec x : no_other_kinds x <->
  has_xku x = false /\ has_ns x = false /\ has_proxy x = false /\ unsupported_critical supported x = false.
Proof.
  unfold no_other_kinds. rewrite <- unsupported_critical_spec.
  assert (has_xku x = false <-> forall l, d2i (x_exts x) NID_ext_key_usage false <> Some (XExtKeyUsage l)) as ->
    by (unfold has_xku; destruct (d2i (x_exts x) NID_ext_key_usage false) as [[]|]; naive_solver).
  assert (has_ns x = false <-> forall l, d2i (x_exts x) NID_netscape_cert_type false <> Some (XBitString l)) as ->
    by (unfold has_ns; destruct (d2i (x_exts x) NID_netscape_cert_type false) as [[]|]; naive_solver).
  assert (has_proxy x = false <-> forall l, d2i (x_exts x) NID_proxyCertInfo false <> Some (XProxyCertInfo l)) as ->
    by (unfold has_proxy; destruct (d2i (x_exts x) NID_proxyCertInfo false) as [[]|]; naive_solver).
  done.
Qed.

Lemma bc_flag_ok_spec x ct : is_type ct -> bc_flag_ok x ct <->
  from_option fst false (bc_of x) = negb (ct =? EE_CERT) /\ bool_decide (is_Some (bc_of x)) = negb (ct =? EE_CERT) /\ bc_invalid x = false.
Proof.
  intros Hct. unfold bc_flag_ok, bc_invalid, bc_of.
  destruct Hct as [-> |[-> | ->]]; cbn; destruct (d2i (x_exts x) NID_basic_constraints false) as [[ca [[neg v]|]| | | | | | | | | |]|];
    cbn; try destruct ca; try destruct neg; cbn; naive_solver.
Qed.

Lemma flags_chk_ok x ct : is_type ct -> ex_flags x = no_flags ->
  let x' := x509v3_load_extensions d2i supported x in
  ((EXFLAG_INVALID (ex_flags x') || negb (EXFLAG_SET (ex_flags x')) = false) /\ 0 <= rescert_flags_chk x' ct <->
   x_same_name x = (ct =? TA_CERT) /\ x_version x <> 0 /\ bc_flag_ok x ct /\ key_usage d2i x = Some (usage_of ct) /\ no_other_kinds x).
Proof.
  intros Hct Hx x'. rewrite flags_chk_flags by done. subst x'. destruct (loaded_flags x Hx) as (inv & -> & ->).
  cbn [EXFLAG_INVALID EXFLAG_SET negb]. rewrite orb_false_r, bc_flag_ok_spec, no_other_kinds_spec by done.
  rewrite <- Z.eqb_neq. unfold flags_of.
  destruct (key_usage d2i x) as [ku|]; cbn [from_option id]; [rewrite (bool_decide_eq_true_2 (is_Some (Some ku))) by (by eexists)|rewrite (bool_decide_eq_false_2 (is_Some (@None Z))) by (by intros [? ?])];
  destruct Hct as [-> |[-> | ->]]; cbn [Z.eqb CA_CERT EE_CERT TA_CERT Pos.eqb negb]; unfold ta_flags, ca_flags, ee_flags; rewrite flags_eq.
  all: split; [intros (Hi & (_ & ? & ? & ? & ? & ? & ? & ? & Hp & ? & ?) & Hk)|intros (? & ? & (? & ? & Hi) & Hk & ? & ? & Hp & ?)].
  all: try done; try (rewrite Hp in *; cbn [andb orb] in *; rewrite ?Hi); try (injection Hk as Hk); subst; tauto.
Qed.
End facts.

(** ** One extension of a kind *)

Definition only_ext (x : X509) (nid : Z) (P : X509_EXTENSION -> Prop) : Prop := exists e, of_nid (x_exts x) nid = [e] /\ P e.
Definition no_ext (x : X509) (nid : Z) : Prop := of_nid (x_exts x) nid = [].

Lemma only_ext_iff x nid P Q : (forall e, P e <-> Q e) -> only_ext x nid P <-> only_ext x nid Q.
Proof. intros H. unfold only_ext. by setoid_rewrite H. Qed.

Lemma must_be_critical_ok e : 0 <= must_be_critical e <-> ext_critical e = true.
Proof. unfold must_be_critical. destruct (ext_critical e); cbn; split; done || lia. Qed.
Lemma must_not_be_critical_ok e : 0 <= must_not_be_critical e <-> ext_critical e = false.
Proof. unfold must_not_be_critical. destruct (ext_critical e); cbn; split; done || lia. Qed.

Definition bc_ext (e : X509_EXTENSION) : Prop := ext_critical e = true /\ ext_value e = Some (XBasicConstraints true None).

Lemma bc_chk_ok e : 0 <= bc_chk e <-> bc_ext e.
Proof.
  unfold bc_chk, bc_ext. destruct (ext_critical e); cbn; [|split; [done || lia|naive_solver]].
  destruct (ext_value e) as [[ca [p|]| | | | | | | | | |]|]; try destruct ca; cbn; split; done || lia || naive_solver.
Qed.

Lemma basic_constraints_ok x ct : is_type ct -> 0 <= rescert_basic_constraints_chk x ct <->
  if ct =? EE_CERT then no_ext x NID_basic_constraints else only_ext x NID_basic_constraints bc_ext.
Proof.
  intros Hct. unfold rescert_basic_constraints_chk.
  assert (Hca : 0 <= (let '(ret, n) := scan NID_basic_constraints bc_chk (x_exts x) 0 in
      if ret <? 0 then ret else if (n =? 0)%nat then ERR_SCM_NOBC else if (1 <? n)%nat then ERR_SCM_DUPBC else 0) <->
      only_ext x NID_basic_constraints bc_ext).
  { rewrite scan_once by done. unfold only_ext. setoid_rewrite bc_chk_ok. split; [by intros [? _]|done]. }
  destruct Hct as [-> |[-> | ->]]; cbn [Z.eqb CA_CERT EE_CERT TA_CERT UN_CERT Pos.eqb orb]; [exact Hca| |exact Hca].
  unfold no_ext. rewrite <- has_ext_of_nid. destruct (has_ext _ _); cbn; split; done || lia.
Qed.

Lemma ski_present_ok x : 0 <= ski_present_chk x <-> only_ext x NID_subject_key_identifier (fun e => ext_critical e = false).
Proof. unfold ski_present_chk. rewrite scan_once by done. unfold only_ext. setoid_rewrite must_not_be_critical_ok. split; [by intros [? _]|done]. Qed.

Lemma key_usage_ok x : 0 <= rescert_key_usage_chk x <-> only_ext x NID_key_usage (fun e => ext_critical e = true).
Proof. unfold rescert_key_usage_chk. rewrite scan_once by done. unfold only_ext. setoid_rewrite must_be_critical_ok. split; [by intros [? _]|done]. Qed.

Lemma extended_key_usage_ok x ct : is_type ct -> 0 <= rescert_extended_key_usage_chk x ct <-> no_ext x NID_ext_key_usage.
Proof.
  intros Hct. unfold no_ext. rewrite <- (scan_none NID_ext_key_usage must_not_be_critical (x_exts x) ERR_SCM_EKU) by done.
  unfold rescert_extended_key_usage_chk. destruct (scan _ _ _ _) as [ret n]. destruct (ret <? 0); [done|].
  destruct Hct as [-> |[-> | ->]]; cbn; by destruct (n =? 0)%nat.
Qed.

Definition aki_ext (e : X509_EXTENSION) : Prop :=
  ext_critical e = false /\ exists k, ext_value e = Some (XAuthKeyId (Some k) false false) /\ length k = 20%nat.

Lemma aki_chk_ok e : 0 <= aki_chk e <-> aki_ext e.
Proof.
  unfold aki_chk, aki_ext. destruct (ext_critical e); cbn; [split; [done || lia|naive_solver]|].
  destruct (ext_value e) as [[| | | | |[k|] i sn| | | | |]|]; try (cbn; split; done || lia || naive_solver).
  destruct i; [cbn; split; [done|naive_solver]|]. destruct sn; [cbn; split; [done|naive_solver]|].
  destruct (Nat.eqb_spec (length k) 20) as [E|E]; cbn [negb].
  - split; [|lia]. intros _. split; [done|]. by exists k.
  - split; [done|]. intros (_ & k' & [= <-] & ?). done.
Qed.

Lemma aki_ok x ct : 0 <= rescert_aki_chk x ct <->
  only_ext x NID_authority_key_identifier aki_ext \/ (ct = TA_CERT /\ no_ext x NID_authority_key_identifier).
Proof.
  unfold rescert_aki_chk, no_ext. destruct (Z.eqb_spec ct TA_CERT) as [->|Hne].
  - pose proof (scan_once NID_authority_key_identifier aki_chk (x_exts x) (-1) ERR_SCM_DUPAKI 0 eq_refl eq_refl) as Ho.
    pose proof (scan_none NID_authority_key_identifier aki_chk (x_exts x) (-1) eq_refl) as Hn.
    unfold only_ext. setoid_rewrite <- aki_chk_ok. destruct (scan _ _ _ _) as [ret n]. destruct (Z.ltb_spec ret 0).
    + split; [lia|]. intros [H'|[_ H']]; [|apply Hn in H'; lia]. assert (0 <= ret); [|lia]. apply Ho. done.
    + destruct n as [|n]; cbn [Nat.eqb andb negb Nat.ltb Nat.leb] in *; [rewrite <- Hn; split; [by right|intros _; lia]|].
      rewrite Ho. split; [intros [? _]; by left|]. intros [?|[_ H']]; [done|]. apply Hn in H'. lia.
  - transitivity ((exists e, of_nid (x_exts x) NID_authority_key_identifier = [e] /\ 0 <= aki_chk e) /\ 0 <= 0).
    + rewrite <- (scan_once _ _ _ ERR_SCM_NOAKI ERR_SCM_DUPAKI) by done. destruct (scan _ _ _ _). by rewrite andb_true_r.
    + unfold only_ext. setoid_rewrite aki_chk_ok. naive_solver.
Qed.
