(* ===== verification/CertChecks.v ===== *)
(** * The certificate profile: facts about the contents of extensions *)

From S2P Require Import Prelude CasnTime CasnNum CasnObjid RpkiObject CmsValidate RpkiDb RpkiVerify CertExt CertProfile CertFacts.

Section checks.
Context (d2i : list X509_EXTENSION -> Z -> bool -> option ext_struct) (Hd2i : d2i_laws d2i).

(** ** Distribution points and access descriptions *)

Definition uris (l : list gen_name) : Prop := Forall (fun g => exists u, g = GEN_URI u) l.
Definition rsync_in (l : list gen_name) : Prop := exists u, GEN_URI u ∈ l /\ is_rsync u = true.

Lemma crldp_names_spec l : forall u r,
  match crldp_names l u r with
  | inl ret => ret < 0 /\ ~ uris l
  | inr (u', r') => uris l /\ u' = (u + length l)%nat /\ (r <= r')%nat /\ ((r < r')%nat <-> rsync_in l)
  end.
Proof.
  induction l as [|[w|] l IH]; intros u r; cbn [crldp_names].
  - split_and!; [constructor|cbn; lia|lia|]. split; [lia|]. intros (? & ?%not_elem_of_nil & _). done.
  - specialize (IH (S u) (if is_rsync w then S r else r)). destruct (crldp_names l _ _) as [ret|[u' r']].
    + destruct IH as [? Hn]. split; [done|]. intros Hx%Forall_inv_tail. done.
    + destruct IH as (Hu & -> & Hle & Hr). split_and!; [constructor; [by exists w|done]|cbn; lia|destruct (is_rsync w); lia|].
      unfold rsync_in in *. setoid_rewrite elem_of_cons. destruct (is_rsync w) eqn:E.
      * split; [|lia]. intros _. exists w. split; [by left|done].
      * rewrite Hr. split; [naive_solver|]. intros (w' & [[= ->]|?] & ?); [congruence|]. by exists w'.
  - split; [done|]. intros Hx%Forall_inv. naive_solver.
Qed.

Definition point_ok (p : DIST_POINT) (names : list gen_name) : Prop :=
  dp_reasons p = false /\ dp_CRLissuer p = false /\ dp_distpoint p = Some (fullname names) /\ uris names.

(** Every point is just a list of URIs; the names are those of all points. *)
Lemma crldp_points_spec l : forall u r,
  match crldp_points l u r with
  | inl ret => ret < 0 /\ ~ Forall (fun p => exists names, point_ok p names) l
  | inr (u', r') => exists names, Forall2 point_ok l names /\ u' = (u + length (concat names))%nat /\ (r <= r')%nat /\
                      ((r < r')%nat <-> rsync_in (concat names))
  end.
Proof.
  induction l as [|p l IH]; intros u r; cbn [crldp_points].
  { exists []. split_and!; [constructor|cbn; lia|lia|]. split; [lia|]. intros (? & ?%not_elem_of_nil & _). done. }
  assert (Hno : (forall names, ~ point_ok p names) -> ~ Forall (fun p => exists names, point_ok p names) (p :: l)).
  { intros Hp Hx%Forall_inv. destruct Hx as [names Hx]. by apply (Hp names). }
  destruct (dp_reasons p || dp_CRLissuer p) eqn:E.
  { split; [done|]. apply Hno. intros names (H1 & H2 & _). by rewrite H1, H2 in E. }
  apply orb_false_iff in E as [E1 E2].
  destruct (dp_distpoint p) as [[names|]|] eqn:E3; [|split; [done|]; apply Hno; intros ? (_ & _ & ? & _); congruence..].
  pose proof (crldp_names_spec names u r) as Hn. destruct (crldp_names names u r) as [ret|[u1 r1]].
  { destruct Hn as [? Hn]. split; [done|]. apply Hno. intros names' (_ & _ & E4 & Hu). congruence. }
  destruct Hn as (Hu & -> & Hle & Hr). specialize (IH (u + length names)%nat r1).
  destruct (crldp_points l _ r1) as [ret|[u' r']].
  { destruct IH as [? Hn]. split; [done|]. by intros Hx%Forall_inv_tail. }
  destruct IH as (nl & Hl & -> & Hle' & Hr'). exists (names :: nl). split_and!.
  - by constructor.
  - cbn [concat]. rewrite length_app. lia.
  - lia.
  - unfold rsync_in in *. cbn [concat]. setoid_rewrite elem_of_app. split.
    + intros Hlt. destruct (decide (r < r1)%nat) as [H1|H1].
      * apply Hr in H1 as (w & ? & ?). exists w. split; [by left|done].
      * destruct (proj1 Hr') as (w & ? & ?); [lia|]. exists w. split; [by right|done].
    + intros (w & [Hw|Hw] & Hw2); [assert (r < r1)%nat by (apply Hr; by exists w); lia|].
      assert (r1 < r')%nat by (apply Hr'; by exists w). lia.
Qed.

(** A distribution point extension with only URIs, one of them for rsync. *)
Definition crldp_ext (e : X509_EXTENSION) : Prop :=
  ext_critical e = false /\ exists l names, ext_value e = Some (XDistPoints l) /\ Forall2 point_ok l names /\ rsync_in (concat names).

Lemma rsync_in_length l : rsync_in l -> l <> [].
Proof. intros (u & Hu & _) ->. by apply not_elem_of_nil in Hu. Qed.

Lemma point_ok_unique l n1 : Forall2 point_ok l n1 -> forall n2, Forall2 point_ok l n2 -> n1 = n2.
Proof.
  induction 1 as [|p names l nl (_ & _ & E & _) _ IH]; intros n2 H2; inversion H2 as [|? ? ? ? (_ & _ & E' & _) ?]; subst; [done|].
  f_equal; [congruence|by apply IH].
Qed.

Lemma crldp_ok x ct : 0 <= rescert_crldp_chk d2i x ct <->
  if ct =? TA_CERT then no_ext x NID_crl_distribution_points else only_ext x NID_crl_distribution_points crldp_ext.
Proof.
  unfold rescert_crldp_chk, no_ext. destruct (ct =? TA_CERT); [by rewrite scan_none|].
  rewrite scan_once by done. unfold only_ext. setoid_rewrite must_not_be_critical_ok. split.
  - intros [(e & E & Hc) Hk]. exists e. split; [done|]. split; [done|]. rewrite (d2i_one _ Hd2i _ _ _ _ E) in Hk.
    destruct (ext_value e) as [[]|]; try done. pose proof (crldp_points_spec l 0 0) as Hp.
    destruct (crldp_points l 0 0) as [ret|[u r]]; [lia|]. destruct Hp as (names & Hp & -> & _ & Hr).
    exists l, names. split_and!; [done|done|]. apply Hr. destruct (Nat.eqb_spec r 0); [|lia]. by destruct (_ =? 0)%nat in Hk.
  - intros (e & E & Hc & l & names & Ev & Hp & Hr). split; [by exists e|]. rewrite (d2i_one _ Hd2i _ _ _ _ E), Ev.
    pose proof (crldp_points_spec l 0 0) as Hs. destruct (crldp_points l 0 0) as [ret|[u r]].
    { destruct Hs as [_ []]. clear -Hp. induction Hp; constructor; [by eexists|done]. }
    destruct Hs as (names' & Hp' & -> & _ & Hr'). rewrite (point_ok_unique _ _ Hp' _ Hp) in Hr' |- *.
    pose proof (rsync_in_length _ Hr). apply Hr' in Hr. rewrite !(proj2 (Nat.eqb_neq _ _)); [lia|lia|].
    destruct (concat names); [done|]. cbn. lia.
Qed.

(** An access description extension with only URIs, one of them the issuer's by rsync. *)
Definition aia_ext (e : X509_EXTENSION) : Prop :=
  ext_critical e = false /\ exists l, ext_value e = Some (XAccess l) /\ uris (map ad_location l) /\
  exists a u, a ∈ l /\ ad_method a = aia_oid /\ ad_location a = GEN_URI u /\ is_rsync u = true.

Lemma aia_uris_spec l : forall n,
  match aia_uris l n with
  | inl ret => ret < 0 /\ ~ uris (map ad_location l)
  | inr n' => uris (map ad_location l) /\ (n <= n')%nat /\
      ((n < n')%nat <-> exists a u, a ∈ l /\ ad_method a = aia_oid /\ ad_location a = GEN_URI u /\ is_rsync u = true)
  end.
Proof.
  induction l as [|a l IH]; intros n; cbn [aia_uris map].
  { split_and!; [constructor|lia|]. split; [lia|]. intros (? & ? & ?%not_elem_of_nil & _). done. }
  destruct (ad_location a) as [u|] eqn:Ea; [|split; [done|]; intros Hx%Forall_inv; naive_solver].
  specialize (IH (if bool_decide (ad_method a = aia_oid) && is_rsync u then S n else n)).
  destruct (aia_uris l _) as [ret|n'].
  { destruct IH as [? Hn]. split; [done|]. by intros Hx%Forall_inv_tail. }
  destruct IH as (Hu & Hle & Hr). split_and!; [constructor; [by exists u|done]|destruct (_ && _); lia|].
  setoid_rewrite elem_of_cons. destruct (bool_decide (ad_method a = aia_oid) && is_rsync u) eqn:E.
  - apply andb_true_iff in E as [E%bool_decide_eq_true E']. split; [|lia]. intros _. exists a, u. split_and!; [by left|done..].
  - rewrite Hr. split; [naive_solver|]. intros (a' & u' & [->|Hin] & Hm & Hl & Hs).
    + apply andb_false_iff in E as [E%bool_decide_eq_false|E]; congruence.
    + by exists a', u'.
Qed.

Lemma aia_ok x ct : 0 <= rescert_aia_chk d2i x ct <->
  if ct =? TA_CERT then no_ext x NID_info_access else only_ext x NID_info_access aia_ext.
Proof.
  unfold rescert_aia_chk, no_ext. destruct (ct =? TA_CERT); [by rewrite scan_none|].
  rewrite scan_once by done. unfold only_ext. setoid_rewrite must_not_be_critical_ok. split.
  - intros [(e & E & Hc) Hk]. exists e. split; [done|]. split; [done|]. rewrite (d2i_one _ Hd2i _ _ _ _ E) in Hk.
    destruct (ext_value e) as [[]|]; try done. pose proof (aia_uris_spec l 0) as Hp.
    destruct (aia_uris l 0) as [ret|n]; [lia|]. destruct Hp as (Hu & _ & Hr).
    exists l. split_and!; [done|done|]. apply Hr. destruct (Nat.eqb_spec n 0); [done|lia].
  - intros (e & E & Hc & l & Ev & Hu & Hr). split; [by exists e|]. rewrite (d2i_one _ Hd2i _ _ _ _ E), Ev.
    pose proof (aia_uris_spec l 0) as Hs. destruct (aia_uris l 0) as [ret|n]; [by destruct Hs as [_ []]|].
    destruct Hs as (_ & _ & Hr'). apply Hr' in Hr. rewrite (proj2 (Nat.eqb_neq _ _)); lia.
Qed.

(** ** Policies and critical extensions *)

(** The policy of the RPKI, with at most the qualifier for a statement. *)
Definition policy_ext (e : X509_EXTENSION) : Prop :=
  ext_critical e = true /\ exists p, ext_value e = Some (XPolicies [p]) /\ policyid p = oid_policy_id /\
  (qualifiers p = None \/ qualifiers p = Some [NID_id_qt_cps]).

Lemma policy_ok x : accepts (rescert_cert_policy_chk d2i x) (only_ext x NID_certificate_policies policy_ext).
Proof.
  unfold accepts, rescert_cert_policy_chk. 
  destruct (scan_spec NID_certificate_policies must_be_critical (x_exts x) 0) as [Hf Hs].
  destruct (scan _ _ _ 0) as [ret n]. cbn [fst] in *. unfold only_ext. destruct (Z.ltb_spec ret 0) as [Hr|Hr].
  { split; [intros (v & [= <-] & ?); lia|]. intros (e & E & He & _). rewrite E in Hf. assert (0 <= ret); [|lia].
    apply Hf. repeat constructor. by apply must_be_critical_ok. }
  specialize (Hs Hr). injection Hs as -> ->. apply Hf in Hr. destruct (of_nid (x_exts x) NID_certificate_policies) as [|e [|? ?]] eqn:E; cbn [length Nat.eqb Nat.ltb Nat.leb].
  1,3: split; [by intros (v & [= <-] & ?)|by intros (? & ? & _)].
  apply Forall_inv in Hr. apply must_be_critical_ok in Hr. rewrite (d2i_one _ Hd2i _ _ _ _ E). unfold policy_ext.
  destruct (ext_value e) as [[]|] eqn:Ev; try (split; [by intros (v & [= <-] & ?)|intros (? & [= <-] & _ & p & ? & _); congruence]).
  destruct l as [|p [|? ?]]; try (split; [by intros (v & [= <-] & ?)|intros (? & [= <-] & _ & p' & ? & _); congruence]).
  case_bool_decide as Hp; cbn [negb].
  2: split; [by intros (v & [= <-] & ?)|intros (? & [= <-] & _ & p' & ? & ? & _); congruence].
  destruct (qualifiers p) as [[|q [|? ?]]|] eqn:Eq; cbn.
  - split; [by intros (v & ? & ?)|]. intros (? & [= <-] & _ & p' & ? & ? & [?|?]); congruence.
  - destruct (Z.eqb_spec q NID_id_qt_cps) as [->|Hq]; cbn.
    + split; [|by exists 0]. intros _. exists e. split_and!; [done|done|]. exists p. split_and!; [done|done|by right].
    + split; [by intros (v & [= <-] & ?)|]. intros (? & [= <-] & _ & p' & ? & ? & [?|?]); congruence.
  - split; [by intros (v & [= <-] & ?)|]. intros (? & [= <-] & _ & p' & ? & ? & [?|?]); congruence.
  - split; [|by exists 0]. intros _. exists e. split_and!; [done|done|]. exists p. split_and!; [done|done|by left].
Qed.

Lemma criticals_ok exts : 0 <= rescert_criticals_chk exts <->
  Forall (fun e => ext_critical e = true -> ext_nid e ∈ supported_nids) exts.
Proof.
  induction exts as [|e exts IH]; cbn [rescert_criticals_chk]; [split; [constructor|done]|]. rewrite Forall_cons.
  destruct (ext_critical e); cbn [negb]; [|rewrite IH; naive_solver].
  unfold rescert_crit_ext_chk. destruct (zin (ext_nid e) supported_nids) eqn:Ez.
  - apply zin_In in Ez. destruct (Z.eqb_spec (ext_nid e) NID_undef) as [E0|_]; [exfalso; rewrite E0 in Ez; apply zin_In in Ez; done|].
    cbn. rewrite IH. naive_solver.
  - apply zin_notIn in Ez. destruct (ext_nid e =? NID_undef); cbn; (split; [done|]; intros [H _]; by destruct Ez; apply H).
Qed.
End checks.
