(* ===== verification/CertDecoded.v ===== *)
(** * The certificate profile: facts about the decoded certificate *)

From S2P Require Import Prelude CasnTime CasnNum CasnObjid RpkiObject CmsValidate RpkiDb RpkiVerify CertExt CertProfile CertFacts CertChecks.

(** ** Extensions *)

Definition of_oid (exts : list Extension) (o : list Z) : list Extension := List.filter (fun e => bool_decide (extnID e = o)) exts.

Definition wf_exts (exts : list Extension) : Prop := Forall (fun e => wf_oid (extnID e)) exts.

Lemma get_extension_spec exts a b l : wf_exts exts -> oid_ok a b l -> forall ret cnt, (cnt = 0%nat -> ret = None) ->
  get_extension_loop exts (oid_text a b l) ret cnt =
    Some (if (cnt =? 0)%nat then head (of_oid exts (oid_bytes a b l)) else ret, (cnt + length (of_oid exts (oid_bytes a b l)))%nat).
Proof.
  intros Hw Hok. induction Hw as [|e exts He Hw IH]; intros ret cnt Hr; cbn [get_extension_loop of_oid List.filter].
  { cbn. rewrite Nat.add_0_r. destruct (Nat.eqb_spec cnt 0) as [E|_]; [by rewrite Hr|done]. }
  rewrite same_oid by done. cbn [mbind option_bind]. case_bool_decide as E.
  - rewrite IH by lia. fold (of_oid exts (oid_bytes a b l)). cbn [length Nat.eqb head].
    replace (S cnt + length (of_oid exts (oid_bytes a b l)))%nat with (cnt + S (length (of_oid exts (oid_bytes a b l))))%nat by lia. done.
  - by rewrite IH.
Qed.

Lemma get_extension_oid c a b l : wf_exts (extensions c) -> oid_ok a b l ->
  get_extension c (oid_text a b l) =
    Some (head (of_oid (extensions c) (oid_bytes a b l)), length (of_oid (extensions c) (oid_bytes a b l))).
Proof. intros Hw Hok. unfold get_extension. by rewrite get_extension_spec. Qed.

Lemma find_extension_oid exts a b l : wf_exts exts -> oid_ok a b l ->
  find_extension exts (oid_text a b l) = Some (head (of_oid exts (oid_bytes a b l))).
Proof.
  intros Hw Hok. unfold find_extension. induction Hw as [|e exts He Hw IH]; cbn [find_first of_oid List.filter]; [done|].
  rewrite same_oid by done. cbn [mbind option_bind]. case_bool_decide as E; [done|]. exact IH.
Qed.

Definition oid_basicConstraints := oid_bytes 2 5 [29; 19].
Definition oid_subjectKeyIdentifier := oid_bytes 2 5 [29; 14].
Definition oid_subjectInfoAccess := oid_bytes 1 3 [6; 1; 5; 5; 7; 1; 11].
Definition oid_ipAddrBlock := oid_bytes 1 3 [6; 1; 5; 5; 7; 1; 7].
Definition oid_autonomousSysNum := oid_bytes 1 3 [6; 1; 5; 5; 7; 1; 8].
Definition oid_caRepository := oid_bytes 1 3 [6; 1; 5; 5; 7; 48; 5].
Definition oid_rpkiManifest := oid_bytes 1 3 [6; 1; 5; 5; 7; 48; 10].
Definition oid_signedObject := oid_bytes 1 3 [6; 1; 5; 5; 7; 48; 11].
Definition oid_commonName := oid_bytes 2 5 [4; 3].
Definition oid_serialNumber := oid_bytes 2 5 [4; 5].

Lemma get_cert_type_spec c : wf_exts (extensions c) ->
  get_cert_type c = Some (if bool_decide (of_oid (extensions c) oid_basicConstraints = []) then EE_CERT else CA_CERT).
Proof.
  unfold get_cert_type. intros Hw. induction Hw as [|e exts He Hw IH]; cbn [get_cert_type_loop of_oid List.filter]; [done|].
  unfold id_basicConstraints. rewrite same_oid; [|done|oid_ok_tac]. cbn [mbind option_bind]. fold oid_basicConstraints.
  destruct (decide (extnID e = oid_basicConstraints)) as [E|E];
    [rewrite (bool_decide_eq_true_2 _ E), bool_decide_eq_false_2; done|rewrite (bool_decide_eq_false_2 _ E); exact IH].
Qed.

(** ** Subject information access *)

Definition rsync_access (l : list AccessDescription) (method : list Z) : Prop :=
  exists a u, a ∈ l /\ accessMethod a = method /\ accessLocation a = url u /\ is_rsync u = true.

Lemma rsync_access_cons a l m :
  rsync_access (a :: l) m <-> (accessMethod a = m /\ exists u, accessLocation a = url u /\ is_rsync u = true) \/ rsync_access l m.
Proof. unfold rsync_access. setoid_rewrite elem_of_cons. naive_solver. Qed.

Lemma rsync_url u : (exists u', url u = url u' /\ is_rsync u' = true) <-> is_rsync u = true.
Proof. split; [by intros (? & [= <-] & ?)|by exists u]. Qed.
Lemma rsync_other : (exists u', gn_other = url u' /\ is_rsync u' = true) <-> False.
Proof. split; [by intros (? & ? & ?)|done]. Qed.

Lemma rsync_access_nil m : ~ rsync_access [] m.
Proof. intros (a & u & ?%not_elem_of_nil & _). done. Qed.

Lemma sia_ca_spec l : Forall (fun a => wf_oid (accessMethod a)) l -> forall repo mft, exists r m, sia_ca_loop l repo mft = Some (r, m) /\
  (r = true <-> repo = true \/ rsync_access l oid_caRepository) /\ (m = true <-> mft = true \/ rsync_access l oid_rpkiManifest).
Proof.
  induction 1 as [|a l Ha Hl IH]; intros repo mft; cbn [sia_ca_loop].
  { exists repo, mft. split; [done|]. pose proof (rsync_access_nil oid_caRepository). pose proof (rsync_access_nil oid_rpkiManifest). tauto. }
  setoid_rewrite rsync_access_cons. unfold id_ad_caRepository, id_ad_rpkiManifest.
  rewrite !same_oid; [|done|oid_ok_tac|done|oid_ok_tac]. fold oid_caRepository oid_rpkiManifest. cbn [mbind option_bind].
  assert (Hne : oid_caRepository <> oid_rpkiManifest) by done.
  destruct (accessLocation a) as [u|].
  2: { destruct (IH repo mft) as (r & m & -> & Hr & Hm). exists r, m. split; [done|]. rewrite Hr, Hm, rsync_other. tauto. }
  case_bool_decide as E1; [|case_bool_decide as E2].
  - destruct (IH (is_rsync u || repo) mft) as (r & m & -> & Hr & Hm). exists r, m. split; [done|].
    assert (accessMethod a <> oid_rpkiManifest) by congruence. rewrite Hr, Hm, rsync_url, orb_true_iff. tauto.
  - destruct (IH repo (is_rsync u || mft)) as (r & m & -> & Hr & Hm). exists r, m. split; [done|].
    rewrite Hr, Hm, rsync_url, orb_true_iff. tauto.
  - destruct (IH repo mft) as (r & m & -> & Hr & Hm). exists r, m. split; [done|]. rewrite Hr, Hm. tauto.
Qed.

Lemma sia_ee_spec l : Forall (fun a => wf_oid (accessMethod a)) l -> forall obj,
  match sia_ee_loop l obj with
  | Some (inl ret) => ret < 0 /\ ~ Forall (fun a => accessMethod a = oid_signedObject) l
  | Some (inr o) => Forall (fun a => accessMethod a = oid_signedObject) l /\ (o = true <-> obj = true \/ rsync_access l oid_signedObject)
  | None => False
  end.
Proof.
  induction 1 as [|a l Ha Hl IH]; intros obj; cbn [sia_ee_loop].
  { split; [constructor|]. pose proof (rsync_access_nil oid_signedObject). tauto. }
  unfold id_ad_signedObject. rewrite same_oid; [|done|oid_ok_tac]. fold oid_signedObject. cbn [mbind option_bind].
  case_bool_decide as E; [|split; [done|]; by intros Hx%Forall_inv].
  specialize (IH (match accessLocation a with url u => is_rsync u || obj | gn_other => obj end)).
  destruct (sia_ee_loop l _) as [[ret|o]|]; [|destruct IH as [Hf Ho]; split; [by constructor|]|done].
  - destruct IH as [? Hn]. split; [done|]. by intros Hx%Forall_inv_tail.
  - rewrite Ho, rsync_access_cons. destruct (accessLocation a) as [u|]; [rewrite rsync_url, orb_true_iff|rewrite rsync_other]; tauto.
Qed.

Definition not_critical (e : Extension) : Prop := extn_critical e = None \/ extn_critical e = Some [] \/ extn_critical e = Some [0].

(** A certificate of an authority names a repository and a manifest, another one
    only its signed object. *)
Definition sia_ext (c : Certificate) (e : Extension) : Prop :=
  not_critical e /\
  if bool_decide (of_oid (extensions c) oid_basicConstraints = []) then
    Forall (fun a => accessMethod a = oid_signedObject) (subjectInfoAccess e) /\ rsync_access (subjectInfoAccess e) oid_signedObject
  else rsync_access (subjectInfoAccess e) oid_caRepository /\ rsync_access (subjectInfoAccess e) oid_rpkiManifest.

Definition wf_sia (c : Certificate) : Prop :=
  Forall (fun e => Forall (fun a => wf_oid (accessMethod a)) (subjectInfoAccess e)) (extensions c).

Lemma of_oid_in exts o e : e ∈ of_oid exts o -> e ∈ exts.
Proof. unfold of_oid. rewrite !list_elem_of_In, filter_In. tauto. Qed.

Lemma sia_ok c : wf_exts (extensions c) -> wf_sia c ->
  accepts (rescert_sia_chk c) (exists e, of_oid (extensions c) oid_subjectInfoAccess = [e] /\ sia_ext c e).
Proof.
  intros Hw Hs. unfold rescert_sia_chk, id_pe_subjectInfoAccess. rewrite get_extension_oid; [|done|oid_ok_tac].
  fold oid_subjectInfoAccess. cbn [mbind option_bind].
  destruct (of_oid (extensions c) oid_subjectInfoAccess) as [|e [|? ?]] eqn:E; cbn [length Nat.eqb Nat.ltb Nat.leb head].
  1,3: apply accepts_some; split; [done|by intros (? & ? & _)].
  assert (Hin : e ∈ extensions c) by (apply (of_oid_in _ oid_subjectInfoAccess); rewrite E; left).
  unfold wf_sia in Hs. rewrite Forall_forall in Hs. specialize (Hs e Hin). unfold accepts, sia_ext, not_critical.
  assert (Hone : forall P : Extension -> Prop, (exists e', [e] = [e'] /\ P e') <-> P e) by (intros P; split; [by intros (? & [= <-] & ?)|by exists e]).
  rewrite Hone. rewrite get_cert_type_spec by done. cbn [mbind option_bind].
  assert (Hrest : (exists v, (if (if bool_decide (of_oid (extensions c) oid_basicConstraints = []) then EE_CERT else CA_CERT) =? CA_CERT
      then '(repo, mft) ← sia_ca_loop (subjectInfoAccess e) false false;
           Some (if negb repo then ERR_SCM_BADSIA else if negb mft then ERR_SCM_BADSIA else 0)
      else r ← sia_ee_loop (subjectInfoAccess e) false;
           Some match r with inl ret => ret | inr obj => if negb obj then ERR_SCM_BADSIA else 0 end) = Some v /\ 0 <= v) <->
    if bool_decide (of_oid (extensions c) oid_basicConstraints = [])
    then Forall (fun a => accessMethod a = oid_signedObject) (subjectInfoAccess e) /\ rsync_access (subjectInfoAccess e) oid_signedObject
    else rsync_access (subjectInfoAccess e) oid_caRepository /\ rsync_access (subjectInfoAccess e) oid_rpkiManifest).
  { case_bool_decide; cbn [Z.eqb EE_CERT CA_CERT Pos.eqb].
    - pose proof (sia_ee_spec _ Hs false) as He. destruct (sia_ee_loop _ false) as [[ret|o]|]; [| |done]; cbn [mbind option_bind].
      + destruct He as [Hlt Hn]. split; [intros (v & [= <-] & ?); lia|by intros [? _]].
      + destruct He as [Hf Ho]. destruct o; cbn [negb].
        * split; [intros _; split; [done|]; destruct (proj1 Ho eq_refl); done|by exists 0].
        * split; [by intros (v & [= <-] & ?)|]. intros [_ Hr]. assert (false = true) by (apply Ho; by right). done.
    - destruct (sia_ca_spec _ Hs false false) as (r & m & -> & Hr & Hm). cbn [mbind option_bind].
      assert (Hr' : r = true <-> rsync_access (subjectInfoAccess e) oid_caRepository) by (rewrite Hr; naive_solver).
      assert (Hm' : m = true <-> rsync_access (subjectInfoAccess e) oid_rpkiManifest) by (rewrite Hm; naive_solver).
      rewrite <- Hr', <- Hm'. destruct r, m; cbn [negb]; [split; [done|by exists 0]|..];
        (split; [by intros (v & [= <-] & ?)|by intros [? ?]]). }
  destruct (extn_critical e) as [[|b [|? ?]]|] eqn:Ec; cbn [mbind option_bind].
  - rewrite Hrest. naive_solver.
  - destruct (Z.eqb_spec b 0) as [->|Hb]; cbn [negb]; [rewrite Hrest; naive_solver|].
    split; [by intros (v & [= <-] & ?)|]. intros [[?|[?|?]] _]; congruence.
  - split; [by intros (v & ? & ?)|]. intros [[?|[?|?]] _]; congruence.
  - rewrite Hrest. naive_solver.
Qed.

(** ** Resources *)

Definition is_critical (e : Extension) : Prop := exists b, extn_critical e = Some [b] /\ b <> 0.

Lemma critical_chk_ok e : (critical_chk e <? 0) = false <-> is_critical e.
Proof.
  unfold critical_chk, is_critical. destruct (extn_critical e) as [[|b [|? ?]]|]; cbn; try (split; [done|naive_solver]).
  destruct (Z.eqb_spec b 0); cbn; split; [done|naive_solver|by exists b|done].
Qed.

Definition family_contents (f : IPAddressFamilyA) : bool :=
  match ipAddressChoice f with inherit => true | addressesOrRanges l => (0 <? length l)%nat end.

(** Families without a SAFI, one of which says something; no trust anchor inherits. *)
Definition families_ok (ct : Z) (l : list IPAddressFamilyA) : Prop :=
  Forall (fun f => length (cert_addressFamily f) = 2%nat /\ (ct = TA_CERT -> is_inherit f = false)) l /\
  Exists (fun f => family_contents f = true) l.

Lemma ip_families_spec ct l : forall have,
  0 <= ip_families_chk ct l have <-> Forall (fun f => length (cert_addressFamily f) = 2%nat /\ (ct = TA_CERT -> is_inherit f = false)) l /\
    (have = true \/ Exists (fun f => family_contents f = true) l).
Proof.
  induction l as [|f l IH]; intros have; cbn [ip_families_chk].
  { destruct have; cbn; split; [intros _; split; [constructor|by left]|done|done|]. intros [_ [?|Hx]]; [done|]. inversion Hx. }
  rewrite Forall_cons, Exists_cons. destruct (Nat.eqb_spec (length (cert_addressFamily f)) 2) as [E|E]; cbn [negb];
    [|split; [done|]; by intros [[[? _] _] _]].
  fold (family_contents f). destruct (Z.eqb_spec ct TA_CERT) as [->|Hct]; destruct (is_inherit f); cbn [andb].
  - split; [done|]. intros [[[_ Hx] _] _]. by specialize (Hx eq_refl).
  - rewrite IH, orb_true_iff. tauto.
  - rewrite IH, orb_true_iff. tauto.
  - rewrite IH, orb_true_iff. tauto.
Qed.

Lemma ip_families_one ct l have : 0 <= ip_families_chk ct l have -> ip_families_chk ct l have = 1.
Proof.
  revert have. induction l as [|f l IH]; intros have; cbn [ip_families_chk]; [by destruct have|].
  destruct (negb _); [done|]. destruct (_ && _); [done|]. apply IH.
Qed.

(** How a check for resources ends well: there are none, or they are right. *)
Definition resources_ok (r : option Z) (l : list Extension) (P : Extension -> Prop) : Prop :=
  forall v, (r = Some v /\ 0 <= v) <-> (v = 0 /\ l = []) \/ (v = 1 /\ exists e, l = [e] /\ is_critical e /\ P e).

Lemma ip_resources_ok c ct : wf_exts (extensions c) ->
  resources_ok (rescert_ip_resources_chk c ct) (of_oid (extensions c) oid_ipAddrBlock) (fun e => families_ok ct (ipAddressBlock e)).
Proof.
  intros Hw v. unfold rescert_ip_resources_chk, id_pe_ipAddrBlock. rewrite get_extension_oid; [|done|oid_ok_tac].
  fold oid_ipAddrBlock. cbn [mbind option_bind]. destruct (of_oid (extensions c) oid_ipAddrBlock) as [|e [|? ?]]; cbn [head length Nat.ltb Nat.leb].
  - split; [by intros [[= <-] _]; left|]. by intros [[-> _]|[_ (? & ? & _)]].
  - pose proof (critical_chk_ok e) as Hc. destruct (critical_chk e <? 0) eqn:E.
    + apply Z.ltb_lt in E. split; [intros [[= <-] ?]; lia|]. intros [[_ ?]|[_ (e' & [= <-] & Hcr & _)]]; [done|]. by apply Hc in Hcr.
    + pose proof (ip_families_spec ct (ipAddressBlock e) false) as Hf. unfold families_ok. split.
      * intros [[= <-] Hv]. right. split; [by apply ip_families_one|]. exists e. apply Hf in Hv as [? [?|?]]; [done|].
        split; [done|]. by split; [apply Hc|].
      * intros [[_ ?]|[-> (e' & [= <-] & _ & Hfam & Hex)]]; [done|]. split; [|done]. f_equal. apply ip_families_one, Hf. tauto.
  - split; [by intros [[= <-] ?]|]. intros [[_ ?]|[_ (? & ? & _)]]; done.
Qed.

(** No routing domain identifiers; numbers or ranges, or inherited below an anchor. *)
Definition as_ok (ct : Z) (a : ASNum) : Prop :=
  rdi a = None /\ ((asnum a = Some as_inherit /\ ct <> TA_CERT) \/ exists x l, asnum a = Some (asNumbersOrRanges (x :: l))).

Lemma as_resources_ok c ct : wf_exts (extensions c) ->
  resources_ok (rescert_as_resources_chk c ct) (of_oid (extensions c) oid_autonomousSysNum) (fun e => as_ok ct (autonomousSysNum e)).
Proof.
  intros Hw v. unfold rescert_as_resources_chk, id_pe_autonomousSysNum. rewrite get_extension_oid; [|done|oid_ok_tac].
  fold oid_autonomousSysNum. cbn [mbind option_bind]. destruct (of_oid (extensions c) oid_autonomousSysNum) as [|e [|? ?]]; cbn [head length Nat.ltb Nat.leb].
  - split; [by intros [[= <-] _]; left|]. by intros [[-> _]|[_ (? & ? & _)]].
  - pose proof (critical_chk_ok e) as Hc. destruct (critical_chk e <? 0) eqn:E.
    + apply Z.ltb_lt in E. split; [intros [[= <-] ?]; lia|]. intros [[_ ?]|[_ (e' & [= <-] & Hcr & _)]]; [done|]. by apply Hc in Hcr.
    + assert (Hcr : is_critical e) by (by apply Hc). unfold as_ok.
      assert (Hone : forall P : Prop, (v = 0 /\ [e] = [] \/ v = 1 /\ exists e', [e] = [e'] /\ is_critical e' /\ P) <-> v = 1 /\ P)
        by (intros P; split; [intros [[_ ?]|[? (? & _ & _ & ?)]]; done|intros [-> ?]; right; split; [done|]; by exists e]).
      destruct (rdi (autonomousSysNum e)) as [r|] eqn:Er.
      { split; [by intros [[= <-] ?]|]. intros [[_ ?]|[_ (e' & [= <-] & _ & ? & _)]]; congruence. }
      destruct (asnum (autonomousSysNum e)) as [[|[|x l]]|] eqn:Ea; cbn [length Nat.leb].
      * destruct (Z.eqb_spec ct TA_CERT) as [->|Hct].
        -- split; [by intros [[= <-] ?]|]. intros [[_ ?]|[_ (e' & [= <-] & _ & _ & [[_ ?]|(? & ? & ?)])]]; congruence.
        -- split; [intros [[= <-] _]; right; split; [done|]; exists e; split_and!; [done|done|done|by left]|].
           by intros [[_ ?]|[-> _]].
      * split; [by intros [[= <-] ?]|]. intros [[_ ?]|[_ (e' & [= <-] & _ & _ & [[? _]|(? & ? & ?)])]]; congruence.
      * split; [intros [[= <-] _]; right; split; [done|]; exists e; split_and!; [done|done|done|right; by exists x, l]|].
        by intros [[_ ?]|[-> _]].
      * split; [by intros [[= <-] ?]|]. intros [[_ ?]|[_ (e' & [= <-] & _ & _ & [[? _]|(? & ? & ?)])]]; congruence.
  - split; [by intros [[= <-] ?]|]. intros [[_ ?]|[_ (? & ? & _)]]; done.
Qed.

Section resources.
Context (d2i : list X509_EXTENSION -> Z -> bool -> option ext_struct) (Hd2i : d2i_laws d2i).
Context (addr_canonical asid_canonical : list Z -> bool).

Definition canonical_ext (canonical : list Z -> bool) (e : X509_EXTENSION) : Prop :=
  exists der, ext_value e = Some (XResources der) /\ canonical der = true.

Lemma canonical_ok x nid canonical err : err < 0 ->
  0 <= canonical_chk d2i x nid canonical err <-> only_ext x nid (canonical_ext canonical).
Proof.
  intros He. unfold canonical_chk, only_ext, canonical_ext. destruct (of_nid (x_exts x) nid) as [|e [|e' l]] eqn:E.
  - rewrite (d2i_none _ Hd2i) by done. split; [lia|by intros (? & ? & _)].
  - rewrite (d2i_one _ Hd2i _ _ _ _ E). destruct (ext_value e) as [[]|] eqn:Ev;
      try (split; [lia|intros (? & [= <-] & der & ? & _); congruence]).
    destruct (canonical der) eqn:Ec; cbn [negb].
    + split; [|lia]. intros _. exists e. split; [done|]. by exists der.
    + split; [lia|]. intros (? & [= <-] & der' & ? & ?). congruence.
  - rewrite (d2i_many _ Hd2i) by (rewrite E; cbn; lia). split; [lia|by intros (? & ? & _)].
Qed.

(** The resources of one kind, in both views. *)
Definition resource_ext (x : X509) (nid : Z) (canonical : list Z -> bool) (l : list Extension) (P : Extension -> Prop) : Prop :=
  (exists e, l = [e] /\ is_critical e /\ P e) /\ only_ext x nid (canonical_ext canonical).

Definition resources_profile (x : X509) (c : Certificate) (ct : Z) : Prop :=
  let ip := of_oid (extensions c) oid_ipAddrBlock in
  let as_ := of_oid (extensions c) oid_autonomousSysNum in
  (ip = [] \/ resource_ext x NID_sbgp_ipAddrBlock addr_canonical ip (fun e => families_ok ct (ipAddressBlock e))) /\
  (as_ = [] \/ resource_ext x NID_sbgp_autonomousSysNum asid_canonical as_ (fun e => as_ok ct (autonomousSysNum e))) /\
  ~ (ip = [] /\ as_ = []).

Lemma resources_profile_ok x c ct : wf_exts (extensions c) ->
  accepts (rescert_ip_asnum_chk d2i addr_canonical asid_canonical x c ct) (resources_profile x c ct).
Proof.
  intros Hw. unfold accepts, rescert_ip_asnum_chk, resources_profile, resource_ext.
  pose proof (ip_resources_ok c ct Hw) as Hi. pose proof (as_resources_ok c ct Hw) as Ha. unfold resources_ok in *.
  pose proof (canonical_ok x NID_sbgp_ipAddrBlock addr_canonical ERR_SCM_INVALIPB eq_refl) as Ci.
  pose proof (canonical_ok x NID_sbgp_autonomousSysNum asid_canonical ERR_SCM_BADASRANGE eq_refl) as Ca.
  set (I := of_oid _ oid_ipAddrBlock) in *. set (A := of_oid _ oid_autonomousSysNum) in *.
  set (PI := exists e, I = [e] /\ is_critical e /\ families_ok ct (ipAddressBlock e)) in *.
  set (PA := exists e, A = [e] /\ is_critical e /\ as_ok ct (autonomousSysNum e)) in *.
  assert (HPI : PI -> I <> []) by (by intros (? & -> & _)). assert (HPA : PA -> A <> []) by (by intros (? & -> & _)).
  assert (Di : exists v, rescert_ip_resources_chk c ct = Some v).
  { unfold rescert_ip_resources_chk, id_pe_ipAddrBlock. rewrite get_extension_oid; [|done|oid_ok_tac]. cbn [mbind option_bind].
    destruct (head _); [|by eexists]. destruct (1 <? _)%nat; [by eexists|]. destruct (_ <? 0); by eexists. }
  assert (Da : exists v, rescert_as_resources_chk c ct = Some v).
  { unfold rescert_as_resources_chk, id_pe_autonomousSysNum. rewrite get_extension_oid; [|done|oid_ok_tac]. cbn [mbind option_bind].
    destruct (head _); [|by eexists]. destruct (1 <? _)%nat; [by eexists|]. destruct (_ <? 0); [by eexists|]. destruct (rdi _); by eexists. }
  destruct Di as [vi Ei]. destruct Da as [va Ea]. rewrite Ei, Ea in *. cbn [mbind option_bind].
  destruct (Z.ltb_spec vi 0) as [Li|Li].
  { split; [intros (v & [= <-] & ?); lia|]. intros [[H0|[Hp _]] _]; exfalso.
    - assert (Some vi = Some 0 /\ 0 <= 0) as [[= ->] _] by (apply Hi; by left). lia.
    - assert (Some vi = Some 1 /\ 0 <= 1) as [[= ->] _] by (apply Hi; by right). lia. }
  destruct (Z.ltb_spec va 0) as [La|La].
  { split; [intros (v & [= <-] & ?); lia|]. intros (_ & [H0|[Hp _]] & _); exfalso.
    - assert (Some va = Some 0 /\ 0 <= 0) as [[= ->] _] by (apply Ha; by left). lia.
    - assert (Some va = Some 1 /\ 0 <= 1) as [[= ->] _] by (apply Ha; by right). lia. }
  specialize (proj1 (Hi vi) (conj eq_refl Li)) as Vi. specialize (proj1 (Ha va) (conj eq_refl La)) as Va.
  clear Hi Ha Ei Ea Li La. clearbody PI PA.
  destruct Vi as [[-> Vi]|[-> Vi]], Va as [[-> Va]|[-> Va]]; cbn [Z.eqb andb].
  - split; [by intros (v & [= <-] & ?)|]. by intros (_ & _ & []).
  - destruct (Z.ltb_spec (canonical_chk d2i x NID_sbgp_autonomousSysNum asid_canonical ERR_SCM_BADASRANGE) 0) as [L|L]; cbn [Z.ltb Z.compare].
    + split; [intros (v & [= <-] & ?); lia|]. intros (_ & [?|[_ ?%Ca]] & _); [by apply HPA in Va|lia].
    + split; [intros _|by exists 0]. apply Ca in L. apply HPA in Va as ?. tauto.
  - destruct (Z.ltb_spec (canonical_chk d2i x NID_sbgp_ipAddrBlock addr_canonical ERR_SCM_INVALIPB) 0) as [L|L]; cbn [Z.ltb Z.compare].
    + split; [intros (v & [= <-] & ?); lia|]. intros ([?|[_ ?%Ci]] & _ & _); [by apply HPI in Vi|lia].
    + split; [intros _|by exists 0]. apply Ci in L. apply HPI in Vi as ?. tauto.
  - destruct (Z.ltb_spec (canonical_chk d2i x NID_sbgp_ipAddrBlock addr_canonical ERR_SCM_INVALIPB) 0) as [L|L].
    { split; [intros (v & [= <-] & ?); lia|]. intros ([?|[_ ?%Ci]] & _ & _); [by apply HPI in Vi|lia]. }
    destruct (Z.ltb_spec (canonical_chk d2i x NID_sbgp_autonomousSysNum asid_canonical ERR_SCM_BADASRANGE) 0) as [L'|L'].
    + split; [intros (v & [= <-] & ?); lia|]. intros (_ & [?|[_ ?%Ca]] & _); [by apply HPA in Va|lia].
    + split; [intros _|by exists 0]. apply Ci in L. apply Ca in L'. apply HPI in Vi as ?. tauto.
Qed.
End resources.
