(* ===== verification/CertKey.v ===== *)
(** * The certificate profile: names, key and serial number *)

From S2P Require Import Prelude CasnTime CasnNum CasnObjid RpkiObject CmsValidate RpkiDb RpkiVerify CertExt CertProfile CertFacts CertChecks CertDecoded.

Section key.
Context (strict : bool).

(** ** Names *)

Definition count (o : list Z) (l : list AttributeValueAssertion) : nat := length (List.filter (fun a => bool_decide (ava_objid a = o)) l).

Definition attr_ok (a : AttributeValueAssertion) : Prop :=
  (ava_objid a = oid_commonName /\ (strict = true -> from_option id [] (ava_printable a) <> [])) \/ ava_objid a = oid_serialNumber.

Definition b2n (b : bool) : nat := if b then 1 else 0.

Lemma count_cons o a l : count o (a :: l) = (b2n (bool_decide (ava_objid a = o)) + count o l)%nat.
Proof. unfold count. cbn. by case_bool_decide. Qed.
Lemma count_app o l k : count o (l ++ k) = (count o l + count o k)%nat.
Proof. unfold count. by rewrite List.filter_app, length_app. Qed.

Definition wf_name (n : RDNSequence) : Prop := Forall (fun a => wf_oid (ava_objid a)) (concat n).

(** With what was seen before. *)
Definition set_ok (l : list AttributeValueAssertion) (cn sn : bool) : Prop :=
  Forall attr_ok l /\ (count oid_commonName l + b2n cn <= 1)%nat /\ (count oid_serialNumber l + b2n sn <= 1)%nat.

Lemma name_set_spec l : Forall (fun a => wf_oid (ava_objid a)) l -> forall cn sn,
  match name_set strict l cn sn with
  | None => False
  | Some None => ~ set_ok l cn sn
  | Some (Some (cn', sn')) => set_ok l cn sn /\ b2n cn' = (count oid_commonName l + b2n cn)%nat /\ b2n sn' = (count oid_serialNumber l + b2n sn)%nat
  end.
Proof.
  induction 1 as [|a l Ha Hl IH]; intros cn sn; cbn [name_set].
  { split; [|done]. split; [constructor|]. destruct cn, sn; cbn; lia. }
  unfold id_commonName, id_serialNumber. rewrite !same_oid; [|done|oid_ok_tac|done|oid_ok_tac].
  fold oid_commonName oid_serialNumber. cbn [mbind option_bind]. assert (Hne : oid_commonName <> oid_serialNumber) by done.
  assert (Hset : forall cn sn, set_ok (a :: l) cn sn <-> attr_ok a /\ Forall attr_ok l /\
      (b2n (bool_decide (ava_objid a = oid_commonName)) + count oid_commonName l + b2n cn <= 1)%nat /\
      (b2n (bool_decide (ava_objid a = oid_serialNumber)) + count oid_serialNumber l + b2n sn <= 1)%nat).
  { intros cn' sn'. unfold set_ok. rewrite Forall_cons, !count_cons. tauto. }
  rewrite !count_cons. case_bool_decide as E1; [|case_bool_decide as E2].
  - assert (E2 : ava_objid a <> oid_serialNumber) by congruence. rewrite !(bool_decide_eq_false_2 _ E2) in *.
    destruct cn; [rewrite Hset; cbn; lia|].
    destruct ((length (from_option id [] (ava_printable a)) =? 0)%nat && strict) eqn:Ec.
    + apply andb_true_iff in Ec as [Ec%Nat.eqb_eq%nil_length_inv Es]. rewrite Hset.
      intros ([[_ Hp]|?] & _); [by apply Hp|congruence].
    + assert (Hok : attr_ok a).
      { left. split; [done|]. intros -> Ep. rewrite Ep in Ec. done. }
      specialize (IH true sn). destruct (name_set strict l true sn) as [[[cn' sn']|]|]; [| |done].
      * rewrite Hset. unfold set_ok in IH. cbn [b2n] in *. destruct IH as ((? & ? & ?) & ? & ?). split_and!; done || lia.
      * rewrite Hset. intros (_ & ? & ? & ?). apply IH. unfold set_ok. cbn [b2n] in *. split_and!; [done|lia|lia].
  - destruct sn; [rewrite Hset; cbn; lia|]. specialize (IH cn true). assert (Hok : attr_ok a) by (by right).
    destruct (name_set strict l cn true) as [[[cn' sn']|]|]; [| |done].
    + rewrite Hset. unfold set_ok in IH. cbn [b2n] in *. destruct IH as ((? & ? & ?) & ? & ?). split_and!; done || lia.
    + rewrite Hset. intros (_ & ? & ? & ?). apply IH. unfold set_ok. cbn [b2n] in *. split_and!; [done|lia|lia].
  - rewrite Hset. intros ([[? _]|?] & _); done.
Qed.

(** Two sets of two attributes at most, each a common name or a serial number: one
    of the first kind and at most one of the second. *)
Definition name_ok (n : RDNSequence) : Prop :=
  (length n <= 2)%nat /\ Forall (fun s => length s <= 2)%nat n /\ Forall attr_ok (concat n) /\
  count oid_commonName (concat n) = 1%nat /\ (count oid_serialNumber (concat n) <= 1)%nat.

Lemma set_ok_app l k cn sn cn' sn' :
  b2n cn' = (count oid_commonName l + b2n cn)%nat -> b2n sn' = (count oid_serialNumber l + b2n sn)%nat -> set_ok l cn sn ->
  set_ok (l ++ k) cn sn <-> set_ok k cn' sn'.
Proof.
  intros H1 H2 (H3 & H4 & H5). unfold set_ok. rewrite Forall_app.
  rewrite (count_app oid_commonName), (count_app oid_serialNumber). rewrite H1, H2. intuition lia.
Qed.

Lemma name_sets_spec n : wf_name n -> forall cn sn, exists v, name_sets strict n cn sn = Some v /\
  (0 <= v <-> Forall (fun s => length s <= 2)%nat n /\ set_ok (concat n) cn sn /\ (count oid_commonName (concat n) + b2n cn = 1)%nat).
Proof.
  induction n as [|s n IH]; intros Hw cn sn; cbn [name_sets concat].
  { eexists. split; [done|]. unfold set_ok. destruct cn, sn; cbn; (split; [intros|]); try done; try lia;
      split_and!; try constructor; cbn; lia. }
  unfold wf_name in Hw. cbn [concat] in Hw. apply Forall_app in Hw as [Hs Hw]. setoid_rewrite Forall_cons.
  destruct (Nat.ltb_spec 2 (length s)) as [Hlen|Hlen]; [eexists; split; [done|]; split; [done|lia]|].
  pose proof (name_set_spec s Hs cn sn) as H1. destruct (name_set strict s cn sn) as [[[cn' sn']|]|]; [| |done]; cbn [mbind option_bind].
  - destruct H1 as (Hok & Hc & Hn). destruct (IH Hw cn' sn') as (v & -> & Hv). exists v. split; [done|].
    rewrite Hv, (set_ok_app _ _ _ _ _ _ Hc Hn Hok), count_app, Hc.
    replace (count oid_commonName s + count oid_commonName (concat n) + b2n cn)%nat
      with (count oid_commonName (concat n) + (count oid_commonName s + b2n cn))%nat by lia. tauto.
  - eexists. split; [done|]. split; [done|]. intros (_ & Hset & _). destruct H1.
    unfold set_ok in *. rewrite Forall_app, !count_app in Hset. destruct Hset as ([? ?] & ? & ?). split_and!; [done|lia|lia].
Qed.

Lemma name_chk_ok n : wf_name n -> exists v, rescert_name_chk strict n = Some v /\ (0 <= v <-> name_ok n).
Proof.
  intros Hw. unfold rescert_name_chk, name_ok. destruct (Nat.ltb_spec 2 (length n)) as [Hl|Hl].
  { eexists. split; [done|]. split; [done|lia]. }
  destruct (name_sets_spec n Hw false false) as (v & -> & Hv). exists v. split; [done|]. rewrite Hv. unfold set_ok.
  cbn [b2n]. intuition lia.
Qed.

(** ** The key *)

Definition modulus_ok (m : list Z) : Prop := exists n bytes, m = 0 :: bytes /\
  (n = 2048 \/ (n = 1024 /\ strict = false)) /\ n = 8 * Z.of_nat (length bytes) /\ 2 ^ (n - 1) <= be_val bytes < 2 ^ n.

Lemma leading_zeros_bounds b : 0 < b < 128 -> 1 <= leading_zeros 9 b 128 <= 7.
Proof.
  intros Hb. assert (H : forallb (fun n => (1 <=? leading_zeros 9 (Z.of_nat n) 128) && (leading_zeros 9 (Z.of_nat n) 128 <=? 7)) (seq 1 127) = true)
    by (vm_compute; reflexivity).
  rewrite forallb_forall in H. specialize (H (Z.to_nat b)). rewrite Z2Nat.id in H by lia.
  rewrite andb_true_iff, !Z.leb_le in H. apply H, in_seq. lia.
Qed.

Lemma be_val_top b l : byte_ok b -> bytes_ok l ->
  2 ^ (8 * Z.of_nat (length (b :: l)) - 1) <= be_val (b :: l) < 2 ^ (8 * Z.of_nat (length (b :: l))) <-> 128 <= b.
Proof.
  intros Hb Hl. pose proof (be_val_first b l Hb Hl) as Hv. assert (0 <= b < 256) by exact Hb. cbn [length].
  set (k := Z.of_nat (length l)) in *.
  replace (8 * Z.of_nat (S (length l)) - 1) with (7 + 8 * k) by lia. replace (8 * Z.of_nat (S (length l))) with (8 + 8 * k) by lia.
  rewrite !Z.pow_add_r, !Z.pow_mul_r by lia. change (2 ^ 8) with 256. change (2 ^ 7) with 128.
  assert (0 < 256 ^ k) by (apply Z.pow_pos_nonneg; lia). split; [nia|]. intros. nia.
Qed.

Lemma modulus_chk_ok m : bytes_ok m -> 0 <= modulus_chk strict m <-> modulus_ok m.
Proof.
  intros Hb. unfold modulus_chk, modulus_ok, SUBJ_PUBKEY_MODULUS_SZ. destruct m as [|b0 m]; [split; [done|by intros (? & ? & ? & _)]|].
  inversion Hb as [|? ? Hb0 Hm]; subst. assert (0 <= b0 < 256) by exact Hb0. rewrite land_80 by done.
  destruct (Z.ltb_spec b0 128) as [H7|H7]; cbn [negb].
  2: { split; [done|]. intros (n & bytes & [= ? ?] & _). lia. }
  destruct (Z.eqb_spec b0 0) as [->|Hb0']; cbn [andb].
  - assert (Hbits : forall n bytes, 0 :: m = 0 :: bytes /\ (n = 2048 \/ (n = 1024 /\ strict = false)) /\ n = 8 * Z.of_nat (length bytes) /\ 2 ^ (n - 1) <= be_val bytes < 2 ^ n ->
      exists b1 r, m = b1 :: r /\ 128 <= b1 /\ (8 * Z.of_nat (length m) = 2048 \/ (8 * Z.of_nat (length m) = 1024 /\ strict = false))).
    { intros n bytes ([= <-] & Hn & Hl & Hv). destruct m as [|b1 r]; [cbn in Hl; lia|]. inversion Hm; subst.
      exists b1, r. split; [done|]. split; [by apply (be_val_top b1 r)|]. done. }
    replace (Z.of_nat (length (0 :: m)) - 1) with (Z.of_nat (length m)) by (cbn [length]; lia).
    destruct m as [|b1 r]; [split; [by destruct strict|]|].
    { intros (n & bytes & Hx). apply Hbits in Hx as (? & ? & ? & _). done. }
    inversion Hm as [|? ? Hb1 Hr]; subst. assert (0 <= b1 < 256) by exact Hb1. rewrite land_80 by done.
    destruct (Z.ltb_spec b1 128) as [H8|H8].
    { split; [done|]. intros (n & bytes & Hx). apply Hbits in Hx as (? & ? & [= <- <-] & ? & _). lia. }
    assert (Hex : forall n, n = 8 * Z.of_nat (length (b1 :: r)) -> (n = 2048 \/ n = 1024 /\ strict = false) ->
      exists n bytes, 0 :: b1 :: r = 0 :: bytes /\ (n = 2048 \/ (n = 1024 /\ strict = false)) /\ n = 8 * Z.of_nat (length bytes) /\ 2 ^ (n - 1) <= be_val bytes < 2 ^ n).
    { intros n -> Hn. eexists _, (b1 :: r). split_and!; [done|exact Hn|done|..]; apply (be_val_top b1 r Hb1 Hr); done. }
    set (L := Z.of_nat (length (b1 :: r))) in *.
    destruct (Z.eqb_spec (L * 8) (256 * 8)) as [E|E]; cbn [negb].
    { split; [|done]. intros _. apply (Hex (8 * L)); [done|left; lia]. }
    destruct (Z.eqb_spec (L * 8) 1024) as [E'|E'], strict eqn:Es; cbn [negb andb].
    + split; [done|]. intros (n & bytes & Hx). apply Hbits in Hx as (? & ? & [= <- <-] & ? & [?|[? ?]]); [lia|done].
    + split; [|done]. intros _. apply (Hex (8 * L)); [done|right; split; [lia|done]].
    + split; [done|]. intros (n & bytes & Hx). apply Hbits in Hx as (? & ? & [= <- <-] & ? & [?|[? ?]]); lia.
    + split; [done|]. intros (n & bytes & Hx). apply Hbits in Hx as (? & ? & [= <- <-] & ? & [?|[? ?]]); lia.
  - pose proof (leading_zeros_bounds b0 ltac:(lia)) as Hlz. set (z := leading_zeros 9 b0 128) in *.
    destruct (Z.eqb_spec (Z.of_nat (length (b0 :: m)) * 8 - z) (256 * 8)) as [E|E]; [lia|]. cbn [negb].
    destruct (Z.eqb_spec (Z.of_nat (length (b0 :: m)) * 8 - z) 1024) as [E'|E']; [lia|]. cbn [andb].
    split; [done|]. intros (n & bytes & [= ? ?] & _). done.
Qed.

(** RSA with SHA-256, and a key of the right size and exponent. *)
Definition key_ok (c : Certificate) : Prop :=
  cert_algorithm c = oid_bytes 1 2 [840; 113549; 1; 1; 11] /\ tbs_signature c = oid_bytes 1 2 [840; 113549; 1; 1; 11] /\
  spki_algorithm c = oid_bytes 1 2 [840; 113549; 1; 1; 1] /\
  (exists key, subjectPublicKey c = 0 :: key /\ (length key < 280)%nat) /\
  exists k n, rsaPubKey c = Some k /\ modulus_ok (rsa_modulus k) /\ read_casn_num (rsa_exponent k) = (n, Some 65537) /\ 0 <= n.
End key.
