(* ===== verification/CertThm.v ===== *)
(** * The certificate profile: theorems

    [rescert_profile_chk] accepts exactly the certificates that meet the profile it
    enforces for their type, which differs in three points, stated below, from the one
    that the comments of [myssl.c] describe. *)

From stdpp Require Import strings.
From S2P Require Import Prelude CasnTime CasnNum CasnObjid RpkiObject CmsValidate CmsThm RpkiDb RpkiVerify CertExt CertProfile CertFacts CertChecks CertDecoded CertKey.

(** ** The rest of the checks *)

Lemma be_val_zero l : bytes_ok l -> be_val l = 0 <-> forallb (fun b => b =? 0) l = true.
Proof.
  induction 1 as [|x l Hx Hl IH]; [done|]. assert (0 <= x < 256) by exact Hx. cbn [forallb].
  pose proof (be_val_bound l Hl). assert (0 < 256 ^ Z.of_nat (length l)) by (apply Z.pow_pos_nonneg; lia).
  rewrite be_val_cons, andb_true_iff, <- IH, Z.eqb_eq. split; [nia|]. intros [-> ->]. lia.
Qed.

(** A positive number of twenty bytes at most. *)
Definition serial_ok (s : list Z) : Prop := (length s <= 20)%nat /\ 0 < twos_val s.

Lemma serial_number_ok c : bytes_ok (tbs_serialNumber c) -> 0 <= rescert_serial_number_chk c <-> serial_ok (tbs_serialNumber c).
Proof.
  intros Hb. unfold rescert_serial_number_chk, serial_ok, SER_NUM_MAX_SZ. destruct (Nat.ltb_spec 20 (length (tbs_serialNumber c))) as [Hl|Hl]; [split; [done|lia]|].
  destruct (tbs_serialNumber c) as [|x l] eqn:E; [cbn; split; [done|lia]|]. cbn [hd]. inversion Hb as [|? ? Hx Hl']; subst.
  pose proof (be_val_zero (x :: l) Hb) as Hz. pose proof (be_val_bound (x :: l) Hb) as Hbd. rewrite land_80 by done. cbn [twos_val].
  destruct (Z.ltb_spec x 128); cbn [negb]; [|split; [done|lia]].
  destruct (forallb _ (x :: l)); [split; [done|]; intros [_ ?]; assert (be_val (x :: l) = 0) by (by apply Hz); lia|].
  split; [|lia]. intros _. split; [done|]. assert (be_val (x :: l) <> 0) by (by intros ?%Hz). lia.
Qed.

(** What is enforced: dates that can both be read are in order. *)
Definition dates_ok (c : Certificate) : Prop :=
  forall before after, read_casn_time_choice (notBefore c) = Some before -> read_casn_time_choice (notAfter c) = Some after -> before <= after.

Lemma dates_chk_ok c : 0 <= rescert_dates_chk c <-> dates_ok c.
Proof.
  unfold rescert_dates_chk, diff_time_choice, dates_ok.
  destruct (read_casn_time_choice (notBefore c)) as [t1|], (read_casn_time_choice (notAfter c)) as [t2|]; cbn; try (split; [naive_solver|done]).
  destruct (Z.ltb_spec t2 t1); cbn; [split; [done|]; intros Hx; specialize (Hx _ _ eq_refl eq_refl); lia|].
  destruct (t1 <? t2); cbn; (split; [intros _ ? ? [= <-] [= <-]; lia|done]).
Qed.

Lemma uid_ok c : 0 <= rescert_subj_iss_UID_chk c <-> tbs_issuerUniqueID c = None /\ tbs_subjectUniqueID c = None.
Proof. unfold rescert_subj_iss_UID_chk. destruct (tbs_issuerUniqueID c), (tbs_subjectUniqueID c); cbn; split; done || naive_solver. Qed.

(** The extensions of the profile, by their arcs. *)
Definition allowed_arcs : list (Z * Z * list Z) :=
  [(2, 5, [29; 19]); (2, 5, [29; 14]); (2, 5, [29; 35]); (2, 5, [29; 15]); (2, 5, [29; 37]); (2, 5, [29; 31]);
   (1, 3, [6; 1; 5; 5; 7; 1; 1]); (1, 3, [6; 1; 5; 5; 7; 1; 11]); (2, 5, [29; 32]); (1, 3, [6; 1; 5; 5; 7; 1; 7]); (1, 3, [6; 1; 5; 5; 7; 1; 8])].
Definition allowed_oids : list (list Z) := map (fun '(a, b, l) => oid_bytes a b l) allowed_arcs.

Lemma ext_allowed_spec o arcs : wf_oid o -> Forall (fun '(a, b, l) => oid_ok a b l) arcs ->
  ext_allowed o (map (fun '(a, b, l) => oid_text a b l) arcs) = Some (bool_decide (o ∈ map (fun '(a, b, l) => oid_bytes a b l) arcs)).
Proof.
  intros Ho. induction 1 as [|[[a b] l] arcs Hok Ha IH]; cbn [map ext_allowed]; [done|].
  rewrite same_oid by done. cbn [mbind option_bind]. destruct (decide (o = oid_bytes a b l)) as [E|E].
  - rewrite (bool_decide_eq_true_2 _ E), bool_decide_eq_true_2; [done|]. rewrite E. left.
  - rewrite (bool_decide_eq_false_2 _ E), IH. f_equal. apply bool_decide_ext. rewrite elem_of_cons. naive_solver.
Qed.

Lemma extensions_ok c : wf_exts (extensions c) -> accepts (rescert_extensions_chk c) (Forall (fun e => extnID e ∈ allowed_oids) (extensions c)).
Proof.
  intros Hw. unfold rescert_extensions_chk. assert (Harcs : Forall (fun '(a, b, l) => oid_ok a b l) allowed_arcs) by (repeat constructor; try lia; done).
  induction Hw as [|e exts He Hw IH]; cbn [extensions_loop]; [apply accepts_some; split; [constructor|done]|].
  change allowed_extensions with (map (fun '(a, b, l) => oid_text a b l) allowed_arcs).
  rewrite ext_allowed_spec by done. fold allowed_oids. cbn [mbind option_bind]. unfold accepts in *. rewrite Forall_cons.
  case_bool_decide as E; [rewrite IH; tauto|]. split; [by intros (v & [= <-] & ?)|by intros [? _]].
Qed.

(** ** The profile *)

Section profile.
Context (d2i : list X509_EXTENSION -> Z -> bool -> option ext_struct) (Hd2i : d2i_laws d2i).
Context (supported : X509_EXTENSION -> bool) (addr_canonical asid_canonical : list Z -> bool).
Context (sha1 : list Z -> option (list Z)) (Hsha1 : forall k h, sha1 k = Some h -> length h = 20%nat).
Context (strict : bool).

Definition usage_bits (data : list Z) : Z :=
  match data with [] => 0 | [b0] => b0 | b0 :: b1 :: _ => Z.lor b0 (Z.shiftl b1 8) end.
Definition ku_ext (ct : Z) (e : X509_EXTENSION) : Prop :=
  ext_critical e = true /\ exists data, ext_value e = Some (XBitString data) /\ usage_bits data = usage_of ct.

Lemma ku_ok x ct : only_ext x NID_key_usage (fun e => ext_critical e = true) /\ key_usage d2i x = Some (usage_of ct) <->
  only_ext x NID_key_usage (ku_ext ct).
Proof.
  unfold only_ext, ku_ext, key_usage. split.
  - intros [(e & E & Hc) Hk]. exists e. split; [done|]. split; [done|]. rewrite (d2i_one _ Hd2i _ _ _ _ E) in Hk.
    destruct (ext_value e) as [[]|]; try done. exists data. split; [done|]. by injection Hk.
  - intros (e & E & Hc & data & Hv & Hu). split; [by exists e|]. rewrite (d2i_one _ Hd2i _ _ _ _ E), Hv, <- Hu. done.
Qed.

(** The identifier is the hash of the key. *)
Definition ski_ok (x : X509) (c : Certificate) : Prop :=
  only_ext x NID_subject_key_identifier (fun e => ext_critical e = false) /\
  exists e key h, head (of_oid (extensions c) oid_subjectKeyIdentifier) = Some e /\ subjectPublicKey c = 0 :: key /\
    sha1 key = Some h /\ subjectKeyIdentifier e = Some h.

Lemma ski_chk_ok x c : wf_exts (extensions c) -> accepts (rescert_ski_chk sha1 x c) (ski_ok x c).
Proof.
  intros Hw. unfold rescert_ski_chk, ski_ok. apply accepts_and; [apply accepts_some, ski_present_ok|intros _].
  unfold id_subjectKeyIdentifier. rewrite find_extension_oid; [|done|oid_ok_tac]. fold oid_subjectKeyIdentifier. cbn [mbind option_bind].
  destruct (head _) as [e|]; [|apply accepts_some; split; [done|by intros (? & ? & ? & ? & _)]].
  destruct (subjectPublicKey c) as [|u key]; [apply accepts_some; split; [done|by intros (? & ? & ? & _ & ? & _)]|].
  destruct (Z.eqb_spec u 0) as [->|Hu]; cbn [negb]; [|apply accepts_some; split; [done|intros (? & ? & ? & _ & [= ? ?] & _); done]].
  destruct (sha1 key) as [h|] eqn:Eh; cbn [mbind option_bind].
  2: { split; [by intros (? & ? & _)|]. intros (? & ? & ? & _ & [= <-] & ? & _). congruence. }
  pose proof (Hsha1 _ _ Eh) as Hlen.
  destruct (Nat.eqb_spec (length (from_option id [] (subjectKeyIdentifier e))) 20) as [El|El]; cbn [negb].
  2: { apply accepts_some. split; [done|]. intros (? & ? & h' & [= <-] & [= <-] & E1 & E2). rewrite E2 in El. cbn in El. congruence. }
  pose proof (memcmp_eq 20 (from_option id [] (subjectKeyIdentifier e)) h ltac:(lia) ltac:(lia)) as Hm. rewrite !take_ge in Hm by lia.
  destruct (Z.eqb_spec (memcmp 20 (from_option id [] (subjectKeyIdentifier e)) h) 0) as [E|E]; cbn [negb]; apply accepts_some.
  - apply Hm in E. split; [|done]. intros _. exists e, key, h. split_and!; [done|done|done|].
    destruct (subjectKeyIdentifier e); cbn in E; [by rewrite E|]. subst h. done.
  - split; [done|]. intros (? & ? & h' & [= <-] & [= <-] & E1 & E2). destruct E. apply Hm. rewrite E2. cbn. congruence.
Qed.

Lemma sig_algs_ok c : wf_oid (cert_algorithm c) -> wf_oid (tbs_signature c) -> wf_oid (spki_algorithm c) ->
  (forall k, rsaPubKey c = Some k -> bytes_ok (rsa_modulus k)) -> accepts (rescert_sig_algs_chk strict c) (key_ok strict c).
Proof.
  intros H1 H2 H3 Hm. unfold rescert_sig_algs_chk, key_ok.
  apply accepts_and; [apply alg_chk_ok; [done|oid_ok_tac]|intros _]. apply accepts_and; [apply alg_chk_ok; [done|oid_ok_tac]|intros _].
  apply accepts_and; [apply alg_chk_ok; [done|oid_ok_tac]|intros _]. unfold SUBJ_PUBKEY_MAX_SZ.
  destruct (Nat.ltb_spec 280 (length (subjectPublicKey c))) as [Hl|Hl].
  { apply accepts_some. split; [done|]. intros [(key & E & ?) _]. rewrite E in Hl. cbn in Hl. lia. }
  destruct (subjectPublicKey c) as [|u key] eqn:Ek; [split; [by intros (? & ? & _)|by intros [(? & ? & _) _]]|].
  destruct (Z.eqb_spec u 0) as [->|Hu]; cbn [negb]; [|apply accepts_some; split; [done|intros [(? & [= ? ?] & _) _]; done]].
  destruct (rsaPubKey c) as [k|]; [|apply accepts_some; split; [done|by intros [_ (? & ? & ? & _)]]].
  specialize (Hm k eq_refl).
  assert (Heq : ((exists key0, 0 :: key = 0 :: key0 /\ (length key0 < 280)%nat) /\
      exists k0 n, Some k = Some k0 /\ modulus_ok strict (rsa_modulus k0) /\ read_casn_num (rsa_exponent k0) = (n, Some 65537) /\ 0 <= n) <->
      modulus_ok strict (rsa_modulus k) /\ exists n, read_casn_num (rsa_exponent k) = (n, Some 65537) /\ 0 <= n).
  { cbn in Hl. split; [intros [_ (? & n & [= <-] & ? & ? & ?)]; split; [done|by exists n]|].
    intros [? (n & ? & ?)]. split; [exists key; split; [done|lia]|by exists k, n]. }
  unfold accepts. rewrite Heq. apply (accepts_and _ _ (modulus_ok strict (rsa_modulus k))); [apply accepts_some, modulus_chk_ok; done|intros _].
  destruct (read_casn_num (rsa_exponent k)) as [ret [v|]]; destruct (Z.ltb_spec ret 0); cbn [mbind option_bind].
  - apply accepts_some. split; [done|]. intros (n & [= <- _] & ?). lia.
  - apply accepts_some. unfold SUBJ_PUBKEY_EXPONENT. destruct (Z.eqb_spec v 65537) as [->|Hv]; cbn [negb]; [split; [by exists ret|done]|].
    split; [done|]. intros (n & [= _ ?] & _). done.
  - apply accepts_some. split; [done|]. by intros (n & [= <-] & _).
  - split; [by intros (? & ? & _)|by intros (n & [= <-] & _)].
Qed.

(** What is asked of a certificate of type [ct], where [basic], [policy] and [dates]
    say what is asked of basic constraints, of the extension with the policy and of
    the validity. *)
Record cert_profile (basic : X509 -> Z -> Prop) (policy : X509_EXTENSION -> Prop) (dates : Certificate -> Prop)
    (x : X509) (c : Certificate) (ct : Z) : Prop := {
  cp_version : x_version x = 2;
  cp_self_issued : x_same_name x = (ct =? TA_CERT);
  cp_issuer : name_ok strict (tbs_issuer c);
  cp_subject : name_ok strict (tbs_subject c);
  cp_basic_constraints : basic x ct;
  cp_key_usage : only_ext x NID_key_usage (ku_ext ct);
  cp_ski : ski_ok x c;
  cp_aki : only_ext x NID_authority_key_identifier aki_ext \/ (ct = TA_CERT /\ no_ext x NID_authority_key_identifier);
  cp_eku : no_ext x NID_ext_key_usage;
  cp_crldp : if ct =? TA_CERT then no_ext x NID_crl_distribution_points else only_ext x NID_crl_distribution_points crldp_ext;
  cp_aia : if ct =? TA_CERT then no_ext x NID_info_access else only_ext x NID_info_access aia_ext;
  cp_sia : exists e, of_oid (extensions c) oid_subjectInfoAccess = [e] /\ sia_ext c e;
  cp_policy : only_ext x NID_certificate_policies policy;
  cp_resources : resources_profile addr_canonical asid_canonical x c ct;
  cp_critical : Forall (fun e => ext_critical e = true -> ext_nid e ∈ supported_nids /\ supported e = true) (x_exts x);
  cp_other : (forall l, d2i (x_exts x) NID_netscape_cert_type false <> Some (XBitString l)) /\
             (forall p, d2i (x_exts x) NID_proxyCertInfo false <> Some (XProxyCertInfo p));
  cp_key : key_ok strict c;
  cp_serial : serial_ok (tbs_serialNumber c);
  cp_dates : dates c;
  cp_uids : tbs_issuerUniqueID c = None /\ tbs_subjectUniqueID c = None;
  cp_extensions : Forall (fun e => extnID e ∈ allowed_oids) (extensions c) }.

(** The profile that the code enforces: no basic constraints for an end entity, at
    most the qualifier for a statement of practice in the policy, and dates that are in
    order if both can be read. *)
Definition bc_enforced (x : X509) (ct : Z) : Prop :=
  if ct =? EE_CERT then no_ext x NID_basic_constraints else only_ext x NID_basic_constraints bc_ext.
Definition enforced_profile : X509 -> Certificate -> Z -> Prop := cert_profile bc_enforced policy_ext dates_ok.

(** The profile of the comments above [rescert_basic_constraints_chk] and
    [rescert_cert_policy_chk]: basic constraints also for an end entity, without the CA
    flag, critical or not; no policy qualifiers; and dates that are in order. *)
Definition bc_documented (x : X509) (ct : Z) : Prop :=
  only_ext x NID_basic_constraints
    (if ct =? EE_CERT then fun e => ext_value e = Some (XBasicConstraints false None) else bc_ext).
Definition plain_policy_ext (e : X509_EXTENSION) : Prop :=
  ext_critical e = true /\ exists p, ext_value e = Some (XPolicies [p]) /\ policyid p = oid_policy_id /\ qualifiers p = None.
Definition dates_in_order (c : Certificate) : Prop :=
  exists before after, read_casn_time_choice (notBefore c) = Some before /\ read_casn_time_choice (notAfter c) = Some after /\ before <= after.
Definition documented_profile : X509 -> Certificate -> Z -> Prop := cert_profile bc_documented plain_policy_ext dates_in_order.

Lemma plain_policy x : only_ext x NID_certificate_policies plain_policy_ext -> only_ext x NID_certificate_policies policy_ext.
Proof. intros (e & E & Hc & p & Ev & Hp & Hq). exists e. split; [done|]. split; [done|]. exists p. auto. Qed.

Lemma in_order_ok c : dates_in_order c -> dates_ok c.
Proof. intros (b & a & Eb & Ea & H) b' a' Eb' Ea'. congruence. Qed.

(** Authorities and trust anchors: the comments ask for more. *)
Lemma documented_enforced x c ct : ct <> EE_CERT ->
  documented_profile x c ct <->
  enforced_profile x c ct /\ only_ext x NID_certificate_policies plain_policy_ext /\ dates_in_order c.
Proof.
  intros Hct. assert (Hbc : bc_documented x ct <-> bc_enforced x ct).
  { unfold bc_documented, bc_enforced. by rewrite (proj2 (Z.eqb_neq _ _) Hct). }
  split.
  - intros []. split; [|done]. constructor; try done; [by apply Hbc|by apply plain_policy|by apply in_order_ok].
  - intros ([] & Hp & Hd). constructor; try done. by apply Hbc.
Qed.

(** Object identifiers in good form, and bytes. *)
Record wf_cert (c : Certificate) : Prop := {
  wc_exts : wf_exts (extensions c);
  wc_sia : wf_sia c;
  wc_issuer : wf_name (tbs_issuer c);
  wc_subject : wf_name (tbs_subject c);
  wc_algs : wf_oid (cert_algorithm c) /\ wf_oid (tbs_signature c) /\ wf_oid (spki_algorithm c);
  wc_serial : bytes_ok (tbs_serialNumber c);
  wc_modulus : forall k, rsaPubKey c = Some k -> bytes_ok (rsa_modulus k) }.

Lemma load_same x : x_exts (x509v3_load_extensions d2i supported x) = x_exts x /\ x_version (x509v3_load_extensions d2i supported x) = x_version x.
Proof. unfold x509v3_load_extensions. by destruct (EXFLAG_SET _). Qed.

Lemma version_ok x : 0 <= rescert_version_chk x <-> x_version x = 2.
Proof. unfold rescert_version_chk. destruct (Z.eqb_spec (x_version x) 2); cbn; split; done || lia. Qed.

(** The flags say nothing that the other checks do not. *)
Lemma flags_follow x ct : is_type ct -> x_version x = 2 ->
  (if ct =? EE_CERT then no_ext x NID_basic_constraints else only_ext x NID_basic_constraints bc_ext) -> no_ext x NID_ext_key_usage ->
  (forall l, d2i (x_exts x) NID_ext_key_usage false <> Some (XExtKeyUsage l)) /\ bc_flag_ok d2i x ct.
Proof.
  intros Hct Hv Hbc Heku. split; [intros l; by rewrite (d2i_none _ Hd2i)|]. unfold bc_flag_ok. destruct (ct =? EE_CERT).
  - intros ca p. by rewrite (d2i_none _ Hd2i).
  - destruct Hbc as (e & E & _ & He). exists None. by rewrite (d2i_one _ Hd2i _ _ _ _ E), He.
Qed.

Lemma profile_chain x c ct : is_type ct -> ex_flags x = no_flags -> wf_cert c ->
  rescert_profile_chk d2i supported addr_canonical asid_canonical sha1 strict x c ct = Some 0 <-> enforced_profile x c ct.
Proof.
  intros Hct Hx [We Ws Wi Wsu (Wa1 & Wa2 & Wa3) Wn Wm]. unfold rescert_profile_chk.
  destruct (Z.eqb_spec ct UN_CERT) as [->|_]; [by destruct Hct as [?|[?|?]]|].
  pose proof (flags_chk_ok d2i supported x ct Hct Hx) as Hflags. cbv zeta in Hflags.
  destruct (load_same x) as [Eexts Ever]. set (x' := x509v3_load_extensions d2i supported x) in *.
  assert (Hsame : forall nid, of_nid (x_exts x') nid = of_nid (x_exts x) nid) by (by rewrite Eexts).
  destruct (name_chk_ok strict _ Wi) as (vi & Ei & Hi). destruct (name_chk_ok strict _ Wsu) as (vs & Es & Hs).
  assert (Hnames : forall k, (issuer ← rescert_name_chk strict (tbs_issuer c);
      if issuer <? 0 then Some ERR_SCM_BADISSUER else
      subject ← rescert_name_chk strict (tbs_subject c);
      if subject <? 0 then Some ERR_SCM_BADSUBJECT else k) = Some 0 <->
      (name_ok strict (tbs_issuer c) /\ name_ok strict (tbs_subject c)) /\ k = Some 0).
  { intros k. rewrite Ei. cbn [mbind option_bind]. rewrite <- Hi, <- Hs. destruct (Z.ltb_spec vi 0); [split; [done|lia]|].
    rewrite Es. cbn [mbind option_bind]. destruct (Z.ltb_spec vs 0); [split; [done|lia]|]. tauto. }
  transitivity ((EXFLAG_INVALID (ex_flags x') || negb (EXFLAG_SET (ex_flags x'))) = false /\ 0 <= rescert_flags_chk x' ct /\
    x_version x = 2 /\ (name_ok strict (tbs_issuer c) /\ name_ok strict (tbs_subject c)) /\
    (if ct =? EE_CERT then no_ext x NID_basic_constraints else only_ext x NID_basic_constraints bc_ext) /\ ski_ok x c /\
    (only_ext x NID_authority_key_identifier aki_ext \/ (ct = TA_CERT /\ no_ext x NID_authority_key_identifier)) /\
    only_ext x NID_key_usage (fun e => ext_critical e = true) /\ no_ext x NID_ext_key_usage /\
    (if ct =? TA_CERT then no_ext x NID_crl_distribution_points else only_ext x NID_crl_distribution_points crldp_ext) /\
    (if ct =? TA_CERT then no_ext x NID_info_access else only_ext x NID_info_access aia_ext) /\
    (exists e, of_oid (extensions c) oid_subjectInfoAccess = [e] /\ sia_ext c e) /\ only_ext x NID_certificate_policies policy_ext /\
    resources_profile addr_canonical asid_canonical x c ct /\
    Forall (fun e => ext_critical e = true -> ext_nid e ∈ supported_nids) (x_exts x) /\ key_ok strict c /\
    serial_ok (tbs_serialNumber c) /\ dates_ok c /\ (tbs_issuerUniqueID c = None /\ tbs_subjectUniqueID c = None) /\
    Forall (fun e => extnID e ∈ allowed_oids) (extensions c)).
  - destruct (EXFLAG_INVALID (ex_flags x') || negb (EXFLAG_SET (ex_flags x'))); [split; [done|by intros [? _]]|].
    rewrite (and_then_accepts _ _ _ (accepts_some _ _ (reflexivity (0 <= rescert_flags_chk x' ct)))).
    rewrite (and_then_accepts _ _ _ (accepts_some _ _ (version_ok x'))), Hnames.
    rewrite (and_then_accepts _ _ _ (accepts_some _ _ (basic_constraints_ok x' ct Hct))).
    rewrite (and_then_accepts _ _ _ (ski_chk_ok x' c We)).
    rewrite (and_then_accepts _ _ _ (accepts_some _ _ (aki_ok x' ct))), (and_then_accepts _ _ _ (accepts_some _ _ (key_usage_ok x'))).
    rewrite (and_then_accepts _ _ _ (accepts_some _ _ (extended_key_usage_ok x' ct Hct))).
    rewrite (and_then_accepts _ _ _ (accepts_some _ _ (crldp_ok d2i Hd2i x' ct))), (and_then_accepts _ _ _ (accepts_some _ _ (aia_ok d2i Hd2i x' ct))).
    rewrite (and_then_accepts _ _ _ (sia_ok c We Ws)), (and_then_accepts _ _ _ (policy_ok d2i Hd2i x')).
    rewrite (and_then_accepts _ _ _ (resources_profile_ok d2i Hd2i addr_canonical asid_canonical x' c ct We)).
    rewrite (and_then_accepts _ _ _ (accepts_some _ _ (criticals_ok (x_exts x')))), (and_then_accepts _ _ _ (sig_algs_ok c Wa1 Wa2 Wa3 Wm)).
    rewrite (and_then_accepts _ _ _ (accepts_some _ _ (serial_number_ok c Wn))), (and_then_accepts _ _ _ (accepts_some _ _ (dates_chk_ok c))).
    rewrite (and_then_accepts _ _ _ (accepts_some _ _ (uid_ok c))), (and_then_accepts _ _ _ (extensions_ok c We)).
    unfold ski_ok, resources_profile, resource_ext, only_ext, no_ext. rewrite Eexts, Ever. tauto.
  - split.
    + intros (Hf & Hf' & H2 & (H3 & H4) & H5 & H6 & H7 & H8 & H9 & H10 & H11 & H12 & H13 & H14 & H15 & H16 & H17 & H18 & H19 & H20).
      destruct (proj1 Hflags (conj Hf Hf')) as (Hss & _ & _ & Hku & _ & Hns & Hpr & Hcr). constructor; try done.
      * by apply ku_ok.
      * rewrite Forall_forall in *. intros e He Hec. split; [by apply H15|by apply Hcr].
    + intros [H1 H2 H3 H4 H5 H6 H7 H8 H9 H10 H11 H12 H13 H14 H15 [H16 H17] H18 H19 H20 H21 H22]. apply ku_ok in H6 as [H6 Hku].
      destruct (flags_follow x ct Hct H1 H5 H9) as [Hxku Hbc].
      destruct (proj2 Hflags) as [Hf Hf'].
      { split_and!; [done|lia|done|done|]. split_and!; [done|done|done|]. rewrite Forall_forall in *. intros e He Hec. by apply H15. }
      split_and!; try done; try apply H21. rewrite Forall_forall in *. intros e He Hec. by apply H15.
Qed.
End profile.

(** C17: [rescert_profile_chk] accepts a freshly parsed certificate as an authority's, an
    end entity's or a trust anchor's exactly when it has the profile that the code
    enforces for the type: version and names, exactly the required extensions, once each,
    with the right criticality and contents (key usage, key identifiers, rsync URIs, the
    policy with at most a CPS qualifier, canonical resources), a 2048-bit RSA key (or 1024
    bits unless checks are strict), a positive serial number of 20 bytes at most and dates
    that are in order, if both can be read. For authorities and trust anchors the profile
    that the comments of the code document is this one, without policy qualifiers and with
    dates that can be read; a certificate for an end entity that follows the comments is
    refused, because it has basic constraints. OpenSSL's decoding is a parameter that
    behaves as documented. *)
Theorem rescert_profile_exact d2i supported addr_canonical asid_canonical sha1 strict x c ct :
  d2i_laws d2i -> (forall k h, sha1 k = Some h -> length h = 20%nat) -> is_type ct -> ex_flags x = no_flags -> wf_cert c ->
  let accepted := rescert_profile_chk d2i supported addr_canonical asid_canonical sha1 strict x c ct = Some 0 in
  let documented := documented_profile d2i supported addr_canonical asid_canonical sha1 strict x c ct in
  (accepted <-> enforced_profile d2i supported addr_canonical asid_canonical sha1 strict x c ct) /\
  (ct <> EE_CERT -> documented <-> accepted /\ only_ext x NID_certificate_policies plain_policy_ext /\ dates_in_order c) /\
  (ct = EE_CERT -> documented -> ~ accepted).
Proof.
  intros Hd Hs Hct Hx Hw accepted documented.
  assert (Ha : accepted <-> enforced_profile d2i supported addr_canonical asid_canonical sha1 strict x c ct) by (by apply profile_chain).
  split; [done|]. rewrite Ha. split; [by apply documented_enforced|].
  intros -> [_ _ _ _ Hbc _ _ _ _ _ _ _ _ _ _ _ _ _ _ _ _] [_ _ _ _ Hno _ _ _ _ _ _ _ _ _ _ _ _ _ _ _ _].
  destruct Hbc as (e & E & _). unfold bc_enforced, no_ext in Hno. cbn in Hno. congruence.
Qed.

(** ** A certificate of an authority *)

Definition demo_d2i (exts : list X509_EXTENSION) (nid : Z) (idx : bool) : option ext_struct :=
  match of_nid exts nid with
  | [e] => ext_value e
  | e :: _ => if idx then ext_value e else None
  | [] => None
  end.

Definition demo_x : X509 :=
  mkX509 2 false
    [{| ext_nid := NID_basic_constraints; ext_critical := true; ext_value := Some (XBasicConstraints true None) |};
     {| ext_nid := NID_key_usage; ext_critical := true; ext_value := Some (XBitString [6]) |};
     {| ext_nid := NID_subject_key_identifier; ext_critical := false; ext_value := Some (XKeyId sample_ski) |};
     {| ext_nid := NID_authority_key_identifier; ext_critical := false; ext_value := Some (XAuthKeyId (Some (replicate 20 7)) false false) |};
     {| ext_nid := NID_crl_distribution_points; ext_critical := false;
        ext_value := Some (XDistPoints [{| dp_reasons := false; dp_CRLissuer := false; dp_distpoint := Some (fullname [GEN_URI (chars "RSYNC://a/b.crl")]) |}]) |};
     {| ext_nid := NID_info_access; ext_critical := false;
        ext_value := Some (XAccess [{| ad_method := aia_oid; ad_location := GEN_URI (chars "rsync://a/b.cer") |}]) |};
     {| ext_nid := NID_certificate_policies; ext_critical := true; ext_value := Some (XPolicies [{| policyid := oid_policy_id; qualifiers := None |}]) |};
     {| ext_nid := NID_sbgp_ipAddrBlock; ext_critical := true; ext_value := Some (XResources []) |}]
    no_flags 0 0 0 0 0 None None None None None.

Definition demo_name : RDNSequence := [[{| ava_objid := oid_commonName; ava_printable := Some (chars "x") |}]].
Definition demo_ext (o : list Z) (crit : option (list Z)) (v : extn_value) : Extension :=
  {| extnID := o; extn_critical := crit; extnValue := v |}.
Definition demo_cert : Certificate :=
  {| cert_version := sample_num true (Some [2]); tbs_serialNumber := [0; 200]; tbs_issuer := demo_name; tbs_subject := demo_name;
     spki_algorithm := oid_bytes 1 2 [840; 113549; 1; 1; 1];
     rsaPubKey := Some {| rsa_modulus := 0 :: replicate 256 255; rsa_exponent := sample_num false (Some [1; 0; 1]) |};
     tbs_issuerUniqueID := None; tbs_subjectUniqueID := None;
     tbs_signature := oid_bytes 1 2 [840; 113549; 1; 1; 11]; cert_algorithm := oid_bytes 1 2 [840; 113549; 1; 1; 11];
     cert_signature := [0]; cert_indef_lth := false;
     notBefore := sample_utc 2014; notAfter := sample_utc 2020; subjectPublicKey := sample_key;
     extensions :=
       [demo_ext oid_basicConstraints (Some [255]) (extn_basicConstraints true);
        demo_ext oid_subjectKeyIdentifier None (extn_ski sample_ski);
        demo_ext oid_subjectInfoAccess None (extn_subjectInfoAccess
          [{| accessMethod := oid_caRepository; accessLocation := url (chars "rsync://a/") |};
           {| accessMethod := oid_rpkiManifest; accessLocation := url (chars "rsync://a/b.mft") |}]);
        demo_ext oid_ipAddrBlock (Some [255]) (extn_ipAddressBlock
          [{| cert_addressFamily := [0; 1]; ipAddressChoice := addressesOrRanges [addressPrefix [0; 10]] |}])] |}.

Lemma demo_d2i_laws : d2i_laws demo_d2i.
Proof.
  constructor; unfold demo_d2i; [by intros exts nid idx e ->|by intros exts nid idx ->|].
  intros exts nid H. destruct (of_nid exts nid) as [|? [|? ?]]; cbn in H; [lia..|done].
Qed.

Ltac wf_oid_tac := repeat constructor; cbn; (eexists _, _, _; split; [|reflexivity]; oid_ok_tac).

Lemma demo_wf : wf_cert demo_cert.
Proof.
  constructor; [unfold wf_exts; wf_oid_tac|unfold wf_sia; wf_oid_tac|unfold wf_name; wf_oid_tac|unfold wf_name; wf_oid_tac|wf_oid_tac| |].
  - apply (bool_decide_unpack _). vm_compute. exact I.
  - intros k [= <-]. apply (bool_decide_unpack _). vm_compute. exact I.
Qed.

Lemma rescert_profile_exact_witness :
  enforced_profile demo_d2i (fun _ => true) (fun _ => true) (fun _ => true) sample_sha1 true demo_x demo_cert CA_CERT.
Proof.
  apply (rescert_profile_exact demo_d2i (fun _ => true) (fun _ => true) (fun _ => true) sample_sha1 true demo_x demo_cert CA_CERT).
  - exact demo_d2i_laws.
  - intros k h Hh. apply (inj Some) in Hh. rewrite <- Hh, length_take, length_app, length_replicate. lia.
  - by left.
  - reflexivity.
  - exact demo_wf.
  - vm_compute. reflexivity.
Defined.

(** A policy whose list of qualifiers is empty makes the check use an element that is not there. *)
Lemma empty_qualifiers exts :
  of_nid exts NID_certificate_policies =
    [{| ext_nid := NID_certificate_policies; ext_critical := true; ext_value := Some (XPolicies [{| policyid := oid_policy_id; qualifiers := Some [] |}]) |}] ->
  forall d2i, d2i_laws d2i -> rescert_cert_policy_chk d2i (mkX509 2 false exts no_flags 0 0 0 0 0 None None None None None) = None.
Proof.
  intros E d2i Hd. unfold rescert_cert_policy_chk. cbn [x_exts]. rewrite (d2i_one _ Hd _ _ _ _ E).
  destruct (scan_spec NID_certificate_policies must_be_critical exts 0) as [Hf Hs]. rewrite E in Hf, Hs.
  rewrite Hs; [reflexivity|]. apply Hf. by repeat constructor.
Qed.
