(* ===== verification/CrlProfile.v ===== *)
(** * The CRL profile and dates for the database
    ([src/lib/rpki/myssl.c], [crl_profile_chk] and [ASNTimeToDBTime])

    A string is its bytes before the NUL. Of [sscanf] only the conversions that are
    used are modelled. [None] is undefined behaviour; allocations succeed and messages
    have no effect. *)

From S2P Require Import Prelude CasnTime CasnNum CasnObjid RpkiObject CmsValidate RpkiDb RpkiVerify RpkiAdd CertExt CertProfile.

Definition ERR_SCM_NOCRLVER : Z := -143.
Definition ERR_SCM_BADCRLVER : Z := -144.
Definition ERR_SCM_CRLENTRYEXT : Z := -145.
Definition ERR_SCM_BADREVDATE : Z := -147.
Definition ERR_SCM_BADREVSNUM : Z := -148.
Definition ERR_SCM_NOCRLNUM : Z := -149.
Definition ERR_SCM_BADCRLNUM : Z := -155.

Definition UTC10 : nat := 10.
Definition UTC12 : nat := 12.
Definition GEN14 : nat := 14.
Definition GEN16 : nat := 16.
Definition CRL_MAX_CRLNUM_LTH : nat := 20.

Definition id_cRLNumber := oid_text 2 5 [29; 20].

(** ** sscanf *)

Inductive conversion := FInt (width : nat) | FLit (c : Z) | FChar.

Definition is_space (c : Z) : bool := (c =? 32) || ((9 <=? c) && (c <=? 13)).
Fixpoint skip_space (s : list Z) : list Z :=
  match s with c :: s' => if is_space c then skip_space s' else s | [] => [] end.

Fixpoint scan_digits (width : nat) (s : list Z) (val : Z) : Z * list Z :=
  match width, s with
  | S width, c :: s' => if is_digit c then scan_digits width s' (val * 10 + (c - ch_0)) else (val, s)
  | _, _ => (val, s)
  end.

(** Digits after an optional sign, which counts for the width; one at least. *)
Definition scan_int (width : nat) (s : list Z) : option (Z * list Z) :=
  let s := skip_space s in
  let '(sign, width, s) :=
    match s with
    | c :: s' => if c =? ch_minus then (-1, Nat.pred width, s') else if c =? ch_plus then (1, Nat.pred width, s') else (1, width, s)
    | [] => (1, width, s)
    end in
  match width, s with
  | S _, c :: _ => if is_digit c then let '(v, s) := scan_digits width s 0 in Some (sign * v, s) else None
  | _, _ => None
  end.

(** The values, when every conversion succeeds. *)
Fixpoint sscanf (s : list Z) (format : list conversion) : option (list Z) :=
  match format with
  | [] => Some []
  | FInt w :: format => '(v, s) ← scan_int w s; vs ← sscanf s format; Some (v :: vs)
  | FLit c :: format => match s with x :: s => if x =? c then sscanf s format else None | [] => None end
  | FChar :: format => match s with x :: s => vs ← sscanf s format; Some (x :: vs) | [] => None end
  end.

(** ** Dates *)

(** The first [+] or [-] and what follows; where the first [Z] is. *)
Fixpoint strpbrk_sign (s : list Z) : option (Z * list Z) :=
  match s with
  | [] => None
  | c :: s => if (c =? ch_plus) || (c =? ch_minus) then Some (c, s) else strpbrk_sign s
  end.
Fixpoint strchr (c : Z) (s : list Z) : option nat :=
  match s with
  | [] => None
  | x :: s => if x =? c then Some 0%nat else S <$> strchr c s
  end.

(** The fields in the order of the format: year, month, day, hour, minute, second and
    the time zone. *)
Definition scan_date (fmt : nat) (bef : list Z) : option (Z * Z * Z * Z * Z * Z * Z) :=
  let century (year : Z) := if 49 <? year then year + 1900 else year + 2000 in
  if (fmt =? UTC10)%nat then
    vs ← sscanf bef [FInt 2; FInt 2; FInt 2; FInt 2; FInt 2; FChar];
    match vs with [year; mon; day; hour; min; tz] => Some (century year, mon, day, hour, min, 0, tz) | _ => None end
  else if (fmt =? UTC12)%nat then
    vs ← sscanf bef [FInt 2; FInt 2; FInt 2; FInt 2; FInt 2; FInt 2; FChar];
    match vs with [year; mon; day; hour; min; sec; tz] => Some (century year, mon, day, hour, min, sec, tz) | _ => None end
  else if (fmt =? GEN14)%nat then
    vs ← sscanf bef [FInt 4; FInt 2; FInt 2; FInt 2; FInt 2; FInt 2; FChar];
    match vs with [year; mon; day; hour; min; sec; tz] => Some (year, mon, day, hour, min, sec, tz) | _ => None end
  else if (fmt =? GEN16)%nat then
    vs ← sscanf bef [FInt 4; FInt 2; FInt 2; FInt 2; FInt 2; FInt 2; FLit 46; FInt 1; FChar];
    match vs with [year; mon; day; hour; min; sec; _; tz] => Some (year, mon, day, hour, min, sec, tz) | _ => None end
  else None.

Definition suffix_bad (bef : list Z) : bool :=
  match strpbrk_sign bef with
  | None => false
  | Some (_, s) =>
      match sscanf s [FInt 2; FInt 2] with
      | Some [suf_hour; suf_min] => (suf_hour <? 0) || (24 <? suf_hour) || (suf_min <? 0) || (60 <? suf_min)
      | _ => true
      end
  end.

(** The status, or the date whose fields are printed. *)
Definition ASNTimeToDBTime (bef : list Z) (only_gentime : bool) : Z + civil :=
  match bef with
  | [] => inl ERR_SCM_INVALARG
  | _ =>
      if suffix_bad bef then inl ERR_SCM_INVALDT
      else match strchr ch_Z bef with
      | None => inl ERR_SCM_INVALDT
      | Some fmt =>
          match scan_date fmt bef with
          | None => inl ERR_SCM_INVALDT
          | Some (year, mon, day, hour, min, sec, tz) =>
              let gen := (fmt =? GEN14)%nat || (fmt =? GEN16)%nat in
              if negb (tz =? ch_Z) || (mon <? 1) || (12 <? mon) || (day <? 1) || (31 <? day) || (hour <? 0) ||
                 (23 <? hour) || (min <? 0) || (59 <? min) || (sec <? 0) || (61 <? sec)
              then inl ERR_SCM_INVALDT
              else if only_gentime then if negb gen then inl ERR_SCM_INVALDT else inr (mkCivil year mon day hour min sec)
              else if (year <? 2050) && gen then inl ERR_SCM_INVALDT
              else if (2050 <=? year) && negb gen then inl ERR_SCM_INVALDT
              else inr (mkCivil year mon day hour min sec)
          end
      end
  end.

(** ** The decoded CRL ([crlv2.asn]) *)

Record CRLEntry := { userCertificate : list Z; revocationDate : time_choice; entry_has_extensions : bool }.
(** The value is that of a CRL number, if it is one. *)
Record CRLExtension := { crl_extnID : list Z; crl_critical : casn_num; crl_value : list Z }.
Record CertificateRevocationList := {
  crl_version : casn_num;
  crl_signature : list Z;
  crl_algorithm : list Z;
  crl_issuer : RDNSequence;
  crl_lastUpdate : time_choice;
  crl_nextUpdate : time_choice;
  revokedCertificates : list CRLEntry;
  crlExtensions : list CRLExtension }.

(** ** Checks *)

(** What [read_casn] gives for a time: its DER form. *)
Definition time_text (t : casn_time) : list Z :=
  match read_casn_time t with
  | Some secs => match write_casn_time (time_ty t) secs with WOk c => c | _ => [] end
  | None => []
  end.

(** 0, or an error. *)
Definition cvt_crldate2DB (cotp : time_choice) : Z :=
  let i := vsize_opt_time (utcTime cotp) in
  let status (t : option casn_time) := match ASNTimeToDBTime (from_option time_text [] t) false with inl sta => sta | inr _ => 0 end in
  if 0 <? i then
    if negb (i =? 13) then ERR_SCM_INVALDT else status (utcTime cotp)
  else
    let i := vsize_opt_time (generalTime cotp) in
    if i <? 15 then ERR_SCM_INVALDT
    else
      let last := List.last (from_option time_text [] (generalTime cotp)) 0 in
      if (15 <? i) && ((last =? ch_0) || (last =? 46)) then ERR_SCM_INVALDT else status (generalTime cotp).

Definition crl_version_chk (crlp : CertificateRevocationList) : option Z :=
  let '(ret, version) := read_casn_num (crl_version crlp) in
  if ret <? 0 then Some ERR_SCM_NOCRLVER
  else
    version ← version;
    Some (if negb (version =? 1) then ERR_SCM_BADCRLVER else 0).

Definition crl_sigalg_chk (crlp : CertificateRevocationList) : option Z :=
  inner ← same_objid (crl_signature crlp) id_sha_256WithRSAEncryption;
  if negb inner then Some ERR_SCM_BADSIGALG
  else
    outer ← same_objid (crl_algorithm crlp) id_sha_256WithRSAEncryption;
    Some (if negb outer then ERR_SCM_BADSIGALG else 0).

Definition crl_issuer_chk (strict_profile_checks : bool) (crlp : CertificateRevocationList) : option Z :=
  ret ← rescert_name_chk strict_profile_checks (crl_issuer crlp);
  Some (if ret <? 0 then ERR_SCM_BADISSUER else 0).

Definition crl_dates_chk (crlp : CertificateRevocationList) : Z :=
  let ret := diff_time_choice (crl_lastUpdate crlp) (crl_nextUpdate crlp) in
  if ret =? -2 then ERR_SCM_INVALDT
  else if (cvt_crldate2DB (crl_lastUpdate crlp) <? 0) || (cvt_crldate2DB (crl_nextUpdate crlp) <? 0) then ERR_SCM_INTERNAL
  else if 0 <? ret then ERR_SCM_BADDATES
  else 0.

(** A serial number that is too long, negative or zero is only reported. *)
Definition crl_entry_chk (entryp : CRLEntry) : Z :=
  if entry_has_extensions entryp then ERR_SCM_CRLENTRYEXT
  else if (length (userCertificate entryp) =? 0)%nat then ERR_SCM_BADREVSNUM
  else match read_casn_time_choice (revocationDate entryp) with
  | None => ERR_SCM_BADREVDATE
  | Some _ => if cvt_crldate2DB (revocationDate entryp) <? 0 then ERR_SCM_INTERNAL else 0
  end.

Fixpoint crl_entries_loop (l : list CRLEntry) : Z :=
  match l with
  | [] => 0
  | entryp :: l => let ret := crl_entry_chk entryp in if ret <? 0 then ret else crl_entries_loop l
  end.
Definition crl_entries_chk (crlp : CertificateRevocationList) : Z := crl_entries_loop (revokedCertificates crlp).

(** [read_casn_num(&critical, &i) >= 0 && i > 0] *)
Definition marked_critical (e : CRLExtension) : option bool :=
  let '(ret, i) := read_casn_num (crl_critical e) in
  if ret <? 0 then Some false else i ← i; Some (0 <? i).

(** An error, or whether there is a key identifier, and the number. *)
Fixpoint crl_extensions_loop (l : list CRLExtension) (authkeyIdp : bool) (crlnump : option (list Z)) : option (Z + bool * option (list Z)) :=
  match l with
  | [] => Some (inr (authkeyIdp, crlnump))
  | e :: l =>
      aki ← same_objid (crl_extnID e) id_authKeyId;
      if aki : bool then
        crit ← marked_critical e;
        if crit : bool then Some (inl ERR_SCM_CEXT)
        else if authkeyIdp then Some (inl ERR_SCM_BADEXT)
        else crl_extensions_loop l true crlnump
      else
        num ← same_objid (crl_extnID e) id_cRLNumber;
        if num : bool then
          crit ← marked_critical e;
          if crit : bool then Some (inl ERR_SCM_CEXT)
          else match crlnump with
          | Some _ => Some (inl ERR_SCM_BADEXT)
          | None => crl_extensions_loop l authkeyIdp (Some (crl_value e))
          end
        else
          i ← vsize_objid (crl_extnID e);
          if 0 <? i then _ ← read_objid (crl_extnID e); Some (inl ERR_SCM_BADEXT) else Some (inl ERR_SCM_BADEXT)
  end.

Definition crl_extensions_chk (crlp : CertificateRevocationList) : option Z :=
  r ← crl_extensions_loop (crlExtensions crlp) false None;
  Some match r with
       | inl ret => ret
       | inr (authkeyIdp, crlnump) =>
           if negb authkeyIdp then ERR_SCM_NOAKI
           else match crlnump with
           | None => ERR_SCM_NOCRLNUM
           | Some num =>
               if (length num <=? 0)%nat then ERR_SCM_BADCRLNUM
               else if (CRL_MAX_CRLNUM_LTH <? length num)%nat then ERR_SCM_BADCRLNUM
               else if negb (Z.land (hd 0 num) 0x80 =? 0) then ERR_SCM_BADCRLNUM
               else 0
           end
       end.

Definition crl_profile_chk (strict_profile_checks : bool) (crlp : CertificateRevocationList) : option Z :=
  crl_version_chk crlp ;?
  crl_sigalg_chk crlp ;?
  crl_issuer_chk strict_profile_checks crlp ;?
  Some (crl_dates_chk crlp) ;?
  Some (crl_entries_chk crlp) ;?
  crl_extensions_chk crlp ;?
  Some 0.
