(* ===== verification/CrlThm.v ===== *)
(** * The CRL profile: theorems

    The two parsers of dates agree, and [crl_profile_chk] accepts exactly the CRLs of
    its profile, with the dates of the calendar where they have the form of RFC 5280. *)

From S2P Require Import Prelude CasnTime CasnTimeFacts CasnNum CasnObjid RpkiObject CmsValidate CmsThm RpkiDb RpkiVerify RpkiAdd CertExt CertProfile CertFacts CertChecks CertDecoded CertKey CrlProfile.

(** ** Dates *)

Lemma scan_digits_app l1 : Forall (fun x => is_digit x = true) l1 -> forall m l2 acc,
  scan_digits (length l1 + m) (l1 ++ l2) acc = scan_digits m l2 (foldl (fun a c => a * 10 + (c - ch_0)) acc l1).
Proof. induction 1 as [|x l Hx Hl IH]; intros m l2 acc; [done|]. cbn [length Nat.add app scan_digits foldl]. by rewrite Hx, IH. Qed.

Lemma foldl_put_num n : forall v acc, 0 <= v < 10 ^ Z.of_nat n ->
  foldl (fun a c => a * 10 + (c - ch_0)) acc (put_num v n) = acc * 10 ^ Z.of_nat n + v.
Proof.
  induction n as [|n IH]; intros v acc Hv; [cbn in *; lia|]. cbn [put_num]. rewrite foldl_app. cbn [foldl].
  rewrite pow10_S in *. rewrite IH by (split; [apply Z.div_pos|apply Z.div_lt_upper_bound]; lia).
  pose proof (Z.div_mod v 10 ltac:(lia)). lia.
Qed.

Lemma scan_int_put n v rest : (0 < n)%nat -> 0 <= v < 10 ^ Z.of_nat n -> scan_int n (put_num v n ++ rest) = Some (v, rest).
Proof.
  intros Hn Hv. pose proof (put_num_digits v n) as Hd. pose proof (length_put_num v n) as Hl.
  assert (Hs : scan_digits n (put_num v n ++ rest) 0 = (v, rest)).
  { rewrite <- Hl at 1. rewrite <- (Nat.add_0_r (length _)), scan_digits_app, foldl_put_num by done. done. }
  destruct (put_num v n) as [|x l] eqn:E; [cbn in Hl; lia|]. pose proof (Forall_inv Hd) as Hx. cbn beta in Hx.
  assert (Hr : 48 <= x <= 57) by (unfold is_digit, ch_0, ch_9 in Hx; rewrite andb_true_iff, !Z.leb_le in Hx; done).
  unfold scan_int. cbn [app skip_space] in *. assert (is_space x = false) as ->.
  { unfold is_space. rewrite orb_false_iff, andb_false_iff, Z.eqb_neq, !Z.leb_gt. lia. }
  rewrite !(proj2 (Z.eqb_neq _ _)) by (unfold ch_minus, ch_plus; lia). rewrite Hx. destruct n as [|n]; [lia|]. rewrite Hs. f_equal. f_equal. lia.
Qed.

Lemma strpbrk_digits l rest : Forall (fun x => is_digit x = true) l -> strpbrk_sign (l ++ rest) = strpbrk_sign rest.
Proof.
  induction 1 as [|x l Hx Hl IH]; [done|]. cbn [app strpbrk_sign]. rewrite IH.
  unfold is_digit, ch_0, ch_9 in Hx. rewrite andb_true_iff, !Z.leb_le in Hx.
  rewrite !(proj2 (Z.eqb_neq _ _)) by (unfold ch_minus, ch_plus; lia). done.
Qed.

Lemma strchr_digits l : Forall (fun x => is_digit x = true) l -> strchr ch_Z (l ++ [ch_Z]) = Some (length l).
Proof.
  induction 1 as [|x l Hx Hl IH]; [done|]. cbn [app strchr length]. rewrite IH.
  unfold is_digit, ch_0, ch_9 in Hx. rewrite andb_true_iff, !Z.leb_le in Hx.
  rewrite (proj2 (Z.eqb_neq _ _)) by (unfold ch_Z; lia). done.
Qed.

Lemma date_digits n c : Forall (fun x => is_digit x = true) (put_num (year c) n ++ date_bytes c).
Proof. unfold date_bytes. rewrite !Forall_app. split_and!; apply put_num_digits. Qed.

Lemma civil_bounds c : valid_civil c -> 1 <= month c <= 12 /\ 1 <= day c <= 31 /\ 0 <= hour c <= 23 /\ 0 <= minute c <= 59 /\ 0 <= second c <= 59.
Proof. intros (? & ? & ? & ? & ? & ?). pose proof (month_length_bound (is_leap (year c)) (month c)). lia. Qed.

Lemma civil_eta c : mkCivil (year c) (month c) (day c) (hour c) (minute c) (second c) = c.
Proof. by destruct c. Qed.

Lemma in_range_ok c : valid_civil c ->
  negb (ch_Z =? ch_Z) || (month c <? 1) || (12 <? month c) || (day c <? 1) || (31 <? day c) || (hour c <? 0) ||
  (23 <? hour c) || (minute c <? 0) || (59 <? minute c) || (second c <? 0) || (61 <? second c) = false.
Proof. intros Hc%civil_bounds. rewrite !orb_false_iff, !Z.ltb_ge. rewrite Z.eqb_refl. cbn [negb]. lia. Qed.

Ltac scan_put := rewrite <- ?app_assoc; rewrite scan_int_put; [cbn [mbind option_bind]|lia|cbn; lia].

Lemma asn_gen c only : valid_civil c -> year c < 10000 -> (only = true \/ 2050 <= year c) ->
  ASNTimeToDBTime (gen_bytes c Zulu) only = inr c.
Proof.
  intros Hc Hy Ho. pose proof (civil_bounds c Hc) as Hb. assert (1970 <= year c) by apply Hc.
  assert (E : gen_bytes c Zulu = (put_num (year c) 4 ++ date_bytes c) ++ [ch_Z]) by (unfold gen_bytes; by rewrite <- app_assoc).
  pose proof (date_digits 4 c) as Hd. unfold ASNTimeToDBTime.
  assert (Hs : suffix_bad (gen_bytes c Zulu) = false) by (unfold suffix_bad; by rewrite E, strpbrk_digits).
  assert (Hz : strchr ch_Z (gen_bytes c Zulu) = Some 14%nat).
  { rewrite E, strchr_digits by done. unfold date_bytes. by rewrite !length_app, !length_put_num. }
  assert (Hsc : scan_date 14 (gen_bytes c Zulu) = Some (year c, month c, day c, hour c, minute c, second c, ch_Z)).
  { unfold scan_date, gen_bytes, date_bytes. cbn [Nat.eqb UTC10 UTC12 GEN14 sscanf zone_bytes]. repeat scan_put. done. }
  rewrite Hs, Hz, Hsc, in_range_ok by done. destruct (gen_bytes c Zulu) eqn:Eg; [symmetry in E; by apply app_eq_nil in E as [_ ?]|].
  cbn [Nat.eqb GEN14 GEN16 orb negb]. rewrite civil_eta. destruct only; [done|]. destruct Ho as [?|Ho]; [done|].
  rewrite (proj2 (Z.ltb_ge _ _)) by lia. cbn [andb]. by rewrite andb_false_r.
Qed.

Lemma utc_year c : 1970 <= year c < 2050 ->
  let y := year c mod 100 in put_num (year c) 2 = put_num y 2 /\ 0 <= y < 100 /\ (if 49 <? y then y + 1900 else y + 2000) = year c.
Proof.
  intros Hy y. assert (Hp : put_num (year c) 2 = put_num y 2).
  { unfold y. cbn [put_num app]. assert ((year c mod 100) mod 10 = year c mod 10) as -> by (Z.to_euclidean_division_equations; lia).
    assert ((year c mod 100) / 10 mod 10 = year c / 10 mod 10) as -> by (Z.to_euclidean_division_equations; lia). done. }
  split; [done|]. unfold y. split; [apply Z.mod_pos_bound; lia|]. destruct (Z.ltb_spec 49 (year c mod 100)); Z.to_euclidean_division_equations; lia.
Qed.

Lemma asn_utc c : valid_civil c -> year c < 2050 -> ASNTimeToDBTime (utc_bytes c Zulu) false = inr c.
Proof.
  intros Hc Hy. pose proof (civil_bounds c Hc) as Hb. assert (1970 <= year c) by apply Hc.
  assert (E : utc_bytes c Zulu = (put_num (year c) 2 ++ date_bytes c) ++ [ch_Z]) by (unfold utc_bytes; by rewrite <- app_assoc).
  pose proof (date_digits 2 c) as Hd. unfold ASNTimeToDBTime.
  assert (Hs : suffix_bad (utc_bytes c Zulu) = false) by (unfold suffix_bad; by rewrite E, strpbrk_digits).
  assert (Hz : strchr ch_Z (utc_bytes c Zulu) = Some 12%nat).
  { rewrite E, strchr_digits by done. unfold date_bytes. by rewrite !length_app, !length_put_num. }
  destruct (utc_year c ltac:(lia)) as (Hp & Hr & Hcent). set (y := year c mod 100) in *.
  assert (Hsc : scan_date 12 (utc_bytes c Zulu) = Some (year c, month c, day c, hour c, minute c, second c, ch_Z)).
  { unfold scan_date, utc_bytes, date_bytes. rewrite Hp. cbn [Nat.eqb UTC10 UTC12 sscanf zone_bytes]. repeat scan_put. by rewrite Hcent. }
  rewrite Hs, Hz, Hsc, in_range_ok by done. destruct (utc_bytes c Zulu) eqn:Eg; [symmetry in E; by apply app_eq_nil in E as [_ ?]|].
  cbn [Nat.eqb GEN14 GEN16 orb negb]. rewrite civil_eta, andb_false_r. rewrite (proj2 (Z.leb_gt _ _)) by lia. done.
Qed.

Lemma asn_gen_early c : valid_civil c -> year c < 2050 -> ASNTimeToDBTime (gen_bytes c Zulu) false = inl ERR_SCM_INVALDT.
Proof.
  intros Hc Hy. pose proof (asn_gen c true Hc ltac:(lia) ltac:(by left)) as Hg. revert Hg. unfold ASNTimeToDBTime.
  destruct (gen_bytes c Zulu) eqn:E; [done|]. rewrite <- E. destruct (suffix_bad _); [done|]. destruct (strchr _ _) as [fmt|]; [|done].
  destruct (scan_date fmt _) as [[[[[[[yy mo] d] h] mi] se] tz]|]; [|done]. destruct (negb (tz =? ch_Z) || _ || _ || _ || _ || _ || _ || _ || _ || _ || _); [done|].
  destruct (_ || _)%nat; cbn [negb]; [|done]. intros [= <-]. cbn [year] in Hy. rewrite (proj2 (Z.ltb_lt _ _)) by done. done.
Qed.

(** The first second of 2050. *)
Definition Y2050 : Z := 2524608000.

Lemma doy_bound y m d : 1 <= m <= 12 -> 1 <= d <= month_length (is_leap y) m ->
  0 <= days_of_months (is_leap y) (Z.to_nat (m - 1)) + (d - 1) < (if is_leap y then 366 else 365).
Proof.
  intros Hm. revert d. pattern m. apply month_cases; [done|]. destruct (is_leap y); rewrite !Forall_cons, Forall_nil; split_and!; try done; intros d Hd;
  match type of Hd with context [month_length ?l ?k] => let v := eval vm_compute in (month_length l k) in change (month_length l k) with v in Hd end;
  match goal with |- context [days_of_months ?l ?k] => let v := eval vm_compute in (days_of_months l k) in change (days_of_months l k) with v end; lia.
Qed.

Lemma epoch_2050 c : valid_civil c -> year c < 2100 -> epoch_seconds c < Y2050 <-> year c < 2050.
Proof.
  intros (Hy & Hm & Hd & Hh & Hmi & Hs) Hy'. unfold epoch_seconds, civil_day, Y2050.
  pose proof (doy_bound _ _ _ Hm Hd) as Hb. set (D := days_of_months _ _) in *. clearbody D.
  rewrite is_leap_mod4 in Hb by lia. rewrite days_of_years_closed by lia. rewrite Z2Nat.id by lia.
  destruct (Z.eqb_spec (year c mod 4) 0); Z.to_euclidean_division_equations; lia.
Qed.

Lemma written t : 0 <= t < 4102444800 -> exists c, valid_civil c /\ year c < 2100 /\ epoch_seconds c = t /\
  write_casn_time ASN_GENTIME t = WOk (gen_bytes c Zulu) /\
  write_casn_time ASN_UTCTIME t = if year c <? 2050 then WOk (utc_bytes c Zulu) else WFail.
Proof.
  intros Ht. destruct (civil_exists t Ht) as (c & da & Hc & Hy & E & Hs & Hmi & Hh & Hyd & Hmd). rewrite <- E in *.
  destruct (write_casn_time_civil _ c da Hc Hy Hs Hmi Hh Hyd Hmd) as [Eg Eu]. exists c. split_and!; try done.
Qed.

Lemma read_nonempty t secs : read_casn_time t = Some secs -> (0 <? casn_lth t)%nat = true.
Proof. destruct t as [ty [|? ?]]; [|done]. by destruct ty. Qed.

(** One alternative, of its type, and before 2100. *)
Definition wf_time (t : time_choice) : Prop := exists f, (forall secs, read_casn_time f = Some secs -> 0 <= secs < 4102444800) /\
  ((time_ty f = ASN_UTCTIME /\ t = {| utcTime := Some f; generalTime := None |}) \/
   (time_ty f = ASN_GENTIME /\ t = {| utcTime := None; generalTime := Some f |})).

(** A date that can be read, as a UTCTime before 2050 and as a GeneralizedTime from then on. *)
Definition date_ok (t : time_choice) : Prop :=
  exists secs, read_casn_time_choice t = Some secs /\ (is_Some (utcTime t) <-> secs < Y2050).

Lemma vsize_written f : (forall secs, read_casn_time f = Some secs -> 0 <= secs < 4102444800) ->
  match read_casn_time f with
  | None => vsize_casn_time f = -1
  | Some secs => exists c, valid_civil c /\ year c < 2100 /\ epoch_seconds c = secs /\
      match time_ty f with
      | ASN_GENTIME => vsize_casn_time f = 15 /\ time_text f = gen_bytes c Zulu
      | ASN_UTCTIME => if year c <? 2050 then vsize_casn_time f = 13 /\ time_text f = utc_bytes c Zulu else vsize_casn_time f = -1
      end
  end.
Proof.
  intros Hr. unfold vsize_casn_time, time_text. destruct (read_casn_time f) as [secs|] eqn:E; [|done].
  destruct (written secs (Hr _ eq_refl)) as (c & Hc & Hy & He & Hg & Hu). exists c. split_and!; [done..|].
  rewrite (read_nonempty _ _ E). destruct (time_ty f); [rewrite Hu; destruct (year c <? 2050); [|done]|rewrite Hg]; (split; [|done]);
    unfold utc_bytes, gen_bytes, date_bytes; rewrite !length_app, !length_put_num; done.
Qed.

Lemma cvt_ok t : wf_time t -> 0 <= cvt_crldate2DB t <-> date_ok t.
Proof.
  intros (f & Hr & Ht). pose proof (vsize_written f Hr) as Hv. unfold cvt_crldate2DB, date_ok, read_casn_time_choice, vsize_opt_time.
  destruct Ht as [[Ety ->]|[Ety ->]]; cbn [utcTime generalTime from_option]; rewrite Ety in Hv.
  - destruct (read_casn_time f) as [secs|] eqn:Er.
    2: { rewrite Hv. cbn [Z.eqb Z.ltb Z.compare negb mbind option_bind]. rewrite Er. split; [done|]. by intros (? & ? & _). }
    destruct Hv as (c & Hc & Hy & <- & Hv). pose proof (epoch_2050 c Hc Hy) as He. destruct (Z.ltb_spec (year c) 2050) as [H50|H50].
    + destruct Hv as [-> ->]. cbn [Z.eqb Z.ltb Z.compare Pos.eqb Pos.compare Pos.compare_cont negb mbind option_bind]. rewrite Er, asn_utc by done.
      split; [|done]. intros _. exists (epoch_seconds c). split; [done|]. split; [by rewrite He|by eexists].
    + rewrite Hv. cbn [Z.eqb Z.ltb Z.compare negb mbind option_bind]. rewrite Er. split; [done|]. intros (s & [= <-] & Hs).
      assert (epoch_seconds c < Y2050) by (apply Hs; by eexists). lia.
  - cbn [Z.eqb Z.ltb Z.compare negb]. destruct (read_casn_time f) as [secs|] eqn:Er.
    2: { rewrite Hv. cbn [Z.eqb Z.ltb Z.compare negb mbind option_bind]. rewrite Er. split; [done|]. by intros (? & ? & _). }
    destruct Hv as (c & Hc & Hy & <- & -> & ->). pose proof (epoch_2050 c Hc Hy) as He.
    cbn [Z.eqb Z.ltb Z.compare Pos.eqb Pos.compare Pos.compare_cont negb mbind option_bind andb]. rewrite Er.
    destruct (Z.ltb_spec (year c) 2050) as [H50|H50].
    + rewrite asn_gen_early by done. split; [done|]. intros (s & [= <-] & Hs). apply He, Hs in H50. by destruct H50.
    + rewrite asn_gen by (done || lia || by right). split; [|done]. intros _. exists (epoch_seconds c). split; [done|].
      split; [by intros [? ?]|lia].
Qed.

(** ** Dates in the form of RFC 5280 *)

(** The text of a time: [YYMMDDhhmmssZ] in a UTCTime, for the years 1970 to 2049, or
    [YYYYMMDDhhmmssZ] in a GeneralizedTime, up to 2099; [c] is what the digits say. *)
Definition rfc_form (t : time_choice) (c : civil) : Prop :=
  digits_fit c /\
  (t = {| utcTime := Some {| time_ty := ASN_UTCTIME; time_content := utc_bytes c Zulu |}; generalTime := None |} /\ year c < 2050 \/
   t = {| utcTime := None; generalTime := Some {| time_ty := ASN_GENTIME; time_content := gen_bytes c Zulu |} |}).

(** A date of the calendar, as a UTCTime up to 2049 and as a GeneralizedTime from
    2050 on. *)
Definition rfc_date (t : time_choice) (c : civil) : Prop :=
  rfc_form t c /\ valid_civil c /\ (is_Some (utcTime t) <-> year c < 2050).

Lemma read_rfc_form t c : wf_time t -> rfc_form t c ->
  forall v, read_casn_time_choice t = Some v <-> valid_civil c /\ ~ late_leap_day c /\ v = epoch_seconds c.
Proof.
  intros (f & Hb & Hf) [Hd Ht] v. pose proof (vsize_written f Hb) as Hv.
  assert (Hform : f = {| time_ty := ASN_GENTIME; time_content := gen_bytes c Zulu |} \/
    f = {| time_ty := ASN_UTCTIME; time_content := utc_bytes c Zulu |} /\ year c < 2050) by naive_solver.
  rewrite <- (read_form c f Hd Hform).
  assert (Hn : (vsize_casn_time f =? 0) = false).
  { apply Z.eqb_neq. destruct (read_casn_time f); [|lia]. destruct Hv as (? & _ & _ & _ & Hv).
    destruct (time_ty f); [destruct (_ <? _); [destruct Hv|]|destruct Hv]; lia. }
  unfold read_casn_time_choice, vsize_opt_time.
  destruct Hf as [[_ ->]|[_ ->]]; cbn [utcTime generalTime from_option]; rewrite Hn; cbn; done.
Qed.

(** A date in this form passes just if it is such a date, and no leap day from 2072
    on, which the reader takes for wrong. *)
Lemma rfc_date_ok t c : wf_time t -> rfc_form t c -> date_ok t <-> rfc_date t c /\ ~ late_leap_day c.
Proof.
  intros Hw Hf. pose proof (read_rfc_form t c Hw Hf) as Hr. unfold date_ok, rfc_date. split.
  - intros (secs & Hs & Hu). apply Hr in Hs as (Hc & Hl & ->). split; [|done]. split; [done|]. split; [done|].
    rewrite Hu. apply epoch_2050; [done|apply Hf].
  - intros [(_ & Hc & Hu) Hl]. exists (epoch_seconds c). split; [by apply Hr|]. rewrite Hu. symmetry.
    apply epoch_2050; [done|apply Hf].
Qed.

(** ** Extensions *)

Definition oid_authKeyId := oid_bytes 2 5 [29; 35].
Definition oid_cRLNumber := oid_bytes 2 5 [29; 20].

Definition crit_of (e : CRLExtension) : bool := match num_content (crl_critical e) with Some [b] => negb (b =? 0) | _ => false end.

Record wf_crl_ext (e : CRLExtension) : Prop := {
  wx_oid : wf_oid (crl_extnID e);
  wx_crit : num_ty (crl_critical e) = ASN_BOOLEAN /\ num_default (crl_critical e) = true /\
            (num_content (crl_critical e) = None \/ exists b, byte_ok b /\ num_content (crl_critical e) = Some [b]);
  wx_value : bytes_ok (crl_value e) }.

Lemma marked_crit e : wf_crl_ext e -> marked_critical e = Some (crit_of e).
Proof.
  intros [_ (Ht & Hd & Hc) _]. unfold marked_critical, read_casn_num, read_casn_num_max, crit_of.
  destruct Hc as [-> |(b & Hb & ->)]; rewrite ?Hd, Ht; [done|]. assert (0 <= b < 256) by exact Hb.
  assert (Hn : num_loop [b] 0 = b).
  { cbn [num_loop]. change (Z.shiftl 0 8 + b) with b. unfold s64. rewrite Z.mod_small by lia. lia. }
  change (8 <? Z.of_nat (length [b])) with false. cbn [is_integer]. rewrite andb_false_r. cbv beta iota.
  change (8 <? Z.of_nat (length [b])) with false. cbv beta iota. change (Z.of_nat (length [b]) <? 0) with false.
  cbn [mbind option_bind]. rewrite Hn. f_equal. destruct (Z.eqb_spec b 0); cbn [negb]; [apply Z.ltb_ge|apply Z.ltb_lt]; lia.
Qed.

Lemma loop_step e l a n : wf_crl_ext e -> crl_extensions_loop (e :: l) a n =
  if bool_decide (crl_extnID e = oid_authKeyId) then
    if crit_of e then Some (inl ERR_SCM_CEXT) else if a then Some (inl ERR_SCM_BADEXT) else crl_extensions_loop l true n
  else if bool_decide (crl_extnID e = oid_cRLNumber) then
    if crit_of e then Some (inl ERR_SCM_CEXT)
    else match n with Some _ => Some (inl ERR_SCM_BADEXT) | None => crl_extensions_loop l a (Some (crl_value e)) end
  else Some (inl ERR_SCM_BADEXT).
Proof.
  intros Hw. pose proof (wx_oid _ Hw) as Ho. cbn [crl_extensions_loop]. unfold id_authKeyId, id_cRLNumber.
  rewrite !same_oid; [|done|oid_ok_tac|done|oid_ok_tac]. fold oid_authKeyId oid_cRLNumber. cbn [mbind option_bind].
  rewrite marked_crit by done. cbn [mbind option_bind]. case_bool_decide; [done|]. case_bool_decide; [done|].
  destruct Ho as (a' & b' & l' & Hok & E). rewrite E. destruct (oid_read _ _ _ Hok) as [-> ->]. cbn [mbind option_bind]. by destruct (0 <? _).
Qed.

Lemma loop_full l v : Forall wf_crl_ext l -> match crl_extensions_loop l true (Some v) with
  | Some (inr r) => l = [] /\ r = (true, Some v) | Some (inl ret) => ret < 0 /\ l <> [] | None => False end.
Proof.
  intros Hw. destruct Hw as [|e l He Hw]; [done|]. rewrite loop_step by done.
  case_bool_decide; [by destruct (crit_of e)|]. case_bool_decide; [by destruct (crit_of e)|]. done.
Qed.

(** A sequence that the loop gets through from a state, and what it leaves. *)
Definition num_ext (e : CRLExtension) : Prop := crl_extnID e = oid_cRLNumber /\ crit_of e = false.
Definition aki_crl_ext (e : CRLExtension) : Prop := crl_extnID e = oid_authKeyId /\ crit_of e = false.

Lemma loop_aki l : Forall wf_crl_ext l -> match crl_extensions_loop l true None with
  | Some (inr r) => (l = [] /\ r = (true, None)) \/ exists e, l = [e] /\ num_ext e /\ r = (true, Some (crl_value e))
  | Some (inl ret) => ret < 0 /\ ~ exists e, l = [e] /\ num_ext e
  | None => False end.
Proof.
  intros Hw. destruct Hw as [|e l He Hw]; [by left|]. rewrite loop_step by done. assert (Hne : oid_authKeyId <> oid_cRLNumber) by done.
  unfold num_ext. case_bool_decide as E1; [destruct (crit_of e); (split; [done|]); intros (? & [= <- _] & ? & _); congruence|].
  case_bool_decide as E2; [|split; [done|]; intros (? & [= <- _] & ? & _); congruence].
  destruct (crit_of e) eqn:Ec; [split; [done|]; intros (? & [= <- _] & _ & ?); congruence|].
  pose proof (loop_full l (crl_value e) Hw) as Hf. destruct (crl_extensions_loop l true _) as [[ret|r]|]; [| |done].
  - destruct Hf as [? Hl]. split; [done|]. intros (? & [= <- ->] & _). done.
  - destruct Hf as [-> ->]. right. exists e. done.
Qed.

Lemma loop_num l v : Forall wf_crl_ext l -> match crl_extensions_loop l false (Some v) with
  | Some (inr r) => (l = [] /\ r = (false, Some v)) \/ exists e, l = [e] /\ aki_crl_ext e /\ r = (true, Some v)
  | Some (inl ret) => ret < 0 /\ ~ exists e, l = [e] /\ aki_crl_ext e
  | None => False end.
Proof.
  intros Hw. destruct Hw as [|e l He Hw]; [by left|]. rewrite loop_step by done. unfold aki_crl_ext.
  case_bool_decide as E1.
  - destruct (crit_of e) eqn:Ec; [split; [done|]; intros (? & [= <- _] & _ & ?); congruence|].
    pose proof (loop_full l v Hw) as Hf. destruct (crl_extensions_loop l true _) as [[ret|r]|]; [| |done].
    + destruct Hf as [? Hl]. split; [done|]. intros (? & [= <- ->] & _). done.
    + destruct Hf as [-> ->]. right. exists e. done.
  - case_bool_decide; [destruct (crit_of e)|]; (split; [done|]; intros (? & [= <- _] & ? & _); congruence).
Qed.

(** A CRL number: twenty bytes at most, not negative. *)
Definition number_ok (v : list Z) : Prop := (0 < length v <= 20)%nat /\ 0 <= twos_val v.

(** A key identifier and a number, each once, and nothing else. *)
Definition extensions_profile (l : list CRLExtension) : Prop := exists a n,
  (l = [a; n] \/ l = [n; a]) /\ aki_crl_ext a /\ num_ext n /\ number_ok (crl_value n).

Lemma number_chk_ok v : bytes_ok v ->
  0 <= (if (length v <=? 0)%nat then ERR_SCM_BADCRLNUM else if (CRL_MAX_CRLNUM_LTH <? length v)%nat then ERR_SCM_BADCRLNUM
        else if negb (Z.land (hd 0 v) 0x80 =? 0) then ERR_SCM_BADCRLNUM else 0) <-> number_ok v.
Proof.
  intros Hb. unfold number_ok, CRL_MAX_CRLNUM_LTH. destruct v as [|x v]; [cbn; split; [done|lia]|]. cbn [length Nat.leb hd].
  destruct (Nat.ltb_spec 20 (S (length v))); [split; [done|lia]|]. inversion Hb as [|? ? Hx Hv]; subst. rewrite land_80 by done.
  pose proof (be_val_bound (x :: v) Hb) as Hbd. cbn [twos_val]. destruct (Z.ltb_spec x 128); cbn [negb]; [split; lia|].
  split; [done|]. cbn [length] in *. lia.
Qed.

Lemma crl_extensions_ok crl : Forall wf_crl_ext (crlExtensions crl) -> accepts (crl_extensions_chk crl) (extensions_profile (crlExtensions crl)).
Proof.
  intros Hw. unfold crl_extensions_chk, extensions_profile. pose proof Hw as Hw0.
  assert (Hne : oid_authKeyId <> oid_cRLNumber) by done.
  destruct Hw as [|e l He Hw]; [apply accepts_some; split; [done|]; by intros (? & ? & [?|?] & _)|].
  rewrite loop_step by done. unfold aki_crl_ext, num_ext.
  case_bool_decide as E1; [|case_bool_decide as E2].
  - destruct (crit_of e) eqn:Ec; [apply accepts_some; split; [done|]; intros (a & n & [[= <- _]|[= <- _]] & [? ?] & [? ?] & _); congruence|].
    pose proof (loop_aki l Hw) as Hl. destruct (crl_extensions_loop l true None) as [[ret|r]|]; [| |done]; cbn [mbind option_bind]; apply accepts_some.
    + destruct Hl as [? Hn]. split; [lia|]. intros (a & n & [[= <- ->]|[= <- ->]] & [? ?] & [? ?] & _); [|congruence]. destruct Hn. by exists n.
    + destruct Hl as [[-> ->]|(n & -> & [En Cn] & ->)]; cbn [negb].
      * split; [done|]. by intros (? & ? & [?|?] & _).
      * rewrite number_chk_ok by (apply wx_value; rewrite Forall_forall in Hw; apply Hw; left). split.
        -- intros Hn. exists e, n. split_and!; [by left|done..].
        -- intros (a & n' & [[= <- <-]|[= <- <-]] & [? ?] & [? ?] & ?); [done|congruence].
  - destruct (crit_of e) eqn:Ec; [apply accepts_some; split; [done|]; intros (a & n & [[= <- _]|[= <- _]] & [? ?] & [? ?] & _); congruence|].
    pose proof (loop_num l (crl_value e) Hw) as Hl. destruct (crl_extensions_loop l false _) as [[ret|r]|]; [| |done]; cbn [mbind option_bind]; apply accepts_some.
    + destruct Hl as [? Hn]. split; [lia|]. intros (a & n & [[= <- ->]|[= <- ->]] & [? ?] & [? ?] & _); [congruence|]. destruct Hn. by exists a.
    + destruct Hl as [[-> ->]|(a & -> & [En Cn] & ->)]; cbn [negb].
      * split; [done|]. by intros (? & ? & [?|?] & _).
      * rewrite number_chk_ok by (by apply wx_value). split.
        -- intros Hn. exists a, e. split_and!; [by right|done..].
        -- intros (a' & n' & [[= <- <-]|[= <- <-]] & [? ?] & [? ?] & ?); [congruence|done].
  - apply accepts_some. split; [done|]. intros (a & n & [[= <- _]|[= <- _]] & [? ?] & [? ?] & _); congruence.
Qed.

(** ** The profile *)

Definition entry_ok (e : CRLEntry) : Prop := entry_has_extensions e = false /\ userCertificate e <> [] /\ date_ok (revocationDate e).

Lemma entry_chk_ok e : wf_time (revocationDate e) -> 0 <= crl_entry_chk e <-> entry_ok e.
Proof.
  intros Hw. unfold crl_entry_chk, entry_ok. rewrite <- (cvt_ok _ Hw). destruct (entry_has_extensions e); [split; [done|by intros [? _]]|].
  destruct (userCertificate e) as [|x l]; cbn [length Nat.eqb]; [split; [done|by intros (_ & ? & _)]|].
  destruct (read_casn_time_choice (revocationDate e)) eqn:E.
  - destruct (Z.ltb_spec (cvt_crldate2DB (revocationDate e)) 0); [split; [done|]; intros (_ & _ & ?); lia|]. split; [|lia]. by intros _.
  - split; [done|]. intros (_ & _ & Hc). apply (cvt_ok _ Hw) in Hc as (? & ? & _). congruence.
Qed.

Lemma entries_ok crl : Forall (fun e => wf_time (revocationDate e)) (revokedCertificates crl) ->
  0 <= crl_entries_chk crl <-> Forall entry_ok (revokedCertificates crl).
Proof.
  unfold crl_entries_chk. induction 1 as [|e l He Hl IH]; cbn [crl_entries_loop]; [split; [constructor|done]|].
  rewrite Forall_cons, <- IH, <- (entry_chk_ok e He). destruct (Z.ltb_spec (crl_entry_chk e) 0); [lia|]. tauto.
Qed.

Definition update_ok (last next : time_choice) : Prop :=
  date_ok last /\ date_ok next /\ exists v1 v2, read_casn_time_choice last = Some v1 /\ read_casn_time_choice next = Some v2 /\ v1 <= v2.

Lemma crl_dates_ok crl : wf_time (crl_lastUpdate crl) -> wf_time (crl_nextUpdate crl) ->
  0 <= crl_dates_chk crl <-> update_ok (crl_lastUpdate crl) (crl_nextUpdate crl).
Proof.
  intros H1 H2. unfold crl_dates_chk, update_ok, diff_time_choice. rewrite <- (cvt_ok _ H1), <- (cvt_ok _ H2).
  destruct (read_casn_time_choice (crl_lastUpdate crl)) as [v1|]; [|split; [done|]; by intros (_ & _ & ? & ? & ? & _)].
  destruct (read_casn_time_choice (crl_nextUpdate crl)) as [v2|]; [|split; [done|]; by intros (_ & _ & ? & ? & _ & ? & _)].
  assert (Hc : (if v2 <? v1 then 1 else if v1 <? v2 then -1 else 0) =? -2 = false) by (destruct (v2 <? v1), (v1 <? v2); done). rewrite Hc.
  destruct (Z.ltb_spec (cvt_crldate2DB (crl_lastUpdate crl)) 0); [split; [done|lia]|].
  destruct (Z.ltb_spec (cvt_crldate2DB (crl_nextUpdate crl)) 0); [split; [done|lia]|]. cbn [orb].
  destruct (Z.ltb_spec v2 v1); cbn [Z.ltb Z.compare].
  - split; [done|]. intros (_ & _ & ? & ? & [= <-] & [= <-] & ?). lia.
  - replace (0 <? (if v1 <? v2 then -1 else 0)) with false by (by destruct (v1 <? v2)). split; [|done]. intros _. split_and!; [done|done|by exists v1, v2].
Qed.

(** What is asked of a CRL, where [update] says what is asked of the two dates of
    updates, and [revoked] of the dates in the list. *)
Record crl_profile (update : time_choice -> time_choice -> Prop) (revoked : time_choice -> Prop)
    (strict : bool) (crl : CertificateRevocationList) : Prop := {
  lp_version : exists n, read_casn_num (crl_version crl) = (n, Some 1) /\ 0 <= n;
  lp_algorithms : crl_signature crl = oid_bytes 1 2 [840; 113549; 1; 1; 11] /\ crl_algorithm crl = oid_bytes 1 2 [840; 113549; 1; 1; 11];
  lp_issuer : name_ok strict (crl_issuer crl);
  lp_dates : update (crl_lastUpdate crl) (crl_nextUpdate crl);
  lp_entries : Forall (fun e => entry_has_extensions e = false /\ userCertificate e <> [] /\ revoked (revocationDate e))
                 (revokedCertificates crl);
  lp_extensions : extensions_profile (crlExtensions crl) }.

(** With the dates as the program reads them. *)
Definition crl_as_read : bool -> CertificateRevocationList -> Prop := crl_profile update_ok date_ok.

(** With the dates of RFC 5280, in the calendar and in order. *)
Definition crl_as_dated : bool -> CertificateRevocationList -> Prop :=
  crl_profile (fun last next => exists c1 c2, rfc_date last c1 /\ rfc_date next c2 /\ epoch_seconds c1 <= epoch_seconds c2)
    (fun t => exists c, rfc_date t c).

Definition crl_dates (crl : CertificateRevocationList) : list time_choice :=
  crl_lastUpdate crl :: crl_nextUpdate crl :: map revocationDate (revokedCertificates crl).

(** Every date has the form of RFC 5280; on none of them is it 29 February 2072 or
    a later leap day. *)
Definition dates_in_form (crl : CertificateRevocationList) : Prop := Forall (fun t => exists c, rfc_form t c) (crl_dates crl).
Definition no_late_leap_day (crl : CertificateRevocationList) : Prop :=
  Forall (fun t => forall c, rfc_form t c -> ~ late_leap_day c) (crl_dates crl).

Record wf_crl (crl : CertificateRevocationList) : Prop := {
  wl_algs : wf_oid (crl_signature crl) /\ wf_oid (crl_algorithm crl);
  wl_issuer : wf_name (crl_issuer crl);
  wl_dates : wf_time (crl_lastUpdate crl) /\ wf_time (crl_nextUpdate crl);
  wl_entries : Forall (fun e => wf_time (revocationDate e)) (revokedCertificates crl);
  wl_exts : Forall wf_crl_ext (crlExtensions crl) }.

Lemma crl_version_ok crl : accepts (crl_version_chk crl) (exists n, read_casn_num (crl_version crl) = (n, Some 1) /\ 0 <= n).
Proof.
  unfold crl_version_chk. destruct (read_casn_num (crl_version crl)) as [ret [v|]]; destruct (Z.ltb_spec ret 0); cbn [mbind option_bind].
  - apply accepts_some. split; [done|]. intros (? & [= <- _] & ?). lia.
  - apply accepts_some. destruct (Z.eqb_spec v 1) as [->|Hv]; cbn [negb]; [split; [by exists ret|done]|split; [done|by intros (? & [= _ ?] & _)]].
  - apply accepts_some. split; [done|]. by intros (? & [= <-] & _).
  - split; [by intros (? & ? & _)|by intros (? & [= <-] & _)].
Qed.

Lemma crl_sigalg_ok crl : wf_oid (crl_signature crl) -> wf_oid (crl_algorithm crl) -> accepts (crl_sigalg_chk crl)
  (crl_signature crl = oid_bytes 1 2 [840; 113549; 1; 1; 11] /\ crl_algorithm crl = oid_bytes 1 2 [840; 113549; 1; 1; 11]).
Proof.
  intros H1 H2. unfold crl_sigalg_chk, id_sha_256WithRSAEncryption. rewrite !same_oid; [|done|oid_ok_tac|done|oid_ok_tac]. cbn [mbind option_bind].
  destruct (decide (crl_signature crl = oid_bytes 1 2 [840; 113549; 1; 1; 11])) as [E1|E1];
    [rewrite (bool_decide_eq_true_2 _ E1)|rewrite (bool_decide_eq_false_2 _ E1); apply accepts_some; split; [done|by intros [? _]]]. cbn [negb].
  destruct (decide (crl_algorithm crl = oid_bytes 1 2 [840; 113549; 1; 1; 11])) as [E2|E2];
    [rewrite (bool_decide_eq_true_2 _ E2)|rewrite (bool_decide_eq_false_2 _ E2)]; cbn [negb]; apply accepts_some; (split; [done|]); try done; by intros [_ ?].
Qed.

Lemma crl_issuer_ok strict crl : wf_name (crl_issuer crl) -> accepts (crl_issuer_chk strict crl) (name_ok strict (crl_issuer crl)).
Proof.
  intros Hw. unfold crl_issuer_chk. destruct (name_chk_ok strict _ Hw) as (v & -> & Hv). cbn [mbind option_bind]. apply accepts_some.
  rewrite <- Hv. destruct (Z.ltb_spec v 0); [split; [done|lia]|]. split; done.
Qed.

Lemma crl_profile_chk_ok strict crl : wf_crl crl -> crl_profile_chk strict crl = Some 0 <-> crl_as_read strict crl.
Proof.
  intros [[A1 A2] Wi [D1 D2] We Wx]. unfold crl_profile_chk.
  rewrite (and_then_accepts _ _ _ (crl_version_ok crl)), (and_then_accepts _ _ _ (crl_sigalg_ok crl A1 A2)).
  rewrite (and_then_accepts _ _ _ (crl_issuer_ok strict crl Wi)), (and_then_accepts _ _ _ (accepts_some _ _ (crl_dates_ok crl D1 D2))).
  rewrite (and_then_accepts _ _ _ (accepts_some _ _ (entries_ok crl We))), (and_then_accepts _ _ _ (crl_extensions_ok crl Wx)).
  split; [intros (? & ? & ? & ? & ? & ? & _); by constructor|]. intros []. unfold entry_ok. tauto.
Qed.

(** The dates of updates, in form. *)
Lemma update_in_form t1 t2 c1 c2 : wf_time t1 -> wf_time t2 -> rfc_form t1 c1 -> rfc_form t2 c2 ->
  update_ok t1 t2 <-> rfc_date t1 c1 /\ rfc_date t2 c2 /\ epoch_seconds c1 <= epoch_seconds c2 /\ ~ late_leap_day c1 /\ ~ late_leap_day c2.
Proof.
  intros W1 W2 F1 F2. unfold update_ok. rewrite (rfc_date_ok t1 c1), (rfc_date_ok t2 c2) by done.
  pose proof (read_rfc_form t1 c1 W1 F1) as R1. pose proof (read_rfc_form t2 c2 W2 F2) as R2. split.
  - intros ((D1 & L1) & (D2 & L2) & v1 & v2 & E1 & E2 & Hle). apply R1 in E1 as (_ & _ & ->). apply R2 in E2 as (_ & _ & ->). done.
  - intros (D1 & D2 & Hle & L1 & L2). split; [done|]. split; [done|]. exists (epoch_seconds c1), (epoch_seconds c2).
    split; [apply R1; split; [apply D1|done]|]. split; [apply R2; split; [apply D2|done]|done].
Qed.

Lemma as_read_dated strict crl : wf_crl crl -> dates_in_form crl ->
  crl_as_read strict crl <-> crl_as_dated strict crl /\ no_late_leap_day crl.
Proof.
  intros [_ _ [W1 W2] We _] Hf. unfold dates_in_form, no_late_leap_day, crl_dates in *. rewrite !Forall_cons, !Forall_map in *.
  destruct Hf as ((c1 & F1) & (c2 & F2) & Fe). split.
  - intros [Hv Ha Hi Hd He Hx]. split; [constructor; try done|split_and!].
    + apply (update_in_form _ _ c1 c2) in Hd as (? & ? & ? & _); [|done..]. by exists c1, c2.
    + rewrite Forall_forall in *. intros e Hin. destruct (He e Hin) as (? & ? & Hr). split; [done|]. split; [done|].
      destruct (Fe e Hin) as [c Hc]. exists c. apply (rfc_date_ok _ c (We e Hin) Hc), Hr.
    + intros c Hc. by apply (update_in_form _ _ c c2) in Hd as (_ & _ & _ & ? & _).
    + intros c Hc. by apply (update_in_form _ _ c1 c) in Hd as (_ & _ & _ & _ & ?).
    + rewrite Forall_forall in *. intros e Hin c Hc. destruct (He e Hin) as (_ & _ & Hr).
      apply (rfc_date_ok _ c (We e Hin) Hc), Hr.
  - intros [[Hv Ha Hi (d1 & d2 & D1 & D2 & Hle) He Hx] (L1 & L2 & Le)]. constructor; try done.
    + apply (update_in_form _ _ d1 d2); [done|done|apply D1|apply D2|]. split_and!; try done; [apply L1, D1|apply L2, D2].
    + rewrite Forall_forall in *. intros e Hin. destruct (He e Hin) as (? & ? & c & Hr). split; [done|]. split; [done|].
      apply (rfc_date_ok _ c); [by apply We|apply Hr|]. split; [done|]. apply (Le e Hin), Hr.
Qed.

(** C18: What [crl_profile_chk] accepts, for CRLs whose dates are before 2100. It asks
    for version 2, RSA with SHA-256, a proper issuer name, entries without extensions,
    just the key identifier and a CRL number of 20 bytes at most that is not negative,
    both not critical, and dates that can be read, are in order, and are UTCTime before
    2050 and GeneralizedTime from then on. If all dates are written the way RFC 5280
    demands (digits to the second, and [Z]), then it accepts exactly the CRLs whose dates
    moreover are dates of the calendar from 1970 on, but for those in which a date is 29
    February 2072 or a later leap day: it refuses them. Dates in other forms (an offset
    instead of [Z], no seconds) are outside of RFC 5280; they are accepted if they can be
    read. *)
Theorem crl_profile_exact strict crl : wf_crl crl ->
  (crl_profile_chk strict crl = Some 0 <-> crl_as_read strict crl) /\
  (dates_in_form crl -> crl_profile_chk strict crl = Some 0 <-> crl_as_dated strict crl /\ no_late_leap_day crl).
Proof.
  intros Hw. split; [by apply crl_profile_chk_ok|]. intros Hf. rewrite crl_profile_chk_ok by done. by apply as_read_dated.
Qed.

Definition demo_bool (c : option (list Z)) : casn_num :=
  {| num_ty := ASN_BOOLEAN; num_optional := false; num_default := true; num_content := c |}.
Definition demo_crl : CertificateRevocationList :=
  {| crl_version := sample_num false (Some [1]);
     crl_signature := oid_bytes 1 2 [840; 113549; 1; 1; 11]; crl_algorithm := oid_bytes 1 2 [840; 113549; 1; 1; 11];
     crl_issuer := [[{| ava_objid := oid_commonName; ava_printable := Some [65] |}; {| ava_objid := oid_serialNumber; ava_printable := Some [66] |}]];
     crl_lastUpdate := sample_utc 2014;
     crl_nextUpdate := {| utcTime := None; generalTime := Some {| time_ty := ASN_GENTIME; time_content := gen_bytes (mkCivil 2050 1 1 0 0 0) Zulu |} |};
     revokedCertificates := [{| userCertificate := [1; 2]; revocationDate := sample_utc 2013; entry_has_extensions := false |}];
     crlExtensions :=
       [{| crl_extnID := oid_cRLNumber; crl_critical := demo_bool None; crl_value := [0; 255] |};
        {| crl_extnID := oid_authKeyId; crl_critical := demo_bool (Some [0]); crl_value := [] |}] |}.

Lemma wf_utc f : time_ty f = ASN_UTCTIME ->
  match read_casn_time f with Some s => (0 <=? s) && (s <? 4102444800) | None => true end = true ->
  wf_time {| utcTime := Some f; generalTime := None |}.
Proof.
  intros Hf Hs. exists f. split; [|by left]. intros secs E. rewrite E, andb_true_iff, Z.leb_le, Z.ltb_lt in Hs. done.
Qed.

Lemma demo_wf_crl : wf_crl demo_crl.
Proof.
  constructor.
  - split; eexists _, _, _; (split; [|reflexivity]); oid_ok_tac.
  - unfold wf_name. repeat constructor; cbn; (eexists _, _, _; split; [|reflexivity]; oid_ok_tac).
  - split; [unfold sample_utc; apply wf_utc; [reflexivity|vm_compute; reflexivity]|]. exists {| time_ty := ASN_GENTIME; time_content := gen_bytes (mkCivil 2050 1 1 0 0 0) Zulu |}. split; [|right; split; reflexivity].
    intros secs Hs. vm_compute in Hs. injection Hs as <-. lia.
  - constructor; [|constructor]. cbn [revocationDate]. unfold sample_utc; apply wf_utc; [reflexivity|vm_compute; reflexivity].
  - apply Forall_cons. split; [|apply Forall_cons; split; [|constructor]];
      (constructor; [eexists _, _, _; split; [|reflexivity]; oid_ok_tac|split; [reflexivity|split; [reflexivity|]]|apply (bool_decide_unpack _); vm_compute; exact I]);
      [by left|right; exists 0; by split].
Qed.

Lemma crl_profile_exact_witness : crl_as_dated true demo_crl /\ no_late_leap_day demo_crl.
Proof.
  apply (crl_profile_exact true demo_crl); [apply demo_wf_crl| |vm_compute; reflexivity].
  unfold dates_in_form, crl_dates. cbn [map]. repeat (apply Forall_cons; split); [..|by constructor].
  - exists (mkCivil 2014 1 1 0 0 0). split; [by vm_compute|by left].
  - exists (mkCivil 2050 1 1 0 0 0). split; [by vm_compute|by right].
  - exists (mkCivil 2013 1 1 0 0 0). split; [by vm_compute|by left].
Defined.


(** Outside of RFC 5280: a UTCTime with an offset, and one without seconds, are both
    taken. *)
Example loose_dates :
  let utc s := {| utcTime := Some {| time_ty := ASN_UTCTIME; time_content := s |}; generalTime := None |} in
  let c := mkCivil 2014 1 1 12 0 0 in
  cvt_crldate2DB (utc (utc_bytes c (East 1 0))) = 0 /\ cvt_crldate2DB (utc (take 10 (utc_bytes c Zulu) ++ [ch_Z])) = 0.
Proof. vm_compute. done. Qed.
