(* ===== verification/RpkiMft.v ===== *)
(** * Manifests and the objects they list
    ([src/lib/rpki/sqhl.c], [src/lib/rpki/sqcon.c], [src/lib/rpki/cms/roa_validate.c])

    A manifest lists files with their hashes. When it becomes valid, the objects
    of the database that it lists get the flag ONMAN if their file has that hash,
    and are removed if it has not; an object that is added later is compared with
    the manifest that lists it. Files, SHA-256 and the regular expressions of the
    server are parameters; a file that cannot be opened is [None], one that cannot
    be read is [Some None]. Texts fit their buffers. *)

From stdpp Require Import strings.
From S2P Require Import Prelude Sql RpkiObject CmsValidate Manifest RpkiDb RpkiVerify CrlProfile.

Local Open Scope est_scope.

Definition ERR_SCM_BADMFTDBHASH : Z := -142.
Definition HASHSIZE : Z := 256.

(** ** Hexadecimal texts *)

Definition ch (c : Z) : Ascii.ascii := Ascii.ascii_of_N (Z.to_N c).
Definition code (a : Ascii.ascii) : Z := Z.of_N (Ascii.N_of_ascii a).
Definition chars (l : list Z) : string := foldr (fun c s => String (ch c) s) EmptyString l.
Fixpoint codes (s : string) : list Z :=
  match s with EmptyString => [] | String a s => code a :: codes s end.

Definition hex_char (d : Z) : Z := if d <? 10 then 48 + d else 87 + d.
(** [%2.2x] *)
Definition hex_byte (b : Z) : list Z := [hex_char (b / 16); hex_char (b mod 16)].
(** [hexify] with [HEXIFY_NO]; the allocation succeeds. *)
Definition hexify (l : list Z) : list Z := if (length l =? 0)%nat then [48] else concat (map hex_byte l).

Definition hex_val (c : Z) : option Z :=
  if (48 <=? c) && (c <=? 57) then Some (c - 48)
  else if (97 <=? c) && (c <=? 102) then Some (c - 87)
  else if (65 <=? c) && (c <=? 70) then Some (c - 55)
  else None.

(** [%x] of [sscanf]: white space, a sign, [0x], digits (one at least). *)
Fixpoint hex_digits (s : list Z) (v : Z) : Z :=
  match s with
  | c :: s => match hex_val c with Some d => hex_digits s (16 * v + d) | None => v end
  | [] => v
  end.
Definition hex_number (s : list Z) : option Z :=
  match s with
  | c :: _ => match hex_val c with Some _ => Some (hex_digits s 0) | None => None end
  | [] => None
  end.
Definition scan_x (s : list Z) : option Z :=
  let s := skip_space s in
  let '(neg, s) := match s with
                   | c :: s' => if c =? 45 then (true, s') else if c =? 43 then (false, s') else (false, s)
                   | [] => (false, s)
                   end in
  let v := match s with
           | c :: x :: s' => if (c =? 48) && zin x [120; 88] then hex_number s' else hex_number s
           | _ => hex_number s
           end in
  match v with
  | Some v => Some (u32 (if neg : bool then - v else v))
  | None => None
  end.

(** The loop of [unhexify] over pairs of characters. *)
Fixpoint unhex_pairs (s : list Z) : option (list Z) :=
  match s with
  | a :: b :: s =>
      match scan_x [a; b] with
      | Some x =>
          if 256 <=? x then None
          else match unhex_pairs s with Some l => Some (x :: l) | None => None end
      | None => None
      end
  | _ => Some []
  end.
Definition unhexify (s : list Z) : option (list Z) :=
  if (length s =? 0)%nat || Nat.odd (length s) then None else unhex_pairs s.

Section mft.
Context (sql_ok : nat -> bool) (clock : nat -> option Z) (in_order : forall A, list A -> list A)
  (esc : string -> string).
Context (sha256 : list Z -> option (list Z)) (open_file : string -> option (option (list Z))).
Arguments in_order {A}.

(** ** Hashes *)

(** The result, and what is written to [inhash]. [None] is a write behind the
    buffer, which has two bytes more than the file. *)
Definition check_fileAndHash (fahp : FileAndHash) (contents : option (list Z)) (inhash : option (list Z))
    (inhashtotlen : Z) : option (Z * option (list Z)) :=
  match contents with
  | None => Some (ERR_SCM_BADFILE, None)
  | Some contents =>
      let given := match inhash with
                   | Some h => (0 <? length h)%nat && (length h <=? length contents + 2)%nat
                   | None => false
                   end in
      let hash := if given then inhash else sha256 contents in
      match hash with
      | None => Some (ERR_SCM_BADMKHASH, None)
      | Some h =>
          if (length contents + 2 <? length h)%nat then None
          else
            let hash_lth := Z.of_nat (length h) in
            let bit_lth := Z.of_nat (length (fah_hash fahp)) in
            if negb (hash_lth =? bit_lth - 1) || negb (bool_decide (drop 1 (fah_hash fahp) = h))
            then Some (ERR_SCM_BADMFTHASH, None)
            else
              Some (hash_lth,
                    match inhash with
                    | Some [] => if hash_lth <=? inhashtotlen then Some h else None
                    | _ => None
                    end)
      end
  end.

(** ** The objects of a manifest *)

(** The columns that are read, whatever the table. *)
Record mrow := mkMrow { m_id : Z; m_file : string; m_dir : string; m_flags : Z; m_hash : option string }.
Definition mrow_cert (c : cert_row) : mrow := mkMrow (c_id c) (c_file c) (c_dir c) (c_flags c) (c_hash c).
Definition mrow_crl (l : crl_row) : mrow := mkMrow (l_id l) (l_file l) (l_dir l) (l_flags l) (l_hash l).
Definition mrow_obj {P} (o : obj_row P) : mrow := mkMrow (o_id o) (o_file o) (o_dir o) (o_flags o) (o_hash o).
Definition rows_of (tb : tab) (t : tables) : list mrow :=
  match tb with
  | CertTab => map mrow_cert (certs t)
  | CrlTab => map mrow_crl (crls t)
  | RoaTab => map mrow_obj (roas t)
  | MftTab => map mrow_obj (mfts t)
  | GbrTab => map mrow_obj (gbrs t)
  end.

Definition file_table (file : string) : option tab :=
  if String.index 0 ".cer" file then Some CertTab
  else if String.index 0 ".crl" file then Some CrlTab
  else if String.index 0 ".roa" file then Some RoaTab
  else if String.index 0 ".gbr" file then Some GbrTab
  else None.

Definition man_where (file : string) (r : mrow) : bool :=
  String.eqb (m_file r) file && flag_test (m_flags r) SCM_FLAG_ONMAN false.

(** [update tab set flags=flags+ONMAN, hash=h where local_id=id] *)
Definition new_hash (h : option string) (old : option string) : option string :=
  match h with Some _ => h | None => old end.
Definition onman_cert (h : option string) (c : cert_row) : cert_row :=
  mkCert (c_id c) (c_file c) (c_dir c) (c_subject c) (c_issuer c) (c_sn c) (c_flags c + SCM_FLAG_ONMAN) (c_ski c)
    (c_aki c) (c_sig c) (c_from c) (c_to c) (c_sigval c) (new_hash h (c_hash c)).
Definition onman_crl (h : option string) (l : crl_row) : crl_row :=
  mkCrl (l_id l) (l_file l) (l_dir l) (l_issuer l) (l_aki l) (l_sig l) (l_snlen l) (l_sninuse l)
    (l_snlist l) (l_flags l + SCM_FLAG_ONMAN) (new_hash h (l_hash l)).
Definition onman_obj {P} (h : option string) (o : obj_row P) : obj_row P :=
  mkObj (o_id o) (o_file o) (o_dir o) (o_ski o) (o_flags o + SCM_FLAG_ONMAN) (o_data o) (new_hash h (o_hash o)).
Definition set_onman (tb : tab) (id : Z) (h : option string) (t : tables) : tables :=
  match tb with
  | CertTab => set_certs (map (fun c => if c_id c =? id then onman_cert h c else c) (certs t)) t
  | CrlTab => set_crls (map (fun l => if l_id l =? id then onman_crl h l else l) (crls t)) t
  | RoaTab => set_roas (map (fun o => if o_id o =? id then onman_obj h o else o) (roas t)) (roa_prefixes t) t
  | MftTab => set_mfts (map (fun o => if o_id o =? id then onman_obj h o else o) (mfts t)) t
  | GbrTab => set_gbrs (map (fun o => if o_id o =? id then onman_obj h o else o) (gbrs t)) t
  end.

(** The check of the file of [r], and the hash that is stored if it is new. *)
Definition check_listed (fahp : FileAndHash) (contents : option (list Z)) (r : mrow) : option (Z * option string) :=
  match fetched (m_hash r) with
  | EmptyString =>
      match check_fileAndHash fahp contents (Some []) (HASHSIZE / 2) with
      | None => None
      | Some (sta, out) =>
          (* [bytehash] is zero where nothing was written *)
          let bytehash := match out with Some h => h | None => [] end in
          let bytes := bytehash ++ replicate (Z.to_nat sta - length bytehash) 0 in
          Some (sta, if 0 <=? sta then Some (chars (hexify bytes)) else None)
      end
  | text =>
      match unhexify (codes text) with
      | None => Some (ERR_SCM_BADMFTDBHASH, None)
      | Some h =>
          match check_fileAndHash fahp contents (Some h) (HASHSIZE / 2) with
          | None => None
          | Some (sta, _) => Some (sta, None)
          end
      end
  end.

(** An object whose file has the wrong hash. *)
Definition drop_listed (fuel : nat) (tb : tab) (id : Z) : M unit :=
  match tb with
  | CertTab =>
      let* _ := searchscm sql_ok (@in_order) certs (fun c => c_id c =? s32 id)
                  (revoke_cert_and_children sql_ok clock (@in_order) esc fuel) in
      est_ret tt
  | _ => let* _ := deletebylid sql_ok tb id in est_ret tt
  end.

(** One round of the loop: [continue] and errors of statements have no effect. *)
Definition update_listed (fuel : nat) (fahp : FileAndHash) (file : string) (tb : tab) : M unit :=
  let* r := last_found sql_ok (@in_order) (rows_of tb) (man_where file) in
  match r with
  | None => est_ret tt
  | Some r =>
      if m_id r =? 0 then est_ret tt
      else
        match open_file (path_of (m_dir r) file) with
        | None => est_ret tt
        | Some contents =>
            let* c := or_undefined (check_listed fahp contents r) in
            let '(sta, h) := c in
            if 0 <=? sta then
              let* _ := statementscm_no_data sql_ok (set_onman tb (s32 (m_id r)) h) in est_ret tt
            else drop_listed fuel tb (m_id r)
        end
  end.

Fixpoint updateManifestObjs (fuel : nat) (l : list FileAndHash) : M Z :=
  match l with
  | [] => est_ret 0
  | fahp :: l =>
      if NAME_MAX + 1 <? Z.of_nat (length (fah_file fahp)) + 1 then est_ret ERR_SCM_BADMFTFILENAME
      else
        let file := chars (c_string (fah_file fahp)) in
        match file_table file with
        | None => updateManifestObjs fuel l
        | Some tb => update_listed fuel fahp file tb ;;; updateManifestObjs fuel l
        end
  end.

(** ** A new object *)

Context (files_regexp : string -> option (string -> bool)) (casn_manifest : string -> list FileAndHash).

(** [files_regexp name] is what the server makes of [files regexp binary] followed
    by the name in quotes, [None] if it rejects that. [casn_manifest] is the list of
    files after [get_casn_file], whose status is not looked at. *)
Definition addStateToFlags (flags : Z) (isValid : bool) (filename : string) (fullpath : option string) : M (Z * Z) :=
  let flags := Z.lor flags (if isValid then SCM_FLAG_VALIDATED else SCM_FLAG_NOCHAIN) in
  match fullpath with
  | None => est_ret (0, flags)
  | Some fullpath =>
      let* man := match files_regexp filename with
                  | None => let* _ := statementscm sql_ok in est_ret None
                  | Some m => last_found sql_ok (@in_order) mfts (fun o =>
                                m (mft_files (o_data o)) && flag_test (o_flags o) SCM_FLAG_VALIDATED true)
                  end in
      match man with
      | None => est_ret (0, flags)
      | Some man =>
          match find (fun fahp => bool_decide (fah_file fahp = codes filename))
                  (casn_manifest (path_of (o_dir man) (o_file man))) with
          | None => est_ret (0, flags)
          | Some fahp =>
              match open_file fullpath with
              | None => est_ret (0, flags)
              | Some contents =>
                  let* c := or_undefined (check_fileAndHash fahp contents None 0) in
                  est_ret (if 0 <=? fst c then 0 else fst c, Z.lor flags SCM_FLAG_ONMAN)
              end
          end
      end
  end.
End mft.
