(* ===== verification/RpkiMftThm.v ===== *)
(** * Manifests and the objects they list: theorems *)

From stdpp Require Import strings.
From S2P Require Import Prelude Sql RpkiObject CmsValidate Manifest RpkiDb RpkiDbFacts RpkiDbChain RpkiDbRevoke RpkiDbThm RpkiVerify CrlProfile RpkiMft.

Local Open Scope est_scope.

(** ** Flags *)

Definition onman (f : Z) : bool := Z.testbit f 8.

Lemma onman_test f b : flag_test f SCM_FLAG_ONMAN b = Bool.eqb (onman f) b.
Proof. apply (flag_test_bit f 8). lia. Qed.

Lemma onman_add f k : onman f = false -> Z.testbit (f + SCM_FLAG_ONMAN) k = Z.testbit f k || (k =? 8).
Proof.
  intros Hf. change SCM_FLAG_ONMAN with (2 ^ 8).
  assert (Hl : Z.land f (2 ^ 8) = 0).
  { apply Z.bits_inj. intros j. rewrite Z.land_spec, Z.bits_0.
    destruct (Z.eq_dec j 8) as [->|Hj]; [unfold onman in Hf; by rewrite Hf|]. by rewrite Z.pow2_bits_false, andb_false_r. }
  rewrite Z.add_nocarry_lxor, Z.lxor_lor, Z.lor_spec by done. f_equal.
  destruct (Z.eqb_spec k 8) as [->|Hk]; [done|]. by apply Z.pow2_bits_false.
Qed.

Lemma onman_keeps f : onman f = false ->
  onman (f + SCM_FLAG_ONMAN) = true /\ validated (f + SCM_FLAG_ONMAN) = validated f /\
  nochain (f + SCM_FLAG_ONMAN) = nochain f.
Proof.
  intros Hf. unfold onman, validated, nochain. rewrite !onman_add by done. by rewrite orb_true_r, !orb_false_r.
Qed.

(** ** Tables with the same chains

    [t'] has the certificates of [t] as far as chains are concerned, and of the
    objects no others. *)

Definition cert_key (c : cert_row) :=
  (c_id c, c_ski c, c_subject c, c_issuer c, c_aki c, validated (c_flags c), nochain (c_flags c)).
Definition crl_key (l : crl_row) := (l_issuer l, l_aki l, nochain (l_flags l)).
Definition obj_key {P} (o : obj_row P) := (o_ski o, nochain (o_flags o)).

Record chain_sub (t t' : tables) : Prop := {
  cs_certs : cert_key <$> certs t' = cert_key <$> certs t;
  cs_crls : (crl_key <$> crls t') ⊆ (crl_key <$> crls t);
  cs_roas : (obj_key <$> roas t') ⊆ (obj_key <$> roas t);
  cs_mfts : (obj_key <$> mfts t') ⊆ (obj_key <$> mfts t);
  cs_gbrs : (obj_key <$> gbrs t') ⊆ (obj_key <$> gbrs t) }.

Lemma fmap_in {A B} (f : A -> B) (l' l : list A) x : (f <$> l') ⊆ (f <$> l) -> x ∈ l' ->
  exists y, y ∈ l /\ f y = f x.
Proof.
  intros H Hx. apply (list_elem_of_fmap_2 f), H, list_elem_of_fmap in Hx as (y & E & Hy). eauto.
Qed.

Lemma fmap_in_eq {A B} (f : A -> B) (l' l : list A) x : f <$> l' = f <$> l -> x ∈ l' -> exists y, y ∈ l /\ f y = f x.
Proof. intros H. apply fmap_in. by rewrite H. Qed.

Section sub.
Context (esc : string -> string) (t t' : tables) (S : chain_sub t t').

Lemma sub_supported IS AK : supported esc t IS AK -> supported esc t' IS AK.
Proof.
  intros (p & Hp & Ho). destruct (fmap_in_eq cert_key _ _ p (eq_sym (cs_certs _ _ S)) Hp) as (q & Hq & E).
  exists q. split; [done|]. injection E as _ Es Eu _ _ Ev En. unfold parent_ok in *. by rewrite Es, Eu, Ev, En.
Qed.

Lemma sub_obj {P} (l l' : list (obj_row P)) : (obj_key <$> l') ⊆ (obj_key <$> l) ->
  (forall o, o ∈ l -> nochain (o_flags o) = false -> supported esc t None (o_ski o)) ->
  forall o, o ∈ l' -> nochain (o_flags o) = false -> supported esc t' None (o_ski o).
Proof.
  intros Hs H o Ho Hn. destruct (fmap_in obj_key _ _ o Hs Ho) as (x & Hx & E). injection E as Es En.
  rewrite <- Es. apply sub_supported, H; congruence.
Qed.

Lemma sub_chain : chain_inv esc t -> chain_inv esc t'.
Proof.
  intros [Hc [Hl Hr Hm Hg]]. split; [|split].
  - intros c Hin Hn Hneed. destruct (fmap_in_eq cert_key _ _ c (cs_certs _ _ S) Hin) as (d & Hd & E).
    injection E as _ Es _ Ei Ea _ En. rewrite <- Ei, <- Ea. apply sub_supported, Hc; [done|congruence|].
    unfold needs in *. by rewrite Es, Ea.
  - intros l Hin Hn a Ha. destruct (fmap_in crl_key _ _ l (cs_crls _ _ S) Hin) as (m & Hm' & E).
    injection E as Ei Ea En. rewrite <- Ei. apply sub_supported. eapply Hl; [done|congruence|congruence].
  - by eapply sub_obj; [apply S|].
  - by eapply sub_obj; [apply S|].
  - by eapply sub_obj; [apply S|].
Qed.

Lemma sub_plain : plain esc t -> plain esc t'.
Proof.
  intros [A B]. split.
  - intros c Hin. destruct (fmap_in_eq cert_key _ _ c (cs_certs _ _ S) Hin) as (d & Hd & E).
    injection E as _ _ _ Ei _ _ _. rewrite <- Ei. by apply A.
  - intros l Hin. destruct (fmap_in crl_key _ _ l (cs_crls _ _ S) Hin) as (m & Hm' & E).
    injection E as Ei _ _. rewrite <- Ei. by apply B.
Qed.

Lemma sub_good : ids_ok t' -> good esc t -> good esc t'.
Proof. intros Hids [A _ C]. split; [by apply sub_chain|done|by apply sub_plain]. Qed.
End sub.

(** ** Rows of any table *)

Definition onman_row (h : option string) (r : mrow) : mrow :=
  mkMrow (m_id r) (m_file r) (m_dir r) (m_flags r + SCM_FLAG_ONMAN) (new_hash h (m_hash r)).

Lemma rows_ids tb t : ids_ok t -> NoDup (m_id <$> rows_of tb t).
Proof. intros [A B C D E]. destruct tb; cbn; by rewrite <- list_fmap_compose. Qed.

Lemma set_onman_rows tb id h t :
  rows_of tb (set_onman tb id h t) = map (fun r => if m_id r =? id then onman_row h r else r) (rows_of tb t).
Proof.
  destruct tb; cbn; rewrite !map_map; apply map_ext; intros r; cbn; by destruct (_ =? id).
Qed.

Lemma set_onman_other tb tb' id h t : tb' <> tb -> rows_of tb' (set_onman tb id h t) = rows_of tb' t.
Proof. by destruct tb, tb'. Qed.

Lemma del_rows tb id t :
  rows_of tb (del_id tb id t) = List.filter (fun r => negb (m_id r =? id)) (rows_of tb t).
Proof.
  assert (H : forall A (f : A -> mrow) l, map f (List.filter (fun x => negb (m_id (f x) =? id)) l) =
    List.filter (fun r => negb (m_id r =? id)) (map f l)).
  { intros A f l. induction l as [|x l IH]; [done|]. cbn. destruct (negb _); cbn; by rewrite IH. }
  destruct tb; cbn; rewrite <- H; reflexivity.
Qed.

Lemma del_other tb tb' id t : tb' <> tb -> rows_of tb' (del_id tb id t) = rows_of tb' t.
Proof. by destruct tb, tb'. Qed.

Lemma map_key {A B} (f : A -> B) (g : A -> A) l : (forall x, x ∈ l -> f (g x) = f x) -> f <$> map g l = f <$> l.
Proof.
  intros H. induction l as [|x l IH]; [done|]. cbn. rewrite H by left. f_equal. apply IH. intros y Hy. apply H. by right.
Qed.

Lemma filter_sub {A B} (f : A -> B) p l : (f <$> List.filter p l) ⊆ (f <$> l).
Proof.
  intros y (x & -> & Hx)%list_elem_of_fmap. apply list_elem_of_fmap_2.
  apply list_elem_of_In, List.filter_In in Hx as [Hx _]. by apply list_elem_of_In.
Qed.

Lemma key_nodup {A} (f : A -> Z) g l : (forall x, x ∈ l -> f (g x) = f x) -> NoDup (f <$> l) -> NoDup (f <$> map g l).
Proof. intros H. by rewrite map_key. Qed.

Lemma filter_nodup {A} (f : A -> Z) p l : NoDup (f <$> l) -> NoDup (f <$> List.filter p l).
Proof.
  induction l as [|x l IH]; [done|]. intros [Hx Hl]%NoDup_cons. cbn. destruct (p x); [|by apply IH].
  apply NoDup_cons. split; [|by apply IH]. intros H. by apply Hx, (filter_sub f p l).
Qed.

Section good.
Context (esc : string -> string).

Lemma set_onman_good tb id h t : good esc t ->
  (forall r, r ∈ rows_of tb t -> m_id r = id -> onman (m_flags r) = false) -> good esc (set_onman tb id h t).
Proof.
  intros G H. assert (Hbit : forall A (f : A -> mrow) l, rows_of tb t = map f l -> forall x, x ∈ l ->
    (m_id (f x) =? id) = true -> onman (m_flags (f x)) = false).
  { intros A f l E x Hx Hi%Z.eqb_eq. apply H; [|done]. rewrite E. by apply list_elem_of_fmap_2. }
  apply (sub_good esc t); [| |done].
  - destruct tb; split; cbn; try done; (rewrite map_key; [done|]); intros x Hx; specialize (Hbit _ _ _ eq_refl x Hx);
      cbn [mrow_cert mrow_crl mrow_obj m_id m_flags] in Hbit; destruct (_ =? id); try done; unfold cert_key, crl_key, obj_key;
      cbn [onman_cert onman_crl onman_obj c_id c_ski c_subject c_issuer c_aki c_flags l_issuer l_aki l_flags o_ski o_flags];
      destruct (onman_keeps _ (Hbit eq_refl)) as (_ & Ev & En); by rewrite ?Ev, En.
  - destruct (g_ids _ _ G) as [A B C D E]. destruct tb; split; cbn; try done;
      (apply key_nodup; [|done]); intros x _; by destruct (_ =? id).
Qed.

Lemma del_good tb id t : tb <> CertTab -> good esc t -> good esc (del_id tb id t).
Proof.
  intros Ht G. apply (sub_good esc t); [| |done].
  - destruct tb; [done|..]; split; cbn; try done; apply filter_sub.
  - destruct (g_ids _ _ G) as [A B C D E]. destruct tb; [done|..]; split; cbn; try done; by apply filter_nodup.
Qed.
End good.

(** ** What a manifest says of a row *)

Section listed.
Context (sha256 : list Z -> option (list Z)) (open_file : string -> option (option (list Z))).

Definition fah_name (fah : FileAndHash) : string := chars (c_string (fah_file fah)).

(** [fah] names the file of [r], a row of the table that such names go to. *)
Definition entry_names (fah : FileAndHash) (tb : tab) (r : mrow) : Prop :=
  fah_name fah = m_file r /\ file_table (m_file r) = Some tb.

(** The hash that stands for a file with contents [c]: the one in the row, if
    there is one, and else the SHA-256 of the contents, which is also used if the
    hash in the row is longer than the file by more than two bytes. A text in the
    row that is not hexadecimal stands for no hash. *)
Inductive hash_in_use (c : list Z) (r : mrow) : list Z -> Prop :=
| hash_computed h : fetched (m_hash r) = EmptyString -> sha256 c = Some h -> hash_in_use c r h
| hash_in_row h : unhexify (codes (fetched (m_hash r))) = Some h -> (length h <= length c + 2)%nat -> hash_in_use c r h
| hash_too_long h h' : unhexify (codes (fetched (m_hash r))) = Some h' -> (length c + 2 < length h')%nat ->
    sha256 c = Some h -> hash_in_use c r h.

(** The file of [r] can be read, and the octets of the listed BIT STRING, after
    the octet that counts unused bits, are the hash [h] that stands for it. *)
Definition agrees (fah : FileAndHash) (r : mrow) (h : list Z) : Prop :=
  exists c u, open_file (path_of (m_dir r) (m_file r)) = Some (Some c) /\ hash_in_use c r h /\ fah_hash fah = u :: h.

Definition passes (fah : FileAndHash) (tb : tab) (r : mrow) (h : list Z) : Prop := entry_names fah tb r /\ agrees fah r h.
(** The file of [r] can be opened, but it cannot be read, or no hash stands for
    it, or another one than the listed. *)
Definition fails (fah : FileAndHash) (tb : tab) (r : mrow) : Prop :=
  entry_names fah tb r /\ open_file (path_of (m_dir r) (m_file r)) <> None /\ forall h, ~ agrees fah r h.

Definition same_row (r r' : mrow) : Prop := m_id r' = m_id r /\ m_file r' = m_file r /\ m_dir r' = m_dir r.

(** A hash in the row stays, a computed one is stored in hexadecimal. *)
Definition hash_stored (r : mrow) (h : list Z) (new : option string) : Prop :=
  fetched (m_hash r) <> EmptyString /\ new = m_hash r \/
  fetched (m_hash r) = EmptyString /\ (Z.of_nat (length h) <= HASHSIZE / 2 -> new = Some (chars (hexify h))).

(** [t'] is [t] after some of the entries of [l]. *)
Record updated (l : list FileAndHash) (t t' : tables) : Prop := {
  up_from : forall tb r', r' ∈ rows_of tb t' -> exists r, r ∈ rows_of tb t /\ same_row r r' /\
    (onman (m_flags r') = onman (m_flags r) /\ m_hash r' = m_hash r \/
     onman (m_flags r) = false /\ onman (m_flags r') = true /\
     exists fah h, fah ∈ l /\ passes fah tb r h /\ hash_stored r h (m_hash r'));
  up_gone : forall tb r, r ∈ rows_of tb t ->
    (exists r', r' ∈ rows_of tb t' /\ m_id r' = m_id r) \/
    onman (m_flags r) = false /\ exists fah, fah ∈ l /\ fails fah tb r }.

(** The only row of that name. *)
Definition alone (tb : tab) (t : tables) (r : mrow) : Prop :=
  forall r2, r2 ∈ rows_of tb t -> m_file r2 = m_file r -> m_id r2 = m_id r.

(** Every entry of [l] whose file can be opened has been dealt with. *)
Definition settled (l : list FileAndHash) (t t' : tables) : Prop :=
  forall tb r', r' ∈ rows_of tb t' -> alone tb t r' ->
  forall fah, fah ∈ l -> fah_name fah = m_file r' -> file_table (m_file r') = Some tb ->
  open_file (path_of (m_dir r') (m_file r')) <> None -> onman (m_flags r') = true.

Lemma updated_refl l t : updated l t t.
Proof. split; intros tb r Hr; [exists r|left; exists r]; unfold same_row; auto 6. Qed.

Lemma row_id tb t x y : ids_ok t -> x ∈ rows_of tb t -> y ∈ rows_of tb t -> m_id x = m_id y -> x = y.
Proof.
  intros Hids Hx Hy E. pose proof (rows_ids tb t Hids) as Hnd. apply list_elem_of_lookup in Hx as (i & Hi), Hy as (j & Hj).
  assert (i = j) as ->; [|congruence].
  eapply NoDup_lookup; [exact Hnd| |]; rewrite list_lookup_fmap, ?Hi, ?Hj; cbn; [reflexivity|by rewrite E].
Qed.

Lemma in_use_same c r r' h : m_hash r' = m_hash r -> hash_in_use c r' h -> hash_in_use c r h.
Proof.
  intros E H. destruct H; rewrite E in *; [by apply hash_computed|by apply hash_in_row|by eapply hash_too_long].
Qed.

Lemma agrees_same fah r r' h : same_row r r' -> m_hash r' = m_hash r -> agrees fah r' h <-> agrees fah r h.
Proof.
  intros (_ & Ef & Ed) Eh. unfold agrees. rewrite Ef, Ed.
  split; intros (c & u & Ho & Hh & E); exists c, u; (split; [done|]); (split; [|done]); by eapply in_use_same.
Qed.

Lemma passes_same fah tb r r' h : same_row r r' -> m_hash r' = m_hash r -> passes fah tb r' h -> passes fah tb r h.
Proof.
  intros S Eh [[En Et] Ha]. split; [|by apply (agrees_same fah r r')]. destruct S as (_ & Ef & _). split; congruence.
Qed.

Lemma fails_same fah tb r r' : same_row r r' -> m_hash r' = m_hash r -> fails fah tb r' -> fails fah tb r.
Proof.
  intros S Eh ([En Et] & Ho & Ha). pose proof S as (_ & Ef & Ed). split; [split; congruence|].
  split; [congruence|]. intros h Hh. by apply (Ha h), (agrees_same fah r r').
Qed.

Lemma updated_trans l1 l2 t1 t2 t3 : ids_ok t1 -> updated l1 t1 t2 -> updated l2 t2 t3 -> updated (l1 ++ l2) t1 t3.
Proof.
  intros Hids [F1 G1] [F2 G2].
  split.
  - intros tb r3 H3. destruct (F2 tb r3 H3) as (r2 & H2 & S2 & C2), (F1 tb r2 H2) as (r1 & H1 & S1 & C1).
    exists r1. split; [done|]. split; [unfold same_row in *; naive_solver congruence|].
    destruct C1 as [[O1 E1]|(O1 & O2 & fah & h & Hf & V & Hh)], C2 as [[O3 E3]|(O3 & O4 & fah' & h' & Hf' & V' & Hh')].
    + left. split; congruence.
    + right. split; [congruence|]. split; [done|]. exists fah', h'. rewrite elem_of_app. split; [by right|].
      split; [by eapply passes_same|]. unfold hash_stored in *. by rewrite E1 in Hh'.
    + right. split; [done|]. split; [congruence|]. exists fah, h. rewrite elem_of_app, E3. auto.
    + congruence.
  - intros tb r1 H1. destruct (G1 tb r1 H1) as [(r2 & H2 & E2)|(O1 & fah & Hf & V)].
    + destruct (F1 tb r2 H2) as (r0 & H0 & S0 & C0). assert (r0 = r1) as ->.
      { apply (row_id tb t1); [done..|]. destruct S0 as [Ei _]. congruence. }
      destruct (G2 tb r2 H2) as [(r3 & H3 & E3)|(O2 & fah & Hf & V)].
      * left. exists r3. split; [done|congruence].
      * right. destruct C0 as [[O E]|(_ & O & _)]; [|congruence]. split; [congruence|].
        exists fah. rewrite elem_of_app. split; [by right|]. by eapply fails_same.
    + right. split; [done|]. exists fah. rewrite elem_of_app. auto.
Qed.

Lemma settled_step fah l t1 t2 t3 : updated [fah] t1 t2 -> updated l t2 t3 ->
  settled [fah] t1 t2 -> settled l t2 t3 -> settled (fah :: l) t1 t3.
Proof.
  intros U1 U2 S1 S2 tb r3 H3 Ha f Hf En Et Eo. apply elem_of_cons in Hf as [->|Hf].
  - destruct (up_from _ _ _ U2 tb r3 H3) as (r2 & H2 & (Ei & Ef & Ed) & C).
    assert (onman (m_flags r2) = true) as O2.
    { apply (S1 tb r2 H2) with (fah := fah); rewrite <- ?Ef, <- ?Ed; try done; [|by left].
      intros x Hx Ex. rewrite <- Ei. apply Ha; [done|congruence]. }
    destruct C as [[-> _]|(_ & -> & _)]; done.
  - apply (S2 tb r3 H3) with (fah := f); try done. intros x Hx Ex.
    destruct (up_from _ _ _ U1 tb x Hx) as (y & Hy & (Ei & Ef & _) & _). rewrite Ei. apply Ha; [done|congruence].
Qed.

Definition small (t : tables) : Prop := forall tb r, r ∈ rows_of tb t -> 0 < m_id r < 2 ^ 31.

Lemma updated_small l t t' : updated l t t' -> small t -> small t'.
Proof. intros U H tb r' Hr. destruct (up_from _ _ _ U tb r' Hr) as (r & Hin & (-> & _) & _). by apply (H tb). Qed.

(** Files are long enough for the buffer that gets their hash. *)
Definition hashes_fit : Prop := forall path c h, open_file path = Some (Some c) -> sha256 c = Some h ->
  (length h <= length c + 2)%nat.

Lemma check_file_defined fah c inhash n : (forall c' h, c = Some c' -> sha256 c' = Some h -> (length h <= length c' + 2)%nat) ->
  exists v, check_fileAndHash sha256 fah c inhash n = Some v.
Proof.
  intros H. destruct c as [c|]; [|by eexists]. cbn -[Nat.leb Nat.ltb]. set (given := match inhash with Some _ => _ | None => _ end).
  destruct (if given then inhash else sha256 c) as [h|] eqn:E; [|by eexists].
  assert (length h <= length c + 2)%nat.
  { destruct given eqn:Eg; [|by eapply H]. subst given inhash. apply andb_prop in Eg as [_ ?]. by apply Nat.leb_le. }
  rewrite (proj2 (Nat.ltb_ge _ _)) by done. destruct (_ || _); by eexists.
Qed.

Lemma check_listed_defined fah path c r : hashes_fit -> open_file path = Some c ->
  exists sta h, check_listed sha256 fah c r = Some (sta, h).
Proof.
  intros Hfit Ho. assert (Hc : forall c' h, c = Some c' -> sha256 c' = Some h -> (length h <= length c' + 2)%nat).
  { intros c' h ->. by apply (Hfit path). }
  unfold check_listed. destruct (fetched (m_hash r)) as [|a str].
  - destruct (check_file_defined fah c (Some []) (HASHSIZE / 2) Hc) as ([sta out] & ->). eauto.
  - destruct (unhexify _) as [hb|]; [|eauto].
    destruct (check_file_defined fah c (Some hb) (HASHSIZE / 2) Hc) as ([sta out] & ->). eauto.
Qed.

(** The comparison with a hash [inhash], or the computed one if it is empty or
    too long. *)
Lemma check_file_spec fah c inhash n sta out :
  check_fileAndHash sha256 fah (Some c) (Some inhash) n = Some (sta, out) ->
  let hash := if (0 <? length inhash)%nat && (length inhash <=? length c + 2)%nat then Some inhash else sha256 c in
  (exists h u, hash = Some h /\ fah_hash fah = u :: h /\ sta = Z.of_nat (length h) /\
     out = match inhash with [] => if sta <=? n then Some h else None | _ => None end) \/
  sta < 0 /\ forall h u, hash = Some h -> fah_hash fah <> u :: h.
Proof.
  cbn -[Nat.leb Nat.ltb]. destruct (if _ && _ then _ else _) as [h|]; [|intros [= <- _]; by right].
  destruct (_ <? _)%nat; [done|].
  destruct (negb (_ =? _)) eqn:El; cbn [orb].
  { intros [= <- _]. right. split; [done|]. intros ? u [= <-] E. rewrite E in El. bprop. cbn in El. lia. }
  apply negb_false_iff, Z.eqb_eq in El. destruct (bool_decide_reflect (drop 1 (fah_hash fah) = h)) as [E|E]; cbn [negb].
  - intros [= <- <-]. left. destruct (fah_hash fah) as [|u k]; [cbn in El; lia|]. rewrite skipn_cons, drop_0 in E. subst k. exists h, u.
    done.
  - intros [= <- _]. right. split; [done|]. intros ? u [= <-] E'. rewrite E' in E. by destruct E.
Qed.

Lemma unhexify_nonempty s h : unhexify s = Some h -> (0 < length h)%nat.
Proof.
  unfold unhexify. destruct s as [|a [|b s]]; [done..|]. cbn [length Nat.eqb]. destruct (_ || _); [done|].
  cbn [unhex_pairs]. destruct (scan_x _); [|done]. destruct (_ <=? _); [done|]. destruct (unhex_pairs s); [|done].
  intros [= <-]. cbn. lia.
Qed.

(** [check_listed] decides [agrees]. *)
Lemma check_listed_spec fah contents r sta o :
  open_file (path_of (m_dir r) (m_file r)) = Some contents -> check_listed sha256 fah contents r = Some (sta, o) ->
  0 <= sta /\ (exists h, agrees fah r h /\ hash_stored r h (new_hash o (m_hash r))) \/
  sta < 0 /\ forall h, ~ agrees fah r h.
Proof.
  intros Ho. destruct contents as [c|].
  2: { unfold check_listed. cbn [check_fileAndHash]. intros E. right.
    destruct (fetched (m_hash r)); [|destruct (unhexify _)]; injection E as <- _; (split; [done|]);
      intros h (c & u & E & _); congruence. }
  unfold check_listed. destruct (fetched (m_hash r)) as [|a text] eqn:Et.
  - destruct (check_fileAndHash _ _ _ _ _) as [[sta' out]|] eqn:E; [|done]. intros [= <- <-].
    destruct (check_file_spec _ _ _ _ _ _ E) as [(h & u & Eh & Ef & -> & Eo)|[Hs Hn]]; cbn in Eh || cbn in Hn.
    + left. split; [lia|]. exists h. split; [exists c, u; split; [done|]; split; [by constructor|done]|].
      right. split; [done|]. intros Hl. rewrite (proj2 (Z.leb_le _ _) Hl) in Eo. subst out.
      rewrite (proj2 (Z.leb_le 0 _)) by lia. rewrite Nat2Z.id, Nat.sub_diag. cbn. by rewrite app_nil_r.
    + right. split; [done|]. intros h (c' & u & Ec & Hh & Ef).
      assert (c' = c) as -> by congruence. destruct Hh as [h Hn' Hh|h Hh _|h h' Hh _ _]; [by eapply Hn|..];
        rewrite Et in Hh; discriminate Hh.
  - assert (Hne : fetched (m_hash r) <> EmptyString) by congruence. rewrite <- Et.
    destruct (unhexify _) as [hb|] eqn:Eu.
    2: { intros [= <- _]. right. split; [done|]. intros h (c' & u & Ec & Hh & Ef). destruct Hh; congruence. }
    pose proof (unhexify_nonempty _ _ Eu) as Hpos.
    destruct (check_fileAndHash _ _ _ _ _) as [[sta' out]|] eqn:E; [|done]. intros [= <- <-].
    apply check_file_spec in E. cbn zeta in E. rewrite (proj2 (Nat.ltb_lt _ _) Hpos) in E. cbn [andb] in E.
    destruct E as [(h & u & Eh & Ef & -> & _)|[Hs Hn]].
    + left. split; [lia|]. exists h. split; [|left; by split]. exists c, u. split; [done|]. split; [|done].
      destruct (Nat.leb_spec (length hb) (length c + 2)); [injection Eh as <-; by apply hash_in_row|by eapply hash_too_long].
    + right. split; [done|]. intros h (c' & u & Ec & Hh & Ef). assert (c' = c) as -> by congruence.
      apply (Hn h u); [|done]. destruct Hh as [h Hn' _|h Hh Hl|h h' Hh Hl Hs']; [done|..].
      * rewrite (proj2 (Nat.leb_le _ _)) by (assert (h = hb) by congruence; subst; done). congruence.
      * rewrite (proj2 (Nat.leb_gt _ _)) by (assert (h' = hb) by congruence; subst; done). done.
Qed.
End listed.

(** ** One entry *)

Section step.
Context (sql_ok : nat -> bool) (clock : nat -> option Z)
  (in_order : forall A, list A -> list A) (esc : string -> string) (now : Z).
Context (sha256 : list Z -> option (list Z)) (open_file : string -> option (option (list Z))).
Context (Hsql : forall n, sql_ok n = true) (Hclock : forall n, clock n = Some now)
  (Horder : forall A (l : list A), in_order A l ≡ₚ l) (Hfit : hashes_fit sha256 open_file).

Notation agrees := (agrees sha256 open_file).
Notation passes := (passes sha256 open_file).
Notation fails := (fails sha256 open_file).
Notation updated := (updated sha256 open_file).
Notation settled := (settled open_file).

Lemma runs_last {A} (table : tables -> list A) where_ s :
  exists r, runs (last_found sql_ok in_order table where_) s r (tabs s) /\
    match r with
    | Some x => x ∈ table (tabs s) /\ where_ x = true
    | None => forall x, x ∈ table (tabs s) -> where_ x = false
    end.
Proof.
  set (l := in_order _ (List.filter where_ (table (tabs s)))). exists (last l). split.
  - eapply runs_bind; [by apply runs_statement|]. intros s1 H1. exists s1. split; [|done].
    cbn [negb]. unfold est_bind, est_gets. by rewrite H1.
  - destruct (last l) as [x|] eqn:E.
    + apply last_Some in E as (k & E). apply (search_in in_order Horder). fold l. rewrite E. apply elem_of_app. right. by left.
    + intros x Hx. apply not_true_iff_false. intros Hw. apply last_None in E.
      assert (x ∈ l) as H by (by apply (search_in in_order Horder)). rewrite E in H. by apply not_elem_of_nil in H.
Qed.

Lemma s32_small i : 0 < i < 2 ^ 31 -> s32 i = i.
Proof. intros H. unfold s32. rewrite Z.mod_small; lia. Qed.

(** Revocation leaves names, ONMAN and hashes alone. *)
Lemma less_rows t t' tb r' : less t t' -> r' ∈ rows_of tb t' ->
  exists r, r ∈ rows_of tb t /\ same_row r r' /\ onman (m_flags r') = onman (m_flags r) /\ m_hash r' = m_hash r.
Proof.
  intros [Lc Ll Lr Lm Lg _] Hr.
  assert (Hm : forall R (F : flagtab R) (f : R -> mrow) l l', Forall2 (marked F) l l' ->
    (forall x, same_row (f x) (f (ft_setf F (mark (ft_flags F x)) x)) /\
       onman (m_flags (f (ft_setf F (mark (ft_flags F x)) x))) = onman (m_flags (f x)) /\
       m_hash (f (ft_setf F (mark (ft_flags F x)) x)) = m_hash (f x)) ->
    r' ∈ map f l' -> exists r, r ∈ map f l /\ same_row r r' /\ onman (m_flags r') = onman (m_flags r) /\ m_hash r' = m_hash r).
  { intros R F f l l' HF Hf (x' & -> & Hx)%list_elem_of_fmap.
    destruct (marked_from F l l' x' HF Hx) as (x & Hin & [->| ->]); exists (f x).
    - split; [by apply list_elem_of_fmap_2|]. by unfold same_row.
    - split; [by apply list_elem_of_fmap_2|apply Hf]. }
  assert (Hb : forall f, onman (mark f) = onman f).
  { intros f. unfold onman. by rewrite testbit_mark, orb_false_r. }
  destruct tb; cbn [rows_of] in *.
  - apply list_elem_of_fmap in Hr as (c' & -> & Hc). destruct (Lc c' Hc) as (c & Hin & f & -> & Hf & _).
    exists (mrow_cert c). split; [by apply list_elem_of_fmap_2|]. split; [done|]. split; [|done]. by apply (Hf 8).
  - eapply Hm; [exact Ll| |done]. intros x. split; [done|]. split; [apply Hb|done].
  - eapply Hm; [exact Lr| |done]. intros x. split; [done|]. split; [apply Hb|done].
  - eapply Hm; [exact Lm| |done]. intros x. split; [done|]. split; [apply Hb|done].
  - eapply Hm; [exact Lg| |done]. intros x. split; [done|]. split; [apply Hb|done].
Qed.

Lemma less_stays t t' tb r : less t t' -> tb <> CertTab -> r ∈ rows_of tb t -> exists r', r' ∈ rows_of tb t' /\ m_id r' = m_id r.
Proof.
  intros [_ Ll Lr Lm Lg _] Ht Hr.
  assert (Hm : forall R (F : flagtab R) (f : R -> mrow) l l', Forall2 (marked F) l l' ->
    (forall x, m_id (f (ft_setf F (mark (ft_flags F x)) x)) = m_id (f x)) ->
    r ∈ map f l -> exists r', r' ∈ map f l' /\ m_id r' = m_id r).
  { intros R F f l l' HF Hf (x & -> & Hx)%list_elem_of_fmap.
    destruct (marked_to F l l' x HF Hx) as (x' & Hin & [->| ->]);
      (eexists; split; [by apply list_elem_of_fmap_2|]); [done|apply Hf]. }
  destruct tb; [done|..]; cbn [rows_of] in *; by eapply Hm.
Qed.

(** An entry that fails. *)
Lemma drop_ends tb r fah s : good esc (tabs s) -> small (tabs s) -> r ∈ rows_of tb (tabs s) ->
  onman (m_flags r) = false -> fails fah tb r ->
  ends (fun n => drop_listed sql_ok clock in_order esc n tb (m_id r)) s (fun _ t' =>
    good esc t' /\ updated [fah] (tabs s) t' /\ forall r', r' ∈ rows_of tb t' -> m_id r' <> m_id r).
Proof.
  intros G Hsm Hr Ho V. pose proof (g_ids _ _ G) as Hids.
  assert (Hgone : forall tb' x, tb' = tb -> x ∈ rows_of tb' (tabs s) -> m_id x = m_id r ->
    onman (m_flags x) = false /\ exists fah', fah' ∈ [fah] /\ fails fah' tb' x).
  { intros ? x -> Hx E. rewrite (row_id tb _ x r Hids Hx Hr E). split; [done|]. exists fah. split; [by left|done]. }
  destruct (decide (tb = CertTab)) as [->|Ht].
  - cbn [drop_listed]. rewrite (s32_small (m_id r)) by (by eapply Hsm).
    eapply ends_bind; [by apply (search_revoke sql_ok clock in_order esc now)|]. cbn beta. intros v s1 [_ R].
    apply ends_ret. split; [apply R|]. pose proof (rv_less _ _ _ _ R) as L. split; [split|].
    + intros tb r' Hr'. destruct (less_rows _ _ tb r' L Hr') as (x & Hx & Hs' & E). exists x. auto.
    + intros tb x Hx. destruct (decide (tb = CertTab)) as [->|Ht]; [|left; by eapply less_stays].
      destruct (decide (m_id x = m_id r)) as [E|E]; [right; by apply Hgone|left].
      apply list_elem_of_fmap in Hx as (c & -> & Hc).
      assert (c_id c ∈ c_id <$> certs (tabs s1)) as Hin.
      { apply (revoked_ids in_order esc Horder (fun c => c_id c =? m_id r) (tabs s) (tabs s1) c Hids R Hc).
        by apply Z.eqb_neq. }
      apply list_elem_of_fmap in Hin as (c' & E' & Hc'). exists (mrow_cert c').
      split; [by apply list_elem_of_fmap_2|exact (eq_sym E')].
    + intros r' (c' & -> & Hc')%list_elem_of_fmap E.
      destruct (revoked_in in_order esc Horder _ (tabs s) (tabs s1) c' Hids R Hc') as (c & Hc & (f & -> & _) & Hw).
      apply Z.eqb_neq in Hw. done.
  - assert (Hd : forall n, drop_listed sql_ok clock in_order esc n tb (m_id r) =
      (let* _ := deletebylid sql_ok tb (m_id r) in est_ret tt)) by (by destruct tb).
    assert (E1 : ends (fun n => drop_listed sql_ok clock in_order esc n tb (m_id r)) s
      (fun _ t' => t' = del_id tb (m_id r) (tabs s))).
    { eapply (ends_ext (fun _ => let* _ := deletebylid sql_ok tb (m_id r) in est_ret tt)); [done|].
      eapply ends_runs; [|reflexivity]. eapply runs_bind; [by apply runs_no_data|]. intros s1 H1. exists s1. done. }
    eapply ends_impl; [exact E1|]. cbn beta. intros _ t' ->. split; [by apply del_good|]. split; [split|].
    + intros tb' x Hx. exists x. split; [|unfold same_row; auto]. destruct (decide (tb' = tb)) as [->|Hn].
      * rewrite del_rows in Hx. apply list_elem_of_In, List.filter_In in Hx as [Hx _]. by apply list_elem_of_In.
      * by rewrite del_other in Hx.
    + intros tb' x Hx. destruct (decide (tb' = tb)) as [->|Hn].
      * destruct (decide (m_id x = m_id r)) as [E|E]; [right; by apply Hgone|left]. exists x. split; [|done].
        rewrite del_rows. apply list_elem_of_In, List.filter_In. split; [by apply list_elem_of_In|].
        by apply negb_true_iff, Z.eqb_neq.
      * left. exists x. by rewrite del_other.
    + intros x Hx. rewrite del_rows in Hx. apply list_elem_of_In, List.filter_In in Hx as [_ Hx].
      by apply negb_true_iff, Z.eqb_neq in Hx.
Qed.

(** An entry that passes. *)
Lemma onman_ends tb r fah hb h s : good esc (tabs s) -> small (tabs s) -> r ∈ rows_of tb (tabs s) ->
  onman (m_flags r) = false -> passes fah tb r hb -> hash_stored r hb (new_hash h (m_hash r)) ->
  let t' := set_onman tb (m_id r) h (tabs s) in
  good esc t' /\ updated [fah] (tabs s) t' /\
  forall r', r' ∈ rows_of tb t' -> m_id r' = m_id r -> onman (m_flags r') = true.
Proof.
  intros G Hsm Hr Ho V Hs t'. pose proof (g_ids _ _ G) as Hids.
  assert (Hrow : forall x, x ∈ rows_of tb (tabs s) -> m_id x = m_id r -> x = r) by (intros x Hx; by apply (row_id tb (tabs s))).
  assert (Hon : onman (m_flags (onman_row h r)) = true) by (by apply onman_keeps).
  assert (Hin : forall x', x' ∈ rows_of tb t' -> x' ∈ rows_of tb (tabs s) /\ m_id x' <> m_id r \/ x' = onman_row h r).
  { intros x'. unfold t'. rewrite set_onman_rows. intros (x & -> & Hx)%list_elem_of_fmap.
    destruct (Z.eqb_spec (m_id x) (m_id r)) as [E|E]; [right; by rewrite (Hrow x)|by left]. }
  split; [|split; [split|]].
  - apply set_onman_good; [done|]. intros x Hx E. by rewrite (Hrow x).
  - intros tb' x' Hx'. destruct (decide (tb' = tb)) as [->|Hn].
    + destruct (Hin x' Hx') as [[Hx _]| ->]; [exists x'; unfold same_row; by auto|]. exists r. split; [done|].
      split; [done|]. right. split; [done|]. split; [done|]. exists fah, hb. split; [by left|done].
    + exists x'. unfold t' in Hx'. rewrite set_onman_other in Hx' by done. unfold same_row. by auto.
  - intros tb' x Hx. left. destruct (decide (tb' = tb)) as [->|Hn].
    + exists (if m_id x =? m_id r then onman_row h x else x). unfold t'. rewrite set_onman_rows.
      split; [|by destruct (_ =? _)]. apply list_elem_of_fmap. by exists x.
    + exists x. unfold t'. by rewrite set_onman_other.
  - intros x' Hx' E. by destruct (Hin x' Hx') as [[_ ?]| ->].
Qed.

Lemma entry_ends fah tb s : good esc (tabs s) -> small (tabs s) -> file_table (fah_name fah) = Some tb ->
  ends (fun n => update_listed sql_ok clock in_order esc sha256 open_file n fah (fah_name fah) tb) s (fun _ t' =>
    good esc t' /\ updated [fah] (tabs s) t' /\ settled [fah] (tabs s) t').
Proof.
  intros G Hsm Htab. pose proof (g_ids _ _ G) as Hids.
  (* [settled] speaks only of the rows of [tb] with that name *)
  assert (Hset : forall t', (forall r', r' ∈ rows_of tb t' -> alone tb (tabs s) r' -> m_file r' = fah_name fah ->
    open_file (path_of (m_dir r') (m_file r')) <> None -> onman (m_flags r') = true) -> settled [fah] (tabs s) t').
  { intros t' H tb' r' Hr' Ha f Hf En Et Eo. apply list_elem_of_singleton in Hf as ->.
    assert (tb' = tb) as -> by congruence. by apply H. }
  destruct (runs_last (rows_of tb) (man_where (fah_name fah)) s) as (r & Hrun & Hr).
  eapply (ends_bind (fun _ => _) _ s (fun v t => v = r /\ t = tabs s)); [by eapply ends_runs|].
  intros ? s1 [-> H1]. destruct r as [r|].
  2: { apply ends_ret. rewrite H1. split; [done|]. split; [apply updated_refl|]. apply Hset.
    intros x Hx _ En _. specialize (Hr x Hx). unfold man_where in Hr.
    rewrite En, String.eqb_refl, onman_test in Hr. by destruct (onman (m_flags x)). }
  destruct Hr as [Hr Hw]. unfold man_where in Hw. rewrite onman_test, andb_true_iff, String.eqb_eq in Hw.
  destruct Hw as [En Ho]. assert (onman (m_flags r) = false) as Hon by (by destruct (onman (m_flags r))). clear Ho.
  pose proof (Hsm tb r Hr) as Hpos. rewrite (proj2 (Z.eqb_neq (m_id r) 0)) by lia.
  destruct (open_file (path_of (m_dir r) (fah_name fah))) as [contents|] eqn:Eo.
  2: { apply ends_ret. rewrite H1. split; [done|]. split; [apply updated_refl|]. apply Hset.
    intros x Hx Ha Ex Hop. destruct Hop. rewrite <- (row_id tb (tabs s) r x); [by rewrite En|done..|].
    apply Ha; [done|congruence]. }
  destruct (check_listed_defined sha256 open_file fah _ _ r Hfit Eo) as (sta & h & Ec). rewrite Ec.
  assert (Hnm : entry_names fah tb r) by (split; [by rewrite En|congruence]). rewrite <- En in Eo.
  pose proof (check_listed_spec sha256 open_file fah contents r sta h Eo Ec) as V.
  eapply (ends_bind (fun _ => _) _ s1 (fun v t => v = (sta, h) /\ t = tabs s)); [by apply ends_ret|].
  intros ? s2 [-> H2]. rewrite <- H2 in *. destruct (Z.leb_spec 0 sta) as [Hs|Hs].
  - rewrite s32_small by done. destruct V as [(_ & hb & Hag & Hst)|[? _]]; [|lia].
    destruct (onman_ends tb r fah hb h s2) as (G' & U' & Hall); [done..|].
    eapply ends_runs; [eapply runs_bind; [by apply runs_no_data|]; intros s3 H3; by exists s3|].
    split; [done|]. split; [done|]. apply Hset. intros x Hx Ha Ex _. apply Hall; [done|]. symmetry. apply Ha; [done|congruence].
  - destruct V as [[? _]|[_ V]]; [lia|]. assert (Hf : fails fah tb r) by (split; [done|split; [congruence|done]]).
    eapply ends_impl; [by eapply drop_ends|]. cbn beta. intros _ t' (G' & U' & Hnone). split; [done|]. split; [done|].
    apply Hset. intros x Hx Ha Ex _. destruct (Hnone x Hx). symmetry. apply Ha; [done|congruence].
Qed.

Lemma entries_end l : forall s, good esc (tabs s) -> small (tabs s) ->
  ends (fun n => updateManifestObjs sql_ok clock in_order esc sha256 open_file n l) s (fun v t' =>
    good esc t' /\ updated l (tabs s) t' /\ (v = 0 /\ settled l (tabs s) t' \/
      v = ERR_SCM_BADMFTFILENAME /\ exists fah, fah ∈ l /\ NAME_MAX < Z.of_nat (length (fah_file fah)))).
Proof.
  induction l as [|fah l IH]; intros s G Hsm; cbn [updateManifestObjs].
  { apply ends_ret. split; [done|]. split; [apply updated_refl|]. left. split; [done|].
    by intros ? ? ? ? ? ?%not_elem_of_nil. }
  destruct (Z.ltb_spec (NAME_MAX + 1) (Z.of_nat (length (fah_file fah)) + 1)) as [Hlen|Hlen].
  { apply ends_ret. split; [done|]. split; [apply updated_refl|]. right. split; [done|]. exists fah. split; [by left|lia]. }
  fold (fah_name fah).
  assert (Hgo : forall s1, good esc (tabs s1) -> updated [fah] (tabs s) (tabs s1) -> settled [fah] (tabs s) (tabs s1) ->
    ends (fun n => updateManifestObjs sql_ok clock in_order esc sha256 open_file n l) s1 (fun v t' =>
      good esc t' /\ updated (fah :: l) (tabs s) t' /\ (v = 0 /\ settled (fah :: l) (tabs s) t' \/
        v = ERR_SCM_BADMFTFILENAME /\ exists fah0, fah0 ∈ fah :: l /\ NAME_MAX < Z.of_nat (length (fah_file fah0))))).
  { intros s1 G1 U1 S1. eapply ends_impl; [apply (IH s1 G1); by eapply updated_small|]. cbn beta.
    intros v t' (G' & U' & H). split; [done|]. split.
    { apply (updated_trans sha256 open_file [fah] l (tabs s) (tabs s1)); [apply G|done..]. }
    destruct H as [[-> S']|(-> & f & Hf & Hn)]; [left; split; [done|]|right].
    - by eapply settled_step.
    - split; [done|]. exists f. split; [by right|done]. }
  destruct (file_table (fah_name fah)) as [tb|] eqn:Et.
  - eapply ends_bind; [by apply entry_ends|]. cbn beta. intros _ s1 (G1 & U1 & S1). by apply Hgo.
  - apply Hgo; [done|apply updated_refl|]. intros tb r' _ _ f Hf En Et'.
    apply list_elem_of_singleton in Hf as ->. congruence.
Qed.
End step.

(** ** Theorem *)

(** C11: When a manifest is applied to the database ([updateManifestObjs], no
    statement failing, every file that is hashed of 30 bytes or more), the run ends
    and keeps the promises of the tables. A row gets ONMAN only if an entry of the
    manifest names its file, the file can be read and the entry has the hash that
    stands for it: the one stored in the row, if there is one, and else the SHA-256
    of the contents, which is then stored. A row is removed only if an entry names
    its file, the file can be opened, but cannot be read, has no hash (the stored
    text is not hexadecimal) or another one. No other row loses or gains the flag or
    has its hash changed. If no name in the list is too long, every entry is dealt
    with: an object that is the only one of its name and whose file can be opened
    has ONMAN afterwards, unless it has been removed. *)
Theorem manifest_objs_exact sql_ok clock in_order esc now sha256 open_file l s :
  (forall n, sql_ok n = true) -> (forall n, clock n = Some now) -> (forall A (l : list A), in_order A l ≡ₚ l) ->
  hashes_fit sha256 open_file -> good esc (tabs s) -> small (tabs s) ->
  ends (fun fuel => updateManifestObjs sql_ok clock in_order esc sha256 open_file fuel l) s (fun v t' =>
    good esc t' /\ updated sha256 open_file l (tabs s) t' /\
    (v = 0 /\ settled open_file l (tabs s) t' \/
     v = ERR_SCM_BADMFTFILENAME /\ exists fah, fah ∈ l /\ NAME_MAX < Z.of_nat (length (fah_file fah)))).
Proof. intros. by apply (entries_end sql_ok clock in_order esc now). Qed.

(** ** Example: two ROAs and a certificate, of which one ROA has its listed hash *)

Definition mx_cert (id : Z) (file name issuer ski aki : string) : cert_row :=
  mkCert id file "d" (Some name) issuer [id] SCM_FLAG_VALIDATED ski (Some aki) name 0 100 0 None.
Definition mx_roa (id : Z) (file ski : string) : obj_row roa_data :=
  mkObj id file "d" ski SCM_FLAG_VALIDATED (mkRoaData 64512 "s" 0) None.
Definition mx_tables : tables :=
  mkTables [mx_cert 1 "ta.cer" "ta" "ta" "kt" "kt"; mx_cert 2 "a.cer" "a" "ta" "ka" "kt"; mx_cert 3 "b.cer" "b" "a" "kb" "ka"]
    [] [mx_roa 1 "r.roa" "kb"; mx_roa 2 "q.roa" "kt"] [] [] [] [] None.
Definition mx_state : dbst := mkDbst mx_tables 0 0 SrchNone.
Definition mx_hash (c : list Z) : option (list Z) := Some (take 2 c).
Definition mx_open (path : string) : option (option (list Z)) :=
  if String.eqb path "d/r.roa" then Some (Some [1; 2; 3])
  else if String.eqb path "d/q.roa" then Some (Some [4; 5; 6])
  else if String.eqb path "d/a.cer" then Some (Some [7; 8; 9]) else None.
Definition mx_list : list FileAndHash :=
  [Build_FileAndHash (codes "r.roa") [0; 1; 2]; Build_FileAndHash (codes "a.cer") [0; 7; 7];
   Build_FileAndHash (codes "q.roa") [0; 5; 5]].

Lemma mx_good : good id mx_tables.
Proof.
  split; [by apply chainb_spec| |by split].
  split; apply (bool_decide_unpack _); vm_compute; exact I.
Qed.

Lemma manifest_objs_exact_witness :
  ends (fun fuel => updateManifestObjs (fun _ => true) (fun _ => Some 10) (fun _ l => l) id mx_hash mx_open fuel mx_list)
    mx_state (fun v t' =>
    good id t' /\ updated mx_hash mx_open mx_list mx_tables t' /\
    (v = 0 /\ settled mx_open mx_list mx_tables t' \/
     v = ERR_SCM_BADMFTFILENAME /\ exists fah, fah ∈ mx_list /\ NAME_MAX < Z.of_nat (length (fah_file fah)))).
Proof.
  apply (manifest_objs_exact (fun _ => true) (fun _ => Some 10) (fun _ l => l) id 10 mx_hash mx_open mx_list mx_state);
    try done.
  - intros path c h _ [= <-]. rewrite length_take. lia.
  - apply mx_good.
  - intros tb r Hr. assert (H : forallb (fun r => (0 <? m_id r) && (m_id r <? 2 ^ 31)) (rows_of tb mx_tables) = true)
      by (by destruct tb).
    apply list_elem_of_In in Hr. rewrite forallb_forall in H. specialize (H r Hr). bprop. lia.
Defined.

(** The first ROA is on the manifest, the certificate [a] is gone with its chain
    ([b] and the ROA below it are marked), and so is the second ROA. *)
Example mx_run :
  let '(s, v) := updateManifestObjs (fun _ => true) (fun _ => Some 10) (fun _ l => l) id mx_hash mx_open 10 mx_list mx_state in
  (v, map (fun c => (c_id c, c_flags c)) (certs (tabs s)), map (fun o => (o_id o, o_flags o, o_hash o)) (roas (tabs s))) =
  (inr 0, [(1, 4); (3, 12)], [(1, 268, Some "0102"%string)]).
Proof. vm_compute. reflexivity. Qed.

(** A file of less than 30 bytes makes [gen_hash] write behind the buffer. *)
Lemma short_file_overflows sha256 fah c h : sha256 c = Some h -> length h = 32%nat -> (length c < 30)%nat ->
  check_fileAndHash sha256 fah (Some c) None 0 = None.
Proof. intros E Eh Hc. cbn -[Nat.ltb]. rewrite E, Eh. rewrite (proj2 (Nat.ltb_lt _ _)); [done|lia]. Qed.

(** ** Hexadecimal texts: what is stored is read back *)

(** A function that gives the digits, in either case. *)
Definition hex_digit (ch : Z -> Z) : Prop := forall d, 0 <= d < 16 ->
  hex_val (ch d) = Some d /\ is_space (ch d) = false /\ ch d <> 45 /\ ch d <> 43 /\ zin (ch d) [120; 88] = false.
Definition hex_pair (ch : Z -> Z) (b : Z) : list Z := [ch (b / 16); ch (b mod 16)].

Ltac hex_cases d Hd := let Hin := fresh in
  assert (Hin : In d (map Z.of_nat (seq 0 16))) by (replace d with (Z.of_nat (Z.to_nat d)) by lia; apply in_map, in_seq; lia);
  cbn in Hin; repeat destruct Hin as [<-|Hin]; [..|done]; repeat split; cbv; congruence.

Lemma hex_char_val : hex_digit hex_char.
Proof. intros d Hd. hex_cases d Hd. Qed.

Lemma length_hex_pairs ch l : length (concat (map (hex_pair ch) l)) = (2 * length l)%nat.
Proof. induction l as [|x l IH]; [done|]. cbn [map concat length hex_pair app]. lia. Qed.

Lemma unhexify_digits ch l : hex_digit ch -> bytes_ok l -> l <> [] -> unhexify (concat (map (hex_pair ch) l)) = Some l.
Proof.
  intros Hch Hl Hne.
  assert (Hp : unhex_pairs (concat (map (hex_pair ch) l)) = Some l).
  { clear Hne. induction Hl as [|b l Hb _ IH]; [done|]. cbn [map concat hex_pair app unhex_pairs].
    unfold byte_ok, uint_ok in Hb.
    assert (0 <= b / 16 < 16) as Hhi by (Z.to_euclidean_division_equations; lia).
    assert (0 <= b mod 16 < 16) as Hlo by (Z.to_euclidean_division_equations; lia).
    destruct (Hch _ Hhi) as (V1 & S1 & N1 & P1 & _), (Hch _ Hlo) as (V2 & S2 & _ & _ & X2).
    assert (scan_x [ch (b / 16); ch (b mod 16)] = Some b) as ->.
    { unfold scan_x. cbn [skip_space]. rewrite S1, (proj2 (Z.eqb_neq _ _) N1), (proj2 (Z.eqb_neq _ _) P1), X2, andb_false_r.
      cbn [hex_number hex_digits]. rewrite V1. rewrite V2. unfold u32, wrap. f_equal.
      rewrite Z.mod_small; Z.to_euclidean_division_equations; lia. }
    rewrite (proj2 (Z.leb_gt _ _)) by lia. by rewrite IH. }
  unfold unhexify. rewrite length_hex_pairs, Hp.
  replace (2 * length l =? 0)%nat with false by (symmetry; apply Nat.eqb_neq; destruct l; [done|cbn; lia]).
  replace (Nat.odd (2 * length l)) with false; [done|]. symmetry. rewrite <- Nat.negb_even.
  apply negb_false_iff, Nat.even_spec. by exists (length l).
Qed.

Lemma unhex_hexify l : bytes_ok l -> l <> [] -> unhexify (hexify l) = Some l.
Proof.
  intros Hl Hne. unfold hexify. replace (length l =? 0)%nat with false by (by destruct l).
  by apply (unhexify_digits hex_char), Hne; [apply hex_char_val|].
Qed.
