(* ===== verification/CertFields.v ===== *)
(** * The fields of certificates and CRLs ([src/lib/rpki/myssl.c])

    [cert2fields] and [crl2fields] read a certificate or a CRL and make the row that
    is stored for it. OpenSSL is a parameter: what its accessors say of an object is a
    record, an extension's value is there if OpenSSL has a method for it that decodes
    it, and the conversions of numbers and key identifiers to text are functions.
    Allocations succeed. The texts of the access and distribution points and the raw
    address block, which nothing here reads, are left out. *)

From stdpp Require Import strings.
From S2P Require Import Prelude Sql CasnTime CasnNum CasnObjid RpkiObject CmsValidate Manifest RpkiDb RpkiVerify CertExt CertProfile CrlProfile RpkiMft.

Definition ERR_SCM_NOSUBJECT : Z := -18.
Definition ERR_SCM_NOISSUER : Z := -19.
Definition ERR_SCM_NOSN : Z := -20.
Definition ERR_SCM_BIGNUMERR : Z := -21.
Definition ERR_SCM_NONB4 : Z := -22.
Definition ERR_SCM_NONAF : Z := -23.
Definition ERR_SCM_MISSEXT : Z := -28.
Definition ERR_SCM_CRL : Z := -36.
Definition ERR_SCM_BADCRL : Z := -37.
Definition ERR_SCM_NOSIG : Z := -89.

(** [%02X] with colons between. *)
Definition hex_upper (d : Z) : Z := if d <? 10 then 48 + d else 55 + d.
Fixpoint hex_colons (l : list Z) : list Z :=
  match l with
  | [] => []
  | [b] => [hex_upper (b / 16); hex_upper (b mod 16)]
  | b :: l => hex_upper (b / 16) :: hex_upper (b mod 16) :: 58 :: hex_colons l
  end.

(** ** What OpenSSL says *)

(** A date: missing, not a text, or the text. *)
Inductive date_view := DateNull | DateError | DateText (s : list Z).

(** [X509_NAME_oneline], the serial number ([None] without one, [Some None] when it is
    not made a number), the dates, the bytes of the signature and the extensions. *)
Record x509_fields := mkX509Fields {
  xf_subject : option string;
  xf_issuer : option string;
  xf_serial : option (option Z);
  xf_notBefore : date_view;
  xf_notAfter : date_view;
  xf_signature : option (list Z);
  xf_exts : list X509_EXTENSION }.

(** An entry of a CRL: null, without a number, with one that cannot be converted, or the
    number. *)
Inductive revoked_view := RevNull | RevNoSerial | RevError | RevSn (n : Z).

Inductive crl_ext_value := CxNumber (n : option Z) | CxAki (keyid : option (list Z)) | CxOther.
Record crl_ext := mkCrlExt { ce_oid : list Z; ce_value : option crl_ext_value }.

(** [xr_expired] says that [nextUpdate] is before the present, [xr_verify] is
    [X509_CRL_verify] with the key of a certificate. *)
Record crl_fields_view (X509 : Type) := mkCrlView {
  xr_issuer : option string;
  xr_lastUpdate : date_view;
  xr_nextUpdate : date_view;
  xr_signature : option (list Z);
  xr_expired : bool;
  xr_revoked : list revoked_view;
  xr_exts : list crl_ext;
  xr_verify : X509 -> Z }.
Arguments mkCrlView {X509}.
Arguments xr_issuer {X509}. Arguments xr_lastUpdate {X509}. Arguments xr_nextUpdate {X509}.
Arguments xr_signature {X509}. Arguments xr_expired {X509}. Arguments xr_revoked {X509}.
Arguments xr_exts {X509}. Arguments xr_verify {X509}.

(** The columns hold dates; this orders them. *)
Definition db_time (c : civil) : Z :=
  ((((year c * 100 + month c) * 100 + day c) * 100 + hour c) * 100 + minute c) * 100 + second c.

Section fields.
(** [BN_bn2hex] and [BN_bn2bin], and [hex_to_string], also for the key identifier of a
    subject ([i2s]). *)
Context (BN_bn2hex : Z -> option (list Z)) (BN_bn2bin : Z -> list Z) (hex_to_string : list Z -> option string).

(** ** Fields of a certificate *)

Definition need {A} (o : option A) (sta : Z) : Z + A := match o with Some a => inr a | None => inl sta end.

Definition cf_get_subject (x : x509_fields) : Z + string := need (xf_subject x) ERR_SCM_NOSUBJECT.
Definition cf_get_issuer (x : x509_fields) : Z + string := need (xf_issuer x) ERR_SCM_NOISSUER.

(** The text behind [^x]. *)
Definition sn_text (ptr : list Z) : list Z := replicate (2 * SER_NUM_MAX_SZ - length ptr) 48 ++ ptr.

Definition cf_get_sn (x : x509_fields) : Z + list Z :=
  match xf_serial x with
  | None => inl ERR_SCM_NOSN
  | Some None => inl ERR_SCM_BIGNUMERR
  | Some (Some bn) =>
      match BN_bn2hex bn with
      | None => inl ERR_SCM_BIGNUMERR
      | Some ptr => if (2 * SER_NUM_MAX_SZ <? length ptr)%nat then inl ERR_SCM_BADSERNUM else inr (sn_text ptr)
      end
  end.

(** The errors are the caller's. *)
Definition get_date (d : date_view) (missing bad : Z) : Z + civil :=
  match d with
  | DateNull | DateText [] => inl missing
  | DateError => inl bad
  | DateText s => ASNTimeToDBTime s false
  end.

Definition cf_get_from (x : x509_fields) : Z + civil := get_date (xf_notBefore x) ERR_SCM_NONB4 ERR_SCM_X509.

(** A bad date is reported as a lack of memory. *)
Definition or_nomem (d : date_view) (r : Z + civil) : Z + civil :=
  match d, r with DateText (_ :: _), inl _ => inl ERR_SCM_NOMEM | _, _ => r end.
Definition cf_get_to (x : x509_fields) : Z + civil :=
  or_nomem (xf_notAfter x) (get_date (xf_notAfter x) ERR_SCM_NONAF ERR_SCM_X509).

Definition get_sig (sig : option (list Z)) : Z + string :=
  match sig with
  | None | Some [] => inl ERR_SCM_NOSIG
  | Some sig => inr (chars (hexify sig))
  end.

(** The extension fields and [*stap]. *)
Record cfx_state := mkCfx { cfx_ski : option string; cfx_aki : option string; cfx_flags : Z; cfx_sta : Z }.

Definition cf_get_ski (data : list Z) (st : cfx_state) : cfx_state :=
  match hex_to_string data with
  | None | Some EmptyString => mkCfx (cfx_ski st) (cfx_aki st) (cfx_flags st) ERR_SCM_BADEXT
  | Some s => mkCfx (Some s) (cfx_aki st) (cfx_flags st) (cfx_sta st)
  end.
Definition cf_get_aki (keyid : option (list Z)) (st : cfx_state) : cfx_state :=
  match keyid with
  | None => mkCfx (cfx_ski st) (cfx_aki st) (cfx_flags st) ERR_SCM_XPROFILE
  | Some k =>
      match hex_to_string k with
      | None => mkCfx (cfx_ski st) (cfx_aki st) (cfx_flags st) ERR_SCM_INVALEXT
      | Some s => mkCfx (cfx_ski st) (Some s) (cfx_flags st) (cfx_sta st)
      end
  end.
Definition cf_get_flags (ca : bool) (st : cfx_state) : cfx_state :=
  mkCfx (cfx_ski st) (cfx_aki st) (if ca then Z.lor (cfx_flags st) SCM_FLAG_CA else cfx_flags st) (cfx_sta st).

(** [cfx_find] and the call of its function, after [*stap = 0]. *)
Definition cf_ext (nid : Z) (v : ext_struct) (st : cfx_state) : cfx_state :=
  let st := mkCfx (cfx_ski st) (cfx_aki st) (cfx_flags st) 0 in
  match v with
  | XKeyId data => if nid =? NID_subject_key_identifier then cf_get_ski data st else st
  | XAuthKeyId keyid _ _ => if nid =? NID_authority_key_identifier then cf_get_aki keyid st else st
  | XBasicConstraints ca _ => if nid =? NID_basic_constraints then cf_get_flags ca st else st
  | _ => st
  end.

Fixpoint cf_exts (exts : list X509_EXTENSION) (st : cfx_state) : cfx_state :=
  match exts with
  | [] => st
  | e :: exts =>
      match ext_value e with
      | None => cf_exts exts st
      | Some v =>
          let st := cf_ext (ext_nid e) v st in
          if negb (cfx_sta st =? 0) && (ext_nid e =? NID_subject_key_identifier) then st else cf_exts exts st
      end
  end.

(** The status in the end: the subject's key identifier is needed. *)
Definition cfx_result (st : cfx_state) : Z + string :=
  match cfx_ski st with
  | None => inl ERR_SCM_MISSEXT
  | Some ski => if negb (cfx_sta st =? 0) then inl (cfx_sta st) else inr ski
  end.

Definition sn_bytes (s : list Z) : list Z := from_option id [] (unhexify s).

(** The fields of a certificate that has been read. *)
Definition x509_row (fname : string) (x : x509_fields) : Z + cert_row :=
  match cf_get_subject x with
  | inl sta => inl sta
  | inr subject =>
      match cf_get_issuer x with
      | inl sta => inl sta
      | inr issuer =>
          match cf_get_sn x with
          | inl sta => inl sta
          | inr sn =>
              match cf_get_from x with
              | inl sta => inl sta
              | inr from =>
                  match cf_get_to x with
                  | inl sta => inl sta
                  | inr to =>
                      match get_sig (xf_signature x) with
                      | inl sta => inl sta
                      | inr sig =>
                          let st := cf_exts (xf_exts x) (mkCfx None None 0 0) in
                          match cfx_result st with
                          | inl sta => inl sta
                          | inr ski =>
                              inr (mkCert 0 fname EmptyString (Some subject) issuer (sn_bytes sn) (cfx_flags st) ski
                                     (cfx_aki st) sig (db_time from) (db_time to) SIGVAL_UNKNOWN None)
                          end
                      end
                  end
              end
          end
      end
  end.

Context {X509 : Type} (E : env X509) (x509_view : X509 -> x509_fields).

(** Without names the certificate would have to be given. *)
Definition cert2fields (fname fullname : string) (typ : Z) : Z + cert_row * X509 :=
  if String.eqb fname EmptyString || String.eqb fullname EmptyString then inl ERR_SCM_INVALARG
  else match file_bytes E fullname with
  | None => inl ERR_SCM_X509
  | Some bytes =>
      match d2i_X509 E (OT_PEM_OFFSET <=? typ) bytes with
      | None => inl ERR_SCM_BADCERT
      | Some x => match x509_row fname (x509_view x) with inl sta => inl sta | inr cf => inr (cf, x) end
      end
  end.

(** ** Fields of a CRL *)

Definition crf_get_issuer (x : crl_fields_view X509) : Z + string := need (xr_issuer x) ERR_SCM_NOISSUER.

(** Not needed: only the status counts. *)
Definition crf_get_last (x : crl_fields_view X509) : Z :=
  match or_nomem (xr_lastUpdate x) (get_date (xr_lastUpdate x) ERR_SCM_NONB4 ERR_SCM_CRL) with inl sta => sta | inr _ => 0 end.
Definition crf_get_next (x : crl_fields_view X509) : Z + civil := get_date (xr_nextUpdate x) ERR_SCM_NONAF ERR_SCM_CRL.

(** [BN_num_bits(bn) < SER_NUM_MAX_SZ * 8], not zero and not negative. *)
Definition sn_valid (bn : Z) : bool := (0 <? bn) && (bn <? 2 ^ (Z.of_nat SER_NUM_MAX_SZ * 8 - 1)).
Definition sn_entry (bn : Z) : list Z :=
  replicate (SER_NUM_MAX_SZ - length (BN_bn2bin bn)) 0 ++ BN_bn2bin bn.

(** The entries with valid numbers, in front of the array. *)
Fixpoint snlist_loop (rev : list revoked_view) : Z + list (list Z) :=
  match rev with
  | [] => inr []
  | RevNull :: _ | RevNoSerial :: _ => inl ERR_SCM_NOSN
  | RevError :: _ => inl ERR_SCM_BIGNUMERR
  | RevSn bn :: rev =>
      match snlist_loop rev with
      | inl e => inl e
      | inr l => inr (if sn_valid bn then sn_entry bn :: l else l)
      end
  end.

Definition goodoid_cRLNumber : list Z := [0x55; 0x1d; 0x14].
Definition goodoid_authKeyId : list Z := [0x55; 0x1d; 0x23].

(** [CRF_FIELD_SN], [CRF_FIELD_AKI], [*stap]. *)
Record crfx_state := mkCrfx { crfx_sn : bool; crfx_aki : option string; crfx_sta : Z }.

Definition crf_get_crlno (n : option Z) (st : crfx_state) : crfx_state :=
  match n with
  | None => mkCrfx (crfx_sn st) (crfx_aki st) ERR_SCM_BIGNUMERR
  | Some n =>
      match BN_bn2hex n with
      | None => mkCrfx (crfx_sn st) (crfx_aki st) ERR_SCM_BIGNUMERR
      | Some _ => mkCrfx true (crfx_aki st) (crfx_sta st)
      end
  end.
Definition crf_get_aki (keyid : option (list Z)) (st : crfx_state) : crfx_state :=
  match keyid with
  | None => mkCrfx (crfx_sn st) (crfx_aki st) ERR_SCM_XPROFILE
  | Some k =>
      match hex_to_string k with
      | None => mkCrfx (crfx_sn st) (crfx_aki st) ERR_SCM_INVALEXT
      | Some s => mkCrfx (crfx_sn st) (Some s) (crfx_sta st)
      end
  end.

(** [did] adds up 1 for a number and 2 for a key identifier. *)
Fixpoint crf_exts (exts : list crl_ext) (did : Z) (st : crfx_state) : crfx_state * Z :=
  match exts with
  | [] => (st, did)
  | e :: exts =>
      let is_number := bool_decide (ce_oid e = goodoid_cRLNumber) in
      if negb is_number && negb (bool_decide (ce_oid e = goodoid_authKeyId))
      then (mkCrfx (crfx_sn st) (crfx_aki st) ERR_SCM_INVALEXT, did)
      else
        let did := did + if is_number then 1 else 2 in
        match ce_value e with
        | None => crf_exts exts did st
        | Some v =>
            let st := mkCrfx (crfx_sn st) (crfx_aki st) 0 in
            let st := match v with CxNumber n => crf_get_crlno n st | CxAki k => crf_get_aki k st | CxOther => st end in
            let needed := match v with CxOther => false | _ => true end in
            if negb (crfx_sta st =? 0) && needed then (st, did) else crf_exts exts did st
        end
  end.

(** The key identifier, or the status. *)
Definition crf_result (exts : list crl_ext) (sta : Z) : Z + string :=
  if negb (length exts =? 2)%nat then inl ERR_SCM_INVALEXT
  else
    let '(st, did) := crf_exts exts 0 (mkCrfx false None sta) in
    if negb (crfx_sta st =? 0) then inl (crfx_sta st)
    else if negb (did =? 3) then inl ERR_SCM_INVALEXT
    else match crfx_sn st, crfx_aki st with
    | true, Some aki => inr aki
    | _, _ => inl ERR_SCM_MISSEXT
    end.

Definition x509_crl_row (fname : string) (x : crl_fields_view X509) : Z + crl_row :=
  match crf_get_issuer x with
  | inl sta => inl sta
  | inr issuer =>
      let sta := crf_get_last x in
      match crf_get_next x with
      | inl sta => inl sta
      | inr _ =>
          match get_sig (xr_signature x) with
          | inl sta => inl sta
          | inr sig =>
              let flags := if xr_expired x then SCM_FLAG_STALECRL else 0 in
              match snlist_loop (xr_revoked x) with
              | inl sta => inl sta
              | inr sns =>
                  match crf_result (xr_exts x) sta with
                  | inl sta => inl sta
                  | inr aki =>
                      let total := length (xr_revoked x) in
                      inr (mkCrl 0 fname EmptyString issuer (Some aki) sig (Z.of_nat (length sns)) 0
                             (if (total =? 0)%nat then None
                              else Some (sns ++ replicate (total - length sns) (replicate SER_NUM_MAX_SZ 0)))
                             flags None)
                  end
              end
          end
      end
  end.

(** [d2i_X509_CRL_bio], or [PEM_read_bio_X509_CRL]. *)
Context (d2i_X509_CRL : bool -> list Z -> option (crl_fields_view X509)).

Definition crl2fields (fname fullname : string) (typ : Z) : Z + crl_row * (X509 -> Z) :=
  if String.eqb fname EmptyString || String.eqb fullname EmptyString then inl ERR_SCM_INVALARG
  else match file_bytes E fullname with
  | None => inl ERR_SCM_CRL
  | Some bytes =>
      match d2i_X509_CRL (OT_PEM_OFFSET <=? typ) bytes with
      | None => inl ERR_SCM_BADCRL
      | Some x => match x509_crl_row fname x with inl sta => inl sta | inr cf => inr (cf, xr_verify x) end
      end
  end.
End fields.
