(* ===== verification/CertFieldsThm.v ===== *)
(** * The fields of certificates and CRLs: theorems *)

From stdpp Require Import strings.
From S2P Require Import Prelude Sql CasnTime CasnNum CasnObjid RpkiObject CmsValidate Manifest RpkiDb RpkiVerify CertExt CertProfile CrlProfile RpkiMft RpkiMftThm CertFields.

(** ** Numbers *)

(** Big-endian without leading zeros. *)
Definition num_bytes (n : Z) : nat := Z.to_nat (Z.log2 n / 8 + 1).
Definition be_min (n : Z) : list Z := be_bytes (num_bytes n) n.

Lemma num_bytes_bound n k : 0 < n < 256 ^ Z.of_nat k -> (1 <= num_bytes n <= k)%nat.
Proof.
  intros Hn. unfold num_bytes. pose proof (Z.log2_nonneg n). assert (Z.log2 n < 8 * Z.of_nat k).
  { apply Z.log2_lt_pow2; [lia|]. rewrite Z.pow_mul_r by lia. apply Hn. }
  Z.to_euclidean_division_equations. lia.
Qed.

Lemma num_bytes_enough n : 0 < n -> n < 256 ^ Z.of_nat (num_bytes n).
Proof.
  intros Hn. unfold num_bytes. pose proof (Z.log2_nonneg n). rewrite Z2Nat.id by (Z.to_euclidean_division_equations; lia).
  change 256 with (2 ^ 8). rewrite <- Z.pow_mul_r by (Z.to_euclidean_division_equations; lia).
  apply Z.log2_lt_pow2; [lia|]. Z.to_euclidean_division_equations. lia.
Qed.

Lemma be_bytes_pad k : forall m n, 0 <= n < 256 ^ Z.of_nat m -> be_bytes (k + m) n = replicate k 0 ++ be_bytes m n.
Proof.
  intros m. induction m as [|m IH]; intros n Hn.
  - assert (n = 0) as -> by (cbn in Hn; lia). rewrite Nat.add_0_r. cbn [be_bytes]. rewrite app_nil_r.
    induction k as [|k IHk]; [done|]. cbn [be_bytes replicate]. rewrite Z.div_0_l, IHk by lia. change (0 mod 256) with 0.
    by rewrite <- replicate_cons_app.
  - rewrite Nat.add_succ_r. cbn [be_bytes]. rewrite IH, app_assoc; [done|]. rewrite pow256_S in Hn.
    split; [apply Z.div_pos; lia|]. apply Z.div_lt_upper_bound; lia.
Qed.

Lemma pad_min n : 0 < n < 256 ^ Z.of_nat SER_NUM_MAX_SZ ->
  replicate (SER_NUM_MAX_SZ - num_bytes n) 0 ++ be_min n = be_bytes SER_NUM_MAX_SZ n.
Proof.
  intros Hn. pose proof (num_bytes_bound n _ Hn). unfold be_min. rewrite <- be_bytes_pad.
  - f_equal. lia.
  - split; [lia|]. apply num_bytes_enough. lia.
Qed.

Lemma be_bytes_inj k n m : 0 <= n < 256 ^ Z.of_nat k -> 0 <= m < 256 ^ Z.of_nat k -> be_bytes k n = be_bytes k m -> n = m.
Proof. intros Hn Hm H. by rewrite <- (be_val_be_bytes k n Hn), <- (be_val_be_bytes k m Hm), H. Qed.

Lemma hex_upper_digit : hex_digit hex_upper.
Proof. intros d Hd. hex_cases d Hd. Qed.

(** ** OpenSSL's conversions, as documented *)

Class BnText (BN_bn2hex : Z -> option (list Z)) (BN_bn2bin : Z -> list Z) : Prop := {
  (* two digits in upper case for each byte, without leading zero bytes *)
  bn2hex_spec : forall n, 0 < n -> BN_bn2hex n = Some (concat (map (hex_pair hex_upper) (be_min n)));
  (* big-endian, without leading zero bytes *)
  bn2bin_spec : forall n, 0 < n -> BN_bn2bin n = be_min n }.

Section serials.
Context (BN_bn2hex : Z -> option (list Z)) (BN_bn2bin : Z -> list Z) (hex_to_string : list Z -> option string).
Context `{HBN : !BnText BN_bn2hex BN_bn2bin}.

Lemma sn_text_bytes n : 0 < n < 256 ^ Z.of_nat SER_NUM_MAX_SZ ->
  sn_text (concat (map (hex_pair hex_upper) (be_min n))) = concat (map (hex_pair hex_upper) (be_bytes SER_NUM_MAX_SZ n)).
Proof.
  intros Hn. unfold sn_text. rewrite <- (pad_min n Hn), map_app, concat_app, length_hex_pairs. f_equal.
  unfold be_min. rewrite length_be_bytes. rewrite <- Nat.mul_sub_distr_l. induction (_ - _)%nat as [|k IH]; [done|].
  rewrite Nat.mul_succ_r, Nat.add_comm. cbn [Nat.add replicate map concat]. by rewrite IH.
Qed.

(** The number of a certificate in the 20 bytes of its column. *)
Lemma cert_sn x n : xf_serial x = Some (Some n) -> 0 < n < 2 ^ 160 ->
  exists s, cf_get_sn BN_bn2hex x = inr s /\ sn_bytes s = be_bytes SER_NUM_MAX_SZ n.
Proof.
  intros Hx Hn. change (2 ^ 160) with (256 ^ Z.of_nat SER_NUM_MAX_SZ) in Hn. unfold cf_get_sn.
  rewrite Hx, bn2hex_spec by lia. pose proof (num_bytes_bound n _ Hn). unfold be_min at 1.
  rewrite length_hex_pairs, length_be_bytes. rewrite (proj2 (Nat.ltb_ge _ _)) by lia.
  eexists. split; [reflexivity|]. unfold sn_bytes. rewrite sn_text_bytes by done.
  by rewrite unhexify_digits; [|apply hex_upper_digit|apply be_bytes_ok|].
Qed.

(** The numbers a CRL can name. *)
Lemma sn_valid_spec n : sn_valid n = true <-> 0 < n < 2 ^ 159.
Proof. unfold sn_valid. rewrite andb_true_iff, !Z.ltb_lt. done. Qed.

Lemma sn_entry_bytes n : sn_valid n = true -> sn_entry BN_bn2bin n = be_bytes SER_NUM_MAX_SZ n.
Proof.
  intros Hn%sn_valid_spec. unfold sn_entry. rewrite (bn2bin_spec n) by lia. unfold be_min at 1. rewrite length_be_bytes.
  apply pad_min. split; [lia|]. change (256 ^ Z.of_nat SER_NUM_MAX_SZ) with (2 ^ 160). etransitivity; [apply Hn|done].
Qed.

Lemma snlist_spec rev sns : snlist_loop BN_bn2bin rev = inr sns -> (length sns <= length rev)%nat /\
  forall e, e ∈ sns <-> exists n, RevSn n ∈ rev /\ sn_valid n = true /\ e = be_bytes SER_NUM_MAX_SZ n.
Proof.
  revert sns. induction rev as [|r rev IH]; intros sns H; cbn [snlist_loop] in H.
  - injection H as <-. split; [done|]. intros e. rewrite elem_of_nil. split; [done|]. by intros (n & ?%elem_of_nil & _).
  - destruct r as [| | |bn]; [done..|]. destruct (snlist_loop BN_bn2bin rev) as [|l]; [done|]. injection H as <-.
    destruct (IH l eq_refl) as [Hlen Hin]. destruct (sn_valid bn) eqn:Ev.
    + split; [cbn; lia|]. intros e. rewrite elem_of_cons, Hin, sn_entry_bytes by done. split.
      * intros [->|(n & Hn & Hv & ->)]; [exists bn; split; [by left|done]|exists n; split; [by right|done]].
      * intros (n & [[= ->]|Hn]%elem_of_cons & Hv & ->); [by left|right; by exists n].
    + split; [cbn; lia|]. intros e. rewrite Hin. split; intros (n & Hn & Hv & ->); exists n.
      * split; [by right|done].
      * apply elem_of_cons in Hn as [[= ->]|Hn]; [congruence|done].
Qed.
End serials.

Lemma crl_row_sns {X509} bn2hex bn2bin hts fname (c : crl_fields_view X509) cl : x509_crl_row bn2hex bn2bin hts fname c = inr cl ->
  exists sns, snlist_loop bn2bin (xr_revoked c) = inr sns /\ ((length sns <= length (xr_revoked c))%nat ->
    take (Z.to_nat (l_snlen cl)) (crl_sns cl) = sns).
Proof.
  unfold x509_crl_row. destruct (crf_get_issuer c); [done|]. destruct (crf_get_next c); [done|].
  destruct (get_sig _); [done|]. destruct (snlist_loop _ _) as [|sns] eqn:Es; [done|].
  destruct (crf_result _ _ _ _); [done|]. intros [= <-]. exists sns. split; [done|]. intros Hlen.
  unfold crl_sns. cbn [l_snlen l_snlist]. rewrite Nat2Z.id. destruct (Nat.eqb_spec (length (xr_revoked c)) 0) as [E|].
  - assert (length sns = 0%nat) as El by lia. rewrite El. by destruct sns.
  - by rewrite take_app_length.
Qed.

Lemma row_serial bn2hex hts fname x cf sn : x509_row bn2hex hts fname x = inr cf -> cf_get_sn bn2hex x = inr sn ->
  c_sn cf = sn_bytes sn.
Proof.
  unfold x509_row. destruct (cf_get_subject x); [done|]. destruct (cf_get_issuer x); [done|]. intros H E. rewrite E in H.
  destruct (cf_get_from x); [done|]. destruct (cf_get_to x); [done|]. destruct (get_sig _); [done|].
  destruct (cfx_result _); [done|]. by injection H as <-.
Qed.

(** C16: Serial numbers. A CRL's row lists the certificate that a row was made from just if
    the CRL lists the certificate's number, for all numbers that RFC 5280 allows
    (positive, at most 20 bytes): [cert2fields] makes the bytes through a text in
    hexadecimal, [crl2fields] directly, and it drops the numbers that are not allowed.
    (OpenSSL's conversions do what their documentation says.) *)
Theorem serials_agree bn2hex bn2bin hts {X509} cname lname x (c : crl_fields_view X509) cf cl n :
  BnText bn2hex bn2bin -> x509_row bn2hex hts cname x = inr cf -> x509_crl_row bn2hex bn2bin hts lname c = inr cl ->
  xf_serial x = Some (Some n) -> 0 < n < 2 ^ 159 ->
  length (c_sn cf) = SER_NUM_MAX_SZ /\ (crl_has (c_sn cf) cl = true <-> RevSn n ∈ xr_revoked c).
Proof.
  intros HBN Hcf Hcl Hx Hn. assert (Hn' : 0 < n < 2 ^ 160) by (split; [lia|]; etransitivity; [apply Hn|done]).
  destruct (cert_sn bn2hex bn2bin x n Hx Hn') as (s & Hs & Hb). rewrite (row_serial _ _ _ _ _ _ Hcf Hs), Hb.
  split; [apply length_be_bytes|]. destruct (crl_row_sns _ _ _ _ _ _ Hcl) as (sns & Hsns & Ht).
  destruct (snlist_spec bn2hex bn2bin _ _ Hsns) as [Hlen Hin]. unfold crl_has. rewrite Ht by done.
  rewrite existsb_exists. split.
  - intros (e & He & ->%bool_decide_eq_true). apply list_elem_of_In, Hin in He as (m & Hm & Hv & E).
    apply sn_valid_spec in Hv. apply be_bytes_inj in E as ->; [done|..].
    + change (256 ^ Z.of_nat SER_NUM_MAX_SZ) with (2 ^ 160). lia.
    + change (256 ^ Z.of_nat SER_NUM_MAX_SZ) with (2 ^ 160). split; [lia|]. etransitivity; [apply Hv|done].
  - intros Hm. exists (be_bytes SER_NUM_MAX_SZ n). split; [|by apply bool_decide_eq_true].
    apply list_elem_of_In, Hin. exists n. split; [done|]. split; [by apply sn_valid_spec|done].
Qed.

(** ** Examples *)

Definition s_bn2hex (n : Z) : option (list Z) := Some (concat (map (hex_pair hex_upper) (be_min n))).
Definition s_hts (l : list Z) : option string := Some (chars (hex_colons l)).
Definition s_date : date_view := DateText (CertExt.chars "150102030405Z").
Definition s_ski : X509_EXTENSION :=
  {| ext_nid := NID_subject_key_identifier; ext_critical := false; ext_value := Some (XKeyId [1; 171]) |}.
(** A key identifier of the authority without the key identifier. *)
Definition s_aki : X509_EXTENSION :=
  {| ext_nid := NID_authority_key_identifier; ext_critical := false; ext_value := Some (XAuthKeyId None true true) |}.
Definition s_x (exts : list X509_EXTENSION) : x509_fields :=
  mkX509Fields (Some "s"%string) (Some "i"%string) (Some (Some 1000)) s_date s_date (Some [1; 2]) exts.
Definition s_crl : crl_fields_view unit :=
  mkCrlView (Some "i"%string) s_date s_date (Some [7]) false [RevSn 5; RevSn (2 ^ 159); RevSn 1000; RevSn 0]
    [mkCrlExt goodoid_cRLNumber (Some (CxNumber (Some 1))); mkCrlExt goodoid_authKeyId (Some (CxAki (Some [3])))] (fun _ => 1).

#[local] Instance s_bn : BnText s_bn2hex be_min.
Proof. by split. Qed.

Lemma serials_agree_witness : exists cf cl,
  x509_row s_bn2hex s_hts "c.cer" (s_x [s_ski]) = inr cf /\ x509_crl_row s_bn2hex be_min s_hts "l.crl" s_crl = inr cl /\
  l_snlen cl = 2 /\ crl_has (c_sn cf) cl = true.
Proof.
  eexists _, _. split; [vm_compute; reflexivity|]. split; [vm_compute; reflexivity|]. split; [reflexivity|].
  refine (proj2 (proj2 (serials_agree s_bn2hex be_min s_hts "c.cer" "l.crl" (s_x [s_ski]) s_crl _ _ 1000
    s_bn ltac:(vm_compute; reflexivity) ltac:(vm_compute; reflexivity) eq_refl ltac:(done))) _).
  cbn. right. right. left.
Defined.

(** The error of an extension that is not needed is forgotten when another one follows:
    the order of the extensions decides whether the certificate is refused. *)
Example extension_order :
  x509_row s_bn2hex s_hts "c.cer" (s_x [s_ski; s_aki]) = inl ERR_SCM_XPROFILE /\
  exists cf, x509_row s_bn2hex s_hts "c.cer" (s_x [s_aki; s_ski]) = inr cf /\ c_aki cf = None.
Proof. split; [vm_compute; reflexivity|]. eexists. split; [vm_compute; reflexivity|done]. Qed.
