(* ===== verification/RpkiDelete.v ===== *)
(** * Deleting objects, and adding CRLs ([src/lib/rpki/sqhl.c], [src/lib/rpki/sqcon.c])

    [delete_object] takes an object away with its end-entity certificate and what is
    below; [add_crl] checks a CRL, stores it and applies it. The decoders
    [get_casn_file] and [crl2fields] are parameters; what [crl2fields] returns is a
    row (of which the local id, the directory and the number of serial numbers in
    use are not set yet) and how a certificate's key verifies the CRL. Names do not
    begin with [^x], which [quote_value] takes for a number, and paths fit their
    buffers. *)

From stdpp Require Import strings.
From S2P Require Import Prelude Sql RpkiObject CmsValidate Manifest RpkiDb RpkiVerify RpkiAdd CertExt CertProfile CrlProfile RpkiMft.

Local Open Scope est_scope.

Definition ERR_SCM_NOSUCHTAB : Z := -7.

Definition set_dirs (l : list string) (t : tables) : tables :=
  mkTables (certs t) (crls t) (roas t) (roa_prefixes t) (mfts t) (gbrs t) l (rootdir t).

(** [DELETE FROM tab WHERE filename=file AND dir_id=..]; the prefixes of a ROA go
    with it. *)
Definition named {A} (f : A -> mrow) (file dir : string) (x : A) : bool :=
  String.eqb (m_file (f x)) file && String.eqb (m_dir (f x)) dir.
Definition del_named (tb : tab) (file dir : string) (t : tables) : tables :=
  match tb with
  | CertTab => set_certs (List.filter (fun c => negb (named mrow_cert file dir c)) (certs t)) t
  | CrlTab => set_crls (List.filter (fun l => negb (named mrow_crl file dir l)) (crls t)) t
  | RoaTab =>
      set_roas (List.filter (fun o => negb (named mrow_obj file dir o)) (roas t))
        (List.filter (fun p => negb (existsb (fun o => named mrow_obj file dir o && (o_id o =? roa_local_id p)) (roas t)))
           (roa_prefixes t)) t
  | MftTab => set_mfts (List.filter (fun o => negb (named mrow_obj file dir o)) (mfts t)) t
  | GbrTab => set_gbrs (List.filter (fun o => negb (named mrow_obj file dir o)) (gbrs t)) t
  end.

Section handlers.
Context (sql_ok : nat -> bool) (clock : nat -> option Z) (in_order : forall A, list A -> list A)
  (esc : string -> string).
Arguments in_order {A}.

(** ** Directories *)

(** [searchorcreatescm] on the table of directories; a failed search is taken for
    one that finds nothing. *)
Definition findorcreatedir (dirname : string) : M Z :=
  if String.eqb dirname EmptyString then est_ret ERR_SCM_INVALARG
  else
    let* sta := searchscm sql_ok (@in_order) dirs (String.eqb dirname) (fun _ => est_ret 0) in
    if sta =? 0 then est_ret 0
    else
      let* ok := statementscm sql_ok in
      if negb ok then est_ret ERR_SCM_SQL
      else insertscm sql_ok (fun _ => false) (fun t => set_dirs (dirs t ++ [dirname]) t).

(** The top directory; [None] on every error. *)
Definition retrieve_tdir : M (option string) :=
  let* ok := statementscm sql_ok in
  if negb ok then est_ret None else est_gets (fun s => rootdir (tabs s)).

(** ** Deletion *)

Definition type_table (typ : Z) : option tab :=
  if zin typ [OT_CER; OT_CER + OT_PEM_OFFSET; OT_UNKNOWN; OT_UNKNOWN + OT_PEM_OFFSET] then Some CertTab
  else if zin typ [OT_CRL; OT_CRL + OT_PEM_OFFSET] then Some CrlTab
  else if zin typ [OT_ROA; OT_ROA + OT_PEM_OFFSET] then Some RoaTab
  else if zin typ [OT_MAN; OT_MAN + OT_PEM_OFFSET] then Some MftTab
  else if zin typ [OT_GBR] then Some GbrTab
  else None.

Definition has_ee (typ : Z) : bool :=
  zin typ [OT_ROA; OT_ROA + OT_PEM_OFFSET; OT_MAN; OT_MAN + OT_PEM_OFFSET; OT_GBR].

(** The directory of the rows: [outdir] if it is given and known, or else the one
    numbered [dir_id]; and [sta], which is not set in the second case. *)
Definition find_dir (outdir dir_id : option string) : M (Z + string * option Z) :=
  match outdir, dir_id with
  | Some outdir, _ =>
      let* sta := searchscm sql_ok (@in_order) dirs (String.eqb outdir) (fun _ => est_ret 0) in
      est_ret (if sta <? 0 then inl sta else inr (outdir, Some sta))
  | None, Some dir => est_ret (inr (dir, None))
  | None, None => est_ret (inl ERR_SCM_INVALARG)
  end.

(** [delete_object] up to its call of itself. *)
Definition delete_row (fuel : nat) (outfile : string) (outdir dir_id : option string) : M Z :=
  let* d := find_dir outdir dir_id in
  match d with
  | inl sta => est_ret sta
  | inr (dir, sta) =>
      match type_table (infer_filetype outfile) with
      | None => est_ret ERR_SCM_NOSUCHTAB
      | Some tb =>
          let* sta := match tb, sta with
                      | CertTab, _ => searchscm sql_ok (@in_order) certs (named mrow_cert outfile dir)
                                        (revoke_cert_and_children sql_ok clock (@in_order) esc fuel)
                      | _, Some sta => est_ret sta
                      | _, None => est_exit DbUndefined
                      end in
          if sta <? 0 then est_ret sta
          else statementscm_no_data sql_ok (del_named tb outfile dir)
      end
  end.

(** [&str[n]], which must not be behind the end. *)
Definition from_index (n : nat) (s : string) : option string :=
  if (n <=? String.length s)%nat then Some (String.substring n (String.length s - n) s) else None.

Definition ee_file (outfile : string) : string := (outfile +:+ ".cer")%string.
Definition ee_top (tdir : string) : string := (tdir +:+ "/EEcertificates")%string.

(** Where the end-entity certificates of the objects in [outdir] are. *)
Definition ee_dir (tdir outdir : string) : option string :=
  option_map (fun rest => (ee_top tdir +:+ rest)%string) (from_index (String.length tdir) outdir).

(** The recursive call is for a name that ends in [.cer], so that it does not call
    itself again ([ee_filetype]). [dir_id] is [None] for 0. *)
Definition delete_object (fuel : nat) (outfile : string) (outdir dir_id : option string) : M Z :=
  let* sta := delete_row fuel outfile outdir dir_id in
  if negb (sta =? 0) then est_ret sta
  else if has_ee (infer_filetype outfile) then
    let* tdir := retrieve_tdir in
    match tdir, outdir with
    | Some tdir, Some outdir =>
        let* _ := findorcreatedir (ee_top tdir) in
        match ee_dir tdir outdir with
        | None => est_exit DbUndefined
        | Some dir => delete_row fuel (ee_file outfile) (Some dir) None
        end
    | _, _ => est_exit DbUndefined
    end
  else est_ret sta.

(** ** CRLs *)

Context {X509 : Type} (E : env X509) (strict_profile_checks : bool).
Context (sha256 : list Z -> option (list Z)) (open_file : string -> option (option (list Z))).
Context (files_regexp : string -> option (string -> bool)) (casn_manifest : string -> list FileAndHash).
Context (crl_file : string -> option CertificateRevocationList)
  (crl2fields : string -> string -> Z -> Z + crl_row * (X509 -> Z)).

(** The serial numbers of the CRL, one after the other; results do not count. *)
Fixpoint revoke_serials (fuel : nat) (issuer aki : string) (sns : list (list Z)) : M unit :=
  match sns with
  | [] => est_ret tt
  | sn :: sns =>
      let* _ := revoke_cert_by_serial sql_ok clock (@in_order) esc fuel issuer aki sn in
      revoke_serials fuel issuer aki sns
  end.

Definition crl_with (flags : Z) (dir : string) (cf : crl_row) : crl_row :=
  mkCrl (l_id cf) (l_file cf) dir (l_issuer cf) (l_aki cf) (l_sig cf) (l_snlen cf) (l_sninuse cf) (l_snlist cf) flags
    (l_hash cf).

(** A CRL whose fields have no authority key identifier would make the code print a
    null pointer. *)
Definition add_crl (fuel : nat) (useParacerts : bool) (outfile outfull dir : string) (typ : Z) : M Z :=
  match crl_file outfull with
  | None => est_ret ERR_SCM_INVALASN
  | Some crl =>
      let* sta := or_undefined (crl_profile_chk strict_profile_checks crl) in
      if negb (sta =? 0) then est_ret sta
      else match crl2fields outfile outfull typ with
      | inl sta => est_ret sta
      | inr (cf, crl_verify) =>
          let* aki := or_undefined (l_aki cf) in
          let* r := verify_crl sql_ok (@in_order) E useParacerts crl_verify aki (Some (l_issuer cf)) in
          let '(sta, chainOK) := r in
          if negb (sta =? 0) then est_ret sta
          else
            let* r := addStateToFlags sql_ok (@in_order) sha256 open_file files_regexp casn_manifest
                        (l_flags cf) chainOK (l_file cf) (Some outfull) in
            let '(sta, flags) := r in
            if negb (sta =? 0) then est_ret sta
            else
              let* sta := add_crl_internal sql_ok (@in_order) esc (crl_with flags dir cf) in
              (if (sta =? 0) && chainOK then
                 let sns := from_option id [] (l_snlist cf) in
                 if Z.of_nat (length sns) <? l_snlen cf then est_exit DbUndefined
                 else revoke_serials fuel (l_issuer cf) aki (take (Z.to_nat (l_snlen cf)) sns)
               else est_ret tt) ;;;
              est_ret sta
      end
  end.
End handlers.
