(* ===== verification/RpkiDeleteThm.v ===== *)
(** * Deleting objects, and adding CRLs: theorems *)

From stdpp Require Import strings.
From S2P Require Import Prelude Sql RpkiObject CmsValidate Manifest RpkiDb RpkiDbFacts RpkiDbChain RpkiDbRevoke RpkiDbThm RpkiVerify RpkiAdd RpkiAddThm RpkiVerifyThm CertExt CertProfile CrlProfile CrlThm RpkiMft RpkiMftThm RpkiDelete.

Local Open Scope est_scope.

(** ** File types *)

Lemma substring_app x y : String.substring (String.length x) (String.length y) (x +:+ y) = y.
Proof.
  induction x as [|a x IH]; [|exact IH]. change (EmptyString +:+ y) with y.
  induction y as [|b y IHy]; [done|]. cbn in IHy |- *. by rewrite IHy.
Qed.

Lemma length_append x y : String.length (x +:+ y) = (String.length x + String.length y)%nat.
Proof. induction x as [|a x IH]; [done|]. exact (f_equal S IH). Qed.

Lemma ends_with_app x sfx : ends_with (x +:+ sfx) sfx = true.
Proof.
  unfold ends_with. rewrite length_append, (proj2 (Nat.ltb_ge _ _)) by lia.
  replace (_ + _ - _)%nat with (String.length x) by lia. rewrite substring_app. apply String.eqb_refl.
Qed.

Lemma ee_filetype outfile : infer_filetype (ee_file outfile) = OT_CER.
Proof. unfold infer_filetype, filetype_rules, ee_file. cbn [first_rule]. by rewrite ends_with_app. Qed.

Lemma filetype_table fname : exists tb, type_table (infer_filetype fname) = Some tb.
Proof.
  unfold infer_filetype.
  assert (H : Forall (fun r => exists tb, type_table (snd r) = Some tb) filetype_rules) by (repeat constructor; eexists; reflexivity).
  induction H as [|[sfx typ] rules Hr _ IH]; [by eexists|]. cbn. by destruct (ends_with _ _).
Qed.

Lemma ee_not_cert typ : has_ee typ = true -> type_table typ <> Some CertTab.
Proof.
  unfold has_ee. rewrite zin_In. intros H.
  repeat (apply elem_of_cons in H as [->|H]; [discriminate|]). by apply not_elem_of_nil in H.
Qed.

(** ** Exactly the rows that are to go *)

Record gone_exactly (target : tab -> string -> string -> Prop) (t t' : tables) : Prop := {
  ge_from : forall tb r', r' ∈ rows_of tb t' ->
    exists r, r ∈ rows_of tb t /\ same_row r r' /\ ~ target tb (m_file r) (m_dir r);
  ge_stay : forall tb r, r ∈ rows_of tb t -> ~ target tb (m_file r) (m_dir r) ->
    exists r', r' ∈ rows_of tb t' /\ same_row r r' }.

Lemma gone_none target t : (forall tb r, r ∈ rows_of tb t -> ~ target tb (m_file r) (m_dir r)) -> gone_exactly target t t.
Proof.
  intros H. split; intros tb r Hr; [|intros _]; exists r; (split; [done|]); [|done]. split; [done|by apply H].
Qed.

Lemma gone_trans T1 T2 t1 t2 t3 : gone_exactly T1 t1 t2 -> gone_exactly T2 t2 t3 ->
  gone_exactly (fun tb f d => T1 tb f d \/ T2 tb f d) t1 t3.
Proof.
  intros [F1 S1] [F2 S2]. split.
  - intros tb r3 H3. destruct (F2 tb r3 H3) as (r2 & H2 & (Ei & Ef & Ed) & N2), (F1 tb r2 H2) as (r1 & H1 & (Ei' & Ef' & Ed') & N1).
    exists r1. split; [done|]. split; [split; [|split]; congruence|]. rewrite <- Ef', <- Ed' in N1 |- *. tauto.
  - intros tb r1 H1 N. destruct (S1 tb r1 H1) as (r2 & H2 & (Ei & Ef & Ed)); [tauto|].
    destruct (S2 tb r2 H2) as (r3 & H3 & (Ei' & Ef' & Ed')); [rewrite Ef, Ed; tauto|].
    exists r3. split; [done|]. split; [|split]; congruence.
Qed.

Lemma gone_ext T T' t t' : (forall tb f d, T tb f d <-> T' tb f d) -> gone_exactly T t t' -> gone_exactly T' t t'.
Proof.
  intros H [F S]. split.
  - intros tb r' Hr'. destruct (F tb r' Hr') as (r & Hr & Hs & N). exists r. by rewrite <- H.
  - intros tb r Hr N. apply S; [done|by rewrite H].
Qed.

Definition own (tb0 : tab) (file dir : string) (tb : tab) (f d : string) : Prop := tb = tb0 /\ f = file /\ d = dir.

Lemma named_spec {A} (f : A -> mrow) file dir x : named f file dir x = true <-> m_file (f x) = file /\ m_dir (f x) = dir.
Proof. unfold named. by rewrite andb_true_iff, !String.eqb_eq. Qed.

Lemma del_named_rows tb file dir t :
  rows_of tb (del_named tb file dir t) = List.filter (fun r => negb (named id file dir r)) (rows_of tb t).
Proof.
  assert (H : forall A (f : A -> mrow) l, map f (List.filter (fun x => negb (named f file dir x)) l) =
    List.filter (fun r => negb (named id file dir r)) (map f l)).
  { intros A f l. induction l as [|x l IH]; [done|]. cbn. change (named id file dir (f x)) with (named f file dir x).
    destruct (negb _); cbn; by rewrite IH. }
  destruct tb; cbn; rewrite <- H; reflexivity.
Qed.

Lemma del_named_other tb tb' file dir t : tb' <> tb -> rows_of tb' (del_named tb file dir t) = rows_of tb' t.
Proof. by destruct tb, tb'. Qed.

Lemma del_named_gone tb file dir t : gone_exactly (own tb file dir) t (del_named tb file dir t).
Proof.
  split.
  - intros tb' r' Hr'. exists r'. destruct (decide (tb' = tb)) as [->|Hn].
    + rewrite del_named_rows in Hr'. apply list_elem_of_In, List.filter_In in Hr' as [Hr' Hf].
      split; [by apply list_elem_of_In|]. split; [done|]. intros (_ & Ef & Ed). apply negb_true_iff in Hf.
      assert (named id file dir r' = true) by (by apply named_spec). congruence.
    + rewrite del_named_other in Hr' by done. split; [done|]. split; [done|]. by intros [? _].
  - intros tb' r Hr N. exists r. split; [|done]. destruct (decide (tb' = tb)) as [->|Hn].
    + rewrite del_named_rows. apply list_elem_of_In, List.filter_In. split; [by apply list_elem_of_In|].
      apply negb_true_iff, not_true_iff_false. intros [Ef Ed]%named_spec. by destruct N.
    + by rewrite del_named_other.
Qed.

Lemma del_named_good esc tb file dir t : tb <> CertTab -> good esc t -> good esc (del_named tb file dir t).
Proof.
  intros Ht G. apply (sub_good esc t); [| |done].
  - destruct tb; [done|..]; split; cbn; try done; apply filter_sub.
  - destruct (g_ids _ _ G) as [A B C D E]. destruct tb; [done|..]; split; cbn; try done; by apply filter_nodup.
Qed.

(** A new directory changes no row. *)
Lemma dirs_good esc l t : good esc t -> good esc (set_dirs l t).
Proof. intros G. apply (sub_good esc t); [by split|by destruct (g_ids _ _ G); split|done]. Qed.

Section run.
Context (sql_ok : nat -> bool) (clock : nat -> option Z)
  (in_order : forall A, list A -> list A) (esc : string -> string) (now : Z).
Context (Hsql : forall n, sql_ok n = true) (Hclock : forall n, clock n = Some now)
  (Horder : forall A (l : list A), in_order A l ≡ₚ l).

(** A search that only looks. *)
Lemma runs_look {A} (table : tables -> list A) where_ s :
  runs (searchscm sql_ok in_order table where_ (fun _ => est_ret 0)) s
    (if existsb where_ (table (tabs s)) then 0 else ERR_SCM_NODATA) (tabs s).
Proof.
  eapply runs_bind; [by apply runs_statement|]. intros s1 H1. exists s1. split; [|done]. cbn [negb].
  unfold est_bind, est_gets. rewrite H1, callbacks_zero.
  rewrite (Permutation_length (Horder _ _)), filter_nil. by destruct (existsb _ _).
Qed.

Lemma existsb_dir d t : d ∈ dirs t -> existsb (String.eqb d) (dirs t) = true.
Proof. intros Hd. apply existsb_exists. exists d. rewrite String.eqb_refl. by apply list_elem_of_In in Hd. Qed.

(** Rows are in directories that are known. *)
Definition dirs_ok (t : tables) : Prop := forall tb r, r ∈ rows_of tb t -> m_dir r ∈ dirs t.

Lemma less_gone file dir t t' : ids_ok t -> revoked esc (found in_order (named mrow_cert file dir) t) t t' ->
  gone_exactly (own CertTab file dir) t t'.
Proof.
  intros Hids R. pose proof (rv_less _ _ _ _ R) as L. split.
  - intros tb r' Hr'. destruct (decide (tb = CertTab)) as [->|Hn].
    + apply list_elem_of_fmap in Hr' as (c' & -> & Hc').
      destruct (revoked_in in_order esc Horder _ t t' c' Hids R Hc') as (c & Hc & (f & -> & _) & Hw).
      exists (mrow_cert c). split; [by apply list_elem_of_fmap_2|]. split; [done|]. intros (_ & Ef & Ed).
      assert (named mrow_cert file dir c = true) by (by apply named_spec). congruence.
    + destruct (less_rows _ _ tb r' L Hr') as (r & Hr & Hs & _). exists r. split; [done|]. split; [done|]. by intros [? _].
  - intros tb r Hr N. destruct (decide (tb = CertTab)) as [->|Hn].
    + apply list_elem_of_fmap in Hr as (c & -> & Hc).
      assert (c_id c ∈ c_id <$> certs t') as Hin.
      { apply (revoked_ids in_order esc Horder _ t t' c Hids R Hc). apply not_true_iff_false.
        intros [Ef Ed]%named_spec. by destruct N. }
      apply list_elem_of_fmap in Hin as (c' & Ei & Hc'). exists (mrow_cert c').
      split; [by apply list_elem_of_fmap_2|]. destruct (le_certs _ _ L c' Hc') as (c0 & Hc0 & f & -> & _).
      by rewrite (same_id certF (certs t) c c0 (id_certs _ Hids) Hc Hc0 Ei).
    + destruct (less_stays _ _ tb r L Hn Hr) as (r' & Hr' & Ei). exists r'. split; [done|].
      destruct (less_rows _ _ tb r' L Hr') as (r0 & Hr0 & Hs & _).
      rewrite (row_id tb t r r0 Hids Hr Hr0); [done|]. destruct Hs as [E _]. congruence.
Qed.

(** Nothing is left for the second statement on certificates. *)
Lemma del_named_done file dir t : (forall r, r ∈ rows_of CertTab t -> ~ (m_file r = file /\ m_dir r = dir)) ->
  del_named CertTab file dir t = t.
Proof.
  intros H. cbn. assert (List.filter (fun c => negb (named mrow_cert file dir c)) (certs t) = certs t) as ->.
  - cbn in H. induction (certs t) as [|c l IH]; [done|]. cbn. assert (named mrow_cert file dir c = false) as ->.
    { apply not_true_iff_false. intros Hn%named_spec. apply (H (mrow_cert c)); [by left|done]. }
    cbn. f_equal. apply IH. intros r Hr. apply H. by right.
  - by destruct t.
Qed.

Lemma find_dir_runs outdir dir_id s :
  runs (find_dir sql_ok in_order (Some outdir) dir_id) s
    (if existsb (String.eqb outdir) (dirs (tabs s)) then inr (outdir, Some 0) else inl ERR_SCM_NODATA) (tabs s).
Proof.
  eapply runs_bind; [apply runs_look|]. intros s1 H1. exists s1. split; [|done]. unfold est_ret. by destruct (existsb _ _).
Qed.

(** CRLs and signed objects. *)
Lemma delete_object_row outfile outdir dir_id tb s : outdir ∈ dirs (tabs s) ->
  type_table (infer_filetype outfile) = Some tb -> tb <> CertTab ->
  ends (fun n => delete_row sql_ok clock in_order esc n outfile (Some outdir) dir_id) s
    (fun v t' => v = 0 /\ t' = del_named tb outfile outdir (tabs s)).
Proof.
  intros Hdir Htb Hn. eapply ends_run; [apply find_dir_runs|]. intros s1 H1. rewrite existsb_dir, Htb by done.
  eapply (ends_bind _ _ _ (fun v t => v = 0 /\ t = tabs s)); [destruct tb; [done|..]; by apply ends_ret|].
  intros ? s2 [-> H2]. cbn [Z.ltb Z.compare]. eapply ends_runs; [by apply runs_no_data|]. by rewrite H2.
Qed.

(** Certificates. *)
Lemma delete_cert_row outfile outdir dir_id s : good esc (tabs s) -> dirs_ok (tabs s) ->
  type_table (infer_filetype outfile) = Some CertTab ->
  ends (fun n => delete_row sql_ok clock in_order esc n outfile (Some outdir) dir_id) s (fun v t' =>
    (v = 0 \/ v = ERR_SCM_NODATA) /\ good esc t' /\ gone_exactly (own CertTab outfile outdir) (tabs s) t').
Proof.
  intros G Hd Htb. pose proof (g_ids _ _ G) as Hids. eapply ends_run; [apply find_dir_runs|]. intros s1 H1.
  destruct (existsb (String.eqb outdir) (dirs (tabs s))) eqn:Ed.
  2: { apply ends_ret. rewrite H1. split; [by right|]. split; [done|]. apply gone_none.
    intros tb' r Hr (-> & _ & Ed'). apply Hd in Hr. rewrite Ed' in Hr. apply existsb_dir in Hr. congruence. }
  rewrite Htb. eapply ends_bind; [apply (search_revoke sql_ok clock in_order esc now); [done..|by rewrite H1]|].
  cbn beta. intros v s2 [Hv R]. rewrite H1 in R. pose proof (less_gone _ _ _ _ Hids R) as Hgone.
  destruct Hv as [->| ->]; cbn [Z.ltb Z.compare ERR_SCM_NODATA].
  - eapply ends_runs; [by apply runs_no_data|]. rewrite del_named_done.
    + split; [by left|]. split; [apply R|done].
    + intros r Hr [Ef Ed']. destruct (ge_from _ _ _ Hgone CertTab r Hr) as (r0 & Hr0 & (_ & Ef0 & Ed0) & N).
      apply N. split; [done|]. split; congruence.
  - apply ends_ret. split; [by right|]. split; [apply R|done].
Qed.

Lemma gone_dirs l t : gone_exactly (fun _ _ _ => False) t (set_dirs l t).
Proof.
  assert (E : forall tb, rows_of tb (set_dirs l t) = rows_of tb t) by (by intros []).
  split; intros tb r Hr; rewrite E in *; [|intros _]; exists r; (split; [done|]); [|done].
  split; [done|by intros []].
Qed.

Lemma findorcreatedir_runs d s : exists v l, runs (findorcreatedir sql_ok in_order d) s v (set_dirs (dirs (tabs s) ++ l) (tabs s)).
Proof.
  assert (E : set_dirs (dirs (tabs s) ++ []) (tabs s) = tabs s) by (rewrite app_nil_r; by destruct (tabs s)).
  unfold findorcreatedir. destruct (String.eqb _ _); [exists ERR_SCM_INVALARG, []; rewrite E; apply runs_ret|].
  destruct (existsb (String.eqb d) (dirs (tabs s))) eqn:Ed.
  - exists 0, []. rewrite E. eapply runs_bind; [apply runs_look|]. intros s1 H1. rewrite Ed. cbn [Z.eqb].
    exists s1. done.
  - exists 0, [d]. eapply runs_bind; [apply runs_look|]. intros s1 H1. rewrite Ed. cbn [Z.eqb ERR_SCM_NODATA].
    eapply runs_bind; [by apply runs_statement|]. intros s2 H2. cbn [negb].
    eapply runs_bind; [by apply runs_statement|]. intros s3 H3.
    eexists. split; [cbn; unfold est_bind, est_gets, est_modify; cbn; reflexivity|]. cbn. congruence.
Qed.

Lemma tdir_runs s : runs (retrieve_tdir sql_ok) s (rootdir (tabs s)) (tabs s).
Proof. eapply runs_bind; [by apply runs_statement|]. intros s1 H1. exists s1. cbn. unfold est_gets. by rewrite H1. Qed.
End run.

(** ** Deleting an object *)

(** The rows that go with [outfile] in [outdir]: its own, and that of the end-entity
    certificate of a signed object. *)
Definition delete_target (tdir outfile outdir : string) (tb : tab) (f d : string) : Prop :=
  Some tb = type_table (infer_filetype outfile) /\ f = outfile /\ d = outdir \/
  has_ee (infer_filetype outfile) = true /\ tb = CertTab /\ f = ee_file outfile /\ Some d = ee_dir tdir outdir.

(** C12: Deleting an object ([delete_object], no statement failing) ends with success
    or with "no such row". It removes the rows with that name in that directory,
    for a ROA, a manifest or a ghostbusters record also the row of its end-entity
    certificate below [EEcertificates], and no other row of any table; the promises of
    the tables are kept, so that what was below a removed certificate is marked. *)
Theorem delete_object_exact sql_ok clock in_order esc now outfile outdir dir_id tdir s :
  (forall n, sql_ok n = true) -> (forall n, clock n = Some now) -> (forall A (l : list A), in_order A l ≡ₚ l) ->
  good esc (tabs s) -> dirs_ok (tabs s) -> outdir ∈ dirs (tabs s) -> rootdir (tabs s) = Some tdir ->
  (String.length tdir <= String.length outdir)%nat ->
  ends (fun fuel => delete_object sql_ok clock in_order esc fuel outfile (Some outdir) dir_id) s (fun v t' =>
    (v = 0 \/ v = ERR_SCM_NODATA) /\ good esc t' /\ gone_exactly (delete_target tdir outfile outdir) (tabs s) t').
Proof.
  intros Hsql Hclock Horder G Hd Hdir Hroot Hlen. destruct (filetype_table outfile) as (tb & Htb).
  assert (Hself : forall tb' f d, has_ee (infer_filetype outfile) = false ->
    own tb outfile outdir tb' f d <-> delete_target tdir outfile outdir tb' f d).
  { intros tb' f d Hee. unfold own, delete_target. rewrite Htb, Hee. naive_solver. }
  unfold delete_object. destruct (decide (tb = CertTab)) as [->|Hn].
  { assert (has_ee (infer_filetype outfile) = false) as Hee.
    { apply not_true_iff_false. intros H%ee_not_cert. done. }
    rewrite Hee. eapply ends_bind; [by apply (delete_cert_row sql_ok clock in_order esc now)|].
    cbn beta. intros v s1 (Hv & G1 & Go). destruct (negb _); apply ends_ret; (split; [done|]; split; [done|]);
      eapply gone_ext; [|exact Go| |exact Go]; intros; by apply Hself. }
  eapply ends_bind; [by apply (delete_object_row sql_ok clock in_order esc)|]. cbn beta. intros ? s1 [-> H1]. cbn [Z.eqb negb].
  assert (G1 : good esc (tabs s1)) by (rewrite H1; by apply del_named_good).
  pose proof (del_named_gone tb outfile outdir (tabs s)) as Go1. rewrite <- H1 in Go1.
  destruct (has_ee (infer_filetype outfile)) eqn:Hee.
  2: { apply ends_ret. split; [by left|]. split; [done|]. eapply gone_ext; [|exact Go1]. intros. by apply Hself. }
  assert (Hrest : dirs (tabs s1) = dirs (tabs s) /\ rootdir (tabs s1) = Some tdir) by (rewrite H1; by destruct tb).
  destruct Hrest as [Hds Hr1]. eapply ends_run; [by apply tdir_runs|]. intros s2 H2. rewrite Hr1.
  destruct (findorcreatedir_runs sql_ok in_order Hsql Horder (ee_top tdir) s2) as (v & l & Hrun).
  eapply ends_run; [exact Hrun|]. intros s3 H3. rewrite H2 in H3.
  unfold ee_dir at 1. unfold from_index. rewrite (proj2 (Nat.leb_le _ _) Hlen). cbn [option_map].
  set (d := ee_top tdir +:+ String.substring _ _ outdir).
  assert (Ed : ee_dir tdir outdir = Some d) by (unfold ee_dir, from_index; by rewrite (proj2 (Nat.leb_le _ _) Hlen)).
  assert (Hrows : forall tb', rows_of tb' (tabs s3) = rows_of tb' (tabs s1)) by (intros []; by rewrite H3).
  eapply ends_impl; [apply (delete_cert_row sql_ok clock in_order esc now)|]; try done.
  - rewrite H3. by apply dirs_good.
  - intros tb' r Hr. rewrite Hrows in Hr. destruct (ge_from _ _ _ Go1 tb' r Hr) as (r0 & Hr0 & (_ & _ & E) & _).
    rewrite H3, E. cbn. rewrite Hds. apply elem_of_app. left. by apply (Hd tb').
  - by rewrite ee_filetype.
  - cbn beta. intros w t' (Hw & G' & Go'). split; [done|]. split; [done|].
    eapply gone_ext; [|eapply gone_trans; [exact Go1|eapply gone_trans; [|exact Go']]].
    2: { rewrite H3. apply gone_dirs. }
    intros tb' f d'. unfold own, delete_target. rewrite Htb, Hee, Ed. naive_solver.
Qed.

(** ** Adding a CRL *)

Section crl.
Context (sql_ok : nat -> bool) (clock : nat -> option Z)
  (in_order : forall A, list A -> list A) (esc : string -> string) (now : Z).
Context (Hsql : forall n, sql_ok n = true) (Hclock : forall n, clock n = Some now)
  (Horder : forall A (l : list A), in_order A l ≡ₚ l).
Context {X509 : Type} (E : env X509) (useParacerts : bool).

Lemma parent_cert_returns ski subject s : exists s' r,
  parent_cert sql_ok in_order E useParacerts ski subject s = (s', inr r).
Proof.
  unfold parent_cert, find_parent_cert, est_bind, est_modify, statementscm. cbn. rewrite Hsql. cbn. eauto.
Qed.

(** A chain that is found is one of the tables. *)
Lemma verify_crl_runs crl_verify ski issuer s : esc issuer = issuer ->
  exists sta chainOK, runs (verify_crl sql_ok in_order E useParacerts crl_verify ski (Some issuer)) s (sta, chainOK) (tabs s) /\
    (sta = 0 -> chainOK = true -> supported esc (tabs s) (Some issuer) ski /\
       exists c x, c ∈ certs (tabs s) /\ holds ski (Some issuer) c /\ row_cert E c x /\ 0 < crl_verify x).
Proof.
  intros Hesc. destruct (parent_cert_returns ski (Some issuer) s) as (s1 & r & Hr).
  pose proof (parent_cert_run sql_ok in_order Horder E useParacerts _ _ _ _ _ Hr) as [Ht Hp].
  unfold verify_crl, runs, est_bind. rewrite Hr. destruct r as [[c [x|]]|]; cbn; [|by exists 0, false; split; [eauto|]..].
  destruct (Hp c x eq_refl) as (Hc & Hh & Hx). eexists _, _. split; [exists s1; split; [reflexivity|done]|].
  destruct (Z.leb_spec (crl_verify x) 0); [done|]. intros _ _. split; [|by exists c, x].
  exists c. split; [done|]. destruct Hh as (Hs & Hn & Hv & Hnc). unfold parent_ok.
  rewrite Hs, String.eqb_refl, (Hn _ eq_refl), Hesc, String.eqb_refl, Hv, Hnc. done.
Qed.

Context (sha256 : list Z -> option (list Z)) (open_file : string -> option (option (list Z))).
Context (files_regexp : string -> option (string -> bool)) (casn_manifest : string -> list FileAndHash).

Lemma add_state_runs flags isValid filename fullpath s : hashes_fit sha256 open_file ->
  exists sta on, runs (addStateToFlags sql_ok in_order sha256 open_file files_regexp casn_manifest flags isValid filename
      (Some fullpath)) s (sta, Z.lor (Z.lor flags (if isValid then SCM_FLAG_VALIDATED else SCM_FLAG_NOCHAIN)) on) (tabs s) /\
    (on = 0 \/ on = SCM_FLAG_ONMAN).
Proof.
  intros Hfit. set (fl := Z.lor flags _). unfold addStateToFlags.
  assert (Hman : exists man, runs (match files_regexp filename with
      | None => let* _ := statementscm sql_ok in est_ret None
      | Some m => last_found sql_ok in_order mfts (fun o =>
                    m (mft_files (o_data o)) && flag_test (o_flags o) SCM_FLAG_VALIDATED true)
      end) s man (tabs s)).
  { destruct (files_regexp filename) as [m|].
    - destruct (runs_last sql_ok in_order Hsql Horder mfts (fun o =>
        m (mft_files (o_data o)) && flag_test (o_flags o) SCM_FLAG_VALIDATED true) s) as (r & Hr & _). eauto.
    - exists None. eapply runs_bind; [by apply runs_statement|]. intros s1 H1. by exists s1. }
  destruct Hman as (man & Hman).
  assert (Hno : forall s', tabs s' = tabs s -> runs (est_ret (0, fl)) s' (0, Z.lor fl 0) (tabs s)).
  { intros s' H. exists s'. by rewrite Z.lor_0_r. }
  destruct man as [man|]; [|exists 0, 0; split; [eapply runs_bind; [exact Hman|]; exact Hno|by left]].
  destruct (find (fun fahp => bool_decide (fah_file fahp = codes filename))
    (casn_manifest (path_of (o_dir man) (o_file man)))) as [fah|] eqn:Ef;
    [|exists 0, 0; split; [eapply runs_bind; [exact Hman|]; cbn beta iota; rewrite Ef; exact Hno|by left]].
  destruct (open_file fullpath) as [contents|] eqn:Eo;
    [|exists 0, 0; split; [eapply runs_bind; [exact Hman|]; cbn beta iota; rewrite Ef; exact Hno|by left]].
  destruct (check_file_defined sha256 fah contents None 0) as ([sta out] & Ec).
  { intros c h ->. by apply (Hfit fullpath). }
  eexists _, SCM_FLAG_ONMAN. split; [|by right]. eapply runs_bind; [exact Hman|]. intros s1 H1. cbn beta iota.
  rewrite Ef, Ec. exists s1. split; [reflexivity|done].
Qed.

Definition crl_row_of (nid flags : Z) (dir : string) (cf : crl_row) : crl_row :=
  mkCrl nid (esc (l_file cf)) dir (esc (l_issuer cf)) (escape_opt esc (l_aki cf)) (esc (l_sig cf)) (l_snlen cf)
    (l_snlen cf) (l_snlist cf) flags None.

(** The row is added under a new id, or nothing changes. *)
Lemma add_crl_internal_runs cf s : exists v t', runs (add_crl_internal sql_ok in_order esc cf) s v t' /\
  (v <> 0 /\ t' = tabs s \/
   v = 0 /\ exists nid, (forall l, l ∈ crls (tabs s) -> l_id l <> nid) /\
     t' = set_crls (crls (tabs s) ++ [crl_row_of nid (l_flags cf) (l_dir cf) cf]) (tabs s)).
Proof.
  unfold add_crl_internal.
  destruct (dupsig_run sql_ok in_order Horder crls l_sig (l_sig cf) s) as (s1 & v1 & E1 & Ht1 & Hv1 & _).
  destruct (Z.ltb_spec v1 0) as [Hneg|Hpos].
  { exists v1, (tabs s). split; [|left; split; [lia|done]]. exists s1. unfold est_bind. rewrite E1.
    by rewrite (proj2 (Z.ltb_lt _ _) Hneg). }
  destruct Hv1 as [->|[->|[->| ->]]]; try done.
  destruct (maxid_run sql_ok crls l_id s1) as (s2 & v2 & E2 & Ht2 & Hv2).
  assert (v2 = (0, foldr Z.max 0 (map l_id (crls (tabs s1))))) as ->.
  { destruct Hv2 as [?| ->]; [done|]. unfold getmaxidscm, est_bind, statementscm in E2. cbn in E2.
    rewrite Hsql in E2. by cbn in E2. }
  set (nid := u32 (foldr Z.max 0 (map l_id (crls (tabs s1))) + 1)).
  set (row := crl_row_of nid (l_flags cf) (l_dir cf) cf).
  destruct (insert_run sql_ok (fun t => taken l_id l_file l_dir (crls t) row)
    (fun t => set_crls (crls t ++ [row]) t) s2) as (s3 & v3 & E3 & Hv3).
  exists v3, (tabs s3). split.
  { exists s3. split; [|done]. unfold est_bind at 1. rewrite E1. cbn [Z.ltb Z.compare].
    unfold est_bind at 1. rewrite E2. cbn [Z.ltb Z.compare]. exact E3. }
  rewrite Ht2, Ht1 in Hv3. destruct Hv3 as [(-> & Hcl & Ht)|[-> Ht]]; [right|left; done].
  split; [done|]. exists nid. split; [|done]. intros l Hl Eid. apply not_true_iff_false in Hcl. apply Hcl.
  apply existsb_exists. exists l. split; [by apply list_elem_of_In|]. cbn. by rewrite Eid, Z.eqb_refl.
Qed.

(** A CRL whose issuer is there. *)
Lemma crl_good l t : good esc t -> (forall x, x ∈ crls t -> l_id x <> l_id l) -> esc (l_issuer l) = l_issuer l ->
  (nochain (l_flags l) = false -> supported esc t (Some (l_issuer l)) (fetched (l_aki l))) ->
  good esc (set_crls (crls t ++ [l]) t).
Proof.
  intros [[Hc [Hl Hr Hm Hg]] [A B C D F] [P1 P2]] Hid Hesc Hsup. split; [split|split|split]; try done.
  - split; try done. cbn. intros x [Hx|Hx%list_elem_of_singleton]%elem_of_app Hn a Ha; [by apply (Hl x Hx)|].
    subst x. rewrite Ha in Hsup. by apply Hsup.
  - cbn. rewrite fmap_app. apply NoDup_app. split; [done|]. split; [|apply NoDup_singleton].
    intros i (x & -> & Hx)%list_elem_of_fmap Hi%list_elem_of_singleton. by apply (Hid x).
  - cbn. intros x [Hx|Hx%list_elem_of_singleton]%elem_of_app; [by apply P2|by subst x].
Qed.

Lemma revoke_serials_end issuer aki sns : forall s, good esc (tabs s) ->
  ends (fun n => revoke_serials sql_ok clock in_order esc n issuer aki sns) s (fun _ t' =>
    purged esc (fun c => exists sn, sn ∈ sns /\ listed esc issuer aki sn c) (tabs s) t').
Proof.
  induction sns as [|sn sns IH]; intros s G; cbn [revoke_serials].
  { apply ends_ret, purged_none; [done|]. by intros c (x & Hx%not_elem_of_nil & _). }
  eapply ends_bind; [by apply (serial_ends sql_ok clock in_order esc now)|]. cbn beta. intros v s1 [_ P1].
  eapply ends_impl; [apply IH, P1|]. cbn beta. intros _ t' P2.
  eapply purged_ext; [|eapply purged_trans; [apply listed_fields| | |exact P1|exact P2]]; cbn beta.
  - intros c. setoid_rewrite elem_of_cons. split; [intros [?|(x & ? & ?)]; eauto|].
    intros (x & [->|?] & ?); eauto.
  - done.
  - apply G.
Qed.

Context (strict_profile_checks : bool) (crl_file : string -> option CertificateRevocationList)
  (crl2fields : string -> string -> Z -> Z + crl_row * (X509 -> Z)).

(** What [crl2fields] promises: new flags, an authority key, names the server reads
    back as they are, and as many serial numbers as it says. *)
Record fields_ok (cf : crl_row) (aki : string) : Prop := {
  fo_flags : l_flags cf = 0;
  fo_aki : l_aki cf = Some aki;
  fo_issuer : esc (l_issuer cf) = l_issuer cf;
  fo_esc_aki : esc aki = aki;
  fo_serials : l_snlen cf <= Z.of_nat (length (from_option id [] (l_snlist cf))) }.

Definition crl_serials_of (cf : crl_row) : list (list Z) :=
  take (Z.to_nat (l_snlen cf)) (from_option id [] (l_snlist cf)).

(** The tables after [add_crl]: the row is there; if its issuer was found, the
    certificates it lists are gone, and if not, it is marked. *)
Definition crl_added (cf : crl_row) (aki : string) (t t' : tables) : Prop :=
  exists l, l_issuer l = l_issuer cf /\ l_aki l = Some aki /\ l_snlist l = l_snlist cf /\
    let t1 := set_crls (crls t ++ [l]) t in
    (validated (l_flags l) = true /\ nochain (l_flags l) = false /\
     supported esc t (Some (l_issuer l)) aki /\
     purged esc (fun c => exists sn, sn ∈ crl_serials_of cf /\ listed esc (l_issuer cf) aki sn c) t1 t' \/
     validated (l_flags l) = false /\ nochain (l_flags l) = true /\ t' = t1 /\ good esc t').

Lemma new_flags (b : bool) on : on = 0 \/ on = SCM_FLAG_ONMAN ->
  let f := Z.lor (Z.lor 0 (if b then SCM_FLAG_VALIDATED else SCM_FLAG_NOCHAIN)) on in
  validated f = b /\ nochain f = negb b.
Proof. intros [->| ->]; by destruct b. Qed.

Lemma add_crl_ends outfile outfull dir typ s : good esc (tabs s) -> hashes_fit sha256 open_file ->
  (forall crl, crl_file outfull = Some crl -> crl_profile_chk strict_profile_checks crl <> None) ->
  (forall cf v, crl2fields outfile outfull typ = inr (cf, v) -> exists aki, fields_ok cf aki) ->
  (forall sta, crl2fields outfile outfull typ = inl sta -> sta <> 0) ->
  ends (fun fuel => add_crl sql_ok clock in_order esc E strict_profile_checks sha256 open_file files_regexp casn_manifest
      crl_file crl2fields fuel useParacerts outfile outfull dir typ) s (fun v t' =>
    v <> 0 /\ t' = tabs s \/
    v = 0 /\ exists crl cf cv aki, crl_file outfull = Some crl /\ crl_profile_chk strict_profile_checks crl = Some 0 /\
      crl2fields outfile outfull typ = inr (cf, cv) /\ fields_ok cf aki /\ crl_added cf aki (tabs s) t').
Proof.
  intros G Hfit Hprof Hcf Hinl. unfold add_crl. destruct (crl_file outfull) as [crl|] eqn:Ecrl; [|apply ends_ret; by left].
  specialize (Hprof crl eq_refl). destruct (crl_profile_chk strict_profile_checks crl) as [sta|] eqn:Eprof; [|done].
  eapply ends_run; [apply runs_ret|]. intros s0 H0.
  destruct (Z.eqb_spec sta 0) as [->|Hsta]; cbn [negb]; [|apply ends_ret; left; by rewrite H0].
  destruct (crl2fields outfile outfull typ) as [sta|[cf cv]] eqn:Ecf; [apply ends_ret; left; split; [by apply Hinl|done]|].
  destruct (Hcf cf cv eq_refl) as (aki & F). rewrite (fo_aki _ _ F).
  eapply ends_run; [apply runs_ret|]. intros s1 H1.
  destruct (verify_crl_runs cv aki (l_issuer cf) s1 (fo_issuer _ _ F)) as (sta & chainOK & Hrun & Hsup).
  eapply ends_run; [exact Hrun|]. intros s2 H2. rewrite H1, H0 in H2, Hsup. cbn beta iota.
  destruct (Z.eqb_spec sta 0) as [->|Hsta]; cbn [negb]; [|apply ends_ret; left; by rewrite H2].
  destruct (add_state_runs (l_flags cf) chainOK (l_file cf) outfull s2 Hfit) as (sta & on & Hrun2 & Hon).
  eapply ends_run; [exact Hrun2|]. intros s3 H3. rewrite H2 in H3. cbn beta iota.
  destruct (Z.eqb_spec sta 0) as [->|Hsta]; cbn [negb]; [|apply ends_ret; left; by rewrite H3].
  rewrite (fo_flags _ _ F). set (flags := Z.lor _ on).
  destruct (new_flags chainOK on Hon) as [Hv Hn]. fold flags in Hv, Hn.
  destruct (add_crl_internal_runs (crl_with flags dir cf) s3) as (v & t4 & Hrun3 & Hres). rewrite H3 in Hres.
  eapply ends_run; [exact Hrun3|]. intros s4 H4. destruct Hres as [[Hne ->]|(-> & nid & Hnid & ->)].
  { rewrite (proj2 (Z.eqb_neq _ _) Hne). eapply ends_run; [apply runs_ret|]. intros s5 H5. apply ends_ret. left. by rewrite H5, H4. }
  set (l := crl_row_of _ _ _ _) in H4. cbn [crl_with l_flags l_dir l_aki l_issuer l_snlist] in l.
  assert (El : l_issuer l = l_issuer cf /\ l_aki l = Some aki /\ l_snlist l = l_snlist cf).
  { cbn. rewrite (fo_aki _ _ F). cbn. by rewrite (fo_issuer _ _ F), (fo_esc_aki _ _ F). }
  destruct El as (Eli & Ela & Els).
  assert (G4 : good esc (tabs s4)).
  { rewrite H4. apply crl_good; [done|done|by rewrite Eli, (fo_issuer _ _ F)|]. cbn [l crl_row_of l_flags].
    rewrite Hn, Eli, Ela. intros Hb. apply Hsup; [done|by destruct chainOK]. }
  rewrite Z.eqb_refl. cbn [andb]. destruct chainOK.
  - rewrite (proj2 (Z.ltb_ge _ _) (fo_serials _ _ F)).
    eapply ends_bind; [by apply revoke_serials_end|]. cbn beta. intros _ s5 P. apply ends_ret. right. split; [done|].
    exists crl, cf, cv, aki. repeat (split; [done|]). exists l. repeat (split; [done|]). left.
    split; [done|]. split; [done|]. split; [rewrite Eli; by apply Hsup|]. rewrite H4 in P. exact P.
  - eapply ends_run; [apply runs_ret|]. intros s5 H5. apply ends_ret. right. split; [done|].
    exists crl, cf, cv, aki. repeat (split; [done|]). exists l. repeat (split; [done|]). right.
    rewrite H5. split; [done|]. split; [done|]. by rewrite <- H4.
Qed.
End crl.

(** C10: Adding a CRL ([add_crl], no statement failing) ends. On an error nothing
    has changed. On success the CRL meets the profile and is in its table; if its
    issuer has a validated, unmarked certificate it is validated, and afterwards no
    certificate that it lists (same issuer and authority key, a serial number that is
    not zero) is left, no other certificate is removed, and the promises of the
    tables hold; otherwise it is marked NOCHAIN and nothing else changes. *)
Theorem add_crl_exact sql_ok clock in_order esc now {X509} (E : env X509) useParacerts strict sha256 open_file
    files_regexp casn_manifest crl_file crl2fields outfile outfull dir typ s :
  (forall n, sql_ok n = true) -> (forall n, clock n = Some now) -> (forall A (l : list A), in_order A l ≡ₚ l) ->
  good esc (tabs s) -> hashes_fit sha256 open_file ->
  (forall crl, crl_file outfull = Some crl -> crl_profile_chk strict crl <> None) ->
  (forall cf v, crl2fields outfile outfull typ = inr (cf, v) -> exists aki, fields_ok esc cf aki) ->
  (forall sta, crl2fields outfile outfull typ = inl sta -> sta <> 0) ->
  ends (fun fuel => add_crl sql_ok clock in_order esc E strict sha256 open_file files_regexp casn_manifest
      crl_file crl2fields fuel useParacerts outfile outfull dir typ) s (fun v t' =>
    v <> 0 /\ t' = tabs s \/
    v = 0 /\ exists crl cf cv aki, crl_file outfull = Some crl /\ crl_profile_chk strict crl = Some 0 /\
      crl2fields outfile outfull typ = inr (cf, cv) /\ fields_ok esc cf aki /\ crl_added esc cf aki (tabs s) t').
Proof. intros. by apply (add_crl_ends sql_ok clock in_order esc now). Qed.

(** ** Examples *)

Definition dx_cert (id : Z) (file dir name issuer ski aki : string) : cert_row :=
  mkCert id file dir (Some name) issuer [id] SCM_FLAG_VALIDATED ski (Some aki) name 0 100 0 None.
Definition dx_tables : tables :=
  mkTables [dx_cert 1 "ta.cer" "/r/x" "ta" "ta" "kt" "kt";
            dx_cert 2 "r.roa.cer" "/r/EEcertificates/x" "e" "ta" "ke" "kt"]
    [] [mkObj 1 "r.roa" "/r/x" "ke" SCM_FLAG_VALIDATED (mkRoaData 64512 "s" 0) None] [mkRoaPrefix 1 [10; 0; 0; 0] 8 8] [] []
    ["/r/x"; "/r/EEcertificates/x"]%string (Some "/r"%string).
Definition dx_state : dbst := mkDbst dx_tables 0 0 SrchNone.

Lemma delete_object_exact_witness :
  ends (fun fuel => delete_object (fun _ => true) (fun _ => Some 10) (fun _ l => l) id fuel "r.roa" (Some "/r/x"%string) None)
    dx_state (fun v t' => (v = 0 \/ v = ERR_SCM_NODATA) /\ good id t' /\
      gone_exactly (delete_target "/r" "r.roa" "/r/x") dx_tables t').
Proof.
  apply (delete_object_exact (fun _ => true) (fun _ => Some 10) (fun _ l => l) id 10 "r.roa" "/r/x" None "/r" dx_state);
    try done.
  - split; [by apply chainb_spec| |by split]. split; apply (bool_decide_unpack _); vm_compute; exact I.
  - intros tb r Hr. assert (H : forallb (fun r => existsb (String.eqb (m_dir r)) (dirs dx_tables)) (rows_of tb dx_tables) = true)
      by (by destruct tb).
    apply list_elem_of_In in Hr. rewrite forallb_forall in H. specialize (H r Hr).
    apply existsb_exists in H as (d & Hd & E%String.eqb_eq). rewrite E. by apply list_elem_of_In.
  - left.
  - cbn. lia.
Defined.

(** The ROA, its prefix and its end-entity certificate are gone. *)
Example dx_run :
  let '(s, v) := delete_object (fun _ => true) (fun _ => Some 10) (fun _ l => l) id 5 "r.roa" (Some "/r/x"%string) None dx_state in
  (v, map c_id (certs (tabs s)), roas (tabs s), roa_prefixes (tabs s)) = (inr 0, [1], [], []).
Proof. vm_compute. reflexivity. Qed.

Definition lx_fields : crl_row := mkCrl 0 "l.crl" "" "ta" (Some "kt"%string) "sig" 1 0 (Some [[2]]) 0 None.
Definition lx_add (fuel : nat) : M Z :=
  add_crl (fun _ => true) (fun _ => Some 10) (fun _ l => l) id v_env true mx_hash mx_open (fun _ => None) (fun _ => [])
    (fun _ => Some demo_crl) (fun _ _ _ => inr (lx_fields, fun x => x)) fuel false "l.crl" "d/l.crl" "d" OT_CRL.

Lemma add_crl_exact_witness :
  ends lx_add mx_state (fun v t' =>
    v <> 0 /\ t' = mx_tables \/
    v = 0 /\ exists crl cf cv aki, Some demo_crl = Some crl /\ crl_profile_chk true crl = Some 0 /\
      inr (lx_fields, fun x : Z => x) = @inr Z _ (cf, cv) /\ fields_ok id cf aki /\ crl_added id cf aki mx_tables t').
Proof.
  apply (add_crl_exact (fun _ => true) (fun _ => Some 10) (fun _ l => l) id 10 v_env false true mx_hash mx_open
    (fun _ => None) (fun _ => []) (fun _ => Some demo_crl) (fun _ _ _ => inr (lx_fields, fun x => x))
    "l.crl" "d/l.crl" "d" OT_CRL mx_state); try done.
  - apply mx_good.
  - intros path c h _ [= <-]. rewrite length_take. lia.
  - intros crl [= <-]. vm_compute. congruence.
  - intros cf v [= <- <-]. exists "kt"%string. by split.
Defined.

(** The certificate with serial number 2 is gone, and what was below it is marked. *)
Example lx_run :
  let '(s, v) := lx_add 10 mx_state in
  (v, map (fun c => (c_id c, c_flags c)) (certs (tabs s)), map (fun l => (l_id l, l_flags l)) (crls (tabs s)),
   map (fun o => (o_id o, o_flags o)) (roas (tabs s))) =
  (inr 0, [(1, 4); (3, 12)], [(1, 4)], [(1, 12); (2, 4)]).
Proof. vm_compute. reflexivity. Qed.
