(* ===== verification/RpkiHandlers.v ===== *)
(** * Adding objects: the handlers ([src/lib/rpki/sqhl.c])

    [add_object] and what it calls: the checks and inserts of [CertProfile],
    [RpkiVerify], [RpkiAdd], [RpkiMft] and [RpkiDelete] in the order of the code, and
    the propagation of a newly valid certificate to what was waiting for it. The
    fields of [henv] are what the program calls: OpenSSL, the decoders and the file
    system; files are described as they are when they are read (the certificate of a
    signed object is written before it is read). A directory that is not in its table
    reads as the empty name. Texts fit their buffers where that is not said. *)

From stdpp Require Import strings.
From S2P Require Import Prelude Sql CasnTime CasnNum CasnObjid RpkiObject CmsValidate RoaValidate RoaValidate2 Manifest Ghostbusters RoaFile RpkiDb RpkiVerify RpkiAdd CertExt CertProfile CrlProfile RpkiMft CertFields RpkiDelete.

Local Open Scope est_scope.

Definition ERR_SCM_NOTSS : Z := -29.
Definition ERR_SCM_WRITE_EE : Z := -109.
Definition ERR_SCM_SMALLKEY : Z := -110.
Definition ERR_SCM_ASN1_LTH : Z := -111.
Definition ERR_SCM_EXPIRED : Z := -112.

Record henv (X509 : Type) := mkHenv {
  ssl : env X509;
  (* what OpenSSL's accessors say of a certificate, and its functions on extensions *)
  x509_view : X509 -> CertExt.X509;
  ext_d2i : list X509_EXTENSION -> Z -> bool -> option ext_struct;
  ext_supported : X509_EXTENSION -> bool;
  addr_canonical : list Z -> bool;
  asid_canonical : list Z -> bool;
  (* [X509_cmp_time] of the end and the start of the validity with the present *)
  cmp_notAfter : X509 -> Z;
  cmp_notBefore : X509 -> Z;
  (* cryptlib *)
  h_sha1 : list Z -> option (list Z);
  h_sha256 : list Z -> option (list Z);
  h_check_sig : CMS -> Certificate -> Z;
  (* files *)
  h_open : string -> option (option (list Z));
  h_regexp : string -> option (string -> bool);
  isokfile : string -> Z;
  put_cert_file : Certificate -> string -> bool;
  (* [get_casn_file] on each type, and [casn_manifest] of [addStateToFlags] *)
  cert_file : string -> option Certificate;
  crl_file : string -> option CertificateRevocationList;
  cms_file : string -> option CMS;
  h_casn_manifest : string -> list FileAndHash;
  roa_file : string -> roa_read;
  h_decode_casn_lth : list Z -> option CMS;
  (* [d2i_X509] of the encoded certificate succeeds *)
  cert_is_x509 : Certificate -> bool;
  (* the accessors for the fields of certificates and CRLs, numbers and key
     identifiers as text *)
  h_fields : X509 -> x509_fields;
  h_d2i_crl : bool -> list Z -> option (crl_fields_view X509);
  h_bn2hex : Z -> option (list Z);
  h_bn2bin : Z -> list Z;
  h_hex_to_string : list Z -> option string;
  (* allocations: those of [roaValidate], and those of [roaGetPrefixes] (0), of the
     signature's text (1), of [add_roa_internal] (2, 3), [manifestValidate] (4) and
     [decode_b64] (5) *)
  h_malloc : nat -> nat -> bool;
  h_mem : nat -> nat -> bool;
  (* the time [manifestValidate] reads, and the locale *)
  h_time : Z;
  utf8_locale : bool }.
Arguments mkHenv {X509}.
Arguments ssl {X509}. Arguments x509_view {X509}. Arguments ext_d2i {X509}. Arguments ext_supported {X509}.
Arguments addr_canonical {X509}. Arguments asid_canonical {X509}. Arguments cmp_notAfter {X509}.
Arguments cmp_notBefore {X509}. Arguments h_sha1 {X509}. Arguments h_sha256 {X509}. Arguments h_check_sig {X509}.
Arguments h_open {X509}. Arguments h_regexp {X509}. Arguments isokfile {X509}. Arguments put_cert_file {X509}.
Arguments cert_file {X509}. Arguments crl_file {X509}. Arguments cms_file {X509}. Arguments h_casn_manifest {X509}.
Arguments roa_file {X509}. Arguments h_decode_casn_lth {X509}. Arguments cert_is_x509 {X509}. Arguments h_fields {X509}. Arguments h_d2i_crl {X509}.
Arguments h_bn2hex {X509}. Arguments h_bn2bin {X509}. Arguments h_hex_to_string {X509}.
Arguments h_malloc {X509}. Arguments h_mem {X509}. Arguments h_time {X509}. Arguments utf8_locale {X509}.

Definition SKI_SIZE : nat := 20.
Definition roaSKI (r : CMS) : option string :=
  match signerInfos r with
  | si :: _ =>
      match si_ski si with
      | Some k => if (length k =? SKI_SIZE)%nat then Some (chars (hex_colons k)) else None
      | None => None
      end
  | [] => None
  end.

(** The status and the text, in a buffer of 60 characters; [None] past its end. *)
Definition hexify_ski (certp : Certificate) : option (Z + string) :=
  match find_extension (extensions certp) id_subjectKeyIdentifier with
  | None => None
  | Some None => Some (inl ERR_SCM_NOSKI)
  | Some (Some extp) =>
      let ski := from_option id [] (subjectKeyIdentifier extp) in
      if (SKI_SIZE <? length ski)%nat then None else Some (inr (chars (hex_colons ski)))
  end.

Definition cert_fields_of {X509} (H : henv X509) : string -> string -> Z -> Z + cert_row * X509 :=
  cert2fields (h_bn2hex H) (h_hex_to_string H) (ssl H) (h_fields H).
Definition crl_fields_of {X509} (H : henv X509) : string -> string -> Z -> Z + crl_row * (X509 -> Z) :=
  crl2fields (h_bn2hex H) (h_bn2bin H) (h_hex_to_string H) (ssl H) (h_d2i_crl H).

Section handlers.
Context (sql_ok : nat -> bool) (clock : nat -> option Z) (in_order : forall A, list A -> list A)
  (esc : string -> string).
Context {X509 : Type} (H : henv X509) (strict_profile_checks allowex useParacerts : bool).
Arguments in_order {A}.

Definition add_state (flags : Z) (isValid : bool) (filename fullpath : string) : M (Z * Z) :=
  addStateToFlags sql_ok (@in_order) (h_sha256 H) (h_open H) (h_regexp H) (h_casn_manifest H) flags isValid filename
    (Some fullpath).
Definition update_manifest_objs (fuel : nat) (l : list FileAndHash) : M Z :=
  updateManifestObjs sql_ok clock (@in_order) esc (h_sha256 H) (h_open H) fuel l.

(** With validation; files whose type says so are PEM. *)
Definition read_roa (path : string) (typ : Z) : M (Z * roa_rp) :=
  or_undefined (roaFromFile (h_decode_casn_lth H) (h_mem H 5) (h_sha1 H) (h_sha256 H) (h_check_sig H) (h_malloc H)
                  (roa_file H path) (if OT_PEM_OFFSET <=? typ then FMT_PEM else FMT_DER) true).

(** ** What waits for a certificate *)

(** Statuses of a search's callback count for nothing but the search's own, which
    [verifyChildCert] ignores. *)
Definition verifyChildCRL (fuel : nat) (l : crl_row) : M Z :=
  let pathname := path_of (l_dir l) (l_file l) in
  match crl_fields_of H (l_file l) pathname (infer_filetype pathname) with
  | inl sta => est_ret sta
  | inr (cf, crl_verify) =>
      let* aki := or_undefined (l_aki cf) in
      let* r := verify_crl sql_ok (@in_order) (ssl H) useParacerts crl_verify aki (Some (l_issuer cf)) in
      if fst r <? 0 then
        let* _ := deletebylid sql_ok CrlTab (l_id l) in est_ret (fst r)
      else
        let* _ := updateValidFlags sql_ok CrlTab (l_id l) (l_flags l) true in
        let sns := from_option id [] (l_snlist cf) in
        if Z.of_nat (length sns) <? l_snlen cf then est_exit DbUndefined
        else
          revoke_serials sql_ok clock (@in_order) esc fuel (l_issuer cf) aki (take (Z.to_nat (l_snlen cf)) sns) ;;;
          est_ret 0
  end.

Definition verifyChildROA (o : obj_row roa_data) : M Z :=
  let pathname := path_of (o_dir o) (o_file o) in
  let* r := read_roa pathname (infer_filetype pathname) in
  let '(sta, rp) := r in
  if sta <? 0 then est_ret sta
  else match rp with
  | RpUntouched | RpEmpty => est_exit DbUndefined
  | RpRoa roa =>
      let* skii := or_undefined (roaSKI roa) in
      let* r := verify_roa sql_ok (@in_order) (ssl H) useParacerts (h_sha1 H) (h_sha256 H) (h_check_sig H) (h_malloc H)
                  roa skii in
      if fst r <? 0 then
        let* _ := deletebylid sql_ok RoaTab (o_id o) in est_ret (fst r)
      else
        let* _ := updateValidFlags sql_ok RoaTab (o_id o) (o_flags o) true in
        est_ret 0
  end.

(** The list of files of what [get_casn_file] read. *)
Definition cms_files (cms : CMS) : list FileAndHash :=
  match econtent cms with EManifest m => fileList m | _ => [] end.

Definition verifyChildManifest (fuel : nat) (o : obj_row mft_data) : M Z :=
  let* _ := updateValidFlags sql_ok MftTab (o_id o) (o_flags o) true in
  match cms_file H (path_of (o_dir o) (o_file o)) with
  | None => est_ret (-1)
  | Some cms => let* _ := update_manifest_objs fuel (cms_files cms) in est_ret 0
  end.

Definition verifyChildGhostbusters (o : obj_row unit) : M Z :=
  let* _ := updateValidFlags sql_ok GbrTab (o_id o) (o_flags o) true in
  est_ret 0.

(** The subject goes into the search for CRLs as it is. *)
Definition verifyChildCert (fuel : nat) (data : PropData) (doVerify : bool) : M Z :=
  let* r :=
    (if doVerify then
       match fst (readCertFromFile (ssl H) (path_of (pd_dirname data) (pd_filename data))) with
       | None => est_ret ERR_SCM_X509
       | Some x =>
           let* r := verify_cert sql_ok (@in_order) (ssl H) useParacerts fuel x false (pd_aki data)
                       (Some (pd_issuer data)) in
           if fst r <? 0 then
             let* _ := deletebylid sql_ok CertTab (pd_id data) in est_ret (fst r)
           else
             let* _ := updateValidFlags sql_ok CertTab (pd_id data) (pd_flags data) true in
             est_ret 0
       end
     else est_ret 0) in
  if r <? 0 then est_ret r
  else
    let* _ := match literal (ssl H) (pd_subject data) with
              | None => let* _ := statementscm sql_ok in est_ret 0
              | Some subject => searchscm sql_ok (@in_order) crls (crl_where (pd_ski data) subject true)
                                  (verifyChildCRL fuel)
              end in
    let* _ := searchscm sql_ok (@in_order) gbrs (fun o => String.eqb (o_ski o) (pd_ski data)) verifyChildGhostbusters in
    let* _ := searchscm sql_ok (@in_order) roas (fun o => String.eqb (o_ski o) (pd_ski data) &&
                                                          flag_test (o_flags o) SCM_FLAG_NOCHAIN true) verifyChildROA in
    let* _ := searchscm sql_ok (@in_order) mfts (fun o => String.eqb (o_ski o) (pd_ski data)) (verifyChildManifest fuel) in
    est_ret 0.

(** [verifyOrNotChildren] with [doVerify] 1. *)
Definition verifyChildren (fuel : nat) (ski subject : string) (cert_id : Z) : M Z :=
  prop_loop sql_ok (@in_order) (verifyChildCert fuel) true fuel true [root_prop ski subject cert_id].
(** ** Certificates *)

(** [diff_casn] on the key identifiers: one that is not there differs. *)
Definition ski_differs (ski aki : option (list Z)) : bool :=
  match ski, aki with Some s, Some a => negb (bool_decide (s = a)) | _, _ => true end.

(** What is asked of a trust anchor: 0, or the error. *)
Definition trust_chk (cert : Certificate) (ski_extp : Extension) (cf : cert_row) : option Z :=
  aki_extp ← find_extension (extensions cert) id_authKeyId;
  let small := (length (cert_signature cert) <? 256)%nat || (length (subjectPublicKey cert) <? 265)%nat in
  if match aki_extp with
     | Some aki_extp => ski_differs (subjectKeyIdentifier ski_extp) (authKeyId aki_extp)
     | None => false
     end
  then Some ERR_SCM_NOTSS
  else
    subject ← c_subject cf;
    Some (if negb (String.eqb subject (c_issuer cf)) then ERR_SCM_NOTSS else if small then ERR_SCM_SMALLKEY else 0).

Definition cert_with (dir : string) (flags : Z) (cf : cert_row) : cert_row :=
  mkCert (c_id cf) (c_file cf) dir (c_subject cf) (c_issuer cf) (c_sn cf) flags (c_ski cf) (c_aki cf)
    (c_sig cf) (c_from cf) (c_to cf) (c_sigval cf) (c_hash cf).

Definition cert_type (utrust flags : Z) : Z :=
  if 0 <? utrust then TA_CERT else if negb (Z.land flags SCM_FLAG_CA =? 0) then CA_CERT else EE_CERT.

Definition profile_chk (x : X509) (cert : Certificate) (ct : Z) : option Z :=
  rescert_profile_chk (ext_d2i H) (ext_supported H) (addr_canonical H) (asid_canonical H) (h_sha1 H)
    strict_profile_checks (x509_view H x) cert ct.

(** The checks before the chain: the status and the flags. *)
Definition precheck_cert (cf : cert_row) (x : X509) (utrust : Z) (fullpath : string) : option (Z * Z) :=
  match cert_file H fullpath with
  | None => Some (ERR_SCM_BADCERT, c_flags cf)
  | Some cert =>
      ski_extp ← find_extension (extensions cert) id_subjectKeyIdentifier;
      match ski_extp with
      | None => Some (ERR_SCM_NOSKI, c_flags cf)
      | Some ski_extp =>
          sta ← (if 0 <? utrust then trust_chk cert ski_extp cf else Some 0);
          if sta <? 0 then Some (sta, c_flags cf)
          else
            let flags := if 0 <? utrust then Z.lor (c_flags cf) SCM_FLAG_TRUSTED else c_flags cf in
            sta ← profile_chk x cert (cert_type utrust flags);
            let sta := if (sta =? 0) && negb allowex then if cmp_notAfter H x <? 0 then ERR_SCM_EXPIRED else 0 else sta in
            Some (sta, if (sta =? 0) && (0 <? cmp_notBefore H x) then Z.lor flags SCM_FLAG_NOTYET else flags)
      end
  end.

(** The status and the flags. A certificate without an authority key identifier has
    a null pointer for it, which only [verify_cert] of an untrusted one and the
    propagation read (the latter for a pointer that it does not use). *)
Definition add_cert_2 (fuel : nat) (cf : cert_row) (x : X509) (dir : string) (utrust : Z) (fullpath : string) : M (Z * Z) :=
  let* r := or_undefined (precheck_cert cf x utrust fullpath) in
  let '(sta, flags) := r in
  if negb (sta =? 0) then est_ret (sta, flags)
  else
    let isTrusted := negb (utrust =? 0) in
    let* aki := if isTrusted then est_ret (fetched (c_aki cf)) else or_undefined (c_aki cf) in
    let* r := verify_cert sql_ok (@in_order) (ssl H) useParacerts fuel x isTrusted aki (Some (c_issuer cf)) in
    let '(sta, chainOK) := r in
    if negb (sta =? 0) then est_ret (sta, flags)
    else
      let* sta := cert_revoked sql_ok (c_sn cf) (c_issuer cf) in
      if negb (sta =? 0) then est_ret (sta, flags)
      else
        let* r := add_state flags chainOK (c_file cf) fullpath in
        let '(sta, flags) := r in
        if negb (sta =? 0) then est_ret (sta, flags)
        else
          let* r := add_cert_internal sql_ok (@in_order) esc (cert_with dir flags cf) in
          let '(sta, cert_id) := r in
          if (sta =? 0) && chainOK then
            let* subject := or_undefined (c_subject cf) in
            let* sta := verifyChildren fuel (c_ski cf) subject cert_id in est_ret (sta, flags)
          else est_ret (sta, flags).

(** ** The certificate of a signed object *)

(** [dir_id] is -1, which no directory has, if the directory cannot be created. *)
Definition dir_or_none (sta : Z) (dir : string) : string := if sta <? 0 then EmptyString else dir.

(** The status (1 if the certificate is validated) and the key identifier. A
    positive status of [add_cert_2] does not occur. *)
Definition extractAndAddCert (fuel : nat) (cmsp : CMS) (outdir : string) (utrust typ : Z) (outfile : string) :
    M (Z * string) :=
  match certificates cmsp with
  | [] => est_ret (ERR_SCM_BADNUMCERTS, EmptyString)
  | certp :: _ =>
      if cert_indef_lth certp then est_ret (ERR_SCM_ASN1_LTH, EmptyString)
      else
        let* r := or_undefined (hexify_ski certp) in
        match r with
        | inl sta => est_ret (sta, EmptyString)
        | inr ski =>
            let* eku := or_undefined (find_extension (extensions certp) id_extKeyUsage) in
            if negb (bool_decide (eku = None)) then est_ret (ERR_SCM_BADEXT, ski)
            else if negb (cert_is_x509 H certp) then est_ret (ERR_SCM_X509, ski)
            else
              let certname := ee_file outfile in
              let* tdir := retrieve_tdir sql_ok in
              let* tdir := or_undefined tdir in
              let* rest := or_undefined (from_index (String.length tdir) outdir) in
              if negb (String.eqb rest EmptyString) && negb (String.prefix tdir outdir)
              then est_ret (ERR_SCM_WRITE_EE, ski)
              else
                let dirname := (ee_top tdir +:+ rest)%string in
                let* dsta := findorcreatedir sql_ok (@in_order) dirname in
                let pathname := path_of dirname certname in
                if negb (put_cert_file H certp pathname) then est_ret (ERR_SCM_WRITE_EE, ski)
                else match cert_fields_of H certname pathname typ with
                | inl sta => est_ret (sta, ski)
                | inr (cf, x) =>
                    let* r := add_cert_2 fuel cf x (dir_or_none dsta dirname) utrust pathname in
                    let '(sta, flags) := r in
                    est_ret (if (typ =? OT_ROA) && (sta =? ERR_SCM_DUPSIG) then 0
                             else if sta <? 0 then sta
                             else if (sta =? 0) && negb (Z.land flags SCM_FLAG_VALIDATED =? 0) then 1 else sta, ski)
                end
        end
  end.
(** ** Signed objects *)

(** After an error, the certificate that was added is looked for in the directory of
    the object. *)
Definition undo (fuel : nat) (outfile outdir : string) : M unit :=
  let* _ := delete_object sql_ok clock (@in_order) esc fuel (ee_file outfile) (Some outdir) None in est_ret tt.

(** The signature of the first signer. *)
Definition roaSignature (r : CMS) : option (list Z) := option_map si_signature (head (signerInfos r)).

(** Everything after the certificate, with the last status. If the prefixes cannot be
    read that is the 0 of [verify_roa]. *)
Definition add_roa_rest (roa : CMS) (outfile outfull dir ski : string) : M Z :=
  let* asid := or_undefined (roaAS_ID roa) in
  match roaSignature roa with
  | None => est_ret ERR_SCM_NOSIG
  | Some bsig =>
      if negb (h_mem H 1 0) then est_ret ERR_SCM_NOMEM
      else
        let* r := verify_roa sql_ok (@in_order) (ssl H) useParacerts (h_sha1 H) (h_sha256 H) (h_check_sig H) (h_malloc H)
                    roa ski in
        let '(sta, chainOK) := r in
        if negb (sta =? 0) then est_ret sta
        else
          let* prefixes := or_undefined (roaGetPrefixes (h_mem H 0) roa) in
          match prefixes with
          | None => est_ret 0
          | Some prefixes =>
              let* r := add_state 0 chainOK outfile outfull in
              let '(sta, flags) := r in
              if negb (sta =? 0) then est_ret sta
              else add_roa_internal sql_ok (@in_order) (h_mem H 2 0) (h_mem H 3) outfile dir ski asid prefixes
                     (chars (hexify bsig)) flags
          end
  end.

(** After an error [delete_casn] is called on the structure, also when [roaFromFile]
    has not touched it. *)
Definition add_roa (fuel : nat) (outfile outdir outfull dir : string) (utrust typ : Z) : M Z :=
  if String.eqb outfile EmptyString || String.eqb outfull EmptyString then est_ret ERR_SCM_INVALARG
  else
    let* r := read_roa outfull typ in
    let '(sta, rp) := r in
    match rp with
    | RpUntouched => est_exit DbUndefined
    | RpEmpty => if sta <? 0 then est_ret sta else est_exit DbUndefined
    | RpRoa roa =>
        if sta <? 0 then est_ret sta
        else
          let* r := extractAndAddCert fuel roa outdir utrust typ outfile in
          let '(sta, ski) := r in
          if sta <? 0 then est_ret sta
          else
            let* sta := add_roa_rest roa outfile outfull dir ski in
            (if negb (sta =? 0) then undo fuel outfile outdir else est_ret tt) ;;;
            est_ret sta
    end.

Definition MANFILES_SIZE : nat := Z.to_nat 400000.

(** The names, joined by spaces ([manFiles], [manFilesLen]), or how the program ends:
    each is read into an array of 200 bytes, and [xsnprintf] aborts when the text does
    not fit. *)
Fixpoint man_files (l : list FileAndHash) (manFiles : list Z) : db_exit + list Z :=
  match l with
  | [] => inr manFiles
  | fahp :: l =>
      if (200 <=? length (fah_file fahp))%nat then inl DbUndefined
      else
        let file := c_string (fah_file fahp) in
        let out := (if (length manFiles =? 0)%nat then [] else [32]) ++ file in
        if (MANFILES_SIZE - length manFiles <=? length out)%nat then inl DbAbort
        else man_files l (manFiles ++ out)
  end.

(** [thisUpdate] and [nextUpdate] as texts, in an array of 16 bytes. *)
Definition man_time (t : casn_time) : Z :=
  if (16 <? length (time_content t) + 1)%nat then ERR_SCM_INVALDT
  else match ASNTimeToDBTime (c_string (time_content t)) true with inl sta => sta | inr _ => 0 end.

Definition man_flags (manValid stale : bool) : Z :=
  Z.lor (if manValid then SCM_FLAG_VALIDATED else SCM_FLAG_NOCHAIN) (if stale then SCM_FLAG_STALEMAN else 0).

Definition insert_manifest (man_id : Z) (outfile dir ski : string) (flags : Z) (files : string) : M Z :=
  let row := mkObj man_id outfile dir ski flags (mkMftData files) None in
  insertscm sql_ok (fun t => taken o_id o_file o_dir (mfts t) row) (fun t => set_mfts (mfts t ++ [row]) t).

Definition add_manifest (fuel : nat) (outfile outdir outfull dir : string) (utrust typ : Z) : M Z :=
  match cms_file H outfull with
  | None => est_ret ERR_SCM_INVALASN
  | Some cms =>
      let* r := or_undefined (manifestValidate (h_sha1 H) (h_sha256 H) (h_check_sig H) (h_time H) (h_mem H 4) cms) in
      let '(sta, stale) := r in
      if sta <? 0 then est_ret sta
      else match econtent cms with
      | EManifest manifest =>
          match man_files (fileList manifest) [] with
          | inl e => est_exit e
          | inr manFiles =>
              if man_time (thisUpdate manifest) <? 0 then est_ret (man_time (thisUpdate manifest))
              else if man_time (nextUpdate manifest) <? 0 then est_ret (man_time (nextUpdate manifest))
              else
                let* r := extractAndAddCert fuel cms outdir utrust typ outfile in
                let '(v, ski) := r in
                if v <? 0 then est_ret v
                else
                  let* r := getmaxidscm sql_ok mfts o_id in
                  let '(sta, man_id) := r in
                  if sta <? 0 then undo fuel outfile outdir ;;; est_ret sta
                  else
                    let* stale := or_undefined stale in
                    let* sta := insert_manifest (u32 (man_id + 1)) outfile dir ski (man_flags (0 <? v) stale)
                                  (chars manFiles) in
                    let* sta := if sta <? 0 then est_ret sta
                                else if 0 <? v then update_manifest_objs fuel (fileList manifest)
                                else est_ret sta in
                    (if sta <? 0 then undo fuel outfile outdir else est_ret tt) ;;;
                    est_ret sta
          end
      | _ => est_exit DbUndefined
      end
  end.

Definition add_ghostbusters (fuel : nat) (outfile outdir outfull dir : string) (utrust typ : Z) : M Z :=
  match cms_file H outfull with
  | None => est_ret ERR_SCM_INVALASN
  | Some cms =>
      let* sta := or_undefined (ghostbustersValidate (h_sha1 H) (h_sha256 H) (h_check_sig H) (utf8_locale H) cms) in
      if sta <? 0 then est_ret sta
      else
        let* r := extractAndAddCert fuel cms outdir utrust typ outfile in
        let '(sta, ski) := r in
        if sta <? 0 then est_ret sta
        else
          let flags := if sta =? 0 then SCM_FLAG_NOCHAIN else SCM_FLAG_VALIDATED in
          let* r := getmaxidscm sql_ok gbrs o_id in
          let '(sta, local_id_old) := r in
          if sta <? 0 then undo fuel outfile outdir ;;; est_ret sta
          else
            let local_id := u32 (local_id_old + 1) in
            if local_id <=? local_id_old then undo fuel outfile outdir ;;; est_ret ERR_SCM_INTERNAL
            else
              let row := mkObj local_id outfile dir ski flags tt None in
              let* sta := insertscm sql_ok (fun t => taken o_id o_file o_dir (gbrs t) row)
                            (fun t => set_gbrs (gbrs t ++ [row]) t) in
              if sta <? 0 then undo fuel outfile outdir ;;; est_ret sta
              else est_ret 0
  end.
End handlers.

(** ** Any object *)

Section objects.
Context (sql_ok : nat -> bool) (clock : nat -> option Z) (in_order : forall A, list A -> list A)
  (esc : string -> string).
Context {X509 : Type} (H : henv X509) (strict_profile_checks allowex : bool).

(** [useParacerts] becomes [constraining]. *)
Definition add_cert (fuel : nat) (outfile outfull dir : string) (utrust typ : Z) (constraining : bool) : M Z :=
  match cert_fields_of H outfile outfull typ with
  | inl sta => est_ret sta
  | inr (cf, x) =>
      let* r := add_cert_2 sql_ok clock in_order esc H strict_profile_checks allowex constraining fuel cf x dir utrust outfull in
      est_ret (fst r)
  end.

Definition add_object (fuel : nat) (outfile outdir outfull : string) (utrust : Z) : M Z :=
  let sta := isokfile H outfull in
  if sta <? 0 then est_ret sta
  else
    let typ := infer_filetype outfull in
    let* sta := findorcreatedir sql_ok in_order outdir in
    if sta <? 0 then est_ret sta
    else match type_table typ with
    | Some CertTab => add_cert fuel outfile outfull outdir utrust typ false
    | Some CrlTab =>
        add_crl sql_ok clock in_order esc (ssl H) strict_profile_checks (h_sha256 H) (h_open H) (h_regexp H)
          (h_casn_manifest H) (crl_file H) (crl_fields_of H) fuel false outfile outfull outdir typ
    | Some RoaTab =>
        add_roa sql_ok clock in_order esc H strict_profile_checks allowex false fuel outfile outdir outfull outdir utrust typ
    | Some MftTab =>
        add_manifest sql_ok clock in_order esc H strict_profile_checks allowex false fuel outfile outdir outfull outdir
          utrust typ
    | Some GbrTab =>
        add_ghostbusters sql_ok clock in_order esc H strict_profile_checks allowex false fuel outfile outdir outfull outdir
          utrust typ
    | None => est_ret ERR_SCM_INTERNAL
    end.
End objects.
