(* ===== verification/RpkiHandlersThm.v ===== *)
(** * Adding objects: theorems *)

From stdpp Require Import strings.
From S2P Require Import Prelude Sql CasnTime CasnNum CasnObjid RpkiObject CmsValidate CmsThm RoaValidate RoaValidate2 Manifest Ghostbusters RoaFile RpkiDb RpkiDbFacts RpkiDbChain RpkiDbRevoke RpkiDbThm RpkiVerify RpkiVerifyThm RpkiAdd RpkiAddThm CertExt CertProfile CertThm CrlProfile RpkiMft RpkiMftThm CertFields RpkiDelete RpkiDeleteThm RpkiHandlers.

Local Open Scope est_scope.

(** ** What verification writes *)

(** The tables differ in recorded results of signatures only. *)
Definition no_sigval (c : cert_row) : cert_row := set_c_sigval SIGVAL_UNKNOWN c.
Definition sigvals_only (t t' : tables) : Prop :=
  t' = set_certs (certs t') t /\ no_sigval <$> certs t' = no_sigval <$> certs t.

Lemma sigvals_refl t : sigvals_only t t.
Proof. by destruct t. Qed.

Lemma sigvals_trans t1 t2 t3 : sigvals_only t1 t2 -> sigvals_only t2 t3 -> sigvals_only t1 t3.
Proof. intros [E1 F1] [E2 F2]. split; [|congruence]. rewrite E2, E1. by destruct t1. Qed.

Lemma sigvals_set subj ski v t :
  sigvals_only t (set_certs (map (fun c => if cert_named subj ski c then set_c_sigval v c else c) (certs t)) t).
Proof.
  split; [by destruct t|]. cbn. apply map_key. intros c _. by destruct (cert_named _ _ _).
Qed.

Lemma sigvals_in t t' c : sigvals_only t t' -> c ∈ certs t -> exists c', c' ∈ certs t' /\ no_sigval c' = no_sigval c.
Proof. intros [_ F] Hc. by apply (fmap_in_eq no_sigval _ _ _ (eq_sym F)). Qed.

Section admission.
Context (sql_ok : nat -> bool) (in_order : forall A, list A -> list A).
Context (Horder : forall A (l : list A), in_order A l ≡ₚ l).
Context {X509 : Type} (E : env X509) (useParacerts : bool).

Lemma local_verify_sigvals xs xi s s' v : local_verify sql_ok in_order E xs xi s = (s', inr v) -> sigvals_only (tabs s) (tabs s').
Proof.
  unfold local_verify. intros (v1 & s1 & E1 & H)%est_bind_run.
  assert (Ht : tabs s1 = tabs s).
  { destruct (X509_to_subject E xs); [|by injection E1 as <- <-]. destruct (X509_to_ski E xs); [|by injection E1 as <- <-].
    by apply (get_sigval_run sql_ok in_order Horder) in E1 as [? _]. }
  rewrite <- Ht. destruct (v1 =? SIGVAL_VALID); [injection H as <- _; apply sigvals_refl|].
  destruct (v1 =? SIGVAL_INVALID); [injection H as <- _; apply sigvals_refl|].
  apply est_bind_run in H as (u & s2 & E2 & H). injection H as <- _.
  destruct (negb _); [|injection E2 as <- _; apply sigvals_refl].
  destruct (X509_to_subject E xs) as [nm|]; [|done]. destruct (X509_to_ski E xs) as [key|]; [|done].
  apply est_bind_run in E2 as (u' & s3 & E3 & H). injection H as <- _.
  unfold set_cert_sigval, statementscm_no_data in E3. apply est_bind_run in E3 as (ok & s4 & E4 & H). injection E4 as <- <-.
  destruct (sql_ok _); cbn in H; injection H as <- _; [apply sigvals_set|apply sigvals_refl].
Qed.

Lemma verify_down_sigvals l : forall xi s s' b, verify_down sql_ok in_order E xi l s = (s', inr b) -> sigvals_only (tabs s) (tabs s').
Proof.
  induction l as [|x l IH]; intros xi s s' b H; cbn [verify_down] in H; [injection H as <- _; apply sigvals_refl|].
  destruct (negb _); [injection H as <- _; apply sigvals_refl|]. apply est_bind_run in H as (v & s1 & E1 & H).
  apply local_verify_sigvals in E1. destruct (v <=? 0); [by injection H as <- _|]. by eapply sigvals_trans, IH.
Qed.

Lemma checkit_sigvals x uchain tchain s s' v :
  checkit sql_ok in_order E x uchain tchain s = (s', inr v) -> sigvals_only (tabs s) (tabs s').
Proof.
  unfold checkit. destruct (build_chain E x uchain tchain); [|intros [= <- _]; apply sigvals_refl].
  intros (ok & s1 & E1 & H)%est_bind_run. injection H as <- _. unfold our_verify in E1.
  destruct (rev _) as [|top below]; [done|].
  destruct (check_issued E top top); [by apply verify_down_sigvals in E1|].
  destruct (length below =? 0)%nat; [injection E1 as <- _; apply sigvals_refl|by apply verify_down_sigvals in E1].
Qed.

Lemma parents_tabs fuel : forall ski subject acc s s' r,
  parents sql_ok in_order E useParacerts fuel ski subject acc s = (s', inr r) -> tabs s' = tabs s.
Proof.
  induction fuel as [|fuel IH]; intros ski subject acc s s' r H; [done|]. cbn [parents] in H.
  apply est_bind_run in H as (p & s1 & E1 & H). apply (parent_cert_run sql_ok in_order Horder) in E1 as [Ht _].
  destruct p as [[c [x|]]|]; [|injection H as <- _; done..].
  destruct (has_flag _ _); [by injection H as <- _|]. apply est_bind_run in H as (cols & s2 & E2 & H). injection E2 as <- <-.
  destruct (srch_cols s1); try done. apply IH in H. congruence.
Qed.

(** OpenSSL built the chain from these and it passed. *)
Definition chain_good (t : tables) (x : X509) (xs : list X509) (anchor : X509) : Prop :=
  exists chain, build_chain E x xs [anchor] = Some chain /\ chain_checks E chain = true /\
    all_vouched E t (checked_names E (chain_links E chain)) (chain_links E chain).

(** A trust anchor stands for itself; another certificate hangs on one. *)
Definition chained (t : tables) (x : X509) (isTrusted : bool) (ski issuer : string) : Prop :=
  if isTrusted then chain_good t x [] x
  else exists rows xs anchor, anchored t ski (Some issuer) rows /\ Forall2 (row_cert E) rows (xs ++ [anchor]) /\
         chain_good t x xs anchor.

Lemma verify_cert_run fuel x isTrusted ski issuer s s' b :
  verify_cert sql_ok in_order E useParacerts fuel x isTrusted ski (Some issuer) s = (s', inr (0, b)) ->
  sigvals_only (tabs s) (tabs s') /\ (b = true -> chained (tabs s) x isTrusted ski issuer) /\
  (b = false -> (forall n, sql_ok n = true) ->
     isTrusted = false /\ chainless E useParacerts (srch_cols s <> SrchAKI) (tabs s) ski (Some issuer)).
Proof.
  unfold verify_cert, chained. destruct isTrusted.
  - intros (sta & s1 & E1 & H)%est_bind_run. injection H as <- -> <-. split; [by apply checkit_sigvals in E1|]. split; [|done].
    intros _. by apply (checkit_run sql_ok in_order Horder) in E1.
  - intros (up & s1 & E1 & H)%est_bind_run. pose proof (parents_tabs _ _ _ _ _ _ _ E1) as Ht.
    destruct up as [[uchain anchor]|].
    2: { injection H as <- <-. rewrite Ht. split; [apply sigvals_refl|]. split; [done|]. intros _ Hsql. split; [done|].
      by eapply (parents_none sql_ok in_order Horder). }
    apply est_bind_run in H as (sta & s2 & E2 & H). injection H as <- -> <-.
    apply (parents_run sql_ok in_order Horder) in E1 as (_ & rows & xs & -> & Ha & HF). cbn [app] in E2.
    pose proof (checkit_sigvals _ _ _ _ _ _ E2) as Hsv. rewrite Ht in Hsv. split; [done|]. split; [intros _|done].
    apply (checkit_run sql_ok in_order Horder) in E2 as (chain & Hb & Hc & Hv). rewrite Ht in Hv.
    exists rows, xs, anchor. split; [done|]. split; [done|]. by exists chain.
Qed.

(** ** Revocation and state *)

Lemma cert_revoked_run sn issuer s s' : (forall n, sql_ok n = true) -> cert_revoked sql_ok sn issuer s = (s', inr 0) ->
  tabs s' = tabs s /\ forall l, l ∈ crls (tabs s) -> revoking_crl issuer l = true -> crl_has sn l = false.
Proof.
  intros Hsql. unfold cert_revoked. destruct (negb _); [done|]. intros (ok & s1 & E1 & H)%est_bind_run.
  injection E1 as <- <-. rewrite Hsql in H. cbn in H. unfold est_bind, est_gets in H. cbn in H.
  destruct (existsb (fun l => _ <? _) _); [done|]. destruct (existsb (crl_has sn) _) eqn:Ex; [done|]. injection H as <-.
  split; [done|]. intros l Hl Hr. apply not_true_iff_false. intros Hh. apply not_true_iff_false in Ex. apply Ex.
  apply existsb_exists. exists l. split; [|done]. apply List.filter_In. split; [by apply list_elem_of_In|done].
Qed.

Lemma add_state_run {Y} (H : henv Y) flags b filename fullpath s s' v f :
  add_state sql_ok in_order H flags b filename fullpath s = (s', inr (v, f)) ->
  tabs s' = tabs s /\ exists on, f = Z.lor (Z.lor flags (if b then SCM_FLAG_VALIDATED else SCM_FLAG_NOCHAIN)) on /\
    (on = 0 \/ on = SCM_FLAG_ONMAN).
Proof.
  unfold add_state, addStateToFlags. set (fl := Z.lor flags _). intros (man & s1 & E1 & Hr)%est_bind_run.
  assert (Ht : tabs s1 = tabs s).
  { destruct (h_regexp H filename); [by apply (last_found_run sql_ok in_order Horder) in E1 as [? _]|].
    apply est_bind_run in E1 as (? & ? & E0 & E1). injection E0 as <- <-. by injection E1 as <- _. }
  assert (Hno : est_ret (0, fl) s1 = (s', @inr db_exit _ (v, f)) -> tabs s' = tabs s /\ exists on, f = Z.lor fl on /\
    (on = 0 \/ on = SCM_FLAG_ONMAN)).
  { intros [= <- _ <-]. split; [done|]. exists 0. rewrite Z.lor_0_r. auto. }
  destruct man as [man|]; [|by apply Hno]. destruct (find _ _) as [fah|]; [|by apply Hno].
  destruct (h_open H fullpath) as [c|]; [|by apply Hno]. apply est_bind_run in Hr as (r & s2 & E2 & Hr).
  destruct (check_fileAndHash _ _ _ _ _); [|done]. injection E2 as <- _. injection Hr as <- _ <-. split; [done|].
  exists SCM_FLAG_ONMAN. auto.
Qed.
End admission.

(** ** Admission *)

Section checks.
Context {X509 : Type} (H : henv X509) (strict allowex : bool).

(** A trust anchor names itself, with keys of the size of RSA-2048. *)
Definition trust_ok (cert : Certificate) (ext : Extension) (cf : cert_row) : Prop :=
  c_subject cf = Some (c_issuer cf) /\ (256 <= length (cert_signature cert))%nat /\
  (265 <= length (subjectPublicKey cert))%nat /\
  forall aki, find_extension (extensions cert) id_authKeyId = Some (Some aki) ->
    subjectKeyIdentifier ext <> None /\ authKeyId aki = subjectKeyIdentifier ext.

Lemma trust_chk_ok cert ext cf sta : trust_chk cert ext cf = Some sta -> sta < 0 \/ sta = 0 /\ trust_ok cert ext cf.
Proof.
  unfold trust_chk, trust_ok. destruct (find_extension _ id_authKeyId) as [aki|]; [|done]. cbn -[Nat.ltb].
  destruct (match aki with Some _ => _ | None => false end) eqn:Ed; [by intros [= <-]; left|].
  destruct (c_subject cf) as [subject|]; [|done]. cbn -[Nat.ltb].
  destruct (String.eqb_spec subject (c_issuer cf)) as [->|]; cbn -[Nat.ltb]; [|by intros [= <-]; left].
  destruct (Nat.ltb_spec (length (cert_signature cert)) 256); [by intros [= <-]; left|].
  destruct (Nat.ltb_spec (length (subjectPublicKey cert)) 265); [by intros [= <-]; left|].
  intros [= <-]. right. split; [done|]. split; [done|]. split; [lia|]. split; [lia|]. intros a [= ->].
  unfold ski_differs in Ed. destruct (subjectKeyIdentifier ext), (authKeyId a); try done.
  apply negb_false_iff, bool_decide_eq_true in Ed. by subst.
Qed.

(** The flags before the state is known. *)
Definition entry_flags (x : X509) (utrust : Z) (cf : cert_row) : Z :=
  Z.lor (if 0 <? utrust then Z.lor (c_flags cf) SCM_FLAG_TRUSTED else c_flags cf)
    (if 0 <? cmp_notBefore H x then SCM_FLAG_NOTYET else 0).

(** The certificate's own checks passed. *)
Record cert_checked (cf : cert_row) (x : X509) (utrust : Z) (fullpath : string) (cert : Certificate) : Prop := {
  cc_file : cert_file H fullpath = Some cert;
  cc_trust : 0 < utrust -> exists ext, find_extension (extensions cert) id_subjectKeyIdentifier = Some (Some ext) /\
               trust_ok cert ext cf;
  cc_profile : profile_chk H strict x cert (if 0 <? utrust then TA_CERT else if Z.testbit (c_flags cf) 0 then CA_CERT else EE_CERT)
                 = Some 0;
  cc_unexpired : allowex = false -> 0 <= cmp_notAfter H x }.

Lemma ca_bit f : negb (Z.land f SCM_FLAG_CA =? 0) = Z.testbit f 0.
Proof.
  change SCM_FLAG_CA with (Z.ones 1). rewrite Z.land_ones by lia. change (2 ^ 1) with 2. rewrite Zmod_odd.
  rewrite <- Z.bit0_odd. by destruct (Z.testbit f 0).
Qed.

Lemma precheck_ok cf x utrust fullpath flags : precheck_cert H strict allowex cf x utrust fullpath = Some (0, flags) ->
  flags = entry_flags x utrust cf /\ exists cert, cert_checked cf x utrust fullpath cert.
Proof.
  unfold precheck_cert. destruct (cert_file H fullpath) as [cert|] eqn:Ef; [|done].
  destruct (find_extension _ id_subjectKeyIdentifier) as [[ext|]|] eqn:Es; [|done..]. cbn [mbind option_bind].
  destruct (if 0 <? utrust then trust_chk cert ext cf else Some 0) as [sta|] eqn:Et; [|done]. cbn [mbind option_bind].
  destruct (Z.ltb_spec sta 0) as [Hneg|Hpos]; [intros [= -> _]; lia|].
  set (fl := if 0 <? utrust then _ else _).
  destruct (profile_chk H strict x cert (cert_type utrust fl)) as [p|] eqn:Ep; [|done]. cbn [mbind option_bind].
  intros Heq. assert (Hp : p = 0 /\ (allowex = false -> 0 <= cmp_notAfter H x) /\
    flags = (if 0 <? cmp_notBefore H x then Z.lor fl SCM_FLAG_NOTYET else fl)).
  { destruct (Z.eqb_spec p 0) as [->|Hp], allowex; cbn in Heq.
    - injection Heq as <-. done.
    - destruct (Z.ltb_spec (cmp_notAfter H x) 0); [done|]. injection Heq as <-. done.
    - destruct (p =? 0) eqn:E0; [by apply Z.eqb_eq in E0|]. by injection Heq as -> _.
    - destruct (p =? 0) eqn:E0; [by apply Z.eqb_eq in E0|]. by injection Heq as -> _. }
  destruct Hp as (-> & Hexp & ->). split.
  { unfold entry_flags. fold fl. destruct (0 <? cmp_notBefore H x); [done|]. by rewrite Z.lor_0_r. }
  exists cert. split; [done| | |done].
  - intros Hu. rewrite (proj2 (Z.ltb_lt _ _) Hu) in Et. apply trust_chk_ok in Et as [?|[_ Ht]]; [lia|]. by exists ext.
  - revert Ep. unfold cert_type, fl. destruct (0 <? utrust); [done|]. by rewrite ca_bit.
Qed.
End checks.

(** [t'] is [t] with the certificate under a new id, as [add_cert_2] puts it. *)
Definition inserted (esc : string -> string) (flags : Z) (dir : string) (cf : cert_row) (t t' : tables) (nid : Z) : Prop :=
  (forall c, c ∈ certs t -> c_sig c <> c_sig cf /\ c_id c <> nid) /\
  t' = set_certs (certs t ++ [cert_row_of esc nid (cert_with dir flags cf)]) t.

(** The flags say whether the chain is good, and nothing else is lost. *)
Lemma admission_flags f b on : validated f = false -> nochain f = false -> on = 0 \/ on = SCM_FLAG_ONMAN ->
  let f' := Z.lor (Z.lor f (if b : bool then SCM_FLAG_VALIDATED else SCM_FLAG_NOCHAIN)) on in
  validated f' = b /\ nochain f' = negb b /\
  forall k, k <> 2 -> k <> 3 -> k <> 8 -> Z.testbit f' k = Z.testbit f k.
Proof.
  intros Hv Hn Hon f'. unfold f', validated, nochain in *. rewrite !Z.lor_spec, Hv, Hn. split_and!.
  - by destruct b, Hon as [->| ->].
  - by destruct b, Hon as [->| ->].
  - intros k H2 H3 H8. rewrite !Z.lor_spec.
    assert (Z.testbit (if b then SCM_FLAG_VALIDATED else SCM_FLAG_NOCHAIN) k = false) as ->.
    { destruct b; [change SCM_FLAG_VALIDATED with (2 ^ 2)|change SCM_FLAG_NOCHAIN with (2 ^ 3)]; by apply Z.pow2_bits_false. }
    assert (Z.testbit on k = false) as ->.
    { destruct Hon as [->| ->]; [apply Z.bits_0|change SCM_FLAG_ONMAN with (2 ^ 8); by apply Z.pow2_bits_false]. }
    by rewrite !orb_false_r.
Qed.

(** C13: A certificate that [add_cert_2] adds (it returns with status 0, no
    statement failing) passed every check: the profile for its type, self-signature
    and key sizes if it is to be a trust anchor, its end date, no validated CRL of its
    issuer lists it, and no certificate has its signature. It is in the table under a
    new id, with either VALIDATED or NOCHAIN. VALIDATED: a chain of validated
    certificates up to a trust anchor was built and verified, and what waits for the
    certificate is looked at. NOCHAIN: it is not a trust anchor itself, and following
    the parents from it, one is missing, ambiguous or cannot be read before a trust
    anchor is reached. The flags for trust anchors and dates in the future are as they
    should be. That [add_cert_2] returns is assumed: it does not when certificates name
    each other as parents (lemma [cycle_loops]). *)
Theorem add_cert_admits sql_ok clock in_order esc {X509} (H : henv X509) strict allowex useParacerts fuel cf x dir utrust
    fullpath s s' flags :
  (forall n, sql_ok n = true) -> (forall A (l : list A), in_order A l ≡ₚ l) ->
  validated (c_flags cf) = false -> nochain (c_flags cf) = false ->
  add_cert_2 sql_ok clock in_order esc H strict allowex useParacerts fuel cf x dir utrust fullpath s = (s', inr (0, flags)) ->
  (exists cert, cert_checked H strict allowex cf x utrust fullpath cert) /\
  (forall l, l ∈ crls (tabs s) -> revoking_crl (c_issuer cf) l = true -> crl_has (c_sn cf) l = false) /\
  (forall k, k <> 2 -> k <> 3 -> k <> 8 -> Z.testbit flags k = Z.testbit (entry_flags H x utrust cf) k) /\
  exists t1 s1 nid, sigvals_only (tabs s) t1 /\ inserted esc flags dir cf t1 (tabs s1) nid /\
    (validated flags = true /\ nochain flags = false /\
       chained (ssl H) (tabs s) x (negb (utrust =? 0)) (fetched (c_aki cf)) (c_issuer cf) /\
       (exists subject, c_subject cf = Some subject /\
          verifyChildren sql_ok clock in_order esc H useParacerts fuel (c_ski cf) subject nid s1 = (s', inr 0)) \/
     validated flags = false /\ nochain flags = true /\ s' = s1 /\ utrust = 0 /\
       chainless (ssl H) useParacerts (srch_cols s <> SrchAKI) (tabs s) (fetched (c_aki cf)) (Some (c_issuer cf))).
Proof.
  intros Hsql Horder Hv Hn. unfold add_cert_2. intros ([sta fl] & s1 & E1 & Hr)%est_bind_run.
  destruct (precheck_cert H strict allowex cf x utrust fullpath) as [p|] eqn:Ec; [|done]. injection E1 as <- ->.
  destruct (Z.eqb_spec sta 0) as [->|Hsta]; [|by injection Hr as _ ? _]. cbn [negb] in Hr. apply precheck_ok in Ec as [-> Hcert].
  split; [done|]. apply est_bind_run in Hr as (aki & s2 & E2 & Hr).
  assert (Haki : s2 = s /\ aki = fetched (c_aki cf)).
  { destruct (utrust =? 0); cbn in E2; [destruct (c_aki cf); [|done]|]; by injection E2 as <- <-. }
  destruct Haki as [-> ->]. apply est_bind_run in Hr as ([sta b] & s3 & E3 & Hr).
  destruct (Z.eqb_spec sta 0) as [->|Hsta]; [|by injection Hr as _ ? _]. cbn [negb] in Hr.
  apply (verify_cert_run sql_ok in_order Horder) in E3 as (Hsv & Hch & Hno).
  apply est_bind_run in Hr as (sta & s4 & E4 & Hr). destruct (Z.eqb_spec sta 0) as [->|Hsta]; [|by injection Hr as _ ? _]. cbn [negb] in Hr.
  apply (cert_revoked_run sql_ok _ _ _ _ Hsql) in E4 as [Ht4 Hcrl].
  apply est_bind_run in Hr as ([sta fl] & s5 & E5 & Hr). destruct (Z.eqb_spec sta 0) as [->|Hsta]; [|by injection Hr as _ ? _]. cbn [negb] in Hr.
  apply (add_state_run sql_ok in_order Horder) in E5 as (Ht5 & on & -> & Hon).
  apply est_bind_run in Hr as ([sta nid] & s6 & E6 & Hr).
  set (fl := Z.lor (Z.lor _ _) on) in *.
  destruct (admission_flags (entry_flags H x utrust cf) b on) as (Hf1 & Hf2 & Hf3); [| |done|].
  1,2: unfold entry_flags, validated, nochain in *; destruct (0 <? utrust), (0 <? cmp_notBefore H x);
    by rewrite !Z.lor_spec, ?Hv, ?Hn.
  fold fl in Hf1, Hf2, Hf3.
  assert (Hin : sta = 0 -> inserted esc fl dir cf (tabs s3) (tabs s6) nid).
  { intros ->. destruct (add_cert_run sql_ok in_order Horder esc (cert_with dir fl cf) s5) as (s6' & v & n & E6' & Hins).
    rewrite E6 in E6'. injection E6' as <- <- <-. destruct Hins as [(_ & _ & Hd & Ht)|[? _]]; [|lia].
    rewrite Ht5, Ht4 in Hd, Ht. done. }
  assert (Hcrls : crls (tabs s3) = crls (tabs s)) by (destruct Hsv as [-> _]; done). rewrite Hcrls in Hcrl.
  split; [done|]. destruct (Z.eqb_spec sta 0) as [->|Hsta]; cbn [andb] in Hr; [|by injection Hr as _ -> _].
  destruct b.
  - apply est_bind_run in Hr as (subject & s7 & E7 & Hr). destruct (c_subject cf) as [sub|]; [|done]. injection E7 as <- <-.
    apply est_bind_run in Hr as (sta & s8 & E8 & Hr). injection Hr as <- -> <-.
    split; [done|]. exists (tabs s3), s6, nid. split; [done|]. split; [by apply Hin|]. left.
    split; [done|]. split; [done|]. split; [by apply Hch|]. by exists sub.
  - injection Hr as <- <-. split; [done|]. exists (tabs s3), s6, nid. split; [done|]. split; [by apply Hin|]. right.
    destruct (Hno eq_refl Hsql) as [Hu Hcl]. split; [done|]. split; [done|]. split; [done|]. split; [|done].
    apply Z.eqb_eq. by destruct (utrust =? 0).
Qed.

(** ** Long manifests *)

Definition add_name (text : list Z) (fah : FileAndHash) : list Z :=
  text ++ (if (length text =? 0)%nat then [] else [32]) ++ fah_file fah.
Definition joined (text : list Z) (l : list FileAndHash) : list Z := foldl add_name text l.

Lemma joined_longer l : forall text, (length text <= length (joined text l))%nat.
Proof.
  induction l as [|f l IH]; intros text; [done|]. etransitivity; [|apply IH]. unfold add_name. rewrite !length_app. lia.
Qed.

Lemma good_name file : bad_name file = false -> c_string file = file.
Proof.
  unfold bad_name. intros [[Eb _]%orb_false_iff _]%orb_false_iff. induction file as [|y f IH]; [done|]. cbn in Eb |- *.
  destruct (y =? 0); [done|]. destruct (y =? 47); [done|]. f_equal. by apply IH.
Qed.

Lemma man_files_joined l : check_mft_filenames l = 0 -> forall text, (length text < MANFILES_SIZE)%nat ->
  Forall (fun fah => (length (fah_file fah) < 200)%nat) l ->
  man_files l text = if (length (joined text l) <? MANFILES_SIZE)%nat then inr (joined text l) else inl DbAbort.
Proof.
  induction l as [|fah l IH]; intros Hc text Ht HF; cbn -[MANFILES_SIZE Nat.ltb Nat.leb Nat.sub add_name].
  { by rewrite (proj2 (Nat.ltb_lt _ _) Ht). }
  inversion HF as [|? ? Hlen HF']; subst. cbn [check_mft_filenames] in Hc.
  destruct (NAME_MAX <? _); [done|]. destruct (_ <=? 0); [done|]. destruct (bad_name _) eqn:Eb; [done|].
  destruct (negb _); [done|]. rewrite (proj2 (Nat.leb_gt _ _) Hlen), (good_name _ Eb).
  set (out := _ ++ fah_file fah). change (add_name text fah) with (text ++ out).
  destruct (Nat.leb_spec (MANFILES_SIZE - length text) (length out)) as [Hbig|Hfit].
  - pose proof (joined_longer l (text ++ out)) as Hmono. rewrite length_app in Hmono. unfold joined in Hmono.
    destruct (Nat.ltb_spec (length (foldl add_name (text ++ out) l)) MANFILES_SIZE); [lia|done].
  - apply IH; [done|rewrite length_app; lia|done].
Qed.

(** A list that [manifestValidate] lets pass aborts the program when its names,
    with spaces between, fill the buffer, and is undefined behaviour when one has 200
    bytes or more (255 are allowed). *)
Lemma man_files_abort l : check_mft_filenames l = 0 -> Forall (fun fah => (length (fah_file fah) < 200)%nat) l ->
  man_files l [] = inl DbAbort <-> (MANFILES_SIZE <= length (joined [] l))%nat.
Proof.
  intros Hc HF. rewrite man_files_joined; [|done| |done]; [|unfold MANFILES_SIZE; cbn -[Z.to_nat]; lia].
  destruct (Nat.ltb_spec (length (joined [] l)) MANFILES_SIZE); split; try done; lia.
Qed.

Lemma man_files_overflow fah l : (200 <= length (fah_file fah))%nat -> man_files (fah :: l) [] = inl DbUndefined.
Proof. intros Hl. cbn -[Nat.leb]. by rewrite (proj2 (Nat.leb_le _ _) Hl). Qed.

(** ** Undoing *)

(** The certificate of a signed object is below [EEcertificates]; [undo] looks for it
    beside the object, so that it stays. *)
Lemma undo_keeps sql_ok clock in_order esc now outfile tdir rest s r :
  (forall n, sql_ok n = true) -> (forall n, clock n = Some now) -> (forall A (l : list A), in_order A l ≡ₚ l) ->
  good esc (tabs s) -> dirs_ok (tabs s) -> r ∈ rows_of CertTab (tabs s) ->
  m_dir r = (ee_top tdir +:+ rest)%string ->
  ends (fun fuel => undo sql_ok clock in_order esc fuel outfile (tdir +:+ rest)%string) s
    (fun _ t' => exists r', r' ∈ rows_of CertTab t' /\ same_row r r').
Proof.
  intros Hsql Hclock Horder G Hd Hr Hdir. unfold undo, delete_object.
  eapply (ends_bind _ _ _ (fun _ t' => exists r', r' ∈ rows_of CertTab t' /\ same_row r r')); [|intros v s1 Hv; by apply ends_ret].
  eapply ends_bind; [apply (delete_cert_row sql_ok clock in_order esc now); [done..|]|].
  { by rewrite ee_filetype. }
  cbn beta. intros v s1 (Hv & _ & Hg). rewrite ee_filetype.
  assert (Hkeep : exists r', r' ∈ rows_of CertTab (tabs s1) /\ same_row r r').
  { destruct (ge_stay _ _ _ Hg CertTab r Hr) as (r' & Hr' & Hs); [|by exists r'].
    intros (_ & _ & Ed). rewrite Hdir in Ed. apply (f_equal String.length) in Ed. unfold ee_top in Ed.
    rewrite !length_append in Ed. cbn in Ed. lia. }
  change (has_ee OT_CER) with false. destruct (negb (v =? 0)); by apply ends_ret.
Qed.

(** ** Examples *)

Definition d_env (E : env Z) : henv Z :=
  {| ssl := E; x509_view := fun _ => demo_x; ext_d2i := demo_d2i; ext_supported := fun _ => true;
     addr_canonical := fun _ => true; asid_canonical := fun _ => true; cmp_notAfter := fun _ => 1;
     cmp_notBefore := fun _ => -1; h_sha1 := sample_sha1; h_sha256 := sample_sha256; h_check_sig := fun _ _ => 0;
     h_open := fun _ => None; h_regexp := fun _ => None; isokfile := fun _ => 0; put_cert_file := fun _ _ => true;
     cert_file := fun _ => Some demo_cert; crl_file := fun _ => None; cms_file := fun _ => None;
     h_casn_manifest := fun _ => []; roa_file := fun _ => ReadFailed; h_decode_casn_lth := fun _ => None; cert_is_x509 := fun _ => true;
     h_fields := fun _ => mkX509Fields None None None DateNull DateNull None []; h_d2i_crl := fun _ _ => None;
     h_bn2hex := fun _ => None; h_bn2bin := fun _ => []; h_hex_to_string := fun _ => None; h_malloc := fun _ _ => true;
     h_mem := fun _ _ => true; h_time := 0; utf8_locale := true |}.

(** A certificate below "a", which is below the trust anchor of [v_tables]. *)
Definition d_cf : cert_row :=
  mkCert 0 "e.cer" "" (Some "e"%string) "a" (replicate 20 7) SCM_FLAG_CA "ke" (Some "ka"%string) "sig" 0 100 0 None.

Lemma add_cert_admits_witness : exists s1,
  inserted id (Z.lor SCM_FLAG_CA SCM_FLAG_VALIDATED) "d" d_cf
    (tabs (fst (verify_cert (fun _ => true) (fun _ l => l) v_env false 5 3 false "ka" (Some "a"%string) (mkDbst v_tables 0 0 SrchNone))))
    (tabs s1) 3 /\
  (exists cert, cert_checked (d_env v_env) true false d_cf 3 0 "d/e.cer" cert).
Proof.
  pose proof (add_cert_admits (fun _ => true) (fun _ => Some 50) (fun _ l => l) id (d_env v_env) true false false 5 d_cf 3 "d" 0 "d/e.cer"
    (mkDbst v_tables 0 0 SrchNone)
    (fst (add_cert_2 (fun _ => true) (fun _ => Some 50) (fun _ l => l) id (d_env v_env) true false false 5 d_cf 3 "d" 0 "d/e.cer"
       (mkDbst v_tables 0 0 SrchNone))) (Z.lor SCM_FLAG_CA SCM_FLAG_VALIDATED)
    (fun _ => eq_refl) (fun _ _ => Permutation_refl _) eq_refl eq_refl ltac:(vm_compute; reflexivity)) as (Hc & _).
  eexists (mkDbst _ 0 0 SrchNone). split; [|exact Hc]. split; [|reflexivity].
  intros c Hc'. vm_compute in Hc'. repeat (apply elem_of_cons in Hc' as [->|Hc']; [by vm_compute|]).
  by apply not_elem_of_nil in Hc'.
Defined.

(** Three validated certificates have the name and key of "a", so that no parent is
    chosen for the certificate below: it is marked as validated, where no signature
    verifies. *)
Definition d_forged : cert_row := v_row 9 "f.cer" "a" "kf" "ka" "f" SCM_FLAG_NOCHAIN.
Definition d_tables : tables :=
  mkTables [v_ta; v_a; v_row 5 "a5.cer" "ta" "ka" "kt" "a" SCM_FLAG_VALIDATED;
            v_row 6 "a6.cer" "ta" "ka" "kt" "a" SCM_FLAG_VALIDATED; d_forged] [] [] [] [] [] [] None.
Definition f_env : env Z :=
  {| file_bytes := fun f => Some [1]; d2i_X509 := fun _ b => head b;
     X509_to_subject := X509_to_subject v_env; X509_to_ski := X509_to_ski v_env;
     has_pubkey := has_pubkey v_env; X509_verify := fun _ _ => 0; check_issued := check_issued v_env;
     build_chain := build_chain v_env; chain_checks := chain_checks v_env; literal := literal v_env;
     b64_mem := b64_mem v_env |}.

Example child_unchecked :
  c_flags <$> certs (tabs (fst (verifyChildren (fun _ => true) (fun _ => Some 50) (fun _ l => l) id (d_env f_env) false 9 "ka" "a" 6
    (mkDbst d_tables 0 0 SrchNone)))) =
  [Z.lor SCM_FLAG_VALIDATED SCM_FLAG_TRUSTED; SCM_FLAG_VALIDATED; SCM_FLAG_VALIDATED; SCM_FLAG_VALIDATED; SCM_FLAG_VALIDATED].
Proof. vm_compute. reflexivity. Qed.
