(* ===== verification/ConfigLoad.v ===== *)
(** * The configuration library
    ([src/lib/configlib/config_load.c], [configlib.c], [types/])

    A line is the list of its bytes without the terminating NUL; [line + offset]
    of the code is the rest of the list. The types of the options, the
    environment and the file system are parameters. Allocations are taken to
    succeed, and messages have no effect. *)

From stdpp Require Import strings.
From S2P Require Import Prelude.

Definition MAX_LINE_LENGTH : nat := 2048.
Definition MAX_ARRAY_LENGTH : nat := 256.

Definition NL : Z := 10.
Definition BACKSLASH : Z := 92.
Definition QUOTE : Z := 34.
Definition DOLLAR : Z := 36.
Definition CHARS_WHITESPACE : list Z := [32; 9].
Definition CHARS_ALL_WHITESPACE : list Z := CHARS_WHITESPACE ++ [NL].
Definition CHARS_SPECIAL : list Z := [QUOTE; DOLLAR; BACKSLASH].
(** A-Z, a-z, 0-9 *)
Definition is_option_char (c : Z) : bool :=
  ((65 <=? c) && (c <=? 90)) || ((97 <=? c) && (c <=? 122)) || ((48 <=? c) && (c <=? 57)).
Definition INCLUDE_STR : list Z := [73; 110; 99; 108; 117; 100; 101].
Definition COMMENT_START : Z := 35.
Definition ERROR_ON_UNKNOWN_OPTION : bool := false.

(** ** Characters *)

(** [strspn] and [strcspn] as a split. *)
Fixpoint span (p : Z -> bool) (l : list Z) : list Z * list Z :=
  match l with
  | [] => ([], [])
  | c :: l' => if p c then let '(a, b) := span p l' in (c :: a, b) else ([], l)
  end.

Definition skip_whitespace (line : list Z) : list Z := snd (span (fun c => zin c CHARS_WHITESPACE) line).

Definition skip_comment (line : list Z) : list Z :=
  match line with
  | c :: _ => if c =? COMMENT_START then snd (span (fun c => negb (c =? NL)) line) else line
  | [] => line
  end.

(** ** Options *)

Record config_option (D C : Type) := mkOption {
  opt_name : list Z;
  is_array : bool;
  (* is it a default, the working directory, the text (NULL is [None]) *)
  value_convert : bool -> C -> option (list Z) -> option D;
  array_validate : list D -> bool;
  default_value : option (list Z) }.
Arguments mkOption {D C}.
Arguments opt_name {D C}. Arguments is_array {D C}. Arguments value_convert {D C}.
Arguments array_validate {D C}. Arguments default_value {D C}.

(** [single_value] (NULL until it has been set) or [array_value]. *)
Inductive cv_value (D : Type) := Single (data : option D) | Array (data : list D).
Arguments Single {D}. Arguments Array {D}.

Record config_value (D : Type) := mkValue {
  filled : bool;
  filled_not_default : bool;
  cv_data : cv_value D }.
Arguments mkValue {D}. Arguments filled {D}. Arguments filled_not_default {D}. Arguments cv_data {D}.

Inductive opt_key := OptInclude | OptUnknown | Opt (key : nat).

Section config.
Context {D C : Type} (config_options : list (config_option D C)).
Context (getenv : list Z -> option (list Z)).

Fixpoint find_option (name : list Z) (l : list (config_option D C)) (key : nat) : option nat :=
  match l with
  | [] => None
  | o :: l => if bool_decide (opt_name o = name) then Some key else find_option name l (S key)
  end.

Definition get_option (line : list Z) : option (opt_key * list Z) :=
  let '(name, rest) := span (fun c => negb (zin c CHARS_ALL_WHITESPACE)) line in
  if (length name =? 0)%nat then None
  else if negb (forallb is_option_char name) then None
  else if bool_decide (name = INCLUDE_STR) then Some (OptInclude, rest)
  else match find_option name config_options 0 with
  | Some key => Some (Opt key, rest)
  | None => if ERROR_ON_UNKNOWN_OPTION then None else Some (OptUnknown, rest)
  end.

(** ** Values *)

Definition ends_value (line : list Z) : bool :=
  match line with [] => true | c :: _ => zin c CHARS_ALL_WHITESPACE end.

(** [${NAME}] after the dollar: the value and what follows. An unset variable is
    empty. *)
Definition substitute (line : list Z) : option (list Z * list Z) :=
  match line with
  | c :: line =>
      if negb (c =? 123) then None
      else
        let '(variable, rest) :=
          span (fun c => negb (zin c (CHARS_ALL_WHITESPACE ++ CHARS_SPECIAL ++ [125]))) line in
        match rest with
        | c :: rest => if c =? 125 then Some (from_option id [] (getenv variable), rest) else None
        | [] => None
        end
  | [] => None
  end.

Definition unescape (c : Z) : option Z :=
  if zin c CHARS_SPECIAL then Some c
  else if c =? 110 then Some NL
  else if c =? 114 then Some 13
  else if c =? 116 then Some 9
  else None.

(** The loop of [get_value], with the value so far. *)
Fixpoint value_loop (fuel : nat) (quoted escaped : bool) (line value : list Z) : option (list Z * list Z) :=
  match fuel with
  | O => None
  | S fuel =>
      match line with
      | [] => if quoted then None else Some (value, line)
      | c :: line' =>
          if quoted && (c =? NL) then None
          else if negb quoted && zin c CHARS_ALL_WHITESPACE then Some (value, line)
          else if quoted && negb escaped && (c =? QUOTE) then
            if ends_value line' then Some (value, line') else None
          else if quoted && negb escaped && (c =? BACKSLASH) then
            value_loop fuel quoted true line' value
          else if quoted && escaped then
            match unescape c with
            | Some x => value_loop fuel quoted false line' (value ++ [x])
            | None => None
            end
          else if c =? DOLLAR then
            match substitute line' with
            | Some (x, rest) => value_loop fuel quoted escaped rest (value ++ x)
            | None => None
            end
          else if zin c CHARS_SPECIAL then None
          else value_loop fuel quoted escaped line' (value ++ [c])
      end
  end.

Definition get_value (line : list Z) : option (list Z * list Z) :=
  match line with
  | c :: line' => if c =? QUOTE then value_loop (S (length line)) true false line' []
                  else value_loop (S (length line)) false false line []
  | [] => value_loop 1 false false line []
  end.

(** The loop of [get_all_values]; on return the rest is empty, a newline with what
    follows, or a continuation. *)
Fixpoint values_loop (fuel : nat) (line : list Z) (values : list (list Z)) : option (list (list Z) * list Z) :=
  match fuel with
  | O => None
  | S fuel =>
      if bool_decide (line = [BACKSLASH; NL]) then Some (values, line)
      else if bool_decide (line = [BACKSLASH]) then None
      else
        let line := skip_comment line in
        match line with
        | [] => Some (values, line)
        | c :: _ =>
            if c =? NL then Some (values, line)
            else if (MAX_ARRAY_LENGTH <=? length values)%nat then None
            else match get_value line with
            | None => None
            | Some (v, rest) => values_loop fuel (skip_whitespace rest) (values ++ [v])
            end
        end
  end.

Definition get_all_values (line : list Z) (values : list (list Z)) : option (list (list Z) * list Z) :=
  values_loop (S (length line)) line values.

(** Conversion stops at the first value that is refused. *)
Definition convert_values (is_default : bool) (cwd : C) (o : config_option D C) (cv : config_value D)
    (values : list (list Z)) : option (config_value D) :=
  let nd := negb is_default || filled_not_default cv in
  if is_array o then
    data ← mapM (fun v => value_convert o is_default cwd (Some v)) values;
    if array_validate o data then Some (mkValue true nd (Array data)) else None
  else
    match values with
    | [] => data ← value_convert o is_default cwd None; Some (mkValue true nd (Single (Some data)))
    | [v] => data ← value_convert o is_default cwd (Some v); Some (mkValue true nd (Single (Some data)))
    | _ => None
    end.

(** ** Files *)

(** Opening a file of a directory, going to the directory of a file, and whether
    [getcwd] and going back work. Reading stops at an error as at the end. *)
Record filesys := mkFs {
  fopen : C -> list Z -> option (list Z);
  enter : C -> list Z -> option C;
  getcwd_ok : C -> bool;
  back_ok : C -> bool }.
Context (fs : filesys).

(** Up to a newline or [n] bytes. *)
Fixpoint fgets (n : nat) (content : list Z) : list Z * list Z :=
  match n, content with
  | S n, c :: content =>
      if c =? NL then ([c], content) else let '(a, b) := fgets n content in (c :: a, b)
  | _, _ => ([], content)
  end.

Inductive outcome := Parsed (v : list (config_value D)) | Failed | NoFuel.

Fixpoint parse_lines (fuel : nat) (cwd : C) (content : list Z) (option_ : option opt_key) (values : list (list Z))
    (config_values : list (config_value D)) {struct fuel} : outcome :=
  match fuel with
  | O => NoFuel
  | S fuel =>
      match content with
      | [] => Parsed config_values
      | _ :: _ =>
          let '(buf, content) := fgets (MAX_LINE_LENGTH - 1) content in
          let line := fst (span (fun c => negb (c =? 0)) buf) in
          if (length line =? MAX_LINE_LENGTH - 1)%nat then Failed
          else if zin 13 line then Failed
          else
            let line := skip_whitespace line in
            let finish (key : opt_key) (values : list (list Z)) (line : list Z) :=
              if bool_decide (line = [BACKSLASH; NL]) then
                parse_lines fuel cwd content (Some key) values config_values
              else
                let next (config_values : list (config_value D)) :=
                  match line with
                  | [] => Parsed config_values
                  | _ :: _ => parse_lines fuel cwd content None values config_values
                  end in
                match key with
                | OptInclude =>
                    match values with
                    | [file] =>
                        match parse_file fuel cwd file config_values with
                        | Parsed config_values => next config_values
                        | r => r
                        end
                    | _ => Failed
                    end
                | OptUnknown => next config_values
                | Opt k =>
                    match config_options !! k, config_values !! k with
                    | Some o, Some cv =>
                        match convert_values false cwd o cv values with
                        | Some cv => next (<[k := cv]> config_values)
                        | None => Failed
                        end
                    | _, _ => Failed
                    end
                end in
            match option_ with
            | Some key =>
                match get_all_values line values with
                | Some (values, line) => finish key values line
                | None => Failed
                end
            | None =>
                let line := skip_comment line in
                match line with
                | [] => Parsed config_values
                | c :: _ =>
                    if c =? NL then parse_lines fuel cwd content None values config_values
                    else match get_option line with
                    | None => Failed
                    | Some (key, line) =>
                        match get_all_values (skip_whitespace line) [] with
                        | Some (values, line) => finish key values line
                        | None => Failed
                        end
                    end
                end
            end
      end
  end
with parse_file (fuel : nat) (cwd : C) (file : list Z) (config_values : list (config_value D)) {struct fuel} : outcome :=
  match fuel with
  | O => NoFuel
  | S fuel =>
      match fopen fs cwd file with
      | None => Failed
      | Some content =>
          if negb (getcwd_ok fs cwd) then Failed
          else match enter fs cwd file with
          | None => Failed
          | Some dir =>
              match parse_lines fuel dir content None [] config_values with
              | Parsed v => if back_ok fs cwd then Parsed v else Failed
              | r => r
              end
          end
      end
  end.

Definition config_parse_file := parse_file.

(** ** Loading *)

Definition initial_value (o : config_option D C) : config_value D :=
  mkValue false false (if is_array o then Array [] else Single None).

Definition load_default (cwd : C) (o : config_option D C) : option (config_value D) :=
  match default_value o with
  | None => Some (initial_value o)
  | Some text =>
      '(values, rest) ← get_all_values text [];
      if negb (length rest =? 0)%nat then None else convert_values true cwd o (initial_value o) values
  end.

Definition config_load_defaults (cwd : C) : option (list (config_value D)) := mapM (load_default cwd) config_options.

(** The first default file that can be read; one that exists and cannot is an
    error. [access] gives 0, ENOENT (2) or another error. *)
Fixpoint first_accessible (access : list Z -> Z) (l : list (list Z)) : option (option (list Z)) :=
  match l with
  | [] => Some None
  | f :: l => if access f =? 0 then Some (Some f) else if access f =? 2 then first_accessible access l else None
  end.

Definition config_load (access : list Z -> Z) (fuel : nat) (cwd : C) (filename : option (list Z))
    (default_filenames : list (list Z)) : outcome :=
  match match filename with Some f => Some (Some f) | None => first_accessible access default_filenames end with
  | None => Failed
  | Some filename =>
      match config_load_defaults cwd with
      | None => Failed
      | Some v =>
          match match filename with None => Parsed v | Some f => config_parse_file fuel cwd f v end with
          | Parsed v => if forallb filled v then Parsed v else Failed
          | r => r
          end
      end
  end.
End config.

Arguments filesys : clear implicits.
Arguments mkFs {C}.
Arguments outcome : clear implicits.
Arguments Parsed {D}. Arguments Failed {D}. Arguments NoFuel {D}.

(** ** Types of options *)

Fixpoint bytes_of (s : String.string) : list Z :=
  match s with
  | String.EmptyString => []
  | String.String c s => Z.of_nat (Ascii.nat_of_ascii c) :: bytes_of s
  end.

Definition true_names : list (list Z) :=
  map bytes_of ["true"; "True"; "TRUE"; "t"; "T"; "yes"; "Yes"; "YES"; "y"; "Y"; "1"]%string.
Definition false_names : list (list Z) :=
  map bytes_of ["false"; "False"; "FALSE"; "f"; "F"; "no"; "No"; "NO"; "n"; "N"; "0"]%string.

Definition config_type_bool_converter (input : option (list Z)) : option bool :=
  match input with
  | None => None
  | Some w => if bool_decide (w ∈ true_names) then Some true
              else if bool_decide (w ∈ false_names) then Some false else None
  end.

Definition config_type_string_converter (allow_null : bool) (input : option (list Z)) : option (option (list Z)) :=
  match input with
  | None => if allow_null then Some None else None
  | Some w => Some (Some w)
  end.

(** The first item with the name. *)
Fixpoint config_type_enum_converter {A} (args : list (list Z * A)) (input : list Z) : option A :=
  match args with
  | [] => None
  | (name, value) :: args => if bool_decide (name = input) then Some value else config_type_enum_converter args input
  end.
