(* ===== verification/ConfigThm.v ===== *)
(** * The configuration library: theorems

    Writing a configuration in the quoted form and loading it gives the values
    that were written. *)

From stdpp Require Import strings.
From S2P Require Import Prelude ConfigLoad.

(** ** Words *)

Definition escape1 (c : Z) : list Z :=
  if zin c CHARS_SPECIAL then [BACKSLASH; c]
  else if c =? NL then [BACKSLASH; 110]
  else if c =? 13 then [BACKSLASH; 114]
  else if c =? 9 then [BACKSLASH; 116]
  else [c].
Definition quote (w : list Z) : list Z := QUOTE :: flat_map escape1 w ++ [QUOTE].

Section thm.
Context {D C : Type} (opts : list (config_option D C)) (getenv : list Z -> option (list Z)).

Lemma zin_false x l : zin x l = false -> forall y, y ∈ l -> x <> y.
Proof. intros H y Hy ->. apply not_true_iff_false in H. apply H. apply existsb_exists. exists y. rewrite Z.eqb_refl. split; [by apply list_elem_of_In|done]. Qed.

Lemma value_loop_quoted w : forall fuel value rest, ends_value rest = true -> (length (flat_map escape1 w) < fuel)%nat ->
  value_loop getenv fuel true false (flat_map escape1 w ++ QUOTE :: rest) value = Some (value ++ w, rest).
Proof.
  induction w as [|c w IH]; intros fuel value rest Hr Hf.
  { destruct fuel; [lia|]. cbn. by rewrite Hr, app_nil_r. }
  cbn [flat_map] in *. rewrite length_app in Hf. rewrite <- app_assoc.
  replace (value ++ c :: w) with ((value ++ [c]) ++ w) by (by rewrite <- app_assoc).
  unfold escape1 at 1 in Hf. unfold escape1 at 1. destruct (zin c CHARS_SPECIAL) eqn:Es.
  { destruct fuel as [|[|fuel]]; cbn in Hf; [lia..|]. cbn [app value_loop]. cbn [andb negb Z.eqb BACKSLASH NL QUOTE].
    assert (c <> NL) as Hnl by (intros ->; done). rewrite (proj2 (Z.eqb_neq c NL) Hnl). cbn [andb negb].
    replace (92 =? 10) with false by done. cbn. unfold unescape. rewrite Es. apply IH; [done|lia]. }
  assert (Hesc : forall x y, unescape x = Some y -> (x =? NL) = false ->
    value_loop getenv fuel true false ([BACKSLASH; x] ++ flat_map escape1 w ++ QUOTE :: rest) value =
    value_loop getenv (fuel - 2) true false (flat_map escape1 w ++ QUOTE :: rest) (value ++ [y]) \/ (fuel < 2)%nat).
  { intros x y Hu Hx. destruct fuel as [|[|fuel]]; [right; lia..|left]. cbn [app value_loop andb negb].
    rewrite Hx, Hu. cbn. by rewrite Nat.sub_0_r. }
  destruct (c =? NL) eqn:E1.
  { apply Z.eqb_eq in E1 as ->. cbn in Hf. destruct (Hesc 110 NL eq_refl eq_refl) as [->|?]; [|lia]. apply IH; [done|lia]. }
  destruct (c =? 13) eqn:E2.
  { apply Z.eqb_eq in E2 as ->. cbn in Hf. destruct (Hesc 114 13 eq_refl eq_refl) as [->|?]; [|lia]. apply IH; [done|lia]. }
  destruct (c =? 9) eqn:E3.
  { apply Z.eqb_eq in E3 as ->. cbn in Hf. destruct (Hesc 116 9 eq_refl eq_refl) as [->|?]; [|lia]. apply IH; [done|lia]. }
  destruct fuel as [|fuel]; cbn in Hf; [lia|]. cbn [app value_loop andb negb]. rewrite E1. cbn [andb negb].
  pose proof (zin_false _ _ Es) as Hns.
  rewrite (proj2 (Z.eqb_neq c QUOTE)) by (apply Hns; left).
  rewrite (proj2 (Z.eqb_neq c BACKSLASH)) by (apply Hns; right; right; left).
  rewrite (proj2 (Z.eqb_neq c DOLLAR)) by (apply Hns; right; left). rewrite Es. apply IH; [done|lia].
Qed.

Lemma get_value_quote w rest : ends_value rest = true -> get_value getenv (quote w ++ rest) = Some (w, rest).
Proof.
  intros Hr. unfold get_value, quote. cbn [app]. rewrite Z.eqb_refl, <- app_assoc. cbn [app].
  rewrite value_loop_quoted; [done|done|]. cbn [length]. rewrite length_app. lia.
Qed.

(** ** Lines *)

(** The values of a line; the first needs no space before it. *)
Definition words (ws : list (list Z)) : list Z := flat_map (fun w => 32 :: quote w) ws.

Lemma words_head ws : ends_value (words ws ++ [NL]) = true.
Proof. by destruct ws. Qed.

Lemma skip_words ws : skip_whitespace (words ws ++ [NL]) =
  match ws with [] => [NL] | w :: ws => quote w ++ words ws ++ [NL] end.
Proof. destruct ws as [|w ws]; [done|]. cbn [words flat_map]. fold (words ws). rewrite <- app_assoc. done. Qed.

Lemma words_length ws : (length ws <= length (words ws))%nat.
Proof. induction ws as [|w ws IH]; cbn; [lia|]. rewrite length_app. fold (words ws). cbn. lia. Qed.

Lemma values_loop_words ws : forall fuel values, (length ws < fuel)%nat -> (length values + length ws <= MAX_ARRAY_LENGTH)%nat ->
  values_loop getenv fuel (skip_whitespace (words ws ++ [NL])) values = Some (values ++ ws, [NL]).
Proof.
  induction ws as [|w ws IH]; intros fuel values Hf Hl; rewrite skip_words; (destruct fuel; [lia|]).
  { cbn. by rewrite app_nil_r. }
  cbn [values_loop]. rewrite !bool_decide_eq_false_2 by done.
  replace (skip_comment (quote w ++ words ws ++ [NL])) with (quote w ++ words ws ++ [NL]) by done.
  cbn [length] in *. unfold quote at 1. cbn [app]. replace (QUOTE =? NL) with false by done.
  rewrite (proj2 (Nat.leb_gt _ _)) by lia. change (QUOTE :: _) with (quote w ++ words ws ++ [NL]).
  rewrite get_value_quote by apply words_head. rewrite IH; [by rewrite <- app_assoc|lia|]. rewrite length_app. cbn. lia.
Qed.

(** An option with values, as a line of a file. *)
Definition render (o : config_option D C) (ws : list (list Z)) : list Z := opt_name o ++ words ws ++ [NL].

Record assign_ok (o : config_option D C) (ws : list (list Z)) : Prop := {
  ao_name : forallb is_option_char (opt_name o) = true;
  ao_nonempty : opt_name o <> [];
  ao_include : opt_name o <> INCLUDE_STR;
  ao_words : Forall (fun w => 0 ∉ w) ws;
  ao_array : (length ws <= MAX_ARRAY_LENGTH)%nat;
  ao_length : (length (render o ws) < MAX_LINE_LENGTH - 1)%nat }.

Lemma option_char_range c : is_option_char c = true -> 48 <= c <= 122.
Proof. unfold is_option_char. rewrite !orb_true_iff, !andb_true_iff, !Z.leb_le. lia. Qed.

Lemma span_app p a b : forallb p a = true -> (match b with [] => true | c :: _ => negb (p c) end) = true -> span p (a ++ b) = (a, b).
Proof.
  intros Ha Hb. induction a as [|c a IH]; cbn.
  - destruct b as [|c b]; [done|]. cbn. by destruct (p c).
  - cbn in Ha. apply andb_true_iff in Ha as [-> Ha]. by rewrite IH.
Qed.

Lemma get_option_render o ws k : assign_ok o ws -> find_option (opt_name o) opts 0 = Some k ->
  get_option opts (render o ws) = Some (Opt k, words ws ++ [NL]).
Proof.
  intros [Hn Hne Hi _ _ _] Hk. unfold get_option, render.
  rewrite (span_app _ (opt_name o) (words ws ++ [NL])).
  - destruct (opt_name o) eqn:E; [done|]. cbn [length Nat.eqb]. rewrite <- E in *. rewrite Hn. cbn [negb].
    by rewrite bool_decide_eq_false_2, Hk.
  - apply forallb_forall. intros c Hc. rewrite forallb_forall in Hn. apply Hn, option_char_range in Hc.
    apply negb_true_iff. unfold zin. cbn. rewrite !orb_false_iff, !Z.eqb_neq. unfold NL. lia.
  - by destruct ws.
Qed.

Lemma fgets_line l rest : NL ∉ l -> forall n, (length l < n)%nat -> fgets n (l ++ NL :: rest) = (l ++ [NL], rest).
Proof.
  intros Hl n. revert l Hl. induction n as [|n IH]; intros l Hl Hn; [lia|].
  destruct l as [|c l]; [done|]. apply not_elem_of_cons in Hl as [Hc Hl]. cbn [app fgets].
  rewrite (proj2 (Z.eqb_neq c NL)) by congruence. cbn in Hn. rewrite IH by (done || lia). done.
Qed.

(** The bytes of a written line: no newline, carriage return or NUL inside. *)
Lemma escape1_bytes c x : c <> 0 -> x ∈ escape1 c -> x <> NL /\ x <> 13 /\ x <> 0.
Proof.
  intros Hc. unfold escape1, BACKSLASH, NL in *. destruct (zin c CHARS_SPECIAL) eqn:E.
  { assert (c = 34 \/ c = 36 \/ c = 92) by (cbn in E; rewrite !orb_true_iff, !Z.eqb_eq in E; unfold QUOTE, DOLLAR, BACKSLASH in E; naive_solver).
    intros [->|[->|?%not_elem_of_nil]%elem_of_cons]%elem_of_cons; [lia|lia|done]. }
  destruct (Z.eqb_spec c 10); [intros [->|[->|?%not_elem_of_nil]%elem_of_cons]%elem_of_cons; [lia|lia|done]|].
  destruct (Z.eqb_spec c 13); [intros [->|[->|?%not_elem_of_nil]%elem_of_cons]%elem_of_cons; [lia|lia|done]|].
  destruct (c =? 9); [intros [->|[->|?%not_elem_of_nil]%elem_of_cons]%elem_of_cons; [lia|lia|done]|].
  intros ->%list_elem_of_singleton. lia.
Qed.

Lemma words_bytes ws x : Forall (fun w => 0 ∉ w) ws -> x ∈ words ws -> x <> NL /\ x <> 13 /\ x <> 0.
Proof.
  intros Hws Hx. apply list_elem_of_In, in_flat_map in Hx as (w & Hw & Hx).
  rewrite Forall_forall in Hws. apply list_elem_of_In, Hws in Hw.
  assert (x = 32 \/ x = 34 \/ exists c, c ∈ w /\ x ∈ escape1 c) as [->|[->|(c & Hc & Hx')]].
  { unfold quote, QUOTE in Hx. cbn in Hx. rewrite in_app_iff, in_flat_map in Hx. cbn in Hx.
    setoid_rewrite list_elem_of_In. naive_solver. }
  1,2: unfold NL; lia.
  apply (escape1_bytes c); [|done]. intros ->. done.
Qed.

Lemma render_bytes o ws x : assign_ok o ws -> x ∈ opt_name o ++ words ws -> x <> NL /\ x <> 13 /\ x <> 0.
Proof.
  intros [Hn _ _ Hw _ _] [Hx|Hx]%elem_of_app; [|by eapply words_bytes].
  rewrite forallb_forall in Hn. apply list_elem_of_In, Hn, option_char_range in Hx. unfold NL. lia.
Qed.

(** ** Files *)

Context (fs : filesys C) (dir : C).

Definition assign (acc : option (list (config_value D))) (a : nat * list (list Z)) : option (list (config_value D)) :=
  cvs ← acc; o ← opts !! fst a; cv ← cvs !! fst a;
  cv' ← convert_values false dir o cv (snd a); Some (<[fst a := cv']> cvs).

Definition result (v : option (list (config_value D))) : outcome D :=
  match v with Some v => Parsed v | None => Failed end.

Lemma foldl_assign_none l : foldl assign None l = None.
Proof. by induction l. Qed.

Lemma parse_line fuel content vals cvs o k ws : assign_ok o ws -> find_option (opt_name o) opts 0 = Some k -> opts !! k = Some o ->
  parse_lines opts getenv fs (S fuel) dir (render o ws ++ content) None vals cvs =
  match assign (Some cvs) (k, ws) with
  | Some cvs' => parse_lines opts getenv fs fuel dir content None ws cvs'
  | None => Failed
  end.
Proof.
  intros Hok Hk Ho. pose proof (fun x => render_bytes o ws x Hok) as Hb.
  assert (Hne : exists c l, opt_name o ++ words ws = c :: l /\ 48 <= c <= 122).
  { pose proof (ao_name _ _ Hok) as Hn. pose proof (ao_nonempty _ _ Hok) as H0. destruct (opt_name o) as [|c l]; [done|].
    cbn in Hn. apply andb_true_iff in Hn as [Hn _]. apply option_char_range in Hn. by eexists c, _. }
  destruct Hne as (c & l & Ecl & Hc).
  assert (Er : render o ws = (opt_name o ++ words ws) ++ [NL]) by (unfold render; by rewrite app_assoc).
  pose proof (ao_length _ _ Hok) as Hlen. rewrite Er, length_app in Hlen. cbn [length] in Hlen.
  assert (Enz : fst (span (fun x => negb (x =? 0)) (render o ws)) = render o ws).
  { rewrite <- (app_nil_r (render o ws)) at 1. rewrite span_app; [done| |done].
    apply forallb_forall. intros x Hx%list_elem_of_In. apply negb_true_iff, Z.eqb_neq. rewrite Er in Hx.
    apply elem_of_app in Hx as [Hx| ->%list_elem_of_singleton]; [by apply Hb in Hx as (_ & _ & ?)|done]. }
  assert (E13 : zin 13 (render o ws) = false).
  { apply not_true_iff_false. intros (x & Hx%list_elem_of_In & Hx2%Z.eqb_eq)%existsb_exists. subst x. rewrite Er in Hx.
    apply elem_of_app in Hx as [Hx|Hx%list_elem_of_singleton]; [by apply Hb in Hx as (_ & ? & _)|done]. }
  assert (Esk : skip_whitespace (render o ws) = render o ws /\ skip_comment (render o ws) = render o ws).
  { rewrite Er, Ecl. cbn [app]. unfold skip_whitespace, skip_comment, COMMENT_START. cbn [span zin existsb CHARS_WHITESPACE].
    rewrite !(proj2 (Z.eqb_neq _ _)) by lia. done. }
  destruct Esk as [Esk1 Esk2].
  assert (Ecnt : render o ws ++ content = (opt_name o ++ words ws) ++ NL :: content) by (by rewrite Er, <- app_assoc).
  cbn [parse_lines]. destruct (render o ws ++ content) as [|c0 l0] eqn:E0; [rewrite Er, Ecl in E0; done|].
  rewrite Ecnt, fgets_line; [|intros Hx; by apply Hb in Hx as [? _]|lia]. rewrite <- Er, Enz.
  rewrite (proj2 (Nat.eqb_neq _ _)) by (rewrite Er, length_app; cbn [length]; lia). rewrite E13, Esk1, Esk2.
  rewrite Er at 1. rewrite Ecl. cbn [app]. rewrite (proj2 (Z.eqb_neq c NL)) by (unfold NL; lia).
  rewrite (get_option_render o ws k Hok Hk). unfold get_all_values.
  rewrite values_loop_words; [|rewrite skip_words|apply Hok].
  - cbn [app]. rewrite bool_decide_eq_false_2 by done. unfold assign. cbn [fst snd mbind option_bind].
    rewrite Ho. cbn [mbind option_bind]. destruct (cvs !! k) as [cv|]; [|done]. cbn [mbind option_bind].
    by destruct (convert_values false dir o cv ws).
  - pose proof (words_length ws). destruct ws as [|w ws]; [cbn; lia|]. pose proof (words_length ws).
    cbn [length]. rewrite !length_app. cbn [length]. lia.
Qed.

Lemma parse_rendered l : forall fuel vals cvs,
  (forall k ws, (k, ws) ∈ l -> exists o, opts !! k = Some o /\ find_option (opt_name o) opts 0 = Some k /\ assign_ok o ws) ->
  (length l < fuel)%nat ->
  parse_lines opts getenv fs fuel dir
    (flat_map (fun a => match opts !! fst a with Some o => render o (snd a) | None => [] end) l) None vals cvs =
  result (foldl assign (Some cvs) l).
Proof.
  induction l as [|[k ws] l IH]; intros fuel vals cvs Hl Hf; (destruct fuel as [|fuel]; [cbn in Hf; lia|]); [done|].
  destruct (Hl k ws ltac:(left)) as (o & Ho & Hk & Hok). cbn [flat_map fst snd]. rewrite Ho.
  rewrite (parse_line fuel _ vals cvs o k ws Hok Hk Ho). cbn [foldl].
  destruct (assign (Some cvs) (k, ws)) as [cvs'|]; [|by rewrite foldl_assign_none].
  apply IH; [|cbn in Hf; lia]. intros k' ws' Hin. apply Hl. by right.
Qed.

(** ** What the values are *)

(** The last assignment to option [k]. *)
Fixpoint last_assign (k : nat) (l : list (nat * list (list Z))) : option (list (list Z)) :=
  match l with
  | [] => None
  | (k', ws) :: l =>
      match last_assign k l with
      | Some ws => Some ws
      | None => if (k' =? k)%nat then Some ws else None
      end
  end.

Definition content_of (l : list (nat * list (list Z))) : list Z :=
  flat_map (fun a => match opts !! fst a with Some o => render o (snd a) | None => [] end) l.

(** The conversion of a value from a file does not depend on the value before it. *)
Definition converted (o : config_option D C) (ws : list (list Z)) : option (config_value D) :=
  convert_values false dir o (initial_value o) ws.

Lemma convert_values_converted o cv ws : convert_values false dir o cv ws = converted o ws.
Proof. done. Qed.

Lemma converted_filled o ws cv : converted o ws = Some cv -> filled cv = true.
Proof.
  unfold converted, convert_values. intros H. destruct (is_array o).
  - apply bind_Some in H as (d & _ & H). destruct (array_validate o d); by simplify_eq.
  - destruct ws as [|w [|? ?]]; [| |done]; apply bind_Some in H as (d & _ & H); by simplify_eq.
Qed.

Definition all_converted (l : list (nat * list (list Z))) : Prop :=
  forall k ws o, (k, ws) ∈ l -> opts !! k = Some o -> is_Some (converted o ws).

Definition known (l : list (nat * list (list Z))) : Prop :=
  forall k ws, (k, ws) ∈ l -> exists o, opts !! k = Some o /\ find_option (opt_name o) opts 0 = Some k /\ assign_ok o ws.

Lemma assign_spec cvs k ws o : opts !! k = Some o -> length cvs = length opts ->
  assign (Some cvs) (k, ws) = cv ← converted o ws; Some (<[k := cv]> cvs).
Proof.
  intros Ho Hl. unfold assign. cbn [fst snd mbind option_bind]. rewrite Ho. cbn [mbind option_bind].
  destruct (lookup_lt_is_Some_2 cvs k) as [cv ->]; [rewrite Hl; by eapply lookup_lt_Some|]. done.
Qed.

Lemma foldl_assign_values l : forall cvs v, known l -> length cvs = length opts -> foldl assign (Some cvs) l = Some v ->
  all_converted l /\ length v = length opts /\
  forall k o, opts !! k = Some o -> v !! k = match last_assign k l with Some ws => converted o ws | None => cvs !! k end.
Proof.
  induction l as [|[k ws] l IH]; intros cvs v Hk Hl H.
  { cbn in H. simplify_eq. split; [by intros ??? ?%not_elem_of_nil|done]. }
  destruct (Hk k ws ltac:(left)) as (o & Ho & _). cbn [foldl] in H. rewrite (assign_spec cvs k ws o Ho Hl) in H.
  destruct (converted o ws) as [cv|] eqn:Ec; [|by rewrite foldl_assign_none in H].
  apply IH in H as (Ha & Hv & Hs); [|intros ???; apply Hk; by right|by rewrite length_insert].
  split; [|split; [done|]].
  - intros k' ws' o' [E|E]%elem_of_cons Ho'; [|by eapply Ha]. simplify_eq. by rewrite Ec.
  - intros k' o' Ho'. rewrite (Hs k' o' Ho'). cbn [last_assign]. destruct (last_assign k' l); [done|].
    destruct (Nat.eqb_spec k k') as [->|Hne]; [|by apply list_lookup_insert_ne].
    simplify_eq. rewrite list_lookup_insert_eq by (rewrite Hl; by eapply lookup_lt_Some). done.
Qed.

Lemma foldl_assign_total l : forall cvs, known l -> length cvs = length opts -> all_converted l ->
  is_Some (foldl assign (Some cvs) l).
Proof.
  induction l as [|[k ws] l IH]; intros cvs Hk Hl Ha; [done|].
  destruct (Hk k ws ltac:(left)) as (o & Ho & _). cbn [foldl]. rewrite (assign_spec cvs k ws o Ho Hl).
  destruct (Ha k ws o ltac:(left) Ho) as [cv ->]. apply IH; [intros ???; apply Hk; by right|by rewrite length_insert|].
  intros ??? ?. apply Ha. by right.
Qed.

Lemma parse_file_eq fuel cwd file cvs : parse_file opts getenv fs (S fuel) cwd file cvs =
  match fopen fs cwd file with
  | None => Failed
  | Some content =>
      if negb (getcwd_ok fs cwd) then Failed
      else match enter fs cwd file with
      | None => Failed
      | Some dir =>
          match parse_lines opts getenv fs fuel dir content None [] cvs with
          | Parsed v => if back_ok fs cwd then Parsed v else Failed
          | r => r
          end
      end
  end.
Proof. reflexivity. Qed.

(** What [config_load] should leave in the values. *)
Definition loaded (cwd : C) (l : list (nat * list (list Z))) (v : list (config_value D)) : Prop :=
  all_converted l /\ length v = length opts /\
  forall k o, opts !! k = Some o -> exists cv, v !! k = Some cv /\ filled cv = true /\
    match last_assign k l with Some ws => converted o ws | None => load_default getenv cwd o end = Some cv.

Lemma loaded_unique cwd l v v' : loaded cwd l v -> loaded cwd l v' -> v = v'.
Proof.
  intros (_ & Hl & H) (_ & Hl' & H'). apply list_eq. intros k. destruct (opts !! k) as [o|] eqn:Ho.
  - destruct (H k o Ho) as (cv & -> & _ & E). destruct (H' k o Ho) as (cv' & -> & _ & E'). congruence.
  - apply lookup_ge_None in Ho. rewrite !lookup_ge_None_2 by lia. done.
Qed.

Lemma defaults_lookup cwd v0 k o : config_load_defaults opts getenv cwd = Some v0 -> opts !! k = Some o ->
  exists cv, v0 !! k = Some cv /\ load_default getenv cwd o = Some cv.
Proof.
  intros H Ho. apply mapM_Some in H. destruct (Forall2_lookup_l _ _ _ _ _ H Ho) as (cv & ? & ?). by exists cv.
Qed.

Lemma loaded_fold cwd l v0 v : known l -> config_load_defaults opts getenv cwd = Some v0 ->
  (foldl assign (Some v0) l = Some v /\ forallb filled v = true) <-> loaded cwd l v.
Proof.
  intros Hk H0. assert (Hl : length v0 = length opts) by (apply mapM_Some, Forall2_length in H0; done).
  assert (Hf : forall v, foldl assign (Some v0) l = Some v -> forallb filled v = true -> loaded cwd l v).
  { intros w Hw Hfl. destruct (foldl_assign_values l v0 w Hk Hl Hw) as (Ha & Hlen & Hs). split; [done|split; [done|]].
    intros k o Ho. destruct (lookup_lt_is_Some_2 w k) as [cv Hcv]; [rewrite Hlen; by eapply lookup_lt_Some|].
    exists cv. split; [done|]. split; [by eapply forallb_forall, list_elem_of_In, list_elem_of_lookup_2|].
    specialize (Hs k o Ho). rewrite Hcv in Hs. destruct (last_assign k l); [done|].
    destruct (defaults_lookup cwd v0 k o H0 Ho) as (? & ? & ->). congruence. }
  split; [by intros [? ?]; apply Hf|]. intros Hv. destruct Hv as (Ha & Hlen & Hs) eqn:E. clear E.
  destruct (foldl_assign_total l v0 Hk Hl Ha) as [w Hw].
  destruct (foldl_assign_values l v0 w Hk Hl Hw) as (_ & Hlw & Hsw).
  assert (w = v) as ->.
  { apply list_eq. intros k. destruct (opts !! k) as [o|] eqn:Ho.
    - rewrite (Hsw k o Ho). destruct (Hs k o Ho) as (cv & -> & _ & E). destruct (last_assign k l); [done|].
      destruct (defaults_lookup cwd v0 k o H0 Ho) as (? & -> & ?). congruence.
    - apply lookup_ge_None in Ho. rewrite !lookup_ge_None_2 by lia. done. }
  split; [done|]. apply forallb_forall. intros cv (k & Hcv)%list_elem_of_In%list_elem_of_lookup.
  destruct (lookup_lt_is_Some_2 opts k) as [o Ho]; [rewrite <- Hlen; by eapply lookup_lt_Some|].
  destruct (Hs k o Ho) as (cv' & ? & ? & _). congruence.
Qed.
End thm.

(** C31: A configuration written as a file, one line per assignment with every word
    quoted, loads as what was written: with the defaults good and the file and its
    directory at hand, [config_load] ends, and it succeeds exactly when every
    assignment converts and every option is assigned or has a default; each option
    then holds the conversion of the last assignment to it, or its default. Any byte
    but NUL can be in a word, and the environment does not matter. *)
Theorem config_load_written {D C} (opts : list (config_option D C)) getenv (fs : filesys C) access cwd dir f defs l fuel v :
  is_Some (config_load_defaults opts getenv cwd) -> known opts l ->
  fopen fs cwd f = Some (content_of opts l) -> enter fs cwd f = Some dir -> getcwd_ok fs cwd = true -> back_ok fs cwd = true ->
  (S (length l) < fuel)%nat ->
  config_load opts getenv fs access fuel cwd (Some f) defs <> NoFuel /\
  (config_load opts getenv fs access fuel cwd (Some f) defs = Parsed v <-> loaded opts getenv dir cwd l v).
Proof.
  intros [v0 H0] Hk Ho He Hg Hb Hf. rewrite <- (loaded_fold opts getenv dir cwd l v0 v Hk H0).
  unfold config_load. rewrite H0. destruct fuel as [|fuel]; [lia|]. unfold config_parse_file.
  rewrite parse_file_eq, Ho, Hg, He. unfold content_of. rewrite parse_rendered; [|exact Hk|lia]. cbn [negb].
  destruct (foldl _ _ l) as [w|]; cbn [result]; [rewrite Hb; destruct (forallb filled w) eqn:E|].
  all: split; [done|]; (split; [intros [= <-]|intros [[= <-] ?]]); congruence || done.
Qed.

Definition demo_opts : list (config_option (list Z) unit) :=
  [ mkOption (bytes_of "Name"%string) false (fun _ _ w => w) (fun _ => true) None;
    mkOption (bytes_of "Paths"%string) true (fun _ _ w => w) (fun _ => true) (Some (bytes_of "a b"%string)) ].
Definition demo_lines : list (nat * list (list Z)) := [(0%nat, [[49; 10; 36]]); (1%nat, [[]; [32]]); (0%nat, [[34; 92; 13]])].
Definition demo_fs : filesys unit :=
  mkFs (fun _ _ => Some (content_of demo_opts demo_lines)) (fun _ _ => Some tt) (fun _ => true) (fun _ => true).

Lemma config_load_written_witness :
  config_load demo_opts (fun _ => None) demo_fs (fun _ => 0) 5 tt (Some []) [] =
  Parsed [mkValue true true (Single (Some [34; 92; 13])); mkValue true true (Array [[]; [32]])].
Proof.
  apply (config_load_written demo_opts (fun _ => None) demo_fs (fun _ => 0) tt tt [] [] demo_lines 5); try reflexivity.
  - by eexists.
  - intros k ws Hin. unfold demo_lines in Hin. rewrite !elem_of_cons in Hin.
    destruct Hin as [Hin|[Hin|[Hin|Hin%not_elem_of_nil]]]; [| | |done]; simplify_eq; eexists; (split; [reflexivity|]); (split; [reflexivity|]);
      (split; [reflexivity|done|done|apply (bool_decide_unpack _); vm_compute; exact I|apply Nat.leb_le; reflexivity|apply Nat.ltb_lt; vm_compute; reflexivity]).
  - cbn. lia.
  - split; [|split; [reflexivity|]].
    + intros k ws o Hin Ho. unfold demo_lines in Hin. rewrite !elem_of_cons in Hin.
      destruct Hin as [Hin|[Hin|[Hin|Hin%not_elem_of_nil]]]; [| | |done]; simplify_eq; cbn in Ho; simplify_eq; eexists; reflexivity.
    + intros [|[|k]] o Ho; cbn in Ho; simplify_eq; eexists; (split; [reflexivity|]); (split; reflexivity).
Defined.


(** A line that ends in a continuation at the end of the file is dropped with its
    values, and parsing succeeds. *)
Lemma continuation_at_end cvs :
  parse_lines demo_opts (fun _ => None) demo_fs 3 tt (bytes_of "Name x "%string ++ [BACKSLASH; NL]) None [] cvs = Parsed cvs.
Proof. vm_compute. reflexivity. Qed.

(** A line of 2047 bytes with its newline is refused as too long. *)
Lemma line_too_long cvs :
  parse_lines demo_opts (fun _ => None) demo_fs 3 tt (replicate 2046 COMMENT_START ++ [NL]) None [] cvs = Failed /\
  parse_lines demo_opts (fun _ => None) demo_fs 3 tt (replicate 2045 COMMENT_START ++ [NL]) None [] cvs = Parsed cvs.
Proof. split; vm_compute; reflexivity. Qed.
