(* ===== verification/ConnControl.v ===== *)
(** * Accepting connections ([src/bin/rpki-rtr/connection_control.c])

    One thread of the daemon accepts connections, starts a connection thread
    for each, wakes it when its socket is readable and releases what belongs to
    it when it has ended. The model has the resources of the process as state:
    the objects on the heap, the descriptors, the threads not joined yet and the
    bag of connections. Objects that a thread works with are recorded with the
    thread, so that releasing one of them too early is an error of the model,
    as is releasing it twice or using it afterwards.

    Also here: [src/lib/util/semaphore_compat.c].

    What the system does is a [kernel], one answer for each call, indexed by a
    counter that every call advances; the counter also names new objects and
    threads. Return values that are only logged have no effect here. The
    contents of [addr], [host] and [serv] in [connection_info] are left out, the
    memory they are in is not. *)

From S2P Require Import Prelude Bag.
Local Open Scope est_scope.

(** ** Data *)

(** A field is [None] when it is indeterminate. *)
Record connection_info := mkCxn {
  cx_fd : option Z;
  cx_semaphore : option nat;
  cx_thread : option nat;
  cx_started : option bool }.

(** [addr], [host] and [serv] point into the [connection_info] [am_info]. *)
Record connection_main_args := mkArgs {
  am_socket : Z;
  am_info : nat;
  am_semaphore : nat }.

(** What the heap holds. [OSemMem] is memory for a [sem_t] that is not
    initialised. *)
Inductive obj :=
| OCxn (c : connection_info)
| OArgs (a : connection_main_args)
| OSemMem
| OSem.

(** A thread that is not joined, with what it uses. [t_ending]: it has been
    cancelled or is known to have ended. *)
Record thread := mkThread {
  t_fd : Z;
  t_mem : list nat;
  t_ending : bool }.

Record os := mkOs {
  heap : gmap nat obj;
  fds : gset Z;
  threads : gmap nat thread;
  cancel_enabled : bool;
  posted : list nat;
  connections : option (Bag nat);
  tick : nat }.

Definition set_heap h s := mkOs h (fds s) (threads s) (cancel_enabled s) (posted s) (connections s) (tick s).
Definition set_fds f s := mkOs (heap s) f (threads s) (cancel_enabled s) (posted s) (connections s) (tick s).
Definition set_threads t s := mkOs (heap s) (fds s) t (cancel_enabled s) (posted s) (connections s) (tick s).
Definition set_cancel c s := mkOs (heap s) (fds s) (threads s) c (posted s) (connections s) (tick s).
Definition set_posted p s := mkOs (heap s) (fds s) (threads s) (cancel_enabled s) p (connections s) (tick s).
Definition set_connections b s := mkOs (heap s) (fds s) (threads s) (cancel_enabled s) (posted s) b (tick s).
Definition set_tick n s := mkOs (heap s) (fds s) (threads s) (cancel_enabled s) (posted s) (connections s) n.

(** Ways in which the thread stops: it is cancelled, it returns, it does
    something undefined, or it waits for a thread that nobody has told to end. *)
Inductive stop := Cancelled | Returned | Undefined | Blocked.

Notation M := (ESt os stop).

(** Outcomes of [sem_open] with [O_CREAT | O_EXCL]. *)
Inductive open_result := OpenOk | OpenExists | OpenError.

(** [k_malloc], [k_bag], [k_sem_init], [k_sem_post], [k_lock]: success;
    [k_accept] chooses a descriptor among those not open; [k_esrch]:
    [pthread_kill(t, 0)] answers ESRCH; [k_select]: its return value and the
    descriptors that are readable; [k_cancel]: a request to cancel this thread
    is pending. [k_once] and [k_support_unnamed] are the result of
    [pthread_once] and what [initialize_support_unnamed] found. *)
Record kernel := mkKernel {
  k_malloc : nat -> bool;
  k_bag : nat -> bool * bool;
  k_bag_new : bool * bool * bool * bool;
  k_lock : nat -> bool;
  k_once : bool;
  k_support_unnamed : bool;
  k_sem_init : nat -> bool;
  k_sem_open : nat -> open_result;
  k_sem_post : nat -> bool;
  k_accept : nat -> gset Z -> option Z;
  k_getnameinfo : nat -> Z;
  k_create : nat -> Z;
  k_esrch : nat -> bool;
  k_select : nat -> Z * list Z;
  k_cancel : nat -> bool }.

Section control.
Variable K : kernel.

(** ** The calls of the C library *)

Definition undefined {A} : M A := est_exit Undefined.
Definition now : M nat := fun s => (set_tick (S (tick s)) s, inr (tick s)).
(** Using a value that is indeterminate is undefined. *)
Definition read {A} (o : option A) : M A := match o with Some a => est_ret a | None => undefined end.

Definition malloc (o : obj) : M (option nat) :=
  let* k := now in
  if k_malloc K k then est_modify (fun s => set_heap (<[k := o]> (heap s)) s) ;;; est_ret (Some k)
  else est_ret None.

(** No thread that may still run uses the memory or the descriptor. *)
Definition mem_unused (p : nat) (s : os) : bool := bool_decide (map_Forall (fun _ t => p ∉ t_mem t) (threads s)).
Definition fd_unused (fd : Z) (s : os) : bool := bool_decide (map_Forall (fun _ t => t_fd t <> fd) (threads s)).

Definition free (p : nat) : M unit :=
  let* s := est_get in
  if bool_decide (is_Some (heap s !! p)) && mem_unused p s
  then est_put (set_heap (delete p (heap s)) s) else undefined.

Definition cxn_at (p : nat) : M connection_info :=
  let* s := est_get in
  match heap s !! p with Some (OCxn c) => est_ret c | _ => undefined end.
Definition cxn_store (p : nat) (f : connection_info -> connection_info) : M unit :=
  let* c := cxn_at p in est_modify (fun s => set_heap (<[p := OCxn (f c)]> (heap s)) s).

(** Where a pending request to cancel is acted on; no further one is acted on
    while the cleanup handlers run. *)
Definition cancel_point : M unit :=
  let* k := now in let* s := est_get in
  if cancel_enabled s && k_cancel K k
  then est_put (set_cancel false s) ;;; est_exit Cancelled else est_ret tt.

Definition pthread_setcancelstate (enable : bool) : M unit := est_modify (set_cancel enable).

Definition pthread_cancel (t : nat) : M unit :=
  let* s := est_get in
  let* th := read (threads s !! t) in
  est_put (set_threads (<[t := mkThread (t_fd th) (t_mem th) true]> (threads s)) s).

(** [pthread_kill(t, 0) == ESRCH]. *)
Definition pthread_kill (t : nat) : M bool :=
  let* k := now in let* s := est_get in
  let* th := read (threads s !! t) in
  if k_esrch K k
  then est_put (set_threads (<[t := mkThread (t_fd th) (t_mem th) true]> (threads s)) s) ;;; est_ret true
  else est_ret false.

Definition pthread_join (t : nat) : M unit :=
  cancel_point ;;;
  let* s := est_get in
  let* th := read (threads s !! t) in
  if t_ending th then est_put (set_threads (delete t (threads s)) s) else est_exit Blocked.

(** The new thread becomes the owner of its arguments. *)
Definition pthread_create (args : nat) : M (option nat) :=
  let* k := now in let* s := est_get in
  match heap s !! args with
  | Some (OArgs a) =>
      if k_create K k =? 0
      then est_put (set_threads (<[k := mkThread (am_socket a) [am_info a; am_semaphore a] false]> (threads s))
                     (set_heap (delete args (heap s)) s)) ;;; est_ret (Some k)
      else est_ret None
  | _ => undefined
  end.

Definition close (fd : Z) : M unit :=
  cancel_point ;;;
  let* s := est_get in
  if bool_decide (fd ∈ fds s) && fd_unused fd s
  then est_put (set_fds (fds s ∖ {[fd]}) s) else undefined.

Definition accept (listen_fd : Z) : M Z :=
  cancel_point ;;;
  let* k := now in let* s := est_get in
  match k_accept K k (fds s) with
  | Some fd => est_put (set_fds ({[fd]} ∪ fds s) s) ;;; est_ret fd
  | None => est_ret (-1)
  end.

Definition getnameinfo : M Z := let* k := now in est_ret (k_getnameinfo K k).

(** [fd_set]: outside it [FD_SET] and [FD_ISSET] access other memory. *)
Definition FD_SETSIZE : Z := 1024.
Definition FD_SET (fd : Z) (set : list Z) : M (list Z) :=
  if (0 <=? fd) && (fd <? FD_SETSIZE) then est_ret (fd :: set) else undefined.
Definition FD_ISSET (fd : Z) (set : list Z) : M bool :=
  if (0 <=? fd) && (fd <? FD_SETSIZE) then est_ret (zin fd set) else undefined.
Definition select (nfds : Z) (set : list Z) : M (Z * list Z) :=
  cancel_point ;;;
  let* k := now in
  est_ret (fst (k_select K k), filter (fun fd => fd < nfds /\ fd ∈ snd (k_select K k)) set).

(** ** Semaphores ([semaphore_compat.c]) *)

Definition SEM_OPEN_MAX_TRIES : nat := 256.

(** [None] is SEM_FAILED. *)
Fixpoint sem_open_loop (tries : nat) : M (option nat) :=
  match tries with
  | O => est_ret None
  | S tries' =>
      let* k := now in
      match k_sem_open K k with
      | OpenExists => sem_open_loop tries'
      | OpenError => est_ret None
      | OpenOk => est_modify (fun s => set_heap (<[k := OSem]> (heap s)) s) ;;; est_ret (Some k)
      end
  end.

Definition sem_init (p : nat) : M bool :=
  let* k := now in let* s := est_get in
  match heap s !! p with
  | Some OSemMem =>
      if k_sem_init K k then est_put (set_heap (<[p := OSem]> (heap s)) s) ;;; est_ret true
      else est_ret false
  | _ => undefined
  end.

Definition semcompat_new : M (option nat) :=
  if negb (k_once K) then est_ret None
  else if k_support_unnamed K then
    let* r := malloc OSemMem in
    match r with
    | None => est_ret None
    | Some p =>
        let* ok := sem_init p in
        if negb ok then free p ;;; est_ret None else est_ret (Some p)
    end
  else sem_open_loop SEM_OPEN_MAX_TRIES.

(** [sem_destroy] and [sem_close] need a semaphore that nobody uses. *)
Definition sem_destroy (p : nat) : M unit :=
  let* s := est_get in
  match heap s !! p with
  | Some OSem => if mem_unused p s then est_put (set_heap (<[p := OSemMem]> (heap s)) s) else undefined
  | _ => undefined
  end.
Definition sem_close (p : nat) : M unit :=
  let* s := est_get in
  match heap s !! p with
  | Some OSem => if mem_unused p s then est_put (set_heap (delete p (heap s)) s) else undefined
  | _ => undefined
  end.

Definition semcompat_free (p : nat) : M unit :=
  if negb (k_once K) then est_ret tt
  else if k_support_unnamed K then sem_destroy p ;;; free p
  else sem_close p.

Definition sem_post (p : nat) : M bool :=
  let* k := now in let* s := est_get in
  match heap s !! p with
  | Some OSem =>
      if k_sem_post K k then est_put (set_posted (posted s ++ [p]) s) ;;; est_ret true
      else est_ret false
  | _ => undefined
  end.

(** ** The bag of connections *)

Definition bag : M (Bag nat) := let* s := est_get in read (connections s).
Definition bag_start_iteration : M bool :=
  let* k := now in let* b := bag in est_ret (Bag_wrlock (k_lock K k) b).
Definition bag_begin : M (option nat) := let* b := bag in read (Bag_begin b).
Definition bag_iterator_next (it : option nat) : M (option nat) :=
  let* b := bag in read (Bag_iterator_next b it).
Definition bag_get (it : option nat) : M nat := let* b := bag in read (Bag_get b it).
Definition bag_erase (it : option nat) : M (option nat) :=
  let* k := now in let* b := bag in
  let* r := read (Bag_erase (fst (k_bag K k)) (snd (k_bag K k)) b it) in
  est_modify (set_connections (Some (fst r))) ;;; est_ret (snd r).
Definition bag_add (p : nat) : M bool :=
  let* k := now in let* b := bag in
  let* r := read (Bag_add (k_lock K k) (fst (k_bag K k)) (snd (k_bag K k)) (k_lock K k) b p) in
  est_modify (set_connections (Some (fst r))) ;;; est_ret (snd r).
(** [Bag_free] asserts that the bag is empty. *)
Definition bag_free : M unit :=
  let* b := bag in
  if bag_size b =? 0 then est_modify (set_connections None) else undefined.
(** Steps enough for a loop over the bag. *)
Definition bag_fuel : M nat := let* b := bag in est_ret (Z.to_nat (bag_size b)).

(** ** connection_control.c *)

Definition kill_connection (cxn_info : nat) : M unit :=
  let* c := cxn_at cxn_info in
  let* t := read (cx_thread c) in
  pthread_cancel t.

Definition cleanup_connection (cxn_info : nat) : M unit :=
  let* c := cxn_at cxn_info in
  let* started := read (cx_started c) in
  est_when started (let* t := read (cx_thread c) in pthread_join t) ;;;
  let* c := cxn_at cxn_info in
  let* fd := read (cx_fd c) in
  close fd ;;;
  let* sem := read (cx_semaphore c) in
  semcompat_free sem ;;;
  free cxn_info.

(** The two loops of [cleanup]. *)
Fixpoint kill_loop (fuel : nat) (it : option nat) : M unit :=
  match it, fuel with
  | None, _ => est_ret tt
  | Some _, O => undefined
  | Some _, S fuel' =>
      let* cxn_info := bag_get it in
      kill_connection cxn_info ;;;
      let* it' := bag_iterator_next it in
      kill_loop fuel' it'
  end.
Fixpoint erase_loop (fuel : nat) (it : option nat) : M unit :=
  match it, fuel with
  | None, _ => est_ret tt
  | Some _, O => undefined
  | Some _, S fuel' =>
      let* cxn_info := bag_get it in
      cleanup_connection cxn_info ;;;
      let* it' := bag_erase it in
      erase_loop fuel' it'
  end.

Definition cleanup : M unit :=
  let* started := bag_start_iteration in
  let* fuel := bag_fuel in
  let* it := bag_begin in kill_loop fuel it ;;;
  let* it := bag_begin in erase_loop fuel it ;;;
  bag_free.

(** The set of descriptors to wait for and [nfds]. *)
Fixpoint watch_listen_fds (listen_fds : list Z) (set : list Z) (nfds : Z) : M (list Z * Z) :=
  match listen_fds with
  | [] => est_ret (set, nfds)
  | fd :: fds' =>
      let* set' := FD_SET fd set in
      watch_listen_fds fds' set' (if nfds <? fd + 1 then fd + 1 else nfds)
  end.

(** The first loop over the connections: release those whose thread has
    ended, wait for the others. *)
Fixpoint reap_loop (fuel : nat) (it : option nat) (set : list Z) (nfds : Z) : M (list Z * Z) :=
  match it, fuel with
  | None, _ => est_ret (set, nfds)
  | Some _, O => undefined
  | Some _, S fuel' =>
      let* cxn_info := bag_get it in
      let* c := cxn_at cxn_info in
      let* t := read (cx_thread c) in
      let* (esrch : bool) := pthread_kill t in
      if esrch then
        cleanup_connection cxn_info ;;;
        let* it' := bag_erase it in
        reap_loop fuel' it' set nfds
      else
        let* fd := read (cx_fd c) in
        let* set' := FD_SET fd set in
        let* it' := bag_iterator_next it in
        reap_loop fuel' it' set' (if nfds <? fd + 1 then fd + 1 else nfds)
  end.

(** The second loop over the connections: wake those that can read. *)
Fixpoint post_loop (fuel : nat) (it : option nat) (read_fds : list Z) : M unit :=
  match it, fuel with
  | None, _ => est_ret tt
  | Some _, O => undefined
  | Some _, S fuel' =>
      let* cxn_info := bag_get it in
      let* c := cxn_at cxn_info in
      let* fd := read (cx_fd c) in
      let* (isset : bool) := FD_ISSET fd read_fds in
      let* ok := (if isset then let* sem := read (cx_semaphore c) in sem_post sem else est_ret true) in
      if negb ok then
        kill_connection cxn_info ;;;
        cleanup_connection cxn_info ;;;
        let* it' := bag_erase it in
        post_loop fuel' it' read_fds
      else
        let* it' := bag_iterator_next it in
        post_loop fuel' it' read_fds
  end.

(** A new connection from [getnameinfo] on. *)
Definition start_connection (cxn_info : nat) (fd : Z) (sem : nat) : M unit :=
  let* retval := getnameinfo in
  if negb (retval =? 0) then cleanup_connection cxn_info
  else
    let* r := malloc (OArgs (mkArgs fd cxn_info sem)) in
    match r with
    | None => cleanup_connection cxn_info
    | Some connection_args =>
        let* t := pthread_create connection_args in
        match t with
        | None => free connection_args ;;; cleanup_connection cxn_info
        | Some t =>
            cxn_store cxn_info (fun c => mkCxn (cx_fd c) (cx_semaphore c) (Some t) (Some true)) ;;;
            let* ok := bag_add cxn_info in
            est_when (negb ok) (kill_connection cxn_info ;;; cleanup_connection cxn_info)
        end
    end.

(** A descriptor that can be read: from [malloc] to [accept]. *)
Definition new_connection (listen_fd : Z) : M unit :=
  let* r := malloc (OCxn (mkCxn None None None None)) in
  match r with
  | None => est_ret tt
  | Some cxn_info =>
      cxn_store cxn_info (fun c => mkCxn (cx_fd c) (cx_semaphore c) (cx_thread c) (Some false)) ;;;
      let* sem := semcompat_new in
      match sem with
      | None => free cxn_info
      | Some sem =>
          cxn_store cxn_info (fun c => mkCxn (cx_fd c) (Some sem) (cx_thread c) (cx_started c)) ;;;
          let* fd := accept listen_fd in
          cxn_store cxn_info (fun c => mkCxn (Some fd) (cx_semaphore c) (cx_thread c) (cx_started c)) ;;;
          if fd <? 0 then semcompat_free sem ;;; free cxn_info
          else start_connection cxn_info fd sem
      end
  end.

Fixpoint accept_loop (listen_fds read_fds : list Z) : M unit :=
  match listen_fds with
  | [] => est_ret tt
  | fd :: fds' =>
      let* (isset : bool) := FD_ISSET fd read_fds in
      est_when isset (new_connection fd) ;;;
      accept_loop fds' read_fds
  end.

(** [select] with cancellation enabled around it. *)
Definition wait_readable (nfds : Z) (set : list Z) : M (Z * list Z) :=
  pthread_setcancelstate true ;;;
  let* r := select nfds set in
  pthread_setcancelstate false ;;;
  est_ret r.

(** The body of [while (true)]; [continue] is its end. *)
Definition control_body (listen_fds : list Z) : M unit :=
  let* '(set, nfds) := watch_listen_fds listen_fds [] 0 in
  let* started := bag_start_iteration in
  if negb started then est_ret tt
  else
    let* fuel := bag_fuel in
    let* it := bag_begin in
    let* '(set, nfds) := reap_loop fuel it set nfds in
    let* '(retval, read_fds) := wait_readable nfds set in
    if retval <=? 0 then est_ret tt
    else
      let* started := bag_start_iteration in
      if negb started then est_ret tt
      else
        let* fuel := bag_fuel in
        let* it := bag_begin in
        post_loop fuel it read_fds ;;;
        accept_loop listen_fds read_fds.

(** [n] rounds of [while (true)]. *)
Fixpoint control_loop (n : nat) (listen_fds : list Z) : M unit :=
  match n with
  | O => est_ret tt
  | S n' => control_body listen_fds ;;; control_loop n' listen_fds
  end.

(** The thread up to its [n]th round, with the handler that
    [pthread_cleanup_push] registered after the bag was made. *)
Definition connection_control_main (n : nat) (listen_fds : list Z) : M unit :=
  let '(m1, m2, m3, io) := k_bag_new K in
  match Bag_new m1 m2 m3 io false with
  | None => est_exit Returned
  | Some b =>
      est_modify (set_connections (Some b)) ;;;
      fun s => match (pthread_setcancelstate false ;;; control_loop n listen_fds) s with
               | (s', inl Cancelled) => (cleanup ;;; est_exit Cancelled) s'
               | r => r
               end
  end.
End control.

(** A thread that has just been created: nothing is its own yet. *)
Definition init_os : os := mkOs ∅ ∅ ∅ true [] None 0.
