(* ===== verification/ConnControlFacts.v ===== *)
(** * Rules for the calls of the connection control thread

    [owns s b hs fs ts] gives the resources of a state as lists without
    repetition; each call of [ConnControl] has a rule that says how it changes
    them, for the runs in which cancellation is disabled. *)

From S2P Require Import Prelude Bag ConnControl.
Local Open Scope est_scope.

(** The outcome of [m] from [s]: [Q] if it returns, [R] if it stops. *)
Definition wp {S E A} (m : ESt S E A) (s : S) (Q : A -> S -> Prop) (R : E -> S -> Prop) : Prop :=
  match m s with (s', inr a) => Q a s' | (s', inl e) => R e s' end.

Lemma wp_bind {S E A B} (m : ESt S E A) (f : A -> ESt S E B) s Q R :
  wp m s (fun a s' => wp (f a) s' Q R) R -> wp (est_bind f m) s Q R.
Proof. unfold wp, est_bind. by destruct (m s) as [s' [e|a]]. Qed.

Lemma wp_mono {S E A} (m : ESt S E A) s (Q Q' : A -> S -> Prop) R :
  wp m s Q R -> (forall a s', Q a s' -> Q' a s') -> wp m s Q' R.
Proof. unfold wp. destruct (m s) as [s' [e|a]]; auto. Qed.

Lemma wp_ret {S E A} (x : A) s (Q : A -> S -> Prop) (R : E -> S -> Prop) : Q x s -> wp (est_ret x) s Q R.
Proof. done. Qed.

Lemma wp_read {A} (o : option A) x s (Q : A -> os -> Prop) R : o = Some x -> Q x s -> wp (read o) s Q R.
Proof. by intros ->. Qed.

Record owns (s : os) (b : Bag nat) (hs : list (nat * obj)) (fs : list Z) (ts : list (nat * thread)) : Prop := {
  ow_heap : heap s = list_to_map hs;
  ow_heap_nodup : NoDup hs.*1;
  ow_heap_old : Forall (fun p => p < tick s)%nat hs.*1;
  ow_fds : fds s = list_to_set fs;
  ow_fds_nodup : NoDup fs;
  ow_threads : threads s = list_to_map ts;
  ow_threads_nodup : NoDup ts.*1;
  ow_threads_old : Forall (fun t => t < tick s)%nat ts.*1;
  ow_cancel : cancel_enabled s = false;
  ow_bag : connections s = Some b }.

Lemma owns_perm s b hs hs' fs fs' ts ts' :
  owns s b hs fs ts -> hs ≡ₚ hs' -> fs ≡ₚ fs' -> ts ≡ₚ ts' -> owns s b hs' fs' ts'.
Proof.
  intros [] H1 H2 H3. split; try done.
  - by rewrite <- (list_to_map_proper _ _ ow_heap_nodup0 H1).
  - by rewrite <- H1.
  - by rewrite <- H1.
  - by rewrite <- H2.
  - by rewrite <- H2.
  - by rewrite <- (list_to_map_proper _ _ ow_threads_nodup0 H3).
  - by rewrite <- H3.
  - by rewrite <- H3.
Qed.

Lemma owns_now s b hs fs ts : owns s b hs fs ts -> owns (set_tick (S (tick s)) s) b hs fs ts.
Proof. intros []. split; try done; cbn; (eapply Forall_impl; [done|]; intros; cbn in *; lia). Qed.

Lemma fresh_key {A} n (l : list (nat * A)) : Forall (fun p => p < n)%nat l.*1 -> n ∉ l.*1.
Proof. intros H Hin. rewrite Forall_forall in H. apply H in Hin. lia. Qed.

Lemma lookup_head {A} (p : nat) (o : A) l : (list_to_map ((p, o) :: l) : gmap nat A) !! p = Some o.
Proof. apply lookup_insert_eq. Qed.
Lemma delete_head {A} (p : nat) (o : A) l :
  p ∉ l.*1 -> delete p (list_to_map ((p, o) :: l) : gmap nat A) = list_to_map l.
Proof. intros. cbn. rewrite delete_insert_id; [done|]. by apply not_elem_of_list_to_map_1. Qed.

Lemma owns_add s b hs fs ts o :
  owns s b hs fs ts ->
  owns (set_heap (<[tick s := o]> (heap s)) (set_tick (S (tick s)) s)) b ((tick s, o) :: hs) fs ts.
Proof.
  intros H. destruct (owns_now _ _ _ _ _ H). pose proof (fresh_key _ _ (ow_heap_old _ _ _ _ _ H)).
  split; try done; cbn in *.
  - by rewrite ow_heap0.
  - by constructor.
  - constructor; [lia|done].
Qed.

Lemma owns_set s b p o o' hs fs ts :
  owns s b ((p, o) :: hs) fs ts -> owns (set_heap (<[p := o']> (heap s)) s) b ((p, o') :: hs) fs ts.
Proof. intros []. split; try done; cbn in *. rewrite ow_heap0. cbn. by rewrite insert_insert_eq. Qed.

Lemma owns_del s b p o hs fs ts :
  owns s b ((p, o) :: hs) fs ts -> owns (set_heap (delete p (heap s)) s) b hs fs ts.
Proof.
  intros []. cbn in *. inversion ow_heap_nodup0; inversion ow_heap_old0; subst. split; try done; cbn in *.
  rewrite ow_heap0. by apply (delete_head p o hs).
Qed.

Lemma owns_lookup s b p o hs fs ts : owns s b ((p, o) :: hs) fs ts -> heap s !! p = Some o.
Proof. intros []. rewrite ow_heap0. apply lookup_head. Qed.
Lemma owns_thread s b hs fs t th ts : owns s b hs fs ((t, th) :: ts) -> threads s !! t = Some th.
Proof. intros []. rewrite ow_threads0. apply lookup_head. Qed.

(** The descriptors and objects that threads use. *)
Lemma owns_mem_unused s b p hs fs ts :
  owns s b hs fs ts -> (forall t, t ∈ ts.*2 -> p ∉ t_mem t) -> mem_unused p s = true.
Proof.
  intros [] Hp. apply bool_decide_eq_true. intros t th Ht. rewrite ow_threads0 in Ht.
  apply elem_of_list_to_map_2 in Ht. apply Hp. apply list_elem_of_fmap. by exists (t, th).
Qed.
Lemma owns_fd_unused s b fd hs fs ts :
  owns s b hs fs ts -> (forall t, t ∈ ts.*2 -> t_fd t <> fd) -> fd_unused fd s = true.
Proof.
  intros [] Hp. apply bool_decide_eq_true. intros t th Ht. rewrite ow_threads0 in Ht.
  apply elem_of_list_to_map_2 in Ht. apply Hp. apply list_elem_of_fmap. by exists (t, th).
Qed.

Section rules.
Variable K : kernel.
Implicit Types (s : os) (b : Bag nat).

(** ** The calls *)

Lemma wp_malloc s b hs fs ts o Q R :
  owns s b hs fs ts ->
  (forall s', owns s' b hs fs ts -> Q None s') ->
  (forall s' p, owns s' b ((p, o) :: hs) fs ts -> Q (Some p) s') ->
  wp (malloc K o) s Q R.
Proof.
  intros H Hn Hs. unfold wp, malloc. cbn. destruct (k_malloc K (tick s)); cbn.
  - apply Hs. by apply owns_add.
  - apply Hn. by apply owns_now.
Qed.

Lemma wp_free s b p o hs fs ts (Q : unit -> os -> Prop) R :
  owns s b ((p, o) :: hs) fs ts -> (forall t, t ∈ ts.*2 -> p ∉ t_mem t) ->
  (forall s', owns s' b hs fs ts -> Q tt s') -> wp (free p) s Q R.
Proof.
  intros H Hu HQ. unfold wp, free. cbn.
  rewrite (owns_lookup _ _ _ _ _ _ _ H), (owns_mem_unused _ _ _ _ _ _ H Hu). cbn.
  apply HQ. by eapply owns_del.
Qed.

Lemma wp_cxn_at s b p c hs fs ts (Q : connection_info -> os -> Prop) R :
  owns s b ((p, OCxn c) :: hs) fs ts -> Q c s -> wp (cxn_at p) s Q R.
Proof. intros H HQ. unfold wp, cxn_at. cbn. by rewrite (owns_lookup _ _ _ _ _ _ _ H). Qed.

Lemma wp_cxn_store s b p c f hs fs ts (Q : unit -> os -> Prop) R :
  owns s b ((p, OCxn c) :: hs) fs ts ->
  (forall s', owns s' b ((p, OCxn (f c)) :: hs) fs ts -> Q tt s') -> wp (cxn_store p f) s Q R.
Proof.
  intros H HQ. unfold cxn_store. apply wp_bind. eapply wp_cxn_at; [done|]. apply HQ. by eapply owns_set.
Qed.

Lemma wp_cancel_point s b hs fs ts (Q : unit -> os -> Prop) R :
  owns s b hs fs ts -> (forall s', owns s' b hs fs ts -> Q tt s') -> wp (cancel_point K) s Q R.
Proof.
  intros H HQ. unfold wp, cancel_point. cbn. rewrite (ow_cancel _ _ _ _ _ H). cbn. apply HQ. by apply owns_now.
Qed.

Definition ending (th : thread) : thread := mkThread (t_fd th) (t_mem th) true.

Lemma owns_end s b hs fs t th ts :
  owns s b hs fs ((t, th) :: ts) ->
  owns (set_threads (<[t := ending th]> (threads s)) s) b hs fs ((t, ending th) :: ts).
Proof. intros []. split; try done; cbn in *. rewrite ow_threads0. cbn. by rewrite insert_insert_eq. Qed.

Lemma wp_pthread_cancel s b hs fs t th ts (Q : unit -> os -> Prop) R :
  owns s b hs fs ((t, th) :: ts) ->
  (forall s', owns s' b hs fs ((t, ending th) :: ts) -> Q tt s') -> wp (pthread_cancel t) s Q R.
Proof.
  intros H HQ. unfold wp, pthread_cancel. cbn. rewrite (owns_thread _ _ _ _ _ _ _ H). cbn.
  apply HQ. by apply (owns_end _ _ _ _ _ th).
Qed.

Lemma wp_pthread_kill s b hs fs t th ts (Q : bool -> os -> Prop) R :
  owns s b hs fs ((t, th) :: ts) ->
  (forall s', owns s' b hs fs ((t, ending th) :: ts) -> Q true s') ->
  (forall s', owns s' b hs fs ((t, th) :: ts) -> Q false s') -> wp (pthread_kill K t) s Q R.
Proof.
  intros H Ht Hf. apply owns_now in H. unfold wp, pthread_kill. cbn.
  pose proof (owns_thread _ _ _ _ _ _ _ H) as E. cbn in E. rewrite E. cbn.
  destruct (k_esrch K (tick s)); cbn; [|by apply Hf].
  apply Ht. by apply (owns_end _ _ _ _ _ th) in H.
Qed.

Lemma wp_pthread_join s b hs fs t th ts (Q : unit -> os -> Prop) R :
  owns s b hs fs ((t, th) :: ts) -> t_ending th = true ->
  (forall s', owns s' b hs fs ts -> Q tt s') -> wp (pthread_join K t) s Q R.
Proof.
  intros H He HQ. apply wp_bind. eapply wp_cancel_point; [done|]. clear dependent s. intros s H.
  unfold wp. cbn. rewrite (owns_thread _ _ _ _ _ _ _ H). cbn. rewrite He. cbn. apply HQ.
  destruct H. cbn in *. inversion ow_threads_nodup0; inversion ow_threads_old0; subst.
  split; try done; cbn. rewrite ow_threads0. by apply (delete_head t th ts).
Qed.

(** On success the arguments are gone and the thread uses what they name. *)
Lemma wp_pthread_create s b p a hs fs ts Q R :
  owns s b ((p, OArgs a) :: hs) fs ts ->
  (forall s', owns s' b ((p, OArgs a) :: hs) fs ts -> Q None s') ->
  (forall s' t, owns s' b hs fs ((t, mkThread (am_socket a) [am_info a; am_semaphore a] false) :: ts) ->
     Q (Some t) s') ->
  wp (pthread_create K p) s Q R.
Proof.
  intros H Hn Hs. pose proof (owns_now _ _ _ _ _ H) as H'. unfold wp, pthread_create. cbn.
  rewrite (owns_lookup _ _ _ _ _ _ _ H). destruct (k_create K (tick s) =? 0); cbn; [|by apply Hn].
  apply Hs. apply owns_del in H'. destruct H'. split; try done; cbn in *.
  - by rewrite ow_threads0.
  - constructor; [|done]. apply fresh_key, H.
  - constructor; [lia|done].
Qed.

Lemma wp_close s b hs fd fs ts (Q : unit -> os -> Prop) R :
  owns s b hs (fd :: fs) ts -> (forall t, t ∈ ts.*2 -> t_fd t <> fd) ->
  (forall s', owns s' b hs fs ts -> Q tt s') -> wp (close K fd) s Q R.
Proof.
  intros H Hu HQ. apply wp_bind. eapply wp_cancel_point; [done|]. clear dependent s. intros s H.
  unfold wp. cbn. rewrite (owns_fd_unused _ _ _ _ _ _ H Hu).
  rewrite bool_decide_eq_true_2 by (rewrite (ow_fds _ _ _ _ _ H); set_solver). cbn. apply HQ.
  destruct H. inversion ow_fds_nodup0; subst. split; try done; cbn.
  rewrite ow_fds0. cbn. set_solver.
Qed.

Lemma wp_FD_SET fd set s (Q : list Z -> os -> Prop) R :
  0 <= fd < FD_SETSIZE -> Q (fd :: set) s -> wp (FD_SET fd set) s Q R.
Proof.
  intros H HQ. unfold wp, FD_SET.
  by rewrite (proj2 (Z.leb_le _ _)), (proj2 (Z.ltb_lt _ _)) by lia.
Qed.
Lemma wp_FD_ISSET fd set s (Q : bool -> os -> Prop) R :
  0 <= fd < FD_SETSIZE -> Q (zin fd set) s -> wp (FD_ISSET fd set) s Q R.
Proof.
  intros H HQ. unfold wp, FD_ISSET.
  by rewrite (proj2 (Z.leb_le _ _)), (proj2 (Z.ltb_lt _ _)) by lia.
Qed.

(** A descriptor that an [fd_set] cannot hold makes them undefined. *)
Lemma wp_FD_SET_any fd set s (Q : list Z -> os -> Prop) R :
  0 <= fd -> Q (fd :: set) s -> (FD_SETSIZE <= fd -> R Undefined s) -> wp (FD_SET fd set) s Q R.
Proof.
  intros H HQ HR. destruct (Z.lt_ge_cases fd FD_SETSIZE) as [Hlt|Hge]; [by apply wp_FD_SET|].
  unfold wp, FD_SET. rewrite (proj2 (Z.ltb_ge _ _) Hge), andb_false_r. by apply HR.
Qed.
Lemma wp_FD_ISSET_any fd set s (Q : bool -> os -> Prop) R :
  0 <= fd -> Q (zin fd set) s -> (FD_SETSIZE <= fd -> R Undefined s) -> wp (FD_ISSET fd set) s Q R.
Proof.
  intros H HQ HR. destruct (Z.lt_ge_cases fd FD_SETSIZE) as [Hlt|Hge]; [by apply wp_FD_ISSET|].
  unfold wp, FD_ISSET. rewrite (proj2 (Z.ltb_ge _ _) Hge), andb_false_r. by apply HR.
Qed.

(** ** Semaphores *)

Hypothesis Honce : k_once K = true.

Lemma wp_sem_open_loop n s b hs fs ts Q R :
  owns s b hs fs ts ->
  (forall s', owns s' b hs fs ts -> Q None s') ->
  (forall s' p, owns s' b ((p, OSem) :: hs) fs ts -> Q (Some p) s') ->
  wp (sem_open_loop K n) s Q R.
Proof.
  intros H Hn Hs. revert s H. induction n as [|n IH]; intros s H; [by apply Hn|].
  cbn [sem_open_loop]. apply wp_bind. change (wp now s ?Q R) with (Q (tick s) (set_tick (S (tick s)) s)).
  cbv beta. destruct (k_sem_open K (tick s)).
  - by apply Hs, (owns_add s).
  - by apply IH, owns_now.
  - by apply (Hn (set_tick (S (tick s)) s)), owns_now.
Qed.

Lemma wp_semcompat_new s b hs fs ts Q R :
  owns s b hs fs ts -> (forall t, t ∈ ts.*2 -> forall p, p ∈ t_mem t -> p ∈ hs.*1) ->
  (forall s', owns s' b hs fs ts -> Q None s') ->
  (forall s' p, owns s' b ((p, OSem) :: hs) fs ts -> Q (Some p) s') ->
  wp (semcompat_new K) s Q R.
Proof.
  intros H Hm Hn Hs. unfold semcompat_new. rewrite Honce. cbn [negb].
  destruct (k_support_unnamed K); [|by eapply wp_sem_open_loop].
  apply wp_bind. eapply wp_malloc; [done|done|]. clear dependent s. intros s p H.
  apply wp_bind. pose proof (owns_now _ _ _ _ _ H) as H'. unfold wp at 1, sem_init. cbn.
  rewrite (owns_lookup _ _ _ _ _ _ _ H). destruct (k_sem_init K (tick s)); cbn -[free].
  - apply Hs. by eapply owns_set in H'.
  - apply wp_bind. eapply wp_free; [done| |done].
    intros t Ht Hp. specialize (Hm _ Ht _ Hp). pose proof (ow_heap_nodup _ _ _ _ _ H) as Hd. by inversion Hd.
Qed.

Lemma wp_semcompat_free s b p hs fs ts (Q : unit -> os -> Prop) R :
  owns s b ((p, OSem) :: hs) fs ts -> (forall t, t ∈ ts.*2 -> p ∉ t_mem t) ->
  (forall s', owns s' b hs fs ts -> Q tt s') -> wp (semcompat_free K p) s Q R.
Proof.
  intros H Hu HQ. unfold semcompat_free. rewrite Honce. cbn [negb].
  pose proof (owns_mem_unused _ _ _ _ _ _ H Hu) as Hmu.
  destruct (k_support_unnamed K).
  - apply wp_bind. unfold wp at 1, sem_destroy. cbn -[free].
    rewrite (owns_lookup _ _ _ _ _ _ _ H), Hmu. cbn -[free].
    eapply wp_free; [by eapply owns_set|done|done].
  - unfold wp, sem_close. cbn. rewrite (owns_lookup _ _ _ _ _ _ _ H), Hmu. cbn.
    apply HQ. by eapply owns_del.
Qed.

Lemma wp_sem_post s b p hs fs ts (Q : bool -> os -> Prop) R :
  owns s b ((p, OSem) :: hs) fs ts ->
  (forall s' ok, owns s' b ((p, OSem) :: hs) fs ts -> Q ok s') -> wp (sem_post K p) s Q R.
Proof.
  intros H HQ. pose proof (owns_now _ _ _ _ _ H) as H'. unfold wp, sem_post. cbn.
  rewrite (owns_lookup _ _ _ _ _ _ _ H). destruct (k_sem_post K (tick s)); cbn; apply HQ; [|done].
  destruct H'. by split.
Qed.
End rules.
