(* ===== verification/ConnControlThm.v ===== *)
(** * The connection control thread releases what it acquires

    [holds s b gs hs fs]: the state owns the memory, the semaphore, the
    descriptor and the thread of each of the connections [gs], and besides them
    the objects [hs] and the descriptors [fs] of a connection that is being set
    up or taken down. The rules of [ConnControlFacts] are composed along
    [connection_control.c]. *)

From S2P Require Import Prelude Bag ConnControl ConnControlFacts.
Local Open Scope est_scope.

(** A connection with a thread. *)
Record cxn := mkG { g_p : nat; g_fd : Z; g_sem : nat; g_thr : nat; g_end : bool }.

(** The connection once its thread has been cancelled or has ended. *)
Definition g_stop (g : cxn) : cxn := mkG (g_p g) (g_fd g) (g_sem g) (g_thr g) true.

Definition objs (g : cxn) : list (nat * obj) :=
  [(g_p g, OCxn (mkCxn (Some (g_fd g)) (Some (g_sem g)) (Some (g_thr g)) (Some true))); (g_sem g, OSem)].
Definition thr (g : cxn) : nat * thread := (g_thr g, mkThread (g_fd g) [g_p g; g_sem g] (g_end g)).
Definition in_fd_set (fd : Z) : Prop := 0 <= fd < FD_SETSIZE.

(** A descriptor is an [int]. *)
Definition is_fd (fd : Z) : Prop := 0 <= fd < 2 ^ 31.

(** A descriptor of a connection, or one of [lfds], is too large for an [fd_set]. *)
Definition overflowed (lfds : list Z) (s : os) : Prop :=
  exists fd, (fd ∈ lfds \/ fd ∈ fds s) /\ FD_SETSIZE <= fd.

Record holds (s : os) (b : Bag nat) (gs : list cxn) (hs : list (nat * obj)) (fs : list Z) : Prop := {
  ho_owns : owns s b (hs ++ (gs ≫= objs)) (fs ++ (g_fd <$> gs)) (thr <$> gs);
  ho_range : Forall is_fd (g_fd <$> gs) }.

Lemma holds_perm s b gs gs' hs hs' fs :
  holds s b gs hs fs -> gs ≡ₚ gs' -> hs ≡ₚ hs' -> holds s b gs' hs' fs.
Proof.
  intros [Ho Hr] Hg Hh. split; [|by rewrite <- Hg].
  eapply owns_perm; [done|by rewrite Hg, Hh|by rewrite Hg|by rewrite Hg].
Qed.

Lemma thr_mem gs t p : t ∈ (thr <$> gs).*2 -> p ∈ t_mem t -> p ∈ (gs ≫= objs).*1.
Proof.
  intros Ht Hp. rewrite <- list_fmap_compose in Ht. apply list_elem_of_fmap in Ht as (g & -> & Hg).
  apply list_elem_of_fmap. cbn in Hp. apply elem_of_cons in Hp as [->|Hp].
  - eexists (_, _). split; [reflexivity|]. apply list_elem_of_bind. exists g. split; [|done]. left.
  - apply list_elem_of_singleton in Hp as ->. eexists (_, _). split; [reflexivity|].
    apply list_elem_of_bind. exists g. split; [|done]. right. left.
Qed.

Lemma holds_mem s b gs hs fs p o :
  holds s b gs ((p, o) :: hs) fs -> forall t, t ∈ (thr <$> gs).*2 -> p ∉ t_mem t.
Proof.
  intros [Ho _] t Ht Hp. apply (thr_mem _ _ _ Ht) in Hp. pose proof (ow_heap_nodup _ _ _ _ _ Ho) as Hd.
  cbn in Hd. rewrite fmap_app in Hd. inversion Hd as [|? ? Hn _]; subst.
  apply Hn, elem_of_app. by right.
Qed.

Lemma holds_fd s b gs hs fs fd :
  holds s b gs hs (fd :: fs) -> forall t, t ∈ (thr <$> gs).*2 -> t_fd t <> fd.
Proof.
  intros [Ho _] t Ht <-. rewrite <- list_fmap_compose in Ht. apply list_elem_of_fmap in Ht as (g & -> & Hg).
  pose proof (ow_fds_nodup _ _ _ _ _ Ho) as Hd. cbn in Hd. inversion Hd as [|? ? Hn _]; subst.
  apply Hn, elem_of_app. right. apply list_elem_of_fmap. by exists g.
Qed.

Lemma owned_fd s b g gs hs lfds :
  owns s b hs (g_fd <$> g :: gs) (thr <$> g :: gs) -> FD_SETSIZE <= g_fd g -> overflowed lfds s.
Proof.
  intros Ho Hf. exists (g_fd g). split; [right|done]. rewrite (ow_fds _ _ _ _ _ Ho). apply elem_of_list_to_set. left.
Qed.

Lemma holds_front g hs gs : hs ++ ((g :: gs) ≫= objs) ≡ₚ objs g ++ hs ++ (gs ≫= objs).
Proof. rewrite bind_cons. apply Permutation_app_swap_app. Qed.

Section control.
Variable K : kernel.
Hypothesis Honce : k_once K = true.

(** ** Taking a connection down *)

Lemma wp_kill_connection s b g gs hs fs (Q : unit -> os -> Prop) R :
  holds s b (g :: gs) hs fs ->
  (forall s', holds s' b (g_stop g :: gs) hs fs -> Q tt s') ->
  wp (kill_connection (g_p g)) s Q R.
Proof.
  intros [Ho Hr] HQ. unfold kill_connection.
  eapply owns_perm in Ho; [|apply holds_front|done..].
  apply wp_bind. eapply wp_cxn_at; [exact Ho|]. apply wp_bind. eapply wp_read; [done|].
  eapply wp_pthread_cancel; [exact Ho|]. intros s' Ho'. apply HQ. split; [|done].
  eapply owns_perm; [exact Ho'|exact (Permutation_sym (holds_front (g_stop g) hs gs))|done|done].
Qed.

(** What follows the join in [cleanup_connection]. *)
Lemma wp_release_cxn s b gs p c sem fd hs fs (Q : unit -> os -> Prop) R :
  holds s b gs ((p, OCxn c) :: (sem, OSem) :: hs) (fd :: fs) ->
  cx_fd c = Some fd -> cx_semaphore c = Some sem ->
  (forall s', holds s' b gs hs fs -> Q tt s') ->
  wp (let* c := cxn_at p in
      let* fd := read (cx_fd c) in
      close K fd ;;;
      let* sem := read (cx_semaphore c) in
      semcompat_free K sem ;;;
      free p) s Q R.
Proof.
  intros H Ef Es HQ. pose proof (ho_range _ _ _ _ _ H) as Hr.
  apply wp_bind. eapply wp_cxn_at; [apply H|]. apply wp_bind. eapply wp_read; [done|].
  apply wp_bind. eapply wp_close; [apply H|by eapply holds_fd|]. clear dependent s. intros s Ho.
  apply wp_bind. eapply wp_read; [done|].
  assert (H : holds s b gs ((sem, OSem) :: (p, OCxn c) :: hs) fs).
  { eapply holds_perm; [by split|done|constructor]. }
  apply wp_bind. eapply wp_semcompat_free; [done|apply H|by eapply holds_mem|].
  clear dependent s. intros s Ho.
  assert (H : holds s b gs ((p, OCxn c) :: hs) fs) by (by split).
  eapply wp_free; [apply H|by eapply holds_mem|]. intros s' Ho'. by apply HQ.
Qed.

(** A connection whose thread was not started. *)
Lemma wp_cleanup_new s b gs p c sem fd hs fs (Q : unit -> os -> Prop) R :
  holds s b gs ((p, OCxn c) :: (sem, OSem) :: hs) (fd :: fs) ->
  cx_fd c = Some fd -> cx_semaphore c = Some sem -> cx_started c = Some false ->
  (forall s', holds s' b gs hs fs -> Q tt s') -> wp (cleanup_connection K p) s Q R.
Proof.
  intros H Ef Es Est HQ. unfold cleanup_connection.
  apply wp_bind. eapply wp_cxn_at; [apply H|]. apply wp_bind. eapply wp_read; [done|].
  apply wp_bind. apply wp_ret. by eapply wp_release_cxn.
Qed.

(** A connection whose thread is known to end. *)
Lemma wp_cleanup_connection s b g gs hs fs (Q : unit -> os -> Prop) R :
  holds s b (g :: gs) hs fs -> g_end g = true ->
  (forall s', holds s' b gs hs fs -> Q tt s') -> wp (cleanup_connection K (g_p g)) s Q R.
Proof.
  intros [Ho Hr] He HQ. unfold cleanup_connection.
  eapply owns_perm in Ho; [|apply holds_front|rewrite fmap_cons; symmetry; apply Permutation_middle|done].
  apply wp_bind. eapply wp_cxn_at; [exact Ho|]. apply wp_bind. eapply wp_read; [done|].
  apply wp_bind. cbn [est_when]. apply wp_bind. eapply wp_read; [done|].
  eapply wp_pthread_join; [exact Ho|done|]. clear dependent s. intros s Ho.
  eapply wp_release_cxn; [split; [exact Ho|by inversion Hr]|done..].
Qed.

(** ** The bag *)

Lemma wp_bag s b hs fs ts (Q : Bag nat -> os -> Prop) R : owns s b hs fs ts -> Q b s -> wp bag s Q R.
Proof. intros H HQ. unfold wp, bag. cbn. by rewrite (ow_bag _ _ _ _ _ H). Qed.

Lemma wp_bag_get s b gs hs fs slots it x pre post (Q : nat -> os -> Prop) R :
  holds s b gs hs fs -> bag_rep b slots -> at_iter slots it pre (x :: post) -> Q x s -> wp (bag_get it) s Q R.
Proof.
  intros H Hr Hit HQ. destruct (iter_next _ _ _ _ _ _ Hr Hit) as [E _].
  apply wp_bind. eapply wp_bag; [apply H|]. by eapply wp_read.
Qed.

Lemma wp_bag_iterator_next s b gs hs fs slots it x pre post (Q : option nat -> os -> Prop) R :
  holds s b gs hs fs -> bag_rep b slots -> at_iter slots it pre (x :: post) ->
  (forall it', at_iter slots it' (pre ++ [x]) post -> Q it' s) -> wp (bag_iterator_next it) s Q R.
Proof.
  intros H Hr Hit HQ. destruct (iter_next _ _ _ _ _ _ Hr Hit) as (_ & it' & E & Hit').
  apply wp_bind. eapply wp_bag; [apply H|]. by eapply wp_read, HQ.
Qed.

Lemma wp_bag_begin s b gs hs fs slots (Q : option nat -> os -> Prop) R :
  holds s b gs hs fs -> bag_rep b slots ->
  (forall it, at_iter slots it [] (contents slots) -> Q it s) -> wp bag_begin s Q R.
Proof.
  intros H Hr HQ. destruct (iter_begin _ _ Hr) as (it & E & Hit).
  apply wp_bind. eapply wp_bag; [apply H|]. by eapply wp_read, HQ.
Qed.

Lemma holds_bag s b gs hs fs k b' :
  holds s b gs hs fs -> (tick s <= k)%nat -> holds (set_connections (Some b') (set_tick k s)) b' gs hs fs.
Proof.
  intros [[] Hr] Hk. split; [|done]. split; try done; cbn; (eapply Forall_impl; [done|]; intros; cbn in *; lia).
Qed.

(** A bag that is not thread-safe. *)
Definition plain_bag (b : Bag nat) (slots : list (option nat)) : Prop :=
  bag_rep b slots /\ bag_thread_safe b = false.

Lemma wp_bag_erase s b gs hs fs slots it x pre post (Q : option nat -> os -> Prop) R :
  holds s b gs hs fs -> plain_bag b slots -> at_iter slots it pre (x :: post) ->
  (forall s' b' slots' it', holds s' b' gs hs fs -> plain_bag b' slots' -> at_iter slots' it' pre post ->
     Q it' s') ->
  wp (bag_erase K it) s Q R.
Proof.
  intros H [Hr Ht] Hit HQ. unfold bag_erase. apply wp_bind.
  change (wp now s ?Q R) with (Q (tick s) (set_tick (S (tick s)) s)). cbv beta.
  set (m := k_bag K (tick s)).
  destruct (erase_ok (fst m) (snd m) _ _ _ _ _ _ Hr Hit) as (b' & it' & slots' & E & Hr' & Hit').
  apply wp_bind. eapply wp_bag; [apply owns_now, H|]. apply wp_bind. eapply wp_read; [exact E|].
  eapply (HQ _ b' slots'); [apply (holds_bag _ b); [done|lia]| |done].
  split; [done|]. by rewrite (erase_thread_safe _ _ _ _ _ _ E).
Qed.

Lemma wp_bag_add s b gs hs fs slots x (Q : bool -> os -> Prop) R :
  holds s b gs hs fs -> plain_bag b slots -> bag_size b < 2 ^ 60 ->
  (forall s' b' slots', holds s' b' gs hs fs -> plain_bag b' slots' ->
     contents slots' ≡ₚ x :: contents slots -> Q true s') ->
  (forall s' b' slots', holds s' b' gs hs fs -> plain_bag b' slots' ->
     contents slots' = contents slots -> Q false s') ->
  wp (bag_add K x) s Q R.
Proof.
  intros H [Hr Ht] Hs Hok Hno. unfold bag_add. apply wp_bind.
  change (wp now s ?Q R) with (Q (tick s) (set_tick (S (tick s)) s)). cbv beta.
  set (m := k_bag K (tick s)). set (l := k_lock K (tick s)).
  destruct (Bag_add_spec l (fst m) (snd m) l b slots x Hr Hs) as (b' & slots' & ret & E & Hr' & Hc).
  apply wp_bind. eapply wp_bag; [apply owns_now, H|]. apply wp_bind. eapply wp_read; [exact E|].
  assert (Hb : plain_bag b' slots') by (split; [done|by rewrite (add_thread_safe _ _ _ _ _ _ _ _ E)]).
  assert (H' := holds_bag _ _ _ _ _ (S (tick s)) b' H (Nat.le_succ_diag_r _)).
  destruct Hc as [[Hc ->]|(Hc & -> & _)]; [|by eapply Hno].
  unfold Bag_unlock. rewrite Ht. by eapply Hok.
Qed.

Lemma wp_start_iteration s b gs hs fs slots (Q : bool -> os -> Prop) R :
  holds s b gs hs fs -> plain_bag b slots ->
  (forall s', holds s' b gs hs fs -> Q true s') -> wp (bag_start_iteration K) s Q R.
Proof.
  intros [Ho Hr] [_ Ht] HQ. unfold bag_start_iteration. apply wp_bind.
  change (wp now s ?Q R) with (Q (tick s) (set_tick (S (tick s)) s)). cbv beta.
  apply wp_bind. eapply wp_bag; [by apply owns_now|]. apply wp_ret. unfold Bag_wrlock. rewrite Ht.
  apply HQ. split; [by apply owns_now|done].
Qed.

Lemma wp_bag_fuel s b gs hs fs slots (Q : nat -> os -> Prop) R :
  holds s b gs hs fs -> plain_bag b slots -> Q (length (contents slots)) s -> wp bag_fuel s Q R.
Proof.
  intros [Ho _] [Hr _] HQ. unfold bag_fuel. apply wp_bind. eapply wp_bag; [done|]. apply wp_ret.
  rewrite (rep_size _ _ Hr), Nat2Z.id. exact HQ.
Qed.

(** ** The loops over the bag *)

(** Between two steps of the thread: exactly the connections in the bag hold
    resources. *)
Definition settled (s : os) : Prop :=
  exists b slots gs, plain_bag b slots /\ contents slots = g_p <$> gs /\ holds s b gs [] [].

Lemma at_iter_nil (slots : list (option nat)) it pre : at_iter slots it pre [] -> it = None.
Proof. destruct it as [i|]; [|done]. intros H. by destruct (at_iter_post _ _ _ _ H). Qed.
Lemma at_iter_cons (slots : list (option nat)) it pre x post :
  at_iter slots it pre (x :: post) -> exists i, it = Some i.
Proof. destruct it as [i|]; [eauto|]. by intros [_ ?]. Qed.

(** The iterator moves over [g]. *)
Lemma at_iter_step (slots : list (option nat)) it pre g post :
  at_iter slots it ((g_p <$> pre) ++ [g_p g]) (g_p <$> post) ->
  at_iter slots it (g_p <$> pre ++ [g]) (g_p <$> post).
Proof. by rewrite fmap_app. Qed.

Lemma holds_middle s b pre g post hs fs :
  holds s b (pre ++ g :: post) hs fs <-> holds s b (g :: pre ++ post) hs fs.
Proof. split; intros H; (eapply holds_perm; [exact H| |done]); [symmetry|]; apply Permutation_middle. Qed.

Lemma wp_kill_loop b slots (Q : unit -> os -> Prop) R post : forall fuel it pre s,
  bag_rep b slots -> at_iter slots it (g_p <$> pre) (g_p <$> post) -> holds s b (pre ++ post) [] [] ->
  (length post <= fuel)%nat ->
  (forall s', holds s' b (pre ++ (g_stop <$> post)) [] [] -> Q tt s') -> wp (kill_loop fuel it) s Q R.
Proof.
  induction post as [|g post IH]; intros fuel it pre s Hr Hit H Hf HQ.
  { rewrite (at_iter_nil _ _ _ Hit). destruct fuel; by apply HQ. }
  destruct (at_iter_cons _ _ _ _ _ Hit) as [i ->]. destruct fuel as [|fuel]; [cbn in Hf; lia|].
  cbn [kill_loop]. apply wp_bind. eapply wp_bag_get; [done..|].
  apply wp_bind. eapply wp_kill_connection; [by apply holds_middle|]. clear dependent s. intros s H.
  apply wp_bind. eapply wp_bag_iterator_next; [done..|]. intros it' Hit'. apply at_iter_step in Hit'.
  apply (IH _ _ (pre ++ [g_stop g])).
  - done.
  - by rewrite fmap_app in *.
  - rewrite <- app_assoc. by apply holds_middle.
  - cbn in Hf. lia.
  - intros s' H'. apply HQ. by rewrite <- app_assoc in H'.
Qed.

Lemma wp_erase_loop (Q : unit -> os -> Prop) R pre post : forall fuel it b slots s,
  plain_bag b slots -> at_iter slots it (g_p <$> pre) (g_p <$> post) -> holds s b (pre ++ post) [] [] ->
  Forall (fun g => g_end g = true) post -> (length post <= fuel)%nat ->
  (forall s' b' slots', plain_bag b' slots' -> contents slots' = g_p <$> pre -> holds s' b' pre [] [] -> Q tt s') ->
  wp (erase_loop K fuel it) s Q R.
Proof.
  induction post as [|g post IH]; intros fuel it b slots s Hr Hit H He Hf HQ.
  { rewrite (at_iter_nil _ _ _ Hit) in *. apply at_iter_contents in Hit. rewrite app_nil_r in *.
    destruct fuel; by apply (HQ s b slots). }
  destruct (at_iter_cons _ _ _ _ _ Hit) as [i ->]. destruct fuel as [|fuel]; [cbn in Hf; lia|].
  inversion He as [|? ? Hg He']; subst.
  cbn [erase_loop]. apply wp_bind. eapply wp_bag_get; [done|apply Hr|done|].
  apply wp_bind. eapply wp_cleanup_connection; [by apply holds_middle|done|]. clear dependent s. intros s H.
  apply wp_bind. eapply wp_bag_erase; [done..|]. clear dependent s. intros s b' slots' it' H Hr' Hit'.
  eapply IH; [done..|cbn in Hf; lia|done].
Qed.

Lemma wp_cleanup s (Q : unit -> os -> Prop) R :
  settled s ->
  (forall s', heap s' = ∅ -> fds s' = ∅ -> threads s' = ∅ -> connections s' = None -> Q tt s') ->
  wp (cleanup K) s Q R.
Proof.
  intros (b & slots & gs & Hb & Hc & H) HQ. unfold cleanup.
  apply wp_bind. eapply wp_start_iteration; [done..|]. clear dependent s. intros s H.
  apply wp_bind. eapply wp_bag_fuel; [done..|].
  apply wp_bind. eapply wp_bag_begin; [done|apply Hb|]. intros it Hit.
  rewrite Hc, length_fmap in *. apply wp_bind.
  eapply (wp_kill_loop _ _ _ _ gs _ _ []); [apply Hb|done|done|done|]. clear dependent s. intros s H.
  apply wp_bind. eapply wp_bag_begin; [done|apply Hb|]. clear dependent it. intros it Hit.
  assert (Hst : g_p <$> (g_stop <$> gs) = g_p <$> gs) by (by rewrite <- list_fmap_compose).
  apply wp_bind. eapply (wp_erase_loop _ _ [] (g_stop <$> gs)); [done|by rewrite Hst, <- Hc|done| | |].
  - apply Forall_fmap, Forall_true. done.
  - by rewrite length_fmap.
  - clear dependent s b slots. intros s b slots [Hr _] Hc [Ho _]. apply wp_bind. eapply wp_bag; [done|].
    rewrite (rep_size _ _ Hr). fold (contents slots). rewrite Hc. cbn.
    destruct Ho. apply HQ; done.
Qed.

Lemma wp_reap_loop lfds Q (R : stop -> os -> Prop) post : (forall s', overflowed lfds s' -> R Undefined s') -> forall fuel it pre b slots set nfds s,
  plain_bag b slots -> at_iter slots it (g_p <$> pre) (g_p <$> post) -> holds s b (pre ++ post) [] [] ->
  (length post <= fuel)%nat ->
  (forall s' r, settled s' -> Q r s') -> wp (reap_loop K fuel it set nfds) s Q R.
Proof.
  intros HR. induction post as [|g post IH]; intros fuel it pre b slots set nfds s Hb Hit H Hf HQ.
  { rewrite (at_iter_nil _ _ _ Hit) in *. apply at_iter_contents in Hit. rewrite app_nil_r in *.
    destruct fuel; apply HQ; by exists b, slots, pre. }
  destruct (at_iter_cons _ _ _ _ _ Hit) as [i ->]. destruct fuel as [|fuel]; [cbn in Hf; lia|].
  cbn [reap_loop]. apply wp_bind. eapply wp_bag_get; [done|apply Hb|done|].
  apply holds_middle in H. destruct H as [Ho Hr]. pose proof Hr as Hfd. inversion Hfd as [|? ? Hg _]; subst.
  apply wp_bind. eapply wp_cxn_at; [exact Ho|]. apply wp_bind. eapply wp_read; [done|].
  apply wp_bind. eapply wp_pthread_kill; [exact Ho| |]; clear dependent s; intros s Ho.
  - apply wp_bind. eapply (wp_cleanup_connection _ _ (g_stop g)); [by split|done|].
    clear dependent s. intros s H.
    apply wp_bind. eapply wp_bag_erase; [done..|]. clear dependent s. intros s b' slots' it' H Hb' Hit'.
    eapply IH; [done..|cbn in Hf; lia|done].
  - apply wp_bind. eapply wp_read; [done|]. apply wp_bind. apply wp_FD_SET_any; [apply Hg| |intros Hbig; apply HR; by eapply owned_fd].
    assert (H : holds s b (pre ++ g :: post) [] []) by (apply holds_middle; by split).
    apply wp_bind. eapply wp_bag_iterator_next; [done|apply Hb|done|]. intros it' Hit'.
    apply at_iter_step in Hit'. eapply IH; [done|done|by rewrite <- app_assoc|cbn in Hf; lia|done].
Qed.

Lemma wp_post_loop lfds (Q : unit -> os -> Prop) (R : stop -> os -> Prop) read_fds post :
  (forall s', overflowed lfds s' -> R Undefined s') -> forall fuel it pre b slots s,
  plain_bag b slots -> at_iter slots it (g_p <$> pre) (g_p <$> post) -> holds s b (pre ++ post) [] [] ->
  (length post <= fuel)%nat ->
  (forall s', settled s' -> Q tt s') -> wp (post_loop K fuel it read_fds) s Q R.
Proof.
  intros HR. induction post as [|g post IH]; intros fuel it pre b slots s Hb Hit H Hf HQ.
  { rewrite (at_iter_nil _ _ _ Hit) in *. apply at_iter_contents in Hit. rewrite app_nil_r in *.
    destruct fuel; apply HQ; by exists b, slots, pre. }
  destruct (at_iter_cons _ _ _ _ _ Hit) as [i ->]. destruct fuel as [|fuel]; [cbn in Hf; lia|].
  cbn [post_loop]. apply wp_bind. eapply wp_bag_get; [done|apply Hb|done|].
  apply holds_middle in H. destruct H as [Ho Hr]. pose proof Hr as Hfd. inversion Hfd as [|? ? Hg _]; subst.
  apply wp_bind. eapply wp_cxn_at; [exact Ho|]. apply wp_bind. eapply wp_read; [done|].
  apply wp_bind. apply wp_FD_ISSET_any; [apply Hg| |intros Hbig; apply HR; by eapply owned_fd]. apply wp_bind.
  apply (wp_mono _ _ (fun _ s' => holds s' b (g :: pre ++ post) [] [])).
  { destruct (zin _ _); [|by apply wp_ret; split]. apply wp_bind. eapply wp_read; [done|].
    eapply owns_perm in Ho; [|apply Permutation_swap|done..].
    eapply wp_sem_post; [exact Ho|]. intros s' ok Ho'. split; [|done].
    eapply owns_perm; [exact Ho'|apply Permutation_swap|done..]. }
  clear dependent s. intros ok s H. destruct ok; cbn [negb].
  - apply holds_middle in H. apply wp_bind. eapply wp_bag_iterator_next; [done|apply Hb|done|]. intros it' Hit'.
    apply at_iter_step in Hit'. eapply IH; [done|done|by rewrite <- app_assoc|cbn in Hf; lia|done].
  - apply wp_bind. eapply wp_kill_connection; [exact H|]. clear dependent s. intros s H.
    apply wp_bind. eapply (wp_cleanup_connection _ _ (g_stop g)); [exact H|done|]. clear dependent s. intros s H.
    apply wp_bind. eapply wp_bag_erase; [done..|]. clear dependent s. intros s b' slots' it' H Hb' Hit'.
    eapply IH; [done..|cbn in Hf; lia|done].
Qed.

(** ** New connections *)

(** [accept] returns a descriptor that was not open. *)
Hypothesis Haccept : forall k open fd, k_accept K k open = Some fd -> fd ∉ open /\ is_fd fd.

Lemma wp_accept lfd s b hs fs ts (Q : Z -> os -> Prop) R :
  owns s b hs fs ts ->
  (forall s', owns s' b hs fs ts -> Q (-1) s') ->
  (forall s' fd, is_fd fd -> owns s' b hs (fd :: fs) ts -> Q fd s') -> wp (accept K lfd) s Q R.
Proof.
  intros H Hn Hs. apply wp_bind. eapply wp_cancel_point; [done|]. clear dependent s. intros s H.
  apply owns_now in H. unfold wp. cbn. destruct (k_accept K (tick s) (fds s)) as [fd|] eqn:E; cbn; [|by apply Hn].
  destruct (Haccept _ _ _ E) as [Hf Hr]. apply Hs; [done|]. destruct H. split; try done; cbn in *.
  - by rewrite ow_fds.
  - constructor; [|done]. rewrite ow_fds in Hf. set_solver.
Qed.

Lemma fd_count (fs : list Z) : NoDup fs -> Forall is_fd fs -> Z.of_nat (length fs) <= 2 ^ 31.
Proof.
  intros Hd Hr. assert (Hs : fs ⊆+ seqZ 0 (2 ^ 31)).
  { apply NoDup_submseteq; [done|]. intros x Hx. rewrite Forall_forall in Hr. apply Hr in Hx.
    apply elem_of_seqZ. unfold is_fd in Hx. lia. }
  apply submseteq_length in Hs. rewrite length_seqZ in Hs. lia.
Qed.

Lemma holds_count s b gs hs fs : holds s b gs hs fs -> Z.of_nat (length gs) <= 2 ^ 31.
Proof.
  intros [Ho Hr]. rewrite <- (length_fmap g_fd). apply fd_count; [|done].
  pose proof (ow_fds_nodup _ _ _ _ _ Ho) as Hd. by apply NoDup_app in Hd as (_ & _ & ?).
Qed.

(** A connection that has a descriptor and a semaphore and no thread. *)
Definition unstarted (fd : Z) (sem : nat) : connection_info := mkCxn (Some fd) (Some sem) None (Some false).

Lemma wp_start_connection s b slots gs p sem fd (Q : unit -> os -> Prop) R :
  plain_bag b slots -> contents slots = g_p <$> gs -> is_fd fd ->
  holds s b gs [(p, OCxn (unstarted fd sem)); (sem, OSem)] [fd] ->
  (forall s', settled s' -> Q tt s') -> wp (start_connection K p fd sem) s Q R.
Proof.
  intros Hb Hc Hfd H HQ. pose proof (ho_range _ _ _ _ _ H) as Hr.
  assert (Hq : forall s', holds s' b gs [] [] -> Q tt s') by (intros s' H'; apply HQ; by exists b, slots, gs).
  unfold start_connection. apply wp_bind.
  change (wp (getnameinfo K) s ?Q R) with (Q (k_getnameinfo K (tick s)) (set_tick (S (tick s)) s)). cbv beta.
  assert (H1 : holds (set_tick (S (tick s)) s) b gs [(p, OCxn (unstarted fd sem)); (sem, OSem)] [fd])
    by (split; [apply owns_now, H|done]).
  destruct (k_getnameinfo K (tick s) =? 0); cbn [negb]; [|by eapply wp_cleanup_new].
  apply wp_bind. eapply wp_malloc; [apply H1| |]; clear dependent s; intros s.
  { intros Ho. eapply wp_cleanup_new; [by split|done..]. }
  intros a Ho. apply wp_bind. eapply wp_pthread_create; [exact Ho| |]; clear dependent s; intros s.
  { intros Ho. assert (H : holds s b gs ((a, OArgs (mkArgs fd p sem)) :: [(p, OCxn (unstarted fd sem)); (sem, OSem)]) [fd])
      by (by split).
    apply wp_bind. eapply wp_free; [apply H|by eapply holds_mem|]. clear dependent s. intros s Ho.
    eapply wp_cleanup_new; [by split|done..]. }
  intros t Ho. apply wp_bind. eapply wp_cxn_store; [exact Ho|]. clear dependent s. intros s Ho.
  assert (H : holds s b (mkG p fd sem t false :: gs) [] []) by (split; [exact Ho|by constructor]).
  apply wp_bind. eapply wp_bag_add; [exact H|exact Hb| | |].
  - pose proof (holds_count _ _ _ _ _ H) as Hl. cbn in Hl. rewrite (rep_size _ _ (proj1 Hb)).
    fold (contents slots). rewrite Hc, length_fmap. lia.
  - clear dependent s. intros s b' slots' H Hb' Hc'. apply HQ. rewrite Hc in Hc'.
    change (contents slots' ≡ₚ map g_p (mkG p fd sem t false :: gs)) in Hc'.
    apply Permutation_map_inv in Hc' as (gs' & Hc' & Hg).
    exists b', slots', gs'. split_and!; [done..|]. by eapply holds_perm.
  - clear dependent s. intros s b' slots' H Hb' Hc'. cbn [est_when negb]. apply wp_bind.
    eapply (wp_kill_connection _ _ (mkG p fd sem t false)); [exact H|]. clear dependent s. intros s H.
    eapply (wp_cleanup_connection _ _ (g_stop (mkG p fd sem t false))); [exact H|done|].
    intros s' H'. apply HQ. exists b', slots', gs. by rewrite Hc'.
Qed.

Lemma wp_new_connection lfd s (Q : unit -> os -> Prop) R :
  settled s -> (forall s', settled s' -> Q tt s') -> wp (new_connection K lfd) s Q R.
Proof.
  intros (b & slots & gs & Hb & Hc & H) HQ. pose proof (ho_range _ _ _ _ _ H) as Hr.
  assert (Hq : forall s', owns s' b (gs ≫= objs) (g_fd <$> gs) (thr <$> gs) -> Q tt s')
    by (intros s' H'; apply HQ; by exists b, slots, gs).
  unfold new_connection. apply wp_bind. eapply wp_malloc; [apply H|done|]. clear dependent s. intros s p Ho.
  apply wp_bind. eapply wp_cxn_store; [exact Ho|]. clear dependent s. intros s Ho.
  apply wp_bind. eapply wp_semcompat_new; [done|exact Ho| | |].
  { intros t Ht q Hm. right. by eapply thr_mem. }
  { clear dependent s. intros s Ho.
    assert (H : holds s b gs [(p, OCxn (mkCxn None None None (Some false)))] []) by (by split).
    eapply wp_free; [apply H|by eapply holds_mem|done]. }
  clear dependent s. intros s sem Ho. eapply owns_perm in Ho; [|apply Permutation_swap|done..].
  apply wp_bind. eapply wp_cxn_store; [exact Ho|]. clear dependent s. intros s Ho.
  apply wp_bind. eapply wp_accept; [exact Ho| |]; clear dependent s; intros s.
  - intros Ho. apply wp_bind. eapply wp_cxn_store; [exact Ho|]. clear dependent s. intros s Ho. cbn -[semcompat_free free].
    eapply owns_perm in Ho; [|apply Permutation_swap|done..].
    assert (H : holds s b gs [(sem, OSem); (p, OCxn (mkCxn (Some (-1)) (Some sem) None (Some false)))] [])
      by (by split).
    apply wp_bind. eapply wp_semcompat_free; [done|apply H|by eapply holds_mem|]. clear dependent s. intros s Ho.
    assert (H : holds s b gs [(p, OCxn (mkCxn (Some (-1)) (Some sem) None (Some false)))] []) by (by split).
    eapply wp_free; [apply H|by eapply holds_mem|done].
  - intros fd Hfd Ho. apply wp_bind. eapply wp_cxn_store; [exact Ho|]. clear dependent s. intros s Ho.
    destruct (Z.ltb_spec fd 0); [unfold is_fd in Hfd; lia|].
    eapply wp_start_connection; [done..| |done]. by split.
Qed.

Lemma wp_accept_loop all lfds read_fds : forall s (Q : unit -> os -> Prop) (R : stop -> os -> Prop),
  Forall is_fd lfds -> lfds ⊆ all -> settled s ->
  (forall s', settled s' -> Q tt s') -> (forall s', overflowed all s' -> R Undefined s') ->
  wp (accept_loop K lfds read_fds) s Q R.
Proof.
  induction lfds as [|fd lfds IH]; intros s Q R Hl Ha H HQ HR; [by apply HQ|]. inversion Hl as [|? ? Hfd Hl']; subst.
  cbn [accept_loop]. apply wp_bind. apply wp_FD_ISSET_any; [apply Hfd| |intros Hbig; apply HR; exists fd; set_solver].
  apply wp_bind. apply (wp_mono _ _ (fun _ => settled)).
  - destruct (zin fd read_fds); [by apply wp_new_connection|done].
  - intros _ s' H'. apply IH; try done. set_solver.
Qed.

(** ** The thread *)

Lemma wp_watch all lfds : forall set nfds s Q (R : stop -> os -> Prop),
  Forall is_fd lfds -> lfds ⊆ all -> (forall r, Q r s) -> (forall s', overflowed all s' -> R Undefined s') ->
  wp (watch_listen_fds lfds set nfds) s Q R.
Proof.
  induction lfds as [|fd lfds IH]; intros set nfds s Q R Hl Ha HQ HR; [apply HQ|]. inversion Hl as [|? ? Hfd Hl']; subst.
  cbn [watch_listen_fds]. apply wp_bind. apply wp_FD_SET_any; [apply Hfd| |intros Hbig; apply HR; exists fd; set_solver].
  apply IH; try done. set_solver.
Qed.

(** The only place at which the thread can be cancelled. *)
Lemma wp_wait nfds set s Q (R : stop -> os -> Prop) :
  settled s -> (forall s' r, settled s' -> Q r s') -> (forall s', settled s' -> R Cancelled s') ->
  wp (wait_readable K nfds set) s Q R.
Proof.
  intros (b & slots & gs & Hb & Hc & [Ho Hr]) HQ HR.
  assert (Hs : forall k, (tick s <= k)%nat -> settled (set_cancel false (set_tick k (set_cancel true s)))).
  { intros k Hk. exists b, slots, gs. split_and!; [done..|]. split; [|done].
    destruct Ho. split; try done; cbn; (eapply Forall_impl; [done|]; intros; cbn in *; lia). }
  unfold wp, wait_readable, select, cancel_point, est_bind. cbn. destruct (k_cancel K (tick s)); cbn.
  - apply HR, Hs. lia.
  - apply HQ. apply (Hs (S (S (tick s)))). lia.
Qed.

Lemma wp_body lfds s (Q : unit -> os -> Prop) (R : stop -> os -> Prop) :
  Forall is_fd lfds -> settled s ->
  (forall s', settled s' -> Q tt s') -> (forall s', settled s' -> R Cancelled s') ->
  (forall s', overflowed lfds s' -> R Undefined s') ->
  wp (control_body K lfds) s Q R.
Proof.
  intros Hl (b & slots & gs & Hb & Hc & H) HQ HR HU. unfold control_body.
  apply wp_bind. apply (wp_watch lfds); [done..| |done]. intros [set nfds].
  apply wp_bind. eapply wp_start_iteration; [done..|]. clear dependent s. intros s H. cbn [negb].
  apply wp_bind. eapply wp_bag_fuel; [done..|]. apply wp_bind. eapply wp_bag_begin; [done|apply Hb|].
  intros it Hit. rewrite Hc, length_fmap in *. apply wp_bind.
  eapply (wp_reap_loop lfds _ _ gs HU _ _ []); [done..|]. clear dependent s b slots gs it.
  intros s [set' nfds'] H. apply wp_bind. apply wp_wait; [done| |done]. clear dependent s.
  intros s [retval read_fds] (b & slots & gs & Hb & Hc & H).
  destruct (retval <=? 0); [apply HQ; by exists b, slots, gs|].
  apply wp_bind. eapply wp_start_iteration; [done..|]. clear dependent s. intros s H. cbn [negb].
  apply wp_bind. eapply wp_bag_fuel; [done..|]. apply wp_bind. eapply wp_bag_begin; [done|apply Hb|].
  intros it Hit. rewrite Hc, length_fmap in *. apply wp_bind.
  eapply (wp_post_loop lfds _ _ _ gs HU _ _ []); [done..|]. clear dependent s b slots gs it.
  intros s H. by apply (wp_accept_loop lfds).
Qed.

Lemma wp_loop lfds n : forall s (Q : unit -> os -> Prop) (R : stop -> os -> Prop),
  Forall is_fd lfds -> settled s ->
  (forall s', settled s' -> Q tt s') -> (forall s', settled s' -> R Cancelled s') ->
  (forall s', overflowed lfds s' -> R Undefined s') ->
  wp (control_loop K n lfds) s Q R.
Proof.
  induction n as [|n IH]; intros s Q R Hl H HQ HR HU; [by apply HQ|].
  cbn [control_loop]. apply wp_bind. apply wp_body; [done|done| |done|done]. intros s' H'. by apply IH.
Qed.

(** While no [sem_post] fails, a round posts exactly the semaphores of the
    connections that can be read, once each and in the order of the bag, and
    keeps every connection. *)
Lemma post_exact read_fds b slots post : forall fuel it pre s,
  (forall k, k_sem_post K k = true) ->
  bag_rep b slots -> at_iter slots it (g_p <$> pre) (g_p <$> post) -> holds s b (pre ++ post) [] [] ->
  (length post <= fuel)%nat -> Forall in_fd_set (g_fd <$> post) ->
  wp (post_loop K fuel it read_fds) s
    (fun _ s' => holds s' b (pre ++ post) [] []
       /\ posted s' = posted s ++ (g_sem <$> filter (fun g => zin (g_fd g) read_fds = true) post))
    (fun _ _ => False).
Proof.
  induction post as [|g post IH]; intros fuel it pre s Hp Hb Hit H Hf Hin.
  { rewrite (at_iter_nil _ _ _ Hit). destruct fuel; (split; [done|by rewrite app_nil_r]). }
  destruct (at_iter_cons _ _ _ _ _ Hit) as [i ->]. destruct fuel as [|fuel]; [cbn in Hf; lia|].
  cbn [post_loop]. apply wp_bind. eapply wp_bag_get; [done|apply Hb|done|].
  apply holds_middle in H. destruct H as [Ho Hr]. pose proof Hr as Hfd. inversion Hfd as [|? ? Hg _]; subst.
  apply wp_bind. eapply wp_cxn_at; [exact Ho|]. apply wp_bind. eapply wp_read; [done|].
  inversion Hin as [|? ? Hin0 Hin']; subst.
  apply wp_bind. apply wp_FD_ISSET; [exact Hin0|]. apply wp_bind.
  apply (wp_mono _ _ (fun ok s' => ok = true /\ holds s' b (pre ++ g :: post) [] []
    /\ posted s' = posted s ++ (if zin (g_fd g) read_fds then [g_sem g] else []))).
  { destruct (zin _ _).
    - apply wp_bind. eapply wp_read; [done|]. eapply owns_perm in Ho; [|apply Permutation_swap|done..].
      pose proof (owns_now _ _ _ _ _ Ho) as Ho'. unfold wp, sem_post. cbn.
      rewrite (owns_lookup _ _ _ _ _ _ _ Ho), Hp. split_and!; [done| |done]. apply holds_middle.
      split; [|done]. eapply owns_perm; [|apply Permutation_swap|done..]. destruct Ho'. by split.
    - apply wp_ret. split_and!; [done| |by rewrite app_nil_r]. apply holds_middle. by split. }
  intros ok s' (-> & H & Hpost). cbn [negb].
  apply wp_bind. eapply wp_bag_iterator_next; [done|apply Hb|done|]. intros it' Hit'. apply at_iter_step in Hit'.
  eapply wp_mono; [apply (IH _ _ (pre ++ [g])); [done..| |cbn in Hf; lia|done]|].
  - by rewrite <- app_assoc.
  - intros _ s2 [H2 E]. rewrite <- app_assoc in H2. split; [exact H2|].
    rewrite E, Hpost, <- app_assoc. f_equal. rewrite filter_cons. by destruct (zin _ _).
Qed.
End control.

(** ** The claim *)

Lemma length_objs gs : length (gs ≫= objs) = (2 * length gs)%nat.
Proof. induction gs as [|g gs IH]; [done|]. rewrite bind_cons, length_app, IH. cbn. lia. Qed.

(** The connection [p] with all that belongs to it. *)
Definition cxn_complete (s : os) (p : nat) : Prop :=
  exists fd sem t e,
    heap s !! p = Some (OCxn (mkCxn (Some fd) (Some sem) (Some t) (Some true)))
    /\ heap s !! sem = Some OSem /\ fd ∈ fds s /\ threads s !! t = Some (mkThread fd [p; sem] e).

Lemma settled_complete s :
  settled s -> exists b ps, connections s = Some b /\ iterate b = Some ps
    /\ size (heap s) = (2 * length ps)%nat /\ size (fds s) = length ps /\ size (threads s) = length ps
    /\ Forall (cxn_complete s) ps.
Proof.
  intros (b & slots & gs & [Hr _] & Hc & [[] _]). cbn [app] in *. exists b, (g_p <$> gs).
  rewrite ow_heap, ow_fds, ow_threads, size_list_to_set, !map_size_list_to_map, length_objs, !length_fmap by done.
  split_and!; [done| |done..|].
  - destruct (Bag_iteration b slots true true Hr) as [E _]. by rewrite E, Hc.
  - apply Forall_fmap, Forall_forall. intros g Hg.
    assert (Hin : forall x, x ∈ objs g -> x ∈ (gs ≫= objs)) by (intros x Hx; apply list_elem_of_bind; eauto).
    exists (g_fd g), (g_sem g), (g_thr g), (g_end g). rewrite ow_heap, ow_fds, ow_threads. split_and!.
    + apply elem_of_list_to_map_1; [done|]. apply Hin. left.
    + apply elem_of_list_to_map_1; [done|]. apply Hin. right. left.
    + apply elem_of_list_to_set, list_elem_of_fmap. eauto.
    + apply elem_of_list_to_map_1; [done|]. apply list_elem_of_fmap. by exists g.
Qed.

(** What the thread leaves behind after a number of rounds on the descriptors [lfds]. *)
Definition control_outcome (lfds : list Z) (r : os * (stop + unit)) : Prop :=
  match r with
  | (s, inr _) =>
      exists b ps, connections s = Some b /\ iterate b = Some ps
        /\ size (heap s) = (2 * length ps)%nat /\ size (fds s) = length ps /\ size (threads s) = length ps
        /\ Forall (cxn_complete s) ps
  | (s, inl Undefined) => overflowed lfds s
  | (s, inl Blocked) => False
  | (s, inl _) => heap s = ∅ /\ fds s = ∅ /\ threads s = ∅ /\ connections s = None
  end.

(** C25: The connection control thread after any number of rounds, for any outcome of
    every other call, if [pthread_once] succeeds and [accept] returns descriptors that
    were not open. It never uses, closes or frees something that is gone or that a
    connection thread may still use, and never waits for a thread that nobody told to
    end. While it runs, every object, descriptor and thread it acquired belongs to
    exactly one connection of the bag, which has all of them; when it has been cancelled,
    or could not start, none is left. The one way into undefined behaviour is that a
    socket it listens on or has accepted has a descriptor of FD_SETSIZE or more, which
    nothing in the code prevents ([fd_set_overflow]). *)
Theorem connection_control_releases K lfds n :
  k_once K = true ->
  (forall k open fd, k_accept K k open = Some fd -> fd ∉ open /\ 0 <= fd < 2 ^ 31) ->
  Forall (fun fd => 0 <= fd < 2 ^ 31) lfds ->
  control_outcome lfds (connection_control_main K n lfds init_os).
Proof.
  intros Ho Ha Hl. unfold connection_control_main. destruct (k_bag_new K) as [[[m1 m2] m3] io].
  destruct (Bag_new m1 m2 m3 io false) as [b|] eqn:Eb; [|cbn; auto].
  set (s0 := set_cancel false (set_connections (Some b) init_os)).
  assert (H0 : settled s0).
  { exists b, (replicate 16 None), []. pose proof (bag_new_rep _ _ _ _ _ _ Eb).
    split_and!; [split; [done|]|done|].
    - unfold Bag_new in Eb. repeat case_match; by simplify_eq.
    - split; [|done]. split; try done; constructor. }
  pose proof (wp_loop K Ho Ha lfds n s0 (fun _ => settled) (fun e s => e = Cancelled /\ settled s \/ e = Undefined /\ overflowed lfds s) Hl H0
    (fun _ H => H) (fun _ H => or_introl (conj eq_refl H)) (fun _ H => or_intror (conj eq_refl H))) as Hw.
  unfold wp in Hw. cbn -[control_loop cleanup]. fold s0. unfold pthread_setcancelstate, est_modify, est_bind at 1.
  change (set_cancel false (set_connections (Some b) init_os)) with s0.
  destruct (control_loop K n lfds s0) as [s [e|u]]; [|by apply settled_complete].
  destruct Hw as [[-> Hs]|[-> Hs]]; [|done].
  pose proof (wp_cleanup K Ho s (fun _ s' => heap s' = ∅ /\ fds s' = ∅ /\ threads s' = ∅ /\ connections s' = None)
    (fun _ _ => False) Hs) as Hc. unfold wp in Hc.
  unfold est_bind. destruct (cleanup K s) as [s' [e|v]]; [by destruct Hc|].
  by apply Hc.
Qed.

(** A system in which a connection arrives in every round, gets the lowest
    descriptor from [lo] on that is not open and below [limit], and every call succeeds; the
    thread is cancelled at the call numbered [stop_at]. *)
Definition lowest_free (lo : Z) (open : gset Z) : option Z :=
  head (filter (fun fd => fd ∉ open) (seqZ lo (1030 - lo))).
Definition busy_kernel (lo limit : Z) (stop_at : nat) : kernel :=
  mkKernel (fun _ => true) (fun _ => (true, true)) (true, true, true, true) (fun _ => true) true true
    (fun _ => true) (fun _ => OpenOk) (fun _ => true)
    (fun _ open => match lowest_free lo open with
                   | Some fd => if fd <? limit then Some fd else None
                   | None => None
                   end)
    (fun _ => 0) (fun _ => 0) (fun _ => false) (fun _ => (1, seqZ 3 1024)) (fun k => Nat.eqb k stop_at).

Lemma connection_control_releases_witness :
  control_outcome [3] (connection_control_main (busy_kernel 4 1030 1000) 2 [3] init_os).
Proof.
  apply connection_control_releases; [done| |by repeat constructor].
  intros k open fd. cbn. unfold lowest_free. destruct (filter _ _) as [|x l] eqn:E; [done|]. cbn.
  assert (Hx : x ∈ filter (fun fd => fd ∉ open) (seqZ 4 (1030 - 4))) by (rewrite E; left).
  apply list_elem_of_filter in Hx as [Hx Hs]. apply elem_of_seqZ in Hs.
  destruct (Z.ltb_spec x 1030); [|done]. intros [= <-]. split; [done|lia].
Defined.

(** Three rounds of that system: three connections, and each round wakes those
    there are. When the thread is cancelled in the third [select] it closes both
    connections it had. *)
Example busy_rounds :
  let r := connection_control_main (busy_kernel 4 FD_SETSIZE 1000) 3 [3] init_os in
  let c := connection_control_main (busy_kernel 4 FD_SETSIZE 31) 3 [3] init_os in
  size (fds (fst r)) = 3%nat /\ size (threads (fst r)) = 3%nat /\ posted (fst r) = [5; 5; 20]%nat
  /\ snd c = inl Cancelled /\ fds (fst c) = ∅ /\ posted (fst c) = [5]%nat.
Proof. by vm_compute. Qed.

(** Nothing in the code keeps descriptors below FD_SETSIZE: where the limit of
    the process is higher, the next round after descriptor 1024 was accepted
    writes outside the [fd_set]. *)
Lemma fd_set_overflow :
  snd (connection_control_main (busy_kernel 1023 1030 1000) 2 [3] init_os) = inr tt
  /\ snd (connection_control_main (busy_kernel 1023 1030 1000) 3 [3] init_os) = inl Undefined.
Proof. by vm_compute. Qed.
