(* ===== verification/DaemonMain.v ===== *)
(** * The main thread of the daemon ([src/bin/rpki-rtr/main.c], [signals.c])

    The main thread opens the listening sockets and the shared objects, starts
    the database threads and the connection control thread, and refreshes the
    cache state until a signal arrives. [startup] acquires one thing after the
    other with signals blocked, and [cleanup] releases what the members of
    [run_state] say is there. In the model a signal is taken as soon as signals
    are unblocked, or never in that window, since nothing that [cleanup] reads
    changes while signals are unblocked. Releasing something that is not there,
    or that a thread which is not joined still uses, is undefined.

    What the threads do is in [ConnControl], [Connection] and [DbThread], what
    [update_global_cache_state] does in [CacheState]. The contents of the request
    queue and of the bag of requests, which [Queue_free] and [Bag_free] assert to
    be empty, are not part of this model. *)

From S2P Require Import Prelude Bag.
Local Open Scope est_scope.

(** ** Data *)

(** The members of [run_state] that say whether something is there. *)
Inductive member :=
| log_opened | db_request_queue | db_currently_processing | db_semaphore | db
| global_cache_state_initialized | connection_control_thread_initialized.
#[export] Instance member_eq_dec : EqDecision member.
Proof. solve_decision. Defined.

(** What the process holds, apart from descriptors, threads and their ids. *)
Inductive res :=
| Log | Config | AddrInfo | RequestQueue | CurrentlyProcessing | DbSemaphore
| DbLibrary | DbThreadLocal | DbConnection | CacheLock.
#[export] Instance res_eq_dec : EqDecision res.
Proof. solve_decision. Defined.

(** [config_loaded] is [None] when it is indeterminate. [listen_fds] has the
    first [listen_fds_initialized] entries. *)
Record run_state_t := mkRun {
  present : member -> bool;
  config_loaded : option bool;
  listen_fds : list Z;
  db_thread_initialized : bool;
  db_thread : option nat;
  db_threads : option (Bag nat) }.
Definition rs_present x r := mkRun x (config_loaded r) (listen_fds r) (db_thread_initialized r) (db_thread r) (db_threads r).
Definition rs_config_loaded x r := mkRun (present r) x (listen_fds r) (db_thread_initialized r) (db_thread r) (db_threads r).
Definition rs_listen_fds x r := mkRun (present r) (config_loaded r) x (db_thread_initialized r) (db_thread r) (db_threads r).
Definition rs_db_thread_initialized x r := mkRun (present r) (config_loaded r) (listen_fds r) x (db_thread r) (db_threads r).
Definition rs_db_thread x r := mkRun (present r) (config_loaded r) (listen_fds r) (db_thread_initialized r) x (db_threads r).
Definition rs_db_threads x r := mkRun (present r) (config_loaded r) (listen_fds r) (db_thread_initialized r) (db_thread r) x.

(** [thread_ids]: the [pthread_t]s on the heap, with their contents;
    [db_running], [control_running]: the threads that are not joined, and
    whether they have been cancelled. *)
Record daemon := mkDaemon {
  run_state : run_state_t;
  held : res -> bool;
  open_fds : gset Z;
  thread_ids : gmap nat (option nat);
  db_running : gmap nat bool;
  control_running : option bool;
  blocked : bool;
  signalled : bool;
  exit_code : Z;
  dtick : nat }.
Definition d_run_state x s := mkDaemon x (held s) (open_fds s) (thread_ids s) (db_running s) (control_running s) (blocked s) (signalled s) (exit_code s) (dtick s).
Definition d_held x s := mkDaemon (run_state s) x (open_fds s) (thread_ids s) (db_running s) (control_running s) (blocked s) (signalled s) (exit_code s) (dtick s).
Definition d_open_fds x s := mkDaemon (run_state s) (held s) x (thread_ids s) (db_running s) (control_running s) (blocked s) (signalled s) (exit_code s) (dtick s).
Definition d_thread_ids x s := mkDaemon (run_state s) (held s) (open_fds s) x (db_running s) (control_running s) (blocked s) (signalled s) (exit_code s) (dtick s).
Definition d_db_running x s := mkDaemon (run_state s) (held s) (open_fds s) (thread_ids s) x (control_running s) (blocked s) (signalled s) (exit_code s) (dtick s).
Definition d_control_running x s := mkDaemon (run_state s) (held s) (open_fds s) (thread_ids s) (db_running s) x (blocked s) (signalled s) (exit_code s) (dtick s).
Definition d_blocked x s := mkDaemon (run_state s) (held s) (open_fds s) (thread_ids s) (db_running s) (control_running s) x (signalled s) (exit_code s) (dtick s).
Definition d_signalled x s := mkDaemon (run_state s) (held s) (open_fds s) (thread_ids s) (db_running s) (control_running s) (blocked s) x (exit_code s) (dtick s).
Definition d_exit_code x s := mkDaemon (run_state s) (held s) (open_fds s) (thread_ids s) (db_running s) (control_running s) (blocked s) (signalled s) x (dtick s).
Definition d_dtick x s := mkDaemon (run_state s) (held s) (open_fds s) (thread_ids s) (db_running s) (control_running s) (blocked s) (signalled s) (exit_code s) x.

Definition upd {A} `{EqDecision A} (a : A) (v : bool) (f : A -> bool) : A -> bool :=
  fun x => if decide (x = a) then v else f x.

(** The ways in which the main thread stops: [pthread_exit] before the handlers
    run, [exit] at their end, something undefined, or waiting for a thread that
    nobody has told to end. *)
Inductive halt := PthreadExit | Exit (code : Z) | HUndefined | HBlocked.

Notation D := (ESt daemon halt).

Definition EXIT_SUCCESS : Z := 0.
Definition EXIT_FAILURE : Z := 1.
Definition MAX_LISTENING_SOCKETS : nat := 64.
Definition DB_INITIAL_THREADS : nat := 8.

(** The answers of the system. [y_signal]: a signal is pending when signals
    are unblocked; [y_getaddrinfo]: the number of addresses, or failure;
    [y_socket] chooses among the descriptors that are not open. *)
Record sys := mkSys {
  y_signal : nat -> bool;
  y_config : bool;
  y_getaddrinfo : option nat;
  y_socket : nat -> gset Z -> option Z;
  y_getnameinfo : nat -> bool;
  y_bind : nat -> bool;
  y_listen : nat -> bool;
  y_queue_new : bool;
  y_bag_new : bool;
  y_sem_new : bool;
  y_db_init : bool;
  y_db_thread_init : bool;
  y_db_connect : bool;
  y_cache_init : bool;
  y_db_threads_new : bool * bool * bool * bool;
  y_malloc : nat -> bool;
  y_create : nat -> bool;
  y_bag : nat -> bool * bool;
  y_lock : nat -> bool;
  y_control_create : bool }.

Section main.
Variable Y : sys.

Definition hundefined {A} : D A := est_exit HUndefined.
Definition dnow : D nat := fun s => (d_dtick (S (dtick s)) s, inr (dtick s)).
Definition dread {A} (o : option A) : D A := match o with Some a => est_ret a | None => hundefined end.
Definition run_modify (f : run_state_t -> run_state_t) : D unit :=
  est_modify (fun s => d_run_state (f (run_state s)) s).
Definition set_member (m : member) (v : bool) : D unit :=
  run_modify (fun r => rs_present (upd m v (present r)) r).

(** ** Resources *)

Definition acquire (r : res) : D unit := est_modify (fun s => d_held (upd r true (held s)) s).

(** What the threads of the daemon work with. *)
Definition control_uses (r : res) : bool :=
  match r with RequestQueue | DbSemaphore | CacheLock | Log | Config => true | _ => false end.
Definition db_uses (r : res) : bool :=
  match r with RequestQueue | CurrentlyProcessing | DbSemaphore | DbLibrary | Log | Config => true | _ => false end.
Definition res_used (r : res) (s : daemon) : bool :=
  control_uses r && bool_decide (is_Some (control_running s)) || db_uses r && bool_decide (db_running s <> ∅).

Definition release (r : res) : D unit :=
  let* s := est_get in
  if held s r && negb (res_used r s) then est_put (d_held (upd r false (held s)) s) else hundefined.

(** The connection control thread uses the listening sockets. *)
Definition close_fd (fd : Z) : D unit :=
  let* s := est_get in
  if bool_decide (fd ∈ open_fds s) && negb (bool_decide (is_Some (control_running s)))
  then est_put (d_open_fds (open_fds s ∖ {[fd]}) s) else hundefined.

Definition malloc_id : D (option nat) :=
  let* k := dnow in
  if y_malloc Y k then est_modify (fun s => d_thread_ids (<[k := None]> (thread_ids s)) s) ;;; est_ret (Some k)
  else est_ret None.
Definition free_id (p : nat) : D unit :=
  let* s := est_get in
  let* _ := dread (thread_ids s !! p) in
  est_put (d_thread_ids (delete p (thread_ids s)) s).
(** [*p]; it is indeterminate before [pthread_create] has filled it in. *)
Definition thread_of (p : nat) : D nat :=
  let* s := est_get in let* c := dread (thread_ids s !! p) in dread c.

Definition db_create (p : nat) : D bool :=
  let* k := dnow in let* s := est_get in
  let* _ := dread (thread_ids s !! p) in
  if y_create Y k
  then est_put (d_db_running (<[k := false]> (db_running s))
                 (d_thread_ids (<[p := Some k]> (thread_ids s)) s)) ;;; est_ret true
  else est_ret false.
Definition db_cancel (t : nat) : D unit :=
  let* s := est_get in
  let* _ := dread (db_running s !! t) in
  est_put (d_db_running (<[t := true]> (db_running s)) s).
Definition db_join (t : nat) : D unit :=
  let* s := est_get in
  let* e := dread (db_running s !! t) in
  if (e : bool) then est_put (d_db_running (delete t (db_running s)) s) else est_exit HBlocked.

(** ** Signals *)

(** [signal_handler] runs with the signals blocked. *)
Definition signal_handler {A} : D A :=
  est_modify (fun s => d_blocked true (d_signalled true s)) ;;; est_exit PthreadExit.
(** Where signals may arrive. *)
Definition signal_window : D unit :=
  let* k := dnow in if y_signal Y k then signal_handler else est_ret tt.

Definition block_unblock_signals (block : bool) : D unit := est_modify (d_blocked block).
Definition block_signals : D unit := block_unblock_signals true.
Definition unblock_signals : D unit := block_unblock_signals false ;;; signal_window.
Definition handle_signals : D unit := signal_window.

(** [exit_code = EXIT_FAILURE; pthread_exit(NULL)]. *)
Definition fail {A} : D A := est_modify (d_exit_code EXIT_FAILURE) ;;; est_exit PthreadExit.

(** ** Start-up *)

Definition initialize_run_state : D unit :=
  run_modify (fun r => mkRun (fun _ => false) (config_loaded r) [] false None None).

Fixpoint listen_loop (addresses : nat) : D unit :=
  match addresses with
  | O => est_ret tt
  | S addresses' =>
      let* s := est_get in
      if (MAX_LISTENING_SOCKETS <=? length (listen_fds (run_state s)))%nat then release AddrInfo ;;; fail
      else
        let* k := dnow in
        match y_socket Y k (open_fds s) with
        | None => release AddrInfo ;;; fail
        | Some fd =>
            est_modify (fun s => d_open_fds ({[fd]} ∪ open_fds s) s) ;;;
            run_modify (fun r => rs_listen_fds (listen_fds r ++ [fd]) r) ;;;
            if negb (y_getnameinfo Y k) then release AddrInfo ;;; fail
            else if negb (y_bind Y k) then release AddrInfo ;;; fail
            else if negb (y_listen Y k) then release AddrInfo ;;; fail
            else listen_loop addresses'
        end
  end.

Definition make_listen_sockets : D unit :=
  block_signals ;;;
  match y_getaddrinfo Y with
  | None => fail
  | Some n =>
      acquire AddrInfo ;;;
      listen_loop n ;;;
      release AddrInfo ;;;
      unblock_signals
  end.

Definition the_bag : D (Bag nat) := let* s := est_get in dread (db_threads (run_state s)).
Definition set_bag (b : option (Bag nat)) : D unit := run_modify (rs_db_threads b).

(** The three parts of [create_db_thread] with signals blocked: memory for the
    id, the thread, the bag. The result is [false] when the function returns. *)
Definition make_thread_id : D (option nat) :=
  block_signals ;;;
  run_modify (rs_db_thread_initialized false) ;;;
  let* p := malloc_id in
  run_modify (rs_db_thread p) ;;;
  unblock_signals ;;;
  est_ret p.

Definition start_db_thread (p : nat) : D bool :=
  block_signals ;;;
  let* ok := db_create p in
  run_modify (rs_db_thread_initialized ok) ;;;
  if negb ok then
    free_id p ;;;
    run_modify (rs_db_thread None) ;;;
    unblock_signals ;;;
    est_ret false
  else
    unblock_signals ;;;
    est_ret true.

Definition store_db_thread (p : nat) : D bool :=
  block_signals ;;;
  let* k := dnow in
  let* b := the_bag in
  let* r := dread (Bag_add (y_lock Y k) (fst (y_bag Y k)) (snd (y_bag Y k)) (y_lock Y k) b p) in
  set_bag (Some (fst r)) ;;;
  if negb (snd r) then
    let* t := thread_of p in
    db_cancel t ;;;
    db_join t ;;;
    run_modify (rs_db_thread_initialized false) ;;;
    free_id p ;;;
    run_modify (rs_db_thread None) ;;;
    unblock_signals ;;;
    est_ret false
  else
    run_modify (rs_db_thread None) ;;;
    run_modify (rs_db_thread_initialized false) ;;;
    unblock_signals ;;;
    est_ret true.

Definition create_db_thread : D bool :=
  let* p := make_thread_id in
  match p with
  | None => est_ret false
  | Some p =>
      let* ok := start_db_thread p in
      if negb ok then est_ret false else store_db_thread p
  end.

Fixpoint create_loop (n : nat) : D unit :=
  match n with
  | O => est_ret tt
  | S n' =>
      let* ok := create_db_thread in
      if negb ok then block_signals ;;; fail else create_loop n'
  end.

(** One object created with signals blocked. *)
Definition create_member (ok : bool) (r : res) (m : member) : D unit :=
  block_signals ;;;
  if negb ok then fail
  else acquire r ;;; set_member m true ;;; unblock_signals.

Definition startup_db : D unit :=
  block_signals ;;;
  if negb (y_db_init Y) then fail
  else
    acquire DbLibrary ;;;
    if negb (y_db_thread_init Y) then release DbLibrary ;;; fail
    else
      acquire DbThreadLocal ;;;
      if negb (y_db_connect Y) then release DbThreadLocal ;;; release DbLibrary ;;; fail
      else acquire DbConnection ;;; set_member db true ;;; unblock_signals.

(** The log and the configuration. *)
Definition startup_config : D unit :=
  block_signals ;;; acquire Log ;;; set_member log_opened true ;;; unblock_signals ;;;
  block_signals ;;;
  est_when (y_config Y) (acquire Config) ;;;
  run_modify (rs_config_loaded (Some (y_config Y))) ;;;
  if negb (y_config Y) then fail else unblock_signals.

(** The bag of threads, the database threads and the connection control
    thread. *)
Definition startup_threads : D unit :=
  block_signals ;;;
  let '(m1, m2, m3, io) := y_db_threads_new Y in
  match Bag_new m1 m2 m3 io false with
  | None => fail
  | Some b =>
      set_bag (Some b) ;;;
      unblock_signals ;;;
      create_loop DB_INITIAL_THREADS ;;;
      block_signals ;;;
      if negb (y_control_create Y) then fail
      else
        est_modify (d_control_running (Some false)) ;;;
        set_member connection_control_thread_initialized true ;;;
        unblock_signals
  end.

Definition startup : D unit :=
  startup_config ;;;
  make_listen_sockets ;;;
  let* n := est_gets (fun s => length (listen_fds (run_state s))) in
  if (n <=? 0)%nat then block_signals ;;; fail
  else
    create_member (y_queue_new Y) RequestQueue db_request_queue ;;;
    create_member (y_bag_new Y) CurrentlyProcessing db_currently_processing ;;;
    create_member (y_sem_new Y) DbSemaphore db_semaphore ;;;
    startup_db ;;;
    create_member (y_cache_init Y) CacheLock global_cache_state_initialized ;;;
    startup_threads.

(** ** Shutting down *)

Fixpoint cancel_loop (fuel : nat) (b : Bag nat) (it : option nat) : D unit :=
  match it, fuel with
  | None, _ => est_ret tt
  | Some _, O => hundefined
  | Some _, S fuel' =>
      let* p := dread (Bag_get b it) in
      let* t := thread_of p in
      db_cancel t ;;;
      let* it' := dread (Bag_iterator_next b it) in
      cancel_loop fuel' b it'
  end.
Fixpoint join_loop (fuel : nat) (it : option nat) : D unit :=
  match it, fuel with
  | None, _ => est_ret tt
  | Some _, O => hundefined
  | Some _, S fuel' =>
      let* b := the_bag in
      let* p := dread (Bag_get b it) in
      let* t := thread_of p in
      db_join t ;;;
      free_id p ;;;
      let* k := dnow in
      let* r := dread (Bag_erase (fst (y_bag Y k)) (snd (y_bag Y k)) b it) in
      set_bag (Some (fst r)) ;;;
      join_loop fuel' (snd r)
  end.

Definition cancel_all_db_threads : D unit :=
  let* k := dnow in
  let* b := the_bag in
  if negb (Bag_wrlock (y_lock Y k) b) then est_ret tt
  else
    let fuel := Z.to_nat (bag_size b) in
    let* it := dread (Bag_begin b) in
    cancel_loop fuel b it ;;;
    let* it := dread (Bag_begin b) in
    join_loop fuel it.

(** Release what a member stands for, if it is there. *)
Definition drop_member (m : member) (body : D unit) : D unit :=
  let* s := est_get in
  if present (run_state s) m then body ;;; set_member m false else est_ret tt.

Definition control_cancel : D unit :=
  let* s := est_get in
  let* _ := dread (control_running s) in est_put (d_control_running (Some true) s).
Definition control_join : D unit :=
  let* s := est_get in
  let* e := dread (control_running s) in
  if (e : bool) then est_put (d_control_running None s) else est_exit HBlocked.

Definition stop_control : D unit := control_cancel ;;; control_join.

Definition stop_db_threads : D unit :=
  let* s := est_get in
  match db_threads (run_state s) with
  | None => est_ret tt
  | Some _ =>
      cancel_all_db_threads ;;;
      let* b := the_bag in
      if bag_size b =? 0 then set_bag None else hundefined
  end.

Definition stop_inactive_db_thread : D unit :=
  let* s := est_get in
  match db_thread (run_state s) with
  | None => est_ret tt
  | Some p =>
      est_when (db_thread_initialized (run_state s))
        (let* t := thread_of p in
         db_cancel t ;;; db_join t ;;; run_modify (rs_db_thread_initialized false)) ;;;
      free_id p ;;;
      run_modify (rs_db_thread None)
  end.

Fixpoint close_listen_fds (n : nat) : D unit :=
  match n with
  | O => est_ret tt
  | S n' =>
      let* s := est_get in
      let* fd := dread (listen_fds (run_state s) !! n') in
      close_fd fd ;;;
      run_modify (rs_listen_fds (take n' (listen_fds (run_state s)))) ;;;
      close_listen_fds n'
  end.

Definition unload_config : D unit :=
  let* s := est_get in
  let* loaded := dread (config_loaded (run_state s)) in
  est_when loaded (release Config ;;; run_modify (rs_config_loaded (Some false))).

(** A signal that arrived now would start the handlers once more. *)
Definition cleanup : D unit :=
  let* s := est_get in
  if negb (blocked s) then hundefined
  else
    drop_member connection_control_thread_initialized stop_control ;;;
    stop_db_threads ;;;
    stop_inactive_db_thread ;;;
    drop_member global_cache_state_initialized (release CacheLock) ;;;
    drop_member db (release DbConnection ;;; release DbThreadLocal ;;; release DbLibrary) ;;;
    drop_member db_semaphore (release DbSemaphore) ;;;
    drop_member db_currently_processing (release CurrentlyProcessing) ;;;
    drop_member db_request_queue (release RequestQueue) ;;;
    let* n := est_gets (fun s => length (listen_fds (run_state s))) in
    close_listen_fds n ;;;
    unload_config ;;;
    drop_member log_opened (release Log) ;;;
    let* s := est_get in
    est_exit (Exit (exit_code s)).

(** [update_global_cache_state] needs the database and the cache state. *)
Definition update_cache : D unit :=
  let* s := est_get in
  if held s DbConnection && held s CacheLock then est_ret tt else hundefined.

(** [n] rounds of [while (true)]. *)
Fixpoint main_loop (n : nat) : D unit :=
  match n with
  | O => est_ret tt
  | S n' =>
      signal_window ;;;
      block_signals ;;;
      update_cache ;;;
      unblock_signals ;;;
      main_loop n'
  end.

Definition main (n : nat) : D unit :=
  initialize_run_state ;;;
  fun s => match (handle_signals ;;; startup ;;; main_loop n) s with
           | (s', inl PthreadExit) => cleanup s'
           | r => r
           end.
End main.

(** The process when [main] is called. *)
Definition init_daemon : daemon :=
  mkDaemon (mkRun (fun _ => false) None [] false None None) (fun _ => false) ∅ ∅ ∅ None false false EXIT_SUCCESS 0.
