(* ===== verification/DaemonMainFacts.v ===== *)
(** * The main thread's invariant and its start-up

    [flags_ok]: the members of [run_state] say exactly what the process holds.
    [threads_ok s gs pe]: the database threads are those of the bag, [gs], and
    the one being created, [pe]. Both hold wherever signals can arrive; every
    step of [startup] either keeps them or leaves with them. *)

From S2P Require Import Prelude Bag ConnControlFacts DaemonMain.
Local Open Scope est_scope.

(** ** The invariant *)

(** What the members say is held. *)
Definition expected (r : run_state_t) (x : res) : bool :=
  match x with
  | Log => present r log_opened
  | Config => bool_decide (config_loaded r = Some true)
  | AddrInfo => false
  | RequestQueue => present r db_request_queue
  | CurrentlyProcessing => present r db_currently_processing
  | DbSemaphore => present r db_semaphore
  | DbLibrary | DbThreadLocal | DbConnection => present r db
  | CacheLock => present r global_cache_state_initialized
  end.

Record flags_ok (s : daemon) : Prop := {
  fl_held : forall x, held s x = expected (run_state s) x;
  fl_control : control_running s =
    if present (run_state s) connection_control_thread_initialized then Some false else None;
  fl_fds : open_fds s = list_to_set (listen_fds (run_state s));
  fl_fds_nodup : NoDup (listen_fds (run_state s));
  fl_config : is_Some (config_loaded (run_state s)) }.

(** The ids of threads in the bag are filled in. *)
Definition ids (gs : list (nat * nat)) (pe : list (nat * option nat)) : list (nat * option nat) :=
  pe ++ ((fun g => (g.1, Some g.2)) <$> gs).
Definition tids (gs : list (nat * nat)) (pe : list (nat * option nat)) : list nat := omap snd pe ++ gs.*2.

Record threads_ok (s : daemon) (gs : list (nat * nat)) (pe : list (nat * option nat)) : Prop := {
  th_ids : thread_ids s = list_to_map (ids gs pe);
  th_ids_nodup : NoDup (ids gs pe).*1;
  th_ids_old : Forall (fun p => p < dtick s)%nat (ids gs pe).*1;
  th_run : db_running s = list_to_map ((fun t => (t, false)) <$> tids gs pe);
  th_run_nodup : NoDup (tids gs pe);
  th_run_old : Forall (fun t => t < dtick s)%nat (tids gs pe);
  th_pending : match db_thread (run_state s) with
               | None => pe = []
               | Some p => exists o, pe = [(p, o)] /\ db_thread_initialized (run_state s) = bool_decide (is_Some o)
               end;
  th_bag : match db_threads (run_state s) with
           | None => gs = []
           | Some b => exists slots, bag_rep b slots /\ bag_thread_safe b = false /\ contents slots = gs.*1
           end }.

Definition inv (s : daemon) : Prop := flags_ok s /\ exists gs pe, threads_ok s gs pe.

(** Signals, codes and the counter do not matter. *)
Lemma inv_frame s s' :
  inv s -> run_state s' = run_state s -> held s' = held s -> open_fds s' = open_fds s ->
  thread_ids s' = thread_ids s -> db_running s' = db_running s -> control_running s' = control_running s ->
  (dtick s <= dtick s')%nat -> inv s'.
Proof.
  intros [[] (gs & pe & [])] E1 E2 E3 E4 E5 E6 Hk. split; [split; by rewrite ?E1, ?E2, ?E3, ?E6|].
  exists gs, pe. split; rewrite ?E1, ?E4, ?E5; try done; (eapply Forall_impl; [done|]; intros; cbn in *; lia).
Qed.

(** Running: nothing has gone wrong, no signal has been taken, and the members
    [pr] are there. *)
Definition running (bl : bool) (pr : member -> bool) (s : daemon) : Prop :=
  inv s /\ present (run_state s) = pr /\ blocked s = bl /\ signalled s = false /\ exit_code s = EXIT_SUCCESS.

(** On the way out: the handlers are run once, with the right code. *)
Definition leaving (e : halt) (s : daemon) : Prop :=
  e = PthreadExit /\ inv s /\ blocked s = true
  /\ exit_code s = if signalled s then EXIT_SUCCESS else EXIT_FAILURE.

Section main.
Variable Y : sys.

(** ** Signals *)

Lemma wp_unblock pr s (Q : unit -> daemon -> Prop) :
  inv s -> present (run_state s) = pr -> signalled s = false -> exit_code s = EXIT_SUCCESS ->
  (forall s', running false pr s' -> run_state s' = run_state s -> Q tt s') ->
  wp (unblock_signals Y) s Q leaving.
Proof.
  intros Hi Hp Hs He HQ. unfold wp, unblock_signals, signal_window, signal_handler. cbn.
  destruct (y_signal Y (dtick s)); cbn.
  - split_and!; [done| |done|by cbn; rewrite He]. eapply inv_frame; [exact Hi|done..|cbn; lia].
  - apply HQ; [|done]. split_and!; [|done..]. eapply inv_frame; [exact Hi|done..|cbn; lia].
Qed.

Lemma wp_block {pr} s (Q : unit -> daemon -> Prop) R bl :
  running bl pr s -> (forall s', running true pr s' -> run_state s' = run_state s -> Q tt s') ->
  wp block_signals s Q R.
Proof.
  intros (Hi & Hp & _ & Hs & He) HQ. unfold wp, block_signals. cbn. apply HQ; [|done].
  split_and!; [|done..]. by eapply inv_frame.
Qed.

Lemma wp_fail {pr} {A} s (Q : A -> daemon -> Prop) : running true pr s -> wp fail s Q leaving.
Proof.
  intros (Hi & Hpr & Hb & Hs & He). unfold wp, fail. cbn. split_and!; [done| |done|cbn; by rewrite Hs].
  by eapply inv_frame.
Qed.

(** ** Start-up *)

(** What both parts of the invariant say about the rest of the state. *)
Definition same_threads (s s' : daemon) : Prop :=
  thread_ids s' = thread_ids s /\ db_running s' = db_running s /\ (dtick s <= dtick s')%nat
  /\ db_thread (run_state s') = db_thread (run_state s)
  /\ db_thread_initialized (run_state s') = db_thread_initialized (run_state s)
  /\ db_threads (run_state s') = db_threads (run_state s).

Lemma threads_frame s s' gs pe : threads_ok s gs pe -> same_threads s s' -> threads_ok s' gs pe.
Proof.
  intros [] (E1 & E2 & Hk & E3 & E4 & E5).
  split; rewrite ?E1, ?E2, ?E3, ?E4, ?E5; try done; (eapply Forall_impl; [done|]; intros; cbn in *; lia).
Qed.

Lemma inv_flags s s' : inv s -> flags_ok s' -> same_threads s s' -> inv s'.
Proof. intros [_ (gs & pe & H)] Hf Hs. split; [done|]. exists gs, pe. by eapply threads_frame. Qed.

(** A member and the resource it stands for. *)
Definition stands_for (m : member) (x : res) : Prop :=
  m <> connection_control_thread_initialized /\
  forall r v y, upd x v (expected r) y = expected (rs_present (upd m v (present r)) r) y.

Lemma flags_member s m x v :
  flags_ok s -> stands_for m x ->
  flags_ok (d_run_state (rs_present (upd m v (present (run_state s))) (run_state s)) (d_held (upd x v (held s)) s)).
Proof.
  intros [] [Hm Hx]. split; cbn; try done.
  - intros y. rewrite <- Hx. unfold upd. by destruct (decide (y = x)).
  - unfold upd. by rewrite decide_False by congruence.
Qed.

Lemma wp_create_member {pr} ok x m s (Q : unit -> daemon -> Prop) :
  running false pr s -> stands_for m x ->
  (forall s', running false (upd m true pr) s' ->
     run_state s' = rs_present (upd m true (present (run_state s))) (run_state s) -> Q tt s') ->
  wp (create_member Y ok x m) s Q leaving.
Proof.
  intros H Hm HQ. unfold create_member. apply wp_bind. eapply wp_block; [done|].
  intros s1 H1 E1. destruct ok; cbn [negb]; [|by eapply wp_fail]. destruct H1 as (Hi & Hpr & Hb & Hs & He).
  apply wp_bind. unfold wp at 1. cbn. apply wp_bind. unfold wp at 1. cbn.
  eapply (wp_unblock (upd m true pr)); [|cbn; by rewrite Hpr|done|done|].
  - eapply (inv_flags s1); [done|apply (flags_member s1 m x true); [apply Hi|done]|]. by split_and!.
  - intros s' H' E'. apply HQ; [done|]. rewrite E'. cbn. by rewrite E1.
Qed.

Lemma wp_modify f s (Q : unit -> daemon -> Prop) (R : halt -> daemon -> Prop) :
  Q tt (f s) -> wp (est_modify f) s Q R.
Proof. done. Qed.

Lemma wp_release x s (Q : unit -> daemon -> Prop) R :
  held s x = true -> res_used x s = false -> Q tt (d_held (upd x false (held s)) s) -> wp (release x) s Q R.
Proof. intros Hh Hu HQ. unfold wp, release. cbn -[res_used]. by rewrite Hh, Hu. Qed.

(** No database thread has been made. *)
Definition no_threads (s : daemon) : Prop := db_threads (run_state s) = None /\ db_thread (run_state s) = None.

Lemma no_threads_unused s h : inv s -> no_threads s -> res_used DbLibrary (d_held h s) = false.
Proof.
  intros [_ (gs & pe & [])] [Hn1 Hn2]. unfold res_used. cbn.
  rewrite Hn1 in th_bag0. rewrite Hn2 in th_pending0. subst. by rewrite th_run0.
Qed.

Lemma wp_fail_same {pr} {A} s h (Q : A -> daemon -> Prop) :
  running true pr s -> (forall x, h x = held s x) -> wp fail (d_held h s) Q leaving.
Proof.
  intros (Hi & ? & ? & ? & ?) Hh. eapply (wp_fail (pr := pr)). split_and!; [|done..]. eapply (inv_flags s); [done| |by split_and!].
  destruct Hi as [[] _]. split; try done. intros x. cbn. by rewrite Hh.
Qed.

Lemma wp_startup_db {pr} s (Q : unit -> daemon -> Prop) :
  running false pr s -> pr db = false -> no_threads s ->
  (forall s', running false (upd db true pr) s' -> no_threads s' -> Q tt s') -> wp (startup_db Y) s Q leaving.
Proof.
  intros H Hd Hn HQ. unfold startup_db. apply wp_bind. eapply wp_block; [done|].
  intros s1 H1 E1. unfold no_threads in Hn. rewrite <- E1 in Hn.
  rewrite <- (proj1 (proj2 H1)) in Hd.
  assert (Hf : forall x, held s1 x = expected (run_state s1) x) by apply H1.
  pose proof (fun h => no_threads_unused s1 h (proj1 H1) Hn) as Hnu.
  destruct (y_db_init Y); cbn [negb]; [|by eapply wp_fail]. apply wp_bind, wp_modify.
  destruct (y_db_thread_init Y); cbn [negb].
  2: { apply wp_bind, wp_release; [done|apply Hnu|]. eapply (wp_fail_same s1); [done|].
       intros x. unfold upd. cbn. unfold upd. repeat destruct (decide _); subst; by rewrite ?Hf. }
  apply wp_bind, wp_modify. destruct (y_db_connect Y); cbn [negb].
  2: { apply wp_bind, wp_release; [done..|]. apply wp_bind, wp_release; [done|apply (Hnu (upd _ _ (upd _ _ _)))|].
       eapply (wp_fail_same s1); [done|].
       intros x. unfold upd. cbn. unfold upd. repeat destruct (decide _); subst; by rewrite ?Hf. }
  destruct H1 as (Hi & Hpr & Hb & Hs & He).
  apply wp_bind, wp_modify, wp_bind, wp_modify.
  eapply (wp_unblock (upd db true pr)); [|cbn; by rewrite Hpr|done|done|].
  - eapply (inv_flags s1); [done| |by split_and!]. destruct Hi as [[] _]. split; try done; cbn.
    intros x. unfold upd. by destruct x; cbn; rewrite ?Hf.
  - intros s' H' E'. apply HQ; [done|]. unfold no_threads. by rewrite E'.
Qed.

(** ** Listening sockets *)

Hypothesis Hsocket : forall k open fd, y_socket Y k open = Some fd -> fd ∉ open.

(** The state without the list of addresses. *)
Definition without_addrinfo (s : daemon) : daemon := d_held (upd AddrInfo false (held s)) s.

Lemma wp_release_addrinfo s (Q : unit -> daemon -> Prop) R :
  held s AddrInfo = true -> Q tt (without_addrinfo s) -> wp (release AddrInfo) s Q R.
Proof. intros Hh HQ. unfold wp, release, res_used. cbn. by rewrite Hh. Qed.

Lemma flags_socket s fd :
  flags_ok s -> fd ∉ open_fds s ->
  flags_ok (d_run_state (rs_listen_fds (listen_fds (run_state s) ++ [fd]) (run_state s))
              (d_open_fds ({[fd]} ∪ open_fds s) s)).
Proof.
  intros [] Hf. rewrite fl_fds0 in Hf. split; try done; cbn.
  - rewrite fl_fds0, list_to_set_app_L. set_solver.
  - apply NoDup_app. split_and!; [done| |apply NoDup_singleton]. set_solver.
Qed.

Definition listening (pr : member -> bool) (s : daemon) : Prop :=
  held s AddrInfo = true /\ running true pr (without_addrinfo s) /\ no_threads s
  /\ (length (listen_fds (run_state s)) <= MAX_LISTENING_SOCKETS)%nat.

Lemma listening_leave {pr} s (Q : unit -> daemon -> Prop) : listening pr s -> wp (release AddrInfo ;;; fail) s Q leaving.
Proof. intros (Hh & Hr & _). apply wp_bind. apply wp_release_addrinfo; [done|]. by eapply wp_fail. Qed.

Lemma wp_listen_loop pr n : forall s (Q : unit -> daemon -> Prop),
  listening pr s -> (forall s', listening pr s' -> Q tt s') -> wp (listen_loop Y n) s Q leaving.
Proof.
  induction n as [|n IH]; intros s Q H HQ; [by apply HQ|]. cbn [listen_loop].
  apply wp_bind. unfold wp at 1. cbn [est_get]. destruct (Nat.leb_spec MAX_LISTENING_SOCKETS (length (listen_fds (run_state s)))) as [|Hlt].
  { by apply (listening_leave (pr := pr)). }
  apply wp_bind. unfold wp at 1. cbn [dnow].
  assert (Hl : listening pr (d_dtick (S (dtick s)) s)).
  { destruct H as (Hh & (Hi & ? & ? & ? & ?) & ? & ?). split_and!; try done. split_and!; try done.
    eapply inv_frame; [exact Hi|done..|cbn; lia]. }
  destruct (y_socket Y (dtick s) (open_fds s)) as [fd|] eqn:E; [|by apply (listening_leave (pr := pr))].
  apply Hsocket in E. apply wp_bind. unfold wp at 1. cbn. apply wp_bind. unfold wp at 1. cbn.
  match goal with |- wp _ ?s' _ _ => assert (Hl' : listening pr s') end.
  { destruct Hl as (Hh & (Hi & ? & ? & ? & ?) & ? & ?). split_and!; try done.
    - split_and!; try done. eapply (inv_flags (without_addrinfo (d_dtick (S (dtick s)) s))); [exact Hi| |by split_and!].
      destruct Hi as [Hi _]. by apply (flags_socket _ fd) in Hi.
    - cbn. rewrite length_app. cbn. lia. }
  destruct (y_getnameinfo Y (dtick s)), (y_bind Y (dtick s)), (y_listen Y (dtick s)); cbn [negb];
    try (by apply (listening_leave (pr := pr))). by apply IH.
Qed.

Lemma wp_make_listen_sockets {pr} s (Q : unit -> daemon -> Prop) :
  running false pr s -> no_threads s -> listen_fds (run_state s) = [] ->
  (forall s', running false pr s' -> no_threads s' -> Q tt s') ->
  wp (make_listen_sockets Y) s Q leaving.
Proof.
  intros H Hn Hf HQ. unfold make_listen_sockets. apply wp_bind. eapply wp_block; [done|].
  intros s1 H1 E1. destruct (y_getaddrinfo Y) as [n|]; [|by eapply wp_fail].
  apply wp_bind. unfold wp at 1. cbn. apply wp_bind. apply (wp_listen_loop pr).
  - unfold listening, no_threads in *. rewrite <- E1 in Hn, Hf. cbn. rewrite Hf.
    destruct H1 as (Hi & ? & ? & ? & ?). split_and!; try apply Hn; try done; [|cbn; lia].
    split_and!; try done. eapply (inv_flags s1); [done| |by split_and!].
    destruct Hi as [[] _]. split; try done. cbn. intros x. unfold upd. by destruct (decide _) as [->|].
  - clear dependent s s1. intros s (Hh & (Hi & Hpr & Hb & Hs & He) & Hn & _).
    apply wp_bind. apply wp_release_addrinfo; [done|]. apply (wp_unblock pr); [done|done|done|done|].
    intros s' H' E'. apply HQ; unfold no_threads; rewrite ?E'; done.
Qed.

(** ** Database threads *)

Lemma flags_frame s s' :
  flags_ok s -> present (run_state s') = present (run_state s) ->
  config_loaded (run_state s') = config_loaded (run_state s) ->
  listen_fds (run_state s') = listen_fds (run_state s) -> held s' = held s -> open_fds s' = open_fds s ->
  control_running s' = control_running s -> flags_ok s'.
Proof.
  intros [] E1 E2 E3 E4 E5 E6. split; rewrite ?E1, ?E2, ?E3, ?E4, ?E5, ?E6; try done.
  intros x. rewrite fl_held0. destruct x; cbn; by rewrite ?E1, ?E2.
Qed.

Definition rs_pending (o : option nat) (i : bool) (r : run_state_t) : run_state_t :=
  rs_db_thread_initialized i (rs_db_thread o r).

Lemma threads_malloc s gs r :
  threads_ok s gs [] -> db_threads r = db_threads (run_state s) ->
  threads_ok (d_run_state (rs_pending (Some (dtick s)) false r)
    (d_thread_ids (<[dtick s := None]> (thread_ids s)) (d_dtick (S (dtick s)) s))) gs [(dtick s, None)].
Proof.
  intros [] Er. pose proof (fresh_key _ _ th_ids_old0) as Hk. unfold ids, tids in *. cbn in *.
  split; cbn; try done.
  - by rewrite th_ids0.
  - by constructor.
  - constructor; [lia|]. eapply Forall_impl; [done|]. cbn. lia.
  - eapply Forall_impl; [done|]. cbn. lia.
  - by exists None.
  - by rewrite Er.
Qed.

Lemma threads_create s gs p r :
  threads_ok s gs [(p, None)] -> db_thread r = Some p -> db_threads r = db_threads (run_state s) ->
  threads_ok (d_run_state (rs_db_thread_initialized true r)
    (d_db_running (<[dtick s := false]> (db_running s))
      (d_thread_ids (<[p := Some (dtick s)]> (thread_ids s)) (d_dtick (S (dtick s)) s))))
    gs [(p, Some (dtick s))].
Proof.
  intros [] Ep Er.
  assert (Hk : dtick s ∉ tids gs [(p, None)]).
  { intros Hin. rewrite Forall_forall in th_run_old0. apply th_run_old0 in Hin. lia. }
  unfold ids, tids in *. cbn in *. split; cbn; try done.
  - rewrite th_ids0. cbn. by rewrite insert_insert_eq.
  - eapply Forall_impl; [done|]. cbn. lia.
  - by rewrite th_run0.
  - by constructor.
  - constructor; [lia|]. eapply Forall_impl; [done|]. cbn. lia.
  - rewrite Ep. by exists (Some (dtick s)).
  - by rewrite Er.
Qed.

(** The thread being created is gone: it is not in the table of threads and
    its id has been freed. *)
Lemma threads_drop s gs p o r m :
  threads_ok s gs [(p, o)] -> db_thread r = None -> db_threads r = db_threads (run_state s) ->
  m = list_to_map ((fun t => (t, false)) <$> gs.*2) ->
  threads_ok (d_run_state r (d_db_running m (d_thread_ids (delete p (thread_ids s)) s))) gs [].
Proof.
  intros [] Ep Er ->. unfold ids, tids in *. cbn in *. inversion th_ids_nodup0; inversion th_ids_old0; subst.
  split; cbn; try done.
  - rewrite th_ids0. by apply (delete_head p o).
  - apply NoDup_app in th_run_nodup0. by destruct th_run_nodup0 as (_ & _ & ?).
  - apply Forall_app in th_run_old0. by destruct th_run_old0.
  - by rewrite Ep.
  - by rewrite Er.
Qed.

(** The thread that was being created moves into the bag. *)
Lemma threads_add s gs p t b slots r :
  threads_ok s gs [(p, Some t)] -> bag_rep b slots -> bag_thread_safe b = false ->
  contents slots ≡ₚ p :: gs.*1 -> db_thread r = None -> db_threads r = Some b ->
  exists gs', threads_ok (d_run_state r s) gs' [].
Proof.
  intros [] Hr Ht Hc E1 E2. change (contents slots ≡ₚ map fst ((p, t) :: gs)) in Hc.
  apply Permutation_map_inv in Hc as (gs' & Hc & Hg). exists gs'.
  assert (Hi : ids gs [(p, Some t)] ≡ₚ ids gs' []) by (unfold ids; cbn; by rewrite <- Hg).
  assert (Hj : tids gs [(p, Some t)] ≡ₚ tids gs' []) by (unfold tids; cbn; by rewrite <- Hg).
  assert (Hn : NoDup ((fun t => (t, false)) <$> tids gs [(p, Some t)]).*1)
    by (rewrite <- list_fmap_compose; cbn; by rewrite list_fmap_id).
  split; cbn.
  - by rewrite <- (list_to_map_proper _ _ th_ids_nodup0 Hi).
  - by rewrite <- Hi.
  - by rewrite <- Hi.
  - rewrite <- (list_to_map_proper _ ((fun t => (t, false)) <$> tids gs' []) Hn); [done|by rewrite Hj].
  - by rewrite <- Hj.
  - by rewrite <- Hj.
  - by rewrite E1.
  - rewrite E2. by exists slots.
Qed.

(** The bag is there with at most [n] threads, none is being created. *)
Definition pool (n : nat) (s : daemon) : Prop :=
  exists b, db_threads (run_state s) = Some b /\ bag_size b = Z.of_nat n /\ db_thread (run_state s) = None.

Lemma pool_run n s s' : pool n s -> run_state s' = run_state s -> pool n s'.
Proof. unfold pool. by intros H ->. Qed.

Lemma wp_now s (Q : nat -> daemon -> Prop) R : Q (dtick s) (d_dtick (S (dtick s)) s) -> wp dnow s Q R.
Proof. done. Qed.
Lemma wp_dread {A} (o : option A) x s (Q : A -> daemon -> Prop) R : o = Some x -> Q x s -> wp (dread o) s Q R.
Proof. by intros ->. Qed.
Lemma wp_get s (Q : daemon -> daemon -> Prop) (R : halt -> daemon -> Prop) : Q s s -> wp est_get s Q R.
Proof. done. Qed.
Lemma wp_put s s' (Q : unit -> daemon -> Prop) (R : halt -> daemon -> Prop) : Q tt s' -> wp (est_put s') s Q R.
Proof. done. Qed.

Lemma threads_none s s' gs :
  threads_ok s gs [] -> thread_ids s' = thread_ids s -> db_running s' = db_running s ->
  (dtick s <= dtick s')%nat -> db_thread (run_state s') = None ->
  db_threads (run_state s') = db_threads (run_state s) -> threads_ok s' gs [].
Proof.
  intros [] E1 E2 Hk E3 E4.
  split; rewrite ?E1, ?E2, ?E3, ?E4; try done; (eapply Forall_impl; [done|]; intros; cbn in *; lia).
Qed.

(** A thread is being created: its id is there, and its thread if [i]. *)
Definition pending (n : nat) (p : nat) (i : bool) (s : daemon) : Prop :=
  exists b, db_threads (run_state s) = Some b /\ bag_size b = Z.of_nat n
    /\ db_thread (run_state s) = Some p /\ db_thread_initialized (run_state s) = i.

Lemma pending_run n p i s s' : pending n p i s -> run_state s' = run_state s -> pending n p i s'.
Proof. unfold pending. by intros H ->. Qed.

Lemma pending_threads n p i s :
  inv s -> pending n p i s -> exists gs o, threads_ok s gs [(p, o)] /\ i = bool_decide (is_Some o).
Proof.
  intros [_ (gs & pe & Ht)] (b & _ & _ & Ep & Ei). pose proof (th_pending _ _ _ Ht) as Hp.
  rewrite Ep in Hp. destruct Hp as (o & -> & Hi). exists gs, o. by rewrite <- Ei.
Qed.

Lemma pool_threads n s : inv s -> pool n s -> exists gs, threads_ok s gs [].
Proof.
  intros [_ (gs & pe & Ht)] (b & _ & _ & Ep). pose proof (th_pending _ _ _ Ht) as Hp.
  rewrite Ep in Hp. subst pe. by exists gs.
Qed.

Lemma wp_make_thread_id {pr} n s (Q : option nat -> daemon -> Prop) :
  running false pr s -> pool n s ->
  (forall s', running false pr s' -> pool n s' -> Q None s') ->
  (forall s' p, running false pr s' -> pending n p false s' -> Q (Some p) s') ->
  wp (make_thread_id Y) s Q leaving.
Proof.
  intros H Hp Hno Hok. apply wp_bind. eapply wp_block; [done|].
  intros s1 (Hi & Hpr & Hbl & Hs & He) E1. apply (pool_run _ _ s1) in Hp; [|done].
  destruct (pool_threads _ _ Hi Hp) as [gs Ht]. destruct Hi as [Hf _]. destruct Hp as (b & Eb & Hb & En).
  apply wp_bind, wp_modify, wp_bind. unfold malloc_id. apply wp_bind, wp_now.
  cbn [dtick d_run_state]. destruct (y_malloc Y (dtick s1)).
  - apply wp_bind, wp_modify, wp_ret, wp_bind, wp_modify, wp_bind.
    apply (threads_malloc _ _ (run_state s1)) in Ht; [|done].
    apply (wp_unblock pr); [|done|done|done|].
    + split; [by eapply flags_frame|]. by exists gs, [(dtick s1, None)].
    + intros s' H' E'. apply wp_ret, Hok; [done|]. exists b. by rewrite E'.
  - apply wp_ret, wp_bind, wp_modify, wp_bind. apply (wp_unblock pr); [|done|done|done|].
    + split; [by eapply flags_frame|]. exists gs, []. eapply threads_none; [exact Ht|done|done|cbn; lia|done|done].
    + intros s' H' E'. apply wp_ret, Hno; [done|]. exists b. by rewrite E'.
Qed.

Lemma threads_id s gs p o : threads_ok s gs [(p, o)] -> thread_ids s !! p = Some o.
Proof. intros []. rewrite th_ids0. apply lookup_head. Qed.
Lemma threads_running s gs p t : threads_ok s gs [(p, Some t)] -> db_running s !! t = Some false.
Proof. intros []. rewrite th_run0. apply lookup_head. Qed.

Lemma wp_db_cancel t e s (Q : unit -> daemon -> Prop) R :
  db_running s !! t = Some e ->
  Q tt (d_db_running (<[t := true]> (db_running s)) s) -> wp (db_cancel t) s Q R.
Proof. intros E HQ. apply wp_bind, wp_get, wp_bind. eapply wp_dread; [done|]. by apply wp_put. Qed.

Lemma wp_db_join t s (Q : unit -> daemon -> Prop) R :
  db_running s !! t = Some true ->
  Q tt (d_db_running (delete t (db_running s)) s) -> wp (db_join t) s Q R.
Proof. intros E HQ. apply wp_bind, wp_get, wp_bind. eapply wp_dread; [done|]. done. Qed.

Lemma wp_free_id p o s (Q : unit -> daemon -> Prop) R :
  thread_ids s !! p = Some o ->
  Q tt (d_thread_ids (delete p (thread_ids s)) s) -> wp (free_id p) s Q R.
Proof. intros E HQ. apply wp_bind, wp_get, wp_bind. eapply wp_dread; [done|]. by apply wp_put. Qed.

Lemma wp_start_db_thread {pr} n p s (Q : bool -> daemon -> Prop) :
  running false pr s -> pending n p false s ->
  (forall s', running false pr s' -> pool n s' -> Q false s') ->
  (forall s', running false pr s' -> pending n p true s' -> Q true s') ->
  wp (start_db_thread Y p) s Q leaving.
Proof.
  intros H Hp Hno Hok. apply wp_bind. eapply wp_block; [done|].
  intros s1 (Hi & Hpr & Hbl & Hs & He) E1. apply (pending_run _ _ _ _ s1) in Hp; [|done].
  destruct (pending_threads _ _ _ _ Hi Hp) as (gs & [?|] & Ht & Ho); [done|]. destruct Hi as [Hf _].
  destruct Hp as (b & Eb & Hb & Ep & Ei).
  apply wp_bind. unfold db_create. apply wp_bind, wp_now, wp_bind, wp_get, wp_bind.
  eapply wp_dread; [by eapply (threads_id s1)|]. destruct (y_create Y (dtick s1)); cbn [negb].
  - apply wp_bind, wp_put, wp_ret, wp_bind, wp_modify, wp_bind. cbn [negb].
    apply (threads_create _ _ _ (run_state s1)) in Ht; [|done..]. apply (wp_unblock pr); [|done|done|done|].
    + split; [by eapply flags_frame|]. by exists gs, [(p, Some (dtick s1))].
    + intros s' H' E'. apply wp_ret, Hok; [done|]. exists b. by rewrite E'.
  - apply wp_ret, wp_bind, wp_modify. cbn [negb].
    apply wp_bind. eapply wp_free_id; [by eapply (threads_id s1)|].
    apply wp_bind, wp_modify, wp_bind. apply (wp_unblock pr); [|done|done|done|].
    + split; [by eapply flags_frame|]. exists gs, [].
      eapply (threads_none (d_run_state (rs_db_thread None (run_state s1)) (d_db_running (db_running s1)
        (d_thread_ids (delete p (thread_ids s1)) s1)))); [|done|done|cbn; lia|done|done].
      eapply threads_drop; [exact Ht|done|done|]. by rewrite (th_run _ _ _ Ht).
    + intros s' H' E'. apply wp_ret, Hno; [done|]. exists b. by rewrite E'.
Qed.

Lemma wp_the_bag s b (Q : Bag nat -> daemon -> Prop) R :
  db_threads (run_state s) = Some b -> Q b s -> wp the_bag s Q R.
Proof. intros E HQ. apply wp_bind, wp_get. by eapply wp_dread. Qed.

Lemma wp_thread_of p t s (Q : nat -> daemon -> Prop) R :
  thread_ids s !! p = Some (Some t) -> Q t s -> wp (thread_of p) s Q R.
Proof. intros E HQ. apply wp_bind, wp_get, wp_bind. eapply wp_dread; [done|]. by eapply wp_dread. Qed.

Lemma threads_cancelled s gs p t :
  threads_ok s gs [(p, Some t)] ->
  delete t (<[t := true]> (db_running s)) = list_to_map ((fun t => (t, false)) <$> gs.*2).
Proof.
  intros []. rewrite delete_insert_eq, th_run0. unfold tids in *. cbn in *. inversion th_run_nodup0; subst.
  apply delete_insert_id, not_elem_of_list_to_map_1. by rewrite <- list_fmap_compose, list_fmap_id.
Qed.

Lemma wp_store_db_thread {pr} n p s (Q : bool -> daemon -> Prop) :
  running false pr s -> pending n p true s -> Z.of_nat n < 2 ^ 60 ->
  (forall s', running false pr s' -> Q false s') ->
  (forall s', running false pr s' -> pool (S n) s' -> Q true s') ->
  wp (store_db_thread Y p) s Q leaving.
Proof.
  intros H Hp Hn Hno Hok. apply wp_bind. eapply wp_block; [done|].
  intros s1 (Hi & Hpr & Hbl & Hs & He) E1. apply (pending_run _ _ _ _ s1) in Hp; [|done].
  destruct (pending_threads _ _ _ _ Hi Hp) as (gs & [t|] & Ht & Ho); [|done]. destruct Hi as [Hf _].
  destruct Hp as (b & Eb & Hb & Ep & Ei). pose proof (th_bag _ _ _ Ht) as Hbag. rewrite Eb in Hbag.
  destruct Hbag as (slots & Hr & Hts & Hc).
  apply wp_bind, wp_now, wp_bind. eapply wp_the_bag; [done|]. cbn [dtick].
  set (m := y_bag Y (dtick s1)). set (l := y_lock Y (dtick s1)).
  destruct (Bag_add_spec l (fst m) (snd m) l b slots p Hr ltac:(lia)) as (b' & slots' & ret & E & Hr' & Hc').
  pose proof (add_thread_safe _ _ _ _ _ _ _ _ E) as Hts'. rewrite Hts in Hts'.
  apply wp_bind. eapply wp_dread; [exact E|]. apply wp_bind, wp_modify. cbn [fst snd].
  assert (Hret : ret = true /\ contents slots' ≡ₚ p :: gs.*1 \/ ret = false /\ contents slots' = gs.*1).
  { rewrite Hc in Hc'. destruct Hc' as [[? ->]|(? & -> & _)]; [left|by right]. unfold Bag_unlock. by rewrite Hts. }
  clear Hc'. destruct Hret as [[-> Hc']|[-> Hc']]; cbn [negb].
  - apply wp_bind, wp_modify, wp_bind, wp_modify, wp_bind.
    destruct (threads_add _ _ _ _ _ _ (rs_db_threads (Some b') (rs_pending None false (run_state s1))) Ht Hr' Hts' Hc')
      as [gs' Ht']; [done..|].
    apply (wp_unblock pr); [|done|done|done|].
    + split; [by eapply flags_frame|]. exists gs', []. eapply threads_none; [exact Ht'|done|done|cbn; lia|done|done].
    + intros s' H' E'. apply wp_ret, Hok; [done|]. exists b'. rewrite E'. split_and!; try done.
      rewrite (rep_size _ _ Hr) in Hb. rewrite (rep_size _ _ Hr'). fold (contents slots) in Hb. fold (contents slots').
      rewrite Hc' , <- Hc. cbn. lia.
  - apply wp_bind. eapply wp_thread_of; [by eapply (threads_id s1)|].
    apply wp_bind. eapply wp_db_cancel; [by eapply (threads_running s1)|].
    apply wp_bind. apply wp_db_join; [apply lookup_insert_eq|]. apply wp_bind, wp_modify.
    apply wp_bind. eapply wp_free_id; [by eapply (threads_id s1)|].
    apply wp_bind, wp_modify, wp_bind. apply (wp_unblock pr); [|done|done|done|].
    + split; [by eapply flags_frame|]. exists gs, [].
      pose proof (threads_drop s1 gs p (Some t) (rs_db_thread None (run_state s1)) _ Ht eq_refl eq_refl
        (threads_cancelled _ _ _ _ Ht)) as [].
      split; try done; try (eapply Forall_impl; [done|]; intros; cbn in *; lia).
      cbn. by exists slots'.
    + intros s' H' _. by apply wp_ret, Hno.
Qed.

Lemma wp_create_db_thread {pr} n s (Q : bool -> daemon -> Prop) :
  running false pr s -> pool n s -> Z.of_nat n < 2 ^ 60 ->
  (forall s', running false pr s' -> Q false s') ->
  (forall s', running false pr s' -> pool (S n) s' -> Q true s') ->
  wp (create_db_thread Y) s Q leaving.
Proof.
  intros H Hp Hn Hno Hok. apply wp_bind. eapply wp_make_thread_id; [done..| |].
  { intros s' H' _. by apply wp_ret, Hno. }
  clear dependent s. intros s p H Hp. apply wp_bind. eapply wp_start_db_thread; [done..| |].
  { intros s' H' _. by apply wp_ret, Hno. }
  clear dependent s. intros s H Hp. by eapply wp_store_db_thread.
Qed.

Lemma wp_create_loop {pr} m : forall n s (Q : unit -> daemon -> Prop),
  running false pr s -> pool n s -> Z.of_nat (n + m) < 2 ^ 60 ->
  (forall s', running false pr s' -> pool (n + m) s' -> Q tt s') -> wp (create_loop Y m) s Q leaving.
Proof.
  induction m as [|m IH]; intros n s Q H Hp Hn HQ.
  { apply HQ; [done|]. by rewrite Nat.add_0_r. }
  cbn [create_loop]. apply wp_bind. eapply wp_create_db_thread; [done|done|lia| |]; clear dependent s; intros s H.
  - apply wp_bind. eapply wp_block; [done|]. intros s' H' _. by eapply wp_fail.
  - intros Hp. eapply (IH (S n)); [done|done|lia|]. intros s' H'. rewrite Nat.add_succ_comm. by apply HQ.
Qed.

(** ** The whole start-up *)

Hypothesis Hearly : y_signal Y 0 = false /\ y_signal Y 1 = false.

Definition only_log : member -> bool := upd log_opened true (fun _ => false).

Lemma wp_startup_config (Q : unit -> daemon -> Prop) :
  (forall s, running false only_log s -> no_threads s -> listen_fds (run_state s) = [] -> Q tt s) ->
  wp (startup_config Y) (d_dtick 1 init_daemon) Q leaving.
Proof.
  intros HQ. unfold startup_config. do 3 apply wp_bind, wp_modify.
  apply wp_bind. unfold unblock_signals. apply wp_bind, wp_modify. unfold signal_window.
  apply wp_bind, wp_now.
  match goal with |- context [y_signal Y ?k] => change k with 1%nat end. rewrite (proj2 Hearly). apply wp_ret, wp_bind, wp_modify.
  set (s0 := d_blocked true _).
  assert (Hin : forall h, (forall x, h x = expected (run_state (d_run_state (rs_config_loaded (Some (y_config Y)) (run_state s0)) s0)) x) ->
            inv (d_run_state (rs_config_loaded (Some (y_config Y)) (run_state s0)) (d_held h s0))).
  { intros h Hh. split; [split; try done; by constructor|]. exists [], []. split; try done; by constructor. }
  destruct (y_config Y); cbn [est_when negb].
  - apply wp_bind, wp_modify, wp_bind, wp_modify. apply (wp_unblock only_log); [|done|done|done|].
    + apply (Hin (upd Config true (held s0))). intros []; done.
    + intros s H E. apply HQ; [done|split|]; by rewrite E.
  - apply wp_bind, wp_ret, wp_bind, wp_modify. eapply (wp_fail (pr := only_log)). split_and!; [|done..].
    apply (Hin (held s0)). intros []; done.
Qed.

Lemma stands_db_request_queue : stands_for db_request_queue RequestQueue.
Proof. split; [done|]. intros r v []; done. Qed.
Lemma stands_db_currently_processing : stands_for db_currently_processing CurrentlyProcessing.
Proof. split; [done|]. intros r v []; done. Qed.
Lemma stands_db_semaphore : stands_for db_semaphore DbSemaphore.
Proof. split; [done|]. intros r v []; done. Qed.
Lemma stands_cache : stands_for global_cache_state_initialized CacheLock.
Proof. split; [done|]. intros r v []; done. Qed.
Lemma stands_log : stands_for log_opened Log.
Proof. split; [done|]. intros r v []; done. Qed.

Lemma wp_startup_threads {pr} s (Q : unit -> daemon -> Prop) :
  running false pr s -> no_threads s ->
  (forall s', running false (upd connection_control_thread_initialized true pr) s' ->
     pool DB_INITIAL_THREADS s' -> Q tt s') ->
  wp (startup_threads Y) s Q leaving.
Proof.
  intros H [Hn1 Hn2] HQ. apply wp_bind. eapply wp_block; [done|]. intros s1 H1 E1. rewrite <- E1 in Hn1, Hn2.
  destruct (y_db_threads_new Y) as [[[m1 m2] m3] io].
  destruct (Bag_new m1 m2 m3 io false) as [b|] eqn:Eb; [|by eapply wp_fail].
  apply wp_bind, wp_modify, wp_bind. destruct H1 as ([Hf (gs & pe & Ht)] & Hpr & Hbl & Hs & He).
  pose proof (bag_new_rep _ _ _ _ _ _ Eb) as Hr. pose proof (th_bag _ _ _ Ht) as Hg. rewrite Hn1 in Hg. subst gs.
  assert (Hb : bag_size b = 0 /\ bag_thread_safe b = false).
  { unfold Bag_new in Eb. by repeat case_match; simplify_eq. }
  apply (wp_unblock pr); [|done|done|done|].
  { split; [by eapply flags_frame|]. exists [], pe. destruct Ht. split; try done. cbn.
    exists (replicate 16 None). by rewrite (proj2 Hb). }
  intros s2 H2 E2. apply wp_bind. eapply (wp_create_loop _ 0); [done| |done|].
  { exists b. rewrite E2. cbn. by rewrite (proj1 Hb), Hn2. }
  clear dependent s s1 s2 b. intros s H Hp. apply wp_bind. eapply wp_block; [done|].
  intros s1 H1 E1. apply (pool_run _ _ s1) in Hp; [|done].
  destruct (y_control_create Y); cbn [negb]; [|by eapply wp_fail].
  apply wp_bind, wp_modify, wp_bind, wp_modify. destruct H1 as (Hi & Hpr & Hbl & Hs & He).
  apply (wp_unblock (upd connection_control_thread_initialized true pr)); [|cbn; by rewrite Hpr|done|done|].
  - eapply (inv_flags s1); [done| |by split_and!]. destruct Hi as [[] _]. by split.
  - intros s' H' E'. apply HQ; [done|]. destruct Hp as (b & ? & ? & ?). exists b. by rewrite E'.
Qed.

Lemma wp_startup (Q : unit -> daemon -> Prop) :
  (forall s pr, running false pr s -> (forall m, pr m = true) -> pool DB_INITIAL_THREADS s -> Q tt s) ->
  wp (startup Y) (d_dtick 1 init_daemon) Q leaving.
Proof.
  intros HQ. apply wp_bind, wp_startup_config. intros s0 H0 Hn0 Hl0.
  apply wp_bind. eapply wp_make_listen_sockets; [done..|]. clear dependent s0. intros s0 H0 Hn0.
  apply wp_bind. unfold wp at 1. cbn [est_gets].
  destruct (length _ <=? 0)%nat.
  { apply wp_bind. eapply wp_block; [done|]. intros s' H' _. by eapply wp_fail. }
  unfold no_threads in Hn0.
  apply wp_bind. eapply wp_create_member; [done|apply stands_db_request_queue|]. intros s1 H1 E1.
  apply wp_bind. eapply wp_create_member; [done|apply stands_db_currently_processing|]. intros s2 H2 E2.
  apply wp_bind. eapply wp_create_member; [done|apply stands_db_semaphore|]. intros s3 H3 E3.
  apply wp_bind. eapply wp_startup_db; [done|done| |].
  { unfold no_threads. by rewrite E3, E2, E1. }
  clear dependent s0 s1 s2 s3. intros s0 H0 Hn0. unfold no_threads in Hn0.
  apply wp_bind. eapply wp_create_member; [done|apply stands_cache|]. intros s1 H1 E1.
  eapply wp_startup_threads; [done| |].
  { unfold no_threads. by rewrite E1. }
  intros s' H' Hp. eapply HQ; [done| |done]. by intros [].
Qed.
End main.
