(* ===== verification/DaemonMainThm.v ===== *)
(** * The main thread releases what it acquired, whenever it stops

    From any state that satisfies the invariant of [DaemonMainFacts], [cleanup]
    stops the threads, then releases what they used, and exits. *)

From S2P Require Import Prelude Bag ConnControlFacts DaemonMain DaemonMainFacts.
Local Open Scope est_scope.

Section main.
Variable Y : sys.

(** ** Stopping the database threads *)

(** Threads with the flag of having been cancelled. *)
Definition flagged (e : bool) (ts : list nat) : list (nat * bool) := (fun t => (t, e)) <$> ts.

Lemma flagged_fst e ts : (flagged e ts).*1 = ts.
Proof. unfold flagged. by rewrite <- list_fmap_compose, list_fmap_id. Qed.

Lemma map_middle {A} (l1 : list (nat * A)) k v l2 v' :
  NoDup (l1 ++ (k, v) :: l2).*1 ->
  (list_to_map (l1 ++ (k, v) :: l2) : gmap nat A) !! k = Some v
  /\ <[k := v']> (list_to_map (l1 ++ (k, v) :: l2) : gmap nat A) = list_to_map (l1 ++ (k, v') :: l2).
Proof.
  intros Hd. assert (Hd' : NoDup (l1 ++ (k, v') :: l2).*1) by (rewrite !fmap_app in *; done).
  rewrite (list_to_map_proper (l1 ++ (k, v) :: l2) ((k, v) :: l1 ++ l2)) by (done || by rewrite Permutation_middle).
  rewrite (list_to_map_proper (l1 ++ (k, v') :: l2) ((k, v') :: l1 ++ l2)) by (done || by rewrite Permutation_middle).
  split; [apply lookup_head|]. cbn. by rewrite insert_insert_eq.
Qed.

Lemma wp_cancel_loop b slots pend (post : list (nat * nat)) : forall fuel it pre s (Q : unit -> daemon -> Prop) R,
  bag_rep b slots -> at_iter slots it pre.*1 post.*1 ->
  Forall (fun g => thread_ids s !! g.1 = Some (Some g.2)) post ->
  NoDup (pre.*2 ++ post.*2 ++ pend) ->
  db_running s = list_to_map (flagged true pre.*2 ++ flagged false post.*2 ++ flagged false pend) ->
  (length post <= fuel)%nat ->
  Q tt (d_db_running (list_to_map (flagged true (pre ++ post).*2 ++ flagged false pend)) s) ->
  wp (cancel_loop fuel b it) s Q R.
Proof.
  induction post as [|[p t] post IH]; intros fuel it pre s Q R Hr Hit Ht Hd Hm Hf HQ.
  { assert (it = None) as ->.
    { destruct it as [i|]; [|done]. by destruct (at_iter_post _ _ _ _ Hit). }
    rewrite app_nil_r in HQ. cbn in Hm. rewrite <- Hm in HQ. destruct fuel; apply wp_ret; by destruct s. }
  destruct (iter_next _ _ _ _ _ _ Hr Hit) as (Eg & it' & En & Hit').
  destruct it as [i|]; [|by destruct Hit]. destruct fuel as [|fuel]; [cbn in Hf; lia|].
  inversion Ht as [|? ? Hp Ht']; subst. cbn in Hp.
  assert (Hdm : NoDup (flagged true pre.*2 ++ (t, false) :: flagged false post.*2 ++ flagged false pend).*1).
  { rewrite fmap_app, fmap_cons, fmap_app, !flagged_fst. exact Hd. }
  destruct (map_middle _ _ _ _ true Hdm) as [Hl Hi]. cbn [flagged fmap list_fmap app] in Hm. cbn in Hm.
  change (db_running s = list_to_map (flagged true pre.*2 ++ (t, false) :: flagged false post.*2 ++ flagged false pend)) in Hm.
  rewrite <- Hm in Hl, Hi. cbn [cancel_loop].
  apply wp_bind. eapply wp_dread; [exact Eg|]. apply wp_bind. eapply wp_thread_of; [done|].
  apply wp_bind. eapply wp_db_cancel; [done|]. apply wp_bind. eapply wp_dread; [exact En|].
  apply (IH fuel it' (pre ++ [(p, t)])).
  - done.
  - by rewrite fmap_app.
  - done.
  - rewrite fmap_app, <- app_assoc. exact Hd.
  - cbn. rewrite Hi, fmap_app. unfold flagged. rewrite fmap_app, <- app_assoc. done.
  - cbn in Hf. lia.
  - by rewrite <- app_assoc.
Qed.

Lemma wp_join_loop pend pe (post : list (nat * nat)) : forall fuel it b slots s (Q : unit -> daemon -> Prop) R,
  bag_rep b slots -> bag_thread_safe b = false -> at_iter slots it [] post.*1 ->
  db_threads (run_state s) = Some b ->
  thread_ids s = list_to_map (((fun g => (g.1, Some g.2)) <$> post) ++ pe) ->
  NoDup (post.*1 ++ pe.*1) ->
  db_running s = list_to_map (flagged true post.*2 ++ flagged false pend) -> NoDup (post.*2 ++ pend) ->
  (length post <= fuel)%nat ->
  (forall b' slots' k, bag_rep b' slots' -> contents slots' = [] -> (dtick s <= k)%nat ->
     Q tt (d_run_state (rs_db_threads (Some b') (run_state s)) (d_dtick k
            (d_thread_ids (list_to_map pe) (d_db_running (list_to_map (flagged false pend)) s))))) ->
  wp (join_loop Y fuel it) s Q R.
Proof.
  induction post as [|[p t] post IH]; intros fuel it b slots s Q R Hr Hts Hit Eb Hi Hdi Hm Hdm Hf HQ.
  { assert (it = None) as ->.
    { destruct it as [i|]; [|done]. by destruct (at_iter_post _ _ _ _ Hit). }
    apply at_iter_contents in Hit. specialize (HQ b slots (dtick s) Hr Hit ltac:(lia)).
    cbn in Hi, Hm. rewrite <- Hi, <- Hm, <- Eb in HQ. destruct fuel; apply wp_ret; destruct s as [[] ? ? ? ? ? ? ? ? ?]; exact HQ. }
  destruct (iter_next _ _ _ _ _ _ Hr Hit) as (Eg & _).
  destruct it as [i|]; [|by destruct Hit]. destruct fuel as [|fuel]; [cbn in Hf; lia|].
  cbn in Hdi, Hdm. inversion Hdi as [|? ? Hp Hdi']; inversion Hdm as [|? ? Ht Hdm']; subst.
  cbn [join_loop]. apply wp_bind. eapply wp_the_bag; [done|]. apply wp_bind. eapply wp_dread; [exact Eg|].
  apply wp_bind. eapply wp_thread_of; [rewrite Hi; apply lookup_head|].
  apply wp_bind. apply wp_db_join; [rewrite Hm; apply lookup_head|].
  apply wp_bind. eapply wp_free_id; [cbn; rewrite Hi; apply lookup_head|].
  apply wp_bind, wp_now, wp_bind. set (m := y_bag Y _).
  destruct (erase_ok (fst m) (snd m) _ _ _ _ _ _ Hr Hit) as (b' & it' & slots' & E & Hr' & Hit').
  eapply wp_dread; [exact E|]. apply wp_bind, wp_modify. cbn [snd fst].
  apply (IH fuel it' b' slots'); try done.
  - by rewrite (erase_thread_safe _ _ _ _ _ _ E).
  - cbn. rewrite Hi. apply (delete_head p (Some t)).
    rewrite fmap_app, <- list_fmap_compose. exact Hp.
  - cbn. rewrite Hm. apply (delete_head t true). rewrite fmap_app, !flagged_fst. exact Ht.
  - cbn in Hf. lia.
  - intros b2 slots2 k H2 Hc Hk. apply (HQ b2 slots2 k H2 Hc). cbn in Hk. lia.
Qed.

(** Shutting down: what is left of [s0] once the members [ms] are gone. *)
Record closing (s0 : daemon) (ms : list member) (s : daemon) : Prop := {
  cl_inv : inv s;
  cl_code : exit_code s = exit_code s0;
  cl_signalled : signalled s = signalled s0;
  cl_gone : Forall (fun m => present (run_state s) m = false) ms }.

(** The tables with the threads of the bag first. *)
Lemma threads_bag_first s gs pe :
  threads_ok s gs pe ->
  thread_ids s = list_to_map (((fun g => (g.1, Some g.2)) <$> gs) ++ pe)
  /\ db_running s = list_to_map (flagged false gs.*2 ++ flagged false (omap snd pe))
  /\ NoDup (gs.*1 ++ pe.*1) /\ NoDup (gs.*2 ++ omap snd pe)
  /\ Forall (fun g => thread_ids s !! g.1 = Some (Some g.2)) gs.
Proof.
  intros []. unfold ids, tids in *. rewrite th_ids, th_run. split_and!.
  - apply list_to_map_proper; [done|apply Permutation_app_comm].
  - unfold flagged. rewrite <- fmap_app. apply list_to_map_proper; [|by rewrite Permutation_app_comm].
    fold (flagged false (omap snd pe ++ gs.*2)). by rewrite flagged_fst.
  - rewrite Permutation_app_comm. rewrite fmap_app, <- list_fmap_compose in th_ids_nodup. exact th_ids_nodup.
  - by rewrite Permutation_app_comm.
  - apply Forall_forall. intros g Hin. apply elem_of_list_to_map_1; [done|].
    apply elem_of_app. right. apply list_elem_of_fmap. by exists g.
Qed.

(** The bag and its threads are gone. *)
Lemma threads_no_bag s gs pe k :
  threads_ok s gs pe -> (dtick s <= k)%nat ->
  threads_ok (d_run_state (rs_db_threads None (run_state s)) (d_dtick k
    (d_thread_ids (list_to_map pe) (d_db_running (list_to_map (flagged false (omap snd pe))) s)))) [] pe.
Proof.
  intros [] Hk. unfold ids, tids in *. rewrite fmap_app in th_ids_nodup, th_ids_old.
  apply NoDup_app in th_ids_nodup as (? & _ & _). apply Forall_app in th_ids_old as [? _].
  apply NoDup_app in th_run_nodup as (? & _ & _). apply Forall_app in th_run_old as [? _].
  split; unfold ids, tids; cbn in *; rewrite ?app_nil_r; try done;
    (eapply Forall_impl; [done|]; intros; cbn in *; lia).
Qed.

Lemma wp_stop_db_threads s0 ms s (Q : unit -> daemon -> Prop) R :
  closing s0 ms s ->
  (forall s', closing s0 ms s' -> db_threads (run_state s') = None -> Q tt s') ->
  wp (stop_db_threads Y) s Q R.
Proof.
  intros H HQ. apply wp_bind, wp_get. destruct (db_threads (run_state s)) as [b|] eqn:Eb; [|by apply HQ].
  destruct H as [[Hf (gs & pe & Ht)] Hc Hg Hm]. pose proof (th_bag _ _ _ Ht) as Hbag. rewrite Eb in Hbag.
  destruct Hbag as (slots & Hr & Hts & Hcs). destruct (threads_bag_first _ _ _ Ht) as (Hi & Hj & Hd1 & Hd2 & Hin).
  unfold cancel_all_db_threads. apply wp_bind, wp_bind, wp_now, wp_bind. eapply wp_the_bag; [done|].
  unfold Bag_wrlock. rewrite Hts. cbn [negb].
  destruct (iter_begin _ _ Hr) as (it & Ei & Hit). rewrite Hcs in Hit.
  assert (Hlen : Z.to_nat (bag_size b) = length gs).
  { rewrite (rep_size _ _ Hr), Nat2Z.id. fold (contents slots). by rewrite Hcs, length_fmap. }
  rewrite Hlen. apply wp_bind. eapply wp_dread; [exact Ei|].
  apply wp_bind. eapply (wp_cancel_loop b slots (omap snd pe) gs _ _ []); [done|done|done|done|done|done|].
  apply wp_bind. eapply wp_dread; [exact Ei|].
  eapply (wp_join_loop (omap snd pe) pe gs); [done|done|done|done|done|done|done|done|done|].
  intros b' slots' k Hr' Hc' Hk. apply wp_bind. eapply wp_the_bag; [done|].
  rewrite (rep_size _ _ Hr'). fold (contents slots'). rewrite Hc'. cbn. apply HQ; [|done].
  split; try done. split; [by eapply flags_frame|]. exists [], pe.
  apply (threads_no_bag s gs pe k Ht). cbn in Hk. lia.
Qed.

Lemma wp_stop_inactive s0 ms s (Q : unit -> daemon -> Prop) R :
  closing s0 ms s -> db_threads (run_state s) = None ->
  (forall s', closing s0 ms s' -> no_threads s' -> Q tt s') -> wp stop_inactive_db_thread s Q R.
Proof.
  intros H En HQ. apply wp_bind, wp_get. destruct (db_thread (run_state s)) as [p|] eqn:Ep; [|by apply HQ].
  destruct H as [[Hf (gs & pe & Ht)] Hc Hg Hm]. pose proof (th_pending _ _ _ Ht) as Hp. rewrite Ep in Hp.
  destruct Hp as (o & -> & Ei). rewrite Ei.
  assert (Hend : forall m r, db_thread r = None -> db_threads r = None -> present r = present (run_state s) ->
      config_loaded r = config_loaded (run_state s) -> listen_fds r = listen_fds (run_state s) ->
      m = list_to_map ((fun t => (t, false)) <$> gs.*2) ->
      Q tt (d_run_state r (d_db_running m (d_thread_ids (delete p (thread_ids s)) s)))).
  { intros m r E1 E2 E3 E4 E5 E6. apply HQ; [|done]. split; try done; [|by cbn; rewrite E3].
    split; [by eapply flags_frame|]. exists gs, []. eapply threads_drop; [exact Ht|done|by rewrite E2|done]. }
  destruct o as [t|]; cbn [est_when bool_decide].
  - apply wp_bind, wp_bind. eapply wp_thread_of; [by eapply threads_id|].
    apply wp_bind. eapply wp_db_cancel; [by eapply threads_running|].
    apply wp_bind. apply wp_db_join; [apply lookup_insert_eq|]. apply wp_modify.
    apply wp_bind. eapply wp_free_id; [by eapply (threads_id s)|]. apply wp_modify.
    apply Hend; try done. by eapply threads_cancelled.
  - apply wp_bind, wp_ret, wp_bind. eapply wp_free_id; [by eapply (threads_id s)|]. apply wp_modify.
    apply (Hend (db_running s)); try done. by rewrite (th_run _ _ _ Ht).
Qed.

(** ** Releasing the rest *)

Lemma closing_member s0 ms s m v r :
  closing s0 ms s -> present r = upd m false (present (run_state s)) -> inv (d_run_state r v) ->
  exit_code v = exit_code s -> signalled v = signalled s -> closing s0 (m :: ms) (d_run_state r v).
Proof.
  intros [Hi Hc Hs Hg] Er Hv E1 E2. split; cbn; [done|by rewrite E1|by rewrite E2|]. rewrite Er.
  constructor; [unfold upd; by rewrite decide_True|]. eapply Forall_impl; [exact Hg|]. intros m'. cbn. unfold upd.
  by destruct (decide _).
Qed.

Lemma wp_stop_control s0 s (Q : unit -> daemon -> Prop) R :
  closing s0 [] s ->
  (forall s', closing s0 [connection_control_thread_initialized] s' -> Q tt s') ->
  wp (drop_member connection_control_thread_initialized stop_control) s Q R.
Proof.
  intros H HQ. apply wp_bind, wp_get.
  destruct (present (run_state s) connection_control_thread_initialized) eqn:Ep.
  - pose proof (cl_inv _ _ _ H) as Hi. pose proof (fl_control _ (proj1 Hi)) as Hc. rewrite Ep in Hc.
    apply wp_bind. unfold stop_control, control_cancel. apply wp_bind, wp_bind, wp_get, wp_bind.
    eapply wp_dread; [done|]. apply wp_put. unfold control_join. apply wp_bind, wp_get, wp_bind.
    eapply wp_dread; [done|]. apply (wp_put _ (d_control_running None s)), wp_modify. apply HQ.
    eapply (closing_member s0 [] s); [done|done| |done|done].
    eapply (inv_flags s); [done| |by split_and!]. destruct Hi as [[] _]. by split.
  - apply wp_ret, HQ. destruct H. split; try done. by constructor.
Qed.

(** No thread is left that uses anything. *)
Definition quiet (s : daemon) : Prop :=
  no_threads s /\ present (run_state s) connection_control_thread_initialized = false.

Lemma quiet_tables s : inv s -> quiet s -> control_running s = None /\ db_running s = ∅ /\ thread_ids s = ∅.
Proof.
  intros [[] (gs & pe & [])] [[Hn1 Hn2] Hp]. rewrite Hn1 in th_bag. rewrite Hn2 in th_pending. subst.
  rewrite Hp in fl_control. done.
Qed.

Lemma quiet_unused s x h : inv s -> quiet s -> res_used x (d_held h s) = false.
Proof.
  intros Hi Hq. destruct (quiet_tables _ Hi Hq) as (E1 & E2 & _). unfold res_used. cbn. rewrite E1, E2.
  by destruct (control_uses x), (db_uses x).
Qed.

Lemma wp_drop s0 ms s m x (Q : unit -> daemon -> Prop) R :
  closing s0 ms s -> quiet s -> stands_for m x -> expected (run_state s) x = present (run_state s) m ->
  (forall s', closing s0 (m :: ms) s' -> quiet s' -> listen_fds (run_state s') = listen_fds (run_state s) ->
     config_loaded (run_state s') = config_loaded (run_state s) -> Q tt s') ->
  wp (drop_member m (release x)) s Q R.
Proof.
  intros H Hq Hm Hx HQ. pose proof (cl_inv _ _ _ H) as Hi. apply wp_bind, wp_get.
  destruct (present (run_state s) m) eqn:Ep.
  - apply wp_bind. apply wp_release; [by rewrite (fl_held _ (proj1 Hi)), Hx|apply (quiet_unused s x (held s)); done|].
    apply wp_modify. apply HQ; try done.
    + eapply (closing_member s0 ms s); [done|done| |done|done]. eapply (inv_flags s); [done| |by split_and!].
      apply (flags_member s m x false); [apply Hi|done].
    + destruct Hq as [Hn Hq]. split; [done|]. cbn. unfold upd. by destruct (decide _).
  - apply wp_ret, HQ; try done. destruct H. split; try done. by constructor.
Qed.

Lemma wp_drop_db s0 ms s (Q : unit -> daemon -> Prop) R :
  closing s0 ms s -> quiet s ->
  (forall s', closing s0 (db :: ms) s' -> quiet s' -> Q tt s') ->
  wp (drop_member db (release DbConnection ;;; release DbThreadLocal ;;; release DbLibrary)) s Q R.
Proof.
  intros H Hq HQ. pose proof (cl_inv _ _ _ H) as Hi. apply wp_bind, wp_get.
  destruct (present (run_state s) db) eqn:Ep.
  - assert (Hh : forall x, held s x = expected (run_state s) x) by apply Hi.
    apply wp_bind, wp_bind, wp_release; [by rewrite Hh|apply (quiet_unused s _ (held s)); done|].
    apply wp_bind, wp_release; [cbn; unfold upd; cbn; by rewrite Hh|by apply quiet_unused|].
    apply wp_release; [cbn; unfold upd; cbn; by rewrite Hh|by apply (quiet_unused s _ (upd _ _ (upd _ _ _)))|].
    apply wp_modify. apply HQ.
    + eapply (closing_member s0 ms s); [done|done| |done|done]. eapply (inv_flags s); [done| |by split_and!].
      destruct Hi as [[] _]. split; try done. intros []; cbn; unfold upd; cbn; by rewrite ?Hh.
    + destruct Hq as [Hn Hq]. by split.
  - apply wp_ret, HQ; [|done]. destruct H. split; try done. by constructor.
Qed.

Lemma wp_close_listen_fds s0 ms n : forall s (Q : unit -> daemon -> Prop) R,
  closing s0 ms s -> quiet s -> length (listen_fds (run_state s)) = n ->
  (forall s', closing s0 ms s' -> quiet s' -> listen_fds (run_state s') = [] -> Q tt s') ->
  wp (close_listen_fds n) s Q R.
Proof.
  induction n as [|n IH]; intros s Q R H Hq Hl HQ; [apply HQ; [done..|by apply length_zero_iff_nil]|].
  pose proof (cl_inv _ _ _ H) as Hi. destruct (quiet_tables _ Hi Hq) as (Ec & _ & _).
  destruct (lookup_lt_is_Some_2 (listen_fds (run_state s)) n) as [fd Hfd]; [lia|].
  assert (El : listen_fds (run_state s) = take n (listen_fds (run_state s)) ++ [fd]).
  { rewrite <- (take_drop n (listen_fds (run_state s))) at 1. f_equal.
    rewrite (drop_S _ _ _ Hfd). f_equal. apply drop_ge. lia. }
  cbn [close_listen_fds]. apply wp_bind, wp_get, wp_bind. eapply wp_dread; [done|].
  pose proof (fl_fds _ (proj1 Hi)) as Ef. pose proof (fl_fds_nodup _ (proj1 Hi)) as Hd.
  apply wp_bind. unfold close_fd. apply wp_bind, wp_get.
  rewrite bool_decide_eq_true_2; [|rewrite Ef; apply elem_of_list_to_set; by eapply list_elem_of_lookup_2].
  rewrite Ec. cbn. apply wp_bind, wp_modify. apply IH; [|done| |done].
  - destruct H as [_ ? ? ?]. split; try done. eapply (inv_flags s); [done| |by split_and!].
    destruct Hi as [[] _]. split; try done; cbn.
    + rewrite Ef, El at 1. rewrite El in Hd. apply NoDup_app in Hd as (_ & Hd & _).
      rewrite list_to_set_app_L. set_solver.
    + rewrite El in Hd. by apply NoDup_app in Hd as (? & _ & _).
  - cbn. rewrite length_take. lia.
Qed.

(** Nothing is left. *)
Definition released (s : daemon) : Prop :=
  (forall x, held s x = false) /\ open_fds s = ∅ /\ thread_ids s = ∅ /\ db_running s = ∅ /\ control_running s = None.

Lemma wp_unload_config s0 ms s (Q : unit -> daemon -> Prop) R :
  closing s0 ms s -> quiet s -> listen_fds (run_state s) = [] ->
  (forall s', closing s0 ms s' -> quiet s' -> listen_fds (run_state s') = [] ->
     config_loaded (run_state s') = Some false -> Q tt s') ->
  wp unload_config s Q R.
Proof.
  intros H Hq Hl HQ. pose proof (cl_inv _ _ _ H) as Hi. pose proof (fl_config _ (proj1 Hi)) as [c Ec].
  apply wp_bind, wp_get, wp_bind. eapply wp_dread; [done|]. destruct c; [|by apply wp_ret, HQ]. cbn [est_when].
  apply wp_bind, wp_release; [rewrite (fl_held _ (proj1 Hi)); cbn; by rewrite Ec|by apply (quiet_unused s _ (held s))|].
  apply wp_modify, HQ; try done. destruct H as [_ ? ? ?]. split; try done.
  eapply (inv_flags s); [done| |by split_and!]. destruct Hi as [[] _]. split; try done.
  intros []; cbn; unfold upd; cbn; by rewrite ?fl_held.
Qed.

Lemma wp_main_cleanup s :
  leaving PthreadExit s ->
  wp (cleanup Y) s (fun _ _ => False)
    (fun e s' => e = Exit (exit_code s) /\ released s' /\ signalled s' = signalled s).
Proof.
  intros (_ & Hi & Hb & _). unfold cleanup. apply wp_bind, wp_get. rewrite Hb. cbn [negb].
  assert (H : closing s [] s) by (split; done).
  apply wp_bind. eapply wp_stop_control; [exact H|]. clear H. intros s1 H.
  apply wp_bind. eapply wp_stop_db_threads; [exact H|]. clear dependent s1. intros s1 H Hn1.
  apply wp_bind. eapply wp_stop_inactive; [exact H|done|]. clear dependent s1. intros s1 H Hn.
  assert (Hq : quiet s1).
  { split; [done|]. pose proof (cl_gone _ _ _ H) as Hg. by inversion Hg. }
  apply wp_bind. eapply wp_drop; [exact H|done|apply stands_cache|done|].
  intros s2 H2 Hq2 _ _. clear dependent s1. rename s2 into s1, H2 into H, Hq2 into Hq.
  apply wp_bind. eapply wp_drop_db; [exact H|done|]. clear dependent s1. intros s1 H Hq.
  apply wp_bind. eapply wp_drop; [exact H|done|apply stands_db_semaphore|done|].
  intros s2 H2 Hq2 _ _. clear dependent s1. rename s2 into s1, H2 into H, Hq2 into Hq.
  apply wp_bind. eapply wp_drop; [exact H|done|apply stands_db_currently_processing|done|].
  intros s2 H2 Hq2 _ _. clear dependent s1. rename s2 into s1, H2 into H, Hq2 into Hq.
  apply wp_bind. eapply wp_drop; [exact H|done|apply stands_db_request_queue|done|].
  intros s2 H2 Hq2 _ _. clear dependent s1. rename s2 into s1, H2 into H, Hq2 into Hq.
  apply wp_bind. unfold wp at 1. cbn [est_gets].
  apply wp_bind. eapply wp_close_listen_fds; [exact H|done|done|]. clear dependent s1. intros s1 H Hq Hl.
  apply wp_bind. eapply wp_unload_config; [exact H|done|done|]. clear dependent s1. intros s1 H Hq Hl Hc.
  apply wp_bind. eapply wp_drop; [exact H|done|apply stands_log|done|]. intros s2 H2 Hq2 El Ec.
  apply wp_bind, wp_get. unfold wp. cbn. rewrite (cl_code _ _ _ H2). split; [done|].
  split; [|apply (cl_signalled _ _ _ H2)]. pose proof (cl_inv _ _ _ H2) as Hi2.
  destruct (quiet_tables _ Hi2 Hq2) as (? & ? & ?). pose proof (cl_gone _ _ _ H2) as Hg. rewrite !Forall_cons in Hg.
  split_and!; [|rewrite (fl_fds _ (proj1 Hi2)), El, Hl; done|done..].
  intros x. rewrite (fl_held _ (proj1 Hi2)). destruct x; cbn; try apply Hg; [|done]. by rewrite Ec, Hc.
Qed.

Lemma wp_main_loop pr n : forall s (Q : unit -> daemon -> Prop),
  running false pr s -> (forall m, pr m = true) -> pool DB_INITIAL_THREADS s ->
  (forall s', running false pr s' -> pool DB_INITIAL_THREADS s' -> Q tt s') -> wp (main_loop Y n) s Q leaving.
Proof.
  induction n as [|n IH]; intros s Q H Hp Hpl HQ; [by apply HQ|].
  cbn [main_loop]. apply wp_bind. unfold signal_window. apply wp_bind, wp_now.
  destruct H as (Hi & Hpr & Hbl & Hs & He). destruct (y_signal Y (dtick s)).
  { unfold wp, signal_handler. cbn. split_and!; [done| |done|by cbn; rewrite He].
    eapply inv_frame; [exact Hi|done..|cbn; lia]. }
  apply wp_ret, wp_bind. eapply (wp_block (pr := pr) _ _ _ false).
  { split_and!; [|done..]. eapply inv_frame; [exact Hi|done..|cbn; lia]. }
  intros s1 H1 E1. apply (pool_run _ _ s1) in Hpl; [|done]. destruct H1 as (Hi1 & Hpr1 & Hbl1 & Hs1 & He1).
  apply wp_bind. unfold update_cache. apply wp_bind, wp_get.
  rewrite !(fl_held _ (proj1 Hi1)). cbn [expected]. rewrite Hpr1, !Hp. apply wp_ret, wp_bind.
  apply (wp_unblock Y pr); [done..|]. intros s2 H2 E2. apply IH; [done|done| |done]. by eapply pool_run.
Qed.
End main.

(** C26: The main thread of the daemon, against any behaviour of the system and
    for signals at any point after the configuration was loaded. It never
    releases something twice or while a thread that is not joined uses it, and
    never runs its cleanup with signals unblocked, where a second signal would
    run it again. When it exits, at whatever step of the start-up that was,
    every socket, object, thread and thread id is released and the status is
    success exactly when a signal ended it. While it runs, all of them are
    there, with the full number of database threads. *)
Theorem daemon_shutdown Y n :
  (forall k open fd, y_socket Y k open = Some fd -> fd ∉ open) ->
  y_signal Y 0 = false -> y_signal Y 1 = false ->
  match main Y n init_daemon with
  | (s, inr _) =>
      (forall x, x <> AddrInfo -> x <> Config -> held s x = true) /\ control_running s = Some false
      /\ size (db_running s) = DB_INITIAL_THREADS /\ size (thread_ids s) = DB_INITIAL_THREADS
      /\ open_fds s = list_to_set (listen_fds (run_state s))
  | (s, inl e) =>
      e = Exit (if signalled s then EXIT_SUCCESS else EXIT_FAILURE)
      /\ (forall x, held s x = false) /\ open_fds s = ∅ /\ thread_ids s = ∅ /\ db_running s = ∅
      /\ control_running s = None
  end.
Proof.
  intros Hs H0 H1. unfold main, est_bind at 1. cbn [initialize_run_state run_modify est_modify].
  change (d_run_state _ init_daemon) with init_daemon.
  assert (Hw : wp (handle_signals Y ;;; startup Y ;;; main_loop Y n) init_daemon
            (fun _ s => exists pr, running false pr s /\ (forall m, pr m = true) /\ pool DB_INITIAL_THREADS s) leaving).
  { apply wp_bind. unfold handle_signals, signal_window. apply wp_bind, wp_now. cbn [dtick init_daemon]. rewrite H0.
    apply wp_ret, wp_bind. apply (wp_startup Y Hs (conj H0 H1)). intros s pr Hr Hp Hpl.
    eapply wp_main_loop; [done..|]. intros s' Hr' Hpl'. by exists pr. }
  unfold wp in Hw. destruct ((handle_signals Y ;;; startup Y ;;; main_loop Y n) init_daemon) as [s [e|u]].
  - pose proof Hw as (-> & _ & _ & Ee). apply (wp_main_cleanup Y) in Hw. unfold wp in Hw.
    destruct (cleanup Y s) as [s' [e|u]]; [|done]. destruct Hw as (-> & (? & ? & ? & ? & ?) & E).
    by rewrite E, Ee.
  - destruct Hw as (pr & (Hi & <- & _) & Hp & Hpl). destruct (pool_threads _ _ Hi Hpl) as [gs []].
    destruct Hpl as (b & Eb & Hsz & _). rewrite Eb in th_bag. destruct th_bag as (slots & Hr & _ & Hc).
    assert (Hl : length gs = DB_INITIAL_THREADS).
    { rewrite (rep_size _ _ Hr) in Hsz. fold (contents slots) in Hsz. rewrite Hc, length_fmap in Hsz. lia. }
    destruct Hi as [[] _]. rewrite Hp in fl_control.
    rewrite th_run, th_ids, !map_size_list_to_map; [|done|by rewrite <- list_fmap_compose, list_fmap_id].
    unfold tids, ids. cbn. rewrite !length_fmap, Hl. split_and!; try done.
    intros x Hx1 Hx2. rewrite fl_held. destruct x; cbn; try apply Hp; done.
Qed.

(** A system in which every call succeeds, with two addresses to listen on and
    a signal at the point numbered [stop_at]. *)
Definition calm_system (stop_at : nat) : sys :=
  mkSys (fun k => Nat.eqb k stop_at) true (Some 2%nat)
    (fun _ open => head (filter (fun fd => fd ∉ open) (seqZ 3 100)))
    (fun _ => true) (fun _ => true) (fun _ => true) true true true true true true true
    (true, true, true, true) (fun _ => true) (fun _ => true) (fun _ => (true, true)) (fun _ => true) true.

Lemma daemon_shutdown_witness :
  match main (calm_system 41) 3 init_daemon with
  | (s, inr _) =>
      (forall x, x <> AddrInfo -> x <> Config -> held s x = true) /\ control_running s = Some false
      /\ size (db_running s) = DB_INITIAL_THREADS /\ size (thread_ids s) = DB_INITIAL_THREADS
      /\ open_fds s = list_to_set (listen_fds (run_state s))
  | (s, inl e) =>
      e = Exit (if signalled s then EXIT_SUCCESS else EXIT_FAILURE)
      /\ (forall x, held s x = false) /\ open_fds s = ∅ /\ thread_ids s = ∅ /\ db_running s = ∅
      /\ control_running s = None
  end.
Proof.
  apply daemon_shutdown; [|done|done]. intros k open fd. cbn -[filter seqZ].
  destruct (filter _ _) as [|x l] eqn:E; [done|]. intros [= <-].
  assert (Hx : x ∈ filter (fun fd => fd ∉ open) (seqZ 3 100)) by (rewrite E; left).
  by apply list_elem_of_filter in Hx as [Hx _].
Defined.

(** Signals while the seventh database thread is being created, and none. *)
Example calm_runs :
  snd (main (calm_system 41) 3 init_daemon) = inl (Exit EXIT_SUCCESS)
  /\ snd (main (calm_system 1000) 3 init_daemon) = inr tt
  /\ elements (open_fds (fst (main (calm_system 1000) 3 init_daemon))) = [3; 4].
Proof. by vm_compute. Qed.

(** [initialize_run_state] leaves [config_loaded] indeterminate: when a signal
    arrives before the configuration is loaded, [cleanup] reads it. *)
Lemma early_signal_reads_config_loaded :
  snd (main (calm_system 0) 0 init_daemon) = inl HUndefined
  /\ snd (main (calm_system 1) 0 init_daemon) = inl HUndefined.
Proof. by vm_compute. Qed.
